(* ===== verification/_CoqProject ===== *)
-Q . S2P
Prelude.v
Machine.v
Spinlock.v
Console.v
Mem.v
CString.v
Kalloc.v
SpinConc.v
PrioLock.v
Sched.v
Vm.v
Uvm.v
Sleeplock.v
SleepConc.v
Pipe.v
Ring.v
Bytes.v
Bio.v
Cache.v
Ide.v
Log.v
Recovery.v
Txn.v
LogSpace.v
Fs.v
FsView.v
Balloc.v
Inode.v
Content.v
Args.v
ConsoleIn.v
Editor.v
Kbd.v
File.v
Rdwr.v
Dir.v
Namei.v
Proc.v
Lifecycle.v
Fork.v
Exec.v
Sysfile.v
Syscall.v
Grep.v
Wc.v
User.v
ShParse.v
ShGrammar.v
ShCorrect.v
ShRun.v
Programs.v
Umalloc.v
Mp.v
Boot.v
Apic.v
Mkfs.v
MkfsCorrect.v
