(* ===== verification/Prelude.v ===== *)
(** * A verification development of the xv6-based OS-lab kernel

    The program is xv6 for x86 (src/xv6): a Unix-like kernel for several
    processors, its boot loader, the program that makes the disk image, a shell
    and small user programs, with the additions of the course: a priority lock,
    a user spin lock, counters of system calls and shared pages.

    ** How the code is modelled

    The kernel runs as explicit state passing.  [M S A] of this file is the
    monad of a run over the state [S]: it ends with [Ok a s] or with [Stop w s],
    where [w] is the message of a [panic], a fault (an access that C does not
    define, or fuel that ran out), a lock for which the CPU spins, or a [Switch]
    of stacks.  [K C A] of Machine.v is the monad over the machine (the CPUs,
    the process table, the spin locks and the log of the serial line) and the
    data [C] of a component; a component with data inside another one is reached
    through a lens.  C integers are [Z] with the wrap-around written out
    ([u8], [u32], [s32] and so on); structures are records; memory is a map from
    addresses to bytes; disk blocks are lists of bytes.

    A function that sleeps or switches ends its run with [Stop Switch]; what it
    does when it is resumed is the definition with the suffix [_resume].
    Theorems about one function are about the run up to there and about the
    resumed run; the interleavings of several processes or processors are step
    relations (SpinConc, PrioLock, SleepConc, Pipe, LogSpace) with invariants by
    induction on the steps.  User programs are trees of system calls ([prog] of
    User.v) that an interpretation of the system calls runs.  Devices and the
    files of the host are parameters; the hypotheses about a device are the
    fields of a class, each with an instance that is a simple simulation.

    ** The files

    - This file: integers, the monad, list lemmas.  Machine: the header files
      (param.h, memlayout.h, mmu.h, x86.h, proc.h, spinlock.h).
    - Spinlock: spinlock.c and the current CPU and process of proc.c.  SpinConc:
      spin locks of several processors and the user lock of userlock.c.
      PrioLock: the queue and the protocol of the priority lock.
    - Console, ConsoleIn, Kbd: console.c, uart.c, kbd.c and procdump of proc.c.
      Editor: the console refines a line editor.
    - Mem, CString: string.c and the string functions of ulib.c.
    - Kalloc, Vm, Uvm: the page allocator (kalloc.c) and page tables (vm.c).
    - Sched, Proc: proc.c.  Lifecycle, Fork: theorems on the end and the
      creation of processes.  Sleeplock, SleepConc: sleeplock.c.  Pipe: pipe.c.
    - Ring, Bytes: linked lists and structures in blocks.  Bio, Cache: bio.c and
      memide.c.  Ide: ide.c.  Log, Recovery, Txn, LogSpace: log.c.
    - Fs: all of fs.c.  FsView, Balloc, Inode, Content, Rdwr, Dir, Namei: its theorems, over
      the logical disk that the log and the cache present.  Mkfs: mkfs.c.
    - Args, File, Exec, Sysfile, Syscall: system calls (syscall.c, file.c,
      exec.c, sysfile.c, sysproc.c, sysutils.c) and trap.c.
    - Grep, Wc, User, Programs: printf.c, ulib.c and the small user programs.
      ShParse, ShGrammar, ShCorrect, ShRun: the shell (sh.c).  Umalloc:
      umalloc.c.
    - Boot, Mp, Apic: bootmain.c, mp.c, lapic.c, ioapic.c and picirq.c.

    ** What the theorems show

    Crash safety: a commit is atomic whatever disk write the machine stops
    after, also when the recovery stops again (Recovery); when operations keep to
    their reservation the header never overflows, and [log_write] returns in a
    log of more than LOGSIZE blocks but panics in one of the size that mkfs.c
    makes (LogSpace); [begin_op], [log_write] and [end_op] on
    every branch (Txn).  Concurrency: mutual exclusion of spin, user, priority
    and sleep locks, no lost wakeup, and the order of the bytes in a pipe, in
    every interleaving.  Memory: the free list, page tables and address spaces
    keep their contents and lose no page, on the error paths too (Kalloc, Vm,
    Uvm); the user heap never hands out a byte twice (Umalloc).  Files: the
    cache is a recency list and transparent (Bio), the driver serves its queue in
    order (Ide), blocks, inodes and the bytes of files are what was written
    (Balloc, Inode, Rdwr), a directory is a list of names (Dir; linking [.]
    never returns), a path denotes the inode that a walk through the tree finds
    (Namei), and the image that mkfs makes is a file system in
    the sense of these theorems, with the files it was given (Mkfs).
    Processes: the scheduler, [sleep], [wakeup] and [kill] (Sched); [fork] makes a
    copy that shares the open files, or gives everything back (Fork); [exit]
    leaves a zombie that [wait] finds and frees to its last page (Lifecycle);
    arguments of system calls are read inside the process only (Args).  Programs: the parser
    of the shell is the grammar, a session starts exactly the programs the
    lines denote, and the filters print what they should.  Start: the boot
    loader, the processor tables and the keyboard tables.  Console: what is
    typed is edited, echoed and read line by line as a line editor does (Editor).

    ** Fuel

    Loops that are not structural take fuel, and running out of it is a fault,
    which the theorems exclude: the parser of the shell has 4 units for a
    character and 4 more, the loops over pages one for each page of the range,
    the loops over blocks one for each block and one more, [malloc] twice the
    number of free blocks and 3, [free] the number of free blocks, [readseg]
    one for each sector and 3.  Loops that wait for a device take the number of
    polls, for which the device is assumed to become ready.

    ** Abstractions

    - Messages of [panic] are without their newline; call stacks are not
      recorded in locks.
    - A spin lock that is not free ends the run of its CPU with [Stop Spin]; the
      theorems of one CPU assume it free, those on interleavings do not.
    - Trap frames and contexts are values in the process record; pipes in their
      pages are records; bytes to and from user buffers are lists.
    - The write of one disk block is atomic.
    - In the step relations of PrioLock, Pipe and LogSpace a critical section of
      a spin lock is one step, which the mutual exclusion of SpinConc justifies.
    - The accessed and dirty bits that the processor sets in page tables are not
      modelled: the entries are what the kernel wrote.
    - The cache, the log and the file system are proved against the interface
      [BlockDev] of a disk, whose instance is memide.c; the interrupt-driven
      driver of ide.c, whose [iderw] sleeps, has its own theorems (Ide).
    - Counters of type int that are bounded by a table or a buffer, such as the
      open operations of the log, are not wrapped.
    - The system calls under the user programs are idealised ([file_os] of
      Programs: reads and writes are complete).
    - In the shell a child runs before the parent goes on; the programs it
      starts are entries of a log; memory for its nodes is a number of nodes.
    - The files of the host that mkfs reads are lists of pieces, and its writes
      to the image file succeed.

    ** Not modelled

    main.c calls the initialisation functions in order and starts the other
    processors; it has no logic of its own, and the code it starts them with is
    assembly, as are entry.S, bootasm.S, swtch.S, trapasm.S, initcode.S and
    usys.S.  [tvinit] and [idtinit] fill the interrupt table with addresses of
    generated code (vectors.S).  [microdelay] is empty.  usertests.c and tms.c are
    tests: the first has no function in the system, the second uses shared
    memory calls whose kernel side does not compile (sysutils.c, line 77; the address
    that line should compute is a parameter in Syscall.v). *)

From Stdlib Require Export ZArith Lia Bool.
From Corelib Require Export ssreflect.
From stdpp Require Export base tactics numbers relations functions list gmap
  strings fin_maps.

#[export] Set Default Proof Using "Type".
Global Open Scope general_if_scope.
Global Open Scope Z_scope.

(** ** Machine integers

    A C object of a w-bit integer type is a [Z] kept in its range by the
    wrap-around functions below, which the definitions apply where the C
    conversion rules do. *)

Definition wrapu (w x : Z) : Z := x mod 2 ^ w.
Definition wraps (w x : Z) : Z :=
  let y := x mod 2 ^ w in if y <? 2 ^ (w - 1) then y else y - 2 ^ w.

Abbreviation u8 := (wrapu 8).
Abbreviation u16 := (wrapu 16).
Abbreviation u32 := (wrapu 32).
Abbreviation s8 := (wraps 8).
Abbreviation s16 := (wraps 16).
Abbreviation s32 := (wraps 32).

(** ** Outcomes of kernel code

    A kernel routine either returns or stops.  It stops by calling [panic], by a
    memory access the C program must not make (a null pointer, an index out
    of an array), by spinning on a lock another CPU holds, or by giving the
    CPU up in [sched()] (the routine continues when it is scheduled again). *)

(** The address of a kernel object that the code only compares: the name of
    the C object and an index (its slot, or the address it lives at). *)
Abbreviation objaddr := (string * Z)%type (only parsing).

Inductive stop : Type :=
| Panic (msg : string)
| Fault (msg : string)
| Spin (lk : objaddr)
| Switch.

Inductive outcome (S A : Type) : Type :=
| Ok (a : A) (s : S)
| Stop (w : stop) (s : S).
Arguments Ok {S A} a s.
Arguments Stop {S A} w s.

Definition M (S A : Type) : Type := S → outcome S A.

#[export] Instance M_ret S : MRet (M S) := λ A a s, Ok a s.
#[export] Instance M_bind S : MBind (M S) := λ A B k m s,
  match m s with Ok a s' => k a s' | Stop w s' => Stop w s' end.

Definition stop_with {S A} (w : stop) : M S A := λ s, Stop w s.
Definition panic {S A} (msg : string) : M S A := stop_with (Panic msg).
Definition fault {S A} (msg : string) : M S A := stop_with (Fault msg).

Definition get {S} : M S S := λ s, Ok s s.
Definition gets {S A} (f : S → A) : M S A := λ s, Ok (f s) s.
Definition put {S} (s' : S) : M S unit := λ _, Ok tt s'.
Definition modify {S} (f : S → S) : M S unit := λ s, Ok tt (f s).

(** [when b m]: the C statement [if(b) m]. *)
Definition when {S} (b : bool) (m : M S unit) : M S unit :=
  if b then m else mret tt.

(** [mfor l f]: the loop [for(x in l) f(x)], left to right. *)
Fixpoint mfor {S A} (l : list A) (f : A → M S unit) : M S unit :=
  match l with
  | [] => mret tt
  | x :: l => f x;; mfor l f
  end.

(** [mrepeat n m]: run [m] n times. *)
Fixpoint mrepeat {S} (n : nat) (m : M S unit) : M S unit :=
  match n with
  | O => mret tt
  | S n => m;; mrepeat n m
  end.

(** *** Equations of the monad *)

Section monad_laws.
Context {S : Type}.

Lemma bind_run {A B} (m : M S A) (k : A → M S B) s :
  (m ≫= k) s = match m s with Ok a s' => k a s' | Stop w s' => Stop w s' end.
Proof. reflexivity. Qed.

Lemma bind_ok {A B} (m : M S A) (k : A → M S B) s a s' :
  m s = Ok a s' → (m ≫= k) s = k a s'.
Proof. intros H. by rw bind_run H. Qed.

Lemma bind_stop {A B} (m : M S A) (k : A → M S B) s w s' :
  m s = Stop w s' → (m ≫= k) s = Stop w s'.
Proof. intros H. by rw bind_run H. Qed.

Lemma bind_ok_inv {A B} (m : M S A) (k : A → M S B) s b s' :
  (m ≫= k) s = Ok b s' → ∃ a s1, m s = Ok a s1 ∧ k a s1 = Ok b s'.
Proof. rw bind_run. destruct (m s) as [a s1|]; naive_solver. Qed.

Lemma bind_assoc {A B C} (m : M S A) (f : A → M S B) (g : B → M S C) s :
  ((m ≫= f) ≫= g) s = (m ≫= λ a, f a ≫= g) s.
Proof. rw !bind_run. by destruct (m s). Qed.

Lemma mfor_app {A} (l1 l2 : list A) (f : A → M S unit) s :
  mfor (l1 ++ l2) f s = (mfor l1 f;; mfor l2 f) s.
Proof.
  revert s. induction l1 as [|x l1 IH]; intros s; [done|].
  simpl. rw bind_assoc !bind_run.
  destruct (f x s) as [[] s'|]; [apply IH|done].
Qed.

(** A loop whose invariant [I] depends on the elements done. *)
Lemma mfor_rule {A} (I : list A → S → Prop) (f : A → M S unit) (l : list A) : ∀ l0 s,
  I l0 s →
  (∀ l1 x l2 s, l0 ++ l = l1 ++ x :: l2 → I l1 s → ∃ s', f x s = Ok tt s' ∧ I (l1 ++ [x]) s') →
  ∃ s', mfor l f s = Ok tt s' ∧ I (l0 ++ l) s'.
Proof.
  induction l as [|x l IH]; intros l0 s HI Hstep; cbn.
  - exists s. by rw app_nil_r.
  - destruct (Hstep l0 x l s eq_refl HI) as (s1 & E & HI').
    rw (bind_ok _ _ _ _ _ E). destruct (IH (l0 ++ [x]) s1 HI') as (s' & E' & H').
    + intros l1 y l2 s2. rw -app_assoc. apply Hstep.
    + exists s'. by rw -app_assoc in H'.
Qed.
End monad_laws.

(** [mrun]: compute the bind at the head of the goal with a lemma for its
    first operand. *)
Tactic Notation "mrun" uconstr(H) :=
  first [ rw (bind_ok _ _ _ _ _ H) | rw (bind_stop _ _ _ _ _ H) ].

(** ** Case analysis of boolean tests *)

Ltac case_bool :=
  match goal with
  | |- context [ (?a =? ?b)%Z ] => destruct (Z.eqb_spec a b)
  | |- context [ (?a <? ?b)%Z ] => destruct (Z.ltb_spec a b)
  | |- context [ (?a <=? ?b)%Z ] => destruct (Z.leb_spec a b)
  | H : context [ (?a =? ?b)%Z ] |- _ => destruct (Z.eqb_spec a b)
  | H : context [ (?a <? ?b)%Z ] |- _ => destruct (Z.ltb_spec a b)
  | H : context [ (?a <=? ?b)%Z ] |- _ => destruct (Z.leb_spec a b)
  end.

(** [lia] with the equations of division and remainder by constants. *)
Ltac dlia := Z.to_euclidean_division_equations; lia.

(** ** Integers: wrap-around is the identity in range *)

Lemma wrapu_small w x : 0 ≤ x < 2 ^ w → wrapu w x = x.
Proof. intros. unfold wrapu. by apply Z.mod_small. Qed.

Lemma wrapu_range w x : 0 ≤ w → 0 ≤ wrapu w x < 2 ^ w.
Proof. intros. unfold wrapu. apply Z.mod_pos_bound. lia. Qed.

Lemma wrapu_idem w x : 0 ≤ w → wrapu w (wrapu w x) = wrapu w x.
Proof. intros. apply wrapu_small, wrapu_range. lia. Qed.

Lemma pow2_half w : 0 < w → 2 ^ w = 2 * 2 ^ (w - 1) ∧ 0 < 2 ^ (w - 1).
Proof.
  intros. split; [|apply Z.pow_pos_nonneg; lia].
  replace w with (Z.succ (w - 1)) at 1 by lia. apply Z.pow_succ_r. lia.
Qed.

Lemma wraps_range w x : 0 < w → - 2 ^ (w - 1) ≤ wraps w x < 2 ^ (w - 1).
Proof.
  intros Hw. unfold wraps; cbv zeta.
  destruct (pow2_half w Hw) as [E E0].
  pose proof (Z.mod_pos_bound x (2 ^ w) ltac:(lia)). case_bool; lia.
Qed.

Lemma wraps_small w x : 0 < w → - 2 ^ (w - 1) ≤ x < 2 ^ (w - 1) → wraps w x = x.
Proof.
  intros Hw Hx. unfold wraps; cbv zeta.
  destruct (pow2_half w Hw) as [E E0].
  destruct (Z.lt_ge_cases x 0).
  - rw (Z.mod_eq x (2 ^ w)); [lia|].
    rw -(Z.div_unique x (2 ^ w) (-1) (x + 2 ^ w)); [lia..|].
    case_bool; lia.
  - rw Z.mod_small; [lia|]. case_bool; lia.
Qed.

Lemma wrapu_of_wraps w x : 0 < w → 0 ≤ x < 2 ^ w → wrapu w (wraps w x) = x.
Proof.
  intros Hw Hx. unfold wrapu, wraps; cbv zeta. rewrite -> (Z.mod_small x) by done.
  case_bool; [by apply Z.mod_small|]. rewrite <- (Z.mod_add _ 1) by lia. rewrite -> Z.mod_small by lia. lia.
Qed.

(** ** Lists updated in place *)

Lemma alter_ext_at {A} (f g : A → A) i (l : list A) x :
  l !! i = Some x → f x = g x → alter f i l = alter g i l.
Proof.
  intros Hx Hfg. apply list_eq. intros j. rw !list_lookup_alter.
  case_decide as E; [|done]. subst j. rw Hx /=. by rw Hfg.
Qed.

Lemma alter_id_at {A} (f : A → A) i (l : list A) x :
  l !! i = Some x → f x = x → alter f i l = l.
Proof.
  intros Hx Hf. apply list_eq. intros j. rw list_lookup_alter.
  case_decide as E; [|done]. subst j. rw Hx /=. by rw Hf.
Qed.

Lemma alter_commute {A} (f g : A → A) i j (l : list A) :
  i ≠ j → alter f i (alter g j l) = alter g j (alter f i l).
Proof.
  intros Hij. apply list_eq. intros k. rw !list_lookup_alter. repeat case_decide; congruence.
Qed.

Lemma list_alter_alter {A} (f g : A → A) i (l : list A) :
  alter f i (alter g i l) = alter (f ∘ g) i l.
Proof.
  apply list_eq. intros j. rw !list_lookup_alter.
  case_decide; [|done]. rw decide_True //. by destruct (l !! i).
Qed.

(** ** Invariants of step relations *)

Lemma rtc_invariant {A} (R : relation A) (I : A → Prop) x y :
  (∀ a b, I a → R a b → I b) → I x → rtc R x y → I y.
Proof. intros Hstep Hx. induction 1 as [|a b c Hab _ IH]; eauto. Qed.

(** Case analysis of an updated program counter. *)
Ltac pc_cases :=
  repeat match goal with
  | H : context [ <[?i := _]> ?f ?j ] |- _ =>
      destruct (decide (i = j)); [subst; rewrite -> fn_lookup_insert in H
                                 |rewrite -> fn_lookup_insert_ne in H by done]
  | |- context [ <[?i := _]> ?f ?j ] =>
      destruct (decide (i = j)); [subst; rewrite -> fn_lookup_insert
                                 |rewrite -> fn_lookup_insert_ne by done]
  end.

Lemma list_filter_all {A} (P : A → Prop) `{∀ x, Decision (P x)} (l : list A) :
  (∀ x, x ∈ l → P x) → filter P l = l.
Proof.
  intros Hl. induction l as [|x l IH]; [done|]. rewrite -> filter_cons_True by (apply Hl; set_solver).
  f_equal. apply IH. intros y Hy. apply Hl. set_solver.
Qed.

(** A property of the numbers below [n], by computation. *)
Lemma forallb_range (f : Z → bool) n b : forallb f (seqZ 0 n) = true → 0 ≤ b < n → f b = true.
Proof. intros Hf Hb. eapply forallb_forall; [exact Hf|]. apply list_elem_of_In, elem_of_seqZ. lia. Qed.
