(* ===== verification/Machine.v ===== *)
(** * The machine and the process table: the structures of the header files

    [param.h], [memlayout.h], [mmu.h], [x86.h], [proc.h] and [spinlock.h]:
    the constants the kernel is built with, the per-CPU and per-process
    records, and the part of the kernel state every component shares: the
    registers of the CPU that executes, the CPU table, the spin locks and
    the process table. *)

From S2P Require Import Prelude.

(** ** param.h *)

Definition NPROC : nat := 64.
Definition KSTACKSIZE : Z := 4096.
Definition NCPU : nat := 8.
Definition NOFILE : nat := 16.
Definition NFILE : nat := 100.
Definition NINODE : nat := 50.
Definition NDEV : Z := 10.
Definition ROOTDEV : Z := 1.
Definition MAXARG : nat := 32.
Definition MAXOPBLOCKS : Z := 10.
Definition LOGSIZE : Z := MAXOPBLOCKS * 3.
Definition NBUF : nat := Z.to_nat (MAXOPBLOCKS * 3).
Definition FSSIZE : Z := 1000.

(** ** memlayout.h *)

Definition EXTMEM : Z := 0x100000.
Definition PHYSTOP : Z := 0xE000000.
Definition DEVSPACE : Z := 0xFE000000.
Definition KERNBASE : Z := 0x80000000.
Definition KERNLINK : Z := KERNBASE + EXTMEM.
Definition V2P (a : Z) : Z := u32 (a - KERNBASE).
Definition P2V (a : Z) : Z := u32 (a + KERNBASE).

(** ** mmu.h: segments, page numbers, page table entries *)

Definition SEG_KCODE : Z := 1.
Definition SEG_KDATA : Z := 2.
Definition SEG_UCODE : Z := 3.
Definition SEG_UDATA : Z := 4.
Definition SEG_TSS : Z := 5.
Definition NSEGS : nat := 6.
Definition DPL_USER : Z := 3.
Definition FL_IF : Z := 0x200.
Definition STA_X : Z := 8.
Definition STA_W : Z := 2.
Definition STA_R : Z := 2.
Definition STS_T32A : Z := 9.

Record segdesc : Type := MkSeg {
  sd_lim_15_0 : Z;
  sd_base_15_0 : Z;
  sd_base_23_16 : Z;
  sd_type : Z;
  sd_s : Z;
  sd_dpl : Z;
  sd_p : Z;
  sd_lim_19_16 : Z;
  sd_avl : Z;
  sd_rsv1 : Z;
  sd_db : Z;
  sd_g : Z;
  sd_base_31_24 : Z
}.

Definition SEG (type base lim dpl : Z) : segdesc :=
  MkSeg (Z.land (Z.shiftr lim 12) 0xffff) (Z.land base 0xffff)
        (Z.land (Z.shiftr base 16) 0xff) type 1 dpl 1
        (Z.shiftr lim 28) 0 0 1 1 (Z.shiftr base 24).
Definition SEG16 (type base lim dpl : Z) : segdesc :=
  MkSeg (Z.land lim 0xffff) (Z.land base 0xffff)
        (Z.land (Z.shiftr base 16) 0xff) type 1 dpl 1
        (Z.shiftr lim 16) 0 0 1 0 (Z.shiftr base 24).

Definition NPDENTRIES : Z := 1024.
Definition NPTENTRIES : Z := 1024.
Definition PGSIZE : Z := 4096.
Definition PTXSHIFT : Z := 12.
Definition PDXSHIFT : Z := 22.
Definition PDX (va : Z) : Z := Z.land (Z.shiftr va PDXSHIFT) 0x3FF.
Definition PTX (va : Z) : Z := Z.land (Z.shiftr va PTXSHIFT) 0x3FF.
Definition PGADDR (d t o : Z) : Z :=
  u32 (Z.lor (Z.lor (Z.shiftl d PDXSHIFT) (Z.shiftl t PTXSHIFT)) o).
Definition PGROUNDUP (sz : Z) : Z := Z.land (u32 (sz + PGSIZE - 1)) (Z.lnot (PGSIZE - 1)).
Definition PGROUNDDOWN (a : Z) : Z := Z.land a (Z.lnot (PGSIZE - 1)).
Definition PTE_P : Z := 1.
Definition PTE_W : Z := 2.
Definition PTE_U : Z := 4.
Definition PTE_PS : Z := 0x80.
Definition PTE_ADDR (pte : Z) : Z := Z.land pte (Z.lnot 0xFFF).
Definition PTE_FLAGS (pte : Z) : Z := Z.land pte 0xFFF.

(** The fields of the task state segment the kernel writes. *)
Record taskstate : Type := MkTs {
  ts_esp0 : Z;
  ts_ss0 : Z;
  ts_iomb : Z
}.

(** ** x86.h: the trap frame *)

Record trapframe : Type := MkTf {
  tf_edi : Z;
  tf_esi : Z;
  tf_ebp : Z;
  tf_oesp : Z;
  tf_ebx : Z;
  tf_edx : Z;
  tf_ecx : Z;
  tf_eax : Z;
  tf_gs : Z;
  tf_fs : Z;
  tf_es : Z;
  tf_ds : Z;
  tf_trapno : Z;
  tf_err : Z;
  tf_eip : Z;
  tf_cs : Z;
  tf_eflags : Z;
  tf_esp : Z;
  tf_ss : Z
}.
Definition set_tf_eax (v : Z) (r : trapframe) : trapframe :=
  MkTf (tf_edi r) (tf_esi r) (tf_ebp r) (tf_oesp r) (tf_ebx r) (tf_edx r)
    (tf_ecx r) v (tf_gs r) (tf_fs r) (tf_es r) (tf_ds r) (tf_trapno r) (tf_err
    r) (tf_eip r) (tf_cs r) (tf_eflags r) (tf_esp r) (tf_ss r).
Definition set_tf_es (v : Z) (r : trapframe) : trapframe :=
  MkTf (tf_edi r) (tf_esi r) (tf_ebp r) (tf_oesp r) (tf_ebx r) (tf_edx r)
    (tf_ecx r) (tf_eax r) (tf_gs r) (tf_fs r) v (tf_ds r) (tf_trapno r) (tf_err
    r) (tf_eip r) (tf_cs r) (tf_eflags r) (tf_esp r) (tf_ss r).
Definition set_tf_ds (v : Z) (r : trapframe) : trapframe :=
  MkTf (tf_edi r) (tf_esi r) (tf_ebp r) (tf_oesp r) (tf_ebx r) (tf_edx r)
    (tf_ecx r) (tf_eax r) (tf_gs r) (tf_fs r) (tf_es r) v (tf_trapno r) (tf_err
    r) (tf_eip r) (tf_cs r) (tf_eflags r) (tf_esp r) (tf_ss r).
Definition set_tf_eip (v : Z) (r : trapframe) : trapframe :=
  MkTf (tf_edi r) (tf_esi r) (tf_ebp r) (tf_oesp r) (tf_ebx r) (tf_edx r)
    (tf_ecx r) (tf_eax r) (tf_gs r) (tf_fs r) (tf_es r) (tf_ds r) (tf_trapno r)
    (tf_err r) v (tf_cs r) (tf_eflags r) (tf_esp r) (tf_ss r).
Definition set_tf_cs (v : Z) (r : trapframe) : trapframe :=
  MkTf (tf_edi r) (tf_esi r) (tf_ebp r) (tf_oesp r) (tf_ebx r) (tf_edx r)
    (tf_ecx r) (tf_eax r) (tf_gs r) (tf_fs r) (tf_es r) (tf_ds r) (tf_trapno r)
    (tf_err r) (tf_eip r) v (tf_eflags r) (tf_esp r) (tf_ss r).
Definition set_tf_eflags (v : Z) (r : trapframe) : trapframe :=
  MkTf (tf_edi r) (tf_esi r) (tf_ebp r) (tf_oesp r) (tf_ebx r) (tf_edx r)
    (tf_ecx r) (tf_eax r) (tf_gs r) (tf_fs r) (tf_es r) (tf_ds r) (tf_trapno r)
    (tf_err r) (tf_eip r) (tf_cs r) v (tf_esp r) (tf_ss r).
Definition set_tf_esp (v : Z) (r : trapframe) : trapframe :=
  MkTf (tf_edi r) (tf_esi r) (tf_ebp r) (tf_oesp r) (tf_ebx r) (tf_edx r)
    (tf_ecx r) (tf_eax r) (tf_gs r) (tf_fs r) (tf_es r) (tf_ds r) (tf_trapno r)
    (tf_err r) (tf_eip r) (tf_cs r) (tf_eflags r) v (tf_ss r).
Definition set_tf_ss (v : Z) (r : trapframe) : trapframe :=
  MkTf (tf_edi r) (tf_esi r) (tf_ebp r) (tf_oesp r) (tf_ebx r) (tf_edx r)
    (tf_ecx r) (tf_eax r) (tf_gs r) (tf_fs r) (tf_es r) (tf_ds r) (tf_trapno r)
    (tf_err r) (tf_eip r) (tf_cs r) (tf_eflags r) (tf_esp r) v.

Definition zero_tf : trapframe := MkTf 0 0 0 0 0 0 0 0 0 0 0 0 0 0 0 0 0 0 0.

(** ** proc.h *)

Record context : Type := MkCtx {
  cx_edi : Z;
  cx_esi : Z;
  cx_ebx : Z;
  cx_ebp : Z;
  cx_eip : Z
}.
Definition zero_context : context := MkCtx 0 0 0 0 0.
Definition set_cx_eip (v : Z) (r : context) : context :=
  MkCtx (cx_edi r) (cx_esi r) (cx_ebx r) (cx_ebp r) v.

Inductive procstate : Type :=
| UNUSED | EMBRYO | SLEEPING | RUNNABLE | RUNNING | ZOMBIE.

#[export] Instance procstate_eq_dec : EqDecision procstate.
Proof. solve_decision. Defined.

(** [struct proc].  A pointer to another process, an open file or an inode
    is the index of its slot in the table that holds it, [None] the null
    pointer; the trap frame and the saved context are kept by value. *)
Record proc : Type := MkProc {
  p_sz : Z;
  p_pgdir : Z;
  p_kstack : Z;
  p_state : procstate;
  p_pid : Z;
  p_parent : option nat;
  p_tf : trapframe;
  p_context : context;
  p_chan : option objaddr;
  p_killed : bool;
  p_ofile : list (option nat);
  p_cwd : option nat;
  p_name : list Z
}.
Definition set_p_sz (v : Z) (r : proc) : proc :=
  MkProc v (p_pgdir r) (p_kstack r) (p_state r) (p_pid r) (p_parent r) (p_tf
    r) (p_context r) (p_chan r) (p_killed r) (p_ofile r) (p_cwd r) (p_name r).
Definition set_p_pgdir (v : Z) (r : proc) : proc :=
  MkProc (p_sz r) v (p_kstack r) (p_state r) (p_pid r) (p_parent r) (p_tf r)
    (p_context r) (p_chan r) (p_killed r) (p_ofile r) (p_cwd r) (p_name r).
Definition set_p_kstack (v : Z) (r : proc) : proc :=
  MkProc (p_sz r) (p_pgdir r) v (p_state r) (p_pid r) (p_parent r) (p_tf r)
    (p_context r) (p_chan r) (p_killed r) (p_ofile r) (p_cwd r) (p_name r).
Definition set_p_state (v : procstate) (r : proc) : proc :=
  MkProc (p_sz r) (p_pgdir r) (p_kstack r) v (p_pid r) (p_parent r) (p_tf r)
    (p_context r) (p_chan r) (p_killed r) (p_ofile r) (p_cwd r) (p_name r).
Definition set_p_pid (v : Z) (r : proc) : proc :=
  MkProc (p_sz r) (p_pgdir r) (p_kstack r) (p_state r) v (p_parent r) (p_tf r)
    (p_context r) (p_chan r) (p_killed r) (p_ofile r) (p_cwd r) (p_name r).
Definition set_p_parent (v : option nat) (r : proc) : proc :=
  MkProc (p_sz r) (p_pgdir r) (p_kstack r) (p_state r) (p_pid r) v (p_tf r)
    (p_context r) (p_chan r) (p_killed r) (p_ofile r) (p_cwd r) (p_name r).
Definition set_p_tf (v : trapframe) (r : proc) : proc :=
  MkProc (p_sz r) (p_pgdir r) (p_kstack r) (p_state r) (p_pid r) (p_parent r)
    v (p_context r) (p_chan r) (p_killed r) (p_ofile r) (p_cwd r) (p_name r).
Definition set_p_context (v : context) (r : proc) : proc :=
  MkProc (p_sz r) (p_pgdir r) (p_kstack r) (p_state r) (p_pid r) (p_parent r)
    (p_tf r) v (p_chan r) (p_killed r) (p_ofile r) (p_cwd r) (p_name r).
Definition set_p_chan (v : option objaddr) (r : proc) : proc :=
  MkProc (p_sz r) (p_pgdir r) (p_kstack r) (p_state r) (p_pid r) (p_parent r)
    (p_tf r) (p_context r) v (p_killed r) (p_ofile r) (p_cwd r) (p_name r).
Definition set_p_killed (v : bool) (r : proc) : proc :=
  MkProc (p_sz r) (p_pgdir r) (p_kstack r) (p_state r) (p_pid r) (p_parent r)
    (p_tf r) (p_context r) (p_chan r) v (p_ofile r) (p_cwd r) (p_name r).
Definition set_p_ofile (v : list (option nat)) (r : proc) : proc :=
  MkProc (p_sz r) (p_pgdir r) (p_kstack r) (p_state r) (p_pid r) (p_parent r)
    (p_tf r) (p_context r) (p_chan r) (p_killed r) v (p_cwd r) (p_name r).
Definition set_p_cwd (v : option nat) (r : proc) : proc :=
  MkProc (p_sz r) (p_pgdir r) (p_kstack r) (p_state r) (p_pid r) (p_parent r)
    (p_tf r) (p_context r) (p_chan r) (p_killed r) (p_ofile r) v (p_name r).
Definition set_p_name (v : list Z) (r : proc) : proc :=
  MkProc (p_sz r) (p_pgdir r) (p_kstack r) (p_state r) (p_pid r) (p_parent r)
    (p_tf r) (p_context r) (p_chan r) (p_killed r) (p_ofile r) (p_cwd r) v.

(** A slot of the process table as the kernel finds it at boot. *)
Definition zero_proc : proc :=
  MkProc 0 0 0 UNUSED 0 None zero_tf zero_context None false (replicate NOFILE None) None
    (replicate 16 0).


(** [struct cpu] *)
Record cpu : Type := MkCpu {
  c_apicid : Z;
  c_ts : taskstate;
  c_gdt : list segdesc;
  c_started : bool;
  c_ncli : Z;
  c_intena : bool;
  c_proc : option nat;
  c_num_sys_calls : Z
}.
Definition set_c_apicid (v : Z) (r : cpu) : cpu :=
  MkCpu v (c_ts r) (c_gdt r) (c_started r) (c_ncli r) (c_intena r) (c_proc r)
    (c_num_sys_calls r).
Definition set_c_ts (v : taskstate) (r : cpu) : cpu :=
  MkCpu (c_apicid r) v (c_gdt r) (c_started r) (c_ncli r) (c_intena r) (c_proc
    r) (c_num_sys_calls r).
Definition set_c_gdt (v : list segdesc) (r : cpu) : cpu :=
  MkCpu (c_apicid r) (c_ts r) v (c_started r) (c_ncli r) (c_intena r) (c_proc
    r) (c_num_sys_calls r).
Definition set_c_started (v : bool) (r : cpu) : cpu :=
  MkCpu (c_apicid r) (c_ts r) (c_gdt r) v (c_ncli r) (c_intena r) (c_proc r)
    (c_num_sys_calls r).
Definition set_c_ncli (v : Z) (r : cpu) : cpu :=
  MkCpu (c_apicid r) (c_ts r) (c_gdt r) (c_started r) v (c_intena r) (c_proc
    r) (c_num_sys_calls r).
Definition set_c_intena (v : bool) (r : cpu) : cpu :=
  MkCpu (c_apicid r) (c_ts r) (c_gdt r) (c_started r) (c_ncli r) v (c_proc r)
    (c_num_sys_calls r).
Definition set_c_proc (v : option nat) (r : cpu) : cpu :=
  MkCpu (c_apicid r) (c_ts r) (c_gdt r) (c_started r) (c_ncli r) (c_intena r)
    v (c_num_sys_calls r).
Definition set_c_num_sys_calls (v : Z) (r : cpu) : cpu :=
  MkCpu (c_apicid r) (c_ts r) (c_gdt r) (c_started r) (c_ncli r) (c_intena r)
    (c_proc r) v.

(** [input] of console.c: the characters typed, with the indexes [r], [w] and
    [e]. *)
Record inputst : Type := MkIn {
  in_buf : list Z;
  in_r : Z;
  in_w : Z;
  in_e : Z
}.
Definition set_in_buf (v : list Z) (r : inputst) : inputst :=
  MkIn v (in_r r) (in_w r) (in_e r).
Definition set_in_r (v : Z) (r : inputst) : inputst :=
  MkIn (in_buf r) v (in_w r) (in_e r).
Definition set_in_w (v : Z) (r : inputst) : inputst :=
  MkIn (in_buf r) (in_r r) v (in_e r).
Definition set_in_e (v : Z) (r : inputst) : inputst :=
  MkIn (in_buf r) (in_r r) (in_w r) v.

(** The console: [panicked], [cons.locking] and [input] of console.c, whether the
    serial port is there ([uart] of uart.c) and the bytes sent to it, the cursor
    position in the registers of the CGA and its memory [crt], by cell. *)
Record consst : Type := MkCons {
  cn_locking : bool;
  cn_panicked : bool;
  cn_uart : bool;
  cn_uart_out : list Z;
  cn_pos : Z;
  cn_crt : gmap Z Z;
  cn_input : inputst
}.
Definition set_cn_locking (v : bool) (r : consst) : consst :=
  MkCons v (cn_panicked r) (cn_uart r) (cn_uart_out r) (cn_pos r) (cn_crt r)
    (cn_input r).
Definition set_cn_panicked (v : bool) (r : consst) : consst :=
  MkCons (cn_locking r) v (cn_uart r) (cn_uart_out r) (cn_pos r) (cn_crt r)
    (cn_input r).
Definition set_cn_uart (v : bool) (r : consst) : consst :=
  MkCons (cn_locking r) (cn_panicked r) v (cn_uart_out r) (cn_pos r) (cn_crt
    r) (cn_input r).
Definition set_cn_uart_out (v : list Z) (r : consst) : consst :=
  MkCons (cn_locking r) (cn_panicked r) (cn_uart r) v (cn_pos r) (cn_crt r)
    (cn_input r).
Definition set_cn_pos (v : Z) (r : consst) : consst :=
  MkCons (cn_locking r) (cn_panicked r) (cn_uart r) (cn_uart_out r) v (cn_crt
    r) (cn_input r).
Definition set_cn_crt (v : gmap Z Z) (r : consst) : consst :=
  MkCons (cn_locking r) (cn_panicked r) (cn_uart r) (cn_uart_out r) (cn_pos r)
    v (cn_input r).
Definition set_cn_input (v : inputst) (r : consst) : consst :=
  MkCons (cn_locking r) (cn_panicked r) (cn_uart r) (cn_uart_out r) (cn_pos r)
    (cn_crt r) v.

(** ** The shared state

    [h_if] is the interrupt flag, [h_lapicid] the local APIC id, [h_tr] the task
    register, [h_gdtr] the CPU whose descriptor table is loaded and [h_cr3]
    the page directory register of the CPU that executes.  [h_locks] holds
    the [struct spinlock]s of the kernel by address: a lock that is not in
    the map has [locked = 0] and [cpu = 0], as [initlock] and [release] leave
    it, one mapped to [c] has [locked = 1] and [cpu = c] (the index of the
    CPU; the name and the call stack kept for debugging are left out). *)
Record hw : Type := MkHw {
  h_if : bool;
  h_lapicid : Z;
  h_cr3 : Z;
  h_tr : Z;
  h_gdtr : option nat;
  h_cpus : list cpu;
  h_ncpu : nat;
  h_locks : gmap objaddr (option nat);
  h_procs : list proc;
  h_nextpid : Z;
  h_initproc : option nat;
  h_ticks : Z;
  h_shared_syscall_num : Z;
  h_cons : consst
}.
Definition set_h_if (v : bool) (r : hw) : hw :=
  MkHw v (h_lapicid r) (h_cr3 r) (h_tr r) (h_gdtr r) (h_cpus r) (h_ncpu r)
    (h_locks r) (h_procs r) (h_nextpid r) (h_initproc r) (h_ticks r)
    (h_shared_syscall_num r) (h_cons r).
Definition set_h_lapicid (v : Z) (r : hw) : hw :=
  MkHw (h_if r) v (h_cr3 r) (h_tr r) (h_gdtr r) (h_cpus r) (h_ncpu r) (h_locks
    r) (h_procs r) (h_nextpid r) (h_initproc r) (h_ticks r)
    (h_shared_syscall_num r) (h_cons r).
Definition set_h_cr3 (v : Z) (r : hw) : hw :=
  MkHw (h_if r) (h_lapicid r) v (h_tr r) (h_gdtr r) (h_cpus r) (h_ncpu r)
    (h_locks r) (h_procs r) (h_nextpid r) (h_initproc r) (h_ticks r)
    (h_shared_syscall_num r) (h_cons r).
Definition set_h_tr (v : Z) (r : hw) : hw :=
  MkHw (h_if r) (h_lapicid r) (h_cr3 r) v (h_gdtr r) (h_cpus r) (h_ncpu r)
    (h_locks r) (h_procs r) (h_nextpid r) (h_initproc r) (h_ticks r)
    (h_shared_syscall_num r) (h_cons r).
Definition set_h_gdtr (v : option nat) (r : hw) : hw :=
  MkHw (h_if r) (h_lapicid r) (h_cr3 r) (h_tr r) v (h_cpus r) (h_ncpu r)
    (h_locks r) (h_procs r) (h_nextpid r) (h_initproc r) (h_ticks r)
    (h_shared_syscall_num r) (h_cons r).
Definition set_h_cpus (v : list cpu) (r : hw) : hw :=
  MkHw (h_if r) (h_lapicid r) (h_cr3 r) (h_tr r) (h_gdtr r) v (h_ncpu r)
    (h_locks r) (h_procs r) (h_nextpid r) (h_initproc r) (h_ticks r)
    (h_shared_syscall_num r) (h_cons r).
Definition set_h_ncpu (v : nat) (r : hw) : hw :=
  MkHw (h_if r) (h_lapicid r) (h_cr3 r) (h_tr r) (h_gdtr r) (h_cpus r) v
    (h_locks r) (h_procs r) (h_nextpid r) (h_initproc r) (h_ticks r)
    (h_shared_syscall_num r) (h_cons r).
Definition set_h_locks (v : gmap objaddr (option nat)) (r : hw) : hw :=
  MkHw (h_if r) (h_lapicid r) (h_cr3 r) (h_tr r) (h_gdtr r) (h_cpus r) (h_ncpu
    r) v (h_procs r) (h_nextpid r) (h_initproc r) (h_ticks r)
    (h_shared_syscall_num r) (h_cons r).
Definition set_h_procs (v : list proc) (r : hw) : hw :=
  MkHw (h_if r) (h_lapicid r) (h_cr3 r) (h_tr r) (h_gdtr r) (h_cpus r) (h_ncpu
    r) (h_locks r) v (h_nextpid r) (h_initproc r) (h_ticks r)
    (h_shared_syscall_num r) (h_cons r).
Definition set_h_nextpid (v : Z) (r : hw) : hw :=
  MkHw (h_if r) (h_lapicid r) (h_cr3 r) (h_tr r) (h_gdtr r) (h_cpus r) (h_ncpu
    r) (h_locks r) (h_procs r) v (h_initproc r) (h_ticks r)
    (h_shared_syscall_num r) (h_cons r).
Definition set_h_initproc (v : option nat) (r : hw) : hw :=
  MkHw (h_if r) (h_lapicid r) (h_cr3 r) (h_tr r) (h_gdtr r) (h_cpus r) (h_ncpu
    r) (h_locks r) (h_procs r) (h_nextpid r) v (h_ticks r) (h_shared_syscall_num
    r) (h_cons r).
Definition set_h_ticks (v : Z) (r : hw) : hw :=
  MkHw (h_if r) (h_lapicid r) (h_cr3 r) (h_tr r) (h_gdtr r) (h_cpus r) (h_ncpu
    r) (h_locks r) (h_procs r) (h_nextpid r) (h_initproc r) v
    (h_shared_syscall_num r) (h_cons r).
Definition set_h_shared_syscall_num (v : Z) (r : hw) : hw :=
  MkHw (h_if r) (h_lapicid r) (h_cr3 r) (h_tr r) (h_gdtr r) (h_cpus r) (h_ncpu
    r) (h_locks r) (h_procs r) (h_nextpid r) (h_initproc r) (h_ticks r) v
    (h_cons r).
Definition set_h_cons (v : consst) (r : hw) : hw :=
  MkHw (h_if r) (h_lapicid r) (h_cr3 r) (h_tr r) (h_gdtr r) (h_cpus r) (h_ncpu
    r) (h_locks r) (h_procs r) (h_nextpid r) (h_initproc r) (h_ticks r)
    (h_shared_syscall_num r) v.

(** The field updates, unfolded on demand by [unset]. *)
Create HintDb setters.
#[export] Hint Unfold set_tf_eax set_tf_eip set_tf_esp set_tf_cs set_tf_ds set_tf_es set_tf_ss set_tf_eflags
  set_cx_eip : setters.
#[export] Hint Unfold set_p_sz set_p_pgdir set_p_kstack set_p_state set_p_pid set_p_parent set_p_tf set_p_context set_p_chan set_p_killed set_p_ofile set_p_cwd set_p_name : setters.
#[export] Hint Unfold set_c_apicid set_c_ts set_c_gdt set_c_started set_c_ncli set_c_intena set_c_proc set_c_num_sys_calls : setters.
#[export] Hint Unfold set_h_if set_h_lapicid set_h_cr3 set_h_tr set_h_gdtr set_h_cpus set_h_ncpu set_h_locks set_h_procs set_h_nextpid set_h_initproc set_h_ticks set_h_shared_syscall_num set_h_cons : setters.
#[export] Hint Unfold set_in_buf set_in_r set_in_w set_in_e : setters.
#[export] Hint Unfold set_cn_locking set_cn_panicked set_cn_uart set_cn_uart_out set_cn_pos set_cn_crt set_cn_input : setters.
Ltac unset := autounfold with setters in *; cbn in *.
Ltac unset_goal := autounfold with setters; cbn.

(** Kernel code of a component with state [C]. *)
Abbreviation K C := (M (hw * C)).

(** A field of the state of a component that holds another component. *)
Record lens (D C : Type) : Type := Lens { view : D → C; over : C → D → D }.
Arguments Lens {D C} _ _.
Arguments view {D C} _ _.
Arguments over {D C} _ _ _.

(** Run the code of the inner component inside the outer one. *)
Definition zoom {D C A} (l : lens D C) (m : K C A) : K D A := λ s,
  match m (s.1, view l s.2) with
  | Ok a s' => Ok a (s'.1, over l s'.2 s.2)
  | Stop w s' => Stop w (s'.1, over l s'.2 s.2)
  end.

Definition geth {C} : K C hw := λ s, Ok s.1 s.
Definition seth {C} (h : hw) : K C unit := λ s, Ok tt (h, s.2).
Definition getc {C} : K C C := λ s, Ok s.2 s.
Definition setc {C} (c : C) : K C unit := λ s, Ok tt (s.1, c).
Definition modh {C} (f : hw → hw) : K C unit := λ s, Ok tt (f s.1, s.2).
Definition modc {C} (f : C → C) : K C unit := λ s, Ok tt (s.1, f s.2).

(** ** Arithmetic of page numbers *)

Lemma land_lnot_ones a n : 0 ≤ n → Z.land a (Z.lnot (Z.ones n)) = a / 2 ^ n * 2 ^ n.
Proof.
  intros. rw -Z.ldiff_land. rewrite -> Z.ldiff_ones_r, Z.shiftl_mul_pow2, Z.shiftr_div_pow2 by lia.
  done.
Qed.

Lemma PGROUNDDOWN_eq a : PGROUNDDOWN a = a / PGSIZE * PGSIZE.
Proof. apply (land_lnot_ones a 12). lia. Qed.

Lemma PGROUNDUP_eq sz :
  0 ≤ sz → sz + PGSIZE - 1 < 2 ^ 32 → PGROUNDUP sz = (sz + PGSIZE - 1) / PGSIZE * PGSIZE.
Proof.
  intros. unfold PGROUNDUP. rewrite -> wrapu_small by (unfold PGSIZE in *; lia).
  apply (land_lnot_ones _ 12). lia.
Qed.

Lemma PGROUNDUP_spec sz :
  0 ≤ sz → sz + PGSIZE - 1 < 2 ^ 32 →
  PGROUNDUP sz mod PGSIZE = 0 ∧ sz ≤ PGROUNDUP sz < sz + PGSIZE.
Proof.
  intros. rewrite -> PGROUNDUP_eq by lia. unfold PGSIZE in *. dlia.
Qed.

Lemma PTE_ADDR_eq pte : PTE_ADDR pte = pte / 2 ^ 12 * 2 ^ 12.
Proof. apply (land_lnot_ones pte 12). lia. Qed.

Lemma PTE_FLAGS_eq pte : PTE_FLAGS pte = pte mod 2 ^ 12.
Proof. apply (Z.land_ones pte 12). lia. Qed.

Lemma PDX_eq va : 0 ≤ va < 2 ^ 32 → PDX va = va / 2 ^ 22.
Proof.
  intros. unfold PDX, PDXSHIFT. change 0x3FF with (Z.ones 10).
  rewrite -> Z.land_ones, Z.shiftr_div_pow2 by lia. apply Z.mod_small.
  split; [apply Z.div_pos; lia|apply Z.div_lt_upper_bound; lia].
Qed.

Lemma PTX_eq va : PTX va = va / 2 ^ 12 mod 2 ^ 10.
Proof.
  unfold PTX, PTXSHIFT. change 0x3FF with (Z.ones 10).
  by rewrite -> Z.land_ones, Z.shiftr_div_pow2 by lia.
Qed.

