(* ===== verification/Spinlock.v ===== *)
(** * Spin locks: spinlock.c, and the current CPU and process of proc.c

    The sequential behaviour of [pushcli]/[popcli], [acquire], [release] and
    [holding] on the CPU that executes.  A CPU that finds the lock taken spins:
    the model stops with [Spin].  The interleaving of several CPUs is the
    subject of the file SpinConc. *)

From S2P Require Import Prelude Machine.

(** ** Definitions *)

Section ops.
Context {C : Type}.
Implicit Types h : hw.

(** The entry of the CPU table whose APIC id is that of the executing CPU. *)
Definition me h : option nat :=
  fst <$> list_find (λ c, c_apicid c = h_lapicid h) (take (h_ncpu h) (h_cpus h)).

Definition mycpu : K C nat :=
  h ← geth;
  if h_if h then panic "mycpu called with interrupts enabled"
  else match me h with
       | Some i => mret i
       | None => panic "unknown apicid"
       end.

Definition cpu_at (i : nat) : K C cpu :=
  h ← geth;
  match h_cpus h !! i with
  | Some c => mret c
  | None => fault "cpus"
  end.

Definition modcpu (i : nat) (f : cpu → cpu) : K C unit :=
  modh (λ h, set_h_cpus (alter f i (h_cpus h)) h).

Definition cpuid : K C nat := mycpu.

Definition cli : K C unit := modh (set_h_if false).
Definition sti : K C unit := modh (set_h_if true).

Definition pushcli : K C unit :=
  eflags ← gets (λ s, h_if s.1);
  cli;;
  i ← mycpu;
  c ← cpu_at i;
  when (c_ncli c =? 0) (modcpu i (set_c_intena eflags));;
  modcpu i (λ c, set_c_ncli (c_ncli c + 1) c).

Definition popcli : K C unit :=
  eflags ← gets (λ s, h_if s.1);
  if eflags : bool then panic "popcli - interruptible" else
  i ← mycpu;
  modcpu i (λ c, set_c_ncli (c_ncli c - 1) c);;
  c ← cpu_at i;
  if c_ncli c <? 0 then panic "popcli" else
  when ((c_ncli c =? 0) && c_intena c) sti.

Definition myproc : K C (option nat) :=
  pushcli;;
  i ← mycpu;
  c ← cpu_at i;
  popcli;;
  mret (c_proc c).

(** A process by its slot of the table; a null pointer faults. *)
Definition proc_at (i : option nat) : K C proc :=
  h ← geth;
  match i ≫= λ i, h_procs h !! i with
  | Some p => mret p
  | None => fault "null process"
  end.

Definition modproc (i : nat) (f : proc → proc) : K C unit :=
  modh (λ h, set_h_procs (alter f i (h_procs h)) h).

Definition initlock (lk : objaddr) : K C unit :=
  modh (λ h, set_h_locks (delete lk (h_locks h)) h).

Definition holding (lk : objaddr) : K C bool :=
  pushcli;;
  h ← geth;
  r ← (match h_locks h !! lk with
       | Some owner => i ← mycpu; mret (bool_decide (owner = Some i))
       | None => mret false
       end);
  popcli;;
  mret r.

(** [while(xchg(&lk->locked, 1) != 0);] returns on a free lock, which it
    marks as locked; on a locked one it never returns on this CPU. *)
Definition acquire_xchg (lk : objaddr) : K C unit :=
  h ← geth;
  match h_locks h !! lk with
  | Some _ => stop_with (Spin lk)
  | None => modh (λ h, set_h_locks (<[lk := None]> (h_locks h)) h)
  end.

Definition acquire (lk : objaddr) : K C unit :=
  pushcli;;
  b ← holding lk;
  if b : bool then panic "acquire" else
  acquire_xchg lk;;
  i ← mycpu;
  modh (λ h, set_h_locks (<[lk := Some i]> (h_locks h)) h).

Definition release (lk : objaddr) : K C unit :=
  b ← holding lk;
  if negb b then panic "release" else
  modh (λ h, set_h_locks (<[lk := None]> (h_locks h)) h);;
  modh (λ h, set_h_locks (delete lk (h_locks h)) h);;
  popcli.
End ops.

(** ** The effect of a lock cycle

    The executing CPU, its [struct cpu], and the three state changes a lock
    cycle is made of: [push] is what [pushcli] does, [acq] what [acquire] of a
    free lock does, and [settle] what is left of a matched pair: [intena] holds
    the interrupt flag recorded by the outermost [pushcli]. *)

Definition cur (h : hw) : option cpu := i ← me h; h_cpus h !! i.

Definition upd_me (f : cpu → cpu) (h : hw) : hw :=
  match me h with
  | Some i => set_h_cpus (alter f i (h_cpus h)) h
  | None => h
  end.

Definition note_if (h : hw) (c : cpu) : cpu :=
  if c_ncli c =? 0 then set_c_intena (h_if h) c else c.

Definition push (h : hw) : hw :=
  set_h_if false (upd_me (λ c, set_c_ncli (c_ncli c + 1) (note_if h c)) h).

Definition settle (h : hw) : hw := upd_me (note_if h) h.

Definition acq (lk : objaddr) (h : hw) : hw :=
  set_h_locks (<[lk := me h]> (h_locks h)) (push h).

(** The invariant of the executing CPU: its entry of the CPU table exists,
    its nesting count is not negative, and interrupts are off inside a
    [pushcli]. *)
Definition wf_hw (h : hw) : Prop :=
  ∃ c, cur h = Some c ∧ 0 ≤ c_ncli c ∧ (0 < c_ncli c → h_if h = false).

(** What two states have in common when they differ only in the nesting and
    interrupt fields of the CPU and in locks. *)
Lemma cur_Some h c : cur h = Some c ↔ ∃ i, me h = Some i ∧ h_cpus h !! i = Some c.
Proof. unfold cur. destruct (me h); naive_solver. Qed.

Lemma list_find_alter {A} (P : A → Prop) `{∀ x, Decision (P x)} (f : A → A) n i (l : list A) :
  (∀ x, P (f x) ↔ P x) →
  fst <$> list_find P (take n (alter f i l)) = fst <$> list_find P (take n l).
Proof.
  intros Hf. revert n i. induction l as [|x l IH]; intros [|n] [|i]; try done.
  - cbn. pose proof (Hf x).
    destruct (decide (P x)), (decide (P (f x))); first [done|tauto].
  - cbn. destruct (decide (P x)); [done|]. specialize (IH n i).
    destruct (list_find P (take n (alter f i l))) as [[]|],
      (list_find P (take n l)) as [[]|]; naive_solver.
Qed.

Lemma me_upd f h : (∀ c, c_apicid (f c) = c_apicid c) → me (upd_me f h) = me h.
Proof.
  intros Hf. unfold upd_me. destruct (me h) as [i|] eqn:E; [|done].
  rw -E. unfold me. cbn. apply list_find_alter. intros c. by rw Hf.
Qed.

Lemma apicid_note_if h c : c_apicid (note_if h c) = c_apicid c.
Proof. unfold note_if. by case_bool. Qed.

Lemma me_push h : me (push h) = me h.
Proof. apply (me_upd (λ c, set_c_ncli _ (note_if h c))). apply apicid_note_if. Qed.

Lemma me_settle h : me (settle h) = me h.
Proof. apply me_upd, apicid_note_if. Qed.

Lemma cur_upd f h c :
  (∀ c, c_apicid (f c) = c_apicid c) → cur h = Some c → cur (upd_me f h) = Some (f c).
Proof.
  intros Hf (i & Hi & Hc)%cur_Some. apply cur_Some. exists i. split.
  - by rw me_upd.
  - unfold upd_me. rw Hi. cbn. by rw list_lookup_alter_eq Hc.
Qed.

Lemma cur_push h c :
  cur h = Some c → cur (push h) = Some (set_c_ncli (c_ncli c + 1) (note_if h c)).
Proof.
  intros Hc. apply (cur_upd (λ c, set_c_ncli (c_ncli c + 1) (note_if h c))) in Hc; [done|].
  apply apicid_note_if.
Qed.

Lemma wf_push h : wf_hw h → wf_hw (push h).
Proof.
  intros (c & Hc & Hn & _). eexists. split; [by apply cur_push|].
  split; [|done]. cbn. lia.
Qed.

Lemma wf_settle h : wf_hw h → wf_hw (settle h).
Proof.
  intros (c & Hc & Hn & Hif). exists (note_if h c). split.
  - by apply (cur_upd (note_if h)); [apply apicid_note_if|].
  - unfold note_if, settle, upd_me. destruct (me h); by case_bool.
Qed.

Lemma wf_acq lk h : wf_hw h → wf_hw (acq lk h).
Proof. apply wf_push. Qed.

Lemma me_wf h : wf_hw h → ∃ i, me h = Some i.
Proof. intros (c & (i & Hi & _)%cur_Some & _). eauto. Qed.

(** The process the CPU runs. *)
Definition curproc (h : hw) : option nat := c ← cur h; c_proc c.

Lemma curproc_upd f h :
  (∀ c, c_apicid (f c) = c_apicid c) → (∀ c, c_proc (f c) = c_proc c) →
  curproc (upd_me f h) = curproc h.
Proof.
  intros Hf Hp. unfold curproc. destruct (cur h) as [c|] eqn:E.
  - rewrite -> (cur_upd f h c) by done. apply Hp.
  - unfold cur in *. rw me_upd //. destruct (me h) as [i|] eqn:Hi; [|done]. cbn in *.
    unfold upd_me. rw Hi. cbn. by rw list_lookup_alter_eq E.
Qed.

Lemma proc_note_if h c : c_proc (note_if h c) = c_proc c.
Proof. unfold note_if. by case_bool. Qed.

Lemma curproc_push h : curproc (push h) = curproc h.
Proof.
  apply (curproc_upd (λ c, set_c_ncli (c_ncli c + 1) (note_if h c))); [apply apicid_note_if|].
  apply proc_note_if.
Qed.

Lemma curproc_settle h : curproc (settle h) = curproc h.
Proof. apply curproc_upd; [apply apicid_note_if|apply proc_note_if]. Qed.

Lemma curproc_acq lk h : curproc (acq lk h) = curproc h.
Proof. apply curproc_push. Qed.

(** *** [pushcli] and [popcli] *)

Section cli_lemmas.
Context {C : Type}.
Implicit Types (h : hw) (x : C).

Lemma mycpu_ok h x i : me h = Some i → h_if h = false → mycpu (h, x) = Ok i (h, x).
Proof. intros Hi Hif. unfold mycpu. rw bind_run /= Hif Hi. done. Qed.

Lemma cpu_at_ok h x i c : h_cpus h !! i = Some c → cpu_at i (h, x) = Ok c (h, x).
Proof. intros Hc. unfold cpu_at. rw bind_run /= Hc. done. Qed.

Lemma pushcli_ok h x : wf_hw h → pushcli (h, x) = Ok tt (push h, x).
Proof.
  intros (c & (i & Hi & Hc)%cur_Some & _). unfold pushcli.
  rw (bind_ok _ _ _ (h_if h) (h, x)) //.
  rw (bind_ok _ _ _ tt (set_h_if false h, x)) //.
  rw (bind_ok _ _ _ i _ (mycpu_ok (set_h_if false h) x i Hi eq_refl)).
  rw (bind_ok _ _ _ c _ (cpu_at_ok (set_h_if false h) x i c Hc)).
  rw bind_run. unfold push, upd_me. rw Hi. unfold modcpu, modh, when. cbn.
  case_bool; cbn; do 2 f_equal; unset_goal; f_equal.
  - rw list_alter_alter. eapply alter_ext_at; [done|]. unfold note_if; cbn.
    by case_bool.
  - eapply alter_ext_at; [done|]. unfold note_if. by case_bool.
Qed.

Lemma set_if_id h b : h_if h = b → set_h_if b h = h.
Proof. by intros <-; destruct h. Qed.

Lemma if_upd_me f h : h_if (upd_me f h) = h_if h.
Proof. unfold upd_me. by destruct (me h). Qed.

Lemma popcli_push h x : wf_hw h → popcli (push h, x) = Ok tt (settle h, x).
Proof.
  intros (c & (i & Hi & Hc)%cur_Some & Hn & Hif). unfold popcli.
  rw (bind_ok _ _ _ false (push h, x)) //. cbn [negb].
  pose proof (me_push h) as Hm. rw Hi in Hm.
  rw (bind_ok _ _ _ i _ (mycpu_ok (push h) x i Hm eq_refl)).
  rw bind_run /=.
  assert (set_h_cpus (alter (λ c, set_c_ncli (c_ncli c - 1) c) i
            (h_cpus (upd_me (λ c, set_c_ncli (c_ncli c + 1) (note_if h c)) h)))
            (push h) = set_h_if false (settle h)) as ->.
  { unfold push, settle, upd_me. rw Hi. unset_goal. f_equal. rw list_alter_alter.
    eapply alter_ext_at; [done|]. cbn. unfold note_if.
    case_bool; destruct c; unset_goal; f_equal; lia. }
  assert (h_cpus (set_h_if false (settle h)) !! i = Some (note_if h c)) as H1.
  { unfold settle, upd_me. rw Hi /= list_lookup_alter_eq Hc //. }
  rw (bind_ok _ _ _ _ _ (cpu_at_ok _ x i _ H1)).
  assert (c_ncli (note_if h c) = c_ncli c) as -> by (unfold note_if; by case_bool).
  destruct (Z.ltb_spec (c_ncli c) 0); [lia|].
  unfold note_if, when, sti, modh. case_bool; cbn.
  - destruct (h_if h) eqn:E; cbn; do 2 f_equal.
    + transitivity (set_h_if true (settle h)); [done|]. apply set_if_id.
      by unfold settle; rw if_upd_me.
    + apply set_if_id. by unfold settle; rw if_upd_me.
  - do 2 f_equal. apply set_if_id. unfold settle. rw if_upd_me. apply Hif. lia.
Qed.

Lemma myproc_ok h x : wf_hw h → myproc (h, x) = Ok (curproc h) (settle h, x).
Proof.
  intros Hwf. unfold myproc. rw (bind_ok _ _ _ _ _ (pushcli_ok h x Hwf)).
  destruct (me_wf h Hwf) as [i Hi]. rw -me_push in Hi.
  rw (bind_ok _ _ _ _ _ (mycpu_ok (push h) x i Hi eq_refl)).
  pose proof (wf_push h Hwf) as (c & Hc & _). pose proof Hc as (j & Hj & Hl)%cur_Some.
  rw Hi in Hj. injection Hj as <-.
  rw (bind_ok _ _ _ _ _ (cpu_at_ok (push h) x i c Hl)).
  rw (bind_ok _ _ _ _ _ (popcli_push h x Hwf)). rw -curproc_push. unfold curproc. by rw Hc.
Qed.

Lemma proc_at_ok h x i p :
  h_procs h !! i = Some p → proc_at (Some i) (h, x) = Ok p (h, x).
Proof. intros Hp. unfold proc_at. rw bind_run /= Hp. done. Qed.

(** *** [holding], [acquire] and [release] *)

Lemma holding_ok h x lk :
  wf_hw h →
  holding lk (h, x) =
    Ok (match h_locks h !! lk with
        | Some owner => bool_decide (owner = me h)
        | None => false
        end) (settle h, x).
Proof.
  intros Hwf. destruct (me_wf h Hwf) as [i Hi]. unfold holding.
  rw (bind_ok _ _ _ _ _ (pushcli_ok h x Hwf)).
  assert (h_locks (push h) = h_locks h) as E by (unfold push, upd_me; by destruct (me h)).
  rw bind_run /= /geth /= E.
  pose proof (me_push h) as Hm. rw Hi in Hm.
  destruct (h_locks h !! lk) as [o|].
  - rw bind_run bind_run (mycpu_ok (push h) x i Hm eq_refl) /=.
    rw (bind_ok _ _ _ _ _ (popcli_push h x Hwf)) Hi //.
  - rw bind_run /=. rw (bind_ok _ _ _ _ _ (popcli_push h x Hwf)) //.
Qed.

Lemma locks_push h : h_locks (push h) = h_locks h.
Proof. unfold push, upd_me. by destruct (me h). Qed.

Lemma locks_settle h : h_locks (settle h) = h_locks h.
Proof. unfold settle, upd_me. by destruct (me h). Qed.

Lemma me_acq lk h : me (acq lk h) = me h.
Proof. apply me_push. Qed.

Lemma upd_me_ext f g h c :
  cur h = Some c → f c = g c → upd_me f h = upd_me g h.
Proof.
  intros (i & Hi & Hc)%cur_Some E. unfold upd_me. rw Hi. f_equal.
  by eapply alter_ext_at.
Qed.

Lemma upd_me_id f h c : cur h = Some c → f c = c → upd_me f h = h.
Proof.
  intros Hc E. rw (upd_me_ext f id h c) //. unfold upd_me.
  destruct (me h) as [i|]; [|done]. rw list_alter_id //. by destruct h.
Qed.

Lemma upd_me_upd_me f g h :
  (∀ c, c_apicid (g c) = c_apicid c) → upd_me f (upd_me g h) = upd_me (f ∘ g) h.
Proof.
  intros Hg. unfold upd_me at 1. rw me_upd //. unfold upd_me.
  destruct (me h); [|done]. unset_goal. by rw list_alter_alter.
Qed.

Lemma settle_push h : wf_hw h → settle (push h) = push h.
Proof.
  intros (c & Hc & Hn & _). unfold settle at 1. eapply upd_me_id; [by apply cur_push|].
  unfold note_if at 1. cbn. case_bool; [lia|done].
Qed.

Lemma note_if_idem h c : note_if h (note_if h c) = note_if h c.
Proof. unfold note_if. case_bool; cbn; by case_bool. Qed.

Lemma note_if_cong h h' c : h_if h = h_if h' → note_if h c = note_if h' c.
Proof. unfold note_if. by intros ->. Qed.

Lemma settle_settle h : settle (settle h) = settle h.
Proof.
  assert (h_if (settle h) = h_if h) as E by apply if_upd_me.
  unfold settle at 1. rw /(settle h) upd_me_upd_me; [apply apicid_note_if|].
  unfold upd_me. destruct (me h); [|done]. f_equal. apply list_alter_ext; [|done].
  intros c _. cbn. rw (note_if_cong _ h) //. apply note_if_idem.
Qed.

Lemma push_settle h : push (settle h) = push h.
Proof.
  assert (h_if (settle h) = h_if h) as E by apply if_upd_me.
  unfold push at 1. rw /(settle h) upd_me_upd_me; [apply apicid_note_if|].
  unfold push. f_equal. unfold upd_me. destruct (me h); [|done]. f_equal.
  apply list_alter_ext; [|done]. intros c _. cbn. rw (note_if_cong _ h) // note_if_idem.
  f_equal. unfold note_if. by case_bool.
Qed.

Lemma acq_settle lk h : acq lk (settle h) = acq lk h.
Proof. unfold acq. by rw push_settle locks_settle me_settle. Qed.

Lemma settle_acq lk h : wf_hw h → settle (acq lk h) = acq lk h.
Proof.
  intros Hwf. transitivity (set_h_locks (<[lk:=me h]> (h_locks h)) (settle (push h))).
  - unfold acq, settle, upd_me. change (me (set_h_locks _ (push h))) with (me (push h)).
    by destruct (me (push h)).
  - by rw settle_push.
Qed.

(** The other fields of the shared state commute with the lock cycle. *)
Lemma push_set_locks v h : push (set_h_locks v h) = set_h_locks v (push h).
Proof. unfold push, upd_me. change (me (set_h_locks v h)) with (me h). by destruct (me h). Qed.
Lemma push_set_procs v h : push (set_h_procs v h) = set_h_procs v (push h).
Proof. unfold push, upd_me. change (me (set_h_procs v h)) with (me h). by destruct (me h). Qed.
Lemma settle_set_procs v h : settle (set_h_procs v h) = set_h_procs v (settle h).
Proof. unfold settle, upd_me. change (me (set_h_procs v h)) with (me h). by destruct (me h). Qed.
Lemma settle_set_locks v h : settle (set_h_locks v h) = set_h_locks v (settle h).
Proof. unfold settle, upd_me. change (me (set_h_locks v h)) with (me h). by destruct (me h). Qed.
Lemma acq_set_procs lk v h : acq lk (set_h_procs v h) = set_h_procs v (acq lk h).
Proof. unfold acq. by rw push_set_procs. Qed.
Lemma procs_push h : h_procs (push h) = h_procs h.
Proof. unfold push, upd_me. by destruct (me h). Qed.
Lemma procs_settle h : h_procs (settle h) = h_procs h.
Proof. unfold settle, upd_me. by destruct (me h). Qed.
Lemma procs_acq lk h : h_procs (acq lk h) = h_procs h.
Proof. apply procs_push. Qed.

Lemma acq_comm lk lk' h : lk ≠ lk' → acq lk (acq lk' h) = acq lk' (acq lk h).
Proof.
  intros Hne. unfold acq at 1 3. rw !me_acq. unfold acq. rw !push_set_locks. cbn.
  unset_goal. f_equal. by apply insert_insert_ne.

Qed.

Lemma wf_locks h v : wf_hw h → wf_hw (set_h_locks v h).
Proof. done. Qed.

(** [acquire] of a lock that is free, that this CPU holds, that another CPU
    holds. *)
Lemma acquire_ok h x lk :
  wf_hw h → h_locks h !! lk = None → acquire lk (h, x) = Ok tt (acq lk h, x).
Proof.
  intros Hwf Hlk. destruct (me_wf h Hwf) as [i Hi]. unfold acquire.
  rw (bind_ok _ _ _ _ _ (pushcli_ok h x Hwf)).
  rw (bind_ok _ _ _ _ _ (holding_ok _ x lk (wf_push h Hwf))) locks_push Hlk.
  rw settle_push //. unfold acquire_xchg. rw bind_assoc bind_run /= /geth /=.
  rw locks_push Hlk bind_run /= locks_push.
  rw (bind_ok _ _ _ _ _ (mycpu_ok (set_h_locks _ (push h)) x i _ _)) //.
  - change (me (push h) = Some i). by rw me_push.
  - unfold acq, modh. cbn. by rw insert_insert_eq Hi.
Qed.

Lemma acquire_held h x lk :
  wf_hw h → h_locks h !! lk = Some (me h) → acquire lk (h, x) = Stop (Panic "acquire") (push h, x).
Proof.
  intros Hwf Hlk. unfold acquire. rw (bind_ok _ _ _ _ _ (pushcli_ok h x Hwf)).
  rw (bind_ok _ _ _ _ _ (holding_ok _ x lk (wf_push h Hwf))) locks_push Hlk me_push.
  rw settle_push // bool_decide_eq_true_2 //.
Qed.

Lemma acquire_busy h x lk o :
  wf_hw h → h_locks h !! lk = Some o → o ≠ me h →
  acquire lk (h, x) = Stop (Spin lk) (push h, x).
Proof.
  intros Hwf Hlk Ho. unfold acquire. rw (bind_ok _ _ _ _ _ (pushcli_ok h x Hwf)).
  rw (bind_ok _ _ _ _ _ (holding_ok _ x lk (wf_push h Hwf))) locks_push Hlk me_push.
  rw settle_push // bool_decide_eq_false_2 //.
  unfold acquire_xchg. rw bind_assoc bind_run /= /geth /= locks_push Hlk //.
Qed.

Lemma release_ok h x lk :
  wf_hw h → h_locks h !! lk = None → release lk (acq lk h, x) = Ok tt (settle h, x).
Proof.
  intros Hwf Hlk. unfold release.
  rw (bind_ok _ _ _ _ _ (holding_ok _ x lk (wf_acq lk h Hwf))).
  rw me_acq /= lookup_insert_eq bool_decide_eq_true_2 // settle_acq //. cbn [negb].
  rw bind_run /= bind_run /=.
  rw delete_insert_eq delete_insert_id //.
  replace (set_h_locks (h_locks h) _) with (push h); [by apply popcli_push|].
  rw -{1}(locks_push h). unfold acq. by destruct (push h).
Qed.

Lemma release_free h x lk :
  wf_hw h → h_locks h !! lk ≠ Some (me h) →
  release lk (h, x) = Stop (Panic "release") (settle h, x).
Proof.
  intros Hwf Hlk. unfold release. rw (bind_ok _ _ _ _ _ (holding_ok _ x lk Hwf)).
  destruct (h_locks h !! lk) as [o|]; [|done].
  rw bool_decide_eq_false_2 //. congruence.
Qed.
End cli_lemmas.

(** ** Properties *)

Lemma mrepeat_pushcli {C} n : ∀ h (x : C),
  wf_hw h → mrepeat n pushcli (h, x) = Ok tt (Nat.iter n push h, x) ∧ wf_hw (Nat.iter n push h).
Proof.
  induction n as [|n IH]; intros h x Hwf; [done|]. cbn [mrepeat].
  rw (bind_ok _ _ _ _ _ (pushcli_ok h x Hwf)).
  destruct (IH (push h) x (wf_push h Hwf)) as [E Hwf']. rw E Nat.iter_succ_r //.
Qed.

Lemma mrepeat_popcli {C} n : ∀ h (x : C),
  wf_hw h → mrepeat (S n) popcli (Nat.iter (S n) push h, x) = Ok tt (settle h, x).
Proof.
  induction n as [|n IH]; intros h x Hwf; cbn [mrepeat].
  - by rw (bind_ok _ _ _ _ _ (popcli_push h x Hwf)).
  - destruct (mrepeat_pushcli (S n) h x Hwf) as [_ Hwf'].
    rw Nat.iter_succ (bind_ok _ _ _ _ _ (popcli_push _ x Hwf')).
    rw {1}Nat.iter_succ settle_push; [by apply (mrepeat_pushcli n h x)|].
    by apply IH.
Qed.

(** [pushcli] and [popcli] are matched: after n+1 calls of [pushcli]
    interrupts are off, and it takes exactly n+1 calls of [popcli] to get back
    to the nesting depth and the interrupt flag of the start. *)
Theorem pushcli_popcli_matched {C : Type} (n : nat) (h : hw) (x : C) :
  wf_hw h →
  ∃ h1, mrepeat (S n) pushcli (h, x) = Ok tt (h1, x) ∧
    h_if h1 = false ∧ c_ncli <$> cur h1 = (λ c, c_ncli c + Z.of_nat (S n)) <$> cur h ∧
    mrepeat (S n) popcli (h1, x) = Ok tt (settle h, x) ∧
    h_if (settle h) = h_if h ∧ c_ncli <$> cur (settle h) = c_ncli <$> cur h.
Proof.
  intros Hwf. exists (Nat.iter (S n) push h).
  destruct (mrepeat_pushcli (S n) h x Hwf) as [E _].
  destruct Hwf as (c & Hc & Hn) eqn:Ewf. clear Ewf. split_and!; [done|done| | | |].
  - assert (∀ k, ∃ c', cur (Nat.iter k push h) = Some c' ∧ c_ncli c' = c_ncli c + Z.of_nat k)
      as Hk.
    { induction k as [|k (c' & Hc' & Hk)]; [exists c; split; [done|lia]|].
      eexists. rw Nat.iter_succ. split; [by apply cur_push|]. cbn. lia. }
    destruct (Hk (S n)) as (c' & -> & Hc'). rw Hc /= Hc' //.
  - apply mrepeat_popcli. by exists c.
  - apply if_upd_me.
  - unfold settle. rw (cur_upd _ h c) //; [apply apicid_note_if|]. rw Hc /=.
    unfold note_if. by case_bool.
Qed.

(** What [acquire] and [release] do in every case: [acquire] takes a free
    lock with interrupts off, panics on a lock this CPU holds and spins on one
    another CPU holds; [release] frees a lock this CPU holds, undoing the
    [acquire], and panics on any other. *)
Theorem acquire_release_cases {C : Type} (h : hw) (x : C) (lk : objaddr) :
  wf_hw h →
  acquire lk (h, x) =
    match h_locks h !! lk with
    | None => Ok tt (acq lk h, x)
    | Some o => if decide (o = me h) then Stop (Panic "acquire") (push h, x)
                else Stop (Spin lk) (push h, x)
    end ∧
  h_if (acq lk h) = false ∧ h_locks (acq lk h) !! lk = Some (me h) ∧
  (h_locks h !! lk = None →
     release lk (acq lk h, x) = Ok tt (settle h, x) ∧ h_locks (settle h) !! lk = None) ∧
  (h_locks h !! lk ≠ Some (me h) →
     release lk (h, x) = Stop (Panic "release") (settle h, x)).
Proof.
  intros Hwf. split_and!.
  - destruct (h_locks h !! lk) as [o|] eqn:E; [|by apply acquire_ok].
    case_decide as Ho; [subst o; by apply acquire_held|by eapply acquire_busy].
  - done.
  - cbn. apply lookup_insert_eq.
  - intros Hl. split; [by apply release_ok|by rw locks_settle].
  - intros Hl. by apply release_free.
Qed.

(** ** A concrete machine

    One CPU with interrupts on and no lock held: the state the examples of the
    development start from. *)

Definition boot_cpu : cpu := MkCpu 0 (MkTs 0 0 0) [] true 0 false (Some 0%nat) 0.
Definition boot_cons : consst := MkCons false false true [] 0 ∅ (MkIn (replicate 128 0) 0 0 0).
Definition boot_hw : hw := MkHw true 0 0 0 None [boot_cpu] 1 ∅ [] 1 None 0 0 boot_cons.

Lemma boot_hw_wf : wf_hw boot_hw.
Proof. exists boot_cpu. by split_and!. Qed.

Lemma pushcli_popcli_matched_witness :
  ∃ h1, mrepeat 2 pushcli (boot_hw, tt) = Ok tt (h1, tt) ∧
    h_if h1 = false ∧ c_ncli <$> cur h1 = Some 2 ∧
    mrepeat 2 popcli (h1, tt) = Ok tt (settle boot_hw, tt) ∧
    h_if (settle boot_hw) = true ∧ c_ncli <$> cur (settle boot_hw) = Some 0.
Proof. exact (pushcli_popcli_matched 1 boot_hw tt boot_hw_wf). Defined.

Lemma acquire_release_cases_witness :
  acquire ("kmem"%string, 0) (boot_hw, tt) = Ok tt (acq ("kmem"%string, 0) boot_hw, tt).
Proof. exact (proj1 (acquire_release_cases boot_hw tt ("kmem"%string, 0) boot_hw_wf)). Defined.
