(* ===== verification/Console.v ===== *)
(** * Console output: console.c and uart.c

    [cprintf] with its number printing, the screen of the CGA and the serial
    line. The input side of the console is in ConsoleIn. *)

From S2P Require Import Prelude Machine Spinlock.

Definition cons_lock : objaddr := ("cons"%string, 0).

(** The characters of a C string literal. *)
Definition chars (s : string) : list Z :=
  (λ a, Z.of_nat (Ascii.nat_of_ascii a)) <$> String.list_ascii_of_string s.

Definition BACKSPACE : Z := 0x100.

(** An argument of [cprintf]: a number, or a string ([None] for the null
    pointer). *)
Inductive carg : Type :=
| AInt (v : Z)
| AStr (s : option (list Z)).

(** ** Operations *)

Section console.
Context {C : Type}.

Definition modcons (f : consst → consst) : K C unit := modh (λ h, set_h_cons (f (h_cons h)) h).

(** The status register says when the byte can be sent, the byte goes out in
    any case. *)
Definition uartputc (c : Z) : K C unit :=
  h ← geth;
  if negb (cn_uart (h_cons h)) then mret tt else
  modcons (λ s, set_cn_uart_out (cn_uart_out s ++ [u8 c]) s).

(** [memmove(crt, crt+80, sizeof(crt[0])*23*80)] and
    [memset(crt+pos, 0, sizeof(crt[0])*(24*80 - pos))] on cells. *)
Definition crt_move (crt : gmap Z Z) : gmap Z Z :=
  foldr (λ i m, <[i := default 0 (crt !! (i + 80))]> m) crt (seqZ 0 (23 * 80)).
Definition crt_clear (crt : gmap Z Z) (pos : Z) : gmap Z Z :=
  foldr (λ i m, <[i := 0]> m) crt (seqZ pos (24 * 80 - pos)).

(** The cursor registers hold 16 bits. *)
Definition cgaputc (c : Z) : K C unit :=
  h ← geth;
  let s := h_cons h in
  let pos := cn_pos s in
  let '(pos, crt) :=
    if c =? 10 then (pos + (80 - Z.rem pos 80), cn_crt s)
    else if c =? BACKSPACE then (if 0 <? pos then pos - 1 else pos, cn_crt s)
    else (pos + 1, <[pos := Z.lor (Z.land c 0xff) 0x0700]> (cn_crt s)) in
  modcons (set_cn_crt crt);;
  if (pos <? 0) || (25 * 80 <? pos) then panic "pos under/overflow" else
  let '(pos, crt) :=
    if 24 <=? Z.quot pos 80
    then (pos - 80, crt_clear (crt_move crt) (pos - 80))
    else (pos, crt) in
  modcons (λ s, set_cn_crt (<[pos := Z.lor 32 0x0700]> crt) (set_cn_pos (u16 pos) s)).

(** On a machine that panicked the CPU loops with interrupts off. *)
Definition consputc (c : Z) : K C unit :=
  h ← geth;
  if cn_panicked (h_cons h) then cli;; stop_with (Spin ("panicked"%string, 0)) else
  (if c =? BACKSPACE then uartputc 8;; uartputc 32;; uartputc 8 else uartputc c);;
  cgaputc c.

(** [digits[d]] *)
Definition digit (d : Z) : Z := if d <? 10 then 48 + d else 97 + (d - 10).

(** [do { buf[i++] = digits[x % base]; } while((x /= base) != 0);], lowest digit
    first; 32 rounds are enough for 32 bits. *)
Fixpoint digits_loop (fuel : nat) (x base : Z) : list Z :=
  match fuel with
  | O => []
  | S fuel =>
      digit (x mod base) :: (if x / base =? 0 then [] else digits_loop fuel (x / base) base)
  end.

Definition printint_buf (xx base : Z) (sign : bool) : list Z :=
  let neg := sign && (xx <? 0) in
  digits_loop 32 (u32 (if neg then - xx else xx)) base ++ (if neg then [45] else []).

Definition printint (xx base : Z) (sign : bool) : K C unit :=
  let buf := printint_buf xx base sign in
  if (16 <? Z.of_nat (length buf)) then fault "printint: buf overflow" else
  mfor (rev buf) consputc.

Fixpoint cprintf_loop (fmt : list Z) (args : list carg) : K C unit :=
  match fmt with
  | [] => mret tt
  | c :: fmt =>
      if negb (c =? 37) then consputc c;; cprintf_loop fmt args else
      match fmt with
      | [] => mret tt
      | c :: fmt =>
          if c =? 100 then
            match args with
            | AInt v :: args => printint (s32 v) 10 true;; cprintf_loop fmt args
            | _ => fault "cprintf: %d"
            end
          else if (c =? 120) || (c =? 112) then
            match args with
            | AInt v :: args => printint (s32 v) 16 false;; cprintf_loop fmt args
            | _ => fault "cprintf: %x"
            end
          else if c =? 115 then
            match args with
            | AStr s :: args => mfor (default (chars "(null)") s) consputc;; cprintf_loop fmt args
            | _ => fault "cprintf: %s"
            end
          else if c =? 37 then consputc 37;; cprintf_loop fmt args
          else consputc 37;; consputc c;; cprintf_loop fmt args
      end
  end.

Definition cprintf (fmt : list Z) (args : list carg) : K C unit :=
  h ← geth;
  let locking := cn_locking (h_cons h) in
  when locking (acquire cons_lock);;
  cprintf_loop fmt args;;
  when locking (release cons_lock).
End console.

(** ** The effect of the operations *)

(** The machine has not panicked and the screen cursor is on a line above the
    last. *)
Definition cons_ok (s : consst) : Prop := cn_panicked s = false ∧ 0 ≤ cn_pos s < 24 * 80.

Definition uart_put (c : Z) (s : consst) : consst :=
  if cn_uart s then set_cn_uart_out (cn_uart_out s ++ [u8 c]) s else s.

(** The cursor after a character, before the screen scrolls, and the screen. *)
Definition cga_advance (c : Z) (s : consst) : Z * gmap Z Z :=
  let pos := cn_pos s in
  if c =? 10 then (pos + (80 - Z.rem pos 80), cn_crt s)
  else if c =? BACKSPACE then (if 0 <? pos then pos - 1 else pos, cn_crt s)
  else (pos + 1, <[pos := Z.lor (Z.land c 0xff) 0x0700]> (cn_crt s)).
Definition cga_put (c : Z) (s : consst) : consst :=
  let '(pos, crt) := cga_advance c s in
  if pos =? 24 * 80
  then set_cn_crt (<[pos - 80 := Z.lor 32 0x0700]> (crt_clear (crt_move crt) (pos - 80))) (set_cn_pos (pos - 80) s)
  else set_cn_crt (<[pos := Z.lor 32 0x0700]> crt) (set_cn_pos pos s).
Definition cons_put (s : consst) (c : Z) : consst :=
  cga_put c (if c =? BACKSPACE then uart_put 8 (uart_put 32 (uart_put 8 s)) else uart_put c s).

(** What one directive prints, with the arguments that are left; and what
    [cprintf] prints. *)
Definition directive (c : Z) (args : list carg) : option (list Z * list carg) :=
  if c =? 100 then
    match args with AInt v :: args => Some (rev (printint_buf (s32 v) 10 true), args) | _ => None end
  else if (c =? 120) || (c =? 112) then
    match args with AInt v :: args => Some (rev (printint_buf (s32 v) 16 false), args) | _ => None end
  else if c =? 115 then
    match args with AStr s :: args => Some (default (chars "(null)") s, args) | _ => None end
  else Some (if c =? 37 then [37] else [37; c], args).
Fixpoint format (fmt : list Z) (args : list carg) : option (list Z) :=
  match fmt with
  | [] => Some []
  | c :: fmt =>
      if negb (c =? 37) then (c ::.) <$> format fmt args else
      match fmt with
      | [] => Some []
      | c :: fmt => '(out, args) ← directive c args; (out ++.) <$> format fmt args
      end
  end.

(** The number a digit string denotes. *)
Definition digit_value (c : Z) : Z := if c <? 58 then c - 48 else c - 97 + 10.
Definition numeral (base : Z) (l : list Z) : Z :=
  foldl (λ n c, n * base + digit_value c) 0 l.

Definition parse_int (l : list Z) : Z :=
  match l with
  | [] => 0
  | c :: ds => if c =? 45 then - numeral 10 ds else numeral 10 l
  end.

(** ** Lemmas *)

Section lemmas.
Context {C : Type}.
Implicit Types (h : hw) (x : C).

Lemma uartputc_run c h x :
  uartputc c (h, x) = Ok tt (set_h_cons (uart_put c (h_cons h)) h, x).
Proof.
  unfold uartputc, uart_put, modcons. rw bind_run /=. destruct (cn_uart (h_cons h)); [done|].
  cbn. by destruct h.
Qed.

Lemma cga_advance_range c s :
  cons_ok s → 0 ≤ (cga_advance c s).1 ≤ 24 * 80.
Proof.
  unfold cons_ok, cga_advance. intros [_ Hp]. repeat case_bool; cbn; try lia.
  rewrite -> Z.rem_mod_nonneg by lia. pose proof (Z.mod_pos_bound (cn_pos s) 80).
  pose proof (Z.div_mod (cn_pos s) 80). assert (cn_pos s / 80 < 24) by (apply Z.div_lt_upper_bound; lia). lia.
Qed.

Lemma cgaputc_run c h x :
  cons_ok (h_cons h) → cgaputc c (h, x) = Ok tt (set_h_cons (cga_put c (h_cons h)) h, x).
Proof.
  intros Hok. pose proof (cga_advance_range c _ Hok) as Hr.
  unfold cgaputc, cga_put. rw (bind_ok _ _ _ h (h, x)) //. fold (cga_advance c (h_cons h)).
  destruct (cga_advance c (h_cons h)) as [pos crt]. cbn [fst] in Hr. unfold modcons.
  rw bind_run /=. replace (_ || _) with false by (symmetry; apply orb_false_iff; split; case_bool; lia).
  case_bool.
  - assert ((24 <=? Z.quot pos 80) = true) as ->.
    { subst pos. done. }
    cbn. unfold modh. cbn. rewrite -> (wrapu_small 16) by lia. done.
  - assert ((24 <=? Z.quot pos 80) = false) as ->.
    { apply Z.leb_gt. rewrite -> Z.quot_div_nonneg by lia. apply Z.div_lt_upper_bound; lia. }
    cbn. unfold modh. cbn. rewrite -> (wrapu_small 16) by lia. done.
Qed.

Lemma cga_put_ok c s : cons_ok s → cons_ok (cga_put c s).
Proof.
  intros Hok. pose proof (cga_advance_range c s Hok) as Hr. unfold cga_put.
  destruct Hok as [Hp _]. destruct (cga_advance c s) as [pos crt]. cbn [fst] in Hr. unfold cons_ok.
  case_bool; cbn; split; done || lia.
Qed.

Lemma uart_put_ok c s : cons_ok s → cons_ok (uart_put c s).
Proof. unfold uart_put, cons_ok. by destruct (cn_uart s). Qed.

Lemma cons_put_ok s c : cons_ok s → cons_ok (cons_put s c).
Proof. intros Hok. apply cga_put_ok. case_bool; by repeat apply uart_put_ok. Qed.

Lemma consputc_run c h x :
  cons_ok (h_cons h) → consputc c (h, x) = Ok tt (set_h_cons (cons_put (h_cons h) c) h, x).
Proof.
  intros Hok. unfold consputc, cons_put. rw (bind_ok _ _ _ h (h, x)) //. rw (proj1 Hok). case_bool.
  - rw bind_assoc (bind_ok _ _ _ _ _ (uartputc_run 8 h x)) bind_assoc.
    rw (bind_ok _ _ _ _ _ (uartputc_run 32 _ x)) (bind_ok _ _ _ _ _ (uartputc_run 8 _ x)).
    rw cgaputc_run //. by repeat apply uart_put_ok.
  - rw (bind_ok _ _ _ _ _ (uartputc_run c h x)). rw cgaputc_run //. by apply uart_put_ok.
Qed.

Lemma mfor_consputc l : ∀ h x,
  cons_ok (h_cons h) →
  mfor l consputc (h, x) = Ok tt (set_h_cons (foldl cons_put (h_cons h) l) h, x) ∧
  cons_ok (foldl cons_put (h_cons h) l).
Proof.
  induction l as [|c l IH]; intros h x Hok; cbn; [by destruct h|].
  rw (bind_ok _ _ _ _ _ (consputc_run c h x Hok)).
  exact (IH (set_h_cons (cons_put (h_cons h) c) h) x (cons_put_ok _ c Hok)).
Qed.

(** *** Numbers *)

Lemma digit_value_digit d : 0 ≤ d < 16 → digit_value (digit d) = d.
Proof. unfold digit, digit_value. repeat case_bool; lia. Qed.

Lemma digits_value base fuel : 2 ≤ base ≤ 16 → ∀ x : Z,
  0 ≤ x < base ^ Z.of_nat fuel → numeral base (rev (digits_loop fuel x base)) = x.
Proof.
  intros Hb. induction fuel as [|fuel IH]; intros x Hx; cbn [digits_loop].
  - cbn in *. lia.
  - rewrite -> Nat2Z.inj_succ, Z.pow_succ_r in Hx by lia.
    assert (0 ≤ x / base < base ^ Z.of_nat fuel) as Hq
      by (split; [apply Z.div_pos; lia|apply Z.div_lt_upper_bound; lia]).
    pose proof (Z.mod_pos_bound x base ltac:(lia)). pose proof (Z.div_mod x base ltac:(lia)).
    change (numeral base (rev ?l)) with (foldl (λ n c, n * base + digit_value c) 0 (rev l)).
    cbn [rev]. rw foldl_app. cbn. rw digit_value_digit; [lia|]. case_bool; [cbn; lia|].
    specialize (IH _ Hq). unfold numeral in IH. rw IH. lia.
Qed.

Lemma digits_length base fuel : 2 ≤ base → ∀ (x : Z) k,
  0 ≤ x < base ^ Z.of_nat k → (1 ≤ k)%nat → (length (digits_loop fuel x base) ≤ k)%nat.
Proof.
  intros Hb. induction fuel as [|fuel IH]; intros x k Hx Hk; cbn; [lia|].
  case_bool; [cbn; lia|]. destruct k as [|k]; [lia|]. rewrite -> Nat2Z.inj_succ, Z.pow_succ_r in Hx by lia.
  destruct k as [|k].
  - exfalso. assert (x / base = 0); [|lia]. apply Z.div_small. cbn in Hx. lia.
  - apply le_n_S, IH; [|lia]. split; [apply Z.div_pos; lia|apply Z.div_lt_upper_bound; lia].
Qed.

Lemma digits_are_digits base fuel : 2 ≤ base ≤ 16 → ∀ (x : Z) c,
  0 ≤ x → In c (digits_loop fuel x base) → 48 ≤ c.
Proof.
  intros Hb. induction fuel as [|fuel IH]; intros x c Hx; cbn; [done|]. intros [<-|Hin].
  - pose proof (Z.mod_pos_bound x base). unfold digit. case_bool; lia.
  - revert Hin. case_bool; [done|]. apply IH. apply Z.div_pos; lia.
Qed.

Lemma printint_length xx base sign :
  - 2 ^ 31 ≤ xx < 2 ^ 31 → base = 10 ∨ base = 16 → (length (printint_buf xx base sign) ≤ 11)%nat.
Proof.
  intros Hx Hb. unfold printint_buf. rw length_app. set (x := u32 _).
  assert (length (digits_loop 32 x base) ≤ 10)%nat.
  { pose proof (wrapu_range 32 (if sign && (xx <? 0) then - xx else xx)) as Hr.
    apply digits_length; [lia| |lia]. change (0 ≤ x < base ^ 10). destruct Hb as [->| ->]; fold x in Hr; lia. }
  destruct (sign && _); cbn [length]; lia.
Qed.

Lemma printint_run xx base sign h x :
  cons_ok (h_cons h) → - 2 ^ 31 ≤ xx < 2 ^ 31 → base = 10 ∨ base = 16 →
  let l := rev (printint_buf xx base sign) in
  printint xx base sign (h, x) = Ok tt (set_h_cons (foldl cons_put (h_cons h) l) h, x).
Proof.
  intros Hok Hx Hb l. unfold printint. pose proof (printint_length xx base sign Hx Hb).
  rewrite -> (proj2 (Z.ltb_ge _ _)) by lia. by apply mfor_consputc.
Qed.

(** *** [cprintf] *)

Lemma set_set_cons a b h : set_h_cons a (set_h_cons b h) = set_h_cons a h.
Proof. done. Qed.

Lemma cprintf_loop_run n : ∀ fmt args out h x,
  (length fmt ≤ n)%nat → cons_ok (h_cons h) → format fmt args = Some out →
  cprintf_loop fmt args (h, x) = Ok tt (set_h_cons (foldl cons_put (h_cons h) out) h, x).
Proof.
  induction n as [|n IH]; intros [|c fmt] args out h x Hn Hok Hf; cbn in Hn; try lia; cbn [cprintf_loop format] in *;
    try (injection Hf as <-; by destruct h).
  assert (∀ m l fmt' args' rest, m (h, x) = Ok tt (set_h_cons (foldl cons_put (h_cons h) l) h, x) →
    (length fmt' ≤ n)%nat → format fmt' args' = Some rest →
    (m;; cprintf_loop fmt' args') (h, x) = Ok tt (set_h_cons (foldl cons_put (h_cons h) (l ++ rest)) h, x)) as Hstep.
  { intros m l fmt' args' rest E Hl Hr. rw (bind_ok _ _ _ _ _ E).
    rewrite -> (IH fmt' args' rest _ x Hl); [|by apply (mfor_consputc l h x)|done].
    rw foldl_app. done. }
  case_bool; cbn [negb] in *.
  - destruct fmt as [|c' fmt]; [injection Hf as <-; by destruct h|]. cbn in Hn.
    apply bind_Some in Hf as ([o args'] & Hd & Hf). apply fmap_Some in Hf as (rest & Hf & ->).
    pose proof (wraps_range 32) as Hw. unfold directive in Hd. repeat case_bool; cbn [orb] in *;
      repeat (case_match; simplify_eq); try (eapply Hstep; [|lia|done]).
    all: try (apply printint_run; [done|apply (Hw _); lia|auto]).
    all: try (by apply mfor_consputc).
    + simplify_eq. eapply (Hstep _ [37]); [by apply consputc_run|lia|done].
    + simplify_eq. etrans; [symmetry; apply bind_assoc|].
      eapply (Hstep (consputc 37;; consputc c') [37; c']); [|lia|done].
      rw (bind_ok _ _ _ _ _ (consputc_run 37 h x Hok)) consputc_run //. by apply cons_put_ok.
  - apply fmap_Some in Hf as (rest & Hf & ->). eapply (Hstep _ [c]); [by apply consputc_run|lia|done].
Qed.
End lemmas.

Lemma acq_set_cons lk v h : acq lk (set_h_cons v h) = set_h_cons v (acq lk h).
Proof.
  unfold acq, push, upd_me. change (me (set_h_cons v h)) with (me h). by destruct (me h).
Qed.

Lemma cons_acq lk h : h_cons (acq lk h) = h_cons h.
Proof. unfold acq, push, upd_me. by destruct (me h). Qed.

Lemma wf_set_cons v h : wf_hw h → wf_hw (set_h_cons v h).
Proof. intros (c & Hc). by exists c. Qed.

(** The effect of [cprintf] on the machine. *)
Definition printed (out : list Z) (h : hw) : hw :=
  let h' := set_h_cons (foldl cons_put (h_cons h) out) h in
  if cn_locking (h_cons h) then settle h' else h'.

Lemma cprintf_run {C} fmt args out h (x : C) :
  wf_hw h → cons_ok (h_cons h) → h_locks h !! cons_lock = None → format fmt args = Some out →
  cprintf fmt args (h, x) = Ok tt (printed out h, x).
Proof.
  intros Hw Hok Hl Hf. unfold cprintf, printed. rw (bind_ok _ _ _ h (h, x)) //.
  destruct (cn_locking (h_cons h)); cbn [when].
  - rw (bind_ok _ _ _ _ _ (acquire_ok h x cons_lock Hw Hl)).
    assert (cons_ok (h_cons (acq cons_lock h))) as Hok' by (by rw cons_acq).
    rw (bind_ok _ _ _ _ _ (cprintf_loop_run _ fmt args out (acq cons_lock h) x (le_n _) Hok' Hf)).
    rw cons_acq -acq_set_cons release_ok //.
  - rw (bind_ok _ _ _ tt (h, x)) //.
    by rw (bind_ok _ _ _ _ _ (cprintf_loop_run _ fmt args out h x (le_n _) Hok Hf)).
Qed.

Lemma cga_put_uart c s : cn_uart (cga_put c s) = cn_uart s ∧ cn_uart_out (cga_put c s) = cn_uart_out s.
Proof. unfold cga_put. destruct (cga_advance c s). by case_bool. Qed.

Lemma uart_stream out : ∀ s,
  cn_uart s = true → Forall (λ c, 0 ≤ c < 256) out →
  cn_uart_out (foldl cons_put s out) = cn_uart_out s ++ out.
Proof.
  induction out as [|c out IH]; intros s Hu Hf; [by rw app_nil_r|].
  apply Forall_cons in Hf as [Hc Hf]. cbn. unfold cons_put at 2. unfold BACKSPACE.
  rewrite -> (proj2 (Z.eqb_neq c 256)) by lia. unfold uart_put. rw Hu.
  set (s1 := set_cn_uart_out _ s). destruct (cga_put_uart c s1) as [E1 E2].
  rw IH //; [by rw E1|]. rw E2 /= -app_assoc /=. rewrite -> (wrapu_small 8) by lia. done.
Qed.

(** ** Properties *)

(** [cprintf] prints its format. With the cursor on the screen, the
    console lock free and arguments that fit the directives, it returns; the serial
    line gets exactly the formatted text; the cursor stays on the screen, so that
    the panic of [cgaputc] is unreachable; the lock is free again. *)
Theorem cprintf_prints {C : Type} (fmt : list Z) (args : list carg) (out : list Z) (h : hw) (x : C) :
  wf_hw h → cons_ok (h_cons h) → h_locks h !! cons_lock = None → format fmt args = Some out →
  cprintf fmt args (h, x) = Ok tt (printed out h, x) ∧
  h_cons (printed out h) = foldl cons_put (h_cons h) out ∧ cons_ok (h_cons (printed out h)) ∧
  h_locks (printed out h) = h_locks h ∧ h_procs (printed out h) = h_procs h ∧
  (cn_uart (h_cons h) = true → Forall (λ c, 0 ≤ c < 256) out →
    cn_uart_out (h_cons (printed out h)) = cn_uart_out (h_cons h) ++ out).
Proof.
  intros Hw Hok Hl Hf. assert (h_cons (printed out h) = foldl cons_put (h_cons h) out) as E.
  { unfold printed. destruct (cn_locking _); [|done]. unfold settle, upd_me. by destruct (me _). }
  split_and!; [by apply cprintf_run|done| | | |].
  - rw E. by apply (mfor_consputc out h x).
  - unfold printed. destruct (cn_locking _); [by rw locks_settle|done].
  - unfold printed. destruct (cn_locking _); [by rw procs_settle|done].
  - rw E. apply uart_stream.
Qed.

(** [printint] prints the number: for every 32-bit value the digits in
    base 10, read back, with a minus sign for a negative one, give the value
    (the smallest one included), those in base 16 give it modulo 2^32, and the buffer
    of 16 characters is never overrun. *)
Theorem printint_numeral (xx : Z) :
  - 2 ^ 31 ≤ xx < 2 ^ 31 →
  (length (printint_buf xx 10 true) ≤ 11)%nat ∧ (length (printint_buf xx 16 false) ≤ 8)%nat ∧
  numeral 16 (rev (printint_buf xx 16 false)) = u32 xx ∧
  parse_int (rev (printint_buf xx 10 true)) = xx.
Proof.
  intros Hx. pose proof (wrapu_range 32 xx ltac:(lia)) as Hu. split_and!.
  - apply printint_length; auto.
  - unfold printint_buf. cbn [andb]. rw app_nil_r. apply digits_length; [lia| |lia]. change (16 ^ Z.of_nat 8) with (2 ^ 32). lia.
  - unfold printint_buf. cbn [andb]. rw app_nil_r. apply digits_value; [lia|]. change (16 ^ Z.of_nat 32) with (2 ^ 128). lia.
  - unfold printint_buf. cbn [andb]. assert (∀ y, 0 ≤ y < 2 ^ 32 → numeral 10 (rev (digits_loop 32 y 10)) = y) as Hd.
    { intros y Hy. apply digits_value; [lia|]. assert (2 ^ 32 < 10 ^ Z.of_nat 32) by done. lia. }
    case_bool.
    + rw rev_app_distr. cbn [rev app]. rewrite -> (wrapu_small 32 (- xx)) by lia. unfold parse_int. rw Z.eqb_refl. rw Hd; lia.
    + rw app_nil_r. rewrite -> (wrapu_small 32 xx) by lia. pose proof (Hd xx ltac:(lia)) as E.
      unfold parse_int. destruct (rev (digits_loop 32 xx 10)) as [|c ds] eqn:Er; [done|].
      rewrite -> (proj2 (Z.eqb_neq c 45)); [done|]. assert (In c (digits_loop 32 xx 10)) as Hin.
      { apply in_rev. rw Er. by left. }
      apply (digits_are_digits 10) in Hin; lia.
Qed.

Lemma cprintf_prints_witness :
  ∃ h', cprintf (chars "x%d") [AInt (-5)] (boot_hw, tt) = Ok tt (h', tt) ∧
    cn_uart_out (h_cons h') = chars "x-5".
Proof.
  assert (format (chars "x%d") [AInt (-5)] = Some (chars "x-5")) as Hf by reflexivity.
  destruct (cprintf_prints _ _ _ boot_hw tt boot_hw_wf ltac:(repeat split; done) eq_refl Hf) as (E & _ & _ & _ & _ & Hu).
  exists (printed (chars "x-5") boot_hw). split; [exact E|]. apply Hu; [done|]. by repeat constructor.
Defined.

Lemma printint_numeral_witness : parse_int (rev (printint_buf (-2147483648) 10 true)) = -2147483648.
Proof. exact (proj2 (proj2 (proj2 (printint_numeral (-2147483648) ltac:(lia))))). Defined.
