(* ===== verification/Mem.v ===== *)
(** * Byte-addressed memory and the memory routines of string.c

    Physical memory as the kernel sees it: a byte at every address, and the
    32-bit little-endian loads and stores of the x86.  [memset], [memcmp] and
    [memmove] are the loops of string.c on that memory; [stosb] and [stosl]
    are the string instructions of x86.h they use. *)

From S2P Require Import Prelude.

(** ** Loads and stores *)

Abbreviation memory := (gmap Z Z) (only parsing).

Definition ld8 (m : memory) (a : Z) : Z := default 0 (m !! a).
Definition st8 (m : memory) (a v : Z) : memory := <[a := u8 v]> m.

Definition ld32 (m : memory) (a : Z) : Z :=
  ld8 m a + 2 ^ 8 * ld8 m (a + 1) + 2 ^ 16 * ld8 m (a + 2) + 2 ^ 24 * ld8 m (a + 3).
Definition st32 (m : memory) (a v : Z) : memory :=
  st8 (st8 (st8 (st8 m a v) (a + 1) (v / 2 ^ 8)) (a + 2) (v / 2 ^ 16)) (a + 3) (v / 2 ^ 24).

(** ** x86.h: rep stosb, rep stosl *)

Fixpoint stosb (m : memory) (addr data : Z) (cnt : nat) : memory :=
  match cnt with
  | O => m
  | S n => stosb (st8 m addr data) (addr + 1) data n
  end.

Fixpoint stosl (m : memory) (addr data : Z) (cnt : nat) : memory :=
  match cnt with
  | O => m
  | S n => stosl (st32 m addr data) (addr + 4) data n
  end.

(** ** string.c *)

Definition memset (m : memory) (dst c n : Z) : memory :=
  if (Z.rem (s32 dst) 4 =? 0) && (n mod 4 =? 0) then
    let c := Z.land c 0xFF in
    stosl m dst
      (u32 (Z.lor (Z.lor (Z.lor (Z.shiftl c 24) (Z.shiftl c 16)) (Z.shiftl c 8)) c))
      (Z.to_nat (n / 4))
  else stosb m dst c (Z.to_nat n).

Fixpoint memcmp (m : memory) (s1 s2 : Z) (n : nat) : Z :=
  match n with
  | O => 0
  | S n =>
      if ld8 m s1 =? ld8 m s2 then memcmp m (s1 + 1) (s2 + 1) n
      else ld8 m s1 - ld8 m s2
  end.

(** [while(n-- > 0) *--d = *--s;] *)
Fixpoint copy_down (m : memory) (d s : Z) (n : nat) : memory :=
  match n with
  | O => m
  | S n => copy_down (st8 m (d - 1) (ld8 m (s - 1))) (d - 1) (s - 1) n
  end.

(** [while(n-- > 0) *d++ = *s++;] *)
Fixpoint copy_up (m : memory) (d s : Z) (n : nat) : memory :=
  match n with
  | O => m
  | S n => copy_up (st8 m d (ld8 m s)) (d + 1) (s + 1) n
  end.

Definition memmove (m : memory) (dst src n : Z) : memory :=
  if (src <? dst) && (dst <? src + n) then
    copy_down m (dst + n) (src + n) (Z.to_nat n)
  else copy_up m dst src (Z.to_nat n).

Definition memcpy (m : memory) (dst src n : Z) : memory := memmove m dst src n.

(** ** Lemmas *)

(** Every byte of memory is a byte. *)
Definition wf_mem (m : memory) : Prop := ∀ a, 0 ≤ ld8 m a < 2 ^ 8.

Lemma ld8_st8 m a b v : ld8 (st8 m a v) b = if decide (a = b) then u8 v else ld8 m b.
Proof. unfold ld8, st8. rw lookup_insert. by case_decide. Qed.

Lemma ld8_st8_eq m a v : ld8 (st8 m a v) a = u8 v.
Proof. rw ld8_st8 decide_True //. Qed.

Lemma ld8_st8_ne m a b v : a ≠ b → ld8 (st8 m a v) b = ld8 m b.
Proof. intros. rw ld8_st8 decide_False //. Qed.

Lemma wf_st8 m a v : wf_mem m → wf_mem (st8 m a v).
Proof. intros Hm b. rw ld8_st8. case_decide; [apply wrapu_range; lia|apply Hm]. Qed.

Lemma wf_st32 m a v : wf_mem m → wf_mem (st32 m a v).
Proof. intros. by repeat apply wf_st8. Qed.

Lemma ld8_st32_ne m a b v : b < a ∨ a + 4 ≤ b → ld8 (st32 m a v) b = ld8 m b.
Proof. intros. unfold st32. rw !ld8_st8_ne; lia || done. Qed.

Lemma ld32_st32_ne m a b v : b + 4 ≤ a ∨ a + 4 ≤ b → ld32 (st32 m a v) b = ld32 m b.
Proof. intros. unfold ld32. rw !ld8_st32_ne; lia || done. Qed.

Lemma ld8_st32 m a v i :
  0 ≤ i < 4 → ld8 (st32 m a v) (a + i) = u8 (v / 2 ^ (8 * i)).
Proof.
  intros. unfold st32. rw !ld8_st8.
  assert (i = 0 ∨ i = 1 ∨ i = 2 ∨ i = 3) as [->|[->|[->| ->]]] by lia;
    repeat (case_decide; [|lia]) || (rewrite -> decide_False by lia);
    rw ?Z.div_1_r //.
Qed.

Lemma bytes_of_u32 v :
  u8 v + 2 ^ 8 * u8 (v / 2 ^ 8) + 2 ^ 16 * u8 (v / 2 ^ 16) + 2 ^ 24 * u8 (v / 2 ^ 24) = u32 v.
Proof.
  unfold wrapu. pose proof (Z.div_mod v (2 ^ 32)).
  change (2 ^ 16) with (2 ^ 8 * 2 ^ 8). change (2 ^ 24) with (2 ^ 8 * 2 ^ 8 * 2 ^ 8).
  rewrite <- !Z.div_div by lia.
  change (2 ^ 32) with (2 ^ 8 * (2 ^ 8 * (2 ^ 8 * 2 ^ 8))).
  rewrite -> !Z.rem_mul_r by lia. lia.
Qed.

Lemma ld32_st32_eq m a v : ld32 (st32 m a v) a = u32 v.
Proof.
  unfold ld32. rw -(bytes_of_u32 v).
  pose proof (ld8_st32 m a v 0 ltac:(lia)) as H0. rw Z.add_0_r Z.div_1_r in H0.
  by rw H0 !ld8_st32.
Qed.

Lemma ld32_range m a : wf_mem m → 0 ≤ ld32 m a < 2 ^ 32.
Proof.
  intros Hm. unfold ld32.
  pose proof (Hm a). pose proof (Hm (a + 1)). pose proof (Hm (a + 2)). pose proof (Hm (a + 3)).
  lia.
Qed.

Lemma ld8_stosb n : ∀ m a d b,
  ld8 (stosb m a d n) b =
    if decide (a ≤ b < a + Z.of_nat n) then u8 d else ld8 m b.
Proof.
  induction n as [|n IH]; intros m a d b; cbn [stosb].
  - rewrite -> decide_False by lia. done.
  - rw IH ld8_st8. repeat case_decide; lia || done.
Qed.

Lemma ld8_stosl n : ∀ m a d b,
  ld8 (stosl m a d n) b =
    if decide (a ≤ b < a + 4 * Z.of_nat n) then u8 (d / 2 ^ (8 * ((b - a) mod 4)))
    else ld8 m b.
Proof.
  induction n as [|n IH]; intros m a d b; cbn [stosl].
  - rewrite -> decide_False by lia. done.
  - rw IH. destruct (decide (a ≤ b < a + 4)) as [Hb|Hb].
    + rewrite -> decide_False by lia. rewrite -> decide_True by lia.
      replace b with (a + (b - a)) at 1 by lia. rewrite -> ld8_st32 by lia.
      by rewrite -> (Z.mod_small (b - a)) by lia.
    + replace (b - (a + 4)) with (b - a + (-1) * 4) by lia. rw Z_mod_plus_full.
      repeat case_decide; try lia. apply ld8_st32_ne. lia.
Qed.

(** The word [memset] stores repeats the byte. *)
Lemma memset_word c i :
  0 ≤ i < 4 →
  let c' := Z.land c 0xFF in
  u8 (u32 (Z.lor (Z.lor (Z.lor (Z.shiftl c' 24) (Z.shiftl c' 16)) (Z.shiftl c' 8)) c')
      / 2 ^ (8 * i)) = u8 c.
Proof.
  intros Hi c'. assert (c' = u8 c) as Ec by (unfold c'; change 255 with (Z.ones 8); by rw Z.land_ones).
  clearbody c'. unfold wrapu at 1 2. rewrite <- Z.shiftr_div_pow2 by lia.
  rewrite <- !Z.land_ones by lia. apply Z.bits_inj'. intros k Hk.
  rewrite -> !Z.land_spec, Z.shiftr_spec by lia.
  rewrite -> !Z.land_spec, !Z.lor_spec, !Z.shiftl_spec by lia.
  assert (∀ j, (j < 0 ∨ 8 ≤ j) → Z.testbit c' j = false) as Hc.
  { intros j [Hj|Hj]; [by apply Z.testbit_neg_r|]. subst c'. unfold wrapu.
    rw -Z.land_ones // Z.land_spec (Z.ones_spec_high 8 j); [lia|]. apply andb_false_r. }
  assert (Z.testbit (u8 c) k = Z.testbit c' k) as -> by by rw Ec.
  destruct (Z.lt_ge_cases k 8).
  - rewrite -> (Z.ones_spec_low 8 k), (Z.ones_spec_low 32 (k + 8 * i)) by lia.
    rw !andb_true_r.
    assert (i = 0 ∨ i = 1 ∨ i = 2 ∨ i = 3) as [->|[->|[->| ->]]] by lia;
      repeat match goal with |- context [Z.testbit c' ?j] =>
        first [ rewrite -> (Hc j) by lia | progress replace j with k by lia ] end;
      by rw ?orb_false_r ?orb_false_l.
  - rewrite -> (Z.ones_spec_high 8 k) by lia. rw andb_false_r. symmetry. apply Hc. lia.
Qed.

Lemma ld8_memset m dst c n b :
  0 ≤ n →
  ld8 (memset m dst c n) b = if decide (dst ≤ b < dst + n) then u8 c else ld8 m b.
Proof.
  intros Hn. unfold memset. destruct (andb _ _) eqn:E.
  - apply andb_true_iff in E as [_ E]. apply Z.eqb_eq in E. cbv zeta. rw ld8_stosl.
    pose proof (Z.div_mod n 4). rewrite -> Z2Nat.id by (apply Z.div_pos; lia).
    repeat case_decide; try lia. apply memset_word. apply Z.mod_pos_bound. lia.
  - rw ld8_stosb. by rewrite -> Z2Nat.id by lia.
Qed.

Lemma ld8_copy_up n : ∀ m d s b,
  wf_mem m → (d ≤ s ∨ s + Z.of_nat n ≤ d) →
  ld8 (copy_up m d s n) b =
    if decide (d ≤ b < d + Z.of_nat n) then ld8 m (s + (b - d)) else ld8 m b.
Proof.
  induction n as [|n IH]; intros m d s b Hm Hds; cbn [copy_up].
  - rewrite -> decide_False by lia. done.
  - rewrite -> IH by (apply wf_st8 || lia; done). rw !ld8_st8.
    rewrite -> !wrapu_small by apply Hm.
    repeat case_decide; try lia; f_equal; lia.
Qed.

Lemma ld8_copy_down n : ∀ m d s b,
  wf_mem m → (s ≤ d ∨ d ≤ s - Z.of_nat n) →
  ld8 (copy_down m d s n) b =
    if decide (d - Z.of_nat n ≤ b < d) then ld8 m (s - (d - b)) else ld8 m b.
Proof.
  induction n as [|n IH]; intros m d s b Hm Hds; cbn [copy_down].
  - rewrite -> decide_False by lia. done.
  - rewrite -> IH by (apply wf_st8 || lia; done). rw !ld8_st8.
    rewrite -> !wrapu_small by apply Hm.
    repeat case_decide; try lia; f_equal; lia.
Qed.

Lemma ld8_memmove m dst src n b :
  wf_mem m → 0 ≤ n →
  ld8 (memmove m dst src n) b =
    if decide (dst ≤ b < dst + n) then ld8 m (src + (b - dst)) else ld8 m b.
Proof.
  intros Hm Hn. unfold memmove. destruct (Z.ltb_spec src dst), (Z.ltb_spec dst (src + n)); cbn.
  all: first [ rewrite -> ld8_copy_down by (lia || done) | rewrite -> ld8_copy_up by (lia || done) ].
  all: rewrite -> Z2Nat.id by lia; repeat case_decide; try lia; f_equal; lia.
Qed.

Lemma memcmp_eq m n : ∀ s1 s2,
  memcmp m s1 s2 n = 0 ↔ ∀ i, 0 ≤ i < Z.of_nat n → ld8 m (s1 + i) = ld8 m (s2 + i).
Proof.
  induction n as [|n IH]; intros s1 s2; cbn [memcmp]; [split; [lia|done]|].
  case_bool.
  - rw IH. split; intros H i Hi.
    + destruct (decide (i = 0)) as [->|]; [by rw !Z.add_0_r|].
      specialize (H (i - 1) ltac:(lia)).
      by replace (s1 + 1 + (i - 1)) with (s1 + i) in H by lia;
         replace (s2 + 1 + (i - 1)) with (s2 + i) in H by lia.
    + replace (s1 + 1 + i) with (s1 + (i + 1)) by lia.
      replace (s2 + 1 + i) with (s2 + (i + 1)) by lia. apply H. lia.
  - split; [lia|]. intros H. specialize (H 0 ltac:(lia)). rw !Z.add_0_r in H. lia.
Qed.

(** ** Properties *)

Lemma wf_memmove m dst src n : wf_mem m → 0 ≤ n → wf_mem (memmove m dst src n).
Proof. intros Hm Hn b. rewrite -> ld8_memmove by done. by case_decide. Qed.

Lemma wf_memset m dst c n : wf_mem m → 0 ≤ n → wf_mem (memset m dst c n).
Proof.
  intros Hm Hn b. rewrite -> ld8_memset by done. case_decide; [|done]. apply wrapu_range. lia.
Qed.

(** [memmove] copies n bytes as if through a temporary buffer, whichever
    way source and destination overlap, and writes nothing else. *)
Theorem memmove_correct (m : memory) (dst src n : Z) :
  wf_mem m → 0 ≤ n →
  (∀ i, 0 ≤ i < n → ld8 (memmove m dst src n) (dst + i) = ld8 m (src + i)) ∧
  (∀ b, b < dst ∨ dst + n ≤ b → ld8 (memmove m dst src n) b = ld8 m b) ∧
  wf_mem (memmove m dst src n).
Proof.
  intros Hm Hn. split_and!; [..|by apply wf_memmove]; intros i Hi;
    rewrite -> ld8_memmove by done.
  - rewrite -> decide_True by lia. f_equal. lia.
  - by rewrite -> decide_False by lia.
Qed.

(** [memset] fills exactly the n bytes at [dst] with the low byte of [c],
    on the word path and on the byte path, and two ranges it filled with the
    same value compare equal under [memcmp]. *)
Theorem memset_correct (m : memory) (dst c n : Z) :
  0 ≤ n →
  (∀ b, ld8 (memset m dst c n) b = if decide (dst ≤ b < dst + n) then u8 c else ld8 m b) ∧
  (∀ d k, dst + n ≤ d → 0 ≤ k ≤ n →
     memcmp (memset (memset m dst c n) d c n) dst d (Z.to_nat k) = 0).
Proof.
  intros Hn. split; [intros b; by apply ld8_memset|]. intros d k Hd Hk. apply memcmp_eq.
  intros i Hi. rewrite -> !ld8_memset by done. repeat case_decide; lia || done.
Qed.

(** An overlapping move: the four bytes 1 2 3 4 at 16 move up by two. *)
Definition ex_bytes : memory := st32 ∅ 16 0x04030201.

Lemma ex_bytes_wf : wf_mem ex_bytes.
Proof. apply wf_st32. intros a. unfold ld8. by rw lookup_empty. Qed.

Lemma memmove_correct_witness :
  (∀ i, 0 ≤ i < 4 → ld8 (memmove ex_bytes 18 16 4) (18 + i) = ld8 ex_bytes (16 + i)) ∧
  ld8 ex_bytes 19 = 4 ∧ ld8 (memmove ex_bytes 18 16 4) 21 = 4.
Proof.
  split; [|by vm_compute].
  exact (proj1 (memmove_correct ex_bytes 18 16 4 ex_bytes_wf ltac:(lia))).
Defined.

Lemma memset_correct_witness :
  ld8 (memset ex_bytes 16 0x101 8) 23 = 1 ∧
  (∀ b, ld8 (memset ex_bytes 16 0x101 8) b = if decide (16 ≤ b < 24) then 1 else ld8 ex_bytes b).
Proof.
  split; [reflexivity|]. exact (proj1 (memset_correct ex_bytes 16 0x101 8 ltac:(lia))).
Defined.
