(* ===== verification/CString.v ===== *)
(** * C strings: the string routines of string.c and ulib.c

    A [char] buffer is the list of its bytes; reading past the end of the list
    reads a NUL.  The routines that write return the whole destination buffer
    afterwards.  [cname n l] is the string a fixed-size field of n bytes
    denotes: the bytes before the first NUL among the first n. *)

From S2P Require Import Prelude.

(** fcntl.h *)
Definition O_RDONLY : Z := 0x000.
Definition O_WRONLY : Z := 0x001.
Definition O_RDWR : Z := 0x002.
Definition O_CREATE : Z := 0x200.

(** ** string.c (kernel) *)

Definition byte0 (l : list Z) : Z := hd 0 l.

Fixpoint strncmp (p q : list Z) (n : nat) : Z :=
  match n with
  | O => 0
  | S n =>
      if negb (byte0 p =? 0) && (byte0 p =? byte0 q)
      then strncmp (tl p) (tl q) n
      else byte0 p - byte0 q
  end.

(** The bytes [strncpy] stores, from the first. *)
Fixpoint strncpy_bytes (t : list Z) (n : nat) : list Z :=
  match n with
  | O => []
  | S n =>
      byte0 t :: (if byte0 t =? 0 then replicate n 0 else strncpy_bytes (tl t) n)
  end.

Definition strncpy (s t : list Z) (n : nat) : list Z :=
  strncpy_bytes t n ++ drop n s.

(** The loop [while(--n > 0 && ( *s++ = *t++) != 0)] with [n] the value after
    the decrement, and the final [*s = 0]. *)
Fixpoint safestrcpy_loop (s t : list Z) (n : nat) : list Z :=
  match n with
  | O => 0 :: tl s
  | S n =>
      byte0 t ::
        (if byte0 t =? 0 then 0 :: tl (tl s) else safestrcpy_loop (tl s) (tl t) n)
  end.

Definition safestrcpy (s t : list Z) (n : Z) : list Z :=
  if n <=? 0 then s else safestrcpy_loop s t (Z.to_nat (n - 1)).

Fixpoint strlen (s : list Z) : Z :=
  match s with
  | [] => 0
  | c :: s => if c =? 0 then 0 else 1 + strlen s
  end.

(** ** ulib.c (user) *)

(** The bytes [strcpy] stores: the string and its NUL. *)
Fixpoint strcpy_bytes (t : list Z) : list Z :=
  match t with
  | [] => [0]
  | c :: t => if c =? 0 then [0] else c :: strcpy_bytes t
  end.

Definition strcpy (s t : list Z) : list Z :=
  strcpy_bytes t ++ drop (length (strcpy_bytes t)) s.

Fixpoint strcmp (p q : list Z) : Z :=
  match p with
  | [] => 0 - byte0 q
  | c :: p' =>
      if negb (c =? 0) && (c =? byte0 q) then strcmp p' (tl q) else c - byte0 q
  end.

(** [strchr]: the rest of the string from the first [c], [None] for the null
    pointer.  The terminating NUL is never found. *)
Fixpoint strchr (s : list Z) (c : Z) : option (list Z) :=
  match s with
  | [] => None
  | a :: s' => if a =? 0 then None else if a =? c then Some s else strchr s' c
  end.

(** [while('0' <= *s && *s <= '9') n = n*10 + *s++ - '0';] *)
Fixpoint atoi_loop (s : list Z) (n : Z) : Z :=
  match s with
  | [] => n
  | c :: s => if (48 <=? c) && (c <=? 57) then atoi_loop s (s32 (n * 10 + c - 48)) else n
  end.

Definition atoi (s : list Z) : Z := atoi_loop s 0.

(** ** The string a buffer denotes *)

Fixpoint cstr (l : list Z) : list Z :=
  match l with
  | [] => []
  | c :: l => if c =? 0 then [] else c :: cstr l
  end.

Definition cname (n : nat) (l : list Z) : list Z := cstr (take n l).

Lemma cstr_nonzero l c : c ∈ cstr l → c ≠ 0.
Proof.
  induction l as [|a l IH]; cbn; [by intros ?%elem_of_nil|].
  case_bool; [by intros ?%elem_of_nil|]. intros [->|?]%elem_of_cons; auto.
Qed.

Lemma cstr_app_nul l k : Forall (λ c, c ≠ 0) l → cstr (l ++ 0 :: k) = l.
Proof. induction 1 as [|c l Hc _ IH]; cbn; [done|]. case_bool; [done|]. by rw IH. Qed.

Lemma cstr_id l : Forall (λ c, c ≠ 0) l → cstr l = l.
Proof. induction 1 as [|c l Hc _ IH]; cbn; [done|]. case_bool; [done|]. by rw IH. Qed.

Lemma cstr_replicate n : cstr (replicate n 0) = [].
Proof. by destruct n. Qed.

Lemma strlen_cstr l : strlen l = Z.of_nat (length (cstr l)).
Proof. induction l as [|c l IH]; cbn; [done|]. case_bool; cbn; [done|]. rw IH. lia. Qed.

Lemma cname_cons n c l :
  cname (S n) (c :: l) = if c =? 0 then [] else c :: cname n l.
Proof. done. Qed.

Lemma cname_byte0 n l :
  cname (S n) l = if byte0 l =? 0 then [] else byte0 l :: cname n (tl l).
Proof. by destruct l. Qed.

Lemma strncmp_cname n : ∀ p q, strncmp p q n = 0 ↔ cname n p = cname n q.
Proof.
  induction n as [|n IH]; intros p q; [by destruct p, q|]. rw !cname_byte0. cbn [strncmp].
  destruct (Z.eqb_spec (byte0 p) 0) as [Hp|Hp], (Z.eqb_spec (byte0 q) 0) as [Hq|Hq],
    (Z.eqb_spec (byte0 p) (byte0 q)) as [Hpq|Hpq]; cbn; rw ?IH; split; intros; try congruence; try lia.
  all: first [ by f_equal | simplify_eq; lia | by simplify_eq ].
Qed.

Lemma length_strncpy_bytes n : ∀ t, length (strncpy_bytes t n) = n.
Proof.
  induction n as [|n IH]; intros t; cbn; [done|]. f_equal.
  case_bool; [apply length_replicate|apply IH].
Qed.

Lemma cname_strncpy_bytes n : ∀ t k, cname n (strncpy_bytes t n ++ k) = cname n t.
Proof.
  induction n as [|n IH]; intros t k; [by destruct t|].
  rw (cname_byte0 n t). cbn [strncpy_bytes app]. rw cname_cons.
  case_bool; [done|]. by rw IH.
Qed.

Lemma cname_strncpy n s t : cname n (strncpy s t n) = cname n t.
Proof. apply cname_strncpy_bytes. Qed.

Lemma length_safestrcpy_loop n : ∀ s t,
  (n < length s)%nat → length (safestrcpy_loop s t n) = length s.
Proof.
  induction n as [|n IH]; intros s t Hn; cbn; destruct s as [|c s]; cbn in *; try lia.
  case_bool; cbn; [|rewrite -> IH by lia; lia]. destruct s; cbn in *; lia.
Qed.

Lemma cstr_safestrcpy_loop n : ∀ s t, cstr (safestrcpy_loop s t n) = cname n t.
Proof.
  induction n as [|n IH]; intros s t; [by destruct t|].
  rw cname_byte0. cbn. case_bool; [done|]. by rw IH.
Qed.

Lemma strcmp_cstr : ∀ p q, strcmp p q = 0 ↔ cstr p = cstr q.
Proof.
  induction p as [|c p IH]; intros q; cbn [strcmp cstr].
  - destruct q as [|b q]; cbn; [done|]. case_bool; split; intros; lia || congruence || done.
  - destruct q as [|b q]; cbn.
    + destruct (Z.eqb_spec c 0); cbn; split; intros; lia || congruence || done.
    + destruct (Z.eqb_spec c 0), (Z.eqb_spec c b), (Z.eqb_spec b 0); cbn;
        rw ?IH; split; intros; simplify_eq; lia || congruence || done.
Qed.

Lemma cstr_strcpy_bytes t k : cstr (strcpy_bytes t ++ k) = cstr t.
Proof. induction t as [|c t IH]; cbn; [done|]. case_bool; cbn; [done|]. case_bool; [done|by rw IH]. Qed.

Lemma drop_safestrcpy_loop n : ∀ s t,
  (n < length s)%nat → drop (S n) (safestrcpy_loop s t n) = drop (S n) s.
Proof.
  induction n as [|n IH]; intros [|a s] t Hn; cbn in Hn; try lia; [done|].
  cbn [safestrcpy_loop tl]. destruct (byte0 t =? 0).
  - destruct s as [|b s]; cbn in Hn; [lia|done].
  - change (drop (S n) (safestrcpy_loop s (tl t) n) = drop (S n) s). apply IH. lia.
Qed.

Lemma length_cstr l : (length (cstr l) ≤ length l)%nat.
Proof. induction l as [|c l IH]; cbn; [done|]. case_bool; cbn; lia. Qed.

(** ** Properties *)

(** On fixed-size names [strncmp] decides equality of the strings the
    fields denote, and [strncpy] stores a field that denotes its argument
    (truncated to n bytes), padded with NULs. *)
Theorem strncmp_strncpy_names (n : nat) (s t u : list Z) :
  (strncmp s t n = 0 ↔ cname n s = cname n t) ∧
  strncmp (strncpy s t n) t n = 0 ∧
  (strncmp (strncpy s t n) (strncpy s u n) n = 0 ↔ cname n t = cname n u) ∧
  strncpy s t n = strncpy_bytes t n ++ drop n s ∧ length (strncpy_bytes t n) = n.
Proof.
  split_and!.
  - apply strncmp_cname.
  - apply strncmp_cname, cname_strncpy.
  - rw strncmp_cname !cname_strncpy //.
  - done.
  - apply length_strncpy_bytes.
Qed.

(** [safestrcpy] never writes outside the n bytes of its destination and
    always leaves a NUL-terminated string there: the source cut to n-1 bytes. *)
Theorem safestrcpy_terminates_string (s t : list Z) (n : Z) :
  0 < n ≤ Z.of_nat (length s) →
  length (safestrcpy s t n) = length s ∧
  drop (Z.to_nat n) (safestrcpy s t n) = drop (Z.to_nat n) s ∧
  cstr (safestrcpy s t n) = cname (Z.to_nat n - 1) t ∧
  strlen (safestrcpy s t n) < n.
Proof.
  intros Hn. unfold safestrcpy. destruct (Z.leb_spec n 0); [lia|].
  replace (Z.to_nat (n - 1)) with (Z.to_nat n - 1)%nat by lia.
  destruct (Z.to_nat n) as [|k] eqn:Ek; [lia|]. replace (S k - 1)%nat with k by lia.
  split_and!.
  - apply length_safestrcpy_loop. lia.
  - apply drop_safestrcpy_loop. lia.
  - apply cstr_safestrcpy_loop.
  - rw strlen_cstr cstr_safestrcpy_loop. unfold cname.
    pose proof (length_cstr (take k t)). rw length_take in H0. lia.
Qed.

(** A 4-byte name field and the path name "readme". *)
Lemma safestrcpy_terminates_string_witness :
  safestrcpy [9; 9; 9; 9; 9] [114; 101; 97; 100; 109; 101] 4 = [114; 101; 97; 0; 9] ∧
  cstr (safestrcpy [9; 9; 9; 9; 9] [114; 101; 97; 100; 109; 101] 4) = [114; 101; 97].
Proof.
  split; [done|].
  exact (proj1 (proj2 (proj2 (safestrcpy_terminates_string
    [9; 9; 9; 9; 9] [114; 101; 97; 100; 109; 101] 4 ltac:(cbn; lia))))).
Defined.
