(* ===== verification/Kalloc.v ===== *)
(** * The physical page allocator: kalloc.c

    The free list is threaded through the free pages themselves: the first
    word of a free page is the address of the next one.  The theorems relate it
    to the list of free pages. *)

From S2P Require Import Prelude Machine Spinlock Mem.

(** ** State

    [struct kmem] and the memory it hands out.  [m_end] and [m_data] are the
    linker's symbols [end] and [data], [m_cpus] the address of the array [cpus]. *)

Record memst : Type := MkMem {
  m_mem : memory;
  m_freelist : Z;
  m_use_lock : bool;
  m_end : Z;
  m_data : Z;
  m_cpus : Z;
  m_kpgdir : Z
}.

Definition set_m_mem (v : memory) (s : memst) : memst :=
  MkMem v (m_freelist s) (m_use_lock s) (m_end s) (m_data s) (m_cpus s) (m_kpgdir s).
Definition set_m_freelist (v : Z) (s : memst) : memst :=
  MkMem (m_mem s) v (m_use_lock s) (m_end s) (m_data s) (m_cpus s) (m_kpgdir s).
Definition set_m_use_lock (v : bool) (s : memst) : memst :=
  MkMem (m_mem s) (m_freelist s) v (m_end s) (m_data s) (m_cpus s) (m_kpgdir s).
Definition set_m_kpgdir (v : Z) (s : memst) : memst :=
  MkMem (m_mem s) (m_freelist s) (m_use_lock s) (m_end s) (m_data s) (m_cpus s) v.
#[export] Hint Unfold set_m_mem set_m_freelist set_m_use_lock set_m_kpgdir : setters.

Definition kmem_lock : objaddr := ("kmem"%string, 0).

(** [*(uint* )a] and [*(uint* )a = v] of kernel memory, and [memset]. *)
Definition load (a : Z) : K memst Z := gets (λ s, ld32 (m_mem s.2) a).
Definition store (a v : Z) : K memst unit :=
  modc (λ s, set_m_mem (st32 (m_mem s) a v) s).
Definition kmemset (a c n : Z) : K memst unit :=
  modc (λ s, set_m_mem (memset (m_mem s) a c n) s).

(** ** Operations *)

Definition kfree (v : Z) : K memst unit :=
  s ← getc;
  if negb (v mod PGSIZE =? 0) || (v <? m_end s) || (PHYSTOP <=? V2P v)
  then panic "kfree" else
  kmemset v 1 PGSIZE;;
  when (m_use_lock s) (acquire kmem_lock);;
  s ← getc;
  store v (m_freelist s);;
  modc (set_m_freelist v);;
  when (m_use_lock s) (release kmem_lock).

Definition kalloc : K memst Z :=
  s ← getc;
  when (m_use_lock s) (acquire kmem_lock);;
  r ← gets (λ s, m_freelist s.2);
  when (negb (r =? 0)) (n ← load r; modc (set_m_freelist n));;
  when (m_use_lock s) (release kmem_lock);;
  mret r.

(** [for(; p + PGSIZE <= vend; p += PGSIZE) kfree(p);] at most [fuel] times. *)
Fixpoint freerange_loop (fuel : nat) (p vend : Z) : K memst unit :=
  match fuel with
  | O => mret tt
  | S fuel =>
      if p + PGSIZE <=? vend
      then kfree p;; freerange_loop fuel (p + PGSIZE) vend
      else mret tt
  end.

(** The loop runs once for every whole page between the bounds. *)
Definition freerange (vstart vend : Z) : K memst unit :=
  let p := PGROUNDUP vstart in
  freerange_loop (Z.to_nat ((vend - p) / PGSIZE + 1)) p vend.

Definition kinit1 (vstart vend : Z) : K memst unit :=
  initlock kmem_lock;;
  modc (set_m_use_lock false);;
  freerange vstart vend.

Definition kinit2 (vstart vend : Z) : K memst unit :=
  freerange vstart vend;;
  modc (set_m_use_lock true).

(** ** The invariant *)

(** [p] is the head of the list [l] linked through the first words. *)
Fixpoint linked (m : memory) (p : Z) (l : list Z) : Prop :=
  match l with
  | [] => p = 0
  | a :: l => p = a ∧ a ≠ 0 ∧ linked m (ld32 m a) l
  end.

(** A page the allocator may own. *)
Definition page_ok (s : memst) (a : Z) : Prop :=
  a mod PGSIZE = 0 ∧ m_end s ≤ a < KERNBASE + PHYSTOP.

Record kmem_inv (s : memst) (l : list Z) : Prop := {
  ki_linked : linked (m_mem s) (m_freelist s) l;
  ki_nodup : NoDup l;
  ki_pages : Forall (page_ok s) l;
  ki_wf : wf_mem (m_mem s);
  ki_end : KERNBASE < m_end s
}.

(** The effect of [if(kmem.use_lock) acquire ... release] on the CPU. *)
Definition cycle (b : bool) (h : hw) : hw := if b then settle h else h.

(** The page allocator may be called: the CPU is in order, its lock free. *)
Definition kmem_ready (h : hw) : Prop := wf_hw h ∧ h_locks h !! kmem_lock = None.

(** ** Lemmas *)

Ltac klia := unfold KERNBASE, PHYSTOP, PGSIZE in *; lia.

Lemma page_disjoint a b : a mod PGSIZE = 0 → b mod PGSIZE = 0 → a ≠ b →
  a + PGSIZE ≤ b ∨ b + PGSIZE ≤ a.
Proof.
  unfold PGSIZE. intros Ha Hb Hab.
  pose proof (Z.div_mod a 4096). pose proof (Z.div_mod b 4096). lia.
Qed.

Lemma linked_frame m m' l : ∀ p,
  (∀ a, a ∈ l → ld32 m' a = ld32 m a) → linked m p l → linked m' p l.
Proof.
  induction l as [|a l IH]; intros p Heq; cbn; [done|]. intros (-> & ? & Hl).
  split_and!; [done..|]. rewrite -> Heq by set_solver. apply IH; [set_solver|done].
Qed.

Lemma kmem_ready_cycle b h : kmem_ready h → kmem_ready (cycle b h).
Proof.
  intros [Hwf Hl]. destruct b; [|done]. split; [by apply wf_settle|]. by rw locks_settle.
Qed.

Lemma cycle_cycle b h : cycle b (cycle b h) = cycle b h.
Proof. destruct b; [apply settle_settle|done]. Qed.

Lemma V2P_range a : KERNBASE ≤ a < KERNBASE + PHYSTOP → V2P a = a - KERNBASE.
Proof. intros. unfold V2P. apply wrapu_small. klia. Qed.

Lemma kfree_guard s v :
  KERNBASE < m_end s → page_ok s v →
  negb (v mod PGSIZE =? 0) || (v <? m_end s) || (PHYSTOP <=? V2P v) = false.
Proof.
  intros He [Hm Hr]. rw Hm. cbn [Z.eqb negb orb].
  destruct (Z.ltb_spec v (m_end s)); [lia|]. cbn.
  rewrite -> V2P_range by lia. apply Z.leb_gt. lia.
Qed.

(** Both lock sections of the allocator: run [m] with the lock held when
    [use_lock] is set. *)
Lemma acquire_when b h (s : memst) :
  kmem_ready h →
  when b (acquire kmem_lock) (h, s) = Ok tt (if b then acq kmem_lock h else h, s).
Proof. intros [Hwf Hl]. destruct b; [by apply acquire_ok|done]. Qed.

Lemma release_when b h (s : memst) :
  kmem_ready h →
  when b (release kmem_lock) (if b then acq kmem_lock h else h, s) = Ok tt (cycle b h, s).
Proof. intros [Hwf Hl]. destruct b; [by apply release_ok|done]. Qed.

Definition freed (v : Z) (s : memst) : memst :=
  set_m_freelist v
    (set_m_mem (st32 (memset (m_mem s) v 1 PGSIZE) v (m_freelist s)) s).

Lemma kfree_run h s v :
  kmem_ready h → KERNBASE < m_end s → page_ok s v →
  kfree v (h, s) = Ok tt (cycle (m_use_lock s) h, freed v s).
Proof.
  intros Hr He Hv. unfold kfree. rw bind_run /=. rewrite -> kfree_guard by done.
  rw bind_run /=. rw (bind_ok _ _ _ _ _ (acquire_when _ h _ Hr)).
  rw bind_run /= bind_run /= bind_run /=. by apply release_when.
Qed.

Lemma kfree_panics h s v :
  ¬ (v mod PGSIZE = 0 ∧ m_end s ≤ v ∧ V2P v < PHYSTOP) →
  kfree v (h, s) = Stop (Panic "kfree") (h, s).
Proof.
  intros Hv. unfold kfree. rw bind_run /=.
  destruct (Z.eqb_spec (v mod PGSIZE) 0), (Z.ltb_spec v (m_end s)),
    (Z.leb_spec PHYSTOP (V2P v)); cbn; try done. lia.
Qed.

(** Freeing writes only the freed page. *)
Lemma ld8_freed v s b :
  b < v ∨ v + PGSIZE ≤ b → ld8 (m_mem (freed v s)) b = ld8 (m_mem s) b.
Proof.
  intros Hb. unfold freed. cbn. unfold PGSIZE in *. rewrite -> ld8_st32_ne by lia.
  rewrite -> ld8_memset by lia. by rewrite -> decide_False by lia.
Qed.

Lemma ld32_freed v s b :
  b mod PGSIZE = 0 → v mod PGSIZE = 0 → b ≠ v → ld32 (m_mem (freed v s)) b = ld32 (m_mem s) b.
Proof.
  intros Hb Hv Hne. pose proof (page_disjoint b v Hb Hv Hne). unfold PGSIZE in *.
  unfold ld32. rewrite -> !ld8_freed by (unfold PGSIZE; lia). done.
Qed.

Lemma freed_inv s l v :
  kmem_inv s l → page_ok s v → v ∉ l → kmem_inv (freed v s) (v :: l).
Proof.
  intros [Hl Hn Hp Hw He] [Hvm Hvr] Hvl. split; cbn [linked]; try done.
  - split_and!; [done|klia|]. unfold freed at 2. cbn. rw ld32_st32_eq.
    rewrite -> wrapu_small.
    + eapply linked_frame; [|done]. intros a Ha.
      assert (page_ok s a) as [] by (rewrite -> Forall_forall in Hp; by apply Hp).
      apply ld32_freed; [done..|]. by intros ->.
    + destruct l as [|a l]; cbn in Hl; [klia|]. destruct Hl as (-> & _).
      apply Forall_cons in Hp as [[_ Ha] _]. klia.
  - by apply NoDup_cons.
  - constructor; [done|]. done.
  - apply wf_st32. intros b. rewrite -> ld8_memset by (unfold PGSIZE; lia).
    case_decide; [done|apply Hw].
Qed.

(** [kalloc] takes the first page of the list, or returns 0. *)
Definition taken (l : list Z) (s : memst) : memst :=
  set_m_freelist (hd 0 (tl l)) s.

Lemma linked_hd m p l : linked m p l → p = hd 0 l.
Proof. destruct l; cbn; [done|]. by intros []. Qed.

Lemma kalloc_run h s l :
  kmem_ready h → kmem_inv s l →
  kalloc (h, s) = Ok (hd 0 l) (cycle (m_use_lock s) h, if l is [] then s else taken l s).
Proof.
  intros Hr [Hl Hn Hp Hw He]. unfold kalloc. rw bind_run /=.
  rw (bind_ok _ _ _ _ _ (acquire_when _ h _ Hr)) bind_run /=.
  destruct l as [|a l]; cbn in Hl.
  - rw Hl /=. rw bind_run /=. by rw (bind_ok _ _ _ _ _ (release_when _ h _ Hr)).
  - destruct Hl as (-> & Ha & Hl). apply linked_hd in Hl.
    rewrite -> (proj2 (Z.eqb_neq _ _)) by done. cbn. rw bind_run /=.
    rw (bind_ok _ _ _ _ _ (release_when _ h _ Hr)) Hl. done.
Qed.

Lemma taken_inv s a l : kmem_inv s (a :: l) → kmem_inv (taken (a :: l) s) l.
Proof.
  intros [(Ha & _ & Hl) [? ?]%NoDup_cons [? ?]%Forall_cons Hw He]. split; try done.
  cbn. by rw -(linked_hd _ _ _ Hl).
Qed.

(** The pages of [n] consecutive frames from [p]. *)
Definition pages (p : Z) (n : nat) : list Z := (λ i, p + PGSIZE * Z.of_nat i) <$> seq 0 n.

Lemma pages_S p n : pages p (S n) = p :: pages (p + PGSIZE) n.
Proof.
  unfold pages. cbn. f_equal; [lia|]. rw -fmap_S_seq -list_fmap_compose.
  apply list_fmap_ext. intros i x _. cbn. lia.
Qed.

Lemma elem_of_pages p n a :
  a ∈ pages p n ↔ ∃ i, 0 ≤ i < Z.of_nat n ∧ a = p + PGSIZE * i.
Proof.
  unfold pages. rw list_elem_of_fmap. split.
  - intros (i & -> & Hi%elem_of_seq). exists (Z.of_nat i). lia.
  - intros (i & Hi & ->). exists (Z.to_nat i). rw elem_of_seq. split; [|lia].
    by rewrite -> Z2Nat.id by lia.
Qed.

Lemma freerange_loop_run n : ∀ fuel h s l p vend,
  kmem_ready h → kmem_inv s l → m_use_lock s = false →
  p mod PGSIZE = 0 → m_end s ≤ p → vend ≤ KERNBASE + PHYSTOP →
  p + PGSIZE * Z.of_nat n ≤ vend < p + PGSIZE * (Z.of_nat n + 1) →
  (∀ a, a ∈ pages p n → a ∉ l) → (n < fuel)%nat →
  ∃ s', freerange_loop fuel p vend (h, s) = Ok tt (h, s') ∧
    kmem_inv s' (rev (pages p n) ++ l) ∧ m_use_lock s' = false ∧ m_end s' = m_end s.
Proof.
  induction n as [|n IH]; intros [|fuel] h s l p vend Hr Hi Hu Hp He Hv Hn Hl Hf;
    try lia; cbn [freerange_loop].
  - exists s. destruct (Z.leb_spec (p + PGSIZE) vend); [lia|]. done.
  - destruct (Z.leb_spec (p + PGSIZE) vend); [|klia].
    rw pages_S in Hl. assert (page_ok s p) as Hpo by (split; klia).
    rw (bind_ok _ _ _ _ _ (kfree_run h s p Hr (ki_end _ _ Hi) Hpo)) Hu. cbv beta. cbn [cycle].
    destruct (IH fuel h (freed p s) (p :: l) (p + PGSIZE) vend) as (s' & -> & Hi' & Hu' & He');
      try done; try klia.
    + apply freed_inv; try done. apply Hl. left.
    + unfold PGSIZE in *. dlia.
    + unfold freed. cbn. klia.
    + intros a Ha [->|Ha']%elem_of_cons.
      * apply elem_of_pages in Ha as (i & ? & ?). klia.
      * apply (Hl a); [by right|done].
    + exists s'. split_and!; try done. rw pages_S /= -app_assoc //.
Qed.

(** ** Properties *)

(** C37: [kalloc] returns the head of the free list and leaves the rest of it
    (0 when it is empty), [kfree] puts a page back, fills it with 1s and touches
    no other page; both keep the list linked, duplicate free and made of pages of
    the allocator's range, and leave the lock free. *)
Theorem kalloc_kfree_correct (h : hw) (s : memst) (l : list Z) :
  kmem_ready h → kmem_inv s l →
  (∃ s', kalloc (h, s) = Ok (hd 0 l) (cycle (m_use_lock s) h, s') ∧
     kmem_inv s' (tl l) ∧ m_mem s' = m_mem s) ∧
  (∀ v, page_ok s v → v ∉ l →
     ∃ s', kfree v (h, s) = Ok tt (cycle (m_use_lock s) h, s') ∧
       kmem_inv s' (v :: l) ∧
       (∀ b, v + 4 ≤ b < v + PGSIZE → ld8 (m_mem s') b = 1) ∧
       (∀ b, b < v ∨ v + PGSIZE ≤ b → ld8 (m_mem s') b = ld8 (m_mem s) b)) ∧
  (∀ v, ¬ (v mod PGSIZE = 0 ∧ m_end s ≤ v ∧ V2P v < PHYSTOP) →
     kfree v (h, s) = Stop (Panic "kfree") (h, s)).
Proof.
  intros Hr Hi. split_and!.
  - rewrite -> (kalloc_run _ _ l) by done. destruct l as [|a l]; [by exists s|].
    eexists. split; [done|]. split; [by apply taken_inv|done].
  - intros v Hv Hl. exists (freed v s).
    rewrite -> kfree_run by (done || by eapply ki_end).
    split_and!; [done|by apply freed_inv| |].
    + intros b Hb. unfold freed. cbn. rewrite -> ld8_st32_ne by lia.
      rewrite -> ld8_memset by (unfold PGSIZE; lia). by rewrite -> decide_True by lia.
    + intros b Hb. by apply ld8_freed.
  - intros v Hv. by apply kfree_panics.
Qed.

(** A page that is freed is the next one allocated, and the allocator is
    back in its previous state up to the contents of that page. *)
Theorem kfree_kalloc_roundtrip (h : hw) (s : memst) (l : list Z) (v : Z) :
  kmem_ready h → kmem_inv s l → page_ok s v → v ∉ l →
  ∃ s', (kfree v;; kalloc) (h, s) = Ok v (cycle (m_use_lock s) h, s') ∧
    kmem_inv s' l ∧ m_freelist s' = m_freelist s.
Proof.
  intros Hr Hi Hv Hl.
  rw (bind_ok _ _ _ _ _ (kfree_run h s v Hr (ki_end _ _ Hi) Hv)).
  pose proof (freed_inv s l v Hi Hv Hl) as Hi'.
  rw (kalloc_run _ _ (v :: l) (kmem_ready_cycle _ h Hr) Hi') /=. rw cycle_cycle.
  eexists. split; [done|]. split; [by apply taken_inv|].
  destruct Hi as [Hl' _ _ _ _]. apply linked_hd in Hl'. cbn. by rw Hl'.
Qed.

(** [kinit2] frees exactly the whole pages between its bounds: they are put
    before the pages that were free, and locking is turned on. *)
Theorem kinit2_frees_range (h : hw) (s : memst) (l : list Z) (vstart vend : Z) :
  kmem_ready h → kmem_inv s l → m_use_lock s = false →
  m_end s ≤ vstart → vstart + PGSIZE ≤ vend ≤ KERNBASE + PHYSTOP →
  let p := PGROUNDUP vstart in
  let n := Z.to_nat ((vend - p) / PGSIZE) in
  (∀ a, a ∈ pages p n → a ∉ l) →
  ∃ s', kinit2 vstart vend (h, s) = Ok tt (h, s') ∧
    kmem_inv s' (rev (pages p n) ++ l) ∧ m_use_lock s' = true.
Proof.
  intros Hr Hi Hu He Hv p n Hl. unfold kinit2, freerange. fold p.
  pose proof (ki_end _ _ Hi).
  destruct (PGROUNDUP_spec vstart) as [Hp1 Hp2]; [klia..|]. fold p in Hp1, Hp2.
  destruct (freerange_loop_run n (Z.to_nat ((vend - p) / PGSIZE + 1)) h s l p vend)
    as (s' & E & Hi' & Hu' & _); try done; try lia.
  - unfold n, PGSIZE in *. dlia.
  - unfold n, PGSIZE in *. dlia.
  - rw (bind_ok _ _ _ _ _ E). exists (set_m_use_lock true s').
    split; [done|]. split; [|done]. by destruct Hi'; split.
Qed.

(** ** Examples *)

(** Two free pages. *)
Definition ex_kmem : memst :=
  MkMem (st32 ∅ 0x80400000 0x80401000) 0x80400000 true 0x80115000 0x80108000 0x80112800 0.

Lemma ex_kmem_ready : kmem_ready boot_hw.
Proof. split; [apply boot_hw_wf|done]. Qed.

Lemma wf_mem_empty : wf_mem ∅.
Proof. intros a. unfold ld8. by rw lookup_empty. Qed.

Lemma ex_kmem_inv : kmem_inv ex_kmem [0x80400000; 0x80401000].
Proof.
  split; try done.
  - apply (bool_decide_unpack _). by vm_compute.
  - repeat (constructor; [by split|]). constructor.
  - apply wf_st32, wf_mem_empty.
Qed.

Lemma kalloc_kfree_correct_witness :
  ∃ s', kalloc (boot_hw, ex_kmem) = Ok 0x80400000 (cycle true boot_hw, s') ∧
    kmem_inv s' [0x80401000] ∧ m_mem s' = m_mem ex_kmem.
Proof. exact (proj1 (kalloc_kfree_correct boot_hw ex_kmem _ ex_kmem_ready ex_kmem_inv)). Defined.

Lemma kfree_kalloc_roundtrip_witness :
  ∃ s', (kfree 0x80402000;; kalloc) (boot_hw, ex_kmem)
          = Ok 0x80402000 (cycle true boot_hw, s') ∧
    kmem_inv s' [0x80400000; 0x80401000] ∧ m_freelist s' = 0x80400000.
Proof.
  apply (kfree_kalloc_roundtrip boot_hw ex_kmem _ 0x80402000 ex_kmem_ready ex_kmem_inv).
  - by split.
  - apply (bool_decide_unpack _). by vm_compute.
Defined.

Lemma kinit2_frees_range_witness :
  ∃ s', kinit2 0x80400800 0x80404000 (boot_hw, set_m_use_lock false (set_m_freelist 0 ex_kmem))
          = Ok tt (boot_hw, s') ∧
    kmem_inv s' [0x80403000; 0x80402000; 0x80401000] ∧ m_use_lock s' = true.
Proof.
  apply (kinit2_frees_range boot_hw _ [] 0x80400800 0x80404000 ex_kmem_ready); try done.
  - split; try done; [constructor|apply wf_st32, wf_mem_empty].
  - by intros a _ ?%elem_of_nil.
Defined.
