(* ===== verification/SpinConc.v ===== *)
(** * Spin locks on several CPUs: spinlock.c and userlock.c interleaved

    Any number of CPUs run [acquire] and [release] on one lock, interleaved at
    the memory accesses that matter: the two reads of [holding], the atomic
    [xchg], the writes of [lk->cpu] and the final store of 0.  The user-level
    lock of userlock.c is the same protocol without the owner field. *)

From S2P Require Import Prelude.

(** ** acquire and release *)

(** Where a CPU is. *)
Inductive lpc : Type :=
| Idle                 (* outside, not holding the lock *)
| AcqRead              (* acquire: holding() reads lk->locked *)
| AcqOwner             (* acquire: holding() reads lk->cpu *)
| AcqXchg              (* acquire: the xchg loop *)
| AcqSet               (* acquire: xchg returned 0, lk->cpu not yet written *)
| Critical             (* between acquire and release *)
| RelRead              (* release: holding() reads lk->locked *)
| RelOwner             (* release: holding() reads lk->cpu *)
| RelClear             (* release: lk->cpu = 0 *)
| RelStore             (* release: movl $0 to lk->locked *)
| Panicked.            (* panic("acquire") or panic("release") *)

#[export] Instance lpc_eq_dec : EqDecision lpc.
Proof. solve_decision. Defined.

Record lockst : Type := MkLockst {
  l_locked : bool;
  l_cpu : option nat;
  l_pc : nat → lpc
}.

Definition at_pc (s : lockst) (i : nat) (p : lpc) : lockst :=
  MkLockst (l_locked s) (l_cpu s) (<[i := p]> (l_pc s)).

(** One step of CPU [i]. *)
Inductive lock_step (s : lockst) : lockst → Prop :=
| st_acquire i :
    l_pc s i = Idle → lock_step s (at_pc s i AcqRead)
| st_acq_read i :
    l_pc s i = AcqRead →
    lock_step s (at_pc s i (if l_locked s then AcqOwner else AcqXchg))
| st_acq_owner i :
    l_pc s i = AcqOwner →
    lock_step s (at_pc s i (if decide (l_cpu s = Some i) then Panicked else AcqXchg))
| st_xchg i :
    l_pc s i = AcqXchg →
    lock_step s
      (MkLockst true (l_cpu s) (<[i := if l_locked s then AcqXchg else AcqSet]> (l_pc s)))
| st_acq_set i :
    l_pc s i = AcqSet →
    lock_step s (MkLockst (l_locked s) (Some i) (<[i := Critical]> (l_pc s)))
| st_release i :
    l_pc s i = Critical → lock_step s (at_pc s i RelRead)
| st_rel_read i :
    l_pc s i = RelRead →
    lock_step s (at_pc s i (if l_locked s then RelOwner else Panicked))
| st_rel_owner i :
    l_pc s i = RelOwner →
    lock_step s (at_pc s i (if decide (l_cpu s = Some i) then RelClear else Panicked))
| st_rel_clear i :
    l_pc s i = RelClear →
    lock_step s (MkLockst (l_locked s) None (<[i := RelStore]> (l_pc s)))
| st_rel_store i :
    l_pc s i = RelStore →
    lock_step s (MkLockst false (l_cpu s) (<[i := Idle]> (l_pc s))).

(** [initlock]: nobody holds the lock. *)
Definition lock_init : lockst := MkLockst false None (λ _, Idle).

Definition lock_reachable (s : lockst) : Prop := rtc lock_step lock_init s.

(** A CPU past the [xchg] and before the final store. *)
Definition holds (p : lpc) : bool :=
  match p with
  | AcqSet | Critical | RelRead | RelOwner | RelClear | RelStore => true
  | _ => false
  end.

(** A CPU whose number is in [lk->cpu]. *)
Definition named (p : lpc) : bool :=
  match p with Critical | RelRead | RelOwner | RelClear => true | _ => false end.

Record lock_inv (s : lockst) : Prop := {
  li_locked : ∀ i, holds (l_pc s i) = true → l_locked s = true;
  li_unique : ∀ i j, holds (l_pc s i) = true → holds (l_pc s j) = true → i = j;
  li_holder : l_locked s = true → ∃ i, holds (l_pc s i) = true;
  li_named : ∀ i, l_cpu s = Some i ↔ named (l_pc s i) = true;
  li_panic : ∀ i, l_pc s i ≠ Panicked
}.

Lemma holds_named p : named p = true → holds p = true.
Proof. by destruct p. Qed.

(** A step that changes the program counter of one CPU only, between two places
    with the same view of the lock. *)
Lemma lock_inv_move s i p :
  lock_inv s → holds p = holds (l_pc s i) → named p = named (l_pc s i) → p ≠ Panicked →
  lock_inv (at_pc s i p).
Proof.
  intros [Hl Hu Hh Hn Hp] Eh En Ep. split; cbn.
  - intros j Hj. apply (Hl j). pc_cases; congruence.
  - intros j k Hj Hk. apply Hu; pc_cases; congruence.
  - intros H. destruct (Hh H) as [j Hj]. exists j. pc_cases; congruence.
  - intros j. rw Hn. pc_cases; [by rw En|done].
  - intros j. pc_cases; [done|apply Hp].
Qed.

Lemma lock_step_inv s s' : lock_inv s → lock_step s s' → lock_inv s'.
Proof.
  intros Hi Hs. destruct Hs as [i E|i E|i E|i E|i E|i E|i E|i E|i E|i E];
    pose proof Hi as [Hl Hu Hh Hn Hp];
    try (apply lock_inv_move; rw ?E; by destruct (l_locked s)).
  - (* AcqOwner *)
    rewrite -> decide_False by (rw Hn E; done). by apply lock_inv_move; rw ?E.
  - (* xchg *)
    destruct (l_locked s) eqn:El.
    + assert (MkLockst true (l_cpu s) (<[i:=AcqXchg]> (l_pc s)) = at_pc s i AcqXchg) as ->
        by (unfold at_pc; by rw El).
      by apply lock_inv_move; rw ?E.
    + assert (∀ j, holds (l_pc s j) = true → False) as Hf
        by (intros j Hj; specialize (Hl j Hj); congruence).
      split; cbn; intros.
      * done.
      * pc_cases; try done; exfalso; by eapply Hf.
      * exists i. by rw fn_lookup_insert.
      * rw Hn. pc_cases; [by rw E|done].
      * pc_cases; [done|apply Hp].
  - (* AcqSet *)
    assert (∀ j, j ≠ i → holds (l_pc s j) = true → False) as Hf
      by (intros j Hj Hj'; apply Hj, Hu; [done|by rw E]).
    split; cbn; intros.
    + apply (Hl i). by rw E.
    + pc_cases; try done; exfalso; by eapply Hf.
    + exists i. by rw fn_lookup_insert.
    + pc_cases; [done|]. split; [congruence|]. intros Hj%holds_named. exfalso. by eapply Hf.
    + pc_cases; [done|apply Hp].
  - (* RelRead *)
    rewrite -> (Hl i) by by rw E. by apply lock_inv_move; rw ?E.
  - (* RelOwner *)
    rewrite -> decide_True by (rw Hn E; done). by apply lock_inv_move; rw ?E.
  - (* RelClear *)
    assert (∀ j, j ≠ i → holds (l_pc s j) = true → False) as Hf
      by (intros j Hj Hj'; apply Hj, Hu; [done|by rw E]).
    split; cbn; intros.
    + apply (Hl i). by rw E.
    + pc_cases; try done; exfalso; by eapply Hf.
    + exists i. by rw fn_lookup_insert.
    + pc_cases; [done|]. split; [congruence|]. intros Hj%holds_named. exfalso. by eapply Hf.
    + pc_cases; [done|apply Hp].
  - (* RelStore *)
    assert (∀ j, j ≠ i → holds (l_pc s j) = true → False) as Hf
      by (intros j Hj Hj'; apply Hj, Hu; [done|by rw E]).
    split; cbn; intros.
    + pc_cases; [done|]. exfalso. by eapply Hf.
    + pc_cases; try done; exfalso; by eapply Hf.
    + done.
    + rw Hn. pc_cases; [by rw E|done].
    + pc_cases; [done|apply Hp].
Qed.

Lemma lock_init_inv : lock_inv lock_init.
Proof. split; cbn; try done. Qed.

Lemma lock_reachable_inv s : lock_reachable s → lock_inv s.
Proof. apply rtc_invariant; [apply lock_step_inv|apply lock_init_inv]. Qed.

(** C4: However the CPUs interleave, no two of them are in the critical
    section, no call of [acquire] or [release] panics, [holding] is right about
    the executing CPU, and a CPU in the [xchg] loop gets the lock on its next
    step when nobody holds it. *)
Theorem spinlock_mutual_exclusion (s : lockst) :
  lock_reachable s →
  (∀ i j, l_pc s i = Critical → l_pc s j = Critical → i = j) ∧
  (∀ i, l_pc s i ≠ Panicked) ∧
  (∀ i, l_pc s i = Critical → l_locked s = true ∧ l_cpu s = Some i) ∧
  (∀ i, l_pc s i = Idle → l_cpu s ≠ Some i) ∧
  (∀ i, l_pc s i = AcqXchg → (∀ j, holds (l_pc s j) = false) →
     ∃ s', lock_step s s' ∧ l_pc s' i = AcqSet).
Proof.
  intros [Hl Hu Hh Hn Hp]%lock_reachable_inv. split_and!.
  - intros i j Hi Hj. apply Hu; by rw ?Hi ?Hj.
  - done.
  - intros i Hi. split; [apply (Hl i); by rw Hi|]. apply Hn. by rw Hi.
  - intros i Hi. rw Hn Hi. done.
  - intros i Hi Hf. destruct (l_locked s) eqn:El.
    + destruct (Hh eq_refl) as [j Hj]. congruence.
    + eexists. split; [by apply (st_xchg s i)|]. cbn. by rw El fn_lookup_insert.
Qed.

(** ** userlock.c: uacquire and urelease *)

Inductive upc : Type := UIdle | UXchg | UCritical | UStore.

Record userlockst : Type := MkUserlockst { u_locked : bool; u_pc : nat → upc }.

Inductive ulock_step (s : userlockst) : userlockst → Prop :=
| ust_uacquire i :
    u_pc s i = UIdle → ulock_step s (MkUserlockst (u_locked s) (<[i := UXchg]> (u_pc s)))
| ust_xchg i :
    u_pc s i = UXchg →
    ulock_step s
      (MkUserlockst true (<[i := if u_locked s then UXchg else UCritical]> (u_pc s)))
| ust_urelease i :
    u_pc s i = UCritical →
    ulock_step s (MkUserlockst (u_locked s) (<[i := UStore]> (u_pc s)))
| ust_store i :
    u_pc s i = UStore → ulock_step s (MkUserlockst false (<[i := UIdle]> (u_pc s))).

(** A lock in zero-filled shared memory. *)
Definition ulock_init : userlockst := MkUserlockst false (λ _, UIdle).

Definition uholds (p : upc) : bool :=
  match p with UCritical | UStore => true | _ => false end.

Record ulock_inv (s : userlockst) : Prop := {
  ui_locked : ∀ i, uholds (u_pc s i) = true → u_locked s = true;
  ui_unique : ∀ i j, uholds (u_pc s i) = true → uholds (u_pc s j) = true → i = j
}.

Lemma ulock_step_inv s s' : ulock_inv s → ulock_step s s' → ulock_inv s'.
Proof.
  intros [Hl Hu] Hs. destruct Hs as [i E|i E|i E|i E]; split; cbn.
  - intros j Hj. pc_cases; [done|]. by eapply Hl.
  - intros j k Hj Hk. pc_cases; try done. by apply Hu.
  - done.
  - intros j k Hj Hk. destruct (u_locked s) eqn:El; pc_cases; try done; try (by apply Hu).
    all: try (by specialize (Hl _ Hj)); by specialize (Hl _ Hk).
  - intros j Hj. pc_cases; [apply (Hl j); by rw E|by eapply Hl].
  - intros j k Hj Hk. apply Hu; pc_cases; by rw ?E.
  - intros j Hj. pc_cases; [done|]. exfalso. apply n. apply Hu; by rw ?E.
  - intros j k Hj Hk. pc_cases; try done. by apply Hu.
Qed.

(** Processes that share a page and take its lock with [uacquire] and
    [urelease] are never in their critical sections together. *)
Theorem userlock_mutual_exclusion (s : userlockst) :
  rtc ulock_step ulock_init s →
  ∀ i j, u_pc s i = UCritical → u_pc s j = UCritical → i = j.
Proof.
  intros Hr. assert (ulock_inv s) as [_ Hu].
  { revert Hr. apply rtc_invariant; [apply ulock_step_inv|]. by split. }
  intros i j Hi Hj. apply Hu; by rw ?Hi ?Hj.
Qed.

(** ** Examples: CPU 0 in the critical section, CPU 1 in the [xchg] loop *)

Definition ex_lockst : lockst :=
  MkLockst true (Some 0%nat)
    (<[0%nat := Critical]> (<[0%nat := AcqSet]> (<[0%nat := AcqXchg]> (<[1%nat := AcqXchg]>
    (<[0%nat := AcqRead]> (<[1%nat := AcqRead]> (λ _, Idle))))))).

Lemma ex_lockst_reachable : lock_reachable ex_lockst.
Proof.
  eapply rtc_l; [by apply (st_acquire _ 1)|]. eapply rtc_l; [by apply (st_acquire _ 0)|].
  eapply rtc_l; [by apply (st_acq_read _ 1)|]. eapply rtc_l; [by apply (st_acq_read _ 0)|].
  eapply rtc_l; [by apply (st_xchg _ 0)|]. eapply rtc_l; [by apply (st_acq_set _ 0)|].
  apply rtc_refl.
Qed.

Lemma spinlock_mutual_exclusion_witness :
  (∀ i j, l_pc ex_lockst i = Critical → l_pc ex_lockst j = Critical → i = j) ∧
  l_pc ex_lockst 0%nat = Critical.
Proof.
  split; [|done]. exact (proj1 (spinlock_mutual_exclusion _ ex_lockst_reachable)).
Defined.

Definition ex_ulock : userlockst :=
  MkUserlockst true (<[0%nat := UCritical]> (<[0%nat := UXchg]> (λ _, UIdle))).

Lemma userlock_mutual_exclusion_witness :
  u_pc ex_ulock 0%nat = UCritical ∧
  (∀ i j, u_pc ex_ulock i = UCritical → u_pc ex_ulock j = UCritical → i = j).
Proof.
  split; [done|]. apply (userlock_mutual_exclusion ex_ulock).
  eapply rtc_l; [by apply (ust_uacquire _ 0)|]. eapply rtc_l; [by apply (ust_xchg _ 0)|].
  apply rtc_refl.
Defined.
