(* ===== verification/PrioLock.v ===== *)
(** * The priority lock: the queue of spinlock.c and its lock

    Waiting processes queue in decreasing order of pid, in a linked list of
    pages from the page allocator; the process at the head takes the lock when
    it is free. *)

From Stdlib Require Import Sorted.
From S2P Require Import Prelude Machine Spinlock Mem Kalloc.

(** ** State: kernel memory and the [head] field of [struct prioritylock] *)

Record plst : Type := MkPl { pl_mem : memst; pl_head : Z }.

Definition set_pl_mem (v : memst) (s : plst) : plst := MkPl v (pl_head s).
Definition set_pl_head (v : Z) (s : plst) : plst := MkPl (pl_mem s) v.
Definition pl_memL : lens plst memst := Lens pl_mem set_pl_mem.

Definition plock_lock : objaddr := ("prioritylock.lock"%string, 0).
Definition plock_queue_lock : objaddr := ("prioritylock.queue_lock"%string, 0).

(** The fields of [struct queue] at address [a]: [next] at offset 0, [pid] (a
    signed int) at offset 4. *)
Definition q_next (a : Z) : K plst Z := zoom pl_memL (load a).
Definition q_pid (a : Z) : K plst Z := zoom pl_memL (v ← load (a + 4); mret (s32 v)).
Definition set_q_next (a v : Z) : K plst unit := zoom pl_memL (store a v).
Definition set_q_pid (a v : Z) : K plst unit := zoom pl_memL (store (a + 4) (u32 v)).

(** There are no more queue nodes than pages of physical memory. *)
Definition NPAGES : nat := Z.to_nat (PHYSTOP / PGSIZE).

Lemma NPAGES_eq : Z.of_nat NPAGES = 57344.
Proof. unfold NPAGES. by rewrite -> Z2Nat.id by done. Qed.

#[global] Opaque NPAGES.

(** ** Operations *)

Definition p_initlock : K plst unit :=
  initlock plock_lock;;
  initlock plock_queue_lock;;
  modc (set_pl_head 0).

(** [while(temp->next != 0) if(temp->next->pid > res->pid) temp = temp->next;
    else break;] *)
Fixpoint add_queue_find (fuel : nat) (temp pid : Z) : K plst Z :=
  match fuel with
  | O => fault "add_queue"
  | S fuel =>
      next ← q_next temp;
      if next =? 0 then mret temp else
      npid ← q_pid next;
      if pid <? npid then add_queue_find fuel next pid else mret temp
  end.

(** The [if ( *head == 0) ... else ...] statement of [add_queue]. *)
Definition add_queue_link (res : Z) : K plst unit :=
  head ← gets (λ s, pl_head s.2);
  if head =? 0 then modc (set_pl_head res) else
  tpid ← q_pid head;
  rpid ← q_pid res;
  if tpid <? rpid then
    set_q_next res head;;
    modc (set_pl_head res)
  else
    temp ← add_queue_find NPAGES head rpid;
    next ← q_next temp;
    set_q_next res next;;
    set_q_next temp res.

Definition add_queue (pid : Z) : K plst unit :=
  res ← zoom pl_memL kalloc;
  if res =? 0 then fault "add_queue: null pointer" else
  set_q_pid res pid;;
  set_q_next res 0;;
  add_queue_link res.

(** [while(temp->next != 0) if(temp->next->pid != pid) temp = temp->next; else
    { unlink it; return; }  panic("not found in queu!");] *)
Fixpoint rm_queue_loop (fuel : nat) (temp pid : Z) : K plst unit :=
  match fuel with
  | O => fault "rm_queue"
  | S fuel =>
      next ← q_next temp;
      if next =? 0 then panic "not found in queu!" else
      npid ← q_pid next;
      if negb (npid =? pid) then rm_queue_loop fuel next pid
      else
        nnext ← q_next next;
        set_q_next temp nnext;;
        zoom pl_memL (kfree next)
  end.

Definition rm_queue (pid : Z) : K plst unit :=
  head ← gets (λ s, pl_head s.2);
  if head =? 0 then panic "queue null" else
  hpid ← q_pid head;
  if hpid =? pid then
    next ← q_next head;
    modc (set_pl_head next);;
    zoom pl_memL (kfree head)
  else rm_queue_loop NPAGES head pid.

(** One turn of the [while(1)] loop of [prior_acquire]: true when the process
    got the lock. *)
Definition prior_try (pid : Z) : K plst bool :=
  acquire plock_queue_lock;;
  head ← gets (λ s, pl_head s.2);
  if head =? 0 then fault "prior_acquire: null pointer" else
  hpid ← q_pid head;
  h ← geth;
  if (hpid =? pid) && bool_decide (h_locks h !! plock_lock = None) then
    modh (λ h, set_h_locks (<[plock_lock := None]> (h_locks h)) h);;
    rm_queue pid;;
    release plock_queue_lock;;
    mret true
  else
    release plock_queue_lock;;
    mret false.

(** A turn that does not get the lock leaves the queue and the lock as they
    were: this CPU then spins until another one changes them. *)
Definition prior_acquire : K plst unit :=
  pushcli;;
  b ← holding plock_lock;
  if b : bool then panic "acquire" else
  acquire plock_queue_lock;;
  me ← myproc;
  p ← proc_at me;
  let pid := p_pid p in
  add_queue pid;;
  release plock_queue_lock;;
  got ← prior_try pid;
  if negb got then stop_with (Spin plock_lock) else
  i ← mycpu;
  modh (λ h, set_h_locks (<[plock_lock := Some i]> (h_locks h)) h).

Definition p_release : K plst unit := release plock_lock.

(** ** The abstract queue

    [q_insert] is what [add_queue] does to the list of pids: before the head
    when the head is smaller, otherwise after the head and the pids that follow
    it and are larger. *)

Fixpoint ins_tail (pid : Z) (l : list Z) : list Z :=
  match l with
  | [] => [pid]
  | q :: l' => if pid <? q then q :: ins_tail pid l' else pid :: l
  end.

Definition q_insert (pid : Z) (l : list Z) : list Z :=
  match l with
  | [] => [pid]
  | q :: l' => if q <? pid then pid :: l else q :: ins_tail pid l'
  end.

(** The list of nodes (address, pid) from [p] up to [r]. *)
Fixpoint qseg (m : memory) (p : Z) (l : list (Z * Z)) (r : Z) : Prop :=
  match l with
  | [] => p = r
  | (a, pid) :: l =>
      p = a ∧ a ≠ 0 ∧ s32 (ld32 m (a + 4)) = pid ∧ qseg m (ld32 m a) l r
  end.

Definition pmem (s : plst) : memory := m_mem (pl_mem s).

Record pq_inv (s : plst) (l : list (Z * Z)) (free : list Z) : Prop := {
  pq_seg : qseg (pmem s) (pl_head s) l 0;
  pq_kmem : kmem_inv (pl_mem s) free;
  pq_nodup : NoDup l.*1;
  pq_disj : ∀ a, a ∈ l.*1 → a ∉ free;
  pq_pages : Forall (page_ok (pl_mem s)) l.*1
}.

(** ** Lemmas: the abstract queue stays sorted *)

Abbreviation desc := (StronglySorted Z.ge).

Lemma ins_tail_perm pid l : ins_tail pid l ≡ₚ pid :: l.
Proof. induction l as [|q l IH]; cbn; [done|]. case_bool; [|done]. rw IH. apply Permutation_swap. Qed.

Lemma q_insert_perm pid l : q_insert pid l ≡ₚ pid :: l.
Proof. destruct l as [|q l]; cbn; [done|]. case_bool; [done|]. rw ins_tail_perm. apply Permutation_swap. Qed.

Lemma ins_tail_desc pid l : desc l → desc (ins_tail pid l).
Proof.
  induction 1 as [|q l Hl IH Hq]; cbn; [repeat constructor|]. case_bool.
  - constructor; [done|]. rewrite -> ins_tail_perm. constructor; [lia|done].
  - constructor; [by constructor|]. constructor; [lia|].
    eapply Forall_impl; [done|]. cbn. lia.
Qed.

Lemma q_insert_desc pid l : desc l → desc (q_insert pid l).
Proof.
  intros Hl. destruct l as [|q l]; cbn; [repeat constructor|].
  apply StronglySorted_inv in Hl as [Hl Hq]. case_bool.
  - constructor; [by constructor|]. constructor; [lia|].
    eapply Forall_impl; [done|]. cbn. lia.
  - constructor; [by apply ins_tail_desc|]. rewrite -> ins_tail_perm. constructor; [lia|done].
Qed.

Lemma desc_remove l1 x l2 : desc (l1 ++ x :: l2) → desc (l1 ++ l2).
Proof.
  induction l1 as [|y l1 IH]; cbn; intros [Hs Hf]%StronglySorted_inv; [done|].
  constructor; [by apply IH|]. rewrite -> Forall_app, Forall_cons in *. naive_solver.
Qed.

(** *** Nodes in memory *)

Lemma qseg_app m l1 l2 : ∀ p r,
  qseg m p (l1 ++ l2) r ↔ ∃ x, qseg m p l1 x ∧ qseg m x l2 r.
Proof.
  induction l1 as [|[a q] l1 IH]; intros p r; cbn; [naive_solver|].
  rw IH. naive_solver.
Qed.

Lemma qseg_frame m m' l : ∀ p r,
  (∀ a, a ∈ l.*1 → ld32 m' a = ld32 m a ∧ ld32 m' (a + 4) = ld32 m (a + 4)) →
  qseg m p l r → qseg m' p l r.
Proof.
  induction l as [|[a q] l IH]; intros p r Heq; cbn; [done|]. intros (-> & Ha & Hq & Hl).
  destruct (Heq a) as [E1 E2]; [cbn; set_solver|]. rw E1 E2. split_and!; [done..|].
  apply IH; [|done]. intros b Hb. apply Heq. cbn. set_solver.
Qed.

(** Stores into the first 8 bytes of one page are not seen at another. *)
Lemma st32_other_page m a b i j v :
  a mod PGSIZE = 0 → b mod PGSIZE = 0 → a ≠ b → 0 ≤ i ≤ 8 → 0 ≤ j ≤ 8 →
  ld32 (st32 m (a + i) v) (b + j) = ld32 m (b + j).
Proof.
  intros Ha Hb Hab Hi Hj. pose proof (page_disjoint a b Ha Hb Hab).
  apply ld32_st32_ne. klia.
Qed.

Lemma kmem_inv_store s free a v i :
  kmem_inv s free → page_ok s a → a ∉ free → 0 ≤ i ≤ 8 →
  kmem_inv (set_m_mem (st32 (m_mem s) (a + i) v) s) free.
Proof.
  intros [Hl Hn Hp Hw He] [Ha _] Hf Hi. split; cbn; try done.
  - eapply linked_frame; [|done]. intros b Hb.
    assert (page_ok s b) as [Hb' _] by (rewrite -> Forall_forall in Hp; by apply Hp).
    rw -(Z.add_0_r b). apply st32_other_page; try done; try lia. by intros ->.
  - by apply wf_st32.
Qed.

(** *** Single memory accesses *)

Definition pst32 (a v : Z) (s : plst) : plst :=
  set_pl_mem (set_m_mem (st32 (pmem s) a v) (pl_mem s)) s.

Lemma q_next_run a h s : q_next a (h, s) = Ok (ld32 (pmem s) a) (h, s).
Proof. by destruct s as [[]]. Qed.

Lemma q_pid_run a h s : q_pid a (h, s) = Ok (s32 (ld32 (pmem s) (a + 4))) (h, s).
Proof. by destruct s as [[]]. Qed.

Lemma set_q_next_run a v h s : set_q_next a v (h, s) = Ok tt (h, pst32 a v s).
Proof. done. Qed.

Lemma set_q_pid_run a v h s : set_q_pid a v (h, s) = Ok tt (h, pst32 (a + 4) (u32 v) s).
Proof. done. Qed.

Lemma zoom_pl {A} (m : K memst A) h s a h' s' :
  m (h, pl_mem s) = Ok a (h', s') → zoom pl_memL m (h, s) = Ok a (h', set_pl_mem s' s).
Proof. intros H. unfold zoom. cbn. by rw H. Qed.

(** Run the next field access of the goal. *)
Ltac qstep :=
  first [ rw (bind_ok _ _ _ _ _ (q_next_run _ _ _)) /=
        | rw (bind_ok _ _ _ _ _ (q_pid_run _ _ _)) /=
        | rw (bind_ok _ _ _ _ _ (set_q_next_run _ _ _ _)) /=
        | rw (bind_ok _ _ _ _ _ (set_q_pid_run _ _ _ _)) /= ].

Lemma qseg_hd m p l : qseg m p l 0 → p = hd 0 l.*1.
Proof. destruct l as [|[a q] l]; cbn; [done|]. by intros []. Qed.

(** The loop of [add_queue] stops at the last node [temp] of the prefix of
    larger pids. *)
Lemma add_queue_find_run fuel pid h s l : ∀ t q,
  qseg (pmem s) t ((t, q) :: l) 0 → (length l < fuel)%nat →
  ∃ pre b qb l2, (t, q) :: l = pre ++ (b, qb) :: l2
    ∧ q :: ins_tail pid l.*2 = (pre.*2 ++ [qb]) ++ pid :: l2.*2
    ∧ add_queue_find fuel t pid (h, s) = Ok b (h, s).
Proof.
  revert l. induction fuel as [|fuel IH]; intros l t q; [lia|]. cbn [qseg].
  intros (_ & Ht & Hq & Hl) Hf. cbn [add_queue_find]. qstep.
  destruct l as [|[a qa] l]; cbn in Hl.
  - rw Hl /=. by exists [], t, q, [].
  - pose proof Hl as (Ea & Ha & Hqa & Hl'). rewrite -> (proj2 (Z.eqb_neq _ 0)) by congruence.
    qstep. rw Ea Hqa /=. destruct (Z.ltb_spec pid qa).
    + destruct (IH l a qa) as (pre & b & qb & l2 & E1 & E2 & E3); [done|cbn in Hf; lia|].
      exists ((t, q) :: pre), b, qb, l2. rw E1 /= E2. by split_and!.
    + by exists [], t, q, ((a, qa) :: l).
Qed.

(** Linking the node [r] after the node [b]. *)
Lemma qseg_insert m p pre b qb l2 r pid :
  wf_mem m →
  qseg m p (pre ++ (b, qb) :: l2) 0 →
  NoDup (r :: (pre ++ (b, qb) :: l2).*1) →
  Forall (λ a, a mod PGSIZE = 0 ∧ 0 < a < 2 ^ 32) (r :: (pre ++ (b, qb) :: l2).*1) →
  s32 (ld32 m (r + 4)) = pid →
  qseg (st32 (st32 m r (ld32 m b)) b r) p (pre ++ (b, qb) :: (r, pid) :: l2) 0.
Proof.
  intros Hw Hseg [Hr Hnd]%NoDup_cons [[Hrm Hrr] Hpg]%Forall_cons Hpid.
  rewrite -> fmap_app in Hr, Hnd, Hpg. cbn in Hr, Hnd, Hpg.
  apply NoDup_app in Hnd as (_ & Hpre & [Hb2 _]%NoDup_cons).
  rewrite -> Forall_forall in Hpg.
  assert (∀ a i, a ∈ pre.*1 ++ l2.*1 → 0 ≤ i ≤ 8 →
    ld32 (st32 (st32 m r (ld32 m b)) b r) (a + i) = ld32 m (a + i)) as Hout.
  { intros a i Ha Hi. destruct (Hpg a), (Hpg b); [set_solver..|].
    pose proof (page_disjoint a r). pose proof (page_disjoint a b).
    assert (a ≠ b) by set_solver. assert (a ≠ r) by set_solver. unfold PGSIZE in *.
    rewrite -> !ld32_st32_ne by lia. done. }
  assert (∀ l q, (∀ a, a ∈ l.*1 → a ∈ pre.*1 ++ l2.*1) → ∀ x, qseg m x l q →
    qseg (st32 (st32 m r (ld32 m b)) b r) x l q) as Hseg'.
  { intros l q Hl x. apply qseg_frame. intros a Ha. rw -{1 2}(Z.add_0_r a).
    split; apply Hout; (lia || auto). }
  destruct (Hpg b) as [Hbm Hbr]; [set_solver|].
  assert (b ≠ r) as Hbr' by set_solver.
  pose proof (page_disjoint b r Hbm Hrm Hbr'). pose proof (ld32_range m b Hw).
  apply qseg_app in Hseg as (x & H1 & (-> & Hb & Hqb & H2)).
  apply qseg_app. exists b. split; [apply Hseg'; set_solver|].
  unfold PGSIZE in *. cbn [qseg]. rewrite -> ld32_st32_eq, (wrapu_small _ r) by lia.
  rewrite -> (ld32_st32_ne _ b (b + 4)), (ld32_st32_ne _ r (b + 4)),
    (ld32_st32_ne _ b (r + 4)), (ld32_st32_ne _ r (r + 4)), (ld32_st32_ne _ b r) by lia.
  rewrite -> ld32_st32_eq, (wrapu_small _ (ld32 m b)) by lia.
  split_and!; try done; try lia. apply Hseg'; [set_solver|done].
Qed.

(** *** The invariant under the single updates *)

Lemma pq_taken s l r free :
  pq_inv s l (r :: free) →
  pq_inv (set_pl_mem (taken (r :: free) (pl_mem s)) s) l free ∧
  page_ok (pl_mem s) r ∧ (r ∉ l.*1) ∧ r ∉ free.
Proof.
  intros [Hseg Hk Hn Hd Hp]. pose proof (taken_inv _ _ _ Hk) as Hk'.
  destruct Hk as [_ [Hr _]%NoDup_cons [Hpr _]%Forall_cons _ _].
  split_and!; [split; try done|done| |done]; set_solver.
Qed.

Lemma pq_store s l free a i v :
  pq_inv s l free → page_ok (pl_mem s) a → a ∉ l.*1 → a ∉ free → 0 ≤ i ≤ 8 →
  pq_inv (pst32 (a + i) v s) l free.
Proof.
  intros [Hseg Hk Hn Hd Hp] Ha Hal Haf Hi. split; try done.
  - eapply qseg_frame; [|done]. intros b Hb.
    rewrite -> Forall_forall in Hp. destruct (Hp b Hb) as [Hbm _], Ha as [Ham _].
    rw -{1 2}(Z.add_0_r b). split; apply st32_other_page; try done; try lia; by intros ->.
  - by apply kmem_inv_store.
Qed.

Lemma pq_wf s l free : pq_inv s l free → wf_mem (pmem s).
Proof. intros H. apply (ki_wf _ _ (pq_kmem _ _ _ H)). Qed.

Lemma page_range s l a : kmem_inv s l → page_ok s a → 0 < a < 2 ^ 32.
Proof. intros H [_ Ha]. pose proof (ki_end _ _ H). klia. Qed.

Lemma pages_bound s l k : kmem_inv s k → Forall (page_ok s) l → NoDup l → (length l < NPAGES)%nat.
Proof.
  intros Hk Hp Hn. pose proof (ki_end _ _ Hk) as He.
  assert (length l ≤ length ((λ i, KERNBASE + PGSIZE * i)%Z <$> seqZ 1 (PHYSTOP / PGSIZE - 1)%Z))%nat as Hl.
  - apply submseteq_length, NoDup_submseteq; [done|]. intros a Ha.
    rewrite -> Forall_forall in Hp. destruct (Hp a Ha) as [Hm Hr].
    apply list_elem_of_fmap. exists ((a - KERNBASE) / PGSIZE).
    rw elem_of_seqZ. unfold KERNBASE, PHYSTOP, PGSIZE in *. dlia.
  - rw length_fmap length_seqZ in Hl. pose proof NPAGES_eq.
    assert (PHYSTOP / PGSIZE = 57344) as E by done. rw E in Hl. lia.
Qed.

Lemma s32_u32 x : s32 (u32 x) = s32 x.
Proof. unfold wraps, wrapu. by rewrite -> Z.mod_mod by lia. Qed.

Lemma pq_relink s l free s' l' r :
  pq_inv s l free → page_ok (pl_mem s) r → r ∉ l.*1 → r ∉ free →
  m_end (pl_mem s') = m_end (pl_mem s) → kmem_inv (pl_mem s') free →
  qseg (pmem s') (pl_head s') l' 0 → l'.*1 ≡ₚ r :: l.*1 → pq_inv s' l' free.
Proof.
  intros [_ _ Hn Hd Hp] Hr Hrl Hrf He Hk Hseg HP. split; try done.
  - rw HP. by apply NoDup_cons.
  - intros a. rw HP. set_solver.
  - rewrite -> HP. unfold page_ok in *. rw He. by constructor.
Qed.

(** ** [add_queue] inserts the pid *)

(** A node outside the queue that is ready to be linked. *)
Record fresh_node (s : plst) (l : list (Z * Z)) (free : list Z) (r pid : Z) : Prop := {
  fn_inv : pq_inv s l free;
  fn_page : page_ok (pl_mem s) r;
  fn_queue : r ∉ l.*1;
  fn_free : r ∉ free;
  fn_pid : s32 (ld32 (pmem s) (r + 4)) = pid;
  fn_next : ld32 (pmem s) r = 0
}.

Lemma fresh_node_init s l r free pid :
  pq_inv s l (r :: free) → s32 pid = pid →
  fresh_node (pst32 r 0 (pst32 (r + 4) (u32 pid)
    (set_pl_mem (taken (r :: free) (pl_mem s)) s))) l free r pid.
Proof.
  intros Hs Hpid. destruct (pq_taken _ _ _ _ Hs) as (H0 & Hr & Hrl & Hrf).
  split; try done; cbn.
  - rw -{1}(Z.add_0_r r). apply pq_store; try done. apply pq_store; done || lia.
  - rewrite -> ld32_st32_ne, ld32_st32_eq by lia. by rw !s32_u32.
  - by rw ld32_st32_eq.
Qed.

(** The new node becomes the head. *)
Lemma fresh_node_head s l free r pid :
  fresh_node s l free r pid →
  pq_inv (set_pl_head r (pst32 r (pl_head s) s)) ((r, pid) :: l) free.
Proof.
  intros [Hi Hp Hl Hf Hpid Hn].
  assert (pq_inv (pst32 r (pl_head s) s) l free) as Hi'.
  { rw -{1}(Z.add_0_r r). apply pq_store; done || lia. }
  pose proof (page_range _ _ _ (pq_kmem _ _ _ Hi) Hp).
  assert (0 ≤ pl_head s < 2 ^ 32) as Hh.
  { rw (qseg_hd _ _ _ (pq_seg _ _ _ Hi)). destruct l as [|[a q] l]; cbn; [lia|].
    pose proof (pq_pages _ _ _ Hi) as [Ha _]%Forall_cons.
    pose proof (page_range _ _ _ (pq_kmem _ _ _ Hi) Ha) as Hr. cbn in Hr. lia. }
  apply (pq_relink s l free _ _ r); try done; [apply (pq_kmem _ _ _ Hi')|].
  cbn. rewrite -> ld32_st32_ne by lia. rewrite -> ld32_st32_eq, wrapu_small by lia.
  split_and!; [done|lia|done|]. apply (pq_seg _ _ _ Hi').
Qed.

(** The new node is linked behind the node [b]. *)
Lemma fresh_node_after s pre b qb l2 free r pid :
  fresh_node s (pre ++ (b, qb) :: l2) free r pid →
  pq_inv (pst32 b r (pst32 r (ld32 (pmem s) b) s)) (pre ++ (b, qb) :: (r, pid) :: l2) free.
Proof.
  intros [Hi Hp Hl Hf Hpid Hn]. pose proof (pq_kmem _ _ _ Hi) as Hk.
  assert (page_ok (pl_mem s) b ∧ b ∉ free) as [Hb Hbf].
  { pose proof (pq_pages _ _ _ Hi) as HP. rewrite -> Forall_forall in HP.
    assert (b ∈ (pre ++ (b, qb) :: l2).*1) by (rewrite -> fmap_app; set_solver).
    split; [by apply HP|by apply (pq_disj _ _ _ Hi)]. }
  apply (pq_relink s (pre ++ (b, qb) :: l2) free _ _ r); try done.
  - rw -{1}(Z.add_0_r b).
    apply (kmem_inv_store (set_m_mem _ (pl_mem s))); try done.
    rw -{1}(Z.add_0_r r). by apply kmem_inv_store.
  - apply qseg_insert; try done; [by apply (pq_wf _ _ _ Hi)|apply (pq_seg _ _ _ Hi)| |].
    + apply NoDup_cons. split; [done|apply (pq_nodup _ _ _ Hi)].
    + apply Forall_cons. split; [split; [apply Hp|by eapply page_range]|].
      eapply Forall_impl; [apply (pq_pages _ _ _ Hi)|]. intros a Ha.
      split; [apply Ha|by eapply page_range].
  - rewrite -> !fmap_app. cbn. by solve_Permutation.
Qed.

Lemma add_queue_link_run h s l free r pid :
  fresh_node s l free r pid →
  ∃ s' l', add_queue_link r (h, s) = Ok tt (h, s')
    ∧ pq_inv s' l' free ∧ l'.*2 = q_insert pid l.*2 ∧ l'.*1 ≡ₚ r :: l.*1.
Proof.
  intros Hf. pose proof (fn_inv _ _ _ _ _ Hf) as Hi. unfold add_queue_link. rw bind_run /=.
  pose proof (pq_seg _ _ _ Hi) as Hseg. pose proof (qseg_hd _ _ _ Hseg) as Hhd.
  destruct l as [|[a q] l].
  - rw Hhd /=. eexists _, [(r, pid)]. split_and!; [done| |done..].
    destruct Hf as [_ Hp Hl Hfr Hpid Hn]. pose proof (page_range _ _ _ (pq_kmem _ _ _ Hi) Hp).
    apply (pq_relink s [] free _ _ r); try done; [apply (pq_kmem _ _ _ Hi)|].
    cbn. split_and!; [done|lia|done..].
  - pose proof Hseg as (Ea & Ha & Hq & Hl). cbn in Hhd. rw Hhd.
    rewrite -> (proj2 (Z.eqb_neq a 0)) by done. do 2 qstep. rw Hq (fn_pid _ _ _ _ _ Hf) /=.
    destruct (Z.ltb_spec q pid).
    + qstep. eexists _, ((r, pid) :: (a, q) :: l). split_and!; [done| |done..].
      pose proof (fresh_node_head _ _ _ _ _ Hf) as Hn. by rw Hhd in Hn.
    + pose proof (pages_bound _ _ _ (pq_kmem _ _ _ Hi) (pq_pages _ _ _ Hi) (pq_nodup _ _ _ Hi)) as Hb.
      rewrite -> length_fmap in Hb. cbn in Hb. rw Hhd in Hseg.
      destruct (add_queue_find_run NPAGES pid h s l a q Hseg) as (pre & b & qb & l2 & E1 & E2 & E3);
        [lia|].
      rw (bind_ok _ _ _ _ _ E3) /=. do 2 qstep.
      eexists _, (pre ++ (b, qb) :: (r, pid) :: l2). split_and!; [done| | |].
      * apply fresh_node_after. by rw -E1.
      * rw E2 fmap_app /=. by rw -app_assoc.
      * trans (r :: ((a, q) :: l).*1); [|done]. rw E1 !fmap_app /=.
        by solve_Permutation.
Qed.

Lemma add_queue_run h s l r free pid :
  kmem_ready h → pq_inv s l (r :: free) → s32 pid = pid →
  ∃ s' l', add_queue pid (h, s) = Ok tt (cycle (m_use_lock (pl_mem s)) h, s')
    ∧ pq_inv s' l' free ∧ l'.*2 = q_insert pid l.*2 ∧ l'.*1 ≡ₚ r :: l.*1.
Proof.
  intros Hh Hs Hpid. unfold add_queue.
  rw (bind_ok _ _ _ _ _ (zoom_pl _ _ _ _ _ _ (kalloc_run _ _ _ Hh (pq_kmem _ _ _ Hs)))) /=.
  destruct (pq_taken _ _ _ _ Hs) as (H0 & Hr & _).
  pose proof (page_range _ _ _ (pq_kmem _ _ _ H0) Hr).
  rewrite -> (proj2 (Z.eqb_neq r 0)) by lia. do 2 qstep.
  apply add_queue_link_run. by apply fresh_node_init.
Qed.

(** ** [rm_queue] removes the first node of the pid *)

Lemma rm_queue_loop_run fuel pid h s l : ∀ t q,
  qseg (pmem s) t ((t, q) :: l) 0 → (length l < fuel)%nat → pid ∉ l.*2 →
  rm_queue_loop fuel t pid (h, s) = Stop (Panic "not found in queu!") (h, s).
Proof.
  revert l. induction fuel as [|fuel IH]; intros l t q; [lia|]. cbn [qseg].
  intros (_ & Ht & Hq & Hl) Hf Hn. cbn [rm_queue_loop]. qstep.
  destruct l as [|[a qa] l]; cbn in Hl; [by rw Hl|].
  pose proof Hl as (Ea & Ha & Hqa & Hl'). rewrite -> (proj2 (Z.eqb_neq _ 0)) by congruence.
  qstep. rw Ea Hqa /=. cbn in Hn. rewrite -> (proj2 (Z.eqb_neq qa pid)) by set_solver.
  cbn. eapply (IH l a qa); [done|cbn in Hf; lia|set_solver].
Qed.

(** The loop unlinks and frees the node [a]. *)
Lemma rm_queue_loop_found fuel pid h s a l2 l1 : ∀ t q,
  qseg (pmem s) t ((t, q) :: l1 ++ (a, pid) :: l2) 0 → (length l1 < fuel)%nat → pid ∉ l1.*2 →
  ∃ pre b qb, (t, q) :: l1 = pre ++ [(b, qb)] ∧
    rm_queue_loop fuel t pid (h, s)
    = zoom pl_memL (kfree a) (h, pst32 b (ld32 (pmem s) a) s).
Proof.
  revert l1. induction fuel as [|fuel IH]; intros l1 t q; [lia|]. cbn [qseg].
  intros (_ & Ht & Hq & Hl) Hf Hn. cbn [rm_queue_loop]. qstep.
  destruct l1 as [|[c qc] l1]; cbn in Hl; pose proof Hl as (Ea & Ha & Hqa & Hl');
    rewrite -> (proj2 (Z.eqb_neq _ 0)) by congruence; qstep; rw Ea Hqa /=.
  - rw Z.eqb_refl /=. qstep. qstep. by exists [], t, q.
  - cbn in Hn. rewrite -> (proj2 (Z.eqb_neq qc pid)) by set_solver. cbn.
    destruct (IH l1 c qc) as (pre & b & qb & E1 & E2); [done|cbn in Hf; lia|set_solver|].
    exists ((t, q) :: pre), b, qb. by rw E1.
Qed.

Lemma qseg_unlink m p pre b qb a q l2 :
  wf_mem m →
  qseg m p (pre ++ (b, qb) :: (a, q) :: l2) 0 →
  NoDup (pre ++ (b, qb) :: (a, q) :: l2).*1 →
  Forall (λ a, a mod PGSIZE = 0) (pre ++ (b, qb) :: (a, q) :: l2).*1 →
  qseg (st32 m b (ld32 m a)) p (pre ++ (b, qb) :: l2) 0.
Proof.
  intros Hw Hseg Hnd Hpg. rewrite -> fmap_app in Hnd, Hpg. cbn in Hnd, Hpg.
  apply NoDup_app in Hnd as (_ & Hpre & [Hb2 _]%NoDup_cons).
  rewrite -> Forall_forall in Hpg.
  assert (∀ l r, (∀ c, c ∈ l.*1 → c ∈ pre.*1 ++ l2.*1) → ∀ x, qseg m x l r →
    qseg (st32 m b (ld32 m a)) x l r) as Hseg'.
  { intros l r Hl x. apply qseg_frame. intros c Hc. specialize (Hl c Hc).
    assert (c ≠ b) by set_solver.
    pose proof (page_disjoint c b ltac:(apply Hpg; set_solver) ltac:(apply Hpg; set_solver)).
    unfold PGSIZE in *. rewrite -> !ld32_st32_ne by lia. done. }
  pose proof (ld32_range m a Hw).
  apply qseg_app in Hseg as (x & H1 & (-> & Hb & Hqb & (Ea & Ha & Hq & H2))).
  apply qseg_app. exists b. split; [apply Hseg'; set_solver|]. cbn [qseg].
  rewrite -> ld32_st32_eq, wrapu_small, ld32_st32_ne by lia.
  split_and!; try done. apply Hseg'; [set_solver|done].
Qed.

Lemma pq_freed s l free a :
  pq_inv s l free → page_ok (pl_mem s) a → a ∉ l.*1 → a ∉ free →
  pq_inv (set_pl_mem (freed a (pl_mem s)) s) l (a :: free).
Proof.
  intros [Hseg Hk Hn Hd Hp] Ha Hal Haf. split; try done.
  - eapply qseg_frame; [|done]. intros b Hb. rewrite -> Forall_forall in Hp.
    destruct (Hp b Hb) as [Hbm _], Ha as [Ham _].
    pose proof (page_disjoint b a Hbm Ham ltac:(by intros ->)).
    unfold PGSIZE in *. unfold ld32, pmem. cbn [pl_mem set_pl_mem].
    rewrite -> !ld8_freed by (unfold PGSIZE; lia). done.
  - by apply freed_inv.
  - set_solver.
Qed.

(** The nodes left after unlinking [a]. *)
Lemma pq_unlink s l1 a q l2 free s' :
  pq_inv s (l1 ++ (a, q) :: l2) free →
  m_end (pl_mem s') = m_end (pl_mem s) → kmem_inv (pl_mem s') free →
  qseg (pmem s') (pl_head s') (l1 ++ l2) 0 →
  pq_inv s' (l1 ++ l2) free ∧ page_ok (pl_mem s') a ∧ (a ∉ (l1 ++ l2).*1) ∧ a ∉ free.
Proof.
  intros [_ _ Hn Hd Hp] He Hk Hseg.
  assert ((l1 ++ (a, q) :: l2).*1 ≡ₚ a :: (l1 ++ l2).*1) as HP
    by (rewrite -> !fmap_app; cbn; solve_Permutation).
  rw HP in Hn. apply NoDup_cons in Hn as [Ha Hn].
  rewrite -> HP in Hp. unfold page_ok in *. apply Forall_cons in Hp as [Hpa Hp].
  assert (∀ c, c ∈ a :: (l1 ++ l2).*1 → c ∉ free) as Hd' by (intros c; rw -HP; apply Hd).
  rw He. split; [|set_solver]. split; try done; [set_solver|]. unfold page_ok. by rw He.
Qed.

Lemma rm_queue_free h s l1 a l2 free :
  kmem_ready h →
  pq_inv s (l1 ++ l2) free ∧ page_ok (pl_mem s) a ∧ (a ∉ (l1 ++ l2).*1) ∧ a ∉ free →
  ∃ s', zoom pl_memL (kfree a) (h, s) = Ok tt (cycle (m_use_lock (pl_mem s)) h, s')
    ∧ pq_inv s' (l1 ++ l2) (a :: free).
Proof.
  intros Hh (Hi & Ha & Hal & Haf). eexists. split; [|by apply pq_freed].
  apply zoom_pl, kfree_run; [done|apply (ki_end _ _ (pq_kmem _ _ _ Hi))|done].
Qed.

Lemma rm_queue_run h s l1 a pid l2 free :
  kmem_ready h → pq_inv s (l1 ++ (a, pid) :: l2) free → pid ∉ l1.*2 →
  ∃ s', rm_queue pid (h, s) = Ok tt (cycle (m_use_lock (pl_mem s)) h, s')
    ∧ pq_inv s' (l1 ++ l2) (a :: free).
Proof.
  intros Hh Hi Hn. unfold rm_queue. rw bind_run /=.
  pose proof (pq_seg _ _ _ Hi) as Hseg. pose proof (pq_kmem _ _ _ Hi) as Hk.
  destruct l1 as [|[t q] l1]; pose proof Hseg as (Et & Ht & Hq & Hl); rw Et;
    rewrite -> (proj2 (Z.eqb_neq _ 0)) by done; qstep; rw Hq.
  - rw Z.eqb_refl. qstep. rw bind_run /=.
    apply (rm_queue_free h (set_pl_head (ld32 (pmem s) a) s) []); [done|].
    by apply (pq_unlink s [] a pid l2 free).
  - cbn in Hn. rewrite -> (proj2 (Z.eqb_neq q pid)) by set_solver.
    pose proof (pages_bound _ _ _ Hk (pq_pages _ _ _ Hi) (pq_nodup _ _ _ Hi)) as Hb.
    rewrite -> length_fmap in Hb. cbn in Hb. rewrite -> length_app in Hb.
    rw Et in Hseg.
    destruct (rm_queue_loop_found NPAGES pid h s a l2 l1 t q) as (pre & b & qb & E1 & E2);
      [done|lia|set_solver|]. rw E2.
    assert (E3 : ((t, q) :: l1) ++ (a, pid) :: l2 = pre ++ (b, qb) :: (a, pid) :: l2)
      by (rw E1 -app_assoc; done).
    apply (rm_queue_free h (pst32 b (ld32 (pmem s) a) s) ((t, q) :: l1)); [done|].
    apply (pq_unlink s _ a pid l2 free); [done..| |].
    + assert (b ∈ (((t, q) :: l1) ++ (a, pid) :: l2).*1) as Hbl
        by (rw E3; rewrite -> fmap_app; set_solver).
      rw -{1}(Z.add_0_r b). apply kmem_inv_store; [done| |by apply (pq_disj _ _ _ Hi)|lia].
      pose proof (pq_pages _ _ _ Hi) as Hp. rewrite -> Forall_forall in Hp. by apply Hp.
    + rw E1 -app_assoc. rw E3 in Hi. destruct Hi as [? ? Hn' ? Hp].
      eapply (qseg_unlink _ _ _ _ _ _ pid); try done; [apply (ki_wf _ _ Hk)|].
      eapply Forall_impl; [done|]. by intros c [? _].
Qed.

Lemma rm_queue_missing h s l pid free :
  pq_inv s l free → pid ∉ l.*2 →
  rm_queue pid (h, s)
  = Stop (Panic (if l is [] then "queue null" else "not found in queu!")) (h, s).
Proof.
  intros Hi Hn. unfold rm_queue. rw bind_run /=. pose proof (pq_seg _ _ _ Hi) as Hseg.
  destruct l as [|[t q] l]; [by rw Hseg|].
  pose proof Hseg as (Et & Ht & Hq & Hl). rw Et.
  rewrite -> (proj2 (Z.eqb_neq _ 0)) by done. qstep. rw Hq. cbn in Hn.
  rewrite -> (proj2 (Z.eqb_neq q pid)) by set_solver. rw Et in Hseg.
  pose proof (pages_bound _ _ _ (pq_kmem _ _ _ Hi) (pq_pages _ _ _ Hi) (pq_nodup _ _ _ Hi)) as Hb.
  rewrite -> length_fmap in Hb. cbn in Hb.
  eapply rm_queue_loop_run; [done|lia|set_solver].
Qed.

(** ** The lock as processes use it

    Each process is identified by its pid and is in one of the three stages of
    [prior_acquire] and [p_release]; a step is one critical section of the
    queue lock, or the release, by whichever process moves.  [h] is the CPU the
    step runs on, [ps_locked] the lock's [locked] word. *)

Inductive ppc : Type := PWait | PCrit.
#[global] Instance ppc_eq_dec : EqDecision ppc. Proof. solve_decision. Defined.

Record psys : Type := MkPsys {
  ps_pcs : gmap Z ppc;
  ps_mem : plst;
  ps_locked : bool
}.

Record cpu_ready (h : hw) (locked : bool) : Prop := {
  cr_kmem : kmem_ready h;
  cr_queue : h_locks h !! plock_queue_lock = None;
  cr_lock : bool_decide (h_locks h !! plock_lock = None) = negb locked
}.

Inductive ps_step : psys → psys → Prop :=
| ps_enqueue pid pcs s b h h' s' :
    pcs !! pid = None → s32 pid = pid → cpu_ready h b →
    add_queue pid (h, s) = Ok tt (h', s') →
    ps_step (MkPsys pcs s b) (MkPsys (<[pid := PWait]> pcs) s' b)
| ps_try pid pcs s b h got h' s' :
    pcs !! pid = Some PWait → cpu_ready h b →
    prior_try pid (h, s) = Ok got (h', s') →
    ps_step (MkPsys pcs s b)
      (MkPsys (if got : bool then <[pid := PCrit]> pcs else pcs) s'
         (negb (bool_decide (h_locks h' !! plock_lock = None))))
| ps_release pid pcs s h h' s' :
    pcs !! pid = Some PCrit → wf_hw h → h_locks h !! plock_lock = None →
    p_release (acq plock_lock h, s) = Ok tt (h', s') →
    ps_step (MkPsys pcs s true)
      (MkPsys (delete pid pcs) s' (negb (bool_decide (h_locks h' !! plock_lock = None)))).

(** ** Lemmas: one turn of the waiting loop *)

Definition plocked (h : hw) : hw := set_h_locks (<[plock_lock := None]> (h_locks h)) h.

Lemma acq_plocked h :
  set_h_locks (<[plock_lock := None]> (h_locks (acq plock_queue_lock h))) (acq plock_queue_lock h)
  = acq plock_queue_lock (plocked h).
Proof. unfold acq, plocked. rw push_set_locks. cbn. rw insert_insert_ne //. Qed.

Lemma kmem_ready_acq h : kmem_ready h → kmem_ready (acq plock_queue_lock h).
Proof.
  intros [Hw Hl]. split; [by apply wf_acq|]. unfold acq. cbn. by rw lookup_insert_ne.
Qed.

Lemma cpu_ready_plocked h b : cpu_ready h b → kmem_ready (plocked h).
Proof.
  intros [[Hw Hl] _ _]. split; [by apply wf_locks|]. cbn. by rw lookup_insert_ne.
Qed.

Lemma prior_try_run h b s a q l free pid :
  cpu_ready h b → pq_inv s ((a, q) :: l) free →
  if (q =? pid) && negb b
  then ∃ s', prior_try pid (h, s) = Ok true (settle (plocked h), s') ∧ pq_inv s' l (a :: free)
  else prior_try pid (h, s) = Ok false (settle h, s).
Proof.
  intros Hh Hi. pose proof Hh as [[Hw Hm] Hq Hl]. unfold prior_try.
  rw (bind_ok _ _ _ _ _ (acquire_ok h s plock_queue_lock Hw Hq)) bind_run /=.
  pose proof (pq_seg _ _ _ Hi) as (Ea & Ha & Hpid & _). rw Ea.
  rewrite -> (proj2 (Z.eqb_neq _ 0)) by done. qstep. rw Hpid bind_run /=.
  rw lookup_insert_ne // Hl. destruct (Z.eqb_spec q pid) as [->|]; cbn.
  2:{ by rw (bind_ok _ _ _ _ _ (release_ok h s plock_queue_lock Hw Hq)). }
  destruct b; cbn.
  { by rw (bind_ok _ _ _ _ _ (release_ok h s plock_queue_lock Hw Hq)). }
  rw bind_run. cbn -[acq h_locks]. unfold modh. cbn [fst snd]. rw acq_plocked.
  destruct (rm_queue_run (acq plock_queue_lock (plocked h)) s [] a pid l free) as (s' & E & Hi').
  { apply kmem_ready_acq. by eapply cpu_ready_plocked. }
  { done. } { set_solver. }
  exists s'. split; [|done]. rw (bind_ok _ _ _ _ _ E).
  assert (cycle (m_use_lock (pl_mem s)) (acq plock_queue_lock (plocked h))
    = acq plock_queue_lock (plocked h)) as ->.
  { destruct (m_use_lock _); [|done]. apply settle_acq. by apply wf_locks. }
  erewrite bind_ok; [done|]. apply release_ok; [by apply wf_locks|].
  cbn. by rw lookup_insert_ne.
Qed.

Lemma add_queue_oom h s l pid :
  kmem_ready h → pq_inv s l [] →
  add_queue pid (h, s)
  = Stop (Fault "add_queue: null pointer") (cycle (m_use_lock (pl_mem s)) h, s).
Proof.
  intros Hh Hs. unfold add_queue.
  rw (bind_ok _ _ _ _ _ (zoom_pl _ _ _ _ _ _ (kalloc_run _ _ _ Hh (pq_kmem _ _ _ Hs)))) /=.
  by destruct s.
Qed.

(** ** The invariant of the protocol *)

Record ps_inv (st : psys) (l : list (Z * Z)) (free : list Z) : Prop := {
  pi_queue : pq_inv (ps_mem st) l free;
  pi_desc : desc l.*2;
  pi_nodup : NoDup l.*2;
  pi_wait : ∀ pid, pid ∈ l.*2 ↔ ps_pcs st !! pid = Some PWait;
  pi_crit : if ps_locked st
            then ∃ pid, ∀ p, ps_pcs st !! p = Some PCrit ↔ p = pid
            else ∀ p, ps_pcs st !! p ≠ Some PCrit
}.

Lemma ps_enqueue_inv pid pcs s b l free h h' s' :
  pcs !! pid = None → s32 pid = pid → cpu_ready h b →
  add_queue pid (h, s) = Ok tt (h', s') →
  ps_inv (MkPsys pcs s b) l free →
  ∃ l' free', ps_inv (MkPsys (<[pid := PWait]> pcs) s' b) l' free'.
Proof.
  intros Hp Hs Hh E [Hi Hd Hn Hw Hc]. cbn in *. destruct free as [|r free].
  { by rw (add_queue_oom _ _ _ _ (cr_kmem _ _ Hh) Hi) in E. }
  destruct (add_queue_run h s l r free pid (cr_kmem _ _ Hh) Hi Hs) as (s1 & l' & E' & Hi' & Hl' & _).
  rw E' in E. injection E as <- <-. exists l', free. split; cbn; try done.
  - rw Hl'. by apply q_insert_desc.
  - rw Hl' q_insert_perm. apply NoDup_cons. split; [|done]. rw Hw Hp. done.
  - intros p. rw Hl' q_insert_perm list_elem_of_In /=. rw -list_elem_of_In Hw.
    rw lookup_insert. case_decide; naive_solver.
  - destruct b.
    + destruct Hc as [p Hc]. exists p. intros p'. rw -Hc lookup_insert. case_decide; naive_solver.
    + intros p. rw lookup_insert. case_decide; naive_solver.
Qed.

Lemma locks_settle_plocked h : h_locks (settle (plocked h)) !! plock_lock = Some None.
Proof. rw locks_settle /= lookup_insert_eq //. Qed.

(** A waiter's turn returns; it gets the lock exactly when it is at the head
    and the lock is free. *)
Lemma ps_try_run st l free pid h :
  ps_inv st l free → ps_pcs st !! pid = Some PWait → cpu_ready h (ps_locked st) →
  ∃ a q l', l = (a, q) :: l' ∧
  if (q =? pid) && negb (ps_locked st)
  then ∃ s', prior_try pid (h, ps_mem st) = Ok true (settle (plocked h), s') ∧ pq_inv s' l' (a :: free)
  else prior_try pid (h, ps_mem st) = Ok false (settle h, ps_mem st).
Proof.
  intros Hst Hp Hh. destruct l as [|[a q] l].
  { apply (pi_wait _ _ _ Hst) in Hp. set_solver. }
  exists a, q, l. split; [done|]. apply prior_try_run; [done|apply (pi_queue _ _ _ Hst)].
Qed.

Lemma ps_try_inv pid pcs s b l free h got h' s' :
  pcs !! pid = Some PWait → cpu_ready h b →
  prior_try pid (h, s) = Ok got (h', s') →
  ps_inv (MkPsys pcs s b) l free →
  ∃ l' free', ps_inv (MkPsys (if got : bool then <[pid := PCrit]> pcs else pcs) s'
         (negb (bool_decide (h_locks h' !! plock_lock = None)))) l' free'.
Proof.
  intros Hp Hh E Hst.
  destruct (ps_try_run _ _ _ _ _ Hst Hp Hh) as (a & q & l' & -> & Hr). cbn in Hr.
  destruct Hst as [Hi Hd Hn Hw Hc]; cbn in *.
  destruct (Z.eqb_spec q pid) as [->|]; cbn in Hr.
  2:{ rw Hr in E. injection E as <- <- <-. rw locks_settle (cr_lock _ _ Hh) negb_involutive.
      by exists ((a, q) :: l'), free. }
  destruct b; cbn in Hr.
  { rw Hr in E. injection E as <- <- <-. rw locks_settle (cr_lock _ _ Hh) negb_involutive.
    by exists ((a, pid) :: l'), free. }
  destruct Hr as (s1 & E' & Hi'). rw E' in E. injection E as <- <- <-.
  rw locks_settle_plocked /=. exists l', (a :: free).
  apply StronglySorted_inv in Hd as [Hd _]. apply NoDup_cons in Hn as [Hpl Hn].
  split; cbn; try done.
  - intros p. rw lookup_insert. specialize (Hw p). case_decide; set_solver.
  - exists pid. intros p. rw lookup_insert. case_decide; naive_solver.
Qed.

(** The pid at the head is the largest of the waiting ones. *)
Lemma head_is_max st a q l free p :
  ps_inv st ((a, q) :: l) free → ps_pcs st !! p = Some PWait →
  q = p ↔ ∀ q', ps_pcs st !! q' = Some PWait → q' ≤ p.
Proof.
  intros [_ [_ Hd]%StronglySorted_inv _ Hw _] Hp. cbn in *. rewrite -> Forall_forall in Hd.
  assert (q ∈ q :: l.*2) as Hq by set_solver. split.
  - intros <- q' Hq'. apply Hw, elem_of_cons in Hq' as [->|Hq']; [lia|].
    specialize (Hd q' Hq'). lia.
  - intros Hall. apply Hw in Hq. specialize (Hall q Hq).
    apply Hw, elem_of_cons in Hp as [->|Hp]; [done|]. specialize (Hd p Hp). lia.
Qed.

Lemma ps_inv_step st st' :
  ps_step st st' → (∃ l free, ps_inv st l free) → ∃ l free, ps_inv st' l free.
Proof.
  intros Hstep (l & free & Hst). destruct Hstep as [| |pid pcs s h h' s' Hp Hw0 Hl0 E].
  - by eapply ps_enqueue_inv.
  - by eapply ps_try_inv.
  - unfold p_release in E. rewrite -> (release_ok h s plock_lock Hw0 Hl0) in E. injection E as <- <-.
    rewrite -> locks_settle, bool_decide_eq_true_2 by done. cbn [negb].
    exists l, free. destruct Hst as [Hi Hd Hn Hw [q Hc]]; cbn in *. split; cbn; try done.
    + intros p. rw Hw lookup_delete. case_decide; naive_solver.
    + intros p. rw lookup_delete. case_decide; [done|]. rw Hc. apply Hc in Hp. congruence.
Qed.

(** The system before any process uses the lock. *)
Definition ps_init (s : plst) : psys := MkPsys ∅ s false.

Lemma ps_reachable_inv s free st :
  pq_inv s [] free → rtc ps_step (ps_init s) st → ∃ l free, ps_inv st l free.
Proof.
  intros Hs. apply (rtc_invariant _ (λ st, ∃ l free, ps_inv st l free)).
  - intros a b Ha Hab. by eapply ps_inv_step.
  - exists [], free. split; cbn; try done; [constructor|constructor|].
    intros p. rw lookup_empty. set_solver.
Qed.

Lemma cpu_ready_push h b : cpu_ready h b → cpu_ready (push h) b.
Proof.
  intros [[Hw Hm] Hq Hl]. split; [split; [by apply wf_push|]|..]; by rw locks_push.
Qed.

Lemma plocked_acq h i :
  me h = Some i →
  set_h_locks (<[plock_lock := Some i]> (h_locks (plocked (push h)))) (plocked (push h))
  = acq plock_lock h.
Proof.
  intros Hi. unfold plocked, acq. cbn. by rw insert_insert_eq locks_push Hi.
Qed.

(** The first process to come: nobody waits and the lock is free. *)
Lemma prior_acquire_run h s r free i p :
  cpu_ready h false → pq_inv s [] (r :: free) →
  curproc h = Some i → h_procs h !! i = Some p → s32 (p_pid p) = p_pid p →
  ∃ s', prior_acquire (h, s) = Ok tt (acq plock_lock h, s') ∧ pq_inv s' [] (r :: free).
Proof.
  intros Hh Hi Hc Hp Hpid. pose proof (cpu_ready_push _ _ Hh) as Hh'.
  pose proof (cr_kmem _ _ Hh) as [Hw _]. pose proof (wf_push h Hw) as Hw'.
  pose proof (cr_queue _ _ Hh') as Hq. pose proof (cr_lock _ _ Hh') as Hl%bool_decide_eq_true.
  unfold prior_acquire. rw (bind_ok _ _ _ _ _ (pushcli_ok h s Hw)).
  rw (bind_ok _ _ _ _ _ (holding_ok _ s plock_lock Hw')) Hl settle_push //.
  rw (bind_ok _ _ _ _ _ (acquire_ok _ s _ Hw' Hq)).
  rw (bind_ok _ _ _ _ _ (myproc_ok _ s (wf_acq plock_queue_lock _ Hw'))).
  rw settle_acq // curproc_acq curproc_push Hc.
  rw (bind_ok _ _ _ _ _ (proc_at_ok (acq plock_queue_lock (push h)) s i p _)).
  { by rw procs_acq procs_push. }
  destruct (add_queue_run (acq plock_queue_lock (push h)) s [] r free (p_pid p))
    as (s1 & l1 & E & Hi1 & El & Ea); [by apply kmem_ready_acq, (cr_kmem _ _ Hh')|done..|].
  rw (bind_ok _ _ _ _ _ E).
  assert (cycle (m_use_lock (pl_mem s)) (acq plock_queue_lock (push h))
    = acq plock_queue_lock (push h)) as -> by (destruct (m_use_lock _); by [apply settle_acq|]).
  rw (bind_ok _ _ _ _ _ (release_ok _ s1 _ Hw' Hq)) settle_push //.
  apply Permutation_singleton_r in Ea. destruct l1 as [|[a q] [|]]; [done| |done].
  cbn in El, Ea. simplify_eq.
  pose proof (prior_try_run _ _ _ _ _ _ _ (p_pid p) Hh' Hi1) as Ht. rw Z.eqb_refl in Ht.
  destruct Ht as (s2 & E2 & Hi2). rw (bind_ok _ _ _ _ _ E2). cbn [negb].
  assert (settle (plocked (push h)) = plocked (push h)) as ->.
  { unfold plocked. by rw settle_set_locks settle_push. }
  destruct (me_wf h Hw) as [j Hj].
  rw (bind_ok _ _ _ _ _ (mycpu_ok (plocked (push h)) s2 j _ _)); [by rw -(me_push h) in Hj|done|].
  unfold modh. cbn [fst snd]. rw plocked_acq //. eauto.
Qed.

(** ** Properties *)

(** C6: The queue routines implement a priority queue of pids in the linked
    pages: with a free page [add_queue] inserts the pid and keeps the queue in
    decreasing order, giving the page to the queue; [rm_queue] unlinks the
    first node of the pid and gives its page back to the allocator; without
    a free page [add_queue] writes through a null pointer, and [rm_queue] of a
    pid that is not queued panics, both without a change of the queue. *)
Theorem priority_queue_refines (h : hw) (s : plst) (l : list (Z * Z)) (free : list Z) (pid : Z) :
  kmem_ready h → pq_inv s l free → s32 pid = pid → desc l.*2 →
  let h' := cycle (m_use_lock (pl_mem s)) h in
  match free with
  | r :: free' => ∃ s' l', add_queue pid (h, s) = Ok tt (h', s') ∧ pq_inv s' l' free' ∧
      l'.*2 = q_insert pid l.*2 ∧ l'.*1 ≡ₚ r :: l.*1 ∧ desc l'.*2 ∧ l'.*2 ≡ₚ pid :: l.*2
  | [] => add_queue pid (h, s) = Stop (Fault "add_queue: null pointer") (h', s)
  end ∧
  (∀ l1 a l2, l = l1 ++ (a, pid) :: l2 → pid ∉ l1.*2 →
    ∃ s', rm_queue pid (h, s) = Ok tt (h', s') ∧ pq_inv s' (l1 ++ l2) (a :: free)
      ∧ desc (l1 ++ l2).*2) ∧
  (pid ∉ l.*2 →
    rm_queue pid (h, s)
    = Stop (Panic (if l is [] then "queue null" else "not found in queu!")) (h, s)).
Proof.
  intros Hh Hi Hp Hd h'. split_and!.
  - destruct free as [|r free]; [by apply (add_queue_oom h s l)|].
    destruct (add_queue_run h s l r free pid) as (s' & l' & E & Hi' & El & Ea); [done..|].
    exists s', l'. split_and!; try done; rw El; [by apply q_insert_desc|apply q_insert_perm].
  - intros l1 a l2 -> Hn. destruct (rm_queue_run h s l1 a pid l2 free) as (s' & E & Hi'); [done..|].
    exists s'. split_and!; [done..|]. rewrite -> fmap_app in Hd |- *. by eapply desc_remove.
  - by eapply rm_queue_missing.
Qed.

(** C7: The priority lock, from any number of processes that queue, retry and
    release in any order on any CPU: at most one process holds the lock at a
    time, and exactly when it is locked; the turn of a waiting process always
    returns (the head it reads is never null); it enters only when its pid
    is the largest of the waiting ones; when the lock is free and processes
    wait, the one with the largest pid enters at its next turn; and [p_release]
    by the holder returns and leaves the lock free. *)
Theorem prioritylock_protocol (s : plst) (free : list Z) (st : psys) :
  pq_inv s [] free → rtc ps_step (ps_init s) st →
  (∀ p q, ps_pcs st !! p = Some PCrit → ps_pcs st !! q = Some PCrit → p = q) ∧
  (ps_locked st = true ↔ ∃ p, ps_pcs st !! p = Some PCrit) ∧
  (∀ p h, ps_pcs st !! p = Some PWait → cpu_ready h (ps_locked st) →
    ∃ got h' s', prior_try p (h, ps_mem st) = Ok got (h', s') ∧
      (got = true ↔ ps_locked st = false ∧
                    ∀ q, ps_pcs st !! q = Some PWait → q ≤ p)) ∧
  (∀ p h, ps_pcs st !! p = Some PCrit → wf_hw h → h_locks h !! plock_lock = None →
    p_release (acq plock_lock h, ps_mem st) = Ok tt (settle h, ps_mem st) ∧
    ps_step st (MkPsys (delete p (ps_pcs st)) (ps_mem st) false)).
Proof.
  intros Hs Hr. destruct (ps_reachable_inv _ _ _ Hs Hr) as (l & free' & Hst).
  pose proof Hst as [Hi Hd Hn Hw Hc]. split_and!.
  - destruct (ps_locked st); [|naive_solver]. destruct Hc as [r Hc].
    intros p q Hp Hq. apply Hc in Hp, Hq. congruence.
  - destruct (ps_locked st); naive_solver.
  - intros p h Hp Hh.
    destruct (ps_try_run _ _ _ _ _ Hst Hp Hh) as (a & q & l' & -> & Ht). cbn in Hd.
    assert (q = p ↔ ∀ q', ps_pcs st !! q' = Some PWait → q' ≤ p) as Hmax
      by (by eapply head_is_max).
    destruct (Z.eqb_spec q p), (ps_locked st); cbn in Ht.
    all: try (exists false, (settle h), (ps_mem st); split; [done|]; split; naive_solver).
    destruct Ht as (s' & E & _). exists true, (settle (plocked h)), s'. naive_solver.
  - intros p h Hp Hw0 Hl0. pose proof (release_ok h (ps_mem st) plock_lock Hw0 Hl0) as E. split; [exact E|].
    assert (ps_locked st = true) as Hlk by (destruct (ps_locked st); [done|naive_solver]).
    destruct st as [pcs m b]. cbn in *. subst b. pose proof (ps_release p pcs m h _ _ Hp Hw0 Hl0 E) as Hst'.
    by rewrite -> locks_settle, bool_decide_eq_true_2 in Hst' by done.
Qed.

(** A process that finds the priority lock free and its queue empty gets
    the lock: [prior_acquire] returns with the lock owned by this CPU, the
    interrupts off and the CPU's nesting count up by one, exactly as
    [acquire] of an ordinary lock, and the page of its queue node is free again;
    [p_release] then restores the CPU. *)
Theorem prior_acquire_p_release (h : hw) (s : plst) (r : Z) (free : list Z) (i : nat) (p : proc) :
  cpu_ready h false → pq_inv s [] (r :: free) →
  curproc h = Some i → h_procs h !! i = Some p → s32 (p_pid p) = p_pid p →
  ∃ s', prior_acquire (h, s) = Ok tt (acq plock_lock h, s') ∧
    p_release (acq plock_lock h, s') = Ok tt (settle h, s') ∧ pq_inv s' [] (r :: free).
Proof.
  intros Hh Hi Hc Hp Hpid. destruct (prior_acquire_run h s r free i p) as (s' & E & Hi'); [done..|].
  pose proof Hh as [[Hw _] _ Hl%bool_decide_eq_true]. exists s'. split_and!; [done| |done].
  by apply release_ok.
Qed.

(** ** The properties on concrete states *)

Definition ex_pl : plst := MkPl ex_kmem 0.

Lemma ex_pl_inv : pq_inv ex_pl [] [0x80400000; 0x80401000].
Proof. split; try done; [apply ex_kmem_inv|constructor|set_solver]. Qed.

Lemma priority_queue_refines_witness :
  ∃ s' l', add_queue 3 (boot_hw, ex_pl) = Ok tt (cycle true boot_hw, s') ∧
    pq_inv s' l' [0x80401000] ∧ l'.*2 = [3] ∧ l'.*1 ≡ₚ [0x80400000] ∧ desc l'.*2 ∧ l'.*2 ≡ₚ [3].
Proof.
  exact (proj1 (priority_queue_refines boot_hw ex_pl [] _ 3 ex_kmem_ready ex_pl_inv eq_refl
    (SSorted_nil _))).
Defined.

Definition ex_proc : proc :=
  MkProc 0 0 0 RUNNING 7 None zero_tf zero_context None false [] None [].
Definition ex_hw : hw := set_h_procs [ex_proc] boot_hw.

Lemma ex_hw_ready : cpu_ready ex_hw false.
Proof. split; [|done..]. split; [|done]. eexists. by split. Qed.

Lemma prior_acquire_p_release_witness :
  ∃ s', prior_acquire (ex_hw, ex_pl) = Ok tt (acq plock_lock ex_hw, s') ∧
    p_release (acq plock_lock ex_hw, s') = Ok tt (settle ex_hw, s') ∧
    pq_inv s' [] [0x80400000; 0x80401000].
Proof.
  apply (prior_acquire_p_release ex_hw ex_pl _ _ 0%nat ex_proc ex_hw_ready ex_pl_inv); done.
Defined.

(** Two processes queue; the one with the larger pid enters. *)
Lemma ex_two_waiters :
  ∃ s, rtc ps_step (ps_init ex_pl) (MkPsys (<[9 := PWait]> (<[4 := PWait]> ∅)) s false).
Proof.
  destruct (add_queue_run ex_hw ex_pl [] _ _ 4 (cr_kmem _ _ ex_hw_ready) ex_pl_inv eq_refl)
    as (s1 & l1 & E1 & H1 & _).
  destruct (add_queue_run ex_hw s1 l1 _ _ 9 (cr_kmem _ _ ex_hw_ready) H1 eq_refl)
    as (s2 & l2 & E2 & H2 & _).
  exists s2. eapply rtc_l; [|eapply rtc_once].
  - by eapply (ps_enqueue 4); [..|apply ex_hw_ready|apply E1].
  - by eapply (ps_enqueue 9); [..|apply ex_hw_ready|apply E2].
Qed.

Lemma prioritylock_protocol_witness :
  ∃ s h' s', prior_try 9 (ex_hw, s) = Ok true (h', s') ∧
    rtc ps_step (ps_init ex_pl) (MkPsys (<[9 := PWait]> (<[4 := PWait]> ∅)) s false).
Proof.
  destruct ex_two_waiters as [s Hs].
  destruct (prioritylock_protocol _ _ _ ex_pl_inv Hs) as (_ & _ & H & _).
  destruct (H 9 ex_hw ltac:(done) ex_hw_ready) as (got & h' & s' & E & Hgot).
  exists s, h', s'. split; [|done]. rewrite -> (proj2 Hgot) in E; [done|].
  split; [done|]. intros q. cbn. rw !lookup_insert. repeat case_decide; subst; done || lia.
Defined.
