(* ===== verification/Sched.v ===== *)
(** * Switching processes: the scheduler half of proc.c

    [sched], [yield], [sleep], [wakeup], [kill] and the loop of [scheduler], with
    the routines of vm.c that switch a CPU between address spaces.  A routine
    that calls [swtch] stops there with [Switch]; what it does when it is
    resumed is the definition with the suffix [_resume]. *)

From S2P Require Import Prelude Machine Spinlock Mem Kalloc.

Definition ptable_lock : objaddr := ("ptable"%string, 0).

(** The address of a slot of the process table, as a sleep channel. *)
Definition proc_chan (i : option nat) : option objaddr :=
  (λ i, ("proc"%string, Z.of_nat i)) <$> i.

(** ** Address spaces of a CPU (vm.c) *)

(** [&cpus[i].ts] and [sizeof(struct taskstate)]. *)
Definition SIZEOF_CPU : Z := 180.
Definition OFFSETOF_TS : Z := 8.
Definition SIZEOF_TS : Z := 104.

Definition set_s (v : Z) (d : segdesc) : segdesc :=
  MkSeg (sd_lim_15_0 d) (sd_base_15_0 d) (sd_base_23_16 d) (sd_type d) v (sd_dpl d)
    (sd_p d) (sd_lim_19_16 d) (sd_avl d) (sd_rsv1 d) (sd_db d) (sd_g d) (sd_base_31_24 d).

Definition set_gdt (i : Z) (d : segdesc) (c : cpu) : cpu :=
  set_c_gdt (<[Z.to_nat i := d]> (c_gdt c)) c.

Definition seginit : K memst unit :=
  i ← cpuid;
  modcpu i (set_gdt SEG_KCODE (SEG (Z.lor STA_X STA_R) 0 0xffffffff 0));;
  modcpu i (set_gdt SEG_KDATA (SEG STA_W 0 0xffffffff 0));;
  modcpu i (set_gdt SEG_UCODE (SEG (Z.lor STA_X STA_R) 0 0xffffffff DPL_USER));;
  modcpu i (set_gdt SEG_UDATA (SEG STA_W 0 0xffffffff DPL_USER));;
  modh (set_h_gdtr (Some i)).

Definition switchkvm : K memst unit :=
  s ← getc;
  modh (set_h_cr3 (V2P (m_kpgdir s))).

Definition switchuvm (pi : option nat) : K memst unit :=
  if decide (pi = None) then panic "switchuvm: no process" else
  p ← proc_at pi;
  if p_kstack p =? 0 then panic "switchuvm: no kstack" else
  if p_pgdir p =? 0 then panic "switchuvm: no pgdir" else
  pushcli;;
  i ← mycpu;
  s ← getc;
  let ts := m_cpus s + Z.of_nat i * SIZEOF_CPU + OFFSETOF_TS in
  modcpu i (λ c, set_gdt SEG_TSS (set_s 0 (SEG16 STS_T32A ts (SIZEOF_TS - 1) 0)) c);;
  modcpu i (set_c_ts (MkTs (u32 (p_kstack p + KSTACKSIZE)) (Z.shiftl SEG_KDATA 3) 0xFFFF));;
  modh (set_h_tr (Z.shiftl SEG_TSS 3));;
  modh (set_h_cr3 (V2P (p_pgdir p)));;
  popcli.

(** ** Giving up the CPU *)

Section sched.
Context {C : Type}.

Definition pinit : K C unit := initlock ptable_lock.

Definition sched : K C unit :=
  me ← myproc;
  b ← holding ptable_lock;
  if negb b then panic "sched ptable.lock" else
  i ← mycpu;
  c ← cpu_at i;
  if negb (c_ncli c =? 1) then panic "sched locks" else
  p ← proc_at me;
  if bool_decide (p_state p = RUNNING) then panic "sched running" else
  h ← geth;
  if h_if h then panic "sched interruptible" else
  stop_with Switch.

(** The last line of [sched], with the [intena] the process saved. *)
Definition sched_resume (intena : bool) : K C unit :=
  i ← mycpu;
  modcpu i (set_c_intena intena).

Definition yield : K C unit :=
  acquire ptable_lock;;
  me ← myproc;
  p ← proc_at me;
  modproc (default 0%nat me) (set_p_state RUNNABLE);;
  sched;;
  release ptable_lock.

Definition yield_resume (intena : bool) : K C unit :=
  sched_resume intena;;
  release ptable_lock.

Definition sleep (chan : option objaddr) (lk : option objaddr) : K C unit :=
  me ← myproc;
  match me, lk with
  | None, _ => panic "sleep"
  | _, None => panic "sleep without lk"
  | Some p, Some lk =>
      when (bool_decide (lk ≠ ptable_lock)) (acquire ptable_lock;; release lk);;
      modproc p (set_p_chan chan);;
      modproc p (set_p_state SLEEPING);;
      sched
  end.

(** The process [p] that slept with the lock [lk] runs again. *)
Definition sleep_resume (p : nat) (lk : objaddr) (intena : bool) : K C unit :=
  sched_resume intena;;
  modproc p (set_p_chan None);;
  when (bool_decide (lk ≠ ptable_lock)) (release ptable_lock;; acquire lk).

(** ** Waking processes up *)

Definition wakeup1 (chan : option objaddr) : K C unit :=
  mfor (seq 0 NPROC) (λ i,
    p ← proc_at (Some i);
    when (bool_decide (p_state p = SLEEPING) && bool_decide (p_chan p = chan))
      (modproc i (set_p_state RUNNABLE))).

Definition wakeup (chan : option objaddr) : K C unit :=
  acquire ptable_lock;;
  wakeup1 chan;;
  release ptable_lock.

(** The loop of [kill] over the slots [l]. *)
Fixpoint kill_loop (l : list nat) (pid : Z) : K C Z :=
  match l with
  | [] => release ptable_lock;; mret (-1)
  | i :: l =>
      p ← proc_at (Some i);
      if p_pid p =? pid then
        modproc i (set_p_killed true);;
        when (bool_decide (p_state p = SLEEPING)) (modproc i (set_p_state RUNNABLE));;
        release ptable_lock;;
        mret 0
      else kill_loop l pid
  end.

Definition kill (pid : Z) : K C Z :=
  acquire ptable_lock;;
  kill_loop (seq 0 NPROC) pid.
End sched.

(** ** The scheduler of a CPU *)

(** The rest of a round over the slots [l] of the process table. *)
Fixpoint scheduler_loop (l : list nat) : K memst unit :=
  match l with
  | [] => release ptable_lock
  | p :: l =>
      pr ← proc_at (Some p);
      if negb (bool_decide (p_state pr = RUNNABLE)) then scheduler_loop l else
      i ← mycpu;
      modcpu i (set_c_proc (Some p));;
      switchuvm (Some p);;
      modproc p (set_p_state RUNNING);;
      stop_with Switch
  end.

Definition scheduler_round : K memst unit :=
  sti;;
  acquire ptable_lock;;
  scheduler_loop (seq 0 NPROC).

(** [scheduler] up to its first switch or the end of the first round. *)
Definition scheduler : K memst unit :=
  i ← mycpu;
  modcpu i (set_c_proc None);;
  scheduler_round.

(** The process in slot [p] switched back to the scheduler. *)
Definition scheduler_resume (p : nat) : K memst unit :=
  switchkvm;;
  i ← mycpu;
  modcpu i (set_c_proc None);;
  scheduler_loop (seq (S p) (NPROC - S p)).

(** ** What the routines do to the process table *)

Definition upd_proc (i : nat) (f : proc → proc) (h : hw) : hw :=
  set_h_procs (alter f i (h_procs h)) h.

(** One slot under [wakeup1 chan]. *)
Definition woken (chan : option objaddr) (p : proc) : proc :=
  if bool_decide (p_state p = SLEEPING) && bool_decide (p_chan p = chan)
  then set_p_state RUNNABLE p else p.

Definition wake_all (chan : option objaddr) (h : hw) : hw :=
  set_h_procs (woken chan <$> h_procs h) h.

(** The slot [kill] marks. *)
Definition killed_proc (p : proc) : proc :=
  set_p_killed true
    (if bool_decide (p_state p = SLEEPING) then set_p_state RUNNABLE p else p).

Definition asleep (chan : option objaddr) (p : proc) : proc :=
  set_p_state SLEEPING (set_p_chan chan p).

(** The process table has all its slots, its lock is free and the CPU is in
    order, with no other lock held. *)
Record sched_ready (h : hw) : Prop := {
  sr_wf : wf_hw h;
  sr_free : h_locks h !! ptable_lock = None;
  sr_procs : length (h_procs h) = NPROC
}.

(** The CPU holds no lock and runs the process [p]. *)
Record runs (h : hw) (p : nat) (pr : proc) : Prop := {
  ru_ready : sched_ready h;
  ru_ncli : ∀ c, cur h = Some c → c_ncli c = 0;
  ru_cur : curproc h = Some p;
  ru_proc : h_procs h !! p = Some pr
}.

(** ** Lemmas *)

Lemma set_cpus_id h : set_h_cpus (h_cpus h) h = h.
Proof. by destruct h. Qed.

Lemma upd_proc_upd i f g h : upd_proc i f (upd_proc i g h) = upd_proc i (f ∘ g) h.
Proof. unfold upd_proc. unset_goal. by rw list_alter_alter. Qed.

Lemma upd_proc_ext i f g h p :
  h_procs h !! i = Some p → f p = g p → upd_proc i f h = upd_proc i g h.
Proof. intros Hp Hfg. unfold upd_proc. f_equal. by eapply alter_ext_at. Qed.

Lemma upd_proc_acq i f lk h : upd_proc i f (acq lk h) = acq lk (upd_proc i f h).
Proof. unfold upd_proc. by rw acq_set_procs procs_acq. Qed.

Lemma upd_proc_settle i f h : settle (upd_proc i f h) = upd_proc i f (settle h).
Proof. unfold upd_proc. by rw settle_set_procs procs_settle. Qed.

Section lemmas.
Context {C : Type}.
Implicit Types (h : hw) (x : C).

Lemma modproc_run i f h x : modproc i f (h, x) = Ok tt (upd_proc i f h, x).
Proof. done. Qed.

Lemma wf_set_procs h v : wf_hw h → wf_hw (set_h_procs v h).
Proof. done. Qed.

(** A loop over the slots that changes each slot by [f]. *)
Lemma mfor_slots (f : proc → proc) (body : nat → K C unit) x l2 : ∀ l1 h,
  (∀ h i p, h_procs h !! i = Some p → body i (h, x) = Ok tt (upd_proc i f h, x)) →
  h_procs h = l1 ++ l2 →
  mfor (seq (length l1) (length l2)) body (h, x)
  = Ok tt (set_h_procs (l1 ++ (f <$> l2)) h, x).
Proof.
  induction l2 as [|p l2 IH]; intros l1 h Hb Hp; cbn.
  - rw app_nil_r in Hp. rw app_nil_r -Hp. by destruct h.
  - rewrite -> (bind_ok _ _ _ _ _ (Hb h (length l1) p ltac:(rw Hp list_lookup_middle //))).
    replace (S (length l1)) with (length (l1 ++ [f p])) by (rw length_app /=; lia).
    rw IH //.
    + unfold upd_proc. cbn. rw Hp -app_assoc /=.
      rw -(Nat.add_0_r (length l1)) alter_app_r. done.
    + unfold upd_proc. unset_goal. by rw -app_assoc.
Qed.

Lemma wakeup1_run chan h x :
  length (h_procs h) = NPROC → wakeup1 chan (h, x) = Ok tt (wake_all chan h, x).
Proof.
  intros Hl. unfold wakeup1. rw -Hl. apply (mfor_slots (woken chan) _ x _ [] h); [|done].
  intros h' i p Hp. rw (bind_ok _ _ _ _ _ (proc_at_ok h' x i p Hp)).
  unfold when, upd_proc. destruct (_ && _) eqn:E.
  - unfold modproc, modh. cbn. do 3 f_equal. eapply alter_ext_at; [done|].
    unfold woken. by rw E.
  - rewrite -> (alter_id_at _ _ _ p) by (done || (unfold woken; by rw E)). by destruct h'.
Qed.

Lemma wakeup_run chan h x :
  sched_ready h → wakeup chan (h, x) = Ok tt (wake_all chan (settle h), x).
Proof.
  intros [Hw Hf Hl]. unfold wakeup. rw (bind_ok _ _ _ _ _ (acquire_ok h x _ Hw Hf)).
  rw (bind_ok _ _ _ _ _ (wakeup1_run chan _ x _)); [by rw procs_acq|].
  unfold wake_all. rw procs_acq -acq_set_procs.
  rewrite -> release_ok by done. by rw settle_set_procs procs_settle.
Qed.

(** [kill] returns at the first slot with the pid. *)
Lemma kill_loop_run pid h x : ∀ l,
  wf_hw h → h_locks h !! ptable_lock = None → Forall (λ i, i < length (h_procs h))%nat l →
  kill_loop l pid (acq ptable_lock h, x) =
    match list_find (λ i, p_pid <$> h_procs h !! i = Some pid) l with
    | Some (_, i) => Ok 0 (upd_proc i killed_proc (settle h), x)
    | None => Ok (-1) (settle h, x)
    end.
Proof.
  intros l Hw Hf. induction l as [|i l IH]; intros Hl; cbn [kill_loop list_find].
  { rw (bind_ok _ _ _ _ _ (release_ok h x _ Hw Hf)). done. }
  apply Forall_cons in Hl as [Hi Hl]. specialize (IH Hl).
  apply lookup_lt_is_Some in Hi as [p Hp].
  rw (bind_ok _ _ _ _ _ (proc_at_ok (acq ptable_lock h) x i p _)); [by rw procs_acq|].
  rw Hp /=. destruct (Z.eqb_spec (p_pid p) pid) as [<-|Hne].
  - rewrite -> decide_True by done. rw (bind_ok _ _ _ _ _ (modproc_run i _ _ x)).
    assert (when (bool_decide (p_state p = SLEEPING)) (modproc i (set_p_state RUNNABLE))
      (upd_proc i (set_p_killed true) (acq ptable_lock h), x)
      = Ok tt (acq ptable_lock (upd_proc i killed_proc h), x)) as E.
    { unfold killed_proc. case_bool_decide as Hs; unfold when.
      - rw modproc_run upd_proc_upd upd_proc_acq. do 3 f_equal. eapply upd_proc_ext; [done|].
        cbn. by rewrite -> bool_decide_eq_true_2.
      - unfold mret, M_ret. rw upd_proc_acq. do 3 f_equal. eapply upd_proc_ext; [done|].
        cbn. by rewrite -> bool_decide_eq_false_2. }
    rw (bind_ok _ _ _ _ _ E). erewrite bind_ok; [|by apply release_ok].
    by rw upd_proc_settle.
  - rewrite -> decide_False by congruence. rw IH.
    by destruct (list_find _ l) as [[]|].
Qed.

Lemma runs_upd h p pr f : runs h p pr → runs (upd_proc p f h) p (f pr).
Proof.
  intros [[Hw Hf Hl] Hn Hc Hp]. split; [split|..]; try done; cbn.
  - by rw length_alter.
  - by rw list_lookup_alter_eq Hp.
Qed.

Lemma runs_settle h p pr : runs h p pr → runs (settle h) p pr.
Proof.
  intros [[Hw Hf Hl] Hn Hc Hp]. split; [split|..]; rw ?locks_settle ?procs_settle //.
  - by apply wf_settle.
  - intros c. destruct Hw as (c0 & Hc0 & _). unfold settle.
    rewrite -> (cur_upd (note_if h) h c0) by (done || apply apicid_note_if). intros [= <-].
    unfold note_if. case_bool; exact (Hn _ Hc0).
  - by rw curproc_settle.
Qed.

Lemma runs_acq_proc h p pr lk : runs h p pr → h_procs (acq lk h) !! p = Some pr.
Proof. intros Hr. rw procs_acq. apply (ru_proc _ _ _ Hr). Qed.

Lemma myproc_acq h p pr lk x : runs h p pr → myproc (acq lk h, x) = Ok (Some p) (acq lk h, x).
Proof.
  intros [[Hw _ _] _ Hc _]. rewrite -> myproc_ok by (by apply wf_acq).
  by rewrite -> curproc_acq, Hc, settle_acq by done.
Qed.

Lemma holding_acq h lk x : wf_hw h → holding lk (acq lk h, x) = Ok true (acq lk h, x).
Proof.
  intros Hw. rewrite -> holding_ok by (by apply wf_acq). rw me_acq settle_acq //.
  unfold acq at 1. cbn. rw lookup_insert_eq bool_decide_eq_true_2 //.
Qed.

(** The checks of [sched] up to the count of held locks. *)
Lemma sched_ncli h c p x :
  wf_hw h → cur h = Some c → curproc h = Some p →
  sched (acq ptable_lock h, x)
  = (if negb (c_ncli c + 1 =? 1) then panic "sched locks" else
     pr ← proc_at (Some p);
     if bool_decide (p_state pr = RUNNING) then panic "sched running" else
     h ← geth;
     if h_if h then panic "sched interruptible" else
     stop_with Switch) (acq ptable_lock h, x).
Proof.
  intros Hw Hcur Hc. unfold sched.
  rewrite -> bind_run, myproc_ok, settle_acq by (try apply wf_acq; done). rw curproc_acq Hc.
  rw (bind_ok _ _ _ _ _ (holding_acq h _ x Hw)). cbn [negb].
  pose proof (cur_push h c Hcur) as (i & Hi & Hci)%cur_Some.
  rw (bind_ok _ _ _ _ _ (mycpu_ok (acq ptable_lock h) x i Hi eq_refl)).
  by rw (bind_ok _ _ _ _ _ (cpu_at_ok (acq ptable_lock h) x i _ Hci)).
Qed.

(** [sched] switches when only the table lock is held and the process is no
    longer RUNNING. *)
Lemma sched_run h p pr x :
  runs h p pr → p_state pr ≠ RUNNING →
  sched (acq ptable_lock h, x) = Stop Switch (acq ptable_lock h, x).
Proof.
  intros Hr Hs. pose proof Hr as [[Hw Hf Hl] Hn Hc Hp]. pose proof Hw as (c & Hcur & _).
  rewrite -> (sched_ncli h c p) by done. rw (Hn c Hcur) /=.
  rw (bind_ok _ _ _ _ _ (proc_at_ok _ x p pr (runs_acq_proc _ _ _ _ Hr))).
  by rw bool_decide_eq_false_2.
Qed.

(** [sleep] up to its call of [sched]. *)
Lemma sleep_enter h p lk chan x :
  wf_hw h → curproc h = Some p → h_locks h !! ptable_lock = None →
  lk ≠ ptable_lock → h_locks h !! lk = None →
  sleep chan (Some lk) (acq lk h, x)
  = sched (acq ptable_lock (upd_proc p (asleep chan) h), x).
Proof.
  intros Hw Hc Hf Hne Hlk. unfold sleep.
  rewrite -> bind_run, myproc_ok, settle_acq by (try apply wf_acq; done). rw curproc_acq Hc.
  rw (bool_decide_eq_true_2 (lk ≠ _)) //. unfold when. rw bind_assoc.
  erewrite bind_ok; [|apply acquire_ok; [by apply wf_acq|unfold acq; cbn; by rw lookup_insert_ne]].
  rw acq_comm //. erewrite bind_ok.
  2:{ apply release_ok; [by apply wf_acq|]. unfold acq. cbn. by rw lookup_insert_ne. }
  rw settle_acq // (bind_ok _ _ _ _ _ (modproc_run p _ _ x)).
  by rw (bind_ok _ _ _ _ _ (modproc_run p _ _ x)) upd_proc_upd upd_proc_acq.
Qed.

Lemma sleep_run h p pr lk chan x :
  runs h p pr → lk ≠ ptable_lock → h_locks h !! lk = None →
  sleep chan (Some lk) (acq lk h, x)
  = Stop Switch (acq ptable_lock (upd_proc p (asleep chan) h), x).
Proof.
  intros Hr Hne Hlk. pose proof Hr as [[Hw Hf Hl] Hn Hc Hp]. rewrite -> (sleep_enter h p) by done.
  eapply sched_run; [by apply runs_upd|done].
Qed.

(** With another lock held, [sleep] panics. *)
Lemma sleep_nested h p c lk chan x :
  wf_hw h → cur h = Some c → c_ncli c ≠ 0 → curproc h = Some p →
  h_locks h !! ptable_lock = None → lk ≠ ptable_lock → h_locks h !! lk = None →
  sleep chan (Some lk) (acq lk h, x)
  = Stop (Panic "sched locks") (acq ptable_lock (upd_proc p (asleep chan) h), x).
Proof.
  intros Hw Hcur Hn Hc Hf Hne Hlk. rewrite -> (sleep_enter h p), (sched_ncli _ c p) by done.
  by rewrite -> (proj2 (Z.eqb_neq _ 1)) by lia.
Qed.

Lemma sleep_ptable_run h p pr chan x :
  runs h p pr →
  sleep chan (Some ptable_lock) (acq ptable_lock h, x)
  = Stop Switch (acq ptable_lock (upd_proc p (asleep chan) h), x).
Proof.
  intros Hr. unfold sleep. rw (bind_ok _ _ _ _ _ (myproc_acq h p pr _ x Hr)).
  rw (bool_decide_eq_false_2 (ptable_lock ≠ _)); [naive_solver|]. rw bind_run /=.
  rw (bind_ok _ _ _ _ _ (modproc_run p _ _ x)).
  rw (bind_ok _ _ _ _ _ (modproc_run p _ _ x)) upd_proc_upd upd_proc_acq.
  eapply sched_run; [by apply runs_upd|done].
Qed.

Lemma yield_run h p pr x :
  runs h p pr →
  yield (h, x) = Stop Switch (acq ptable_lock (upd_proc p (set_p_state RUNNABLE) h), x).
Proof.
  intros Hr. pose proof Hr as [[Hw Hf Hl] Hn Hc Hp]. unfold yield.
  rw (bind_ok _ _ _ _ _ (acquire_ok h x _ Hw Hf)).
  rw (bind_ok _ _ _ _ _ (myproc_acq h p pr _ x Hr)).
  rw (bind_ok _ _ _ _ _ (proc_at_ok _ x p pr (runs_acq_proc _ _ _ _ Hr))).
  rw (bind_ok _ _ _ _ _ (modproc_run p _ _ x)) upd_proc_acq.
  apply bind_stop. eapply sched_run; [by apply runs_upd|done].
Qed.

(** The scheduler that resumes a process took the table lock with the
    interrupts on, as they were when the process switched away. *)
Lemma sched_resume_run h p pr x :
  runs h p pr → sched_resume (h_if h) (acq ptable_lock h, x) = Ok tt (acq ptable_lock h, x).
Proof.
  intros [[Hw Hf Hl] Hn Hc Hp]. unfold sched_resume. destruct Hw as (c & Hcur & Hw).
  pose proof (cur_push h c Hcur) as (i & Hi & Hci)%cur_Some.
  rw (bind_ok _ _ _ _ _ (mycpu_ok (acq ptable_lock h) x i Hi eq_refl)).
  unfold modcpu, modh. cbn [fst snd]. do 2 f_equal.
  rewrite -> (alter_id_at _ _ _ _ Hci); [exact (set_cpus_id (acq ptable_lock h))|].
  unfold note_if. rw (Hn c Hcur) Z.eqb_refl. by destruct c.
Qed.

Lemma sleep_resume_run h p pr lk x :
  runs h p pr → lk ≠ ptable_lock → h_locks h !! lk = None →
  sleep_resume p lk (h_if h) (acq ptable_lock h, x)
  = Ok tt (acq lk (upd_proc p (set_p_chan None) h), x).
Proof.
  intros Hr Hne Hlk. pose proof Hr as [[Hw Hf Hl] Hn Hc Hp]. unfold sleep_resume.
  rw (bind_ok _ _ _ _ _ (sched_resume_run h p pr x Hr)).
  rw (bind_ok _ _ _ _ _ (modproc_run p _ _ x)) upd_proc_acq bool_decide_eq_true_2 //.
  unfold when. erewrite bind_ok; [|by apply release_ok].
  rw acquire_ok; [by apply wf_settle|by rw locks_settle|]. by rw acq_settle.
Qed.
End lemmas.

(** ** Dispatching a process *)

(** What [switchuvm] puts into the [struct cpu] with index [i]. *)
Definition mount (pr : proc) (s : memst) (i : nat) (c : cpu) : cpu :=
  set_c_ts (MkTs (u32 (p_kstack pr + KSTACKSIZE)) (Z.shiftl SEG_KDATA 3) 0xFFFF)
    (set_gdt SEG_TSS (set_s 0 (SEG16 STS_T32A
      (m_cpus s + Z.of_nat i * SIZEOF_CPU + OFFSETOF_TS) (SIZEOF_TS - 1) 0)) c).

Definition uvm (pr : proc) (s : memst) (h : hw) : hw :=
  set_h_cr3 (V2P (p_pgdir pr)) (set_h_tr (Z.shiftl SEG_TSS 3)
    (match me h with Some i => upd_me (mount pr s i) h | None => h end)).

(** The CPU after the scheduler gave it to the process in slot [p]. *)
Definition dispatch (p : nat) (pr : proc) (s : memst) (h : hw) : hw :=
  upd_proc p (set_p_state RUNNING) (uvm pr s (upd_me (set_c_proc (Some p)) h)).

(** A change of the CPU that [pushcli] does not see. *)
Definition quiet (f : cpu → cpu) : Prop :=
  ∀ c, c_apicid (f c) = c_apicid c ∧
       ∀ n b, f (set_c_ncli n c) = set_c_ncli n (f c) ∧ f (set_c_intena b c) = set_c_intena b (f c)
         ∧ c_ncli (f c) = c_ncli c.

Lemma quiet_note f h c : quiet f → note_if h (f c) = f (note_if h c).
Proof.
  intros Hf. destruct (Hf c) as [_ H]. destruct (H 0 (h_if h)) as (_ & H1 & H2).
  unfold note_if. rw H2. by case_bool.
Qed.

Lemma upd_me_set_if f b h : upd_me f (set_h_if b h) = set_h_if b (upd_me f h).
Proof. unfold upd_me. change (me (set_h_if b h)) with (me h). by destruct (me h). Qed.

Lemma quiet_push f h : quiet f → wf_hw h → push (upd_me f h) = upd_me f (push h).
Proof.
  intros Hf (c & Hc & _). assert (∀ c, c_apicid (f c) = c_apicid c) as Ha by (intros ?; apply Hf).
  unfold push. rewrite -> upd_me_set_if, !upd_me_upd_me by (done || (intros; cbn; apply apicid_note_if)).
  f_equal. eapply upd_me_ext; [done|]. cbn. destruct (Hf c) as [_ Hn].
  destruct (Hn 0 true) as (_ & _ & ->). rewrite -> (note_if_cong _ h) by apply if_upd_me.
  rewrite -> quiet_note by done. destruct (Hf (note_if h c)) as [_ Hn'].
  by destruct (Hn' (c_ncli c + 1) true) as (-> & _).
Qed.

Lemma quiet_settle f h : quiet f → wf_hw h → settle (upd_me f h) = upd_me f (settle h).
Proof.
  intros Hf (c & Hc & _). assert (∀ c, c_apicid (f c) = c_apicid c) as Ha by (intros ?; apply Hf).
  unfold settle. rewrite -> !upd_me_upd_me by (done || apply apicid_note_if).
  eapply upd_me_ext; [done|]. cbn. rewrite -> (note_if_cong _ h) by apply if_upd_me.
  by rewrite -> quiet_note.
Qed.

Lemma quiet_wf f h : quiet f → wf_hw h → wf_hw (upd_me f h).
Proof.
  intros Hf (c & Hc & Hw). exists (f c). split; [apply cur_upd; [|done]; intros ?; apply Hf|].
  destruct (Hf c) as [_ Hn]. destruct (Hn 0 true) as (_ & _ & ->). by rw if_upd_me.
Qed.

Lemma quiet_mount pr s i : quiet (mount pr s i).
Proof. intros c. by split. Qed.

Lemma quiet_proc p : quiet (set_c_proc p).
Proof. intros c. by split. Qed.

(** [uvm] and [dispatch] keep the CPU in order and commute with the lock
    cycle. *)
Lemma me_upd_quiet f h : quiet f → me (upd_me f h) = me h.
Proof. intros Hf. apply me_upd. intros ?; apply Hf. Qed.

Lemma push_set_cr3 v h : push (set_h_cr3 v h) = set_h_cr3 v (push h).
Proof. unfold push, upd_me. change (me (set_h_cr3 v h)) with (me h). by destruct (me h). Qed.
Lemma settle_set_cr3 v h : settle (set_h_cr3 v h) = set_h_cr3 v (settle h).
Proof. unfold settle, upd_me. change (me (set_h_cr3 v h)) with (me h). by destruct (me h). Qed.
Lemma push_set_tr v h : push (set_h_tr v h) = set_h_tr v (push h).
Proof. unfold push, upd_me. change (me (set_h_tr v h)) with (me h). by destruct (me h). Qed.
Lemma settle_set_tr v h : settle (set_h_tr v h) = set_h_tr v (settle h).
Proof. unfold settle, upd_me. change (me (set_h_tr v h)) with (me h). by destruct (me h). Qed.

Lemma locks_upd_me f h : h_locks (upd_me f h) = h_locks h.
Proof. unfold upd_me. by destruct (me h). Qed.
Lemma procs_upd_me f h : h_procs (upd_me f h) = h_procs h.
Proof. unfold upd_me. by destruct (me h). Qed.

Lemma uvm_wf pr s h : wf_hw h → wf_hw (uvm pr s h).
Proof.
  intros Hw. destruct (me_wf h Hw) as [i Hi]. unfold uvm. rw Hi.
  exact (quiet_wf _ _ (quiet_mount pr s i) Hw).
Qed.

Lemma uvm_push pr s h : wf_hw h → push (uvm pr s h) = uvm pr s (push h).
Proof.
  intros Hw. unfold uvm. rw me_push push_set_cr3 push_set_tr.
  destruct (me_wf h Hw) as [i Hi]. by rw Hi quiet_push.
Qed.

Lemma uvm_settle pr s h : wf_hw h → settle (uvm pr s h) = uvm pr s (settle h).
Proof.
  intros Hw. unfold uvm. rw me_settle settle_set_cr3 settle_set_tr.
  destruct (me_wf h Hw) as [i Hi]. by rw Hi quiet_settle.
Qed.

Lemma modcpu_run {C} i f h (x : C) :
  me h = Some i → modcpu i f (h, x) = Ok tt (upd_me f h, x).
Proof. intros Hi. unfold upd_me. by rw Hi. Qed.

Lemma switchuvm_run p pr s h :
  wf_hw h → h_procs h !! p = Some pr → p_kstack pr ≠ 0 → p_pgdir pr ≠ 0 →
  switchuvm (Some p) (h, s) = Ok tt (uvm pr s (settle h), s).
Proof.
  intros Hw Hp Hk Hd. unfold switchuvm. rewrite -> decide_False by done.
  rw (bind_ok _ _ _ _ _ (proc_at_ok h s p pr Hp)).
  rewrite -> (proj2 (Z.eqb_neq _ _) Hk), (proj2 (Z.eqb_neq _ _) Hd).
  rw (bind_ok _ _ _ _ _ (pushcli_ok h s Hw)).
  destruct (me_wf h Hw) as [i Hi]. pose proof Hi as Hi'. rw -me_push in Hi'.
  rw (bind_ok _ _ _ _ _ (mycpu_ok (push h) s i Hi' eq_refl)).
  rw (bind_ok _ _ _ s (push h, s)) //. cbv zeta.
  rw (bind_ok _ _ _ _ _ (modcpu_run i _ (push h) s Hi')).
  rw (bind_ok _ _ _ _ _ (modcpu_run i _ (upd_me _ (push h)) s _)); [by rw me_upd|].
  rewrite -> upd_me_upd_me by done. rw bind_run. cbn -[push upd_me]. rw bind_run. cbn -[push upd_me].
  match goal with |- popcli (?h', s) = _ =>
    replace h' with (push (uvm pr s h)) by (rw uvm_push //; unfold uvm; by rw Hi') end.
  rw popcli_push; [by apply uvm_wf|]. by rw uvm_settle.
Qed.

Lemma upd_me_set_locks f v h : upd_me f (set_h_locks v h) = set_h_locks v (upd_me f h).
Proof. unfold upd_me. change (me (set_h_locks v h)) with (me h). by destruct (me h). Qed.

Lemma acq_upd_me f lk h : quiet f → wf_hw h → upd_me f (acq lk h) = acq lk (upd_me f h).
Proof.
  intros Hf Hw. unfold acq. by rewrite -> quiet_push, me_upd_quiet, locks_upd_me, upd_me_set_locks.
Qed.

Lemma acq_set_cr3 v lk h : set_h_cr3 v (acq lk h) = acq lk (set_h_cr3 v h).
Proof. unfold acq. by rw push_set_cr3. Qed.
Lemma acq_set_tr v lk h : set_h_tr v (acq lk h) = acq lk (set_h_tr v h).
Proof. unfold acq. by rw push_set_tr. Qed.

Lemma acq_uvm pr s lk h : wf_hw h → uvm pr s (acq lk h) = acq lk (uvm pr s h).
Proof.
  intros Hw. unfold uvm. rw me_acq. destruct (me_wf h Hw) as [i Hi]. rw Hi.
  rewrite -> acq_upd_me by (done || apply quiet_mount). by rw acq_set_tr acq_set_cr3.
Qed.

(** ** The scheduler takes the first RUNNABLE slot of the rest of its round *)

(** The slots the scheduler may dispatch have a stack and a page table. *)
Definition runnable_ok (p : proc) : Prop :=
  p_state p = RUNNABLE → p_kstack p ≠ 0 ∧ p_pgdir p ≠ 0.

Definition runnable_at (procs : list proc) (i : nat) : Prop :=
  p_state <$> procs !! i = Some RUNNABLE.
#[global] Instance runnable_at_dec procs i : Decision (runnable_at procs i).
Proof. unfold runnable_at. apply _. Defined.

Lemma scheduler_loop_run h s l :
  sched_ready h → Forall runnable_ok (h_procs h) → Forall (λ i, i < NPROC)%nat l →
  scheduler_loop l (acq ptable_lock h, s) =
    match list_find (runnable_at (h_procs h)) l with
    | Some (_, p) =>
        Stop Switch (acq ptable_lock (match h_procs h !! p with
                                      | Some pr => dispatch p pr s h | None => h end), s)
    | None => Ok tt (settle h, s)
    end.
Proof.
  intros Hh Hok. pose proof Hh as [Hw Hf Hl]. induction l as [|p l IH]; intros Hb.
  { cbn. by apply release_ok. }
  apply Forall_cons in Hb as [Hp Hb]. specialize (IH Hb). cbn [scheduler_loop list_find].
  rw -Hl in Hp. apply lookup_lt_is_Some in Hp as [pr Hp].
  rw (bind_ok _ _ _ _ _ (proc_at_ok (acq ptable_lock h) s p pr _)); [by rw procs_acq|].
  case_bool_decide as Hs; cbn [negb].
  2:{ rewrite -> decide_False by (unfold runnable_at; rw Hp /=; congruence). rw IH.
      by destruct (list_find _ l) as [[]|]. }
  rewrite -> decide_True by (unfold runnable_at; by rw Hp /= Hs). rw Hp.
  rewrite -> Forall_lookup in Hok. destruct (Hok p pr Hp Hs) as [Hk Hd].
  destruct (me_wf h Hw) as [i Hi]. pose proof Hi as Hi'. rw -(me_acq ptable_lock) in Hi'.
  rw (bind_ok _ _ _ _ _ (mycpu_ok _ s i Hi' eq_refl)).
  rw (bind_ok _ _ _ _ _ (modcpu_run i _ _ s Hi')).
  pose proof (quiet_proc (Some p)) as Hq. rewrite -> acq_upd_me by done.
  pose proof (quiet_wf _ _ Hq Hw) as Hw'.
  rw (bind_ok _ _ _ _ _ (switchuvm_run p pr s _ (wf_acq _ _ Hw') _ Hk Hd)).
  { by rw procs_acq procs_upd_me. }
  rewrite -> settle_acq, acq_uvm by done. rw (bind_ok _ _ _ _ _ (modproc_run p _ _ s)).
  unfold stop_with, dispatch. by rw upd_proc_acq.
Qed.

(** ** Round robin

    The slot a scheduler dispatches next when it continues its round at [pos]:
    the rest of the round, then the next round. *)

Definition next_slot (procs : list proc) (pos : nat) : option nat :=
  snd <$> list_find (runnable_at procs) (seq pos (NPROC - pos) ++ seq 0 NPROC).

(** The slots dispatched when the table is [T k] at the k-th choice. *)
Fixpoint picks (T : nat → list proc) (pos n : nat) : list (option nat) :=
  match n with
  | O => []
  | S n => let r := next_slot (T 0%nat) pos in
           r :: picks (λ k, T (S k)) (match r with Some p => S p | None => 0%nat end) n
  end.

Lemma list_find_app' {A} (P : A → Prop) `{∀ x, Decision (P x)} l1 l2 :
  snd <$> list_find P (l1 ++ l2) =
    match snd <$> list_find P l1 with Some x => Some x | None => snd <$> list_find P l2 end.
Proof.
  induction l1 as [|x l1 IH]; cbn; [done|]. case_decide; [done|].
  destruct (list_find P (l1 ++ l2)) as [[]|], (list_find P l1) as [[]|]; cbn in *; done.
Qed.

Lemma find_seq procs a n q :
  runnable_at procs q →
  match snd <$> list_find (runnable_at procs) (seq a n) with
  | Some p => (a ≤ p < a + n)%nat ∧ runnable_at procs p ∧ ((a ≤ q)%nat → (p ≤ q)%nat)
  | None => ¬ (a ≤ q < a + n)%nat
  end.
Proof.
  intros Hq. destruct (list_find _ _) as [[j p]|] eqn:E; cbn.
  - apply list_find_Some in E as ([-> Hj]%lookup_seq & Hp & Hbefore).
    split_and!; [lia|lia|done|]. intros Ha. destruct (decide (a + j ≤ q)%nat); [done|].
    destruct (Hbefore (q - a)%nat q); [|lia|done]. apply lookup_seq. lia.
  - apply list_find_None in E. intros Hr. rewrite -> Forall_forall in E.
    apply (E q); [apply elem_of_seq; lia|done].
Qed.

(** The distance from [pos] to [q] in the order of the rounds. *)
Definition rr_dist (pos q : nat) : nat :=
  if decide (pos ≤ q)%nat then (q - pos)%nat else (NPROC - pos + q)%nat.

Lemma next_slot_closer procs pos q :
  (pos ≤ NPROC)%nat → (q < NPROC)%nat → runnable_at procs q →
  ∃ p, next_slot procs pos = Some p ∧ (p < NPROC)%nat ∧ runnable_at procs p ∧
    (p = q ∨ (rr_dist (S p) q < rr_dist pos q)%nat).
Proof.
  intros Hpos Hq Hr. unfold next_slot. rw list_find_app'.
  pose proof (find_seq procs pos (NPROC - pos) q Hr) as H1.
  pose proof (find_seq procs 0 NPROC q Hr) as H2.
  destruct (snd <$> list_find _ (seq pos _)) as [p|].
  - destruct H1 as (Hp & Hrp & Hpq). exists p. split_and!; [done|lia|done|].
    unfold rr_dist. repeat case_decide; lia.
  - destruct (snd <$> list_find _ _) as [p|]; [|lia].
    destruct H2 as (Hp & Hrp & Hpq). exists p. split_and!; [done|lia|done|].
    unfold rr_dist. repeat case_decide; lia.
Qed.

Lemma picks_reach n : ∀ T pos q,
  (pos ≤ NPROC)%nat → (q < NPROC)%nat → (∀ k, runnable_at (T k) q) → (rr_dist pos q < n)%nat →
  Some q ∈ picks T pos n.
Proof.
  induction n as [|n IH]; intros T pos q Hpos Hq Hr Hn; [lia|]. cbn [picks]; cbv zeta.
  destruct (next_slot_closer (T 0%nat) pos q Hpos Hq (Hr 0%nat)) as (p & -> & Hp & _ & [->|Hd]).
  - apply elem_of_cons. by left.
  - apply elem_of_cons. right. apply IH; [lia|done|intros k; apply (Hr (S k))|lia].
Qed.

(** What a dispatched CPU looks like. *)
Lemma cpu_dispatch p pr s h c :
  cur h = Some c → ∃ i, me h = Some i ∧ cur (dispatch p pr s h) = Some (mount pr s i (set_c_proc (Some p) c)).
Proof.
  intros Hc. pose proof Hc as (i & Hi & _)%cur_Some. exists i. split; [done|].
  assert (cur (upd_me (set_c_proc (Some p)) h) = Some (set_c_proc (Some p) c)) as Hc'
    by (by apply (cur_upd (set_c_proc (Some p)))).
  assert (me (upd_me (set_c_proc (Some p)) h) = Some i) as Hi' by (by rw me_upd).
  unfold dispatch, uvm. rw Hi'.
  change (cur (upd_proc p _ (set_h_cr3 _ (set_h_tr _ ?x)))) with (cur x).
  by erewrite (cur_upd (mount pr s i)) by done.
Qed.

Lemma curproc_dispatch p pr s h : wf_hw h → curproc (dispatch p pr s h) = Some p.
Proof.
  intros (c & Hc & _). destruct (cpu_dispatch p pr s h c Hc) as (i & _ & E). unfold curproc. by rw E.
Qed.

Lemma procs_dispatch p pr s h :
  h_procs (dispatch p pr s h) = alter (set_p_state RUNNING) p (h_procs h).
Proof.
  unfold dispatch, upd_proc, uvm. cbn. destruct (me (upd_me _ h)); by rw ?procs_upd_me.
Qed.

Lemma round_slots (l : list nat) pos n : l = seq pos n → (pos + n ≤ NPROC)%nat → Forall (λ i, i < NPROC)%nat l.
Proof. intros -> Hn. apply Forall_forall. intros i Hi%elem_of_seq. lia. Qed.

Lemma sti_ready h :
  sched_ready h → (∀ c, cur h = Some c → c_ncli c = 0) → sched_ready (set_h_if true (settle h)).
Proof.
  intros [(c & Hc & Hw) Hf Hl] Hn. split.
  - exists (note_if h c). split; [by apply (cur_upd (note_if h)); [apply apicid_note_if|]|].
    assert (c_ncli (note_if h c) = 0) as -> by (unfold note_if; case_bool; exact (Hn c Hc)). lia.
  - cbn. by rw locks_settle.
  - cbn. by rw procs_settle.
Qed.

(** The rest of a round and the next one dispatch [next_slot]. *)
Lemma scheduler_picks_run h s pos :
  sched_ready h → (∀ c, cur h = Some c → c_ncli c = 0) →
  Forall runnable_ok (h_procs h) → (pos ≤ NPROC)%nat →
  match next_slot (h_procs h) pos with
  | Some p => ∃ h' pr, h_procs h !! p = Some pr ∧
      (scheduler_loop (seq pos (NPROC - pos));; scheduler_round) (acq ptable_lock h, s)
      = Stop Switch (acq ptable_lock (dispatch p pr s h'), s) ∧
      wf_hw h' ∧ h_procs h' = h_procs h ∧ (h' = h ∨ h' = set_h_if true (settle h))
  | None => (scheduler_loop (seq pos (NPROC - pos));; scheduler_round) (acq ptable_lock h, s)
      = Ok tt (settle (set_h_if true (settle h)), s)
  end.
Proof.
  intros Hh Hn Hok Hpos. unfold next_slot. rw list_find_app'.
  rewrite -> bind_run, scheduler_loop_run by (try done; by eapply round_slots; [done|lia]).
  destruct (list_find _ (seq pos (NPROC - pos))) as [[j p]|] eqn:E; cbn [fmap option_fmap option_map snd].
  { apply list_find_Some in E as (_ & Hp & _). unfold runnable_at in Hp.
    destruct (h_procs h !! p) as [pr|]; [|done].
    exists h, pr. split_and!; [done..|apply Hh|done|by left]. }
  unfold scheduler_round. rw bind_run. cbn -[acquire scheduler_loop settle seq].
  pose proof (sti_ready h Hh Hn) as Hh1. pose proof Hh1 as [Hw1 Hf1 Hl1].
  assert (h_procs (set_h_if true (settle h)) = h_procs h) as Hp1 by apply procs_settle.
  rw (bind_ok _ _ _ _ _ (acquire_ok _ s _ Hw1 Hf1)).
  rewrite -> scheduler_loop_run by (rw ?Hp1; try done; by eapply round_slots). rw Hp1.
  destruct (list_find _ (seq 0 NPROC)) as [[j p]|] eqn:E2; cbn [fmap option_fmap option_map snd]; [|done].
  apply list_find_Some in E2 as (_ & Hp & _). unfold runnable_at in Hp.
  destruct (h_procs h !! p) as [pr|] eqn:Epr; [|done].
  exists (set_h_if true (settle h)), pr. split_and!; try done. by right.
Qed.

(** ** Properties *)


(** C35: Sleeping and waking.  A process that holds only [lk] and calls [sleep]
    gives up the CPU as SLEEPING on the channel, with [lk] released and the table
    lock held in its place; a [wakeup] on the channel makes every process that
    sleeps on it RUNNABLE and changes nothing else of the table; resumed,
    the process forgets the channel and holds [lk] again.  A process that
    holds a second lock panics in [sched] instead. *)
Theorem sleep_wakeup_resume {C : Type} (h : hw) (p : nat) (pr : proc) (lk : objaddr)
    (chan : option objaddr) (x : C) :
  runs h p pr → lk ≠ ptable_lock → h_locks h !! lk = None →
  sleep chan (Some lk) (acq lk h, x)
    = Stop Switch (acq ptable_lock (upd_proc p (asleep chan) h), x) ∧
  (∀ h' (y : C), sched_ready h' →
    ∃ h'', wakeup chan (h', y) = Ok tt (h'', y) ∧ h_locks h'' = h_locks h' ∧
      ∀ q, h_procs h'' !! q =
        (λ r, if decide (p_state r = SLEEPING ∧ p_chan r = chan)
              then set_p_state RUNNABLE r else r) <$> h_procs h' !! q) ∧
  (∀ h' pr' (y : C), runs h' p pr' → h_locks h' !! lk = None →
    sleep_resume p lk (h_if h') (acq ptable_lock h', y)
    = Ok tt (acq lk (upd_proc p (set_p_chan None) h'), y)) ∧
  (∀ lk', lk' ≠ lk → lk' ≠ ptable_lock → h_locks h !! lk' = None →
    ∃ s, sleep chan (Some lk) (acq lk (acq lk' h), x) = Stop (Panic "sched locks") s).
Proof.
  intros Hr Hne Hlk. split_and!.
  - by eapply sleep_run.
  - intros h' y Hh'. rewrite -> wakeup_run by done. eexists. split_and!; [done|by rw /= locks_settle|].
    intros q. unfold wake_all. cbn. rw list_lookup_fmap procs_settle.
    destruct (h_procs h' !! q) as [r|]; [|done]. cbn. unfold woken.
    repeat case_bool_decide; repeat case_decide; naive_solver.
  - intros h' pr' y Hr' Hlk'. by eapply sleep_resume_run.
  - intros lk' Hne' Hnp Hlk'. pose proof Hr as [[Hw Hf _] Hn Hc _]. pose proof Hw as (c & Hcur & _).
    pose proof (cur_push h c Hcur) as Hcur'. eexists.
    eapply (sleep_nested (acq lk' h) p); [by apply wf_acq|apply Hcur'| |by rw curproc_acq|..|done|].
    + cbn. rw (Hn c Hcur). lia.
    + unfold acq. cbn. by rw lookup_insert_ne.
    + unfold acq. cbn. by rw lookup_insert_ne.
Qed.

(** [kill] marks exactly the first process with the pid as killed, makes
    it RUNNABLE if it sleeps, and returns 0; without such a process it returns -1
    and changes no process.  It leaves the lock free and the interrupt
    nesting as it found it. *)
Theorem kill_correct {C : Type} (h : hw) (x : C) (pid : Z) :
  sched_ready h →
  (∀ i p, h_procs h !! i = Some p → p_pid p = pid →
    (∀ j q, (j < i)%nat → h_procs h !! j = Some q → p_pid q ≠ pid) →
    kill pid (h, x) = Ok 0 (upd_proc i killed_proc (settle h), x)) ∧
  ((∀ j q, h_procs h !! j = Some q → p_pid q ≠ pid) →
    kill pid (h, x) = Ok (-1) (settle h, x)).
Proof.
  intros [Hw Hf Hl].
  assert (kill pid (h, x) = kill_loop (seq 0 NPROC) pid (acq ptable_lock h, x)) as ->
    by (unfold kill; by rw (bind_ok _ _ _ _ _ (acquire_ok h x _ Hw Hf))).
  rewrite -> kill_loop_run by (done || (rw Hl; by eapply round_slots)). split.
  - intros i p Hp Hpid Hfirst. erewrite (proj2 (list_find_Some _ _ i i)); [done|].
    assert (i < NPROC)%nat by (rw -Hl; by eapply lookup_lt_Some).
    split_and!; [apply lookup_seq; lia|by rw Hp /= Hpid|].
    intros j k [-> Hj]%lookup_seq Hlt. cbn.
    destruct (h_procs h !! j) as [q|] eqn:Eq; [|done]. cbn. intros [= E].
    by apply (Hfirst j q).
  - intros Hnone. rewrite -> (proj2 (list_find_None _ _)); [done|].
    apply Forall_forall. intros j _ E. destruct (h_procs h !! j) as [q|] eqn:Eq; [|done].
    injection E as E. by apply (Hnone j q).
Qed.

(** ** The properties on a concrete machine *)

(** Process 7 runs on the CPU, process 8 sleeps on a channel. *)
Definition ex_chan : option objaddr := Some ("pipe"%string, 5).
Definition ex_procs : list proc :=
  set_p_state RUNNING (set_p_pid 7 zero_proc)
    :: set_p_pgdir 1 (set_p_kstack 1 (asleep ex_chan (set_p_pid 8 zero_proc)))
    :: set_p_pgdir 1 (set_p_kstack 1 (set_p_state RUNNABLE (set_p_pid 9 zero_proc)))
    :: replicate 61 zero_proc.
Definition ex_machine : hw := set_h_procs ex_procs boot_hw.

Lemma ex_machine_ready : sched_ready ex_machine.
Proof. split; [apply boot_hw_wf|done..]. Qed.

Lemma ex_machine_runs : runs ex_machine 0 (set_p_state RUNNING (set_p_pid 7 zero_proc)).
Proof. split; [apply ex_machine_ready| |done..]. by intros c [= <-]. Qed.

Lemma kill_correct_witness :
  kill 8 (ex_machine, tt) = Ok 0 (upd_proc 1 killed_proc (settle ex_machine), tt) ∧
  kill 12 (ex_machine, tt) = Ok (-1) (settle ex_machine, tt).
Proof.
  split.
  - apply (proj1 (kill_correct ex_machine tt 8 ex_machine_ready) 1%nat _ eq_refl eq_refl).
    intros [|j] q Hj; [|lia]. by intros [= <-].
  - apply (proj2 (kill_correct ex_machine tt 12 ex_machine_ready)).
    apply (Forall_lookup (λ q, p_pid q ≠ 12)). apply (bool_decide_unpack _). by vm_compute.
Defined.

Lemma sleep_wakeup_resume_witness :
  sleep ex_chan (Some kmem_lock) (acq kmem_lock ex_machine, tt)
  = Stop Switch (acq ptable_lock (upd_proc 0 (asleep ex_chan) ex_machine), tt).
Proof.
  apply (proj1 (sleep_wakeup_resume ex_machine 0 _ kmem_lock ex_chan tt ex_machine_runs
    ltac:(done) eq_refl)).
Defined.

