(* ===== verification/Vm.v ===== *)
(** * Page tables: vm.c

    The two-level page tables of the x86 in kernel memory, built by
    [walkpgdir] and [mappages]; user address spaces growing, shrinking, being copied
    and freed.  The theorems describe a page table by the entry it has for
    every virtual page. *)

From S2P Require Import Prelude Machine Spinlock Console Mem Kalloc Sched.

(** ** Operations *)

(** The bytes of a kernel or user buffer, stored from address [a]. *)
Fixpoint write_bytes (m : memory) (a : Z) (l : list Z) : memory :=
  match l with
  | [] => m
  | x :: l => write_bytes (st8 m a x) (a + 1) l
  end.
Definition kwrite (a : Z) (l : list Z) : K memst unit := modc (λ s, set_m_mem (write_bytes (m_mem s) a l) s).
Definition kmemmove (dst src n : Z) : K memst unit :=
  modc (λ s, set_m_mem (memmove (m_mem s) dst src n) s).

Definition walkpgdir (pgdir va : Z) (alloc : bool) : K memst Z :=
  let pde := pgdir + 4 * PDX va in
  e ← load pde;
  if negb (Z.land e PTE_P =? 0) then mret (P2V (PTE_ADDR e) + 4 * PTX va) else
  if negb alloc then mret 0 else
  pgtab ← kalloc;
  if pgtab =? 0 then mret 0 else
  kmemset pgtab 0 PGSIZE;;
  store pde (Z.lor (Z.lor (Z.lor (V2P pgtab) PTE_P) PTE_W) PTE_U);;
  mret (pgtab + 4 * PTX va).

(** The loop of [mappages]; it ends when [a] reaches [last]. *)
Fixpoint mappages_loop (n : nat) (pgdir a last pa perm : Z) : K memst Z :=
  match n with
  | O => fault "mappages: loop"
  | S n =>
      pte ← walkpgdir pgdir a true;
      if pte =? 0 then mret (-1) else
      e ← load pte;
      if negb (Z.land e PTE_P =? 0) then panic "remap" else
      store pte (Z.lor (Z.lor pa perm) PTE_P);;
      if a =? last then mret 0 else
      mappages_loop n pgdir (u32 (a + PGSIZE)) last (u32 (pa + PGSIZE)) perm
  end.

(** [a] takes the pages up to [last], around the address space if need be. *)
Definition mappages (pgdir va size pa perm : Z) : K memst Z :=
  let a := PGROUNDDOWN va in
  let last := PGROUNDDOWN (u32 (va + size - 1)) in
  mappages_loop (Z.to_nat (u32 (last - a) / PGSIZE + 1)) pgdir a last pa perm.

(** The loop of [deallocuvm] from [a]. *)
Fixpoint deallocuvm_loop (fuel : nat) (pgdir a oldsz : Z) : K memst unit :=
  if negb (a <? oldsz) then mret tt else
  match fuel with
  | O => fault "deallocuvm: loop"
  | S fuel =>
      pte ← walkpgdir pgdir a false;
      if pte =? 0 then
        deallocuvm_loop fuel pgdir (u32 (u32 (PGADDR (PDX a + 1) 0 0 - PGSIZE) + PGSIZE)) oldsz
      else
        e ← load pte;
        (if negb (Z.land e PTE_P =? 0) then
           let pa := PTE_ADDR e in
           if pa =? 0 then panic "kfree" else
           kfree (P2V pa);;
           store pte 0
         else mret tt);;
        deallocuvm_loop fuel pgdir (u32 (a + PGSIZE)) oldsz
  end.

Definition deallocuvm (pgdir oldsz newsz : Z) : K memst Z :=
  if oldsz <=? newsz then mret oldsz else
  let a := PGROUNDUP newsz in
  deallocuvm_loop (Z.to_nat ((oldsz - a) / PGSIZE + 1)) pgdir a oldsz;;
  mret newsz.

Definition freevm (pgdir : Z) : K memst unit :=
  if pgdir =? 0 then panic "freevm: no pgdir" else
  deallocuvm pgdir KERNBASE 0;;
  mfor (seqZ 0 NPDENTRIES) (λ i,
    e ← load (pgdir + 4 * i);
    when (negb (Z.land e PTE_P =? 0)) (kfree (P2V (PTE_ADDR e))));;
  kfree pgdir.

(** [struct kmap] and the table [kmap]: the kernel's mappings. *)
Record kmap_entry : Type := MkKmap { km_virt : Z; km_phys_start : Z; km_phys_end : Z; km_perm : Z }.
Definition kmap (data : Z) : list kmap_entry :=
  [ MkKmap KERNBASE 0 EXTMEM PTE_W;
    MkKmap KERNLINK (V2P KERNLINK) (V2P data) 0;
    MkKmap data (V2P data) PHYSTOP PTE_W;
    MkKmap DEVSPACE DEVSPACE 0 PTE_W ].

Fixpoint setupkvm_loop (pgdir : Z) (l : list kmap_entry) : K memst Z :=
  match l with
  | [] => mret pgdir
  | k :: l =>
      r ← mappages pgdir (km_virt k) (u32 (km_phys_end k - km_phys_start k)) (km_phys_start k) (km_perm k);
      if r <? 0 then freevm pgdir;; mret 0 else setupkvm_loop pgdir l
  end.

Definition setupkvm : K memst Z :=
  pgdir ← kalloc;
  if pgdir =? 0 then mret 0 else
  kmemset pgdir 0 PGSIZE;;
  if DEVSPACE <? P2V PHYSTOP then panic "PHYSTOP too high" else
  s ← getc;
  setupkvm_loop pgdir (kmap (m_data s)).

Definition kvmalloc : K memst unit :=
  pgdir ← setupkvm;
  modc (set_m_kpgdir pgdir);;
  switchkvm.

(** [init] is the code to load, [sz] bytes. The result of [kalloc] is not
    tested: the store through a null pointer faults. *)
Definition inituvm (pgdir : Z) (init : list Z) (sz : Z) : K memst unit :=
  if PGSIZE <=? sz then panic "inituvm: more than a page" else
  mem ← kalloc;
  if mem =? 0 then fault "inituvm: null page" else
  kmemset mem 0 PGSIZE;;
  mappages pgdir 0 PGSIZE (V2P mem) (Z.lor PTE_W PTE_U);;
  kwrite mem (take (Z.to_nat sz) init).

(** The loop of [allocuvm] from [a]. *)
Fixpoint allocuvm_loop (fuel : nat) (pgdir a oldsz newsz : Z) : K memst Z :=
  if negb (a <? newsz) then mret newsz else
  match fuel with
  | O => fault "allocuvm: loop"
  | S fuel =>
      mem ← kalloc;
      if mem =? 0 then
        cprintf (chars "allocuvm out of memory" ++ [10]) [];;
        deallocuvm pgdir newsz oldsz;;
        mret 0
      else
        kmemset mem 0 PGSIZE;;
        r ← mappages pgdir a PGSIZE (V2P mem) (Z.lor PTE_W PTE_U);
        if r <? 0 then
          cprintf (chars "allocuvm out of memory (2)" ++ [10]) [];;
          deallocuvm pgdir newsz oldsz;;
          kfree mem;;
          mret 0
        else allocuvm_loop fuel pgdir (u32 (a + PGSIZE)) oldsz newsz
  end.

Definition allocuvm (pgdir oldsz newsz : Z) : K memst Z :=
  if KERNBASE <=? newsz then mret 0 else
  if newsz <? oldsz then mret oldsz else
  let a := PGROUNDUP oldsz in
  allocuvm_loop (Z.to_nat ((newsz - a) / PGSIZE + 1)) pgdir a oldsz newsz.

Definition clearpteu (pgdir uva : Z) : K memst unit :=
  pte ← walkpgdir pgdir uva false;
  if pte =? 0 then panic "clearpteu" else
  e ← load pte;
  store pte (Z.land e (Z.lnot PTE_U)).

(** The loop of [copyuvm] from [i]; [bad:] frees the new table. *)
Fixpoint copyuvm_loop (fuel : nat) (pgdir d i sz : Z) : K memst Z :=
  if negb (i <? sz) then mret d else
  match fuel with
  | O => fault "copyuvm: loop"
  | S fuel =>
      pte ← walkpgdir pgdir i false;
      if pte =? 0 then panic "copyuvm: pte should exist" else
      e ← load pte;
      if Z.land e PTE_P =? 0 then panic "copyuvm: page not present" else
      let pa := PTE_ADDR e in
      let flags := PTE_FLAGS e in
      mem ← kalloc;
      if mem =? 0 then freevm d;; mret 0 else
      kmemmove mem (P2V pa) PGSIZE;;
      r ← mappages d i PGSIZE (V2P mem) flags;
      if r <? 0 then kfree mem;; freevm d;; mret 0 else
      copyuvm_loop fuel pgdir d (u32 (i + PGSIZE)) sz
  end.

Definition copyuvm (pgdir sz : Z) : K memst Z :=
  d ← setupkvm;
  if d =? 0 then mret 0 else
  copyuvm_loop (Z.to_nat (sz / PGSIZE + 1)) pgdir d 0 sz.

(** [*pte] of a null [pte] is a fault of the model. *)
Definition uva2ka (pgdir uva : Z) : K memst Z :=
  pte ← walkpgdir pgdir uva false;
  if pte =? 0 then fault "uva2ka: null pte" else
  e ← load pte;
  if Z.land e PTE_P =? 0 then mret 0 else
  if Z.land e PTE_U =? 0 then mret 0 else
  mret (P2V (PTE_ADDR e)).

(** The loop of [copyout]: [src] are the bytes that are left. *)
Fixpoint copyout_loop (fuel : nat) (pgdir va : Z) (src : list Z) : K memst Z :=
  if Z.of_nat (length src) <=? 0 then mret 0 else
  match fuel with
  | O => fault "copyout: loop"
  | S fuel =>
      let va0 := PGROUNDDOWN va in
      pa0 ← uva2ka pgdir va0;
      if pa0 =? 0 then mret (-1) else
      let n := PGSIZE - (va - va0) in
      let n := if Z.of_nat (length src) <? n then Z.of_nat (length src) else n in
      kwrite (pa0 + (va - va0)) (take (Z.to_nat n) src);;
      copyout_loop fuel pgdir (u32 (va0 + PGSIZE)) (drop (Z.to_nat n) src)
  end.

(** [src]: the [len] bytes at [p]. *)
Definition copyout (pgdir va : Z) (src : list Z) : K memst Z :=
  copyout_loop (length src) pgdir va src.

(** ** Page tables as maps

    [T] gives, for the present entries of the page directory, the kernel
    address of the page table; [pte] is the entry of virtual page [v] (0 where there
    is no page table). *)

Definition pte (m : memory) (T : gmap Z Z) (v : Z) : Z :=
  match T !! (v / 1024) with
  | Some t => ld32 m (t + 4 * (v mod 1024))
  | None => 0
  end.

Record pt_ok (s : memst) (l : list Z) (pgdir : Z) (T : gmap Z Z) : Prop := {
  pt_inv : kmem_inv s l;
  pt_dir : page_ok s pgdir ∧ (pgdir ∉ l);
  pt_tab : ∀ i t, T !! i = Some t → 0 ≤ i < 1024 ∧ page_ok s t ∧ (t ∉ l) ∧ t ≠ pgdir;
  pt_inj : ∀ i j t, T !! i = Some t → T !! j = Some t → i = j;
  pt_pde : ∀ i, 0 ≤ i < 1024 →
    match T !! i with
    | Some t => ld32 (m_mem s) (pgdir + 4 * i) = V2P t + 7
    | None => Z.land (ld32 (m_mem s) (pgdir + 4 * i)) PTE_P = 0
    end
}.

(** Memory changes only in the pages [Q]. *)
Definition only_pages (Q : Z → Prop) (m m' : memory) : Prop :=
  ∀ a b, a mod PGSIZE = 0 → ¬ Q a → a ≤ b < a + PGSIZE → ld8 m' b = ld8 m b.

(** The two states differ in their memory and free list only. *)
Definition same_kernel (s s' : memst) : Prop :=
  m_use_lock s' = m_use_lock s ∧ m_end s' = m_end s ∧ m_data s' = m_data s ∧
  m_cpus s' = m_cpus s ∧ m_kpgdir s' = m_kpgdir s.

(** ** Lemmas *)

Lemma PDX_vpn va : 0 ≤ va < 2 ^ 32 → PDX va = va / PGSIZE / 1024.
Proof.
  intros Hva. unfold PDX, PDXSHIFT. change 0x3FF with (Z.ones 10). rewrite -> Z.land_ones, Z.shiftr_div_pow2 by lia.
  unfold PGSIZE. rewrite -> Z.div_div by lia. apply Z.mod_small.
  split; [apply Z.div_pos; lia|apply Z.div_lt_upper_bound; lia].
Qed.

Lemma PTX_vpn va : PTX va = (va / PGSIZE) mod 1024.
Proof.
  unfold PTX, PTXSHIFT. change 0x3FF with (Z.ones 10). by rewrite -> Z.land_ones, Z.shiftr_div_pow2 by lia.
Qed.

Lemma PTE_ADDR_page e : PTE_ADDR e = e / PGSIZE * PGSIZE.
Proof. exact (land_lnot_ones e 12 ltac:(lia)). Qed.

Lemma land_PTE_P e : Z.land e PTE_P = e mod 2.
Proof. exact (Z.land_ones e 1 ltac:(lia)). Qed.

(** Disjoint bits add. *)
Lemma lor_low a b : a mod PGSIZE = 0 → 0 ≤ b < PGSIZE → Z.lor a b = a + b.
Proof.
  unfold PGSIZE. intros Ha Hb. assert (Z.land a b = 0) as H0.
  { apply Z.bits_inj'. intros n Hn. rewrite -> Z.land_spec, Z.bits_0. apply andb_false_iff.
    destruct (decide (n < 12)).
    - left. replace a with (a / 4096 * 2 ^ 12) by (pose proof (Z.div_mod a 4096); lia).
      apply Z.mul_pow2_bits_low. lia.
    - right. apply Z.bits_above_log2; [lia|]. destruct (decide (b = 0)) as [->|]; [cbn; lia|].
      apply Z.log2_lt_pow2; [lia|]. assert (2 ^ 12 ≤ 2 ^ n) by (apply Z.pow_le_mono_r; lia). lia. }
  rewrite -> Z.add_nocarry_lxor, Z.lxor_lor by done. done.
Qed.

Lemma table_addr s t : page_ok s t → KERNBASE < m_end s →
  t mod PGSIZE = 0 ∧ V2P t = t - KERNBASE ∧ V2P t mod PGSIZE = 0 ∧ 0 ≤ V2P t < PHYSTOP ∧ P2V (V2P t) = t.
Proof.
  intros [Hm Hr] He. assert (V2P t = t - KERNBASE) as E by (apply V2P_range; lia). rw E.
  split_and!; [done|done| |lia..|].
  - unfold KERNBASE, PGSIZE in *. dlia.
  - unfold P2V. rewrite -> wrapu_small; [lia|]. klia.
Qed.

Lemma pde_addr s t k : page_ok s t → KERNBASE < m_end s → 0 ≤ k < PGSIZE → P2V (PTE_ADDR (V2P t + k)) = t.
Proof.
  intros Ht He Hk. destruct (table_addr s t Ht He) as (_ & _ & Hm & _ & E). rw PTE_ADDR_page -{2}E. f_equal.
  unfold PGSIZE in *. dlia.
Qed.

(** *** Frames *)

Lemma ld32_page Q m m' a k :
  only_pages Q m m' → a mod PGSIZE = 0 → ¬ Q a → 0 ≤ k ≤ PGSIZE - 4 → ld32 m' (a + k) = ld32 m (a + k).
Proof. intros HQ Ha Hn Hk. unfold ld32. rewrite -> !(HQ a) by (unfold PGSIZE in *; first [done|lia]). done. Qed.

Lemma kmem_inv_frame Q s m' l :
  kmem_inv s l → only_pages Q (m_mem s) m' → (∀ a, a ∈ l → ¬ Q a) → wf_mem m' →
  kmem_inv (set_m_mem m' s) l.
Proof.
  intros [Hl Hn Hp Hw He] HQ Hd Hw'. split; try done. cbn. eapply linked_frame; [|done].
  intros a Ha. rewrite -> Forall_forall in Hp. destruct (Hp a Ha) as [Hm _].
  pose proof (ld32_page Q _ _ a 0 HQ Hm (Hd a Ha)) as E. rewrite -> Z.add_0_r in E. apply E. unfold PGSIZE. lia.
Qed.

Lemma only_pages_st32 m a v t : t mod PGSIZE = 0 → t ≤ a → a + 4 ≤ t + PGSIZE →
  only_pages (λ p, p = t) m (st32 m a v).
Proof.
  intros Ht H1 H2 p b Hp Hne Hb. pose proof (page_disjoint p t Hp Ht Hne). apply ld8_st32_ne. lia.
Qed.

Lemma only_pages_memset m t c : t mod PGSIZE = 0 → only_pages (λ p, p = t) m (memset m t c PGSIZE).
Proof.
  intros Ht p b Hp Hne Hb. pose proof (page_disjoint p t Hp Ht Hne).
  rewrite -> ld8_memset by (unfold PGSIZE; lia). by rewrite -> decide_False by lia.
Qed.

Lemma only_pages_trans (Q1 Q2 : Z → Prop) m1 m2 m3 :
  only_pages Q1 m1 m2 → only_pages Q2 m2 m3 → only_pages (λ p, Q1 p ∨ Q2 p) m1 m3.
Proof. intros H1 H2 p b Hp Hn Hb. rewrite -> (H2 p b), (H1 p b); tauto. Qed.

Lemma only_pages_mono (Q1 Q2 : Z → Prop) m m' :
  only_pages Q1 m m' → (∀ p, Q1 p → Q2 p) → only_pages Q2 m m'.
Proof. intros H HQ p b Hp Hn Hb. apply (H p b); auto. Qed.

Lemma only_pages_refl Q m : only_pages Q m m.
Proof. by intros p b. Qed.

(** *** [walkpgdir] *)

Section walk.
Implicit Types (h : hw) (s : memst) (l : list Z) (T : gmap Z Z).

Lemma walk_present h s l pgdir T va t alloc :
  pt_ok s l pgdir T → 0 ≤ va < 2 ^ 32 → T !! (va / PGSIZE / 1024) = Some t →
  walkpgdir pgdir va alloc (h, s) = Ok (t + 4 * ((va / PGSIZE) mod 1024)) (h, s).
Proof.
  intros [HI Hd Ht _ Hp] Hva HT. destruct (Ht _ _ HT) as (Hi & Hto & _ & _).
  specialize (Hp _ Hi). rw HT in Hp. destruct (table_addr s t Hto (ki_end _ _ HI)) as (_ & _ & Hm & _).
  unfold walkpgdir. rewrite -> PDX_vpn by done. rw bind_run /= Hp PTX_vpn land_PTE_P.
  assert ((V2P t + 7) mod 2 = 1) as -> by (unfold PGSIZE in Hm; dlia). cbn [Z.eqb negb].
  rewrite -> (pde_addr s); [done..|apply (ki_end _ _ HI)|unfold PGSIZE; lia].
Qed.

Lemma walk_absent h s l pgdir T va :
  pt_ok s l pgdir T → 0 ≤ va < 2 ^ 32 → T !! (va / PGSIZE / 1024) = None →
  walkpgdir pgdir va false (h, s) = Ok 0 (h, s).
Proof.
  intros [HI Hd Ht _ Hp] Hva HT. specialize (Hp (va / PGSIZE / 1024)). rw HT in Hp.
  unfold walkpgdir. rewrite -> PDX_vpn by done. rw bind_run /= Hp //. unfold PGSIZE in *. dlia.
Qed.

(** A page table is added: it has no entries, so no page changes. *)
Lemma walk_alloc h s l pgdir T va :
  pt_ok s l pgdir T → kmem_ready h → 0 ≤ va < 2 ^ 32 → T !! (va / PGSIZE / 1024) = None →
  match l with
  | [] => walkpgdir pgdir va true (h, s) = Ok 0 (cycle (m_use_lock s) h, s)
  | t :: l' => ∃ s', walkpgdir pgdir va true (h, s)
        = Ok (t + 4 * ((va / PGSIZE) mod 1024)) (cycle (m_use_lock s) h, s') ∧
      pt_ok s' l' pgdir (<[va / PGSIZE / 1024 := t]> T) ∧ same_kernel s s' ∧
      only_pages (λ p, p = t ∨ p = pgdir) (m_mem s) (m_mem s') ∧
      ∀ v, 0 ≤ v → pte (m_mem s') (<[va / PGSIZE / 1024 := t]> T) v = pte (m_mem s) T v
  end.
Proof.
  intros HP Hr Hva HT. pose proof HP as [HI [Hdo Hdl] Ht Hinj Hp].
  assert (0 ≤ va / PGSIZE / 1024 < 1024) as Hi by (unfold PGSIZE; dlia).
  pose proof (Hp _ Hi) as Hpi. rw HT in Hpi. set (i := va / PGSIZE / 1024) in *.
  unfold walkpgdir. rewrite -> PDX_vpn by done. fold i.
  rw (bind_ok _ _ _ (ld32 (m_mem s) (pgdir + 4 * i)) (h, s)) // Hpi. cbn [Z.eqb negb].
  rw (bind_ok _ _ _ _ _ (kalloc_run h s l Hr HI)). destruct l as [|t l']; [done|]. cbn [hd].
  pose proof (ki_pages _ _ HI) as [Hto Hpo]%Forall_cons. pose proof (ki_end _ _ HI) as He.
  pose proof (ki_nodup _ _ HI) as [Htl Hnl]%NoDup_cons.
  destruct (table_addr s t Hto He) as (Htm & _ & Hvm & Hvr & _).
  rewrite -> (proj2 (Z.eqb_neq t 0)) by (destruct Hto; klia).
  set (e := Z.lor (Z.lor (Z.lor (V2P t) PTE_P) PTE_W) PTE_U). set (m1 := memset (m_mem s) t 0 PGSIZE).
  set (m2 := st32 m1 (pgdir + 4 * i) e). set (s' := set_m_mem m2 (taken (t :: l') s)). exists s'.
  assert (e = V2P t + 7) as He7.
  { unfold e. rw -!Z.lor_assoc. change (Z.lor PTE_P (Z.lor PTE_W PTE_U)) with 7. apply lor_low; [done|unfold PGSIZE; lia]. }
  assert (t ≠ pgdir) as Hne by (intros ->; apply Hdl; left). destruct Hdo as [Hdm Hdr].
  assert (only_pages (λ p, p = t ∨ p = pgdir) (m_mem s) m2) as Hop.
  { eapply only_pages_trans; [by apply only_pages_memset|]. apply only_pages_st32; unfold PGSIZE in *; [done|lia..]. }
  assert (wf_mem m2) as Hw2 by (apply wf_st32, wf_memset; [apply (ki_wf _ _ HI)|unfold PGSIZE; lia]).
  split_and!; [by rw PTX_vpn|split|by split_and!|done|].
  - apply (kmem_inv_frame (λ p, p = t ∨ p = pgdir)); [by apply taken_inv|done| |done].
    intros a Ha [->| ->]; [done|]. apply Hdl. by right.
  - split; [by split|]. intros ?. apply Hdl. by right.
  - intros j u. rw lookup_insert. case_decide as Hj.
    + intros [= <-]. subst j. split; [done|split; [exact Hto|by split]].
    + intros (H1 & H2 & H3 & H4)%Ht. split; [done|split; [exact H2|split; [|done]]]. intros ?. apply H3. by right.
  - intros j k u. rw !lookup_insert. repeat case_decide; try congruence.
    + intros [= <-] (_ & _ & H3 & _)%Ht. destruct H3. left.
    + intros (_ & _ & H3 & _)%Ht [= <-]. destruct H3. left.
    + apply Hinj.
  - intros j Hj. rw lookup_insert. cbn [m_mem s' set_m_mem]. unfold m2. case_decide as Hij.
    + subst j. rw ld32_st32_eq He7. apply wrapu_small. klia.
    + rewrite -> ld32_st32_ne by lia. unfold m1.
      assert (ld32 (memset (m_mem s) t 0 PGSIZE) (pgdir + 4 * j) = ld32 (m_mem s) (pgdir + 4 * j)) as ->.
      { apply (ld32_page (λ p, p = t)); [by apply only_pages_memset|done|done|unfold PGSIZE; lia]. }
      exact (Hp j Hj).
  - intros v Hv. unfold pte. rw lookup_insert. case_decide as Hiv.
    + rw -Hiv HT. cbn [m_mem s' set_m_mem]. unfold m2.
      assert (0 ≤ v mod 1024 < 1024) by (apply Z.mod_pos_bound; lia).
      assert (ld32 (st32 m1 (pgdir + 4 * i) e) (t + 4 * (v mod 1024)) = ld32 m1 (t + 4 * (v mod 1024))) as ->.
      { apply (ld32_page (λ p, p = pgdir)); [apply only_pages_st32|done|done|]; unfold PGSIZE in *; try done; lia. }
      unfold m1, ld32. rewrite -> !ld8_memset by (unfold PGSIZE; lia). rewrite -> !decide_True by (unfold PGSIZE; lia). done.
    + destruct (T !! (v / 1024)) as [u|] eqn:Hu; [|done]. destruct (Ht _ _ Hu) as (_ & [Hum _] & H3 & H4).
      apply (ld32_page (λ p, p = t ∨ p = pgdir)); [done|done| |].
      * intros [->| ->]; [|done]. apply H3. left.
      * pose proof (Z.mod_pos_bound v 1024). unfold PGSIZE. lia.
Qed.

(** The entry of a mapped page. *)
Definition entry (pa perm : Z) : Z := u32 (Z.lor (Z.lor pa perm) PTE_P).

Lemma set_pte s l pgdir T v t e :
  pt_ok s l pgdir T → 0 ≤ v → T !! (v / 1024) = Some t →
  let m' := st32 (m_mem s) (t + 4 * (v mod 1024)) e in
  pt_ok (set_m_mem m' s) l pgdir T ∧ only_pages (λ p, p = t) (m_mem s) m' ∧
  ∀ w, 0 ≤ w → pte m' T w = if decide (w = v) then u32 e else pte (m_mem s) T w.
Proof.
  intros HP Hv HT m'. pose proof HP as [HI [Hdo Hdl] Ht Hinj Hp]. destruct (Ht _ _ HT) as (Hi & Hto & Htl & Htd).
  pose proof Hto as [Htm _]. pose proof Hdo as [Hdm _]. pose proof (Z.mod_pos_bound v 1024 ltac:(lia)) as Hv1.
  assert (only_pages (λ p, p = t) (m_mem s) m') as Hop.
  { apply only_pages_st32; unfold PGSIZE in *; [done|lia..]. }
  split_and!; [split|done|].
  - apply (kmem_inv_frame (λ p, p = t)); [done|done|by intros a Ha ->|]. apply wf_st32, (ki_wf _ _ HI).
  - by split.
  - exact Ht.
  - done.
  - intros j Hj. cbn [m_mem set_m_mem]. assert (ld32 m' (pgdir + 4 * j) = ld32 (m_mem s) (pgdir + 4 * j)) as ->.
    { apply (ld32_page (λ p, p = t)); [done|done|by intros ->|unfold PGSIZE; lia]. }
    exact (Hp j Hj).
  - intros w Hw. unfold pte. pose proof (Z.mod_pos_bound w 1024 ltac:(lia)) as Hw1. case_decide as Hwv.
    + subst w. rw HT. unfold m'. by rw ld32_st32_eq.
    + destruct (T !! (w / 1024)) as [u|] eqn:Hu; [|done]. destruct (decide (u = t)) as [->|Hut].
      * unfold m'. rewrite -> ld32_st32_ne; [done|]. pose proof (Hinj _ _ _ Hu HT) as Hdiv.
        pose proof (Z.div_mod w 1024). pose proof (Z.div_mod v 1024). lia.
      * destruct (Ht _ _ Hu) as (_ & [Hum _] & _). apply (ld32_page (λ p, p = t)); [done..|unfold PGSIZE; lia].
Qed.

(** One round of [mappages]: either there is no memory for a page table, or the
    page is mapped. *)
Lemma map_page h s l pgdir T a :
  pt_ok s l pgdir T → kmem_ready h → 0 ≤ a < 2 ^ 32 →
  (l = [] ∧ walkpgdir pgdir a true (h, s) = Ok 0 (cycle (m_use_lock s) h, s)) ∨
  ∃ h1 s1 used l1 T1 t, walkpgdir pgdir a true (h, s) = Ok (t + 4 * ((a / PGSIZE) mod 1024)) (h1, s1) ∧
    (h1 = h ∨ h1 = cycle (m_use_lock s) h) ∧ l = used ++ l1 ∧ (∀ p, p ∈ used → ∃ i, T1 !! i = Some p) ∧
    (∀ i p, T1 !! i = Some p → T !! i = Some p ∨ p ∈ used) ∧ pt_ok s1 l1 pgdir T1 ∧ T ⊆ T1 ∧ T1 !! (a / PGSIZE / 1024) = Some t ∧ same_kernel s s1 ∧
    only_pages (λ p, p = pgdir ∨ ∃ i, T1 !! i = Some p) (m_mem s) (m_mem s1) ∧
    (∀ v, 0 ≤ v → pte (m_mem s1) T1 v = pte (m_mem s) T v).
Proof.
  intros HP Hr Ha. destruct (T !! (a / PGSIZE / 1024)) as [t|] eqn:HT.
  - right. exists h, s, [], l, T, t. rewrite -> (walk_present h s l pgdir T a t true) by done.
    split_and!; try done; first [by left|by intros p ?%not_elem_of_nil|by intros i p ?; left|apply only_pages_refl].
  - pose proof (walk_alloc h s l pgdir T a HP Hr Ha HT) as Hw. destruct l as [|t l1]; [by left|].
    destruct Hw as (s1 & E & HP1 & Hk & Hop & Hpt). right. eexists _, s1, [t], l1, _, t.
    split_and!; [exact E|by right|done| | |exact HP1|by apply insert_subseteq|apply lookup_insert_eq|done| |done].
    + intros p ->%list_elem_of_singleton. eexists. apply lookup_insert_eq.
    + intros i p [[<- <-]|[_ ?]]%lookup_insert_Some; [right; by apply list_elem_of_singleton|by left].
    + eapply only_pages_mono; [exact Hop|]. intros p [->| ->]; [right|by left]. eexists. apply lookup_insert_eq.
Qed.
End walk.

(** ** [mappages] *)

(** From [s] to [s'], [k] pages from [a] were mapped to the frames from [pa];
    nothing else of the page table changed; pages of the free list became page
    tables, and only page tables were written. *)
Record mapped (pgdir a pa perm k : Z) (h : hw) (s : memst) (l : list Z) (T : gmap Z Z)
    (h' : hw) (s' : memst) (l' : list Z) (T' : gmap Z Z) : Prop := {
  mp_ok : pt_ok s' l' pgdir T';
  mp_hw : h' = h ∨ h' = cycle (m_use_lock s) h;
  mp_kernel : same_kernel s s';
  mp_tabs : T ⊆ T';
  mp_used : ∃ used, l = used ++ l' ∧ ∀ p, p ∈ used → ∃ i, T' !! i = Some p;
  mp_new : ∀ i p, T' !! i = Some p → T !! i = Some p ∨ p ∈ l;
  mp_only : only_pages (λ p, p = pgdir ∨ ∃ i, T' !! i = Some p) (m_mem s) (m_mem s');
  mp_pte : ∀ v, 0 ≤ v → pte (m_mem s') T' v =
    if decide (a / PGSIZE ≤ v < a / PGSIZE + k) then entry (pa + PGSIZE * (v - a / PGSIZE)) perm
    else pte (m_mem s) T v
}.

Lemma kmem_ready_hw b h h' : kmem_ready h → h' = h ∨ h' = cycle b h → kmem_ready h'.
Proof. intros Hr [->| ->]; [done|by apply kmem_ready_cycle]. Qed.

Lemma same_kernel_trans s1 s2 s3 : same_kernel s1 s2 → same_kernel s2 s3 → same_kernel s1 s3.
Proof. intros (?&?&?&?&?) (?&?&?&?&?). split_and!; congruence. Qed.

Section mappages.
Context (pgdir perm : Z).

(** A round followed by the rest. *)
Lemma mapped_cons h s l T a pa h1 s1 l1 T1 t k used h2 s2 l2 T2 :
  a mod PGSIZE = 0 → 0 ≤ a → 0 ≤ k →
  (h1 = h ∨ h1 = cycle (m_use_lock s) h) → l = used ++ l1 → (∀ p, p ∈ used → ∃ i, T1 !! i = Some p) →
  (∀ i p, T1 !! i = Some p → T !! i = Some p ∨ p ∈ used) → T ⊆ T1 → same_kernel s s1 → T1 !! (a / PGSIZE / 1024) = Some t → pt_ok s1 l1 pgdir T1 →
  only_pages (λ p, p = pgdir ∨ ∃ i, T1 !! i = Some p) (m_mem s) (m_mem s1) →
  (∀ v, 0 ≤ v → pte (m_mem s1) T1 v = pte (m_mem s) T v) →
  let m1 := st32 (m_mem s1) (t + 4 * ((a / PGSIZE) mod 1024)) (Z.lor (Z.lor pa perm) PTE_P) in
  mapped pgdir (a + PGSIZE) (pa + PGSIZE) perm k h1 (set_m_mem m1 s1) l1 T1 h2 s2 l2 T2 →
  mapped pgdir a pa perm (k + 1) h s l T h2 s2 l2 T2.
Proof.
  intros Ha Ha0 Hk Hh -> Hu Hnw HT Hks Ht HP1 Hop Hpt m1 [M1 M2 M3 M4 (used' & -> & M5) M5' M6 M7].
  destruct (set_pte s1 (used' ++ l2) pgdir T1 (a / PGSIZE) t (Z.lor (Z.lor pa perm) PTE_P) HP1 ltac:(apply Z.div_pos; [lia|done]) Ht)
    as (_ & Hop1 & Hpt1). fold m1 in Hop1, Hpt1.
  assert (∀ p i, T1 !! i = Some p → ∃ i, T2 !! i = Some p) as HT2.
  { intros p i Hi. exists i. by apply (lookup_weaken T1 T2). }
  assert ((a + PGSIZE) / PGSIZE = a / PGSIZE + 1) as Ea by (unfold PGSIZE in *; dlia).
  split; try done.
  - destruct Hks as (Eu & _). cbn [m_use_lock set_m_mem] in M2. rewrite -> Eu in M2.
    destruct Hh as [->| ->], M2 as [->| ->]; try (by left); try (by right). right. apply cycle_cycle.
  - by eapply same_kernel_trans.
  - by etrans.
  - exists (used ++ used'). split; [by rw app_assoc|]. intros p [Hp|Hp]%elem_of_app; [|by apply M5].
    destruct (Hu p Hp) as [i Hi]. by eapply HT2.
  - intros i p Hi. apply M5' in Hi as [Hi|Hi]; [|right; apply elem_of_app; by right].
    apply Hnw in Hi as [?|?]; [by left|right; apply elem_of_app; by left].
  - eapply only_pages_mono; [eapply only_pages_trans; [eapply only_pages_trans; [exact Hop|exact Hop1]|exact M6]|].
    intros p [[[->|[i Hi]]| ->]|Hp]; [by left|right; by eapply HT2|right; by eapply HT2|done].
  - intros v Hv. rewrite -> (M7 v Hv). cbn [m_mem set_m_mem]. rewrite -> (Hpt1 v Hv), (Hpt v Hv), Ea.
    repeat case_decide; try lia; [f_equal; lia|]. unfold entry. subst v. do 4 f_equal. lia.
Qed.

Lemma mapped_nil h h' s l T a pa :
  pt_ok s l pgdir T → h' = h ∨ h' = cycle (m_use_lock s) h → mapped pgdir a pa perm 0 h s l T h' s l T.
Proof.
  intros HP Hh. split; try done; [exists []; split; [done|]; by intros p ?%not_elem_of_nil|by left|].
  intros v Hv. rewrite -> decide_False by lia. done.
Qed.

Lemma mappages_loop_run n : ∀ h s l T a pa last,
  pt_ok s l pgdir T → kmem_ready h → a mod PGSIZE = 0 → 0 ≤ a → last = a + PGSIZE * (Z.of_nat n - 1) →
  last < 2 ^ 32 → (1 ≤ n)%nat → 0 ≤ pa → pa + PGSIZE * (Z.of_nat n - 1) < 2 ^ 32 →
  (∀ v, a / PGSIZE ≤ v < a / PGSIZE + Z.of_nat n → pte (m_mem s) T v mod 2 = 0) →
  ∃ r k h' s' l' T', mappages_loop n pgdir a last pa perm (h, s) = Ok r (h', s') ∧
    (r = 0 ∧ k = Z.of_nat n ∨ r = -1 ∧ 0 ≤ k < Z.of_nat n ∧ l' = []) ∧
    mapped pgdir a pa perm k h s l T h' s' l' T'.
Proof.
  induction n as [|n IH]; intros h s l T a pa last HP Hr Ha Ha0 El Hlast Hn Hpa Hpl Hfree; [lia|].
  assert (a < 2 ^ 32) as Ha32 by (unfold PGSIZE in *; lia). cbn [mappages_loop].
  assert (0 ≤ a / PGSIZE) as Hv0 by (apply Z.div_pos; [lia|done]).
  destruct (map_page h s l pgdir T a HP Hr ltac:(lia))
    as [[-> E]|(h1 & s1 & used & l1 & T1 & t & E & Hh & Hl & Hu & Hnw & HP1 & HT & Ht & Hks & Hop & Hpt)].
  { exists (-1), 0, (cycle (m_use_lock s) h), s, [], T. rw (bind_ok _ _ _ _ _ E). split_and!; [done|right; split_and!; [done|lia|lia|done]|].
    apply mapped_nil; [done|by right]. }
  rw (bind_ok _ _ _ _ _ E). destruct (pt_tab _ _ _ _ HP1 _ _ Ht) as (_ & Hto & _).
  pose proof (Z.mod_pos_bound (a / PGSIZE) 1024 ltac:(lia)) as Hmod.
  rewrite -> (proj2 (Z.eqb_neq _ 0)) by (pose proof (ki_end _ _ (pt_inv _ _ _ _ HP1)); destruct Hto; klia).
  set (pa1 := t + 4 * ((a / PGSIZE) mod 1024)).
  rw (bind_ok _ _ _ (ld32 (m_mem s1) pa1) (h1, s1)) //. rw land_PTE_P.
  assert (ld32 (m_mem s1) pa1 = pte (m_mem s) T (a / PGSIZE)) as Ee.
  { rw -(Hpt (a / PGSIZE) Hv0). unfold pte. by rw Ht. }
  rewrite -> Ee, Hfree by lia. cbn [Z.eqb negb].
  set (m1 := st32 (m_mem s1) pa1 (Z.lor (Z.lor pa perm) PTE_P)). set (s2 := set_m_mem m1 s1).
  rw (bind_ok _ _ _ tt (h1, s2)) //.
  destruct (set_pte s1 l1 pgdir T1 (a / PGSIZE) t (Z.lor (Z.lor pa perm) PTE_P) HP1 Hv0 Ht) as (HP2 & _ & Hpt2).
  fold pa1 in HP2, Hpt2. fold m1 in HP2, Hpt2. fold s2 in HP2.
  pose proof (mapped_cons h s l T a pa h1 s1 l1 T1 t) as Hcons.
  destruct n as [|n].
  - rewrite -> (proj2 (Z.eqb_eq a last)) by lia. exists 0, 1, h1, s2, l1, T1. split_and!; [done|left; done|].
    apply (Hcons 0 used); try done. apply mapped_nil; [done|by left].
  - rewrite -> (proj2 (Z.eqb_neq a last)) by (unfold PGSIZE in *; lia).
    rewrite -> (wrapu_small 32 (a + PGSIZE)), (wrapu_small 32 (pa + PGSIZE)) by (unfold PGSIZE in *; lia).
    assert ((a + PGSIZE) / PGSIZE = a / PGSIZE + 1) as Ea by (unfold PGSIZE in *; dlia).
    destruct (IH h1 s2 l1 T1 (a + PGSIZE) (pa + PGSIZE) last) as (r & k & h' & s' & l' & T' & E' & Hk & HM);
      try done; try (unfold PGSIZE in *; lia).
    + by eapply kmem_ready_hw.
    + unfold PGSIZE in *. dlia.
    + intros v Hv. rewrite -> Ea in Hv. change (m_mem s2) with m1. rewrite -> Hpt2, Hpt, decide_False by lia. apply Hfree. lia.
    + exists r, (k + 1), h', s', l', T'. split_and!; [done| |].
      * destruct Hk as [[-> ->]|(-> & ? & ->)]; [left|right]; split_and!; done || lia.
      * apply (Hcons k used); try done. destruct Hk as [[_ ->]|(_ & ? & _)]; lia.
Qed.
End mappages.

(** ** User memory

    The frame of user page [v], and the byte a user process reads at [va]. *)

Definition upage (m : memory) (T : gmap Z Z) (v : Z) : option Z :=
  let e := pte m T v in
  if (Z.land e PTE_P =? 0) || (Z.land e PTE_U =? 0) then None else Some (P2V (PTE_ADDR e)).

Definition uread (m : memory) (T : gmap Z Z) (va : Z) : option Z :=
  (λ f, ld8 m (f + va mod PGSIZE)) <$> upage m T (va / PGSIZE).

(** The frames of the user pages are pages of the allocator's range, in use, no
    page tables, and no two pages share one. *)
Record frames_ok (s : memst) (l : list Z) (pgdir : Z) (T : gmap Z Z) : Prop := {
  fr_page : ∀ v f, 0 ≤ v → upage (m_mem s) T v = Some f →
    page_ok s f ∧ (f ∉ l) ∧ f ≠ pgdir ∧ ∀ i, T !! i ≠ Some f;
  fr_inj : ∀ v w f, 0 ≤ v → 0 ≤ w → upage (m_mem s) T v = Some f → upage (m_mem s) T w = Some f → v = w
}.

Section frames.
Implicit Types (m : memory) (T : gmap Z Z) (l : list Z).

Lemma ld8_write_bytes bs : ∀ m a b,
  ld8 (write_bytes m a bs) b =
    if decide (a ≤ b < a + Z.of_nat (length bs)) then u8 (nth (Z.to_nat (b - a)) bs 0) else ld8 m b.
Proof.
  induction bs as [|x bs IH]; intros m a b; cbn [write_bytes length nth].
  - by rewrite -> decide_False by lia.
  - rw IH ld8_st8. repeat case_decide; try lia; try done.
    + replace (Z.to_nat (b - a)) with (S (Z.to_nat (b - (a + 1)))) by lia. done.
    + subst b. by rewrite -> Z.sub_diag.
Qed.

Lemma wf_write_bytes bs : ∀ m a, wf_mem m → wf_mem (write_bytes m a bs).
Proof. induction bs as [|x bs IH]; intros m a Hm; cbn; [done|]. by apply IH, wf_st8. Qed.

Lemma pte_frame Q m m' T v :
  only_pages Q m m' → (∀ i t, T !! i = Some t → t mod PGSIZE = 0 ∧ ¬ Q t) → pte m' T v = pte m T v.
Proof.
  intros HQ HT. unfold pte. destruct (T !! _) as [t|] eqn:Ht; [|done]. destruct (HT _ _ Ht).
  apply (ld32_page Q); [done..|]. pose proof (Z.mod_pos_bound v 1024). unfold PGSIZE. lia.
Qed.

Lemma pt_ok_frame Q s l pgdir T m' :
  pt_ok s l pgdir T → only_pages Q (m_mem s) m' → wf_mem m' → ¬ Q pgdir → (∀ a, a ∈ l → ¬ Q a) →
  (∀ i t, T !! i = Some t → ¬ Q t) →
  pt_ok (set_m_mem m' s) l pgdir T ∧ ∀ v, pte m' T v = pte (m_mem s) T v.
Proof.
  intros [HI [Hdo Hdl] Ht Hinj Hp] HQ Hw Hd Hl HT. split; [split|].
  - by apply (kmem_inv_frame Q).
  - by split.
  - exact Ht.
  - done.
  - intros j Hj. cbn [m_mem set_m_mem]. rewrite -> (ld32_page Q (m_mem s) m' pgdir (4 * j)); [exact (Hp j Hj)|done| |done|unfold PGSIZE; lia].
    apply Hdo.
  - intros v. apply (pte_frame Q); [done|]. intros i t Hi. split; [|by eapply HT]. apply (Ht i t Hi).
Qed.

Lemma upage_pte m m' T v : pte m' T v = pte m T v → upage m' T v = upage m T v.
Proof. intros E. unfold upage. by rw E. Qed.

Lemma uva2ka_run h s l pgdir T va :
  pt_ok s l pgdir T → 0 ≤ va < 2 ^ 32 → is_Some (T !! (va / PGSIZE / 1024)) →
  uva2ka pgdir va (h, s) = Ok (default 0 (upage (m_mem s) T (va / PGSIZE))) (h, s).
Proof.
  intros HP Hva [t Ht]. unfold uva2ka. rw (bind_ok _ _ _ _ _ (walk_present h s l pgdir T va t false HP Hva Ht)).
  destruct (pt_tab _ _ _ _ HP _ _ Ht) as (_ & Hto & _).
  pose proof (Z.mod_pos_bound (va / PGSIZE) 1024 ltac:(lia)) as Hmod.
  rewrite -> (proj2 (Z.eqb_neq _ 0)) by (pose proof (ki_end _ _ (pt_inv _ _ _ _ HP)); destruct Hto; klia).
  rw bind_run. cbn [load gets snd]. unfold upage, pte. rw Ht. by repeat case_bool.
Qed.

(** Bytes written into the frame [f] of page [v]. *)
Lemma frame_write s l pgdir T v f off bs :
  pt_ok s l pgdir T → frames_ok s l pgdir T → 0 ≤ v → upage (m_mem s) T v = Some f → 0 ≤ off →
  off + Z.of_nat (length bs) ≤ PGSIZE →
  let m' := write_bytes (m_mem s) (f + off) bs in
  pt_ok (set_m_mem m' s) l pgdir T ∧ frames_ok (set_m_mem m' s) l pgdir T ∧
  only_pages (λ p, p = f) (m_mem s) m' ∧ (∀ w, upage m' T w = upage (m_mem s) T w) ∧
  ∀ b, 0 ≤ b → uread m' T b =
    if decide (v * PGSIZE + off ≤ b < v * PGSIZE + off + Z.of_nat (length bs))
    then Some (u8 (nth (Z.to_nat (b - (v * PGSIZE + off))) bs 0)) else uread (m_mem s) T b.
Proof.
  intros HP HF Hv Hf Hoff Hlen m'. destruct (fr_page _ _ _ _ HF v f Hv Hf) as ([Hfm Hfr] & Hfl & Hfd & HfT).
  assert (only_pages (λ p, p = f) (m_mem s) m') as Hop.
  { intros p b Hp Hne Hb. pose proof (page_disjoint p f Hp Hfm Hne). unfold m'. rw ld8_write_bytes. by rewrite -> decide_False by lia. }
  destruct (pt_ok_frame (λ p, p = f) s l pgdir T m') as [HP' Hpte]; [done|done| |by intros ->|by intros a Ha ->|by intros i t Hi ->; destruct (HfT i)|].
  { apply wf_write_bytes, (ki_wf _ _ (pt_inv _ _ _ _ HP)). }
  assert (∀ w, upage m' T w = upage (m_mem s) T w) as Hup by (intros w; apply upage_pte, Hpte).
  split_and!; [done| |done|done|].
  - destruct HF as [F1 F2]. split; cbn [m_mem set_m_mem].
    + intros w g Hw. rw Hup. apply (F1 w g Hw).
    + intros w w' g Hw Hw'. rw !Hup. by apply F2.
  - intros b Hb. unfold uread. rw Hup. pose proof (Z.div_mod b PGSIZE ltac:(done)) as Hdm.
    pose proof (Z.mod_pos_bound b PGSIZE ltac:(done)) as Hbm. destruct (decide (b / PGSIZE = v)) as [Ev|Ev].
    + rw Ev Hf. cbn. unfold m'. rw ld8_write_bytes. repeat case_decide; try lia; [|done]. do 4 f_equal. lia.
    + rewrite -> decide_False.
      * destruct (upage (m_mem s) T (b / PGSIZE)) as [g|] eqn:Eg; [|done]. cbn. f_equal.
        assert (g ≠ f) as Hgf. { intros ->. apply Ev. eapply (fr_inj _ _ _ _ HF); [|done|done|done]. apply Z.div_pos; [done|done]. }
        destruct (fr_page _ _ _ _ HF (b / PGSIZE) g ltac:(apply Z.div_pos; done) Eg) as ([Hgm _] & _).
        apply (Hop g); [done|done|lia].
      * intros Hr. apply Ev. assert (v * PGSIZE ≤ b < v * PGSIZE + PGSIZE) by lia. unfold PGSIZE in *. dlia.
Qed.
End frames.

(** ** [copyout] *)

Section copyout.
Context (h : hw) (l : list Z) (pgdir : Z) (T : gmap Z Z).

Lemma upage_table m v f : upage m T v = Some f → is_Some (T !! (v / 1024)).
Proof. unfold upage, pte. by destruct (T !! (v / 1024)); [eexists|]. Qed.

Lemma upage_nonzero s v f : frames_ok s l pgdir T → pt_ok s l pgdir T → 0 ≤ v → upage (m_mem s) T v = Some f → f ≠ 0.
Proof.
  intros HF HP Hv Hf. destruct (fr_page _ _ _ _ HF v f Hv Hf) as ([_ ?] & _).
  pose proof (ki_end _ _ (pt_inv _ _ _ _ HP)). klia.
Qed.

(** Bytes [src] copied to [va]: the user memory [s'] against [s]. *)
Definition copied (va : Z) (src : list Z) (s s' : memst) : Prop :=
  pt_ok s' l pgdir T ∧ frames_ok s' l pgdir T ∧ same_kernel s s' ∧
  (∀ w, upage (m_mem s') T w = upage (m_mem s) T w) ∧
  ∀ b, 0 ≤ b → uread (m_mem s') T b =
    if decide (va ≤ b < va + Z.of_nat (length src)) then Some (u8 (nth (Z.to_nat (b - va)) src 0))
    else uread (m_mem s) T b.

Lemma copied_nil va s : pt_ok s l pgdir T → frames_ok s l pgdir T → copied va [] s s.
Proof.
  intros HP HF. split; [done|split; [done|split; [by split_and!|split; [done|]]]].
  intros b Hb. cbn [length]. by rewrite -> decide_False by lia.
Qed.

Lemma copied_app va a a' s s1 s2 :
  copied va a s s1 → copied (va + Z.of_nat (length a)) a' s1 s2 → copied va (a ++ a') s s2.
Proof.
  intros (_ & _ & (K1 & K2 & K3 & K4 & K5) & U1 & R1) (P2 & F2 & (L1 & L2 & L3 & L4 & L5) & U2 & R2).
  split; [done|split; [done|split; [split_and!; congruence|split]]].
  - intros w. by rw U2.
  - intros b Hb. rw (R2 b Hb) (R1 b Hb) length_app. repeat case_decide; try lia; try done; do 2 f_equal.
    + rewrite -> app_nth2 by lia. f_equal. lia.
    + by rewrite -> app_nth1 by lia.
Qed.

(** One round of the loop copies into one page. *)
Lemma copied_page va bs s v f :
  pt_ok s l pgdir T → frames_ok s l pgdir T → 0 ≤ v → upage (m_mem s) T v = Some f →
  v * PGSIZE ≤ va → va + Z.of_nat (length bs) ≤ v * PGSIZE + PGSIZE →
  copied va bs s (set_m_mem (write_bytes (m_mem s) (f + (va - v * PGSIZE)) bs) s).
Proof.
  intros HP HF Hv Hf H1 H2.
  destruct (frame_write s l pgdir T v f (va - v * PGSIZE) bs) as (HP1 & HF1 & _ & Hup1 & Hrd1); [done..|lia|lia|].
  split; [done|split; [done|split; [by split_and!|split; [done|]]]]. intros b Hb. cbn [m_mem set_m_mem].
  rw (Hrd1 b Hb). by replace (v * PGSIZE + (va - v * PGSIZE)) with va by lia.
Qed.

Lemma copyout_loop_nil fuel va st : copyout_loop fuel pgdir va [] st = Ok 0 st.
Proof. by destruct fuel. Qed.

(** The loop copies a first part [a] of the bytes, up to the end of the range or to
    the end of a page, into pages the user can access. *)
Lemma copyout_prefix fuel : ∀ s va a b,
  pt_ok s l pgdir T → frames_ok s l pgdir T → 0 ≤ va →
  va + Z.of_nat (length a) + Z.of_nat (length b) ≤ KERNBASE →
  (length a + length b ≤ fuel)%nat → a = [] ∨ b = [] ∨ (va + Z.of_nat (length a)) mod PGSIZE = 0 →
  (∀ v, va / PGSIZE ≤ v → v * PGSIZE < va + Z.of_nat (length a) → is_Some (upage (m_mem s) T v)) →
  ∃ s' fuel', copyout_loop fuel pgdir va (a ++ b) (h, s) =
      copyout_loop fuel' pgdir (va + Z.of_nat (length a)) b (h, s') ∧
    (length b ≤ fuel')%nat ∧ (a = [] → s' = s) ∧ copied va a s s'.
Proof.
  induction fuel as [|fuel IH]; intros s va a b HP HF Hva Hend Hfuel Hal Hmap.
  { destruct a; [|cbn in Hfuel; lia]. exists s, 0%nat. cbn [app length] in *. rw Z.add_0_r.
    split_and!; [done|lia|done|by apply copied_nil]. }
  destruct (decide (a = [])) as [->|Ha].
  { exists s, (S fuel). cbn [app length] in *. rw Z.add_0_r. split_and!; [done|lia|done|by apply copied_nil]. }
  destruct Hal as [?|Hal]; [done|].
  assert (0 < Z.of_nat (length a)) as Hla by (destruct a; [done|]; cbn; lia).
  cbn [copyout_loop]. rewrite -> length_app, (proj2 (Z.leb_gt _ _)) by lia.
  set (v := va / PGSIZE) in *. assert (0 ≤ v) as Hv by (apply Z.div_pos; [done|done]).
  rw PGROUNDDOWN_eq. fold v.
  assert (v * PGSIZE ≤ va < v * PGSIZE + PGSIZE) as Hr by (unfold v, PGSIZE; dlia).
  assert (v * PGSIZE / PGSIZE = v) as Ev by (apply Z.div_mul; done).
  destruct (Hmap v) as [f Hf]; [lia|lia|].
  assert (0 ≤ v * PGSIZE < 2 ^ 32) as H32 by (unfold KERNBASE in *; unfold PGSIZE in *; lia).
  assert (is_Some (T !! (v * PGSIZE / PGSIZE / 1024))) as HT by (rw Ev; by eapply upage_table).
  rw (bind_ok _ _ _ _ _ (uva2ka_run h s l pgdir T (v * PGSIZE) HP H32 HT)) Ev Hf. change (default 0 (Some f)) with f.
  rewrite -> (proj2 (Z.eqb_neq f 0)) by (by eapply upage_nonzero).
  set (n := if _ <? PGSIZE - (va - v * PGSIZE) then _ else _).
  set (r := PGSIZE - (va - v * PGSIZE)) in *.
  assert (n = Z.min (Z.of_nat (length a + length b)) r) as Hn by (unfold n; case_bool; lia).
  assert (r < Z.of_nat (length a) ∨ n = Z.of_nat (length a) ∧ (b ≠ [] → r = Z.of_nat (length a))) as Hcase.
  { destruct Hal as [->|Hal].
    - cbn [length] in Hn. destruct (decide (r < Z.of_nat (length a))); [by left|]. right. split; [lia|done].
    - assert (r < Z.of_nat (length a) ∨ r = Z.of_nat (length a)) as [?|Er]; [|by left|right; split; [lia|done]].
      unfold r. clear -Hal Hr Hla. unfold PGSIZE in *. dlia. }
  assert (∀ x : hw * memst, kwrite (f + (va - v * PGSIZE)) (take (Z.to_nat n) (a ++ b)) (h, s) =
    Ok tt (h, set_m_mem (write_bytes (m_mem s) (f + (va - v * PGSIZE)) (take (Z.to_nat n) (a ++ b))) s)) as Ew by done.
  rw (bind_ok _ _ _ _ _ (Ew (h, s))). clear Ew.
  destruct Hcase as [Hlt|[En Hb]].
  - assert (n = r) as Enr by lia. rewrite -> take_app_le, drop_app_le by lia.
    set (a1 := take (Z.to_nat n) a). assert (Z.of_nat (length a1) = n) as Hl1 by (unfold a1; rw length_take; lia).
    pose proof (copied_page va a1 s v f HP HF Hv Hf ltac:(lia) ltac:(lia)) as C1. set (s1 := set_m_mem _ s) in *.
    assert (v * PGSIZE + PGSIZE = va + n) as Enext by lia. rw Enext.
    rewrite -> (wrapu_small 32 (va + n)) by (unfold KERNBASE in *; lia).
    assert (Z.of_nat (length (drop (Z.to_nat n) a)) = Z.of_nat (length a) - n) as Hdl by (rw length_drop; lia).
    pose proof C1 as (HP1 & HF1 & _ & Hup1 & _).
    destruct (IH s1 (va + n) (drop (Z.to_nat n) a) b) as (s' & fuel' & E' & Hf' & _ & C2); try done; try lia.
    + right. replace (va + n + _) with (va + Z.of_nat (length a)) by lia. done.
    + intros w Hw1 Hw2. rw Hup1. apply Hmap; [|lia].
      rewrite <- Enext in Hw1. assert (v ≤ (v * PGSIZE + PGSIZE) / PGSIZE) by (unfold PGSIZE; dlia). lia.
    + exists s', fuel'. rw E' Hdl. replace (va + n + (Z.of_nat (length a) - n)) with (va + Z.of_nat (length a)) by lia.
      split_and!; [done..|]. rewrite <- (take_drop (Z.to_nat n) a). eapply copied_app; [exact C1|].
      fold a1. rw Hl1. exact C2.
  - rewrite -> take_app_length', drop_app_length' by lia.
    exists (set_m_mem (write_bytes (m_mem s) (f + (va - v * PGSIZE)) a) s), fuel.
    split_and!; [|lia|done|apply copied_page; try done; lia].
    destruct (decide (b = [])) as [->|Hne]; [by rw !copyout_loop_nil|].
    specialize (Hb Hne). replace (v * PGSIZE + PGSIZE) with (va + Z.of_nat (length a)) by lia.
    by rewrite -> wrapu_small by (unfold KERNBASE in *; lia).
Qed.

(** At a page the user cannot access. *)
Lemma copyout_refuses fuel s va src :
  pt_ok s l pgdir T → 0 ≤ va < 2 ^ 32 → src ≠ [] → (length src ≤ fuel)%nat → upage (m_mem s) T (va / PGSIZE) = None →
  copyout_loop fuel pgdir va src (h, s) =
    match T !! (va / PGSIZE / 1024) with
    | Some _ => Ok (-1) (h, s)
    | None => Stop (Fault "uva2ka: null pte") (h, s)
    end.
Proof.
  intros HP Hva Hne Hfuel Hup. destruct src as [|x src]; [done|]. destruct fuel as [|fuel]; [cbn in Hfuel; lia|].
  cbn [length copyout_loop]. rewrite -> (proj2 (Z.leb_gt _ _)) by lia. rw PGROUNDDOWN_eq.
  assert (va / PGSIZE * PGSIZE / PGSIZE = va / PGSIZE) as E0 by (apply Z.div_mul; done).
  assert (0 ≤ va / PGSIZE * PGSIZE < 2 ^ 32) as Hr by (unfold PGSIZE in *; dlia).
  destruct (T !! (va / PGSIZE / 1024)) as [t|] eqn:HT.
  - assert (is_Some (T !! (va / PGSIZE * PGSIZE / PGSIZE / 1024))) as HT' by (rw E0; by eexists).
    rw (bind_ok _ _ _ _ _ (uva2ka_run h s l pgdir T _ HP Hr HT')) E0 Hup. done.
  - unfold uva2ka. rw bind_assoc.
    rewrite -> (bind_ok _ _ _ _ _ (walk_absent h s l pgdir T _ HP Hr ltac:(by rw E0))). done.
Qed.
End copyout.

(** ** Properties *)

(** C11: [mappages] edits a page table. For a range of virtual pages that are
    not mapped it either succeeds and every page of the range has an entry for
    its frame with the given permissions, or runs out of memory for page tables
    and returns -1 with a first part of the range mapped; no other page changes,
    the page directory stays well formed, the only pages it takes from the free
    list become page tables, and no other page of memory is written. On a range
    whose first page is mapped it panics. *)
Theorem mappages_correct (pgdir va size pa perm : Z) (h : hw) (s : memst) (l : list Z) (T : gmap Z Z) :
  pt_ok s l pgdir T → kmem_ready h → 0 ≤ va → 0 < size → va + size ≤ 2 ^ 32 → 0 ≤ pa →
  pa + size + PGSIZE ≤ 2 ^ 32 + 1 →
  let v0 := va / PGSIZE in let n := (va + size - 1) / PGSIZE - v0 + 1 in
  ((∀ v, v0 ≤ v < v0 + n → pte (m_mem s) T v mod 2 = 0) →
   ∃ r k h' s' l' T', mappages pgdir va size pa perm (h, s) = Ok r (h', s') ∧
     (r = 0 ∧ k = n ∨ r = -1 ∧ 0 ≤ k < n ∧ l' = []) ∧
     mapped pgdir (v0 * PGSIZE) pa perm k h s l T h' s' l' T') ∧
  (pte (m_mem s) T v0 mod 2 = 1 → mappages pgdir va size pa perm (h, s) = Stop (Panic "remap") (h, s)).
Proof.
  intros HP Hr Hva Hsz Hend Hpa Hpaend v0 n. unfold mappages.
  rewrite -> (wrapu_small 32 (va + size - 1)), !PGROUNDDOWN_eq by lia. fold v0.
  set (v1 := (va + size - 1) / PGSIZE) in *.
  assert (0 ≤ v0 ≤ v1 ∧ v1 < 2 ^ 20) as [Hv Hv1] by (unfold v0, v1, PGSIZE; dlia).
  rewrite -> (wrapu_small 32 (v1 * PGSIZE - v0 * PGSIZE)) by (unfold PGSIZE in *; lia).
  replace ((v1 * PGSIZE - v0 * PGSIZE) / PGSIZE + 1) with n by (unfold n, PGSIZE in *; dlia).
  assert (v0 * PGSIZE / PGSIZE = v0) as E0 by (apply Z.div_mul; done). split.
  - intros Hfree. destruct (mappages_loop_run pgdir perm (Z.to_nat n) h s l T (v0 * PGSIZE) pa (v1 * PGSIZE))
      as (r & k & h' & s' & l' & T' & E & Hk & HM); try done; try (unfold PGSIZE in *; lia).
    + unfold PGSIZE. dlia.
    + assert (PGSIZE * (n - 1) < size + PGSIZE - 1) by (unfold n, v1, v0, PGSIZE; dlia). lia.
    + rewrite -> E0, Z2Nat.id by lia. exact Hfree.
    + exists r, k, h', s', l', T'. split_and!; [exact E|lia || (rewrite -> Z2Nat.id in Hk by lia; exact Hk)|done].
  - intros Hp. destruct (Z.to_nat n) as [|k] eqn:En; [lia|]. cbn [mappages_loop].
    assert (is_Some (T !! (v0 / 1024))) as [t Ht].
    { unfold pte in Hp. destruct (T !! (v0 / 1024)); [by eexists|done]. }
    assert (T !! (v0 * PGSIZE / PGSIZE / 1024) = Some t) as Ht' by (by rw E0).
    rw (bind_ok _ _ _ _ _ (walk_present h s l pgdir T (v0 * PGSIZE) t true HP ltac:(unfold PGSIZE in *; lia) Ht')).
    destruct (pt_tab _ _ _ _ HP _ _ Ht) as (_ & Hto & _). pose proof (Z.mod_pos_bound v0 1024 ltac:(lia)). rw E0.
    rewrite -> (proj2 (Z.eqb_neq _ 0)) by (pose proof (ki_end _ _ (pt_inv _ _ _ _ HP)); destruct Hto; klia).
    rw bind_run. cbn [load gets snd]. rw land_PTE_P. unfold pte in Hp. rw Ht in Hp. by rw Hp.
Qed.

(** C12: [copyout] writes user memory and nothing else. When every page of the
    range is present and accessible to the user, it succeeds; afterwards the
    user process reads the copied bytes in the range and its old bytes everywhere else,
    and the page tables and the free pages are as they were. When [w] is the
    first page of the range that is not accessible to the user (a page of the
    kernel, a guard page, or one not mapped), exactly the bytes before that page
    are copied, none when it is the first page of the range; then [copyout]
    returns -1 if the page has a page table, and otherwise [uva2ka] reads
    through the null pointer that [walkpgdir] returned and the kernel faults. *)
Theorem copyout_correct (pgdir va : Z) (src : list Z) (h : hw) (s : memst) (l : list Z) (T : gmap Z Z) :
  pt_ok s l pgdir T → frames_ok s l pgdir T → 0 ≤ va → va + Z.of_nat (length src) ≤ KERNBASE →
  ((∀ v, va / PGSIZE ≤ v → v * PGSIZE < va + Z.of_nat (length src) → is_Some (upage (m_mem s) T v)) →
   ∃ s', copyout pgdir va src (h, s) = Ok 0 (h, s') ∧ pt_ok s' l pgdir T ∧ frames_ok s' l pgdir T ∧
     same_kernel s s' ∧
     ∀ b, 0 ≤ b → uread (m_mem s') T b =
       if decide (va ≤ b < va + Z.of_nat (length src)) then Some (u8 (nth (Z.to_nat (b - va)) src 0))
       else uread (m_mem s) T b) ∧
  (∀ w, src ≠ [] → va / PGSIZE ≤ w → w * PGSIZE < va + Z.of_nat (length src) →
   (∀ v, va / PGSIZE ≤ v < w → is_Some (upage (m_mem s) T v)) → upage (m_mem s) T w = None →
   ∃ s', copyout pgdir va src (h, s) =
       match T !! (w / 1024) with
       | Some _ => Ok (-1) (h, s')
       | None => Stop (Fault "uva2ka: null pte") (h, s')
       end ∧
     (w = va / PGSIZE → s' = s) ∧ pt_ok s' l pgdir T ∧ frames_ok s' l pgdir T ∧ same_kernel s s' ∧
     ∀ b, 0 ≤ b → uread (m_mem s') T b =
       if decide (va ≤ b < w * PGSIZE) then Some (u8 (nth (Z.to_nat (b - va)) src 0))
       else uread (m_mem s) T b).
Proof.
  intros HP HF Hva Hend. unfold copyout. split.
  - intros Hmap. destruct (copyout_prefix h l pgdir T (length src) s va src []) as (s' & f' & E & _ & _ & HC);
      try done; try (cbn [length]; lia); [by right; left|].
    destruct HC as (HP' & HF' & Hk & _ & Hrd). exists s'. rw app_nil_r copyout_loop_nil in E. by split_and!.
  - intros w Hne Hw Hwe Hmap Hup. destruct (decide (w = va / PGSIZE)) as [->|Hw'].
    + exists s. rewrite -> (copyout_refuses h l pgdir T) by (done || unfold KERNBASE in *; lia).
      split; [done|split; [done|split; [done|split; [done|split; [by split_and!|]]]]].
      intros b Hb. rewrite -> decide_False; [done|]. unfold PGSIZE. dlia.
    + set (k := Z.to_nat (w * PGSIZE - va)).
      assert (Z.of_nat k = w * PGSIZE - va ∧ 0 < Z.of_nat k < Z.of_nat (length src)) as [Hk Hk2]
        by (unfold k, PGSIZE in *; dlia).
      assert (length (take k src) = k) as Hl1 by (rw length_take; lia).
      assert (length (drop k src) = (length src - k)%nat) as Hl2 by apply length_drop.
      destruct (copyout_prefix h l pgdir T (length src) s va (take k src) (drop k src))
        as (s' & f' & E & Hf' & _ & HP' & HF' & Hsk & Hup' & Hrd); try done; rw ?Hl1 ?Hl2; try lia.
      * right; right. rw Hk. replace (va + (w * PGSIZE - va)) with (w * PGSIZE) by lia. by rw Z.mod_mul.
      * intros v Hv1 Hv2. apply Hmap. unfold PGSIZE in *. lia.
      * rw take_drop Hl1 Hk in E. rw Hl1 Hk in Hrd. replace (va + (w * PGSIZE - va)) with (w * PGSIZE) in E, Hrd by lia.
        assert (w * PGSIZE / PGSIZE = w) as Ew by (apply Z.div_mul; done).
        exists s'. split; [rewrite -> E, (copyout_refuses h l pgdir T); rw ?Ew ?Hup' //|].
        -- unfold KERNBASE, PGSIZE in *. lia.
        -- intros E0. rw E0 in Hl2. cbn in Hl2. lia.
        -- split; [done|split; [done|split; [done|split; [done|]]]]. intros b Hb. rw (Hrd b Hb).
           case_decide; [|done]. do 2 f_equal. rewrite -> nth_lookup, nth_lookup, lookup_take_lt by lia. done.
Qed.

(** ** The properties on a concrete page table *)

Definition ex_pgdir : Z := 0x80500000.
Definition ex_tab : Z := 0x80501000.

(** An empty page directory next to two free pages. *)
Lemma ex_pt_empty : pt_ok ex_kmem [0x80400000; 0x80401000] ex_pgdir ∅.
Proof.
  split; [apply ex_kmem_inv| | | |].
  - split; [by split_and!|]. set_solver.
  - by intros i t.
  - by intros i j t.
  - intros i Hi. rw lookup_empty. unfold ex_kmem, ex_pgdir. cbn [m_mem].
    by rewrite -> !ld32_st32_ne by lia.
Qed.

Lemma mappages_correct_witness :
  ∃ r k h' s' l' T', mappages ex_pgdir 0x1000 PGSIZE 0x600000 6 (boot_hw, ex_kmem) = Ok r (h', s') ∧
    (r = 0 ∧ k = 1 ∨ r = -1 ∧ 0 ≤ k < 1 ∧ l' = []) ∧
    mapped ex_pgdir 0x1000 0x600000 6 k boot_hw ex_kmem [0x80400000; 0x80401000] ∅ h' s' l' T'.
Proof.
  pose proof (proj1 (mappages_correct ex_pgdir 0x1000 PGSIZE 0x600000 6 boot_hw ex_kmem _ ∅ ex_pt_empty
    ex_kmem_ready ltac:(lia) ltac:(done) ltac:(done) ltac:(lia) ltac:(done))) as H. apply H. intros v Hv.
  unfold pte. by rewrite -> lookup_empty.
Defined.

(** User page 1, in the frame at 0x80600000. *)
Definition ex_user : memst :=
  set_m_mem (st32 (st32 (m_mem ex_kmem) ex_pgdir (V2P ex_tab + 7)) (ex_tab + 4) 0x600007) ex_kmem.

Lemma ex_user_pte v : pte (m_mem ex_user) {[0 := ex_tab]} v = if decide (v = 1) then 0x600007 else 0.
Proof.
  unfold pte, ex_user. cbn [m_mem set_m_mem]. pose proof (Z.mod_pos_bound v 1024 ltac:(lia)).
  pose proof (Z.div_mod v 1024 ltac:(lia)). destruct (decide (v / 1024 = 0)) as [E|E].
  - rw E lookup_singleton_eq. case_decide.
    + subst v. reflexivity.
    + rewrite -> ld32_st32_ne by lia. unfold ex_kmem, ex_pgdir, ex_tab. cbn [m_mem]. by rewrite -> !ld32_st32_ne by lia.
  - rw lookup_singleton_ne //. by rewrite -> decide_False by lia.
Qed.

Lemma ex_user_ok : pt_ok ex_user [0x80400000; 0x80401000] ex_pgdir {[0 := ex_tab]}.
Proof.
  split.
  - assert (only_pages (λ p, p = ex_pgdir ∨ p = ex_tab) (m_mem ex_kmem) (m_mem ex_user)) as Hop.
    { eapply only_pages_trans; apply only_pages_st32; unfold PGSIZE, ex_pgdir, ex_tab; done || lia. }
    apply (kmem_inv_frame _ ex_kmem _ _ ex_kmem_inv Hop); [|apply wf_st32, wf_st32, (ki_wf _ _ ex_kmem_inv)].
    intros a Ha. unfold ex_pgdir, ex_tab. set_solver by lia.
  - split; [by split|]. set_solver.
  - intros i t [<- <-]%lookup_singleton_Some. split; [lia|]. split; [by split|]. split; [set_solver|done].
  - by intros i j t [<- _]%lookup_singleton_Some [<- _]%lookup_singleton_Some.
  - intros i Hi. destruct (decide (i = 0)) as [->|Hne].
    + rw lookup_singleton_eq. reflexivity.
    + rw lookup_singleton_ne //. unfold ex_user, ex_kmem, ex_pgdir, ex_tab. cbn [m_mem set_m_mem].
      by rewrite -> !ld32_st32_ne by lia.
Qed.

Lemma ex_user_frames : frames_ok ex_user [0x80400000; 0x80401000] ex_pgdir {[0 := ex_tab]}.
Proof.
  assert (∀ v f, upage (m_mem ex_user) {[0 := ex_tab]} v = Some f → v = 1 ∧ f = 0x80600000) as H.
  { intros v f. unfold upage. rw ex_user_pte. case_decide; [|done]. by intros [= <-]. }
  split.
  - intros v f _ [-> ->]%H. split; [by split|]. split; [set_solver|]. split; [done|].
    by intros i [_ ?]%lookup_singleton_Some.
  - intros v w f _ _ [-> _]%H [-> _]%H. done.
Qed.

Lemma copyout_correct_witness :
  ∃ s', copyout ex_pgdir 0x1ffe [65; 66] (boot_hw, ex_user) = Ok 0 (boot_hw, s') ∧
    uread (m_mem s') {[0 := ex_tab]} 0x1fff = Some 66.
Proof.
  destruct (proj1 (copyout_correct ex_pgdir 0x1ffe [65; 66] boot_hw ex_user _ _ ex_user_ok ex_user_frames
    ltac:(lia) ltac:(done))) as (s' & E & _ & _ & _ & H).
  - intros v Hv1 Hv2. assert (v = 1) as -> by (change (0x1ffe / PGSIZE) with 1 in Hv1; unfold PGSIZE in Hv2; cbn [length] in Hv2; lia). unfold upage. by rw ex_user_pte.
  - exists s'. split; [exact E|]. rewrite -> H by lia. reflexivity.
Defined.
