(* ===== verification/Uvm.v ===== *)
(** * User address spaces: growing, shrinking, freeing and copying (vm.c)

    A page directory owns its page tables and the frames of its user pages.
    [deallocuvm], [freevm], [allocuvm] and [copyuvm] move pages between an
    address space and the free list; no page is lost or shared. *)

From S2P Require Import Prelude Machine Spinlock Console Mem Kalloc Sched Vm.

(** ** Address spaces *)

(** The number of user pages. *)
Definition UTOP : Z := KERNBASE / PGSIZE.

(** The frame of page [v], if it is present. *)
Definition ppage (m : memory) (T : gmap Z Z) (v : Z) : option Z :=
  if Z.land (pte m T v) PTE_P =? 0 then None else Some (P2V (PTE_ADDR (pte m T v))).

Record space_ok (s : memst) (l : list Z) (pgdir : Z) (T : gmap Z Z) : Prop := {
  sp_pt : pt_ok s l pgdir T;
  sp_page : ∀ v f, 0 ≤ v < UTOP → ppage (m_mem s) T v = Some f →
    page_ok s f ∧ (f ∉ l) ∧ f ≠ pgdir ∧ ∀ i, T !! i ≠ Some f;
  sp_inj : ∀ v w f, 0 ≤ v < UTOP → 0 ≤ w < UTOP → ppage (m_mem s) T v = Some f → ppage (m_mem s) T w = Some f → v = w
}.

(** The pages of an address space. *)
Definition space_pages (s : memst) (pgdir : Z) (T : gmap Z Z) (p : Z) : Prop :=
  p = pgdir ∨ (∃ i, T !! i = Some p) ∨ ∃ v, 0 ≤ v < UTOP ∧ ppage (m_mem s) T v = Some p.

(** ** Lemmas *)

Lemma ppage_pte m m' T v : pte m' T v = pte m T v → ppage m' T v = ppage m T v.
Proof. intros E. unfold ppage. by rw E. Qed.

Lemma ppage_table m T v f : ppage m T v = Some f → is_Some (T !! (v / 1024)).
Proof. unfold ppage, pte. destruct (T !! _); [by eexists|done]. Qed.

Lemma only_pages_freed s f : f mod PGSIZE = 0 → only_pages (λ p, p = f) (m_mem s) (m_mem (freed f s)).
Proof. intros Hf p b Hp Hne Hb. apply ld8_freed. pose proof (page_disjoint p f Hp Hf Hne). lia. Qed.

Lemma hw_cycle b h h1 h2 : (h1 = h ∨ h1 = cycle b h) → (h2 = h1 ∨ h2 = cycle b h1) → h2 = h ∨ h2 = cycle b h.
Proof. intros [->| ->] [->| ->]; rw ?cycle_cycle; auto. Qed.

(** A page of no address space is freed. *)
Lemma pt_ok_freed s l pgdir T f :
  pt_ok s l pgdir T → page_ok s f → f ∉ l → f ≠ pgdir → (∀ i, T !! i ≠ Some f) →
  pt_ok (freed f s) (f :: l) pgdir T ∧ ∀ v, pte (m_mem (freed f s)) T v = pte (m_mem s) T v.
Proof.
  intros [HI [Hdo Hdl] Ht Hinj Hp] Hf Hfl Hfd HfT. pose proof Hf as [Hfm _]. pose proof (only_pages_freed s f Hfm) as Hop.
  split; [split|].
  - by apply freed_inv.
  - split; [done|]. by apply not_elem_of_cons.
  - intros i t Hi. destruct (Ht i t Hi) as (H1 & H2 & H3 & H4). split_and!; [lia..|done| |done]. apply not_elem_of_cons. split; [|done].
    intros ->. by apply (HfT i).
  - done.
  - intros i Hi. rewrite -> (ld32_page _ _ _ pgdir (4 * i) Hop); [exact (Hp i Hi)|apply Hdo|by apply not_eq_sym|unfold PGSIZE; lia].
  - intros v. apply (pte_frame (λ p, p = f)); [done|]. intros i t Hi. destruct (Ht i t Hi) as (_ & [? _] & _). split; [done|].
    intros ->. by apply (HfT i).
Qed.

(** One page of a user address space is given back: [kfree] and the store of 0. *)
Lemma space_unmap s l pgdir T v f t :
  space_ok s l pgdir T → 0 ≤ v < UTOP → ppage (m_mem s) T v = Some f → T !! (v / 1024) = Some t →
  let s1 := freed f s in let s2 := set_m_mem (st32 (m_mem s1) (t + 4 * (v mod 1024)) 0) s1 in
  space_ok s2 (f :: l) pgdir T ∧ (∀ w, 0 ≤ w → pte (m_mem s2) T w = if decide (w = v) then 0 else pte (m_mem s) T w) ∧
  only_pages (λ p, p = f ∨ p = t) (m_mem s) (m_mem s2) ∧ same_kernel s s2.
Proof.
  intros [HP Hpg Hinj] Hv Hf Ht s1 s2. destruct (Hpg v f Hv Hf) as (Hfo & Hfl & Hfd & HfT).
  destruct (pt_ok_freed s l pgdir T f HP Hfo Hfl Hfd HfT) as [HP1 Hpte1]. fold s1 in HP1, Hpte1.
  destruct (set_pte s1 (f :: l) pgdir T v t 0 HP1 ltac:(lia) Ht) as (HP2 & Hop2 & Hpte2). fold s2 in HP2, Hpte2.
  assert (∀ w, 0 ≤ w → pte (m_mem s2) T w = if decide (w = v) then 0 else pte (m_mem s) T w) as Hpte.
  { intros w Hw. change (m_mem s2) with (st32 (m_mem s1) (t + 4 * (v mod 1024)) 0). rewrite -> Hpte2, Hpte1 by done. done. }
  assert (∀ w g, 0 ≤ w → ppage (m_mem s2) T w = Some g → w ≠ v ∧ ppage (m_mem s) T w = Some g) as Hpp.
  { intros w g Hw. unfold ppage. rewrite -> Hpte by done. case_decide; [done|]. done. }
  split_and!; [|done| |done].
  - split; [done|..].
    + intros w g Hw Hg. destruct (Hpp w g ltac:(lia) Hg) as [Hne Hg0]. destruct (Hpg w g Hw Hg0) as (H1 & H2 & H3 & H4).
      split_and!; [done..| |done|done]. apply not_elem_of_cons. split; [|done]. intros ->. apply Hne. by apply (Hinj w v f).
    + intros w w' g Hw Hw' Hg Hg'. apply Hpp in Hg as [_ Hg]; [|lia]. apply Hpp in Hg' as [_ Hg']; [|lia]. by apply (Hinj w w' g).
  - eapply only_pages_trans; [apply only_pages_freed; apply Hfo|exact Hop2].
Qed.

(** ** [deallocuvm] *)

(** The pages from [lo] to [hi] were given back. *)
Record shrunk (pgdir : Z) (T : gmap Z Z) (lo hi : Z) (h : hw) (s : memst) (l : list Z) (h' : hw) (s' : memst) (l' : list Z) : Prop := {
  sk_ok : space_ok s' l' pgdir T;
  sk_hw : h' = h ∨ h' = cycle (m_use_lock s) h;
  sk_kernel : same_kernel s s';
  sk_free : ∃ fs, l' = fs ++ l ∧ ∀ f, f ∈ fs ↔ ∃ v, lo ≤ v < hi ∧ ppage (m_mem s) T v = Some f;
  sk_gone : ∀ v, lo ≤ v < hi → ppage (m_mem s') T v = None;
  sk_pte : ∀ v, 0 ≤ v → ¬ (lo ≤ v < hi) → pte (m_mem s') T v = pte (m_mem s) T v;
  sk_only : only_pages (λ p, (∃ i, T !! i = Some p) ∨ ∃ v, lo ≤ v < hi ∧ ppage (m_mem s) T v = Some p) (m_mem s) (m_mem s')
}.

Section dealloc.
Context (pgdir : Z) (T : gmap Z Z).

Lemma shrunk_nil lo hi h s l :
  space_ok s l pgdir T → (∀ v, lo ≤ v < hi → ppage (m_mem s) T v = None) → shrunk pgdir T lo hi h s l h s l.
Proof.
  intros HS Hn. split; try done.
  - by left.
  - exists []. split; [done|]. intros f. split; [by intros ?%elem_of_nil|]. intros (v & Hv & E). by rewrite -> Hn in E.
Qed.

(** Two ranges one after the other. *)
Lemma shrunk_app lo mid hi h s l h1 s1 l1 h2 s2 l2 :
  0 ≤ lo ≤ mid → mid ≤ hi → shrunk pgdir T lo mid h s l h1 s1 l1 → shrunk pgdir T mid hi h1 s1 l1 h2 s2 l2 →
  shrunk pgdir T lo hi h s l h2 s2 l2.
Proof.
  intros Hlo Hhi [A1 A2 A3 (fs1 & -> & A4) A5 A6 A7] [B1 B2 B3 (fs2 & -> & B4) B5 B6 B7].
  assert (∀ v, 0 ≤ v → ¬ (lo ≤ v < mid) → ppage (m_mem s1) T v = ppage (m_mem s) T v) as E1.
  { intros v Hv Hn. apply ppage_pte. by apply A6. }
  split; try done.
  - destruct A3 as (Eu & _). rewrite -> Eu in B2. by eapply hw_cycle.
  - by eapply same_kernel_trans.
  - exists (fs2 ++ fs1). split; [by rw app_assoc|]. intros f. rw elem_of_app B4 A4. split.
    + intros [(v & Hv & E)|(v & Hv & E)]; exists v; (split; [lia|]); [rewrite <- E1; [done|lia..]|done].
    + intros (v & Hv & E). destruct (decide (v < mid)); [right|left]; exists v; (split; [lia|]); [done|].
      rewrite -> E1; [done|lia..].
  - intros v Hv. destruct (decide (mid ≤ v < hi)); [by apply B5|]. rewrite -> (ppage_pte (m_mem s1)) by (apply B6; lia). apply A5. lia.
  - intros v Hv Hn. rewrite -> B6, A6 by lia. done.
  - eapply only_pages_mono; [eapply only_pages_trans; [exact A7|exact B7]|].
    intros p [[?|(v & Hv & E)]|[?|(v & Hv & E)]]; try (by left); right; exists v; (split; [lia|]); [done|]. rewrite <- E1; [done|lia..].
Qed.

(** One page. *)
Lemma shrunk_one v h s l t f :
  space_ok s l pgdir T → 0 ≤ v < UTOP → T !! (v / 1024) = Some t → ppage (m_mem s) T v = Some f →
  let s1 := freed f s in let s2 := set_m_mem (st32 (m_mem s1) (t + 4 * (v mod 1024)) 0) s1 in
  shrunk pgdir T v (v + 1) h s l (cycle (m_use_lock s) h) s2 (f :: l).
Proof.
  intros HS Hv Ht Hf s1 s2. destruct (space_unmap s l pgdir T v f t HS Hv Hf Ht) as (HS2 & Hpte & Hop & Hk). fold s1 s2 in HS2, Hpte, Hop, Hk.
  split; try done.
  - by right.
  - exists [f]. split; [done|]. intros g. rw list_elem_of_singleton. split.
    + intros ->. exists v. split; [lia|done].
    + intros (w & Hw & E). replace w with v in E by lia. congruence.
  - intros w Hw. unfold ppage. rewrite -> Hpte by lia. by rewrite -> decide_True by lia.
  - intros w Hw Hn. rewrite -> Hpte by done. by rewrite -> decide_False by lia.
  - eapply only_pages_mono; [exact Hop|]. intros p [->| ->]; [right; exists v; split; [lia|done]|left; by eexists].
Qed.

Lemma next_table a : 0 ≤ a < KERNBASE →
  u32 (u32 (PGADDR (PDX a + 1) 0 0 - PGSIZE) + PGSIZE) = (a / PGSIZE / 1024 + 1) * 1024 * PGSIZE.
Proof.
  intros Ha. rewrite -> PDX_vpn by (unfold KERNBASE in *; lia). unfold PGADDR. rewrite -> !Z.shiftl_0_l, !Z.lor_0_r, Z.shiftl_mul_pow2 by done.
  assert (0 ≤ a / PGSIZE / 1024 < 512) by (unfold PGSIZE, KERNBASE in *; dlia).
  change (2 ^ PDXSHIFT) with 4194304. set (x := a / PGSIZE / 1024) in *. change PGSIZE with 4096.
  rewrite -> (wrapu_small 32 ((x + 1) * 4194304)), (wrapu_small 32 ((x + 1) * 4194304 - 4096)) by lia. rewrite -> wrapu_small by lia. lia.
Qed.

(** The entry of a present user page. *)
Lemma present_entry s l v t : space_ok s l pgdir T → 0 ≤ v < UTOP → T !! (v / 1024) = Some t →
  let e := ld32 (m_mem s) (t + 4 * (v mod 1024)) in
  if Z.land e PTE_P =? 0 then ppage (m_mem s) T v = None
  else ∃ f, ppage (m_mem s) T v = Some f ∧ P2V (PTE_ADDR e) = f ∧ PTE_ADDR e ≠ 0 ∧ page_ok s f ∧ t + 4 * (v mod 1024) ≠ 0.
Proof.
  intros [HP Hpg _] Hv Ht e. assert (pte (m_mem s) T v = e) as Ee by (unfold pte; by rw Ht).
  destruct (Z.land e PTE_P =? 0) eqn:E; unfold ppage; rw Ee E; [done|].
  specialize (Hpg v (P2V (PTE_ADDR e)) Hv). unfold ppage in Hpg. rw Ee E in Hpg. destruct (Hpg eq_refl) as (Hfo & _).
  pose proof (ki_end _ _ (pt_inv _ _ _ _ HP)) as He. destruct (pt_tab _ _ _ _ HP _ _ Ht) as (_ & [_ Htr] & _).
  pose proof (Z.mod_pos_bound v 1024 ltac:(lia)). exists (P2V (PTE_ADDR e)). split_and!; [done|done| |done..|klia].
  intros E0. rewrite -> E0 in Hfo. destruct Hfo as [_ Hfo]. change (P2V 0) with KERNBASE in Hfo. lia.
Qed.

Lemma deallocuvm_loop_run oldsz fuel : ∀ h s l a,
  let hi := (oldsz + PGSIZE - 1) / PGSIZE in
  space_ok s l pgdir T → kmem_ready h → a mod PGSIZE = 0 → 0 ≤ a → oldsz ≤ KERNBASE →
  hi - a / PGSIZE ≤ Z.of_nat fuel →
  ∃ h' s' l', deallocuvm_loop fuel pgdir a oldsz (h, s) = Ok tt (h', s') ∧ shrunk pgdir T (a / PGSIZE) hi h s l h' s' l'.
Proof.
  induction fuel as [|fuel IH]; intros h s l a hi HS Hr Ha Ha0 Hold Hfuel; cbn [deallocuvm_loop];
    destruct (Z.ltb_spec a oldsz) as [Hlt|Hge]; cbn [negb].
  1: exfalso; unfold hi, PGSIZE in *; dlia.
  1,3: exists h, s, l; split; [done|]; apply shrunk_nil; [done|]; intros v Hv; exfalso; unfold hi, PGSIZE in *; dlia.
  set (v := a / PGSIZE) in *. assert (0 ≤ v < UTOP) as Hv by (change UTOP with 524288; unfold v, KERNBASE, PGSIZE in *; dlia).
  assert (v < hi) as Hvh by (unfold hi, v, PGSIZE in *; dlia).
  assert (0 ≤ a < 2 ^ 32) as Ha32 by (unfold KERNBASE in *; lia). pose proof (sp_pt _ _ _ _ HS) as HP.
  destruct (T !! (v / 1024)) as [t|] eqn:Ht.
  2:{ rw (bind_ok _ _ _ _ _ (walk_absent h s l pgdir T a HP Ha32 Ht)). cbn [Z.eqb]. rewrite -> next_table by lia. fold v.
      set (mid := (v / 1024 + 1) * 1024). assert (v < mid) by (unfold mid; dlia).
      assert (∀ w, v ≤ w < mid → ppage (m_mem s) T w = None) as Hn.
      { intros w Hw. unfold ppage, pte. replace (w / 1024) with (v / 1024) by (unfold mid in *; dlia). by rw Ht. }
      assert (mid * PGSIZE / PGSIZE = mid) as Em by (apply Z.div_mul; done).
      destruct (Z.le_gt_cases mid hi) as [Hm|Hm].
      - destruct (IH h s l (mid * PGSIZE) HS Hr ltac:(apply Z.mod_mul; done) ltac:(unfold PGSIZE; lia) Hold ltac:(rw Em; lia))
          as (h' & s' & l' & E & HK). rw Em in HK. exists h', s', l'. split; [done|].
        eapply shrunk_app; [| |by apply shrunk_nil|exact HK]; lia.
      - exists h, s, l. split; [|apply shrunk_nil; [done|]; intros w Hw; apply Hn; lia].
        destruct fuel; cbn [deallocuvm_loop]; (rewrite -> (proj2 (Z.ltb_ge _ _)); [done|]); unfold hi, PGSIZE in *; dlia. }
  rw (bind_ok _ _ _ _ _ (walk_present h s l pgdir T a t false HP Ha32 Ht)). fold v.
  pose proof (present_entry s l v t HS Hv Ht) as He. cbn zeta in He. set (e := ld32 (m_mem s) (t + 4 * (v mod 1024))) in *.
  destruct (pt_tab _ _ _ _ HP _ _ Ht) as (_ & [_ Htr] & _). pose proof (ki_end _ _ (pt_inv _ _ _ _ HP)) as Hend.
  pose proof (Z.mod_pos_bound v 1024 ltac:(lia)). rewrite -> (proj2 (Z.eqb_neq (t + _) 0)) by klia.
  rw (bind_ok _ _ _ e (h, s)) //. assert ((a + PGSIZE) / PGSIZE = v + 1) as Ea by (unfold v, PGSIZE in *; dlia).
  assert (∃ h1 s1 l1, (if negb (Z.land e PTE_P =? 0) then
      let pa := PTE_ADDR e in if pa =? 0 then panic "kfree" else kfree (P2V pa);; store (t + 4 * (v mod 1024)) 0
      else mret tt) (h, s) = Ok tt (h1, s1) ∧ shrunk pgdir T v (v + 1) h s l h1 s1 l1) as (h1 & s1 & l1 & E1 & HK1).
  { destruct (Z.land e PTE_P =? 0); cbn [negb].
    - exists h, s, l. split; [done|]. apply shrunk_nil; [done|]. intros w Hw. by replace w with v by lia.
    - destruct He as (f & Hf & Ef & Hpa & Hfo & _). cbn zeta. rewrite -> (proj2 (Z.eqb_neq _ _) Hpa), Ef.
      rw (bind_ok _ _ _ _ _ (kfree_run h s f Hr Hend Hfo)). eexists _, _, _. split; [done|]. by apply shrunk_one. }
  rw (bind_ok _ _ _ _ _ E1). rewrite -> (wrapu_small 32 (a + PGSIZE)) by (unfold KERNBASE, PGSIZE in *; lia).
  destruct (IH h1 s1 l1 (a + PGSIZE)) as (h' & s' & l' & E & HK).
  - apply HK1.
  - by eapply kmem_ready_hw, HK1.
  - unfold PGSIZE in *. dlia.
  - unfold PGSIZE. lia.
  - done.
  - rw Ea. lia.
  - rw Ea in HK. exists h', s', l'. split; [done|]. eapply shrunk_app; [| |exact HK1|exact HK]; lia.
Qed.
End dealloc.

Lemma deallocuvm_run pgdir T oldsz newsz h s l :
  space_ok s l pgdir T → kmem_ready h → 0 ≤ newsz → oldsz ≤ KERNBASE →
  let lo := (newsz + PGSIZE - 1) / PGSIZE in let hi := (oldsz + PGSIZE - 1) / PGSIZE in
  ∃ h' s' l', deallocuvm pgdir oldsz newsz (h, s) = Ok (Z.min oldsz newsz) (h', s') ∧ shrunk pgdir T lo hi h s l h' s' l'.
Proof.
  intros HS Hr Hn Ho lo hi. unfold deallocuvm. destruct (Z.leb_spec oldsz newsz) as [Hle|Hlt].
  - exists h, s, l. rewrite -> Z.min_l by done. split; [done|]. apply shrunk_nil; [done|]. intros v Hv.
    exfalso. assert (hi ≤ lo) by (apply Z.div_le_mono; unfold PGSIZE; lia). lia.
  - rewrite -> PGROUNDUP_eq by (unfold KERNBASE, PGSIZE in *; lia). fold lo.
    assert (lo * PGSIZE / PGSIZE = lo) as El by (apply Z.div_mul; done).
    destruct (deallocuvm_loop_run pgdir T oldsz (Z.to_nat ((oldsz - lo * PGSIZE) / PGSIZE + 1)) h s l (lo * PGSIZE) HS Hr)
      as (h' & s' & l' & E & HK).
    + apply Z.mod_mul. done.
    + unfold lo, PGSIZE. dlia.
    + done.
    + rw El. unfold hi, lo, PGSIZE. dlia.
    + rw El in HK. exists h', s', l'. rw (bind_ok _ _ _ _ _ E). by rewrite -> Z.min_r by lia.
Qed.

(** ** [freevm] *)

(** A page directory is freed with everything it owns. *)
Record released_space (pgdir : Z) (T : gmap Z Z) (h : hw) (s : memst) (l : list Z) (h' : hw) (s' : memst) (l' : list Z) : Prop := {
  rs_inv : kmem_inv s' l';
  rs_hw : h' = h ∨ h' = cycle (m_use_lock s) h;
  rs_kernel : same_kernel s s';
  rs_free : ∀ p, p ∈ l' ↔ p ∈ l ∨ space_pages s pgdir T p;
  rs_only : only_pages (space_pages s pgdir T) (m_mem s) (m_mem s')
}.

Lemma page_ok_same s s' p : same_kernel s s' → page_ok s p → page_ok s' p.
Proof. intros (_ & E & _) [H1 H2]. split; [done|]. by rw E. Qed.

Lemma same_kernel_freed s f : same_kernel s (freed f s).
Proof. done. Qed.

Section freevm.
Context (pgdir : Z) (T : gmap Z Z).

(** The page tables of the first entries are free. *)
Definition tabs_freed (h : hw) (s : memst) (l : list Z) (done : list Z) (x : hw * memst) : Prop :=
  (x.1 = h ∨ x.1 = cycle (m_use_lock s) h) ∧ same_kernel s x.2 ∧
  only_pages (λ p, ∃ i, T !! i = Some p) (m_mem s) (m_mem x.2) ∧
  ∃ l1, kmem_inv x.2 l1 ∧ ∀ p, p ∈ l1 ↔ p ∈ l ∨ ∃ i, i ∈ done ∧ T !! i = Some p.

Lemma free_table h s l done i x :
  pt_ok s l pgdir T → kmem_ready h → i ∉ done → 0 ≤ i < 1024 → tabs_freed h s l done x →
  ∃ x', (e ← load (pgdir + 4 * i); when (negb (Z.land e PTE_P =? 0)) (kfree (P2V (PTE_ADDR e)))) x = Ok tt x' ∧
    tabs_freed h s l (done ++ [i]) x'.
Proof.
  intros HP Hr Hni Hi (Hh & Hk & Hop & l1 & HI1 & Hl1). destruct x as [h1 s1]. cbn [fst snd] in *.
  pose proof HP as [HI [[Hdm Hdr] Hdl] Ht Hinj Hp].
  assert (ld32 (m_mem s1) (pgdir + 4 * i) = ld32 (m_mem s) (pgdir + 4 * i)) as El.
  { apply (ld32_page (λ p, ∃ i, T !! i = Some p)); [done|done| |unfold PGSIZE; lia]. intros [j Hj]. by destruct (Ht j pgdir Hj) as (_ & _ & _ & ?). }
  rw (bind_ok _ _ _ (ld32 (m_mem s1) (pgdir + 4 * i)) (h1, s1)) // El. specialize (Hp i Hi).
  destruct (T !! i) as [t|] eqn:Hti.
  - destruct (Ht i t Hti) as (_ & Hto & Htl & Htd). pose proof (ki_end _ _ HI) as He.
    rewrite -> Hp, land_PTE_P. destruct (table_addr s t Hto He) as (Htm & _ & Hm & _).
    assert ((V2P t + 7) mod 2 = 1) as -> by (unfold PGSIZE in Hm; dlia). cbn [Z.eqb negb when].
    rewrite -> (pde_addr s) by (done || unfold PGSIZE; lia). pose proof (ki_end _ _ HI1) as He1.
    rewrite -> (kfree_run h1 s1 t) by (done || by eapply kmem_ready_hw || by eapply page_ok_same).
    eexists. split; [done|]. destruct Hk as (Eu & Hk). split_and!; cbn [fst snd].
    + rewrite -> Eu. eapply hw_cycle; [exact Hh|by right].
    + by split.
    + eapply only_pages_mono; [eapply only_pages_trans; [exact Hop|by apply only_pages_freed]|]. intros p [?| ->]; [done|by exists i].
    + exists (t :: l1). split.
      * apply freed_inv; [done|by apply (page_ok_same s); [split|]|]. rewrite -> Hl1. intros [?|(j & Hj & Etj)]; [done|].
        by rewrite -> (Hinj _ _ _ Hti Etj) in Hni.
      * intros p. rw elem_of_cons Hl1. split.
        -- intros [->|[?|(j & Hj & ?)]]; [right; exists i; set_solver|by left|right; exists j; set_solver].
        -- intros [?|(j & Hj & Etj)]; [by right; left|]. apply elem_of_app in Hj as [Hj|Hj%list_elem_of_singleton]; [right; right; by exists j|].
           subst j. left. congruence.
  - rewrite -> Hp. cbn [Z.eqb negb when]. eexists. split; [done|]. split_and!; cbn [fst snd]; [done..|]. exists l1. split; [done|].
    intros p. rw Hl1. split; (intros [?|(j & Hj & Etj)]; [by left|right; exists j; split; [|done]]); [set_solver|].
    apply elem_of_app in Hj as [Hj|Hj%list_elem_of_singleton]; [done|]. subst j. congruence.
Qed.

Lemma freevm_run h s l :
  space_ok s l pgdir T → kmem_ready h →
  ∃ h' s' l', freevm pgdir (h, s) = Ok tt (h', s') ∧ released_space pgdir T h s l h' s' l'.
Proof.
  intros HS Hr. pose proof (sp_pt _ _ _ _ HS) as HP. pose proof (pt_dir _ _ _ _ HP) as [Hdo Hdl]. pose proof (ki_end _ _ (pt_inv _ _ _ _ HP)) as He.
  unfold freevm. rewrite -> (proj2 (Z.eqb_neq pgdir 0)) by (destruct Hdo; klia).
  destruct (deallocuvm_run pgdir T KERNBASE 0 h s l HS Hr ltac:(lia) ltac:(lia)) as (h1 & s1 & l1 & E1 & [HS1 Hh1 Hk1 (fs & -> & Hfs) _ _ Hop1]).
  change ((0 + PGSIZE - 1) / PGSIZE) with 0 in *. change ((KERNBASE + PGSIZE - 1) / PGSIZE) with UTOP in *.
  rw (bind_ok _ _ _ _ _ E1). pose proof (sp_pt _ _ _ _ HS1) as HP1. pose proof (kmem_ready_hw _ _ _ Hr Hh1) as Hr1.
  destruct (mfor_rule (tabs_freed h1 s1 (fs ++ l)) (λ i, e ← load (pgdir + 4 * i); when (negb (Z.land e PTE_P =? 0)) (kfree (P2V (PTE_ADDR e))))
    (seqZ 0 NPDENTRIES) [] (h1, s1)) as ([h2 s2] & E2 & Hh2 & Hk2 & Hop2 & l2 & HI2 & Hl2).
  - split_and!; [by left|by split_and!|apply only_pages_refl|]. exists (fs ++ l). split; [apply HP1|]. intros p. split; [by left|].
    intros [?|(j & Hj & _)]; [done|by apply elem_of_nil in Hj].
  - intros d i d2 x Ed HI. cbn [app] in Ed. apply free_table; try done.
    + pose proof (NoDup_seqZ 0 NPDENTRIES) as Hnd. rewrite -> Ed in Hnd. apply NoDup_app in Hnd as (_ & Hnd & _). intros Hd. apply (Hnd i Hd). left.
    + assert (i ∈ seqZ 0 NPDENTRIES) as Hi by (rewrite -> Ed; set_solver). apply elem_of_seqZ in Hi. change NPDENTRIES with 1024 in Hi. lia.
  - rw (bind_ok _ _ _ _ _ E2). cbn [fst snd app] in *.
    assert (same_kernel s s2) as Hk by (by eapply same_kernel_trans).
    assert (page_ok s2 pgdir) as Hdo2 by (by eapply page_ok_same).
    assert (∀ i t, T !! i = Some t → 0 ≤ i < 1024 ∧ t ≠ pgdir) as HT by (intros i t Hi; destruct (pt_tab _ _ _ _ HP i t Hi) as (? & _ & _ & ?); done).
    assert (h2 = h ∨ h2 = cycle (m_use_lock s) h) as Hh.
    { destruct Hk1 as (Eu & _). rewrite -> Eu in Hh2. by eapply hw_cycle. }
    rewrite -> (kfree_run h2 s2 pgdir) by (done || (by eapply kmem_ready_hw) || apply (ki_end _ _ HI2)).
    exists (cycle (m_use_lock s2) h2), (freed pgdir s2), (pgdir :: l2). split; [done|]. split.
    + apply freed_inv; [done..|]. rewrite -> Hl2. intros [Hd|(i & _ & Hi)]; [|by apply HT in Hi as [_ ?]].
      by apply (pt_dir _ _ _ _ HP1).
    + destruct Hk as (Eu & _). rewrite -> Eu. eapply hw_cycle; [exact Hh|by right].
    + done.
    + intros p. rw elem_of_cons Hl2 elem_of_app. unfold space_pages. rewrite -> Hfs. split.
      * intros [->|[[?|?]|(i & _ & Hi)]]; [by right; left|by right; right; right|by left|right; right; left; by exists i].
      * intros [?|[->|[[i Hi]|?]]]; [by right; left; right|by left| |by right; left; left].
        right; right. exists i. split; [|done]. apply elem_of_seqZ. destruct (HT i p Hi). change NPDENTRIES with 1024. lia.
    + eapply only_pages_mono; [eapply only_pages_trans; [eapply only_pages_trans; [exact Hop1|exact Hop2]|apply only_pages_freed; apply Hdo]|].
      unfold space_pages. intros p [[[?|?]|?]| ->]; [by right; left|by right; right|by right; left|by left].
Qed.
End freevm.

(** ** Mapping one page *)

Lemma entry_frame s f perm :
  page_ok s f → KERNBASE < m_end s → 0 ≤ perm < PGSIZE →
  let e := entry (V2P f) perm in
  e = Z.lor (V2P f) (Z.lor perm PTE_P) ∧ P2V (PTE_ADDR e) = f ∧ Z.land e PTE_P = 1.
Proof.
  intros Hf He Hp e. destruct (table_addr s f Hf He) as (_ & _ & Hm & Hr & _).
  assert (0 ≤ Z.lor perm PTE_P < PGSIZE) as Hlor.
  { split; [apply Z.lor_nonneg; split; [lia|done]|]. change PGSIZE with (2 ^ 12) in *. destruct (decide (Z.lor perm PTE_P = 0)) as [E|E]; [lia|].
    assert (0 ≤ Z.lor perm PTE_P) by (apply Z.lor_nonneg; split; [lia|done]). apply Z.log2_lt_pow2; [lia|]. rewrite -> Z.log2_lor by (done || lia).
    apply Z.max_lub_lt; [|done]. destruct (decide (perm = 0)) as [->|]; [done|]. apply Z.log2_lt_pow2; lia. }
  assert (e = V2P f + Z.lor perm PTE_P) as Ee.
  { unfold e, entry. rw -Z.lor_assoc. rewrite -> lor_low by done. apply wrapu_small. klia. }
  split_and!; [by rewrite -> lor_low| |].
  - rw Ee. by apply (pde_addr s).
  - assert (Z.land (Z.lor perm PTE_P) PTE_P = 1) as E1.
    { rw Z.land_lor_distr_l land_PTE_P. assert (perm mod 2 = 0 ∨ perm mod 2 = 1) as [->| ->] by dlia; done. }
    rewrite -> land_PTE_P in E1 |- *. rw Ee. unfold PGSIZE in Hm. dlia.
Qed.

Lemma mappages_one pgdir v pa perm h s l T :
  pt_ok s l pgdir T → kmem_ready h → 0 ≤ v < 2 ^ 20 → 0 ≤ pa < 2 ^ 32 → pte (m_mem s) T v mod 2 = 0 →
  ∃ (b : bool) h' s' l' T', mappages pgdir (v * PGSIZE) PGSIZE pa perm (h, s) = Ok (if b then 0 else -1) (h', s') ∧
    (b = false → l' = []) ∧ mapped pgdir (v * PGSIZE) pa perm (if b then 1 else 0) h s l T h' s' l' T'.
Proof.
  intros HP Hr Hv Hpa Hfree. unfold mappages. assert (v * PGSIZE / PGSIZE = v) as Ev by (apply Z.div_mul; done).
  rewrite -> (wrapu_small 32 (v * PGSIZE + PGSIZE - 1)) by (unfold PGSIZE; lia). rewrite -> !PGROUNDDOWN_eq, Ev.
  replace ((v * PGSIZE + PGSIZE - 1) / PGSIZE) with v by (unfold PGSIZE; dlia). rewrite -> Z.sub_diag.
  change (Z.to_nat (u32 0 / PGSIZE + 1)) with 1%nat.
  destruct (mappages_loop_run pgdir perm 1 h s l T (v * PGSIZE) pa (v * PGSIZE)) as (r & k & h' & s' & l' & T' & E & Hk & HM);
    try done; try (unfold PGSIZE; lia).
  - apply Z.mod_mul. done.
  - intros w Hw. rewrite -> Ev in Hw. by replace w with v by lia.
  - destruct Hk as [[-> ->]|(-> & Hk & El)].
    + exists true, h', s', l', T'. by split_and!.
    + exists false, h', s', l', T'. split_and!; [done|done|]. by replace k with 0 in HM by lia.
Qed.

Section mapping.
Context (d : Z) (T : gmap Z Z) (s : memst) (l : list Z) (f v perm : Z).

(** A frame that is in no use becomes page [v]. *)
Lemma space_mapped (b : bool) h h' s' l' T' :
  space_ok s l d T → page_ok s f → f ∉ l → ¬ space_pages s d T f → 0 ≤ v < UTOP → ppage (m_mem s) T v = None → 0 ≤ perm < PGSIZE →
  mapped d (v * PGSIZE) (V2P f) perm (if b then 1 else 0) h s l T h' s' l' T' →
  space_ok s' l' d T' ∧
  (∀ w, 0 ≤ w < UTOP → ppage (m_mem s') T' w = if decide (b = true ∧ w = v) then Some f else ppage (m_mem s) T w) ∧
  (∀ p, p ∈ l' ∨ space_pages s' d T' p ↔ p ∈ l ∨ space_pages s d T p ∨ (b = true ∧ p = f)) ∧
  only_pages (λ p, p = d ∨ p ∈ l ∨ ∃ i, T !! i = Some p) (m_mem s) (m_mem s').
Proof.
  intros HS Hf Hfl Hfs Hv Hvn Hperm HM. pose proof HS as [HP Hpg Hinj]. pose proof (ki_end _ _ (pt_inv _ _ _ _ HP)) as He.
  destruct (entry_frame s f perm Hf He Hperm) as (_ & Ef & Ep).
  destruct HM as [HP' Hh Hk HT (used & -> & Hu) Hnew Hop Hpte].
  assert (∀ w, 0 ≤ w < UTOP → ppage (m_mem s') T' w = if decide (b = true ∧ w = v) then Some f else ppage (m_mem s) T w) as Hpp.
  { intros w Hw. unfold ppage. rewrite -> (Hpte w) by lia. rewrite -> (Z.div_mul v PGSIZE) by done.
    destruct b; [destruct (decide (w = v)) as [->|Hne]|].
    - rewrite -> !decide_True by (done || lia). rewrite -> Z.sub_diag, Z.mul_0_r, Z.add_0_r, Ep. cbn. by rw Ef.
    - by rewrite -> !decide_False by (lia || tauto).
    - by rewrite -> !decide_False by (lia || naive_solver). }
  assert (∀ i t, T' !! i = Some t → T !! i = Some t ∨ t ∈ used ++ l') as Hnew' by done.
  assert (∀ g, (∃ w, 0 ≤ w < UTOP ∧ ppage (m_mem s') T' w = Some g) ↔ (b = true ∧ g = f) ∨ ∃ w, 0 ≤ w < UTOP ∧ ppage (m_mem s) T w = Some g) as Hframes.
  { intros g. split.
    - intros (w & Hw & Hg). rewrite -> Hpp in Hg by done. case_decide as D; [left; destruct D; split; [done|congruence]|right; by exists w].
    - intros [[-> ->]|(w & Hw & Hg)]; [exists v|exists w]; (split; [done|]); rewrite -> Hpp by done; [by rewrite -> decide_True|].
      destruct (decide (b = true ∧ w = v)) as [[_ Ew]|]; [|done]. rewrite -> Ew in Hg. congruence. }
  assert ((f ∉ l') ∧ f ≠ d ∧ ∀ i, T' !! i ≠ Some f) as (Hf1 & Hf2 & Hf3).
  { split_and!; [set_solver|intros ->; apply Hfs; by left|]. intros i Hi. apply Hnew in Hi as [Hi|Hi]; [apply Hfs; right; left; by exists i|done]. }
  split_and!; [split; [done|..]|done| |].
  - intros w g Hw Hg. rewrite -> Hpp in Hg by done. case_decide as D.
    + injection Hg as <-. split; [by eapply page_ok_same|by split_and!].
    + destruct (Hpg w g Hw Hg) as (H1 & H2 & H3 & H4). split; [by eapply page_ok_same|]. split_and!; [set_solver|done|].
      intros i Hi. apply Hnew in Hi as [Hi|Hi]; [by apply (H4 i)|done].
  - intros w w' g Hw Hw' Hg Hg'. rewrite -> Hpp in Hg, Hg' by done. 
    destruct (decide (b = true ∧ w = v)) as [[_ ->]|], (decide (b = true ∧ w' = v)) as [[_ ->]|]; [done| | |by apply (Hinj w w' g)].
    + injection Hg as ->. exfalso. apply Hfs. right; right. by exists w'.
    + injection Hg' as ->. exfalso. apply Hfs. right; right. by exists w.
  - intros p. unfold space_pages. rewrite -> Hframes. split.
    + intros [?|[->|[[i Hi]|[?|?]]]]; [left; set_solver|by right; left; left| |by right; right|by right; left; right; right].
      apply Hnew in Hi as [Hi|?]; [right; left; right; left; by exists i|by left].
    + intros [[Hp|Hp]%elem_of_app|[[->|[[i Hi]|?]]|?]]; [right; right; left; by apply Hu|by left|by right; left| |by right; right; right; right|by right; right; right; left].
      right; right; left. exists i. by apply (lookup_weaken T T').
  - eapply only_pages_mono; [exact Hop|]. intros p [->|[i Hi]]; [by left|]. apply Hnew in Hi as [Hi|Hi]; [right; right; by exists i|by right; left].
Qed.
End mapping.

(** ** [setupkvm] *)

(** No user pages. *)
Definition kernel_only (m : memory) (T : gmap Z Z) : Prop := ∀ v, 0 ≤ v < UTOP → ppage m T v = None.

Lemma kernel_space s l d T : pt_ok s l d T → kernel_only (m_mem s) T → space_ok s l d T.
Proof. intros HP Hn. split; [done|..]; [intros v f Hv|intros v w f Hv _]; by rewrite -> (Hn v Hv). Qed.

Lemma kernel_pages s d T p : kernel_only (m_mem s) T → space_pages s d T p ↔ p = d ∨ ∃ i, T !! i = Some p.
Proof.
  intros Hn. unfold space_pages. split; [|tauto]. intros [?|[?|(v & Hv & E)]]; [by left|by right|]. by rewrite -> (Hn v Hv) in E.
Qed.

Lemma kalloc_page h s l d : kmem_ready h → kmem_inv s (d :: l) →
  kalloc (h, s) = Ok d (cycle (m_use_lock s) h, taken (d :: l) s) ∧ kmem_inv (taken (d :: l) s) l ∧ page_ok s d ∧ (d ∉ l) ∧ d ≠ 0.
Proof.
  intros Hr HI. pose proof (ki_pages _ _ HI) as [Hd _]%Forall_cons. pose proof (ki_nodup _ _ HI) as [Hdl _]%NoDup_cons.
  pose proof (ki_end _ _ HI). rewrite -> (kalloc_run h s (d :: l) Hr HI). cbn [hd]. split; [done|].
  split; [by apply taken_inv|]. split; [done|]. split; [done|]. destruct Hd. klia.
Qed.

(** A page of zeros is an empty page directory. *)
Lemma empty_dir s l d :
  kmem_inv s l → page_ok s d → d ∉ l →
  let s1 := set_m_mem (memset (m_mem s) d 0 PGSIZE) s in pt_ok s1 l d ∅ ∧ only_pages (λ p, p = d) (m_mem s) (m_mem s1).
Proof.
  intros HI Hd Hdl s1. pose proof Hd as [Hdm _]. assert (only_pages (λ p, p = d) (m_mem s) (m_mem s1)) as Hop by (by apply only_pages_memset).
  split; [split|done].
  - apply (kmem_inv_frame (λ p, p = d)); [done..|by intros a Ha ->|]. apply wf_memset; [apply (ki_wf _ _ HI)|unfold PGSIZE; lia].
  - by split.
  - by intros i t ?.
  - by intros i j t ?.
  - intros i Hi. rw lookup_empty. cbn [m_mem s1 set_m_mem]. unfold ld32.
    rewrite -> !ld8_memset by (unfold PGSIZE; lia). by rewrite -> !decide_True by (unfold PGSIZE; lia).
Qed.

Lemma mappages_range pgdir va size pa perm h s l T :
  pt_ok s l pgdir T → kmem_ready h → va mod PGSIZE = 0 → size mod PGSIZE = 0 → 0 < size → 0 ≤ va → va + size ≤ 2 ^ 32 →
  0 ≤ pa → pa + size ≤ 2 ^ 32 → (∀ v, va / PGSIZE ≤ v < (va + size) / PGSIZE → pte (m_mem s) T v mod 2 = 0) →
  ∃ (b : bool) k h' s' l' T', mappages pgdir va size pa perm (h, s) = Ok (if b then 0 else -1) (h', s') ∧
    0 ≤ k ≤ size / PGSIZE ∧ (b = false → l' = []) ∧ mapped pgdir va pa perm k h s l T h' s' l' T'.
Proof.
  intros HP Hr Hva Hsm Hsz H0 Hend Hpa Hpae Hfree. unfold mappages. rewrite -> (wrapu_small 32 (va + size - 1)), !PGROUNDDOWN_eq by lia.
  assert (va / PGSIZE * PGSIZE = va) as Eva by (unfold PGSIZE in *; dlia).
  assert ((va + size - 1) / PGSIZE * PGSIZE = va + size - PGSIZE) as El by (unfold PGSIZE in *; dlia). rewrite -> Eva, El.
  rewrite -> (wrapu_small 32 (va + size - PGSIZE - va)) by (unfold PGSIZE in *; dlia).
  replace ((va + size - PGSIZE - va) / PGSIZE + 1) with (size / PGSIZE) by (unfold PGSIZE in *; dlia).
  assert (PGSIZE * (size / PGSIZE) = size ∧ 0 < size / PGSIZE) as [Es Hs1] by (unfold PGSIZE in *; dlia).
  destruct (mappages_loop_run pgdir perm (Z.to_nat (size / PGSIZE)) h s l T va pa (va + size - PGSIZE)) as (r & k & h' & s' & l' & T' & E & Hk & HM);
    try done; rw ?Z2Nat.id; try lia; try (unfold PGSIZE in *; lia).
  - intros v Hv. apply Hfree. unfold PGSIZE in *. dlia.
  - rewrite -> Z2Nat.id in Hk by lia. destruct Hk as [[-> ->]|(-> & Hk & El')].
    + exists true, (size / PGSIZE), h', s', l', T'. split_and!; [done|lia..|done|done].
    + exists false, k, h', s', l', T'. split_and!; [done|lia..|done|done].
Qed.

(** The entries of [kmap] lie in the kernel half, in order. *)
Fixpoint kmap_ok (cur : Z) (l : list kmap_entry) : Prop :=
  match l with
  | [] => True
  | k :: l =>
      let size := u32 (km_phys_end k - km_phys_start k) in
      cur ≤ km_virt k ∧ km_virt k mod PGSIZE = 0 ∧ size mod PGSIZE = 0 ∧ 0 < size ∧ km_virt k + size ≤ 2 ^ 32 ∧
      0 ≤ km_phys_start k ∧ km_phys_start k + size ≤ 2 ^ 32 ∧ kmap_ok (km_virt k + size) l
  end.

Lemma kmap_chain data : KERNLINK < data < KERNBASE + PHYSTOP → data mod PGSIZE = 0 → kmap_ok KERNBASE (kmap data).
Proof.
  intros Hd Hm. unfold KERNLINK, KERNBASE, PHYSTOP, EXTMEM, PGSIZE in *.
  assert (V2P data = data - 0x80000000) as Ev by (apply V2P_range; unfold KERNBASE, PHYSTOP; lia).
  cbn [kmap kmap_ok km_virt km_phys_start km_phys_end]. rewrite -> Ev. change (V2P KERNLINK) with 0x100000.
  change (u32 (EXTMEM - 0)) with 0x100000. change (u32 (0 - DEVSPACE)) with 0x2000000. unfold KERNBASE, KERNLINK, EXTMEM, PHYSTOP, DEVSPACE, PGSIZE.
  rewrite -> (wrapu_small 32 (data - _ - _)), (wrapu_small 32 (_ - (data - _))) by lia. split_and!; try done; unfold KERNBASE; try lia; dlia.
Qed.

Lemma omap_le {A B} (f : A → option B) (l : list A) : (length (omap f l) ≤ length l)%nat.
Proof. induction l as [|x l IH]; cbn; [done|]. destruct (f x); cbn; lia. Qed.

(** An address space with user pages below page [k] has at most [1025 + k] pages; [G]: more pages. *)
Lemma space_count s l d D k (G X : list Z) :
  space_ok s l d D → 0 ≤ k → (∀ v, k ≤ v < UTOP → ppage (m_mem s) D v = None) → NoDup X → (∀ p, p ∈ X → p ∈ G ∨ space_pages s d D p) →
  Z.of_nat (length X) ≤ 1025 + k + Z.of_nat (length G).
Proof.
  intros HS Hk Hn HX Hp. assert (X ⊆+ G ++ d :: (map_to_list D).*2 ++ omap (ppage (m_mem s) D) (seqZ 0 k)) as Hs%submseteq_length.
  { apply NoDup_submseteq; [done|]. intros p [?|[->|[[i Hi]|(v & Hv & Hf)]]]%Hp; apply elem_of_app; [by left|right; left|right; right; apply elem_of_app..].
    - left. apply list_elem_of_fmap. exists (i, p). split; [done|]. by apply elem_of_map_to_list.
    - right. apply list_elem_of_omap. exists v. split; [|done]. apply elem_of_seqZ. destruct (Z.lt_ge_cases v k); [lia|]. by rewrite -> Hn in Hf by lia. }
  assert ((map_to_list D).*1 ⊆+ seqZ 0 1024) as Hd%submseteq_length.
  { apply NoDup_submseteq; [apply NoDup_fst_map_to_list|]. intros i [[j t] [-> Hj%elem_of_map_to_list]]%list_elem_of_fmap.
    apply elem_of_seqZ. cbn. destruct (pt_tab _ _ _ _ (sp_pt _ _ _ _ HS) j t Hj). lia. }
  pose proof (omap_le (ppage (m_mem s) D) (seqZ 0 k)). rewrite -> length_seqZ in *. rewrite -> length_app in Hs. cbn [length] in Hs. rewrite -> length_app, !length_fmap in *. lia.
Qed.

Section setupkvm.
Context (d : Z).

Lemma setupkvm_loop_run ks : ∀ cur h s l T,
  pt_ok s l d T → kernel_only (m_mem s) T → kmem_ready h → KERNBASE ≤ cur → kmap_ok cur ks →
  (∀ v, cur / PGSIZE ≤ v → pte (m_mem s) T v mod 2 = 0) →
  ∃ (b : bool) h' s' l', setupkvm_loop d ks (h, s) = Ok (if b then d else 0) (h', s') ∧ (h' = h ∨ h' = cycle (m_use_lock s) h) ∧
    same_kernel s s' ∧ only_pages (λ p, p ∈ l ∨ p = d ∨ ∃ i, T !! i = Some p) (m_mem s) (m_mem s') ∧
    if b then ∃ T', pt_ok s' l' d T' ∧ kernel_only (m_mem s') T' ∧
      ∀ p, p ∈ l' ∨ space_pages s' d T' p ↔ p ∈ l ∨ space_pages s d T p
    else kmem_inv s' l' ∧ Z.of_nat (length l') ≤ 1025 ∧ ∀ p, p ∈ l' ↔ p ∈ l ∨ space_pages s d T p.
Proof.
  induction ks as [|k ks IH]; intros cur h s l T HP Hn Hr Hcur Hks Hfree; cbn [setupkvm_loop].
  { exists true, h, s, l. split_and!; try done; [by left|]. by exists T. }
  cbn [kmap_ok] in Hks. set (size := u32 (km_phys_end k - km_phys_start k)) in *.
  destruct Hks as (Hc & Hvm & Hsm & Hs0 & Hve & Hp0 & Hpe & Hks).
  assert (cur / PGSIZE ≤ km_virt k / PGSIZE) as Hdiv by (apply Z.div_le_mono; [done|lia]).
  destruct (mappages_range d (km_virt k) size (km_phys_start k) (km_perm k) h s l T) as (b & n & h1 & s1 & l1 & T1 & E1 & Hnk & Hb & HM);
    try done; [unfold KERNBASE in *; lia|intros v Hv; apply Hfree; lia|].
  rw (bind_ok _ _ _ _ _ E1). destruct HM as [HP1 Hh1 Hk1 HT (used & -> & Hu) Hnew Hop1 Hpte].
  assert (UTOP ≤ km_virt k / PGSIZE) as Hut.
  { change UTOP with (KERNBASE / PGSIZE). apply Z.div_le_mono; [done|lia]. }
  assert (∀ v, 0 ≤ v → ¬ (km_virt k / PGSIZE ≤ v < km_virt k / PGSIZE + n) → pte (m_mem s1) T1 v = pte (m_mem s) T v) as Hpn.
  { intros v Hv Hnv. rewrite -> Hpte by done. by rewrite -> decide_False. }
  assert (kernel_only (m_mem s1) T1) as Hn1.
  { intros v Hv. unfold ppage. rewrite -> Hpn by lia. by apply Hn. }
  assert (∀ p, p ∈ l1 ∨ space_pages s1 d T1 p ↔ p ∈ used ++ l1 ∨ space_pages s d T p) as Hcons.
  { intros p. rewrite -> !kernel_pages by done. split.
    - intros [?|[->|[i Hi]]]; [left; set_solver|by right; left|]. apply Hnew in Hi as [Hi|?]; [right; right; by exists i|by left].
    - intros [[Hp|Hp]%elem_of_app|[->|[i Hi]]]; [right; right; by apply Hu|by left|by right; left|].
      right; right. exists i. by apply (lookup_weaken T T1). }
  assert (only_pages (λ p, p ∈ used ++ l1 ∨ p = d ∨ ∃ i, T !! i = Some p) (m_mem s) (m_mem s1)) as Hop1'.
  { eapply only_pages_mono; [exact Hop1|]. intros p [->|[i Hi]]; [by right; left|]. apply Hnew in Hi as [Hi|?]; [right; right; by exists i|by left]. }
  assert (kmem_ready h1) as Hr1 by (by eapply kmem_ready_hw).
  assert (∀ p, p ∈ l1 ∨ p = d ∨ (∃ i, T1 !! i = Some p) → p ∈ used ++ l1 ∨ p = d ∨ ∃ i, T !! i = Some p) as Hsub.
  { intros p Hp. rewrite <- (kernel_pages s d T p Hn). apply Hcons. by rewrite -> kernel_pages. }
  destruct b; cbn [Z.ltb Z.compare].
  - destruct (IH (km_virt k + size) h1 s1 l1 T1 HP1 Hn1 Hr1 ltac:(lia) Hks) as (b & h' & s' & l' & E & Hh & Hk & Hop & Hres).
    { intros v Hv. assert ((km_virt k + size) / PGSIZE = km_virt k / PGSIZE + size / PGSIZE) as Ed by (unfold PGSIZE in *; dlia).
      assert (0 ≤ size / PGSIZE) by (apply Z.div_pos; [lia|done]). change UTOP with 524288 in Hut.
      rewrite -> Hpn by lia. apply Hfree. lia. }
    exists b, h', s', l'. split_and!; [done| |by eapply same_kernel_trans| |].
    + destruct Hk1 as (Eu & _). rewrite -> Eu in Hh. by eapply hw_cycle.
    + eapply only_pages_mono; [eapply only_pages_trans; [exact Hop1'|exact Hop]|]. intros p [?|Hp]; [done|by apply Hsub].
    + destruct b.
      * destruct Hres as (T' & HP' & Hn' & Hc'). exists T'. split_and!; [done..|]. intros p. by rw Hc' Hcons.
      * destruct Hres as (HI' & Hl & Hc'). split_and!; [done..|]. intros p. by rw Hc' Hcons.
  - destruct (freevm_run d T1 h1 s1 l1 (kernel_space _ _ _ _ HP1 Hn1) Hr1) as (h' & s' & l' & E & [HI' Hh Hk Hfr Hop]).
    rw (bind_ok _ _ _ _ _ E). exists false, h', s', l'. split_and!; [done| |by eapply same_kernel_trans| |done| |].
    + destruct Hk1 as (Eu & _). rewrite -> Eu in Hh. by eapply hw_cycle.
    + eapply only_pages_mono; [eapply only_pages_trans; [exact Hop1'|exact Hop]|]. intros p [?|Hp]; [done|].
      apply Hsub. right. by rewrite -> kernel_pages in Hp.
    + apply (space_count s1 l1 d T1 0 []); [by apply kernel_space|done|done|apply HI'|]. intros p Hp%Hfr. by rewrite -> Hb in Hp.
    + intros p. by rw Hfr Hcons.
Qed.
End setupkvm.

Lemma setupkvm_run h s l :
  kmem_inv s l → kmem_ready h → KERNLINK < m_data s < KERNBASE + PHYSTOP → m_data s mod PGSIZE = 0 →
  ∃ d h' s' l', setupkvm (h, s) = Ok d (h', s') ∧ (h' = h ∨ h' = cycle (m_use_lock s) h) ∧ same_kernel s s' ∧
    only_pages (λ p, p ∈ l) (m_mem s) (m_mem s') ∧
    if decide (d = 0) then kmem_inv s' l' ∧ Z.of_nat (length l') ≤ 1025 ∧ ∀ p, p ∈ l' ↔ p ∈ l
    else ∃ T', pt_ok s' l' d T' ∧ kernel_only (m_mem s') T' ∧ ∀ p, p ∈ l' ∨ space_pages s' d T' p ↔ p ∈ l.
Proof.
  intros HI Hr Hd Hdm. unfold setupkvm. destruct l as [|d l].
  - rw (bind_ok _ _ _ _ _ (kalloc_run h s [] Hr HI)). cbn [hd Z.eqb]. exists 0, (cycle (m_use_lock s) h), s, [].
    split_and!; try done. by right.
  - destruct (kalloc_page h s l d Hr HI) as (E1 & HI1 & Hdo & Hdl & Hd0). rw (bind_ok _ _ _ _ _ E1). rewrite -> (proj2 (Z.eqb_neq _ _) Hd0).
    set (s1 := taken (d :: l) s) in *. destruct (empty_dir s1 l d HI1 Hdo Hdl) as [HP2 Hop2]. set (s2 := set_m_mem _ s1) in *.
    rw (bind_ok _ _ _ tt (cycle (m_use_lock s) h, s2)) //. change (DEVSPACE <? P2V PHYSTOP) with false. cbn [negb].
    rw (bind_ok _ _ _ s2 (cycle (m_use_lock s) h, s2)) //.
    assert (kernel_only (m_mem s2) ∅) as Hn2 by (intros v Hv; unfold ppage, pte; by rw lookup_empty).
    destruct (setupkvm_loop_run d (kmap (m_data s)) KERNBASE (cycle (m_use_lock s) h) s2 l ∅ HP2 Hn2) as (b & h' & s' & l' & E & Hh & Hk & Hop & Hres).
    + by apply kmem_ready_cycle.
    + done.
    + by apply kmap_chain.
    + intros v Hv. unfold pte. by rw lookup_empty.
    + exists (if b then d else 0), h', s', l'. split_and!; [done| |done| |].
      * eapply hw_cycle; [by right|exact Hh].
      * eapply only_pages_mono; [eapply only_pages_trans; [exact Hop2|exact Hop]|]. intros p [->|[?|[->|[i Hi]]]]; [by left|by right|by left|by rw lookup_empty in Hi].
      * assert (∀ p, p ∈ l ∨ space_pages s2 d ∅ p ↔ p ∈ d :: l) as Ec.
        { intros p. rewrite -> kernel_pages by done. rw elem_of_cons. split; [|tauto]. intros [?|[?|[i Hi]]]; [by right|by left|by rw lookup_empty in Hi]. }
        destruct b; [rewrite -> decide_False by done|by setoid_rewrite -> Ec in Hres].
        destruct Hres as (T' & HP' & Hn' & Hc'). exists T'. split_and!; [done..|]. intros p. by rw Hc' Ec.
Qed.

(** ** [copyuvm] *)

(** An address space that other memory changes do not touch. *)
Lemma space_frame (Q : Z → Prop) s l pgdir T s' l' :
  space_ok s l pgdir T → kmem_inv s' l' → same_kernel s s' → only_pages Q (m_mem s) (m_mem s') →
  (∀ p, space_pages s pgdir T p → ¬ Q p ∧ (p ∉ l')) →
  space_ok s' l' pgdir T ∧ (∀ v, pte (m_mem s') T v = pte (m_mem s) T v) ∧ (∀ p, space_pages s' pgdir T p ↔ space_pages s pgdir T p).
Proof.
  intros [[HI [Hdo Hdl] Ht Hinj Hp] Hpg Hpi] HI' Hk Hop HQ.
  assert (∀ i t, T !! i = Some t → ¬ Q t ∧ (t ∉ l')) as HT by (intros i t Hi; apply HQ; right; left; by exists i).
  assert (∀ v, pte (m_mem s') T v = pte (m_mem s) T v) as Hpte.
  { intros v. apply (pte_frame Q); [done|]. intros i t Hi. destruct (Ht i t Hi) as (_ & [? _] & _). split; [done|]. by apply (HT i). }
  assert (∀ v, ppage (m_mem s') T v = ppage (m_mem s) T v) as Hpp by (intros v; by apply ppage_pte).
  destruct (HQ pgdir) as [HQd Hdl']; [by left|]. split_and!; [|done|].
  - split; [split|..]; try done.
    + split; [by eapply page_ok_same|done].
    + intros i t Hi. destruct (Ht i t Hi) as (H1 & H2 & _ & H4). split; [done|]. split; [by eapply page_ok_same|]. split; [by apply (HT i)|done].
    + intros i Hi. rewrite -> (ld32_page Q (m_mem s) (m_mem s') pgdir (4 * i)); [exact (Hp i Hi)|done|apply Hdo|done|unfold PGSIZE; lia].
    + intros v f Hv. rw Hpp. intros Hf. destruct (Hpg v f Hv Hf) as (H1 & _ & H3). split; [by eapply page_ok_same|]. split; [|done].
      apply HQ. right; right. by exists v.
    + intros v w f Hv Hw. rw !Hpp. by apply Hpi.
  - intros p. unfold space_pages. by setoid_rewrite -> Hpp.
Qed.

Lemma space_owned s l pgdir T p : space_ok s l pgdir T → space_pages s pgdir T p → page_ok s p ∧ p ∉ l.
Proof.
  intros [HP Hpg _] [->|[[i Hi]|(v & Hv & Hf)]].
  - apply (pt_dir _ _ _ _ HP).
  - by destruct (pt_tab _ _ _ _ HP i p Hi) as (_ & ? & ? & _).
  - by destruct (Hpg v p Hv Hf) as (? & ? & _).
Qed.

(** The user's view of a page. *)
Lemma uread_page m T b : 0 ≤ b →
  uread m T b = let e := pte m T (b / PGSIZE) in
    if (Z.land e PTE_P =? 0) || (Z.land e PTE_U =? 0) then None else Some (ld8 m (P2V (PTE_ADDR e) + b mod PGSIZE)).
Proof. intros Hb. unfold uread, upage. cbn zeta. by destruct ((_ =? 0) || (_ =? 0)). Qed.

(** Nothing changes for the user while its pages keep their entries and their
    bytes. *)
Lemma uread_frame (Q : Z → Prop) s s' T T' b :
  only_pages Q (m_mem s) (m_mem s') → 0 ≤ b → pte (m_mem s') T' (b / PGSIZE) = pte (m_mem s) T (b / PGSIZE) →
  (∀ f, ppage (m_mem s) T (b / PGSIZE) = Some f → f mod PGSIZE = 0 ∧ ¬ Q f) →
  uread (m_mem s') T' b = uread (m_mem s) T b.
Proof.
  intros Hop Hb E HQ. rewrite -> !uread_page by done. rewrite -> E. cbn zeta. unfold ppage in HQ. set (e := pte (m_mem s) T (b / PGSIZE)) in *.
  destruct (Z.land e PTE_P =? 0); [done|]. cbn [orb]. destruct (Z.land e PTE_U =? 0); [done|]. f_equal.
  destruct (HQ _ eq_refl) as [Hm HQf]. apply (Hop (P2V (PTE_ADDR e))); [done|done|]. pose proof (Z.mod_pos_bound b PGSIZE ltac:(done)). lia.
Qed.

(** A page with a copy of the bytes and the same flags looks the same. *)
Lemma uread_copy s m m' T D v f g b :
  page_ok s g → KERNBASE < m_end s → b / PGSIZE = v → 0 ≤ b → ppage m T v = Some f →
  pte m' D v = entry (V2P g) (PTE_FLAGS (pte m T v)) →
  (∀ o, 0 ≤ o < PGSIZE → ld8 m' (g + o) = ld8 m (f + o)) → uread m' D b = uread m T b.
Proof.
  intros Hg He <- Hb Hf Ed Hcopy. rewrite -> !uread_page, Ed by done. cbn zeta. unfold ppage in Hf. set (e := pte m T (b / PGSIZE)) in *.
  assert (0 ≤ PTE_FLAGS e < PGSIZE) as Hfl by (rw PTE_FLAGS_eq; apply Z.mod_pos_bound; done).
  destruct (entry_frame s g (PTE_FLAGS e) Hg He Hfl) as (Ee & Eg & Ep). rewrite -> Ep, Eg. cbn [Z.eqb orb].
  destruct (Z.land e PTE_P =? 0); [done|]. injection Hf as Hf. cbn [orb].
  assert (Z.land (entry (V2P g) (PTE_FLAGS e)) PTE_U = Z.land e PTE_U) as ->.
  { destruct (table_addr s g Hg He) as (_ & _ & Hm & _). rewrite -> Ee, !Z.land_lor_distr_l.
    assert (Z.land (V2P g) PTE_U = 0) as ->.
    { replace (V2P g) with (Z.shiftl (V2P g / PGSIZE) 12) by (rewrite -> Z.shiftl_mul_pow2 by done; unfold PGSIZE in *; dlia).
      change PTE_U with (2 ^ 2). apply Z.bits_inj'. intros n Hn. rewrite -> Z.land_spec, Z.bits_0, Z.pow2_bits_eqb by done.
      destruct (Z.eqb_spec 2 n); [|apply andb_false_r]. subst. by rewrite -> Z.shiftl_spec_low. }
    unfold PTE_FLAGS. rewrite <- Z.land_assoc. change (Z.land 4095 PTE_U) with PTE_U. change (Z.land PTE_P PTE_U) with 0.
    by rw Z.lor_0_r Z.lor_0_l. }
  case_match; [done|]. f_equal. rw Hf. apply Hcopy. apply Z.mod_pos_bound. done.
Qed.

(** Two address spaces share no page. *)
Definition apart (s : memst) (pgdir : Z) (T : gmap Z Z) (d : Z) (D : gmap Z Z) : Prop :=
  ∀ p, space_pages s pgdir T p → ¬ space_pages s d D p.

Section copy.
Context (pgdir : Z) (T : gmap Z Z) (d : Z).

(** The pages of a new address space [D] and of the free list; and without the pages that the user has in it. *)
Definition coarse (s : memst) (l : list Z) (D : gmap Z Z) (p : Z) : Prop := p ∈ l ∨ space_pages s d D p.
Definition fine (l : list Z) (D : gmap Z Z) (p : Z) : Prop := p ∈ l ∨ p = d ∨ ∃ i, D !! i = Some p.

Lemma fine_coarse s l D p : fine l D p → coarse s l D p.
Proof. intros [?|[?|?]]; [by left|right; by left|right; by right; left]. Qed.

Lemma memmove_page m g f : wf_mem m → g mod PGSIZE = 0 →
  only_pages (λ p, p = g) m (memmove m g f PGSIZE) ∧ wf_mem (memmove m g f PGSIZE) ∧
  ∀ o, 0 ≤ o < PGSIZE → ld8 (memmove m g f PGSIZE) (g + o) = ld8 m (f + o).
Proof.
  intros Hwf Hg. split_and!; [|apply wf_memmove; [done|unfold PGSIZE; lia]|].
  - intros p b Hp Hne Hb. rewrite -> ld8_memmove by (done || unfold PGSIZE; lia).
    pose proof (page_disjoint p g Hp Hg Hne). by rewrite -> decide_False by lia.
  - intros o Ho. rewrite -> ld8_memmove by (done || unfold PGSIZE; lia). rewrite -> decide_True by lia. f_equal. lia.
Qed.

(** A new frame with the contents of [m2], mapped at page [v]. *)
Lemma new_page h s g l D v m2 flags :
  kmem_inv s (g :: l) → space_ok s (g :: l) d D → kmem_ready h → 0 ≤ v < UTOP → 0 ≤ flags < PGSIZE → ppage (m_mem s) D v = None →
  only_pages (λ p, p = g) (m_mem s) m2 → wf_mem m2 →
  ∃ (b : bool) h3 s3 l3 D3,
    mappages d (v * PGSIZE) PGSIZE (V2P g) flags (h, set_m_mem m2 (taken (g :: l) s)) = Ok (if b then 0 else -1) (h3, s3) ∧
    (h3 = h ∨ h3 = cycle (m_use_lock s) h) ∧ same_kernel s s3 ∧ page_ok s g ∧ (g ∉ l3) ∧
    (b = false → l3 = [] ∧ ¬ space_pages s3 d D3 g) ∧
    only_pages (fine (g :: l) D) (m_mem s) (m_mem s3) ∧ (∀ p, fine l3 D3 p → fine (g :: l) D p) ∧ space_ok s3 l3 d D3 ∧
    (∀ p, p ∈ l3 ∨ space_pages s3 d D3 p ↔ p ∈ l ∨ space_pages s d D p ∨ (b = true ∧ p = g)) ∧
    (∀ w, 0 ≤ w < UTOP → ppage (m_mem s3) D3 w = if decide (b = true ∧ w = v) then Some g else ppage (m_mem s) D w) ∧
    (∀ w, 0 ≤ w < UTOP → w ≠ v → pte (m_mem s3) D3 w = pte (m_mem s) D w) ∧
    (b = true → pte (m_mem s3) D3 v = entry (V2P g) flags ∧ ∀ o, 0 ≤ o < PGSIZE → ld8 (m_mem s3) (g + o) = ld8 m2 (g + o)).
Proof.
  intros HI HSd Hr Hv Hfl Hn Hop2 Hwf. set (s2 := set_m_mem m2 (taken (g :: l) s)).
  destruct (kalloc_page h s l g Hr HI) as (_ & HI1 & Hgo & Hgl & Hg0). pose proof Hgo as [Hgm _].
  assert (∀ p, space_pages s d D p → p ≠ g ∧ p ∉ l) as Hdg.
  { intros p Hp. destruct (space_owned _ _ _ _ p HSd Hp) as [_ Hpl]. set_solver. }
  assert (kmem_inv s2 l) as HI2 by (apply (kmem_inv_frame (λ p, p = g)); [done..|by intros a Ha ->|done]).
  destruct (space_frame (λ p, p = g) s (g :: l) d D s2 l HSd HI2 ltac:(by split_and!) Hop2 Hdg) as (HSd2 & Hpte2 & Hpg2).
  assert (∀ w, ppage (m_mem s2) D w = ppage (m_mem s) D w) as Hpp2 by (intros w; by apply ppage_pte).
  assert (pte (m_mem s2) D v mod 2 = 0) as Hfree.
  { rw Hpte2 -land_PTE_P. unfold ppage in Hn. by destruct (Z.eqb_spec (Z.land (pte (m_mem s) D v) PTE_P) 0). }
  assert (0 ≤ v < 2 ^ 20) as Hv20 by (change UTOP with 524288 in Hv; lia).
  destruct (mappages_one d v (V2P g) flags h s2 l D (sp_pt _ _ _ _ HSd2) Hr Hv20 ltac:(by apply wrapu_range) Hfree)
    as (b & h3 & s3 & l3 & D3 & E & Hb & HM).
  assert (¬ space_pages s2 d D g) as Hgs by (intros Hp; apply Hpg2, Hdg in Hp as [? _]; done).
  destruct (space_mapped d D s2 l g v flags b h h3 s3 l3 D3 HSd2 Hgo Hgl Hgs Hv ltac:(by rw Hpp2) Hfl HM) as (HS3 & Hpp3 & Hpg3 & Hop3).
  assert (∀ p, p ∈ l3 ∨ space_pages s3 d D3 p ↔ p ∈ l ∨ space_pages s d D p ∨ (b = true ∧ p = g)) as Hpg by (intros p; by rw Hpg3 Hpg2).
  assert (g ≠ d ∧ (∀ i, D !! i ≠ Some g)) as [Hgd HgD].
  { split; [intros ->; apply Hgs; by left|]. intros i Hi. apply Hgs. right; left. by exists i. }
  exists b, h3, s3, l3, D3. split_and!; [done|apply HM|by eapply same_kernel_trans, HM|done..| | | | |done|done| | |].
  - destruct HM as [_ _ _ _ (used & -> & _) _ _ _]. set_solver.
  - intros ->. split; [by apply Hb|]. intros Hg. destruct (Hpg g) as [Hg1 _]. destruct Hg1 as [?|[?|[? _]]]; [by right|done| |done]. by apply Hgs, Hpg2.
  - eapply only_pages_mono; [eapply only_pages_trans; [exact Hop2|exact Hop3]|].
    intros p [->|[->|[?|?]]]; [left; set_solver|by right; left|left; set_solver|by right; right].
  - destruct HM as [_ _ _ _ (used & -> & _) Hnew _ _]. intros p [?|[->|[i Hi]]]; [left; set_solver|by right; left|].
    apply Hnew in Hi as [?|?]; [right; right; by exists i|left; set_solver].
  - intros w Hw. by rewrite -> Hpp3, Hpp2.
  - intros w Hw Hne. rewrite <- Hpte2. rewrite -> (mp_pte _ _ _ _ _ _ _ _ _ _ _ _ _ HM) by lia.
    rewrite -> (Z.div_mul v PGSIZE) by done. rewrite -> decide_False; [done|]. destruct b; lia.
  - intros ->. split.
    + rewrite -> (mp_pte _ _ _ _ _ _ _ _ _ _ _ _ _ HM) by lia. rewrite -> (Z.div_mul v PGSIZE) by done. rewrite -> decide_True by lia.
      by rewrite -> Z.sub_diag, Z.mul_0_r, Z.add_0_r.
    + intros o Ho. apply (Hop3 g (g + o)); [done| |lia]. intros [?|[?|[i ?]]]; [done..|by apply (HgD i)].
Qed.

(** The copy fails: its page and the new address space are given back. *)
Lemma copy_undo k h s l D g h3 s3 l3 D3 :
  space_ok s3 l3 d D3 → kmem_ready h3 → page_ok s3 g → g ∉ l3 → ¬ space_pages s3 d D3 g → h3 = h ∨ h3 = cycle (m_use_lock s) h →
  same_kernel s s3 → only_pages (coarse s (g :: l) D) (m_mem s) (m_mem s3) →
  (∀ p, p ∈ l3 ∨ space_pages s3 d D3 p ↔ p ∈ l ∨ space_pages s d D p) → l3 = [] →
  0 ≤ k → (∀ v, k ≤ v < UTOP → ppage (m_mem s3) D3 v = None) →
  ∃ h' s' l', (kfree g;; freevm d;; mret 0) (h3, s3) = Ok 0 (h', s') ∧ (h' = h ∨ h' = cycle (m_use_lock s) h) ∧
    same_kernel s s' ∧ only_pages (coarse s (g :: l) D) (m_mem s) (m_mem s') ∧ kmem_inv s' l' ∧
    Z.of_nat (length l') ≤ 1026 + k ∧ ∀ p, p ∈ l' ↔ coarse s (g :: l) D p.
Proof.
  intros HS3 Hr3 Hg Hgl Hgs Hh Hk Hop Hpg El Hk0 Hnone. pose proof (pt_inv _ _ _ _ (sp_pt _ _ _ _ HS3)) as HI3. pose proof Hg as [Hgm _].
  rw (bind_ok _ _ _ _ _ (kfree_run h3 s3 g Hr3 (ki_end _ _ HI3) Hg)).
  destruct (space_frame (λ p, p = g) s3 l3 d D3 (freed g s3) (g :: l3) HS3) as (HS4 & _ & Hpg4).
  { by apply freed_inv. } { done. } { by apply only_pages_freed. }
  { intros p Hp. destruct (space_owned _ _ _ _ p HS3 Hp) as [_ Hpl]. split; [intros ->; done|]. apply not_elem_of_cons. split; [|done]. intros ->. done. }
  destruct (freevm_run d D3 (cycle (m_use_lock s3) h3) (freed g s3) (g :: l3) HS4 (kmem_ready_cycle _ _ Hr3)) as (h' & s' & l' & E & [HI' Hh' Hk' Hfr Hop']).
  rw (bind_ok _ _ _ _ _ E). exists h', s', l'. assert (∀ p, p ∈ g :: l3 ∨ space_pages (freed g s3) d D3 p ↔ coarse s (g :: l) D p) as Hc.
  { intros p. unfold coarse. rw Hpg4 !elem_of_cons. pose proof (Hpg p). tauto. }
  destruct Hk as (Eu & Hk). change (m_use_lock (freed g s3)) with (m_use_lock s3) in Hh'. rewrite -> Eu in Hh'. split_and!; [done| |by eapply same_kernel_trans; [split|]| |done| |].
  - eapply hw_cycle; [exact Hh|]. eapply hw_cycle; [by right|done].
  - eapply only_pages_mono; [eapply only_pages_trans; [eapply only_pages_trans; [exact Hop|by apply only_pages_freed]|exact Hop']|].
    intros p [[?| ->]|?]; [done|left; by left|]. apply Hc. by right.
  - replace (1026 + k) with (1025 + k + Z.of_nat (length [g])) by (cbn; lia). apply (space_count s3 l3 d D3 k); try done; [apply HI'|].
    intros p Hp%Hfr. by rewrite -> Hpg4, El in Hp.
  - intros p. by rw Hfr Hc.
Qed.

(** What the loop of [copyuvm] has done from page [v0] to [hi]. *)
Definition copied (v0 hi : Z) (s : memst) (l : list Z) (D : gmap Z Z) (s' : memst) (l' : list Z) : Prop :=
  ∃ D', space_ok s' l' d D' ∧ (∀ p, p ∈ l' ∨ space_pages s' d D' p ↔ coarse s l D p) ∧ only_pages (fine l D) (m_mem s) (m_mem s') ∧
    (∀ b, v0 * PGSIZE ≤ b < hi * PGSIZE → uread (m_mem s') D' b = uread (m_mem s) T b) ∧
    (∀ w, 0 ≤ w < UTOP → ¬ (v0 ≤ w < hi) → pte (m_mem s') D' w = pte (m_mem s) D w) ∧
    (∀ w, v0 ≤ w < hi → is_Some (ppage (m_mem s') D' w)).

Lemma copied_step v0 hi s g l D s3 l3 D3 s' l' f :
  0 ≤ v0 < hi → hi ≤ UTOP → space_ok s (g :: l) pgdir T → space_ok s3 l3 d D3 → apart s pgdir T d D → page_ok s g → ppage (m_mem s) T v0 = Some f →
  same_kernel s s3 → only_pages (fine (g :: l) D) (m_mem s) (m_mem s3) → (∀ p, fine l3 D3 p → fine (g :: l) D p) →
  (∀ p, p ∈ l3 ∨ space_pages s3 d D3 p ↔ p ∈ l ∨ space_pages s d D p ∨ p = g) →
  ppage (m_mem s3) D3 v0 = Some g → (∀ w, 0 ≤ w < UTOP → w ≠ v0 → pte (m_mem s3) D3 w = pte (m_mem s) D w) →
  pte (m_mem s3) D3 v0 = entry (V2P g) (PTE_FLAGS (pte (m_mem s) T v0)) →
  (∀ o, 0 ≤ o < PGSIZE → ld8 (m_mem s3) (g + o) = ld8 (m_mem s) (f + o)) →
  copied (v0 + 1) hi s3 l3 D3 s' l' → (∀ v, pte (m_mem s3) T v = pte (m_mem s) T v) → copied v0 hi s (g :: l) D s' l'.
Proof.
  intros Hv0 Hhi HS HS3 Hap Hg Hf Hk Hop Hfine Hpg Hpp3 Hpte3 Hent Hcp (D' & HS' & Hpg' & Hop' & Hur & Hpte' & Hpre) HptT.
  pose proof (ki_end _ _ (pt_inv _ _ _ _ (sp_pt _ _ _ _ HS))) as He.
  assert (∀ p, coarse s3 l3 D3 p ↔ coarse s (g :: l) D p) as Hcc.
  { intros p. unfold coarse. rw Hpg elem_of_cons. tauto. }
  assert (pte (m_mem s') D' v0 = pte (m_mem s3) D3 v0) as Ev0 by (apply Hpte'; lia).
  exists D'. split_and!; [done|intros p; by rw Hpg' Hcc| | | |].
  - intros p b Hp Hn Hb. rewrite -> (Hop' p b Hp); [by apply (Hop p b Hp)| |done].
    by intros ?%Hfine.
  - intros b Hb. destruct (decide (b / PGSIZE = v0)) as [Eb|Eb].
    + transitivity (uread (m_mem s3) D3 b).
      * apply (uread_frame (fine l3 D3)); [done|unfold PGSIZE in *; lia|by rw Eb|]. rw Eb. intros f' Hf'. assert (f' = g) as -> by congruence.
        split; [apply Hg|]. destruct (sp_page _ _ _ _ HS3 v0 g ltac:(lia) Hpp3) as (_ & H1 & H2 & H3).
        intros [?|[?|[i Hi]]]; [done..|by apply (H3 i)].
      * eapply (uread_copy s); try done. unfold PGSIZE in *; lia.
    + rewrite -> Hur by (unfold PGSIZE in *; dlia). apply (uread_frame (fine (g :: l) D)); [done|unfold PGSIZE in *; lia|apply HptT|].
      intros f' Hf'. assert (space_pages s pgdir T f') as Hsp by (right; right; exists (b / PGSIZE); split; [unfold UTOP, PGSIZE, KERNBASE in *; dlia|done]).
      destruct (space_owned _ _ _ _ f' HS Hsp) as [[? _] Hl]. split; [done|]. intros Hfn. apply (fine_coarse s) in Hfn as [?|?]; [done|by apply (Hap f')].
  - intros w Hw Hn. rewrite -> Hpte', Hpte3 by lia. done.
  - intros w Hw. destruct (decide (w = v0)) as [->|]; [|apply Hpre; lia]. exists g. rewrite <- Hpp3. unfold ppage. by rewrite -> Ev0.
Qed.

(** The parent is not touched when the copy writes to the pages of [coarse]. *)
Lemma parent_kept s l D s' l' :
  space_ok s l pgdir T → apart s pgdir T d D → kmem_inv s' l' → same_kernel s s' →
  only_pages (coarse s l D) (m_mem s) (m_mem s') → (∀ p, p ∈ l' → coarse s l D p) →
  space_ok s' l' pgdir T ∧ (∀ v, pte (m_mem s') T v = pte (m_mem s) T v) ∧ (∀ p, space_pages s' pgdir T p ↔ space_pages s pgdir T p).
Proof.
  intros HS Hap HI' Hk Hop Hl. apply (space_frame (coarse s l D) s l); try done. intros p Hp.
  assert (¬ coarse s l D p) as Hn. { intros [?|?]; [by apply (space_owned _ _ _ _ p HS Hp)|by apply (Hap p)]. }
  split; [done|]. by intros ?%Hl.
Qed.

(** One iteration reads the entry of the parent's page. *)
Lemma copyuvm_iter sz fuel h s l i f :
  let v0 := i / PGSIZE in
  space_ok s l pgdir T → i < sz → 0 ≤ i < 2 ^ 32 → 0 ≤ v0 < UTOP → ppage (m_mem s) T v0 = Some f →
  copyuvm_loop (S fuel) pgdir d i sz (h, s) =
    (mem ← kalloc;
     if mem =? 0 then freevm d;; mret 0 else
     kmemmove mem f PGSIZE;;
     r ← mappages d i PGSIZE (V2P mem) (PTE_FLAGS (pte (m_mem s) T v0));
     if r <? 0 then kfree mem;; freevm d;; mret 0 else
     copyuvm_loop fuel pgdir d (u32 (i + PGSIZE)) sz) (h, s).
Proof.
  intros v0 HS Hlt Hi32 Hv Hf. pose proof (sp_pt _ _ _ _ HS) as HP. cbn [copyuvm_loop]. rewrite -> (proj2 (Z.ltb_lt _ _) Hlt). cbn [negb].
  assert (∃ t, T !! (v0 / 1024) = Some t) as [t Ht].
  { unfold ppage, pte in Hf. destruct (T !! (v0 / 1024)) as [t|]; [by exists t|done]. }
  rw (bind_ok _ _ _ _ _ (walk_present h s l pgdir T i t false HP Hi32 Ht)). fold v0.
  pose proof (present_entry pgdir T s l v0 t HS Hv Ht) as He. cbn zeta in He.
  assert (ld32 (m_mem s) (t + 4 * (v0 mod 1024)) = pte (m_mem s) T v0) as Ept by (unfold pte; by rw Ht). rewrite -> Ept in He.
  destruct (Z.land (pte (m_mem s) T v0) PTE_P =? 0) eqn:EP; [congruence|]. destruct He as (f' & Hf' & Ef & _ & _ & Ht0).
  assert (f' = f) as -> by congruence. rewrite -> (proj2 (Z.eqb_neq _ _) Ht0).
  rw (bind_ok _ _ _ (pte (m_mem s) T v0) (h, s)); [by rewrite <- Ept|]. rewrite -> EP, Ef. done.
Qed.

Lemma copyuvm_loop_run sz fuel : ∀ h s l D i,
  let hi := (sz + PGSIZE - 1) / PGSIZE in let v0 := i / PGSIZE in
  space_ok s l pgdir T → space_ok s l d D → apart s pgdir T d D → kmem_ready h → i mod PGSIZE = 0 → 0 ≤ i → sz ≤ KERNBASE →
  (∀ v, v0 ≤ v < hi → is_Some (ppage (m_mem s) T v)) → (∀ v, v0 ≤ v < UTOP → ppage (m_mem s) D v = None) →
  hi - v0 ≤ Z.of_nat fuel →
  ∃ (b : bool) h' s' l', copyuvm_loop fuel pgdir d i sz (h, s) = Ok (if b then d else 0) (h', s') ∧
    (h' = h ∨ h' = cycle (m_use_lock s) h) ∧ same_kernel s s' ∧ only_pages (coarse s l D) (m_mem s) (m_mem s') ∧
    if b then copied v0 hi s l D s' l' else kmem_inv s' l' ∧ Z.of_nat (length l') ≤ 1025 + hi ∧ ∀ p, p ∈ l' ↔ coarse s l D p.
Proof.
  induction fuel as [|fuel IH]; intros h s l D i hi v0 HS HSd Hap Hr Hi Hi0 Hsz Hpre Hnone Hfuel;
    destruct (Z.lt_ge_cases i sz) as [Hlt|Hge].
  1: exfalso; unfold hi, v0, PGSIZE in *; dlia.
  1,3: assert (hi ≤ v0) by (unfold hi, v0, PGSIZE in *; dlia); exists true, h, s, l; split_and!; try done; try (by left);
    [cbn [copyuvm_loop]; by rewrite -> (proj2 (Z.ltb_ge _ _) Hge)|];
    exists D; split_and!; try done; intros; exfalso; unfold PGSIZE in *; lia.
  assert (0 ≤ v0 < UTOP) as Hv by (change UTOP with 524288; unfold v0, KERNBASE, PGSIZE in *; dlia).
  assert (v0 < hi) as Hvh by (unfold hi, v0, PGSIZE in *; dlia).
  assert (0 ≤ i < 2 ^ 32) as Hi32 by (unfold KERNBASE in *; lia). pose proof (sp_pt _ _ _ _ HS) as HP.
  assert (i = v0 * PGSIZE) as Ei by (unfold v0, PGSIZE in *; dlia).
  destruct (Hpre v0 ltac:(lia)) as [f Hf]. rewrite -> (copyuvm_iter sz fuel h s l i f) by done. fold v0.
  pose proof (pt_inv _ _ _ _ HP) as HI. destruct l as [|g l].
  - rw (bind_ok _ _ _ _ _ (kalloc_run h s [] Hr HI)). cbn [hd Z.eqb].
    destruct (freevm_run d D (cycle (m_use_lock s) h) s [] HSd (kmem_ready_cycle _ _ Hr)) as (h' & s' & l' & E & [HI' Hh' Hk' Hfr Hop']).
    rw (bind_ok _ _ _ _ _ E). exists false, h', s', l'. split_and!; [done|eapply hw_cycle; [by right|done]|done| |done| |done].
    + eapply only_pages_mono; [exact Hop'|]. by right.
    + etransitivity; [apply (space_count s [] d D v0 []); try done; [lia|apply HI'|]|cbn [length]; lia]. by intros p ?%Hfr.
  - destruct (kalloc_page h s l g Hr HI) as (E1 & _ & _ & _ & Hg0). rw (bind_ok _ _ _ _ _ E1). rewrite -> (proj2 (Z.eqb_neq _ _) Hg0).
    assert (wf_mem (m_mem s) ∧ page_ok s g) as [Hwf [Hgm _]].
    { split; [apply (ki_wf _ _ HI)|]. by destruct (kalloc_page h s l g Hr HI) as (_ & _ & ? & _). }
    destruct (memmove_page (m_mem s) g f Hwf Hgm) as (Hop2 & Hwf2 & Hcp2).
    destruct (new_page (cycle (m_use_lock s) h) s g l D v0 (memmove (m_mem s) g f PGSIZE) (PTE_FLAGS (pte (m_mem s) T v0))) as (b & h3 & s3 & l3 & D3 & E3 & Hh3 & Hk3 & Hg & Hgl & Hgs & Hop3 & Hfine & HS3 & Hpg3 & Hpp3 & Hpte3 & Hent); try done.
    { by apply kmem_ready_cycle. } { rw PTE_FLAGS_eq. by apply Z.mod_pos_bound. } { apply Hnone. lia. }
    rw (bind_ok _ _ _ tt (cycle (m_use_lock s) h, set_m_mem (memmove (m_mem (taken (g :: l) s)) g f PGSIZE) (taken (g :: l) s))) //.
    rewrite -> Ei. rw (bind_ok _ _ _ _ _ E3). assert (h3 = h ∨ h3 = cycle (m_use_lock s) h) as Hh3' by (eapply hw_cycle; [by right|done]).
    assert (only_pages (coarse s (g :: l) D) (m_mem s) (m_mem s3)) as Hop3' by (eapply only_pages_mono; [done|apply fine_coarse]).
    assert (kmem_ready h3) as Hr3 by (by eapply kmem_ready_hw). destruct Hk3 as (Eu & Hk3'). assert (same_kernel s s3) as Hk3 by by split.
    destruct b; cbn [Z.ltb Z.compare Z.opp].
    2:{ destruct (copy_undo v0 h s l D g h3 s3 l3 D3) as (h' & s' & l' & E & ? & ? & ? & ? & ? & ?); try done; try (by apply Hgs); try lia;
          [by eapply page_ok_same|intros p; rw Hpg3; naive_solver| |exists false, h', s', l'; split_and!; try done; lia].
        intros v Hvv. rewrite -> Hpp3 by lia. rewrite -> decide_False by naive_solver. by apply Hnone. }
    destruct (Hent eq_refl) as [Hent1 Hcp3].
    assert (∀ o, 0 ≤ o < PGSIZE → ld8 (m_mem s3) (g + o) = ld8 (m_mem s) (f + o)) as Hcp by (intros; by rewrite -> Hcp3, Hcp2).
    assert (∀ p, coarse s3 l3 D3 p ↔ coarse s (g :: l) D p) as Hcc.
    { intros p. unfold coarse. rw Hpg3 elem_of_cons. tauto. }
    destruct (parent_kept s (g :: l) D s3 l3 HS Hap (pt_inv _ _ _ _ (sp_pt _ _ _ _ HS3)) Hk3 Hop3') as (HSp & HptT & HpgT).
    { intros p Hp. apply Hcc. by left. }
    rewrite <- Ei. rewrite -> (wrapu_small 32 (i + PGSIZE)) by (unfold KERNBASE, PGSIZE in *; lia).
    assert ((i + PGSIZE) / PGSIZE = v0 + 1) as En by (unfold v0, PGSIZE in *; dlia).
    destruct (IH h3 s3 l3 D3 (i + PGSIZE)) as (b & h' & s' & l' & E & Hh' & Hk' & Hop' & Hres); try done.
    { intros p Hp Hc. apply HpgT in Hp. destruct (proj1 (Hcc p)) as [?|?]; [by right|by apply (space_owned _ _ _ _ p HS Hp)|by apply (Hap p)]. }
    { unfold PGSIZE in *; dlia. } { unfold PGSIZE in *; lia. }
    { intros v Hvv. rewrite -> En in Hvv. rewrite -> (ppage_pte _ _ _ _ (HptT v)). apply Hpre. lia. }
    { intros v Hvv. rewrite -> En in Hvv. rewrite -> Hpp3 by lia.
      rewrite -> decide_False by lia. apply Hnone. lia. }
    { fold hi. lia. }
    rewrite -> En in Hres. fold hi in Hres. exists b, h', s', l'. split_and!; [done| |by eapply same_kernel_trans| |].
    + rewrite -> Eu in Hh'. by eapply hw_cycle.
    + eapply only_pages_mono; [eapply only_pages_trans; [exact Hop3'|exact Hop']|]. intros p [?|?]; [done|by apply Hcc].
    + destruct b; [|destruct Hres as (? & ? & Hl'); split_and!; [done..|]; intros p; by rw Hl' Hcc].
      eapply copied_step; try done; [lia|change UTOP with 524288; unfold hi, KERNBASE, PGSIZE in *; dlia|intros p; rw Hpg3; tauto|].
      rewrite -> Hpp3 by done. by rewrite -> decide_True.
Qed.
End copy.

(** ** [allocuvm] *)

Lemma memset_page m g : wf_mem m → g mod PGSIZE = 0 →
  only_pages (λ p, p = g) m (memset m g 0 PGSIZE) ∧ wf_mem (memset m g 0 PGSIZE) ∧
  ∀ o, 0 ≤ o < PGSIZE → ld8 (memset m g 0 PGSIZE) (g + o) = 0.
Proof.
  intros Hwf Hg. split_and!; [|apply wf_memset; [done|unfold PGSIZE; lia]|].
  - intros p b Hp Hne Hb. rewrite -> ld8_memset by (unfold PGSIZE; lia).
    pose proof (page_disjoint p g Hp Hg Hne). by rewrite -> decide_False by lia.
  - intros o Ho. rewrite -> ld8_memset by (unfold PGSIZE; lia). by rewrite -> decide_True by lia.
Qed.

Lemma shrunk_pages pgdir T lo hi h s l h' s' l' p :
  shrunk pgdir T lo hi h s l h' s' l' → 0 ≤ lo → hi ≤ UTOP →
  p ∈ l' ∨ space_pages s' pgdir T p ↔ p ∈ l ∨ space_pages s pgdir T p.
Proof.
  intros [_ _ _ (fs & -> & Hfs) Hgone Hpte _] Hlo Hhi. rw elem_of_app Hfs. unfold space_pages. split.
  - intros [[(v & Hv & E)|?]|[?|[?|(v & Hv & E)]]]; [right; right; right; exists v; split; [lia|done]|by left|by right; left|by right; right; left|].
    right; right; right. exists v. split; [done|]. destruct (decide (lo ≤ v < hi)) as [Hin|Hout]; [by rewrite -> Hgone in E|].
    rewrite <- E. unfold ppage. by rewrite -> (Hpte v ltac:(lia) Hout).
  - intros [?|[?|[?|(v & Hv & E)]]]; [by left; right|by right; left|by right; right; left|].
    destruct (decide (lo ≤ v < hi)) as [Hin|Hout]; [left; left; by exists v|]. right; right; right. exists v. split; [done|].
    rewrite <- E. unfold ppage. by rewrite -> (Hpte v ltac:(lia) Hout).
Qed.

Lemma cons_settle h : h_cons (settle h) = h_cons h.
Proof. unfold settle, upd_me. by destruct (me _). Qed.

(** Memory can be allocated and messages printed. *)
Definition alloc_ready (h : hw) : Prop := kmem_ready h ∧ cons_ok (h_cons h) ∧ h_locks h !! cons_lock = None.

Lemma alloc_ready_hw b h h' : alloc_ready h → h' = h ∨ h' = cycle b h → alloc_ready h'.
Proof.
  intros (Hr & Hc & Hl) [->| ->]; [done|]. split; [by apply kmem_ready_cycle|]. unfold cycle. destruct b; [|done]. rw cons_settle locks_settle. done.
Qed.

Lemma alloc_ready_printed out h : alloc_ready h → alloc_ready (printed out h).
Proof.
  intros ((Hw & Hm) & Hc & Hl). unfold printed.
  assert (alloc_ready (set_h_cons (foldl cons_put (h_cons h) out) h)) as Hr.
  { split; [by split; [apply wf_set_cons|]|]. split; [|done]. by apply (mfor_consputc out h tt). }
  destruct (cn_locking (h_cons h)); [|done]. by apply (alloc_ready_hw true _ _ Hr); right.
Qed.

Section grow.
Context (d oldsz newsz : Z).

(** The loop of [allocuvm] has mapped the pages [v0] to [hi]. *)
Record grown (v0 hi : Z) (s : memst) (l : list Z) (D : gmap Z Z) (s' : memst) (l' : list Z) (D' : gmap Z Z) : Prop := {
  gr_ok : space_ok s' l' d D';
  gr_pages : ∀ p, coarse d s' l' D' p ↔ coarse d s l D p;
  gr_pte : ∀ w, 0 ≤ w < UTOP → ¬ (v0 ≤ w < hi) → pte (m_mem s') D' w = pte (m_mem s) D w;
  gr_only : only_pages (fine d l D) (m_mem s) (m_mem s');
  gr_zero : ∀ b, v0 * PGSIZE ≤ b < hi * PGSIZE → uread (m_mem s') D' b = Some 0
}.

(** It has run out of memory and given the pages from [lo] to [hi] back. *)
Record undone (lo hi : Z) (s : memst) (l : list Z) (D : gmap Z Z) (s' : memst) (l' : list Z) (D' : gmap Z Z) : Prop := {
  un_ok : space_ok s' l' d D';
  un_pages : ∀ p, coarse d s' l' D' p ↔ coarse d s l D p;
  un_pte : ∀ w, 0 ≤ w < UTOP → ¬ (lo ≤ w < hi) → pte (m_mem s') D' w = pte (m_mem s) D w;
  un_gone : ∀ w, lo ≤ w < hi → ppage (m_mem s') D' w = None;
  un_only : only_pages (λ p, fine d l D p ∨ ∃ w, lo ≤ w < hi ∧ ppage (m_mem s) D w = Some p) (m_mem s) (m_mem s');
  un_full : ∀ X : list Z, NoDup X → (∀ p, p ∈ X → coarse d s l D p) → Z.of_nat (length X) ≤ 1025 + hi
}.

(** [deallocuvm] after the failure. *)
Lemma alloc_undo fmt h s l D k :
  let lo := (oldsz + PGSIZE - 1) / PGSIZE in let hi := (newsz + PGSIZE - 1) / PGSIZE in
  space_ok s [] d D → alloc_ready h → 0 ≤ oldsz ≤ newsz → newsz < KERNBASE → format fmt [] = Some l →
  0 ≤ k < hi → (∀ v, k ≤ v < UTOP → ppage (m_mem s) D v = None) →
  ∃ h' s' l', (cprintf fmt [];; deallocuvm d newsz oldsz) (h, s) = Ok oldsz (h', s') ∧ alloc_ready h' ∧ same_kernel s s' ∧
    undone lo hi s [] D s' l' D ∧ (∀ p, p ∈ l' → space_pages s d D p).
Proof.
  intros lo hi HS Hr Hsz Hn Hf Hk Hnone. pose proof Hr as ((Hw & _) & Hc & Hl).
  rw (bind_ok _ _ _ _ _ (cprintf_run fmt [] l h s Hw Hc Hl Hf)). pose proof (alloc_ready_printed l h Hr) as Hr1.
  destruct (deallocuvm_run d D newsz oldsz (printed l h) s [] HS (proj1 Hr1)) as (h' & s' & l' & E & HK); [lia..|]. fold lo hi in HK.
  rewrite -> Z.min_r in E by lia. assert (0 ≤ lo) by (unfold lo, PGSIZE; dlia).
  assert (hi ≤ UTOP) by (change UTOP with 524288; unfold hi, KERNBASE, PGSIZE in *; dlia).
  pose proof (λ p, shrunk_pages _ _ _ _ _ _ _ _ _ _ p HK ltac:(done) ltac:(done)) as Hpg.
  exists h', s', l'. split_and!; [done|by eapply alloc_ready_hw, HK|apply HK| |].
  - destruct HK as [HS' _ _ _ Hgone Hpte Hop]. split; [done|done|intros; by apply Hpte; [lia|]|done| |].
    + eapply only_pages_mono; [exact Hop|]. intros p [?|?]; [left; by right; right|by right].
    + intros X HX Hp. etransitivity; [apply (space_count s [] d D k [] X); try done; lia|cbn [length]; lia].
  - intros p Hp. destruct (proj1 (Hpg p)) as [Hnil|?]; [by left|by apply elem_of_nil in Hnil|done].
Qed.

(** A page that is mapped for the user. *)
Lemma uread_entry s m D g b :
  page_ok s g → KERNBASE < m_end s → 0 ≤ b → pte m D (b / PGSIZE) = entry (V2P g) (Z.lor PTE_W PTE_U) →
  uread m D b = Some (ld8 m (g + b mod PGSIZE)).
Proof using Type.
  intros Hg He Hb E. rewrite -> uread_page, E by done. cbn zeta. destruct (entry_frame s g (Z.lor PTE_W PTE_U) Hg He ltac:(done)) as (Ee & Eg & Ep).
  rewrite -> Ep, Eg. cbn [Z.eqb orb]. rewrite -> Ee, Z.land_lor_distr_l, (proj2 (Z.eqb_neq _ _)); [done|]. by intros [_ ?]%Z.lor_eq_0_iff.
Qed.

Lemma grown_step v0 hi s g l D s3 l3 D3 s' l' D' :
  0 ≤ v0 < hi → hi ≤ UTOP → KERNBASE < m_end s → page_ok s g → space_ok s3 l3 d D3 →
  only_pages (fine d (g :: l) D) (m_mem s) (m_mem s3) → (∀ p, fine d l3 D3 p → fine d (g :: l) D p) →
  (∀ p, coarse d s3 l3 D3 p ↔ coarse d s (g :: l) D p) → ppage (m_mem s3) D3 v0 = Some g →
  (∀ w, 0 ≤ w < UTOP → w ≠ v0 → pte (m_mem s3) D3 w = pte (m_mem s) D w) →
  pte (m_mem s3) D3 v0 = entry (V2P g) (Z.lor PTE_W PTE_U) → (∀ o, 0 ≤ o < PGSIZE → ld8 (m_mem s3) (g + o) = 0) →
  grown (v0 + 1) hi s3 l3 D3 s' l' D' → grown v0 hi s (g :: l) D s' l' D'.
Proof using Type.
  intros Hv0 Hhi He Hg HS3 Hop Hfine Hcc Hpp3 Hpte3 Hent Hz [HS' Hpg Hpte Hop' Hz']. split; [done|intros p; by rw Hpg Hcc| | |].
  - intros w Hw Hn. rewrite -> Hpte, Hpte3 by lia. done.
  - eapply only_pages_mono; [eapply only_pages_trans; [exact Hop|exact Hop']|]. intros p [?|?]; [done|by apply Hfine].
  - intros b Hb. destruct (decide (b / PGSIZE = v0)) as [Eb|Eb]; [|apply Hz'; unfold PGSIZE in *; dlia].
    assert (0 ≤ b) by (unfold PGSIZE in *; lia). transitivity (uread (m_mem s3) D3 b).
    + apply (uread_frame (fine d l3 D3)); [done|done|rw Eb; apply Hpte; lia|]. rw Eb. intros f' Hf'. assert (f' = g) as -> by congruence.
      split; [apply Hg|]. destruct (sp_page _ _ _ _ HS3 v0 g ltac:(lia) Hpp3) as (_ & H1 & H2 & H3).
      intros [?|[?|[i Hi]]]; [done..|by apply (H3 i)].
    + rewrite -> (uread_entry s _ _ g) by (done || by rw Eb). f_equal. apply Hz. by apply Z.mod_pos_bound.
Qed.

Lemma undone_step lo hi v0 s g l D s3 l3 D3 s' l' D' :
  lo ≤ v0 < hi → 0 ≤ lo → hi ≤ UTOP → only_pages (fine d (g :: l) D) (m_mem s) (m_mem s3) → (∀ p, fine d l3 D3 p → fine d (g :: l) D p) →
  (∀ p, coarse d s3 l3 D3 p ↔ coarse d s (g :: l) D p) →
  (∀ w, 0 ≤ w < UTOP → ppage (m_mem s3) D3 w = Some g ∨ ppage (m_mem s3) D3 w = ppage (m_mem s) D w) →
  (∀ w, 0 ≤ w < UTOP → w ≠ v0 → pte (m_mem s3) D3 w = pte (m_mem s) D w) →
  undone lo hi s3 l3 D3 s' l' D' → undone lo hi s (g :: l) D s' l' D'.
Proof using Type.
  intros Hv0 Hlo Hhi Hop Hfine Hcc Hpp Hpte3 [HS' Hpg Hpte Hgone Hop' Hfull]. split; [done|intros p; by rw Hpg Hcc| |done| |].
  - intros w Hw Hn. rewrite -> Hpte, Hpte3 by lia. done.
  - eapply only_pages_mono; [eapply only_pages_trans; [exact Hop|exact Hop']|]. intros p [?|[?|(w & Hw & Hf)]]; [by left|left; by apply Hfine|].
    destruct (Hpp w ltac:(lia)) as [E|E]; [left; left; assert (p = g) as -> by congruence; set_solver|]. right. exists w. by rewrite <- E.
  - intros X HX Hp. apply Hfull; [done|]. intros p ?%Hp. by apply Hcc.
Qed.

(** The page table cannot be extended: [deallocuvm] and [kfree] after the
    second failure. *)
Lemma alloc_undo_page out fmt v0 s g l D h3 s3 D3 :
  let lo := (oldsz + PGSIZE - 1) / PGSIZE in let hi := (newsz + PGSIZE - 1) / PGSIZE in
  0 ≤ oldsz ≤ newsz → newsz < KERNBASE → lo ≤ v0 < hi → format fmt [] = Some out → alloc_ready h3 → same_kernel s s3 → page_ok s g →
  space_ok s3 [] d D3 → ¬ space_pages s3 d D3 g → (∀ v, v0 ≤ v < UTOP → ppage (m_mem s) D v = None) →
  only_pages (fine d (g :: l) D) (m_mem s) (m_mem s3) → (∀ p, fine d [] D3 p → fine d (g :: l) D p) →
  (∀ p, space_pages s3 d D3 p ↔ coarse d s l D p) → (∀ w, 0 ≤ w < UTOP → ppage (m_mem s3) D3 w = ppage (m_mem s) D w) →
  (∀ w, 0 ≤ w < UTOP → w ≠ v0 → pte (m_mem s3) D3 w = pte (m_mem s) D w) →
  ∃ h' s' l', (cprintf fmt [];; deallocuvm d newsz oldsz;; kfree g;; mret 0) (h3, s3) = Ok 0 (h', s') ∧
    alloc_ready h' ∧ same_kernel s s' ∧ undone lo hi s (g :: l) D s' l' D3.
Proof using Type.
  intros lo hi Hsz Hn Hv Hf Hr3 Hk3 Hgo HS3 Hgs Hnone Hop3 Hfine Hpg3 Hpp3 Hpte3. assert (0 ≤ lo) as Hlo0 by (unfold lo, PGSIZE; dlia).
  assert (hi ≤ UTOP) as Hhi by (change UTOP with 524288; unfold hi, KERNBASE, PGSIZE in *; dlia).
  assert (∀ v, v0 ≤ v < UTOP → ppage (m_mem s3) D3 v = None) as Hn3 by (intros v Hvv; rewrite -> Hpp3 by lia; by apply Hnone).
  destruct (alloc_undo fmt h3 s3 out D3 v0 HS3 Hr3 Hsz Hn Hf ltac:(lia) Hn3) as (h2 & s2 & l2 & E & Hr2 & Hk2 & [HS2 Hpg2 Hpte2 Hgone2 Hop2 _] & Hl2).
  fold lo hi in Hpte2, Hgone2, Hop2. rewrite <- bind_assoc. rw (bind_ok _ _ _ _ _ E). pose proof (pt_inv _ _ _ _ (sp_pt _ _ _ _ HS2)) as HI2.
  assert (same_kernel s s2) as Hk by (by eapply same_kernel_trans). assert (page_ok s2 g) as Hg2 by (by eapply page_ok_same).
  assert (∀ p, coarse d s2 l2 D3 p ↔ coarse d s l D p) as Hpg by (intros p; rw Hpg2 -Hpg3; unfold coarse; set_solver).
  assert (¬ coarse d s2 l2 D3 g) as Hgc by (rw Hpg2; intros [?|?]; [set_solver|done]).
  rw (bind_ok _ _ _ _ _ (kfree_run h2 s2 g (proj1 Hr2) (ki_end _ _ HI2) Hg2)). exists (cycle (m_use_lock s2) h2), (freed g s2), (g :: l2).
  destruct (space_frame (λ p, p = g) s2 l2 d D3 (freed g s2) (g :: l2) HS2) as (HS4 & Hpte4 & Hpg4).
  { apply freed_inv; [done..|]. intros ?. apply Hgc. by left. } { done. } { apply only_pages_freed, Hg2. }
  { intros p Hp. destruct (space_owned _ _ _ _ p HS2 Hp) as [_ Hpl]. assert (p ≠ g) by (intros ->; apply Hgc; by right). set_solver. }
  split_and!; [done|by eapply alloc_ready_hw; [|by right]|done|]. split; [done| | | | |].
  - intros p. pose proof (Hpg p). unfold coarse in *. rw Hpg4 !elem_of_cons. tauto.
  - intros w Hw Hnw. rewrite -> Hpte4, Hpte2, Hpte3 by lia. done.
  - intros w Hw. rewrite -> (ppage_pte _ _ _ _ (Hpte4 w)). by apply Hgone2.
  - eapply only_pages_mono; [eapply only_pages_trans; [eapply only_pages_trans; [exact Hop3|exact Hop2]|apply only_pages_freed, Hg2]|].
    intros p [[?|[?|(w & Hw & Hpw)]]| ->]; [by left|left; by apply Hfine| |left; left; by left]. right. exists w. by rewrite <- Hpp3 by lia.
  - intros X HX Hp. etransitivity; [apply (space_count s3 [] d D3 v0 [g] X); try done; [lia|]|cbn [length]; lia].
    intros p [Hpl|Hpl]%Hp; [|right; apply Hpg3; by right]. apply elem_of_cons in Hpl as [->|?]; [left; by left|right; apply Hpg3; by left].
Qed.

Lemma allocuvm_loop_run fuel : ∀ h s l D a,
  let lo := (oldsz + PGSIZE - 1) / PGSIZE in let hi := (newsz + PGSIZE - 1) / PGSIZE in let v0 := a / PGSIZE in
  space_ok s l d D → alloc_ready h → a mod PGSIZE = 0 → 0 ≤ oldsz ≤ newsz → newsz < KERNBASE → lo ≤ v0 →
  (∀ v, v0 ≤ v < UTOP → ppage (m_mem s) D v = None) → hi - v0 ≤ Z.of_nat fuel →
  ∃ (b : bool) h' s' l' D', allocuvm_loop fuel d a oldsz newsz (h, s) = Ok (if b then newsz else 0) (h', s') ∧
    alloc_ready h' ∧ same_kernel s s' ∧ if b then grown v0 hi s l D s' l' D' else undone lo hi s l D s' l' D'.
Proof using Type.
  induction fuel as [|fuel IH]; intros h s l D a lo hi v0 HS Hr Ha Hsz Hn Hlo Hnone Hfuel; cbn [allocuvm_loop];
    destruct (Z.ltb_spec a newsz) as [Hlt|Hge]; cbn [negb].
  1: exfalso; unfold hi, v0, PGSIZE in *; dlia.
  1,3: assert (hi ≤ v0) by (unfold hi, v0, PGSIZE in *; dlia); exists true, h, s, l, D; split_and!; try done;
    split; try done; intros; exfalso; unfold PGSIZE in *; lia.
  assert (0 ≤ lo) as Hlo0 by (unfold lo, PGSIZE; dlia).
  assert (v0 < hi) as Hvh by (unfold hi, v0, PGSIZE in *; dlia).
  assert (hi ≤ UTOP) as Hhi by (change UTOP with 524288; unfold hi, KERNBASE, PGSIZE in *; dlia).
  assert (a = v0 * PGSIZE) as Ea by (unfold v0, PGSIZE in *; dlia). pose proof (pt_inv _ _ _ _ (sp_pt _ _ _ _ HS)) as HI.
  destruct l as [|g l].
  - rw (bind_ok _ _ _ _ _ (kalloc_run h s [] (proj1 Hr) HI)). cbn [hd Z.eqb].
    destruct (alloc_undo (chars "allocuvm out of memory" ++ [10]) (cycle (m_use_lock s) h) s (chars "allocuvm out of memory" ++ [10]) D v0)
      as (h' & s' & l' & E & Hr' & Hk & HU & _); try done; [by eapply alloc_ready_hw; [|by right]|lia|].
    rewrite <- bind_assoc. rw (bind_ok _ _ _ _ _ E). by exists false, h', s', l', D.
  - destruct (kalloc_page h s l g (proj1 Hr) HI) as (E1 & _ & Hgo & _ & Hg0). rw (bind_ok _ _ _ _ _ E1). rewrite -> (proj2 (Z.eqb_neq _ _) Hg0).
    destruct (memset_page (m_mem s) g (ki_wf _ _ HI) (proj1 Hgo)) as (Hop2 & Hwf2 & Hz2).
    assert (alloc_ready (cycle (m_use_lock s) h)) as Hr1 by (by eapply alloc_ready_hw; [|by right]).
    rw (bind_ok _ _ _ tt (cycle (m_use_lock s) h, set_m_mem (memset (m_mem (taken (g :: l) s)) g 0 PGSIZE) (taken (g :: l) s))) //.
    destruct (new_page d (cycle (m_use_lock s) h) s g l D v0 (memset (m_mem s) g 0 PGSIZE) (Z.lor PTE_W PTE_U)) as
      (b & h3 & s3 & l3 & D3 & E3 & Hh3 & Hk3 & _ & Hgl & Hgs & Hop3 & Hfine & HS3 & Hpg3 & Hpp3 & Hpte3 & Hent); try done; [apply Hr1|lia|apply Hnone; lia|].
    rewrite -> Ea. rw (bind_ok _ _ _ _ _ E3). rewrite <- Ea. assert (alloc_ready h3) as Hr3 by (by eapply alloc_ready_hw).
    destruct b; cbn [Z.ltb Z.compare Z.opp].
    2:{ destruct (Hgs eq_refl) as [-> Hgs'].
        destruct (alloc_undo_page (chars "allocuvm out of memory (2)" ++ [10]) (chars "allocuvm out of memory (2)" ++ [10]) v0 s g l D h3 s3 D3)
          as (h' & s' & l' & E & ?); try done; try (by exists false, h', s', l', D3).
        intros p. pose proof (Hpg3 p) as [H1 H2]. unfold coarse. split.
        - intros ?. destruct H1 as [?|[?|[? _]]]; [by right|by left|by right|done].
        - intros Hp. destruct H2 as [?%elem_of_nil|?]; [destruct Hp; auto|done|done]. }
    destruct (Hent eq_refl) as [Hent1 Hz3]. assert (∀ p, coarse d s3 l3 D3 p ↔ coarse d s (g :: l) D p) as Hcc.
    { intros p. unfold coarse. rw Hpg3 elem_of_cons. tauto. }
    rewrite -> (wrapu_small 32 (a + PGSIZE)) by (unfold KERNBASE, PGSIZE in *; lia).
    assert ((a + PGSIZE) / PGSIZE = v0 + 1) as En by (unfold v0, PGSIZE in *; dlia).
    destruct (IH h3 s3 l3 D3 (a + PGSIZE)) as (b & h' & s' & l' & D' & E & Hr' & Hk' & Hres); try done.
    { unfold PGSIZE in *; dlia. } { fold lo. lia. }
    { intros v Hvv. rewrite -> En in Hvv. rewrite -> Hpp3 by lia. rewrite -> decide_False by lia. apply Hnone. lia. } { fold hi. lia. }
    rewrite -> En in Hres. fold lo hi in Hres. exists b, h', s', l', D'. split_and!; [done|done|by eapply same_kernel_trans|]. destruct b.
    + eapply grown_step; try done; [lia|apply (ki_end _ _ HI)|rewrite -> Hpp3 by lia; by rewrite -> decide_True|intros o Ho; by rewrite -> Hz3, Hz2].
    + eapply (undone_step lo hi v0); try done. intros w Hw. rewrite -> Hpp3 by done. destruct (decide (true = true ∧ w = v0)); [by left|by right].
Qed.
End grow.

Lemma NoDup_length {A} (l1 l2 : list A) : NoDup l1 → NoDup l2 → (∀ x, x ∈ l1 ↔ x ∈ l2) → length l1 = length l2.
Proof. intros H1 H2 H. by apply Permutation_length, NoDup_Permutation. Qed.

Lemma uread_kept (Q : Z → Prop) s l pgdir T s' :
  space_ok s l pgdir T → only_pages Q (m_mem s) (m_mem s') → (∀ p, space_pages s pgdir T p → ¬ Q p) →
  (∀ v, pte (m_mem s') T v = pte (m_mem s) T v) → ∀ b, 0 ≤ b < KERNBASE → uread (m_mem s') T b = uread (m_mem s) T b.
Proof.
  intros HS Hop HQ Hpte b Hb. apply (uread_frame Q); [done|lia|apply Hpte|]. intros f Hf.
  assert (space_pages s pgdir T f) as Hp.
  { right; right. exists (b / PGSIZE). split; [change UTOP with 524288; unfold KERNBASE, PGSIZE in *; dlia|done]. }
  split; [|by apply HQ]. by destruct (space_owned _ _ _ _ f HS Hp) as [[? _] _].
Qed.

Lemma copyuvm_run (pgdir sz : Z) (h : hw) (s : memst) (l : list Z) (T : gmap Z Z) :
  let n := (sz + PGSIZE - 1) / PGSIZE in
  space_ok s l pgdir T → kmem_ready h → KERNLINK < m_data s < KERNBASE + PHYSTOP → m_data s mod PGSIZE = 0 →
  0 ≤ sz ≤ KERNBASE → (∀ v, 0 ≤ v < n → is_Some (ppage (m_mem s) T v)) →
  ∃ d h' s' l', copyuvm pgdir sz (h, s) = Ok d (h', s') ∧ (h' = h ∨ h' = cycle (m_use_lock s) h) ∧ same_kernel s s' ∧ space_ok s' l' pgdir T ∧
    (∀ p, space_pages s' pgdir T p ↔ space_pages s pgdir T p) ∧
    (∀ b, 0 ≤ b < KERNBASE → uread (m_mem s') T b = uread (m_mem s) T b) ∧
    (1025 + n < Z.of_nat (length l) → d ≠ 0) ∧
    if decide (d = 0) then ∀ p, p ∈ l' ↔ p ∈ l
    else ∃ D, space_ok s' l' d D ∧ apart s' pgdir T d D ∧ (∀ p, p ∈ l' ∨ space_pages s' d D p ↔ p ∈ l) ∧
      (∀ b, 0 ≤ b < n * PGSIZE → uread (m_mem s') D b = uread (m_mem s) T b) ∧
      (∀ v, n ≤ v < UTOP → ppage (m_mem s') D v = None).
Proof.
  intros n HS Hr Hd Hdm Hsz Hpre. unfold copyuvm. pose proof (pt_inv _ _ _ _ (sp_pt _ _ _ _ HS)) as HI.
  destruct (setupkvm_run h s l HI Hr Hd Hdm) as (d & h1 & s1 & l1 & E1 & Hh1 & Hk1 & Hop1 & Hres). rw (bind_ok _ _ _ _ _ E1).
  assert (∀ p, space_pages s pgdir T p → ¬ (p ∈ l)) as Hdis by (intros p Hp; by apply (space_owned _ _ _ _ p HS)).
  assert (∀ p, p ∈ l1 → p ∈ l) as Hsub.
  { destruct (decide (d = 0)); [intros p; by apply Hres|]. destruct Hres as (T' & _ & _ & Hc). intros p Hp. apply Hc. by left. }
  assert (kmem_inv s1 l1) as HI1 by (destruct (decide (d = 0)); [apply Hres|destruct Hres as (? & HP & _); apply HP]).
  destruct (space_frame (λ p, p ∈ l) s l pgdir T s1 l1 HS HI1 Hk1 Hop1) as (HS1 & Hpte1 & Hpg1).
  { intros p Hp. split; [by apply Hdis|]. intros ?%Hsub. by apply (Hdis p). }
  pose proof (uread_kept _ s l pgdir T s1 HS Hop1 Hdis Hpte1) as Hu1. assert (kmem_ready h1) as Hr1 by (by eapply kmem_ready_hw).
  destruct (decide (d = 0)) as [->|Hd0].
  { exists 0, h1, s1, l1. destruct Hres as (_ & Hlen & Hl1). split_and!; try done.
    intros Hlt. pose proof (NoDup_length l1 l (ki_nodup _ _ HI1) (ki_nodup _ _ HI) Hl1). unfold n, PGSIZE in *. exfalso. dlia. }
  rewrite -> (proj2 (Z.eqb_neq _ _) Hd0). destruct Hres as (D & HPd & Hkd & Hc). pose proof (kernel_space _ _ _ _ HPd Hkd) as HSd.
  assert (apart s1 pgdir T d D) as Hap.
  { intros p Hp%Hpg1 Hp'. apply (Hdis p Hp), Hc. by right. }
  destruct (copyuvm_loop_run pgdir T d sz (Z.to_nat (sz / PGSIZE + 1)) h1 s1 l1 D 0) as (b & h' & s' & l' & E & Hh' & Hk' & Hop' & Hres); try done; try lia.
  { intros v Hv. rewrite -> (ppage_pte _ _ _ _ (Hpte1 v)). by apply Hpre. } { unfold PGSIZE in *. dlia. }
  change (0 / PGSIZE) with 0 in Hres. fold n in Hres. assert (same_kernel s s') as Hk by (by eapply same_kernel_trans).
  assert (∀ p, coarse d s1 l1 D p ↔ p ∈ l) as Hcl by done.
  assert (kmem_inv s' l' ∧ ∀ p, p ∈ l' → coarse d s1 l1 D p) as [HI' Hl'].
  { destruct b; [destruct Hres as (D' & HS' & Hc' & _); split; [apply HS'|intros p ?; apply Hc'; by left]|split; [apply Hres|intros p; apply Hres]]. }
  destruct (parent_kept pgdir T d s1 l1 D s' l' HS1 Hap HI' Hk' Hop' Hl') as (HS' & Hpte' & Hpg').
  assert (∀ p, space_pages s1 pgdir T p → ¬ coarse d s1 l1 D p) as Hdis1 by (intros p Hp%Hpg1 ?%Hcl; by apply (Hdis p)).
  pose proof (uread_kept _ s1 l1 pgdir T s' HS1 Hop' Hdis1 Hpte') as Hu'.
  exists (if b then d else 0), h', s', l'. split_and!; try done; [eapply hw_cycle; [exact Hh1|]; destruct Hk1 as (<- & _); exact Hh'|intros p; by rw Hpg' Hpg1|intros; by rewrite -> Hu', Hu1|..].
  - destruct b; [done|]. intros Hlt. destruct Hres as (_ & Hlen & Hl). setoid_rewrite Hcl in Hl.
    pose proof (NoDup_length l' l (ki_nodup _ _ HI') (ki_nodup _ _ HI) Hl). lia.
  - destruct b; [|rewrite -> decide_True by done; intros p; destruct Hres as (_ & _ & Hl); by rw Hl]. rewrite -> decide_False by done.
    destruct Hres as (D' & HSd' & Hc' & _ & Hur & Hpo & _). exists D'. split_and!; try done.
    + intros p Hp%Hpg' ?. apply (Hdis1 p Hp), Hc'. by right.
    + intros p. by rw Hc'.
    + intros x Hx. rewrite -> Hur by done. apply Hu1. unfold n, KERNBASE, PGSIZE in *. dlia.
    + intros v Hv. assert (0 ≤ n) by (unfold n, PGSIZE in *; dlia). unfold ppage. rewrite -> Hpo by lia. apply (Hkd v). lia.
Qed.

(** ** Properties *)

(** C15: [fork]'s copy of an address space. [copyuvm] on a parent whose pages
    up to its size are present returns, and leaves the parent as it was: its page
    tables, its pages and every byte the user can read. When it succeeds, the child reads the same bytes
    with the same permissions on every page up to the size, has no page above it, and shares
    no page with the parent; the free list has lost exactly the pages of the child.
    When memory runs out it returns 0 and all its pages are back in the free
    list; this happens only with fewer than [1026] free pages more than pages to copy. *)
Theorem copyuvm_correct (pgdir sz : Z) (h : hw) (s : memst) (l : list Z) (T : gmap Z Z) :
  let n := (sz + PGSIZE - 1) / PGSIZE in
  space_ok s l pgdir T → kmem_ready h → KERNLINK < m_data s < KERNBASE + PHYSTOP → m_data s mod PGSIZE = 0 →
  0 ≤ sz ≤ KERNBASE → (∀ v, 0 ≤ v < n → is_Some (ppage (m_mem s) T v)) →
  ∃ d h' s' l', copyuvm pgdir sz (h, s) = Ok d (h', s') ∧ kmem_ready h' ∧ same_kernel s s' ∧ space_ok s' l' pgdir T ∧
    (∀ p, space_pages s' pgdir T p ↔ space_pages s pgdir T p) ∧
    (∀ b, 0 ≤ b < KERNBASE → uread (m_mem s') T b = uread (m_mem s) T b) ∧
    (1025 + n < Z.of_nat (length l) → d ≠ 0) ∧
    if decide (d = 0) then ∀ p, p ∈ l' ↔ p ∈ l
    else ∃ D, space_ok s' l' d D ∧ apart s' pgdir T d D ∧ (∀ p, p ∈ l' ∨ space_pages s' d D p ↔ p ∈ l) ∧
      (∀ b, 0 ≤ b < n * PGSIZE → uread (m_mem s') D b = uread (m_mem s) T b) ∧
      (∀ v, n ≤ v < UTOP → ppage (m_mem s') D v = None).
Proof.
  intros n HS Hr Hd Hdm Hsz Hpre. destruct (copyuvm_run pgdir sz h s l T HS Hr Hd Hdm Hsz Hpre) as (d & h' & s' & l' & E & Hh & H).
  exists d, h', s', l'. split; [done|]. split; [by eapply kmem_ready_hw|exact H].
Qed.

(** C16: [allocuvm] grows an address space. A size of the kernel's half is
    refused and a smaller size changes nothing. Otherwise it either succeeds,
    and the user reads zeros in the new pages; or memory runs out, it prints a message, returns 0 and none of the
    new pages is mapped. In both cases every old page keeps its entry and its bytes, no
    page of memory is lost or used twice, and it fails only with at most
    [1025] free pages more than the pages of the new size. *)
Theorem allocuvm_correct (d oldsz newsz : Z) (h : hw) (s : memst) (l : list Z) (D : gmap Z Z) :
  let lo := (oldsz + PGSIZE - 1) / PGSIZE in let hi := (newsz + PGSIZE - 1) / PGSIZE in
  space_ok s l d D → alloc_ready h → 0 ≤ oldsz → (∀ v, lo ≤ v < UTOP → ppage (m_mem s) D v = None) →
  (KERNBASE ≤ newsz → allocuvm d oldsz newsz (h, s) = Ok 0 (h, s)) ∧
  (newsz < KERNBASE → newsz < oldsz → allocuvm d oldsz newsz (h, s) = Ok oldsz (h, s)) ∧
  (oldsz ≤ newsz < KERNBASE →
   ∃ (b : bool) h' s' l' D', allocuvm d oldsz newsz (h, s) = Ok (if b then newsz else 0) (h', s') ∧
     alloc_ready h' ∧ same_kernel s s' ∧ space_ok s' l' d D' ∧
     (∀ p, p ∈ l' ∨ space_pages s' d D' p ↔ p ∈ l ∨ space_pages s d D p) ∧
     (∀ v, 0 ≤ v < UTOP → ¬ (lo ≤ v < hi) → ppage (m_mem s') D' v = ppage (m_mem s) D v) ∧
     (∀ x, 0 ≤ x < lo * PGSIZE → uread (m_mem s') D' x = uread (m_mem s) D x) ∧
     (1025 + hi < Z.of_nat (length l) → b = true) ∧
     if b then ∀ x, lo * PGSIZE ≤ x < hi * PGSIZE → uread (m_mem s') D' x = Some 0
     else ∀ v, lo ≤ v < hi → ppage (m_mem s') D' v = None).
Proof.
  intros lo hi HS Hr Ho Hnone. unfold allocuvm. split_and!.
  { intros Hb. by rewrite -> (proj2 (Z.leb_le _ _) Hb). }
  { intros Hk Hlt. by rewrite -> (proj2 (Z.leb_gt _ _) Hk), (proj2 (Z.ltb_lt _ _) Hlt). }
  intros [Hle Hk]. rewrite -> (proj2 (Z.leb_gt _ _) Hk), (proj2 (Z.ltb_ge _ _) Hle), PGROUNDUP_eq by (unfold KERNBASE, PGSIZE in *; lia). fold lo.
  assert (lo * PGSIZE / PGSIZE = lo) as El by (by apply Z.div_mul). assert (0 ≤ lo) as Hlo by (unfold lo, PGSIZE; dlia).
  assert (lo ≤ UTOP) as Hlu by (change UTOP with 524288; unfold lo, KERNBASE, PGSIZE in *; dlia).
  destruct (allocuvm_loop_run d oldsz newsz (Z.to_nat ((newsz - lo * PGSIZE) / PGSIZE + 1)) h s l D (lo * PGSIZE))
    as (b & h' & s' & l' & D' & E & Hr' & Hk' & Hres); try done; rewrite -> ?El; try done.
  { by apply Z.mod_mul. } { unfold lo, PGSIZE in *. dlia. }
  rewrite -> El in Hres. fold lo hi in Hres. exists b, h', s', l', D'.
  assert (∀ Q, only_pages Q (m_mem s) (m_mem s') → (∀ v, 0 ≤ v < UTOP → ¬ (lo ≤ v < hi) → pte (m_mem s') D' v = pte (m_mem s) D v) →
    (∀ p, Q p → p ∈ l ∨ p = d ∨ ∃ i, D !! i = Some p) → ∀ x, 0 ≤ x < lo * PGSIZE → uread (m_mem s') D' x = uread (m_mem s) D x) as Hold.
  { intros Q Hop Hpte HQ x Hx. assert (0 ≤ x / PGSIZE < lo) by (unfold PGSIZE in *; dlia).
    apply (uread_frame Q); [done|lia|apply Hpte; lia|]. intros f Hf. destruct (sp_page _ _ _ _ HS (x / PGSIZE) f ltac:(lia) Hf) as ([Hm _] & H1 & H2 & H3).
    split; [done|]. intros [?|[?|[i ?]]]%HQ; [done|done|by apply (H3 i)]. }
  destruct b.
  - destruct Hres as [HS' Hpg Hpte Hop Hz]. split_and!; try done; [|by eapply Hold]. intros v Hv Hn. unfold ppage. by rewrite -> Hpte.
  - destruct Hres as [HS' Hpg Hpte Hgone Hop Hfull]. split_and!; try done.
    + intros v Hv Hn. unfold ppage. by rewrite -> Hpte.
    + eapply Hold; [exact Hop|done|]. intros p [?|(w & Hw & Hf)]; [done|]. rewrite -> Hnone in Hf; [done|].
      split; [lia|]. change UTOP with 524288. unfold hi, KERNBASE, PGSIZE in *. dlia.
    + intros Hlt. pose proof (Hfull l (ki_nodup _ _ (pt_inv _ _ _ _ (sp_pt _ _ _ _ HS)))). exfalso.
      assert (Z.of_nat (length l) ≤ 1025 + hi); [|lia]. apply H. intros p Hp. by left.
Qed.

(** C17: shrinking and freeing an address space. [deallocuvm] unmaps exactly
    the pages between the two sizes: their frames, and nothing else, go back to the free list,
    and every other page keeps its entry. [freevm] gives back every page of the
    address space: its directory, its page tables and its frames. Neither
    can reach the panics of [kfree], and no page is freed twice. *)
Theorem deallocuvm_freevm_correct (pgdir oldsz newsz : Z) (h : hw) (s : memst) (l : list Z) (T : gmap Z Z) :
  let lo := (newsz + PGSIZE - 1) / PGSIZE in let hi := (oldsz + PGSIZE - 1) / PGSIZE in
  space_ok s l pgdir T → kmem_ready h → 0 ≤ newsz → oldsz ≤ KERNBASE →
  (∃ h' s' fs, deallocuvm pgdir oldsz newsz (h, s) = Ok (Z.min oldsz newsz) (h', s') ∧ kmem_ready h' ∧
     space_ok s' (fs ++ l) pgdir T ∧ (∀ f, f ∈ fs ↔ ∃ v, lo ≤ v < hi ∧ ppage (m_mem s) T v = Some f) ∧
     (∀ v, 0 ≤ v < UTOP → ppage (m_mem s') T v = if decide (lo ≤ v < hi) then None else ppage (m_mem s) T v)) ∧
  (∃ h' s' l', freevm pgdir (h, s) = Ok tt (h', s') ∧ kmem_ready h' ∧ kmem_inv s' l' ∧
     (∀ p, p ∈ l' ↔ p ∈ l ∨ space_pages s pgdir T p) ∧ only_pages (space_pages s pgdir T) (m_mem s) (m_mem s')).
Proof.
  intros lo hi HS Hr Hn Ho. split.
  - destruct (deallocuvm_run pgdir T oldsz newsz h s l HS Hr Hn Ho) as (h' & s' & l' & E & [HS' Hh _ (fs & -> & Hfs) Hgone Hpte _]).
    exists h', s', fs. split_and!; [done|by eapply kmem_ready_hw|done|done|]. intros v Hv. case_decide as Hin; [by apply Hgone|].
    unfold ppage. by rewrite -> Hpte by (done || lia).
  - destruct (freevm_run pgdir T h s l HS Hr) as (h' & s' & l' & E & [HI Hh _ Hfr Hop]).
    exists h', s', l'. split_and!; [done|by eapply kmem_ready_hw|done|done|done].
Qed.

(** ** Examples *)

(** User page 0, in the frame at 0x80600000, whose first word is 77. *)
Definition ex_space : memst :=
  set_m_mem (st32 (st32 (st32 (m_mem ex_kmem) ex_pgdir (V2P ex_tab + 7)) ex_tab 0x600007) 0x80600000 77) ex_kmem.

Lemma ex_space_pte v : pte (m_mem ex_space) {[0 := ex_tab]} v = if decide (v = 0) then 0x600007 else 0.
Proof.
  unfold pte, ex_space. cbn [m_mem set_m_mem]. pose proof (Z.mod_pos_bound v 1024 ltac:(lia)).
  pose proof (Z.div_mod v 1024 ltac:(lia)). destruct (decide (v / 1024 = 0)) as [E|E].
  - rw E lookup_singleton_eq. case_decide.
    + subst v. by vm_compute.
    + unfold ex_pgdir, ex_tab, ex_kmem. cbn [m_mem]. rewrite -> !ld32_st32_ne by lia. by vm_compute.
  - rw lookup_singleton_ne //. by rewrite -> decide_False by lia.
Qed.

Lemma ex_space_frame v : ppage (m_mem ex_space) {[0 := ex_tab]} v = if decide (v = 0) then Some 0x80600000 else None.
Proof. unfold ppage. rw ex_space_pte. by destruct (decide (v = 0)). Qed.

Lemma ex_space_ok : space_ok ex_space [0x80400000; 0x80401000] ex_pgdir {[0 := ex_tab]}.
Proof.
  split; [split|..].
  - assert (only_pages (λ p, p = ex_pgdir ∨ p = ex_tab ∨ p = 0x80600000) (m_mem ex_kmem) (m_mem ex_space)) as Hop.
    { set (m1 := st32 (m_mem ex_kmem) ex_pgdir (V2P ex_tab + 7)).
      pose proof (only_pages_st32 (m_mem ex_kmem) ex_pgdir (V2P ex_tab + 7) ex_pgdir ltac:(done) ltac:(done) ltac:(done)) as H1.
      pose proof (only_pages_st32 m1 ex_tab 0x600007 ex_tab ltac:(done) ltac:(done) ltac:(done)) as H2.
      pose proof (only_pages_st32 (st32 m1 ex_tab 0x600007) 0x80600000 77 0x80600000 ltac:(done) ltac:(done) ltac:(done)) as H3.
      eapply only_pages_mono; [exact (only_pages_trans _ _ _ _ _ (only_pages_trans _ _ _ _ _ H1 H2) H3)|]. cbn. tauto. }
    apply (kmem_inv_frame _ ex_kmem _ _ ex_kmem_inv Hop); [|apply wf_st32, wf_st32, wf_st32, (ki_wf _ _ ex_kmem_inv)].
    intros a Ha. unfold ex_pgdir, ex_tab. set_solver by lia.
  - split; [by split|]. set_solver.
  - intros i t [<- <-]%lookup_singleton_Some. split; [lia|]. split; [by split|]. split; [set_solver|done].
  - by intros i j t [<- _]%lookup_singleton_Some [<- _]%lookup_singleton_Some.
  - intros i Hi. destruct (decide (i = 0)) as [->|Hne].
    + rw lookup_singleton_eq. reflexivity.
    + rw lookup_singleton_ne //. unfold ex_space, ex_kmem, ex_pgdir, ex_tab. cbn [m_mem set_m_mem].
      by rewrite -> !ld32_st32_ne by lia.
  - intros v f Hv. rw ex_space_frame. case_decide; [|done]. intros [= <-]. split; [by split|]. split; [set_solver|]. split; [done|].
    by intros i [_ ?]%lookup_singleton_Some.
  - intros v w f _ _. rw !ex_space_frame. case_decide; [|done]. case_decide; [|done]. lia.
Qed.

Lemma copyuvm_correct_witness :
  ∃ d h' s' l', copyuvm ex_pgdir 16 (boot_hw, ex_space) = Ok d (h', s') ∧ space_ok s' l' ex_pgdir {[0 := ex_tab]} ∧
    uread (m_mem s') {[0 := ex_tab]} 0 = Some 77.
Proof.
  destruct (copyuvm_correct ex_pgdir 16 boot_hw ex_space _ _ ex_space_ok ex_kmem_ready) as (d & h' & s' & l' & E & _ & _ & HS & _ & Hu & _).
  - done.
  - done.
  - done.
  - intros v Hv. assert (v = 0) as -> by (change ((16 + PGSIZE - 1) / PGSIZE) with 1 in Hv; lia). rw ex_space_frame. by eexists.
  - exists d, h', s', l'. split_and!; [done|done|]. etransitivity; [exact (Hu 0 (conj (Z.le_refl 0) eq_refl))|].
    unfold uread, upage. change (0 / PGSIZE) with 0. rewrite -> (ex_space_pte 0). by vm_compute.
Defined.

Lemma allocuvm_correct_witness :
  ∃ (b : bool) h' s', allocuvm ex_pgdir 4096 8000 (boot_hw, ex_space) = Ok (if b then 8000 else 0) (h', s').
Proof.
  destruct (proj2 (proj2 (allocuvm_correct ex_pgdir 4096 8000 boot_hw ex_space _ _ ex_space_ok
    ltac:(split; [exact ex_kmem_ready|done]) ltac:(done) ltac:(intros v Hv; change ((4096 + PGSIZE - 1) / PGSIZE) with 1 in Hv; rw ex_space_frame; by rewrite -> decide_False by lia))))
    as (b & h' & s' & l' & D' & E & _); [done|]. by exists b, h', s'.
Defined.

Lemma deallocuvm_freevm_correct_witness :
  ∃ h' s' l', freevm ex_pgdir (boot_hw, ex_space) = Ok tt (h', s') ∧ kmem_inv s' l' ∧ 0x80600000 ∈ l'.
Proof.
  destruct (deallocuvm_freevm_correct ex_pgdir 4096 0 boot_hw ex_space _ _ ex_space_ok ex_kmem_ready ltac:(done) ltac:(done))
    as [_ (h' & s' & l' & E & _ & HI & Hl & _)]. exists h', s', l'. split_and!; [done|done|]. apply Hl. right; right; right. exists 0.
  split; [change UTOP with 524288; lia|]. exact (ex_space_frame 0).
Defined.
