(* ===== verification/Sleeplock.v ===== *)
(** * Sleep locks: sleeplock.c

    The operations on a sleep lock anywhere in the state of a component, and
    the protocol of the processes that use one lock, step by step with the two
    spin locks involved, to show that no wakeup is lost. *)

From S2P Require Import Prelude Machine Spinlock Mem Kalloc Sched.

(** ** State *)

Record sleeplock : Type := MkSl { sl_locked : bool; sl_pid : Z }.
#[global] Instance sleeplock_eq_dec : EqDecision sleeplock. Proof. solve_decision. Defined.

(** [&lk->lk] for the sleep lock at address [a]; the sleep lock itself is
    the sleep channel. *)
Definition sl_lk (a : objaddr) : objaddr := (("lk." ++ a.1)%string, a.2).

(** ** Operations *)

Section sleeplock.
Context {C : Type} (l : lens C sleeplock) (a : objaddr).

Definition initsleeplock : K C unit :=
  initlock (sl_lk a);;
  modc (over l (MkSl false 0)).

(** [while(lk->locked) sleep(lk, &lk->lk);] and the rest.  [sleep] does not
    return here: the loop continues in [acquiresleep_resume]. *)
Definition acquiresleep_loop : K C unit :=
  s ← getc;
  if sl_locked (view l s) then sleep (Some a) (Some (sl_lk a)) else
  me ← myproc;
  p ← proc_at me;
  modc (over l (MkSl true (p_pid p)));;
  release (sl_lk a).

Definition acquiresleep : K C unit :=
  acquire (sl_lk a);;
  acquiresleep_loop.

Definition acquiresleep_resume (p : nat) (intena : bool) : K C unit :=
  sleep_resume p (sl_lk a) intena;;
  acquiresleep_loop.

Definition releasesleep : K C unit :=
  acquire (sl_lk a);;
  s ← getc;
  me ← myproc;
  p ← proc_at me;
  if negb (sl_pid (view l s) =? p_pid p) then release (sl_lk a) else
  modc (over l (MkSl false 0));;
  wakeup (Some a);;
  release (sl_lk a).

Definition holdingsleep : K C bool :=
  acquire (sl_lk a);;
  s ← getc;
  r ← (if sl_locked (view l s) then
         me ← myproc;
         p ← proc_at me;
         mret (sl_pid (view l s) =? p_pid p)
       else mret false);
  release (sl_lk a);;
  mret r.
End sleeplock.

(** ** The state a process runs kernel code in

    The process [p] runs on the CPU; no spin lock is held. *)

Record ready (p : nat) (pr : proc) (h : hw) : Prop := {
  rd_runs : runs h p pr;
  rd_state : p_state pr = RUNNING;
  rd_locks : h_locks h = ∅
}.

(** A field of the state obeys the laws of a field. *)
Class lens_laws {D C : Type} (l : lens D C) : Prop := {
  view_over : ∀ c d, view l (over l c d) = c;
  over_view : ∀ d, over l (view l d) d = d;
  over_over : ∀ c c' d, over l c (over l c' d) = over l c d
}.

(** ** Lemmas *)

Section ready.
Context (p : nat) (pr : proc).
Implicit Types h : hw.

Lemma ready_wf h : ready p pr h → wf_hw h.
Proof. intros Hr. apply (sr_wf _ (ru_ready _ _ _ (rd_runs _ _ _ Hr))). Qed.

Lemma ready_free h lk : ready p pr h → h_locks h !! lk = None.
Proof. intros Hr. rw (rd_locks _ _ _ Hr). apply lookup_empty. Qed.

Lemma ready_settle h : ready p pr h → ready p pr (settle h).
Proof.
  intros [Hr Hs Hk]. split; [by apply runs_settle|done|by rw locks_settle].
Qed.

Lemma ready_wake chan h : ready p pr h → ready p pr (wake_all chan h).
Proof.
  intros [[[Hw Hf Hl] Hn Hc Hp] Hs Hk]. split; [split; [split|..]|..]; try done; cbn.
  - by rw length_fmap.
  - rw list_lookup_fmap Hp /=. unfold woken. by rw Hs.
Qed.

(** The table lock can be taken inside a critical section. *)
Lemma sched_ready_acq lk h :
  sched_ready h → lk ≠ ptable_lock → sched_ready (acq lk h).
Proof.
  intros [Hw Hf Hl] Hne. split; [by apply wf_acq|unfold acq; cbn; by rw lookup_insert_ne|].
  by rw procs_acq.
Qed.

Lemma wake_all_acq chan lk h : wake_all chan (acq lk h) = acq lk (wake_all chan h).
Proof. unfold wake_all. by rw procs_acq acq_set_procs. Qed.

Lemma wake_all_settle chan h : settle (wake_all chan h) = wake_all chan (settle h).
Proof. unfold wake_all. by rw settle_set_procs procs_settle. Qed.

Lemma ready_lock {C} lk h (x : C) :
  ready p pr h → acquire lk (h, x) = Ok tt (acq lk h, x).
Proof. intros Hr. apply acquire_ok; [by eapply ready_wf|by eapply ready_free]. Qed.

Lemma ready_unlock {C} lk h (x : C) :
  ready p pr h → release lk (acq lk h, x) = Ok tt (settle h, x).
Proof. intros Hr. apply release_ok; [by eapply ready_wf|by eapply ready_free]. Qed.

(** [wakeup] inside a critical section. *)
Lemma ready_wakeup {C} chan lk h (x : C) :
  ready p pr h → lk ≠ ptable_lock →
  wakeup chan (acq lk h, x) = Ok tt (acq lk (wake_all chan h), x).
Proof.
  intros Hr Hne. pose proof (ru_ready _ _ _ (rd_runs _ _ _ Hr)) as Hs.
  rewrite -> wakeup_run by (by apply sched_ready_acq).
  rewrite -> settle_acq by (by eapply ready_wf). by rw wake_all_acq.
Qed.
End ready.

Section operations.
Context {C : Type} (l : lens C sleeplock) (a : objaddr).
Implicit Types (h : hw) (x : C).

Lemma sl_lk_ptable : sl_lk a ≠ ptable_lock.
Proof. by intros [=]. Qed.

Lemma ready_myproc p pr h lk x :
  ready p pr h → myproc (acq lk h, x) = Ok (Some p) (acq lk h, x).
Proof. intros Hr. by eapply myproc_acq, rd_runs. Qed.

Lemma ready_proc p pr h lk x :
  ready p pr h → proc_at (Some p) (acq lk h, x) = Ok pr (acq lk h, x).
Proof. intros Hr. apply proc_at_ok. by apply runs_acq_proc, rd_runs. Qed.

Lemma acquiresleep_free p pr h x :
  ready p pr h → sl_locked (view l x) = false →
  acquiresleep l a (h, x) = Ok tt (settle h, over l (MkSl true (p_pid pr)) x).
Proof.
  intros Hr Hl. unfold acquiresleep, acquiresleep_loop.
  rw (bind_ok _ _ _ _ _ (ready_lock p pr _ h x Hr)) (bind_ok _ _ _ x (acq (sl_lk a) h, x)) // Hl.
  rw (bind_ok _ _ _ _ _ (ready_myproc p pr h _ x Hr)) (bind_ok _ _ _ _ _ (ready_proc p pr h _ x Hr)).
  rw bind_run. by eapply ready_unlock.
Qed.

(** A process that finds the lock taken sleeps on it. *)
Lemma acquiresleep_taken p pr h x :
  ready p pr h → sl_locked (view l x) = true →
  acquiresleep l a (h, x)
  = Stop Switch (acq ptable_lock (upd_proc p (asleep (Some a)) h), x).
Proof.
  intros Hr Hl. unfold acquiresleep, acquiresleep_loop.
  rw (bind_ok _ _ _ _ _ (ready_lock p pr _ h x Hr)) (bind_ok _ _ _ x (acq (sl_lk a) h, x)) // Hl.
  eapply sleep_run; [by apply rd_runs|apply sl_lk_ptable|by eapply ready_free].
Qed.

Lemma releasesleep_owner p pr h x :
  ready p pr h → sl_pid (view l x) = p_pid pr →
  releasesleep l a (h, x) = Ok tt (wake_all (Some a) (settle h), over l (MkSl false 0) x).
Proof.
  intros Hr Hl. unfold releasesleep.
  rw (bind_ok _ _ _ _ _ (ready_lock p pr _ h x Hr)) (bind_ok _ _ _ x (acq (sl_lk a) h, x)) //.
  rw (bind_ok _ _ _ _ _ (ready_myproc p pr h _ x Hr)) (bind_ok _ _ _ _ _ (ready_proc p pr h _ x Hr)).
  rw Hl Z.eqb_refl. cbn [negb]. rw (bind_ok _ _ _ tt (acq (sl_lk a) h, over l (MkSl false 0) x)) //.
  rw (bind_ok _ _ _ _ _ (ready_wakeup p pr (Some a) (sl_lk a) h _ Hr sl_lk_ptable)) -wake_all_settle.
  by eapply ready_unlock, ready_wake.
Qed.

(** Only the owner can release: for another process nothing changes. *)
Lemma releasesleep_other p pr h x :
  ready p pr h → sl_pid (view l x) ≠ p_pid pr →
  releasesleep l a (h, x) = Ok tt (settle h, x).
Proof.
  intros Hr Hl. unfold releasesleep.
  rw (bind_ok _ _ _ _ _ (ready_lock p pr _ h x Hr)) (bind_ok _ _ _ x (acq (sl_lk a) h, x)) //.
  rw (bind_ok _ _ _ _ _ (ready_myproc p pr h _ x Hr)) (bind_ok _ _ _ _ _ (ready_proc p pr h _ x Hr)).
  rewrite -> (proj2 (Z.eqb_neq _ _) Hl). by eapply ready_unlock.
Qed.

Lemma holdingsleep_run p pr h x :
  ready p pr h →
  holdingsleep l a (h, x)
  = Ok (sl_locked (view l x) && (sl_pid (view l x) =? p_pid pr)) (settle h, x).
Proof.
  intros Hr. unfold holdingsleep.
  rw (bind_ok _ _ _ _ _ (ready_lock p pr _ h x Hr)) (bind_ok _ _ _ x (acq (sl_lk a) h, x)) //.
  destruct (sl_locked (view l x)); cbn [andb].
  - rw bind_assoc (bind_ok _ _ _ _ _ (ready_myproc p pr h _ x Hr)).
    rw bind_assoc (bind_ok _ _ _ _ _ (ready_proc p pr h _ x Hr)).
    rw bind_run. cbn -[release]. by rw (bind_ok _ _ _ _ _ (ready_unlock p pr _ h x Hr)).
  - rw bind_run. cbn -[release]. by rw (bind_ok _ _ _ _ _ (ready_unlock p pr _ h x Hr)).
Qed.
End operations.

(** ** Properties *)

(** [acquiresleep], [releasesleep] and [holdingsleep] on every branch: a
    free lock is taken and marked with the pid of the process; on a taken one
    the process goes to sleep, leaving the lock alone; [holdingsleep] tells
    whether this process owns it; the owner's [releasesleep] frees the lock and
    makes its sleepers RUNNABLE, while for any other process it changes nothing.
    The process keeps running with no spin lock held. *)
Theorem sleeplock_operations {C : Type} (l : lens C sleeplock) (a : objaddr)
    (p : nat) (pr : proc) (h : hw) (x : C) :
  ready p pr h →
  acquiresleep l a (h, x) =
    (if sl_locked (view l x)
     then Stop Switch (acq ptable_lock (upd_proc p (asleep (Some a)) h), x)
     else Ok tt (settle h, over l (MkSl true (p_pid pr)) x)) ∧
  holdingsleep l a (h, x)
    = Ok (sl_locked (view l x) && (sl_pid (view l x) =? p_pid pr)) (settle h, x) ∧
  releasesleep l a (h, x) =
    (if sl_pid (view l x) =? p_pid pr
     then Ok tt (wake_all (Some a) (settle h), over l (MkSl false 0) x)
     else Ok tt (settle h, x)) ∧
  ready p pr (settle h) ∧ ready p pr (wake_all (Some a) (settle h)).
Proof.
  intros Hr. split_and!.
  - destruct (sl_locked (view l x)) eqn:E; [by eapply acquiresleep_taken|by eapply acquiresleep_free].
  - by eapply holdingsleep_run.
  - case_bool; [by eapply releasesleep_owner|by eapply releasesleep_other].
  - by apply ready_settle.
  - by apply ready_wake, ready_settle.
Qed.

(** ** The properties on a concrete machine *)

Definition idL (C : Type) : lens C C := Lens id (λ c _, c).

Lemma ex_machine_running : ready 0 (set_p_state RUNNING (set_p_pid 7 zero_proc)) ex_machine.
Proof. split; [apply ex_machine_runs|done..]. Qed.

Lemma sleeplock_operations_witness :
  acquiresleep (idL _) ("inode"%string, 3) (ex_machine, MkSl false 0)
  = Ok tt (settle ex_machine, MkSl true 7).
Proof.
  exact (proj1 (sleeplock_operations (idL _) ("inode"%string, 3) _ _ ex_machine (MkSl false 0)
    ex_machine_running)).
Defined.
