(* ===== verification/SleepConc.v ===== *)
(** * A sleep lock used by several processes: sleeplock.c interleaved

    Any number of processes call [acquiresleep] and [releasesleep] of one
    lock, interleaved at the operations on the two spin locks involved, [lk->lk]
    and [ptable.lock] (proc.c, [sleep] and [wakeup]). *)

From S2P Require Import Prelude.

(** ** The protocol *)

(** Where a process is. *)
Inductive zpc : Type :=
| ZIdle                (* outside, not the owner *)
| ZTest                (* acquiresleep: holds lk->lk, tests lk->locked *)
| ZTook                (* acquiresleep: owner, before release(&lk->lk) *)
| ZOwner               (* between acquiresleep and releasesleep *)
| ZSleepPt             (* sleep: before acquire(&ptable.lock) *)
| ZSleepRel            (* sleep: holds both, before release(lk) *)
| ZSleepSet            (* sleep: holds ptable.lock, before p->state = SLEEPING *)
| ZAsleep              (* SLEEPING on the lock, switched away *)
| ZRunnable            (* RUNNABLE again *)
| ZResume              (* resumed in sched, holds ptable.lock *)
| ZReacq               (* sleep: before acquire(lk) *)
| ZRelTest (own : bool)(* releasesleep: holds lk->lk, tests lk->pid *)
| ZWakePt              (* wakeup: before acquire(&ptable.lock) *)
| ZWake                (* wakeup: holds both locks *)
| ZRel (own : bool).   (* releasesleep: before release(&lk->lk) *)

#[export] Instance zpc_eq_dec : EqDecision zpc.
Proof. solve_decision. Defined.

(** [z_lk], [z_pt]: the process that holds [lk->lk], [ptable.lock];
    [z_locked], [z_pid]: the fields of the sleep lock (no pid is 0). *)
Record slst : Type := MkSlst {
  z_lk : option positive;
  z_pt : option positive;
  z_locked : bool;
  z_pid : option positive;
  z_pc : positive → zpc
}.

Definition z_at (i : positive) (c : zpc) (s : slst) : slst :=
  MkSlst (z_lk s) (z_pt s) (z_locked s) (z_pid s) (<[i := c]> (z_pc s)).
Definition with_lk (v : option positive) (s : slst) : slst :=
  MkSlst v (z_pt s) (z_locked s) (z_pid s) (z_pc s).
Definition with_pt (v : option positive) (s : slst) : slst :=
  MkSlst (z_lk s) v (z_locked s) (z_pid s) (z_pc s).
Definition with_owner (b : bool) (v : option positive) (s : slst) : slst :=
  MkSlst (z_lk s) (z_pt s) b v (z_pc s).

(** [wakeup1]: every process asleep on the lock becomes RUNNABLE. *)
Definition wake_pcs (s : slst) : slst :=
  MkSlst (z_lk s) (z_pt s) (z_locked s) (z_pid s)
    (λ i, if decide (z_pc s i = ZAsleep) then ZRunnable else z_pc s i).

Inductive sl_step (s : slst) : slst → Prop :=
| z_acquire i : z_pc s i = ZIdle → z_lk s = None → sl_step s (z_at i ZTest (with_lk (Some i) s))
| z_take i : z_pc s i = ZTest → z_locked s = false →
    sl_step s (z_at i ZTook (with_owner true (Some i) s))
| z_busy i : z_pc s i = ZTest → z_locked s = true → sl_step s (z_at i ZSleepPt s)
| z_took i : z_pc s i = ZTook → sl_step s (z_at i ZOwner (with_lk None s))
| z_sleep_pt i : z_pc s i = ZSleepPt → z_pt s = None →
    sl_step s (z_at i ZSleepRel (with_pt (Some i) s))
| z_sleep_rel i : z_pc s i = ZSleepRel → sl_step s (z_at i ZSleepSet (with_lk None s))
| z_sleep_set i : z_pc s i = ZSleepSet → sl_step s (z_at i ZAsleep (with_pt None s))
| z_killed i : z_pc s i = ZAsleep → z_pt s = None → sl_step s (z_at i ZRunnable s)
| z_dispatch i : z_pc s i = ZRunnable → z_pt s = None →
    sl_step s (z_at i ZResume (with_pt (Some i) s))
| z_resume i : z_pc s i = ZResume → sl_step s (z_at i ZReacq (with_pt None s))
| z_reacq i : z_pc s i = ZReacq → z_lk s = None → sl_step s (z_at i ZTest (with_lk (Some i) s))
| z_release i b : z_pc s i = (if b : bool then ZOwner else ZIdle) → z_lk s = None →
    sl_step s (z_at i (ZRelTest b) (with_lk (Some i) s))
| z_rel_no i b : z_pc s i = ZRelTest b → z_pid s ≠ Some i → sl_step s (z_at i (ZRel b) s)
| z_rel_ok i b : z_pc s i = ZRelTest b → z_pid s = Some i →
    sl_step s (z_at i ZWakePt (with_owner false None s))
| z_wake_pt i : z_pc s i = ZWakePt → z_pt s = None → sl_step s (z_at i ZWake (with_pt (Some i) s))
| z_wake i : z_pc s i = ZWake → sl_step s (z_at i (ZRel false) (with_pt None (wake_pcs s)))
| z_rel i b : z_pc s i = ZRel b →
    sl_step s (z_at i (if b : bool then ZOwner else ZIdle) (with_lk None s)).

(** [initsleeplock]. *)
Definition sl_init : slst := MkSlst None None false None (λ _, ZIdle).

(** ** The invariant *)

(** Who holds [lk->lk], who holds [ptable.lock], who owns the sleep lock, who
    is asleep or on the way to it, who is about to wake the sleepers. *)
Definition holds_lk (c : zpc) : bool :=
  match c with
  | ZTest | ZTook | ZSleepPt | ZSleepRel | ZRelTest _ | ZWakePt | ZWake | ZRel _ => true
  | _ => false
  end.
Definition holds_pt (c : zpc) : bool :=
  match c with ZSleepRel | ZSleepSet | ZResume | ZWake => true | _ => false end.
Definition owns (c : zpc) : bool :=
  match c with ZTook | ZOwner | ZRelTest true | ZRel true => true | _ => false end.
Definition sleeps (c : zpc) : bool :=
  match c with ZSleepPt | ZSleepRel | ZSleepSet | ZAsleep => true | _ => false end.
Definition wakes (c : zpc) : bool :=
  match c with ZWakePt | ZWake => true | _ => false end.

Record sl_inv (s : slst) : Prop := {
  zi_lk : ∀ i, z_lk s = Some i ↔ holds_lk (z_pc s i) = true;
  zi_pt : ∀ i, z_pt s = Some i ↔ holds_pt (z_pc s i) = true;
  zi_own : ∀ i, z_pid s = Some i ↔ owns (z_pc s i) = true;
  zi_locked : z_locked s = bool_decide (z_pid s ≠ None);
  zi_wake : ∀ i, sleeps (z_pc s i) = true → z_locked s = true ∨ ∃ j, wakes (z_pc s j) = true
}.

(** ** Every step preserves it *)

(** A waker other than [i] is still there after a step of [i]. *)
Lemma wakes_at s i c :
  wakes (z_pc s i) = false ∨ wakes c = true →
  (∃ j, wakes (z_pc s j) = true) → ∃ j, wakes (<[i := c]> (z_pc s) j) = true.
Proof.
  intros Hi [j Hj]. exists j. pc_cases; [|done]. destruct Hi as [Hi|Hi]; [|done].
  by rewrite -> Hi in Hj.
Qed.

(** Decide one case of the equivalences of the invariant. *)
Ltac zsolve :=
  cbn; intros; pc_cases; cbn;
  repeat match goal with
  | H : z_pc ?s ?i = _, H' : context [z_pc ?s ?i] |- _ => rewrite -> H in H'; cbn in H'
  | b : bool |- _ => destruct b
  | |- context [decide ?P] => destruct (decide P)
  end; cbn in *; intuition congruence.

Lemma sl_inv_lk s s' : sl_inv s → sl_step s s' → ∀ i, z_lk s' = Some i ↔ holds_lk (z_pc s' i) = true.
Proof.
  intros [H1 _ _ _ _] Hs j. pose proof (H1 j). destruct Hs as
    [i|i|i|i Hpc|i|i Hpc|i|i|i|i|i|i b|i b|i b|i|i|i b Hpc]; pose proof (H1 i); clear H1; zsolve.
Qed.

Lemma sl_inv_pt s s' : sl_inv s → sl_step s s' → ∀ i, z_pt s' = Some i ↔ holds_pt (z_pc s' i) = true.
Proof.
  intros [_ H2 _ _ _] Hs j. pose proof (H2 j). destruct Hs as
    [i|i|i|i Hpc|i|i Hpc|i|i|i|i|i|i b|i b|i b|i|i|i b Hpc]; pose proof (H2 i); clear H2; zsolve.
Qed.

Lemma unlocked_free s : sl_inv s → z_locked s = false → z_pid s = None.
Proof. intros Hi Hl. rewrite -> (zi_locked _ Hi) in Hl. by destruct (z_pid s). Qed.

Lemma sl_inv_own s s' : sl_inv s → sl_step s s' → ∀ i, z_pid s' = Some i ↔ owns (z_pc s' i) = true.
Proof.
  intros Hi Hs j. pose proof (unlocked_free s Hi). destruct Hi as [_ _ H3 _ _].
  pose proof (H3 j). destruct Hs as
    [i|i|i|i Hpc|i|i Hpc|i|i|i|i|i|i b|i b|i b|i|i|i b Hpc]; pose proof (H3 i); clear H3; zsolve.
Qed.

Lemma sl_inv_locked s s' : sl_inv s → sl_step s s' → z_locked s' = bool_decide (z_pid s' ≠ None).
Proof. intros Hi Hs. pose proof (zi_locked _ Hi). by destruct Hs. Qed.

(** Nobody is asleep or on the way to it while a process wakes the sleepers. *)
Lemma wake_excludes s i j :
  sl_inv s → z_pc s i = ZWake → sleeps (z_pc s j) = true → z_pc s j = ZAsleep.
Proof.
  intros [H1 H2 _ _ _] Hi Hj. pose proof (H1 i). pose proof (H1 j). pose proof (H2 i).
  pose proof (H2 j). rewrite -> Hi in *. destruct (z_pc s j) eqn:E; cbn in *; intuition congruence.
Qed.

Lemma sl_inv_wake s s' :
  sl_inv s → sl_step s s' →
  ∀ i, sleeps (z_pc s' i) = true → z_locked s' = true ∨ ∃ j, wakes (z_pc s' j) = true.
Proof.
  intros Hi Hs j. pose proof (zi_wake s Hi j) as Hj. destruct Hs as
    [i|i|i|i Hpc|i|i Hpc|i|i|i|i|i|i b Hpc|i b|i b|i|i Hpc|i b Hpc]; cbn; intros Hsl.
  all: try (by left).
  all: try (by right; exists i; rewrite -> fn_lookup_insert).
  all: pc_cases; cbn in *; try done.
  all: try (destruct Hj as [Hj|Hj]; [done || (by rewrite -> ?H)|by left|right; by apply wakes_at; [left; rewrite -> ?Hpc, ?H|]]).
  - rewrite -> Hpc in Hj. destruct (Hj eq_refl) as [|Hw]; [by left|right].
    apply wakes_at; [left; by rewrite -> Hpc|done].
  - destruct (Hj Hsl) as [|Hw]; [by left|right]. apply wakes_at; [|done].
    left. rewrite -> Hpc. by destruct b.
  - destruct (decide (z_pc s j = ZAsleep)) as [|Hne]; [done|].
    by destruct Hne; eapply wake_excludes.
  - by destruct b.
Qed.

Lemma sl_inv_step s s' : sl_inv s → sl_step s s' → sl_inv s'.
Proof.
  intros Hi Hs. split; [by eapply sl_inv_lk|by eapply sl_inv_pt|by eapply sl_inv_own| |].
  - by eapply sl_inv_locked.
  - by eapply sl_inv_wake.
Qed.

Lemma sl_reachable_inv s : rtc sl_step sl_init s → sl_inv s.
Proof.
  apply rtc_invariant; [by intros; eapply sl_inv_step|]. by split.
Qed.

(** ** Properties *)

(** C5: A sleep lock used by any number of processes, with [acquiresleep],
    [sleep], [wakeup] and [releasesleep] interleaved at their operations on the
    two spin locks: at most one process owns the lock at a time, and exactly when
    it is locked; a process that calls [releasesleep]
    without owning it fails the test of the pid and unlocks nothing; and no wakeup is lost: a process asleep on the
    lock means that the lock is taken, or that a releasing process is about
    to wake it. *)
Theorem sleeplock_no_lost_wakeup (s : slst) :
  rtc sl_step sl_init s →
  (∀ i j, owns (z_pc s i) = true → owns (z_pc s j) = true → i = j) ∧
  (z_locked s = true ↔ ∃ i, owns (z_pc s i) = true) ∧
  (∀ i, z_pc s i = ZRelTest false → z_pid s ≠ Some i) ∧
  (∀ i, z_pc s i = ZAsleep →
     (∃ j, owns (z_pc s j) = true) ∨ ∃ j, z_pc s j = ZWakePt ∨ z_pc s j = ZWake).
Proof.
  intros Hr%sl_reachable_inv. pose proof Hr as [H1 H2 H3 H4 H5].
  assert (z_locked s = true ↔ ∃ i, owns (z_pc s i) = true) as Hl.
  { rewrite -> H4, bool_decide_eq_true. destruct (z_pid s) as [k|] eqn:E.
    - split; [|done]. intros _. exists k. by apply H3.
    - split; [done|]. intros [i Hi%H3]. done. }
  split_and!; [|done|..].
  - intros i j Hi%H3 Hj%H3. congruence.
  - intros i Hi Hp%H3. by rewrite -> Hi in Hp.
  - intros i Hi. destruct (H5 i) as [Hk|[j Hj]]; [by rewrite -> Hi|left; by apply Hl|].
    right. exists j. destruct (z_pc s j); naive_solver.
Qed.

(** Process 1 owns the lock, process 2 is asleep on it. *)
Lemma ex_asleep : ∃ s, rtc sl_step sl_init s ∧ z_pc s 1%positive = ZOwner ∧ z_pc s 2%positive = ZAsleep.
Proof.
  eexists. split.
  - eapply rtc_l; [by apply (z_acquire _ 1)|]. eapply rtc_l; [by apply (z_take _ 1)|].
    eapply rtc_l; [by apply (z_took _ 1)|]. eapply rtc_l; [by apply (z_acquire _ 2)|].
    eapply rtc_l; [by apply (z_busy _ 2)|]. eapply rtc_l; [by apply (z_sleep_pt _ 2)|].
    eapply rtc_l; [by apply (z_sleep_rel _ 2)|]. eapply rtc_l; [by apply (z_sleep_set _ 2)|].
    apply rtc_refl.
  - done.
Qed.

Lemma sleeplock_no_lost_wakeup_witness :
  ∃ s, z_pc s 2%positive = ZAsleep ∧
    ((∃ j, owns (z_pc s j) = true) ∨ ∃ j, z_pc s j = ZWakePt ∨ z_pc s j = ZWake).
Proof.
  destruct ex_asleep as (s & Hr & H1 & H2). exists s. split; [done|].
  destruct (sleeplock_no_lost_wakeup s Hr) as (_ & _ & _ & H). exact (H 2%positive H2).
Defined.

