(* ===== verification/Pipe.v ===== *)
(** * Pipes: pipe.c

    The ring buffer of a pipe with its blocking [pipewrite] and [piperead].
    Bytes that a system call moves between the pipe and the memory of the process
    are lists: [pipewrite] gets the bytes of the user buffer, [piperead] returns
    the bytes it stores there. *)

From S2P Require Import Prelude Machine Spinlock Mem Kalloc Sched Sleeplock.

Definition PIPESIZE : Z := 512.

(** [struct pipe]; its lock is the lock [pipe_lock] of its address. *)
Record pipest : Type := MkPipe {
  pi_data : list Z;
  pi_nread : Z;
  pi_nwrite : Z;
  pi_readopen : bool;
  pi_writeopen : bool
}.
Definition set_pi_data (v : list Z) (r : pipest) : pipest :=
  MkPipe v (pi_nread r) (pi_nwrite r) (pi_readopen r) (pi_writeopen r).
Definition set_pi_nread (v : Z) (r : pipest) : pipest :=
  MkPipe (pi_data r) v (pi_nwrite r) (pi_readopen r) (pi_writeopen r).
Definition set_pi_nwrite (v : Z) (r : pipest) : pipest :=
  MkPipe (pi_data r) (pi_nread r) v (pi_readopen r) (pi_writeopen r).
Definition set_pi_readopen (v : bool) (r : pipest) : pipest :=
  MkPipe (pi_data r) (pi_nread r) (pi_nwrite r) v (pi_writeopen r).
Definition set_pi_writeopen (v : bool) (r : pipest) : pipest :=
  MkPipe (pi_data r) (pi_nread r) (pi_nwrite r) (pi_readopen r) v.
#[export] Hint Unfold set_pi_data set_pi_nread set_pi_nwrite set_pi_readopen set_pi_writeopen : setters.

(** [&p->lock], and the sleep channels [&p->nread] and [&p->nwrite]. *)
Definition pipe_lock (a : Z) : objaddr := ("pipe.lock"%string, a).
Definition pipe_nread (a : Z) : option objaddr := Some ("pipe.nread"%string, a).
Definition pipe_nwrite (a : Z) : option objaddr := Some ("pipe.nwrite"%string, a).

(** ** Operations *)

Section pipe.
Context {C : Type} (memL : lens C memst) (l : lens C pipest) (a : Z).

Definition getp : K C pipest := s ← getc; mret (view l s).
Definition modp (f : pipest → pipest) : K C unit := modc (λ s, over l (f (view l s)) s).

Definition pipeclose (writable : bool) : K C unit :=
  acquire (pipe_lock a);;
  (if writable then
     modp (set_pi_writeopen false);;
     wakeup (pipe_nread a)
   else
     modp (set_pi_readopen false);;
     wakeup (pipe_nwrite a));;
  p ← getp;
  if negb (pi_readopen p) && negb (pi_writeopen p) then
    release (pipe_lock a);;
    zoom memL (kfree a)
  else release (pipe_lock a).

(** [p->data[p->nwrite++ % PIPESIZE] = c], [p->data[p->nread++ % PIPESIZE]]. *)
Definition pipe_put (c : Z) (p : pipest) : pipest :=
  set_pi_nwrite (u32 (pi_nwrite p + 1))
    (set_pi_data (<[Z.to_nat (pi_nwrite p mod PIPESIZE) := c]> (pi_data p)) p).
Definition pipe_first (p : pipest) : Z := nth (Z.to_nat (pi_nread p mod PIPESIZE)) (pi_data p) 0.
Definition pipe_drop (p : pipest) : pipest := set_pi_nread (u32 (pi_nread p + 1)) p.

(** The loop of [pipewrite] over the bytes that are left; the process holds the
    lock. When the pipe is full it sleeps, and goes on in [pipewrite_resume]. *)
Fixpoint pipewrite_loop (bs : list Z) (n : Z) : K C Z :=
  match bs with
  | [] =>
      wakeup (pipe_nread a);;
      release (pipe_lock a);;
      mret n
  | c :: bs' =>
      p ← getp;
      if pi_nwrite p =? u32 (pi_nread p + PIPESIZE) then
        me ← myproc;
        pr ← proc_at me;
        if negb (pi_readopen p) || p_killed pr then
          release (pipe_lock a);;
          mret (-1)
        else
          wakeup (pipe_nread a);;
          sleep (pipe_nwrite a) (Some (pipe_lock a));;
          mret (-1)
      else
        modp (pipe_put c);;
        pipewrite_loop bs' n
  end.

Definition pipewrite (bs : list Z) (n : Z) : K C Z :=
  acquire (pipe_lock a);;
  pipewrite_loop bs n.
Definition pipewrite_resume (q : nat) (intena : bool) (bs : list Z) (n : Z) : K C Z :=
  sleep_resume q (pipe_lock a) intena;;
  pipewrite_loop bs n.

(** The copy loop of [piperead]: at most [n] bytes. *)
Fixpoint piperead_copy (n : nat) : K C (list Z) :=
  match n with
  | O => mret []
  | S n =>
      p ← getp;
      if pi_nread p =? pi_nwrite p then mret [] else
      modp pipe_drop;;
      r ← piperead_copy n;
      mret (pipe_first p :: r)
  end.

(** [piperead] with the lock held: the result is the return value and the
    bytes. *)
Definition piperead_loop (n : Z) : K C (Z * list Z) :=
  p ← getp;
  if (pi_nread p =? pi_nwrite p) && pi_writeopen p then
    me ← myproc;
    pr ← proc_at me;
    if p_killed pr then
      release (pipe_lock a);;
      mret (-1, [])
    else
      sleep (pipe_nread a) (Some (pipe_lock a));;
      mret (-1, [])
  else
    bs ← piperead_copy (Z.to_nat n);
    wakeup (pipe_nwrite a);;
    release (pipe_lock a);;
    mret (Z.of_nat (length bs), bs).

Definition piperead (n : Z) : K C (Z * list Z) :=
  acquire (pipe_lock a);;
  piperead_loop n.
Definition piperead_resume (q : nat) (intena : bool) (n : Z) : K C (Z * list Z) :=
  sleep_resume q (pipe_lock a) intena;;
  piperead_loop n.
End pipe.

(** The pipe that [pipealloc] makes in page [a]; the data bytes are what the
    page had. *)
Definition new_pipe (m : memory) (a : Z) : pipest :=
  MkPipe ((λ i, ld8 m (a + 52 + i)) <$> seqZ 0 PIPESIZE) 0 0 true true.

(** ** The bytes in a pipe *)

Definition pipe_len (p : pipest) : Z := u32 (pi_nwrite p - pi_nread p).
Definition pipe_queue (p : pipest) : list Z :=
  (λ i, nth (Z.to_nat ((pi_nread p + Z.of_nat i) mod PIPESIZE)) (pi_data p) 0) <$> seq 0 (Z.to_nat (pipe_len p)).

Record pipe_inv (p : pipest) : Prop := {
  pv_data : length (pi_data p) = Z.to_nat PIPESIZE;
  pv_nread : 0 ≤ pi_nread p < 2 ^ 32;
  pv_nwrite : 0 ≤ pi_nwrite p < 2 ^ 32;
  pv_len : pipe_len p ≤ PIPESIZE
}.

(** ** Lemmas *)

(** *** The ring buffer *)

Section queue.
Implicit Types (p : pipest).

Lemma pipe_len_range p : 0 ≤ pipe_len p < 2 ^ 32.
Proof. apply wrapu_range. lia. Qed.

(** The write index is the read index plus the length, also around 2^32. *)
Lemma pipe_index p : (pi_nread p + pipe_len p) mod PIPESIZE = pi_nwrite p mod PIPESIZE.
Proof.
  unfold pipe_len, wrapu, PIPESIZE. pose proof (Z.div_mod (pi_nwrite p - pi_nread p) (2 ^ 32) ltac:(lia)) as E.
  replace (pi_nread p + (pi_nwrite p - pi_nread p) mod 2 ^ 32)
    with (pi_nwrite p + (- ((pi_nwrite p - pi_nread p) / 2 ^ 32) * 2 ^ 23) * 512) by lia.
  apply Z.mod_add. lia.
Qed.

Lemma pipe_full p : pipe_inv p → (pi_nwrite p =? u32 (pi_nread p + PIPESIZE)) = (pipe_len p =? PIPESIZE).
Proof.
  intros [_ Hr Hw _]. unfold pipe_len, wrapu, PIPESIZE.
  apply eq_true_iff_eq. rewrite -> !Z.eqb_eq. split; intros E.
  - rewrite -> E, Zminus_mod_idemp_l. replace (pi_nread p + 512 - pi_nread p) with 512 by lia. done.
  - rewrite <- E, Zplus_mod_idemp_r. replace (pi_nread p + (pi_nwrite p - pi_nread p)) with (pi_nwrite p) by lia.
    by rewrite -> Z.mod_small by lia.
Qed.

Lemma pipe_empty p : pipe_inv p → (pi_nread p =? pi_nwrite p) = (pipe_len p =? 0).
Proof.
  intros [_ Hr Hw _]. unfold pipe_len, wrapu. apply eq_true_iff_eq. rewrite -> !Z.eqb_eq. split; intros E.
  - rw E Z.sub_diag. done.
  - apply Z.mod_divide in E as [k E]; [|lia]. lia.
Qed.

Lemma length_queue p : Z.of_nat (length (pipe_queue p)) = pipe_len p.
Proof. unfold pipe_queue. rw length_fmap length_seq. pose proof (pipe_len_range p). lia. Qed.

Lemma mod_shift_ne x i n : 0 ≤ i < n → n < PIPESIZE → (x + i) mod PIPESIZE ≠ (x + n) mod PIPESIZE.
Proof.
  unfold PIPESIZE. intros Hi Hn E. pose proof (Z.div_mod (x + i) 512). pose proof (Z.div_mod (x + n) 512). lia.
Qed.

Lemma pipe_put_queue p c :
  pipe_inv p → pipe_len p < PIPESIZE →
  pipe_inv (pipe_put c p) ∧ pipe_queue (pipe_put c p) = pipe_queue p ++ [c] ∧ pipe_len (pipe_put c p) = pipe_len p + 1.
Proof.
  intros [Hd Hr Hw Hl] Hlt. pose proof (pipe_len_range p) as Hlr.
  assert (pipe_len (pipe_put c p) = pipe_len p + 1) as El.
  { unfold pipe_len, pipe_put. unset. cbn. unfold wrapu. rewrite -> Zminus_mod_idemp_l.
    replace (pi_nwrite p + 1 - pi_nread p) with (pi_nwrite p - pi_nread p + 1) by lia.
    rewrite <- Zplus_mod_idemp_l. apply Z.mod_small. unfold pipe_len, wrapu, PIPESIZE in *. lia. }
  split_and!; [split| |done].
  - unfold pipe_put. unset. cbn. by rw length_insert.
  - done.
  - unfold pipe_put. unset. cbn. apply wrapu_range. lia.
  - rw El. lia.
  - unfold pipe_queue. rw El. replace (Z.to_nat (pipe_len p + 1)) with (S (Z.to_nat (pipe_len p))) by lia.
    rw seq_S fmap_app. cbn [fmap list_fmap Nat.add]. f_equal.
    + apply list_fmap_ext. intros k i Hk. apply lookup_seq in Hk as [-> Hk]. unfold pipe_put. unset. cbn [pi_data pi_nread pi_nwrite].
      rewrite -> !nth_lookup. rewrite -> list_lookup_insert_ne; [done|]. rewrite <- pipe_index.
      intros E. apply (mod_shift_ne (pi_nread p) (Z.of_nat (0 + k)) (pipe_len p)); [lia|done|].
      apply Z2Nat.inj; [by apply Z.mod_pos_bound..|]. by symmetry.
    + f_equal. unfold pipe_put. unset. cbn [pi_data pi_nread pi_nwrite]. rewrite -> Z2Nat.id, pipe_index, nth_lookup by lia.
      rewrite -> list_lookup_insert_eq; [done|]. rw Hd. pose proof (Z.mod_pos_bound (pi_nwrite p) PIPESIZE ltac:(done)). lia.
Qed.

Lemma pipe_drop_queue p :
  pipe_inv p → 0 < pipe_len p →
  pipe_inv (pipe_drop p) ∧ pipe_queue p = pipe_first p :: pipe_queue (pipe_drop p).
Proof.
  intros [Hd Hr Hw Hl] Hpos. pose proof (pipe_len_range p) as Hlr.
  assert (pipe_len (pipe_drop p) = pipe_len p - 1) as El.
  { unfold pipe_len, pipe_drop. unset. cbn. unfold wrapu. rewrite -> Zminus_mod_idemp_r.
    replace (pi_nwrite p - (pi_nread p + 1)) with (pi_nwrite p - pi_nread p - 1) by lia.
    rewrite <- Zminus_mod_idemp_l. apply Z.mod_small. unfold pipe_len, wrapu in *. lia. }
  split; [split|].
  - done.
  - apply wrapu_range. lia.
  - done.
  - rw El. lia.
  - unfold pipe_queue at 1. replace (Z.to_nat (pipe_len p)) with (S (Z.to_nat (pipe_len (pipe_drop p)))) by (rw El; lia).
    cbn [seq fmap list_fmap]. f_equal.
    + unfold pipe_first. by rewrite -> Z.add_0_r.
    + rw -fmap_S_seq -list_fmap_compose. apply list_fmap_ext. intros k i _. cbn. unfold pipe_drop. unset. cbn.
      do 2 f_equal. unfold wrapu, PIPESIZE. rewrite <- (Zplus_mod_idemp_l ((pi_nread p + 1) mod 2 ^ 32)).
      rewrite -> (Z.mod_mod_divide _ (2 ^ 32) 512) by (by exists (2 ^ 23)).
      rewrite -> Zplus_mod_idemp_l. f_equal. lia.
Qed.
End queue.

(** *** The operations *)

Definition put_all (p : pipest) (bs : list Z) : pipest := foldl (λ p c, pipe_put c p) p bs.

Lemma put_all_queue bs : ∀ p,
  pipe_inv p → pipe_len p + Z.of_nat (length bs) ≤ PIPESIZE →
  pipe_inv (put_all p bs) ∧ pipe_queue (put_all p bs) = pipe_queue p ++ bs ∧
  pi_readopen (put_all p bs) = pi_readopen p ∧ pi_writeopen (put_all p bs) = pi_writeopen p.
Proof.
  induction bs as [|c bs IH]; intros p Hp Hl; cbn in *; [by rw app_nil_r|].
  destruct (pipe_put_queue p c Hp ltac:(lia)) as (Hp' & Hq & Hl').
  destruct (IH (pipe_put c p) Hp' ltac:(lia)) as (IH1 & IH2 & IH3 & IH4). split_and!; [done| |done|done].
  by rw IH2 Hq -app_assoc.
Qed.

Section operations.
Context {C : Type} (memL : lens C memst) (l : lens C pipest) `{HLL : !lens_laws l} (a : Z) (p : nat) (pr : proc).
Implicit Types (h : hw) (x : C).

Lemma pipe_ptable : pipe_lock a ≠ ptable_lock.
Proof using Type. by intros [=]. Qed.

Lemma getp_run h x : getp l (h, x) = Ok (view l x) (h, x).
Proof using Type. done. Qed.

Lemma pipewrite_loop_run n bs : ∀ h x,
  ready p pr h → pipe_inv (view l x) →
  let room := Z.to_nat (PIPESIZE - pipe_len (view l x)) in
  let x' := over l (put_all (view l x) (take room bs)) x in
  pipewrite_loop l a bs n (acq (pipe_lock a) h, x) =
    if decide (length bs ≤ room)%nat then Ok n (settle (wake_all (pipe_nread a) h), x')
    else if negb (pi_readopen (view l x)) || p_killed pr then Ok (-1) (settle h, x')
    else Stop Switch (acq ptable_lock (upd_proc p (asleep (pipe_nwrite a)) (wake_all (pipe_nread a) h)), x').
Proof using HLL.
  induction bs as [|c bs IH]; intros h x Hr Hi room x'.
  - cbn [pipewrite_loop]. rewrite -> decide_True by (cbn; lia).
    rw (bind_ok _ _ _ _ _ (ready_wakeup p pr (pipe_nread a) _ h x Hr pipe_ptable)).
    rw (bind_ok _ _ _ _ _ (ready_unlock p pr _ _ x (ready_wake p pr _ h Hr))). unfold x'. rw take_nil /=. by rw over_view.
  - cbn [pipewrite_loop]. rw (bind_ok _ _ _ _ _ (getp_run _ x)) pipe_full //.
    pose proof (pipe_len_range (view l x)). pose proof (pv_len _ Hi). case_bool.
    + assert (room = 0%nat) as Er by lia. rw Er. rewrite -> decide_False by (cbn; lia).
      assert (x' = x) as ->. { unfold x'. rw Er take_0 /=. apply over_view. }
      rw (bind_ok _ _ _ _ _ (ready_myproc p pr h _ x Hr)) (bind_ok _ _ _ _ _ (ready_proc p pr h _ x Hr)).
      case_match.
      * by rw (bind_ok _ _ _ _ _ (ready_unlock p pr _ h x Hr)).
      * rw (bind_ok _ _ _ _ _ (ready_wakeup p pr (pipe_nread a) _ h x Hr pipe_ptable)).
        rw (bind_stop _ _ _ _ _ (sleep_run _ p pr _ (pipe_nwrite a) x (rd_runs _ _ _ (ready_wake p pr _ h Hr)) pipe_ptable (ready_free p pr _ _ (ready_wake p pr _ h Hr)))).
        done.
    + rw (bind_ok _ _ _ tt (acq (pipe_lock a) h, over l (pipe_put c (view l x)) x)) //.
      destruct (pipe_put_queue (view l x) c Hi ltac:(lia)) as (Hi' & _ & Hl').
      specialize (IH h (over l (pipe_put c (view l x)) x) Hr). rw view_over in IH. specialize (IH Hi').
      cbv zeta in IH. rw IH Hl' over_over. unfold x', room in *.
      replace (Z.to_nat (PIPESIZE - pipe_len (view l x))) with (S (Z.to_nat (PIPESIZE - (pipe_len (view l x) + 1)))) by lia.
      cbn [length take]. repeat case_decide; try lia; done.
Qed.

Lemma piperead_copy_run n : ∀ h x,
  pipe_inv (view l x) →
  ∃ P', piperead_copy l n (h, x) = Ok (take n (pipe_queue (view l x))) (h, over l P' x) ∧
    pipe_inv P' ∧ pipe_queue P' = drop n (pipe_queue (view l x)) ∧
    pi_readopen P' = pi_readopen (view l x) ∧ pi_writeopen P' = pi_writeopen (view l x).
Proof using HLL.
  induction n as [|n IH]; intros h x Hi; cbn [piperead_copy].
  - exists (view l x). rw over_view take_0 drop_0. done.
  - rw (bind_ok _ _ _ _ _ (getp_run h x)) pipe_empty //. pose proof (length_queue (view l x)) as Hlen.
    pose proof (pipe_len_range (view l x)). case_bool.
    + exists (view l x). rw over_view. destruct (pipe_queue (view l x)); [done|cbn in Hlen; lia].
    + destruct (pipe_drop_queue (view l x) Hi ltac:(lia)) as (Hi' & Hq).
      rw (bind_ok _ _ _ tt (h, over l (pipe_drop (view l x)) x)) //.
      destruct (IH h (over l (pipe_drop (view l x)) x)) as (P' & E & H1 & H2 & H3 & H4); [by rw view_over|].
      rw view_over over_over in E H2 H3 H4. rw (bind_ok _ _ _ _ _ E). exists P'. rw Hq /=. by split_and!.
Qed.

Lemma piperead_loop_run n h x :
  ready p pr h → pipe_inv (view l x) →
  let q := pipe_queue (view l x) in
  if decide (q = [] ∧ pi_writeopen (view l x) = true) then
    piperead_loop l a n (acq (pipe_lock a) h, x) =
      if p_killed pr then Ok (-1, []) (settle h, x)
      else Stop Switch (acq ptable_lock (upd_proc p (asleep (pipe_nread a)) h), x)
  else ∃ P', pipe_inv P' ∧ pipe_queue P' = drop (Z.to_nat n) q ∧
      pi_readopen P' = pi_readopen (view l x) ∧ pi_writeopen P' = pi_writeopen (view l x) ∧
      piperead_loop l a n (acq (pipe_lock a) h, x) =
        Ok (Z.of_nat (length (take (Z.to_nat n) q)), take (Z.to_nat n) q)
           (settle (wake_all (pipe_nwrite a) h), over l P' x).
Proof using HLL.
  intros Hr Hi q. unfold piperead_loop. rw (bind_ok _ _ _ _ _ (getp_run _ x)) pipe_empty //.
  pose proof (length_queue (view l x)) as Hlen. fold q in Hlen.
  assert ((pipe_len (view l x) =? 0) && pi_writeopen (view l x) = bool_decide (q = [] ∧ pi_writeopen (view l x) = true)) as ->.
  { apply eq_true_iff_eq. rewrite -> andb_true_iff, Z.eqb_eq, bool_decide_eq_true. split; intros [H1 H2]; split; try done.
    - apply length_zero_iff_nil. lia.
    - rewrite -> H1 in Hlen. cbn in Hlen. lia. }
  case_decide as Hd; [rewrite -> bool_decide_true by done|rewrite -> bool_decide_false by done].
  - rw (bind_ok _ _ _ _ _ (ready_myproc p pr h _ x Hr)) (bind_ok _ _ _ _ _ (ready_proc p pr h _ x Hr)).
    destruct (p_killed pr).
    + by rw (bind_ok _ _ _ _ _ (ready_unlock p pr _ h x Hr)).
    + rw (bind_stop _ _ _ _ _ (sleep_run h p pr _ (pipe_nread a) x (rd_runs _ _ _ Hr) pipe_ptable (ready_free p pr h _ Hr))).
      done.
  - destruct (piperead_copy_run (Z.to_nat n) (acq (pipe_lock a) h) x Hi) as (P' & E & H1 & H2 & H3 & H4).
    exists P'. split_and!; [done..|]. rw (bind_ok _ _ _ _ _ E).
    rw (bind_ok _ _ _ _ _ (ready_wakeup p pr (pipe_nwrite a) _ h _ Hr pipe_ptable)).
    by rw (bind_ok _ _ _ _ _ (ready_unlock p pr _ _ _ (ready_wake p pr _ h Hr))).
Qed.

Definition closed_end (w : bool) (P : pipest) : pipest :=
  if w then set_pi_writeopen false P else set_pi_readopen false P.

Lemma pipeclose_run (w : bool) h x :
  ready p pr h →
  let h' := settle (wake_all (if w then pipe_nread a else pipe_nwrite a) h) in
  let P' := closed_end w (view l x) in
  pipeclose memL l a w (h, x) =
    if pi_readopen P' || pi_writeopen P' then Ok tt (h', over l P' x)
    else zoom memL (kfree a) (h', over l P' x).
Proof using HLL.
  intros Hr h' P'. unfold pipeclose. rw (bind_ok _ _ _ _ _ (ready_lock p pr _ h x Hr)).
  set (ch := if w then pipe_nread a else pipe_nwrite a).
  rw (bind_ok _ _ _ tt (acq (pipe_lock a) (wake_all ch h), over l P' x)).
  { destruct w; (rw (bind_ok _ _ _ tt (acq (pipe_lock a) h, over l P' x)); [done|]);
      by rewrite -> (ready_wakeup p pr _ _ h _ Hr pipe_ptable). }
  rw (bind_ok _ _ _ _ _ (getp_run _ _)) view_over.
  replace (negb (pi_readopen P') && negb (pi_writeopen P')) with (negb (pi_readopen P' || pi_writeopen P'))
    by (by destruct (pi_readopen P'), (pi_writeopen P')).
  pose proof (ready_unlock p pr (pipe_lock a) _ (over l P' x) (ready_wake p pr ch h Hr)) as Eu.
  destruct (pi_readopen P' || pi_writeopen P'); cbn [negb]; [done|]. by rw (bind_ok _ _ _ _ _ Eu).
Qed.
End operations.

(** ** Properties *)

(** [pipewrite], [piperead] and [pipeclose] on every branch. [pipewrite]
    queues as many bytes as fit, in order; if all did it wakes the readers
    and returns [n]; if the pipe is full it returns -1 when the read end is closed
    or the process is killed, and otherwise wakes the readers and sleeps until
    there is room. [piperead] takes up to [n] bytes from the front of the queue,
    wakes the writers and returns their number; on an empty pipe with a writer it
    returns -1 if the process is killed and otherwise sleeps; with no writer it
    returns 0. [pipeclose] closes one end, wakes the other, and frees the page
    when both are closed. *)
Theorem pipe_operations {C : Type} (memL : lens C memst) (l : lens C pipest) `{!lens_laws l} (a : Z)
    (p : nat) (pr : proc) (h : hw) (x : C) (bs : list Z) (n : Z) :
  ready p pr h → pipe_inv (view l x) →
  let P := view l x in let q := pipe_queue P in let room := (Z.to_nat PIPESIZE - length q)%nat in
  (∃ P', pipe_inv P' ∧ pipe_queue P' = q ++ take room bs ∧
    pi_readopen P' = pi_readopen P ∧ pi_writeopen P' = pi_writeopen P ∧
    pipewrite l a bs n (h, x) =
      if decide (length bs ≤ room)%nat then Ok n (settle (wake_all (pipe_nread a) h), over l P' x)
      else if negb (pi_readopen P) || p_killed pr then Ok (-1) (settle h, over l P' x)
      else Stop Switch (acq ptable_lock (upd_proc p (asleep (pipe_nwrite a)) (wake_all (pipe_nread a) h)), over l P' x)) ∧
  (∃ P', pipe_inv P' ∧ pi_readopen P' = pi_readopen P ∧ pi_writeopen P' = pi_writeopen P ∧
    if decide (q = [] ∧ pi_writeopen P = true) then
      piperead l a n (h, x) = (if p_killed pr then Ok (-1, []) (settle h, x)
        else Stop Switch (acq ptable_lock (upd_proc p (asleep (pipe_nread a)) h), x))
    else pipe_queue P' = drop (Z.to_nat n) q ∧
      piperead l a n (h, x) = Ok (Z.of_nat (length (take (Z.to_nat n) q)), take (Z.to_nat n) q)
        (settle (wake_all (pipe_nwrite a) h), over l P' x)) ∧
  (∀ w : bool, pipeclose memL l a w (h, x) =
    let P' := closed_end w P in
    let h' := settle (wake_all (if w then pipe_nread a else pipe_nwrite a) h) in
    if pi_readopen P' || pi_writeopen P' then Ok tt (h', over l P' x)
    else zoom memL (kfree a) (h', over l P' x)).
Proof.
  intros Hr Hi P q room. pose proof (length_queue P) as Hlen. fold q in Hlen. pose proof (pv_len _ Hi) as Hle.
  assert (Z.to_nat (PIPESIZE - pipe_len P) = room) as Er by (unfold room; fold P in Hle; lia). split_and!.
  - exists (put_all P (take room bs)).
    destruct (put_all_queue (take room bs) P Hi) as (H1 & H2 & H3 & H4).
    { rw length_take. fold P in Hle. unfold room. lia. }
    split_and!; [done..|]. unfold pipewrite. rw (bind_ok _ _ _ _ _ (ready_lock p pr _ h x Hr)).
    rewrite -> (pipewrite_loop_run l a p pr n bs h x Hr Hi). cbv zeta. fold P. by rw Er.
  - pose proof (piperead_loop_run l a p pr n h x Hr Hi) as H. cbv zeta in H. fold P in H. fold q in H.
    unfold piperead. rw (bind_ok _ _ _ _ _ (ready_lock p pr _ h x Hr)). case_decide.
    + exists P. by split_and!.
    + destruct H as (P' & H1 & H2 & H3 & H4 & E). exists P'. by split_and!.
  - intros w. by apply (pipeclose_run memL l a p pr).
Qed.

(** ** The stream of bytes

    [W] and [R]: the bytes that the writers put into the pipe and that the readers
    got, so far. A step is a section of [pipewrite] or [piperead] under the lock,
    from its start or after a sleep, by any process. *)

Inductive pipe_step (a : Z) : pipest * list Z * list Z → pipest * list Z * list Z → Prop :=
| st_write p pr h bs n o P P' W R k :
    ready p pr h → pipewrite_loop (idL _) a bs n (acq (pipe_lock a) h, P) = o →
    P' = (match o with Ok _ s => s.2 | Stop _ s => s.2 end) →
    Z.of_nat k = u32 (pi_nwrite P' - pi_nwrite P) →
    pipe_step a (P, W, R) (P', W ++ take k bs, R)
| st_read p pr h n r bs h' P P' W R :
    ready p pr h → piperead_loop (idL _) a n (acq (pipe_lock a) h, P) = Ok (r, bs) (h', P') →
    pipe_step a (P, W, R) (P', W, R ++ bs)
| st_close p pr h (w : bool) h' P P' W R :
    ready p pr h → pipeclose (Lens (λ _, ex_kmem) (λ _ c, c)) (idL _) a w (h, P) = Ok tt (h', P') →
    pi_readopen P' || pi_writeopen P' = true →
    pipe_step a (P, W, R) (P', W, R).

#[export] Instance idL_laws {A} : lens_laws (idL A).
Proof. by split. Qed.

Definition stream_inv (s : pipest * list Z * list Z) : Prop :=
  let '(P, W, R) := s in pipe_inv P ∧ W = R ++ pipe_queue P.

Lemma put_all_nwrite bs : ∀ P,
  0 ≤ pi_nwrite P < 2 ^ 32 → pi_nwrite (put_all P bs) = u32 (pi_nwrite P + Z.of_nat (length bs)).
Proof.
  induction bs as [|c bs IH]; intros P HP; cbn.
  - rewrite -> Z.add_0_r. by rewrite -> (wrapu_small 32).
  - change (pi_nwrite (put_all (pipe_put c P) bs) = u32 (pi_nwrite P + Z.of_nat (S (length bs)))).
    rw IH; [apply wrapu_range; lia|]. unfold pipe_put. unset. cbn [pi_nwrite]. unfold wrapu.
    rewrite -> Zplus_mod_idemp_l. f_equal. lia.
Qed.

Lemma stream_step a s s' : pipe_step a s s' → stream_inv s → stream_inv s'.
Proof.
  intros Hs. destruct Hs as [p pr h bs n o P P' W R k Hr E EP Hk|p pr h n r bs h' P P' W R Hr E
    |p pr h w h' P P' W R Hr E Ho]; intros [Hi ->].
  - pose proof (pv_len _ Hi) as Hle. pose proof (pipe_len_range P) as Hlr.
    pose proof (pipewrite_loop_run (idL pipest) a p pr n bs h P Hr Hi) as HE. cbv zeta in HE.
    set (room := Z.to_nat (PIPESIZE - pipe_len (view (idL pipest) P))) in HE.
    assert (P' = put_all P (take room bs)) as EP'.
    { rewrite -> EP, <- E, HE. repeat case_match; done. }
    destruct (put_all_queue (take room bs) P Hi) as (H1 & H2 & _).
    { rw length_take. unfold room. cbn. lia. }
    split; [by rw EP'|]. rw EP' H2 -!app_assoc. do 2 f_equal.
    rewrite -> EP', put_all_nwrite in Hk by apply Hi. unfold wrapu in Hk. rewrite -> Zminus_mod_idemp_l in Hk.
    replace (pi_nwrite P + Z.of_nat (length (take room bs)) - pi_nwrite P) with (Z.of_nat (length (take room bs))) in Hk by lia.
    rewrite -> Z.mod_small in Hk by (rw length_take; unfold room, PIPESIZE; cbn; lia).
    assert (k = length (take room bs)) as -> by lia. rw length_take.
    destruct (decide (room ≤ length bs)%nat).
    + f_equal. lia.
    + rewrite -> !firstn_all2 by lia. done.
  - pose proof (piperead_loop_run (idL pipest) a p pr n h P Hr Hi) as HE. cbv zeta in HE. revert HE. case_decide.
    + intros HE. rewrite -> HE in E. by destruct (p_killed pr); simplify_eq; rw app_nil_r.
    + intros (P1 & H1 & H2 & _ & _ & HE). rewrite -> HE in E. injection E as _ <- <- <-. split; [exact H1|].
      cbn. rw H2 -app_assoc take_drop. done.
  - rewrite -> (pipeclose_run _ (idL pipest) a p pr w h P Hr) in E. cbv zeta in E. cbn [view idL id over] in E.
    destruct (pi_readopen (closed_end w P) || _) eqn:Eo.
    + injection E as _ <-. destruct w; split; try done; destruct Hi; by split.
    + unfold zoom in E. destruct (kfree a _) as [? []|]; [|done]. injection E as _ _ EP. rewrite <- EP in Ho. cbn [over snd] in Ho. congruence.
Qed.

(** C2: a pipe is a first-in first-out stream. Whatever processes write, read,
    sleep and resume in whatever order, on a pipe fresh from [pipealloc]: the bytes
    read so far followed by the bytes still in the pipe are exactly the
    bytes written so far, in order; nothing is lost, duplicated or reordered,
    across the wrap-around of the buffer and of the 32-bit counters, and at most
    [PIPESIZE] bytes are in flight. *)
Theorem pipe_stream (m : memory) (a : Z) (P : pipest) (W R : list Z) :
  rtc (pipe_step a) (new_pipe m a, [], []) (P, W, R) →
  W = R ++ pipe_queue P ∧ R `prefix_of` W ∧ Z.of_nat (length W - length R) ≤ PIPESIZE.
Proof.
  intros Hrtc. assert (stream_inv (P, W, R)) as [Hi ->].
  { eapply (rtc_invariant (pipe_step a) stream_inv); [intros s s' HI Hs; by eapply stream_step| |exact Hrtc].
    split; [|done]. split; try done. }
  split_and!; [done|by eexists|]. rw length_app. pose proof (length_queue P). pose proof (pv_len _ Hi). lia.
Qed.

(** ** The properties on a concrete pipe *)

Definition ex_pipe : pipest := new_pipe ∅ 0x80400000.

Lemma ex_pipe_inv : pipe_inv ex_pipe.
Proof. split; try done. Qed.

Lemma pipe_operations_witness :
  ∃ P', pipe_queue P' = [1; 2; 3] ∧
    pipewrite (idL _) 0x80400000 [1; 2; 3] 3 (ex_machine, ex_pipe)
    = Ok 3 (settle (wake_all (pipe_nread 0x80400000) ex_machine), P').
Proof.
  destruct (pipe_operations (Lens (λ _, ex_kmem) (λ _ c, c)) (idL pipest) 0x80400000 0 _ ex_machine ex_pipe [1; 2; 3] 3
    ex_machine_running ex_pipe_inv) as ((P' & _ & Hq & _ & _ & E) & _). exists P'.
  assert (pipe_queue (view (idL pipest) ex_pipe) = []) as Hq0 by reflexivity. rewrite -> Hq0 in Hq, E.
  assert (Z.to_nat PIPESIZE - length (@nil Z) = 512)%nat as H512 by reflexivity. rewrite -> H512 in Hq, E.
  rewrite -> decide_True in E by (cbn; lia). split; [exact Hq|exact E].
Defined.

Lemma pipe_stream_witness :
  ∃ P, rtc (pipe_step 0x80400000) (ex_pipe, [], []) (P, [7; 8], []) ∧ [7; 8] = [] ++ pipe_queue P.
Proof.
  set (P := put_all ex_pipe [7; 8]). exists P.
  assert (rtc (pipe_step 0x80400000) (ex_pipe, [], []) (P, [7; 8], [])) as H.
  { apply rtc_once. pose proof (pipewrite_loop_run (idL pipest) 0x80400000 0 _ 2 [7; 8] ex_machine ex_pipe ex_machine_running ex_pipe_inv) as E.
    cbv zeta in E. assert (Z.to_nat (PIPESIZE - pipe_len (view (idL pipest) ex_pipe)) = 512%nat) as H512 by reflexivity.
    rewrite -> H512, decide_True in E by (cbn; lia).
    exact (st_write _ 0 _ ex_machine [7; 8] 2 _ ex_pipe P [] [] 2 ex_machine_running E eq_refl eq_refl). }
  split; [exact H|]. exact (proj1 (pipe_stream ∅ 0x80400000 P [7; 8] [] H)).
Defined.
