(* ===== verification/Ring.v ===== *)
(** * Circular doubly linked lists

    The list of buffers of bio.c is a ring through a head node: [nx] and [pv]
    are its next and prev pointers, as functions on node numbers. *)

From S2P Require Import Prelude.

(** The pairs (node, its successor) from [a] through [l] to [z]. *)
Fixpoint links (a : nat) (l : list nat) (z : nat) : list (nat * nat) :=
  match l with
  | [] => [(a, z)]
  | x :: l => (a, x) :: links x l z
  end.

Definition linked_by (nx pv : nat → nat) (L : list (nat * nat)) : Prop :=
  ∀ a b, (a, b) ∈ L → nx a = b ∧ pv b = a.

(** The nodes [l] in order from the head [hd] and back. *)
Definition ring (nx pv : nat → nat) (hd : nat) (l : list nat) : Prop :=
  linked_by nx pv (links hd l hd).

Lemma links_app a l1 x l2 z : links a (l1 ++ x :: l2) z = links a l1 x ++ links x l2 z.
Proof. revert a. induction l1 as [|y l1 IH]; intros a; cbn; [done|]. by rw IH. Qed.

Lemma links_fst a l z : (links a l z).*1 = a :: l.
Proof. revert a. induction l as [|y l IH]; intros a; cbn; [done|]. by rw IH. Qed.

Lemma links_snd a l z : (links a l z).*2 = l ++ [z].
Proof. revert a. induction l as [|y l IH]; intros a; cbn; [done|]. by rw IH. Qed.

(** The last pair leaves from the same node whatever the target, and the
    first pair leads to the same node whatever the source. *)
Lemma links_last a l : ∃ L b, ∀ z, links a l z = L ++ [(b, z)].
Proof.
  revert a. induction l as [|y l IH]; intros a; cbn.
  - by exists [], a.
  - destruct (IH y) as (L & b & E). exists ((a, y) :: L), b. intros z. by rw E.
Qed.

Lemma links_first l z : ∃ L b, ∀ a, links a l z = (a, b) :: L.
Proof. destruct l as [|y l]; cbn; [by exists [], z|by exists (links y l z), y]. Qed.

Section ring.
Context (hd : nat).

(** [x->next->prev = x->prev; x->prev->next = x->next;] takes [x] out. *)
Lemma ring_unlink nx pv l1 x l2 :
  NoDup (hd :: l1 ++ x :: l2) → ring nx pv hd (l1 ++ x :: l2) →
  ring (<[pv x := nx x]> nx) (<[nx x := pv x]> pv) hd (l1 ++ l2).
Proof.
  intros Hnd Hr. unfold ring in *.
  destruct (links_last hd l1) as (L1 & a & E1). destruct (links_first l2 hd) as (L2 & c & E2).
  pose proof (links_fst hd (l1 ++ x :: l2) hd) as F1.
  pose proof (links_snd hd (l1 ++ x :: l2) hd) as F2.
  rw links_app E1 E2 in Hr F1 F2.
  assert (nx x = c ∧ pv x = a) as [-> ->].
  { split; [apply (Hr x c)|apply (Hr a x)]; set_solver. }
  assert (links hd (l1 ++ l2) hd = L1 ++ (a, c) :: L2) as ->.
  { destruct l2 as [|y l2]; cbn in E2.
    - rw app_nil_r E1. specialize (E2 0%nat). by injection E2 as <- <-.
    - rw links_app E1 /=. specialize (E2 0%nat). injection E2 as <- <-. by rw -app_assoc. }
  assert (NoDup ((L1 ++ [(a, x)]) ++ (x, c) :: L2).*1) as N1 by (by rw F1).
  assert (NoDup ((L1 ++ [(a, x)]) ++ (x, c) :: L2).*2) as N2.
  { rw F2. apply NoDup_cons in Hnd as [H1 H2]. apply NoDup_app. split_and!; [done| |].
    - intros y Hy ->%list_elem_of_singleton. done.
    - apply NoDup_singleton. }
  rewrite -> !fmap_app in N1, N2. cbn in N1, N2.
  intros y z Hyz. apply elem_of_app in Hyz as [Hyz|[[= -> ->]|Hyz]%elem_of_cons].
  - assert (y ∈ L1.*1) by (apply list_elem_of_fmap; by exists (y, z)).
    assert (z ∈ L1.*2) by (apply list_elem_of_fmap; by exists (y, z)).
    rewrite -> !fn_lookup_insert_ne.
    + apply Hr. set_solver.
    + intros <-. apply NoDup_app in N2 as (_ & N2 & _). apply (N2 c); set_solver.
    + intros <-. rewrite <- app_assoc in N1. apply NoDup_app in N1 as (_ & N1 & _). apply (N1 a); set_solver.
  - by rewrite -> !fn_lookup_insert.
  - assert (y ∈ L2.*1) by (apply list_elem_of_fmap; by exists (y, z)).
    assert (z ∈ L2.*2) by (apply list_elem_of_fmap; by exists (y, z)).
    rewrite -> !fn_lookup_insert_ne.
    + apply Hr. set_solver.
    + intros <-. apply NoDup_app in N2 as (_ & _ & [N2 _]%NoDup_cons). done.
    + intros <-. apply NoDup_app in N1 as (_ & N1 & _). apply (N1 a); set_solver.
Qed.

(** [x->next = hd.next; x->prev = &hd; hd.next->prev = x; hd.next = x;] puts
    [x] at the front. *)
Lemma ring_push nx pv l x :
  NoDup (hd :: x :: l) → ring nx pv hd l →
  ring (<[hd := x]> (<[x := nx hd]> nx)) (<[nx hd := x]> (<[x := hd]> pv)) hd (x :: l).
Proof.
  intros Hnd Hr. unfold ring in *. destruct (links_first l hd) as (L & c & E). cbn. rw E in Hr. rw E.
  pose proof (links_fst hd l hd) as F1. pose proof (links_snd hd l hd) as F2. rw E in F1 F2.
  cbn in F1, F2. injection F1 as F1.
  assert (nx hd = c) as -> by (apply (Hr hd c); set_solver).
  assert (x ≠ hd) as Hxh by (apply NoDup_cons in Hnd; set_solver).
  assert (x ∉ l) as Hxl by (apply NoDup_cons in Hnd as [_ [? _]%NoDup_cons]; done).
  assert (NoDup (c :: L.*2)) as N2.
  { rw F2. apply NoDup_cons in Hnd as [H1 [_ H2]%NoDup_cons]. apply NoDup_app.
    split_and!; [done| |apply NoDup_singleton]. intros y Hy ->%list_elem_of_singleton. set_solver. }
  assert (x ≠ c) as Hxc by (intros ->; assert (c ∈ l ++ [hd]) by (rw -F2; set_solver); set_solver).
  intros y z [[= -> ->]|[[= -> ->]|Hyz]%elem_of_cons]%elem_of_cons.
  - rewrite -> fn_lookup_insert, fn_lookup_insert_ne, fn_lookup_insert by done. done.
  - rewrite -> fn_lookup_insert_ne, !fn_lookup_insert by done. done.
  - assert (y ∈ L.*1) by (apply list_elem_of_fmap; by exists (y, z)).
    assert (z ∈ L.*2) as Hz by (apply list_elem_of_fmap; by exists (y, z)).
    assert (hd ∉ l) by (apply NoDup_cons in Hnd; set_solver).
    assert (z ∈ l ++ [hd]) by (rw -F2; set_solver).
    apply NoDup_cons in N2 as [N2 _].
    rewrite -> !fn_lookup_insert_ne by set_solver. apply Hr. set_solver.
Qed.

(** Walking the ring. *)
Lemma ring_next nx pv l1 x l2 :
  ring nx pv hd (l1 ++ x :: l2) → nx x = List.hd hd l2.
Proof.
  unfold ring. rw links_app. intros Hr. destruct (links_first l2 hd) as (L & c & E).
  assert (c = List.hd hd l2) as <- by (specialize (E x); by destruct l2; injection E).
  apply (Hr x c). rw E. set_solver.
Qed.

Lemma ring_first nx pv l : ring nx pv hd l → nx hd = List.hd hd l.
Proof.
  unfold ring. destruct (links_first l hd) as (L & c & E). intros Hr. rw E in Hr.
  assert (c = List.hd hd l) as <- by (specialize (E hd); by destruct l; injection E).
  apply (Hr hd c). set_solver.
Qed.

Lemma ring_prev nx pv l1 x l2 :
  ring nx pv hd (l1 ++ x :: l2) → pv x = List.last l1 hd.
Proof.
  unfold ring. rw links_app. intros Hr. destruct (links_last hd l1) as (L & b & E).
  assert (b = List.last l1 hd) as <-.
  { pose proof (links_fst hd l1 x) as F. rw E fmap_app /= in F.
    pose proof (f_equal (λ l, List.last l hd) F) as F'. cbn beta in F'. rw List.last_last in F'.
    rw F'. by destruct l1. }
  apply (Hr b x). rw E. set_solver.
Qed.

Lemma ring_last nx pv l : ring nx pv hd l → pv hd = List.last l hd.
Proof.
  unfold ring. intros Hr. destruct (links_last hd l) as (L & b & E).
  assert (b = List.last l hd) as <-.
  { pose proof (links_fst hd l hd) as F. rw E fmap_app /= in F.
    pose proof (f_equal (λ l, List.last l hd) F) as F'. cbn beta in F'. rw List.last_last in F'.
    rw F'. by destruct l. }
  apply (Hr b hd). rw E. set_solver.
Qed.
End ring.

(** Rings depend on the pointers only pointwise. *)
#[export] Instance ring_proper :
  Proper (pointwise_relation nat eq ==> pointwise_relation nat eq ==> eq ==> eq ==> iff) ring.
Proof.
  intros nx nx' Hn pv pv' Hp hd ? <- l ? <-. unfold ring, linked_by.
  split; intros H a b Hab; [rewrite <- (Hn a), <- (Hp b)|rewrite -> (Hn a), (Hp b)]; by apply H.
Qed.
