(* ===== verification/Bytes.v ===== *)
(** * Blocks of bytes: the C structures stored in disk blocks and buffers

    A block or a C array of bytes is a list of values 0..255; a structure
    in it is read and written through little-endian fields at byte offsets, the
    layout gcc gives the structures of fs.h and log.c on the i386. *)

From S2P Require Import Prelude.

(** ** Definitions *)

(** [n] bytes from offset [off], and the bytes [l] written there. *)
Definition slice (b : list Z) (off n : Z) : list Z :=
  take (Z.to_nat n) (drop (Z.to_nat off) b).
Definition splice (b : list Z) (off : Z) (l : list Z) : list Z :=
  take (Z.to_nat off) b ++ l ++ drop (Z.to_nat off + length l) b.

(** Little-endian values. *)
Fixpoint le_value (l : list Z) : Z :=
  match l with
  | [] => 0
  | x :: l => x + 256 * le_value l
  end.
Fixpoint le_bytes (n : nat) (v : Z) : list Z :=
  match n with
  | O => []
  | S n => v mod 256 :: le_bytes n (v / 256)
  end.

Definition get16 (b : list Z) (off : Z) : Z := le_value (slice b off 2).
Definition get32 (b : list Z) (off : Z) : Z := le_value (slice b off 4).
Definition put16 (b : list Z) (off v : Z) : list Z := splice b off (le_bytes 2 v).
Definition put32 (b : list Z) (off v : Z) : list Z := splice b off (le_bytes 4 v).

(** Arrays of 32-bit words at an offset. *)
Fixpoint get_words (b : list Z) (off : Z) (n : nat) : list Z :=
  match n with
  | O => []
  | S n => get32 b off :: get_words b (off + 4) n
  end.
Fixpoint put_words (b : list Z) (off : Z) (l : list Z) : list Z :=
  match l with
  | [] => b
  | v :: l => put_words (put32 b off v) (off + 4) l
  end.

Definition is_byte (x : Z) : Prop := 0 ≤ x < 256.
Definition bytes (l : list Z) : Prop := Forall is_byte l.

(** ** Lemmas *)

Lemma length_le_bytes n v : length (le_bytes n v) = n.
Proof. revert v. induction n as [|n IH]; intros v; cbn; [done|]. by rw IH. Qed.

Lemma bytes_le n v : bytes (le_bytes n v).
Proof.
  revert v. induction n as [|n IH]; intros v; cbn; [constructor|]. constructor; [|apply IH].
  unfold is_byte. dlia.
Qed.

Lemma le_value_bytes n v : le_value (le_bytes n v) = v mod 256 ^ Z.of_nat n.
Proof.
  revert v. induction n as [|n IH]; intros v; cbn; [by rw Z.mod_1_r|].
  rw IH Nat2Z.inj_succ Z.pow_succ_r; [lia|]. 
  pose proof (Z.pow_pos_nonneg 256 (Z.of_nat n)). rewrite -> Z.rem_mul_r by lia. lia.
Qed.

Lemma le_value_range l : bytes l → 0 ≤ le_value l < 256 ^ Z.of_nat (length l).
Proof.
  induction 1 as [|x l Hx Hl IH]; cbn; [lia|]. unfold is_byte in Hx.
  rw Nat2Z.inj_succ Z.pow_succ_r; lia.
Qed.

Lemma le_bytes_value l : bytes l → le_bytes (length l) (le_value l) = l.
Proof.
  induction 1 as [|x l Hx Hl IH]; cbn; [done|]. unfold is_byte in Hx. f_equal.
  - dlia.
  - replace ((x + 256 * le_value l) / 256) with (le_value l) by dlia. done.
Qed.

Section splice.
Implicit Types (b l : list Z) (off n : Z).

Lemma length_splice b off l :
  0 ≤ off → off + Z.of_nat (length l) ≤ Z.of_nat (length b) → length (splice b off l) = length b.
Proof. intros. unfold splice. rw !length_app length_take length_drop. lia. Qed.

Lemma length_slice b off n :
  0 ≤ off → 0 ≤ n → off + n ≤ Z.of_nat (length b) → length (slice b off n) = Z.to_nat n.
Proof. intros. unfold slice. rw length_take length_drop. lia. Qed.

Lemma slice_splice_eq b off l :
  0 ≤ off → off + Z.of_nat (length l) ≤ Z.of_nat (length b) →
  slice (splice b off l) off (Z.of_nat (length l)) = l.
Proof.
  intros. unfold slice, splice. rw Nat2Z.id.
  rewrite -> drop_app_length' by (rw length_take; lia). by rw take_app_length.
Qed.

Lemma slice_lookup b off n i :
  0 ≤ off → (i < Z.to_nat n)%nat → slice b off n !! i = b !! (Z.to_nat off + i)%nat.
Proof. intros. unfold slice. rewrite -> lookup_take_lt, lookup_drop by lia. done. Qed.

Lemma splice_lookup b off l i :
  0 ≤ off → off + Z.of_nat (length l) ≤ Z.of_nat (length b) →
  splice b off l !! i =
    if decide (off ≤ Z.of_nat i < off + Z.of_nat (length l))
    then l !! (i - Z.to_nat off)%nat else b !! i.
Proof.
  intros. unfold splice. assert (length (take (Z.to_nat off) b) = Z.to_nat off) as E
    by (rw length_take; lia).
  case_decide.
  - rewrite -> lookup_app_r by lia. rw E. rewrite -> lookup_app_l by lia. done.
  - destruct (decide (i < Z.to_nat off)%nat).
    + rewrite -> lookup_app_l by lia. by rewrite -> lookup_take_lt by lia.
    + rewrite -> lookup_app_r by lia. rewrite -> lookup_app_r by lia. rw lookup_drop E. f_equal. lia.
Qed.

Lemma slice_splice_ne b off l off' n :
  0 ≤ off → 0 ≤ off' → off + Z.of_nat (length l) ≤ Z.of_nat (length b) →
  off' + n ≤ off ∨ off + Z.of_nat (length l) ≤ off' →
  slice (splice b off l) off' n = slice b off' n.
Proof.
  intros H1 H2 H3 H4. apply list_eq. intros i. destruct (decide (i < Z.to_nat n)%nat) as [Hi|Hi].
  - rewrite -> !slice_lookup by lia. rewrite -> splice_lookup by lia. by rewrite -> decide_False by lia.
  - unfold slice. rewrite -> !lookup_take_ge by lia. done.
Qed.

Lemma slice_splice_in b off l k n :
  0 ≤ off → 0 ≤ k → off + Z.of_nat (length l) ≤ Z.of_nat (length b) → k + n ≤ Z.of_nat (length l) →
  slice (splice b off l) (off + k) n = slice l k n.
Proof.
  intros H1 H2 H3 H4. apply list_eq. intros i. destruct (decide (i < Z.to_nat n)%nat) as [Hi|Hi].
  - rewrite -> !slice_lookup by lia. rewrite -> splice_lookup by lia. rewrite -> decide_True by lia. f_equal. lia.
  - unfold slice. rewrite -> !lookup_take_ge by lia. done.
Qed.

Lemma splice_splice b off l1 l2 :
  0 ≤ off → off + Z.of_nat (length l1) + Z.of_nat (length l2) ≤ Z.of_nat (length b) →
  splice (splice b off l1) (off + Z.of_nat (length l1)) l2 = splice b off (l1 ++ l2).
Proof.
  intros H1 H2. apply list_eq. intros i.
  rewrite -> splice_lookup by (rw ?length_splice; lia). rewrite -> !splice_lookup by (rw ?length_app; lia).
  rw !length_app. repeat case_decide; try lia; try done.
  - rewrite -> lookup_app_r by lia. f_equal. lia.
  - by rewrite -> lookup_app_l by lia.
Qed.

Lemma slice_app_r l1 l2 k n : 0 ≤ k → slice (l1 ++ l2) (Z.of_nat (length l1) + k) n = slice l2 k n.
Proof. intros. unfold slice. rewrite -> drop_app_ge by lia. do 2 f_equal. lia. Qed.

Lemma slice_app_l l1 l2 n : n = Z.of_nat (length l1) → slice (l1 ++ l2) 0 n = l1.
Proof. intros ->. unfold slice. cbn. by rw Nat2Z.id take_app_length. Qed.

Lemma bytes_splice b off l : bytes b → bytes l → bytes (splice b off l).
Proof.
  intros Hb Hl. unfold splice, bytes. apply Forall_app. split; [by apply Forall_take|].
  apply Forall_app. split; [done|by apply Forall_drop].
Qed.

Lemma bytes_slice b off n : bytes b → bytes (slice b off n).
Proof. intros Hb. by apply Forall_take, Forall_drop. Qed.
End splice.

(** *** Fields *)

Section fields.
Implicit Types (b : list Z) (off v : Z).

Lemma get32_put32_eq b off v :
  0 ≤ off → off + 4 ≤ Z.of_nat (length b) → get32 (put32 b off v) off = u32 v.
Proof.
  intros. unfold get32, put32. pose proof (slice_splice_eq b off (le_bytes 4 v)) as H1.
  rewrite -> length_le_bytes in H1. change (Z.of_nat 4) with 4 in H1; change (Z.of_nat 2) with 2 in H1. rewrite -> H1 by lia. apply (le_value_bytes 4).
Qed.

Lemma get32_put32_ne b off v off' :
  0 ≤ off → 0 ≤ off' → off + 4 ≤ Z.of_nat (length b) → off' + 4 ≤ off ∨ off + 4 ≤ off' →
  get32 (put32 b off v) off' = get32 b off'.
Proof.
  intros. unfold get32, put32. rewrite -> slice_splice_ne; [done|..]; rw ?length_le_bytes; lia.
Qed.

Lemma get16_put16_eq b off v :
  0 ≤ off → off + 2 ≤ Z.of_nat (length b) → get16 (put16 b off v) off = u16 v.
Proof.
  intros. unfold get16, put16. pose proof (slice_splice_eq b off (le_bytes 2 v)) as H1.
  rewrite -> length_le_bytes in H1. change (Z.of_nat 4) with 4 in H1; change (Z.of_nat 2) with 2 in H1. rewrite -> H1 by lia. apply (le_value_bytes 2).
Qed.

Lemma length_put32 b off v :
  0 ≤ off → off + 4 ≤ Z.of_nat (length b) → length (put32 b off v) = length b.
Proof. intros. unfold put32. apply length_splice; rw ?length_le_bytes; lia. Qed.

Lemma length_put16 b off v :
  0 ≤ off → off + 2 ≤ Z.of_nat (length b) → length (put16 b off v) = length b.
Proof. intros. unfold put16. apply length_splice; rw ?length_le_bytes; lia. Qed.

Lemma bytes_put32 b off v : bytes b → bytes (put32 b off v).
Proof. intros. apply bytes_splice; [done|apply bytes_le]. Qed.

Lemma bytes_put16 b off v : bytes b → bytes (put16 b off v).
Proof. intros. apply bytes_splice; [done|apply bytes_le]. Qed.

Lemma get32_range b off : bytes b → 0 ≤ get32 b off < 2 ^ 32.
Proof.
  intros Hb. pose proof (le_value_range _ (bytes_slice b off 4 Hb)) as Hr.
  assert (length (slice b off 4) ≤ 4)%nat as Hl by (unfold slice; rw length_take; lia).
  pose proof (Z.pow_le_mono_r 256 (Z.of_nat (length (slice b off 4))) 4).
  unfold get32. lia.
Qed.

(** *** Arrays of words *)

Lemma length_put_words l : ∀ b off,
  0 ≤ off → off + 4 * Z.of_nat (length l) ≤ Z.of_nat (length b) →
  length (put_words b off l) = length b.
Proof.
  induction l as [|v l IH]; intros b off H1 H2; cbn in *; [done|].
  rewrite -> IH by (rw ?length_put32; lia). apply length_put32; lia.
Qed.

Lemma bytes_put_words l : ∀ b off, bytes b → bytes (put_words b off l).
Proof. induction l as [|v l IH]; intros b off Hb; cbn; [done|]. by apply IH, bytes_put32. Qed.

Lemma get32_put_words_ne l : ∀ b off off',
  0 ≤ off → 0 ≤ off' → off + 4 * Z.of_nat (length l) ≤ Z.of_nat (length b) →
  off' + 4 ≤ off ∨ off + 4 * Z.of_nat (length l) ≤ off' →
  get32 (put_words b off l) off' = get32 b off'.
Proof.
  induction l as [|v l IH]; intros b off off' H1 H2 H3 H4; cbn in *; [done|].
  rewrite -> IH by (rw ?length_put32; lia). apply get32_put32_ne; lia.
Qed.

Lemma get_words_put_words l : ∀ b off,
  0 ≤ off → off + 4 * Z.of_nat (length l) ≤ Z.of_nat (length b) →
  get_words (put_words b off l) off (length l) = (u32) <$> l.
Proof.
  induction l as [|v l IH]; intros b off H1 H2; cbn in *; [done|]. f_equal.
  - rewrite -> get32_put_words_ne by (rw ?length_put32; lia). apply get32_put32_eq; lia.
  - apply IH; [lia|]. rw length_put32; lia.
Qed.

Lemma get_words_put_words_ne n : ∀ b off l off',
  0 ≤ off → 0 ≤ off' → off + 4 * Z.of_nat (length l) ≤ Z.of_nat (length b) →
  off' + 4 * Z.of_nat n ≤ off ∨ off + 4 * Z.of_nat (length l) ≤ off' →
  get_words (put_words b off l) off' n = get_words b off' n.
Proof.
  induction n as [|n IH]; intros b off l off' H1 H2 H3 H4; cbn; [done|]. f_equal.
  - apply get32_put_words_ne; lia.
  - apply IH; lia.
Qed.

Lemma length_get_words b off n : length (get_words b off n) = n.
Proof. revert off. induction n as [|n IH]; intros off; cbn; [done|]. by rw IH. Qed.

Lemma get_words_lookup b n : ∀ off i,
  (i < n)%nat → get_words b off n !! i = Some (get32 b (off + 4 * Z.of_nat i)).
Proof.
  induction n as [|n IH]; intros off [|i] Hi; cbn; try lia.
  - do 2 f_equal. lia.
  - rewrite -> IH by lia. do 2 f_equal. lia.
Qed.
End fields.
