(* ===== verification/Bio.v ===== *)
(** * The buffer cache: bio.c, over the disk drivers' interface

    Buffers cached in a fixed array and linked in a doubly linked list in the
    order of their last use.  The disk driver is the parameter [iderw] of
    the cache, with what the cache relies on as the class [BlockDev]; memide.c
    is the instance of this file. *)

From S2P Require Import Prelude Machine Spinlock Mem Kalloc Sched Sleeplock Ring Bytes.

(** ** State *)

Definition BSIZE : Z := 512.
Definition B_VALID : Z := 2.
Definition B_DIRTY : Z := 4.

(** [struct buf]; the buffers of the array are numbered from 0 and [NBUF] is
    the number of [bcache.head]. *)
Record buf : Type := MkBuf {
  b_flags : Z;
  b_dev : Z;
  b_blockno : Z;
  b_lock : sleeplock;
  b_refcnt : Z;
  b_prev : nat;
  b_next : nat;
  b_qnext : option nat;
  b_data : list Z
}.
Definition set_b_flags (v : Z) (r : buf) : buf :=
  MkBuf v (b_dev r) (b_blockno r) (b_lock r) (b_refcnt r) (b_prev r) (b_next
    r) (b_qnext r) (b_data r).
Definition set_b_dev (v : Z) (r : buf) : buf :=
  MkBuf (b_flags r) v (b_blockno r) (b_lock r) (b_refcnt r) (b_prev r) (b_next
    r) (b_qnext r) (b_data r).
Definition set_b_blockno (v : Z) (r : buf) : buf :=
  MkBuf (b_flags r) (b_dev r) v (b_lock r) (b_refcnt r) (b_prev r) (b_next r)
    (b_qnext r) (b_data r).
Definition set_b_lock (v : sleeplock) (r : buf) : buf :=
  MkBuf (b_flags r) (b_dev r) (b_blockno r) v (b_refcnt r) (b_prev r) (b_next
    r) (b_qnext r) (b_data r).
Definition set_b_refcnt (v : Z) (r : buf) : buf :=
  MkBuf (b_flags r) (b_dev r) (b_blockno r) (b_lock r) v (b_prev r) (b_next r)
    (b_qnext r) (b_data r).
Definition set_b_prev (v : nat) (r : buf) : buf :=
  MkBuf (b_flags r) (b_dev r) (b_blockno r) (b_lock r) (b_refcnt r) v (b_next
    r) (b_qnext r) (b_data r).
Definition set_b_next (v : nat) (r : buf) : buf :=
  MkBuf (b_flags r) (b_dev r) (b_blockno r) (b_lock r) (b_refcnt r) (b_prev r)
    v (b_qnext r) (b_data r).
Definition set_b_qnext (v : option nat) (r : buf) : buf :=
  MkBuf (b_flags r) (b_dev r) (b_blockno r) (b_lock r) (b_refcnt r) (b_prev r)
    (b_next r) v (b_data r).
Definition set_b_data (v : list Z) (r : buf) : buf :=
  MkBuf (b_flags r) (b_dev r) (b_blockno r) (b_lock r) (b_refcnt r) (b_prev r)
    (b_next r) (b_qnext r) v.
#[export] Hint Unfold set_b_flags set_b_dev set_b_blockno set_b_lock set_b_refcnt set_b_prev set_b_next set_b_qnext set_b_data : setters.

(** [struct bcache], the disk blocks behind it and the static variables of
    the drivers.  [bc_hist] is a history variable that no code reads: the blocks
    written to the disk so far, in order. *)
Record bst : Type := MkBst {
  bc_bufs : list buf;
  bc_prev : nat;
  bc_next : nat;
  bc_disk : list (list Z);
  bc_disksize : Z;
  bc_idequeue : option nat;
  bc_havedisk1 : bool;
  bc_hist : list (nat * list Z)
}.
Definition set_bc_bufs (v : list buf) (r : bst) : bst :=
  MkBst v (bc_prev r) (bc_next r) (bc_disk r) (bc_disksize r) (bc_idequeue r)
    (bc_havedisk1 r) (bc_hist r).
Definition set_bc_prev (v : nat) (r : bst) : bst :=
  MkBst (bc_bufs r) v (bc_next r) (bc_disk r) (bc_disksize r) (bc_idequeue r)
    (bc_havedisk1 r) (bc_hist r).
Definition set_bc_next (v : nat) (r : bst) : bst :=
  MkBst (bc_bufs r) (bc_prev r) v (bc_disk r) (bc_disksize r) (bc_idequeue r)
    (bc_havedisk1 r) (bc_hist r).
Definition set_bc_disk (v : list (list Z)) (r : bst) : bst :=
  MkBst (bc_bufs r) (bc_prev r) (bc_next r) v (bc_disksize r) (bc_idequeue r)
    (bc_havedisk1 r) (bc_hist r).
Definition set_bc_disksize (v : Z) (r : bst) : bst :=
  MkBst (bc_bufs r) (bc_prev r) (bc_next r) (bc_disk r) v (bc_idequeue r)
    (bc_havedisk1 r) (bc_hist r).
Definition set_bc_idequeue (v : option nat) (r : bst) : bst :=
  MkBst (bc_bufs r) (bc_prev r) (bc_next r) (bc_disk r) (bc_disksize r) v
    (bc_havedisk1 r) (bc_hist r).
Definition set_bc_havedisk1 (v : bool) (r : bst) : bst :=
  MkBst (bc_bufs r) (bc_prev r) (bc_next r) (bc_disk r) (bc_disksize r)
    (bc_idequeue r) v (bc_hist r).
Definition set_bc_hist (v : list (nat * list Z)) (r : bst) : bst :=
  MkBst (bc_bufs r) (bc_prev r) (bc_next r) (bc_disk r) (bc_disksize r)
    (bc_idequeue r) (bc_havedisk1 r) v.
#[export] Hint Unfold set_bc_bufs set_bc_prev set_bc_next set_bc_disk set_bc_disksize set_bc_idequeue set_bc_havedisk1 set_bc_hist : setters.

Definition bcache_lock : objaddr := ("bcache"%string, 0).
Definition buf_addr (i : nat) : objaddr := ("buf"%string, Z.of_nat i).
Definition head : nat := NBUF.

(** A buffer through its pointer. *)
Definition buf_at (i : nat) : K bst buf :=
  s ← getc;
  match bc_bufs s !! i with
  | Some b => mret b
  | None => fault "bad buffer pointer"
  end.
Definition modbuf (i : nat) (f : buf → buf) : K bst unit :=
  modc (λ s, set_bc_bufs (alter f i (bc_bufs s)) s).

Definition next_of (s : bst) (i : nat) : nat :=
  if decide (i = head) then bc_next s else from_option b_next head (bc_bufs s !! i).
Definition prev_of (s : bst) (i : nat) : nat :=
  if decide (i = head) then bc_prev s else from_option b_prev head (bc_bufs s !! i).
Definition set_next (i v : nat) : K bst unit :=
  if decide (i = head) then modc (set_bc_next v) else modbuf i (set_b_next v).
Definition set_prev (i v : nat) : K bst unit :=
  if decide (i = head) then modc (set_bc_prev v) else modbuf i (set_b_prev v).

(** The sleep lock of a buffer. *)
Definition buf_lockL (i : nat) : lens bst sleeplock :=
  Lens (λ s, from_option b_lock (MkSl false 0) (bc_bufs s !! i))
       (λ l s, set_bc_bufs (alter (set_b_lock l) i (bc_bufs s)) s).

(** The history of the disk after a write of block [n]. *)
Definition note_write (n : nat) (d : list Z) (s : bst) : bst :=
  set_bc_hist (bc_hist s ++ [(n, d)]) s.

(** ** memide.c *)

Definition memide_ideinit (disksize : Z) : K bst unit :=
  modc (set_bc_disksize (disksize / BSIZE)).

Definition memide_iderw (i : nat) : K bst unit :=
  b ← buf_at i;
  l ← holdingsleep (buf_lockL i) (buf_addr i);
  if negb l then panic "iderw: buf not locked" else
  if Z.land (b_flags b) (Z.lor B_VALID B_DIRTY) =? B_VALID then panic "iderw: nothing to do" else
  if negb (b_dev b =? 1) then panic "iderw: request not for disk 1" else
  s ← getc;
  if bc_disksize s <=? b_blockno b then panic "iderw: block out of range" else
  let p := Z.to_nat (b_blockno b) in
  (if negb (Z.land (b_flags b) B_DIRTY =? 0) then
     modbuf i (λ b, set_b_flags (Z.land (b_flags b) (Z.lnot B_DIRTY)) b);;
     modc (λ s, set_bc_disk (<[p := b_data b]> (bc_disk s)) (note_write p (b_data b) s))
   else
     s ← getc;
     modbuf i (set_b_data (default [] (bc_disk s !! p))));;
  modbuf i (λ b, set_b_flags (Z.lor (b_flags b) B_VALID) b).

(** ** bio.c *)

(** The body of the loop of [binit] for buffer [i]. *)
Definition binit_body (i : nat) : K bst unit :=
  n ← gets (λ s, bc_next s.2);
  set_next i n;;
  set_prev i head;;
  initsleeplock (buf_lockL i) (buf_addr i);;
  n ← gets (λ s, bc_next s.2);
  set_prev n i;;
  modc (set_bc_next i).

Definition binit : K bst unit :=
  initlock bcache_lock;;
  modc (set_bc_prev head);;
  modc (set_bc_next head);;
  mfor (seq 0 NBUF) binit_body.

(** [for(b = bcache.head.next; b != &bcache.head; b = b->next)], looking for
    a buffer of the block. *)
Fixpoint bget_cached (fuel : nat) (i : nat) (dev blockno : Z) : K bst (option nat) :=
  if decide (i = head) then mret None else
  match fuel with
  | O => fault "bget: cycle"
  | S fuel =>
      b ← buf_at i;
      if (b_dev b =? dev) && (b_blockno b =? blockno) then mret (Some i)
      else bget_cached fuel (b_next b) dev blockno
  end.

(** [for(b = bcache.head.prev; b != &bcache.head; b = b->prev)], looking for
    a buffer to recycle. *)
Fixpoint bget_unused (fuel : nat) (i : nat) : K bst (option nat) :=
  if decide (i = head) then mret None else
  match fuel with
  | O => fault "bget: cycle"
  | S fuel =>
      b ← buf_at i;
      if (b_refcnt b =? 0) && (Z.land (b_flags b) B_DIRTY =? 0) then mret (Some i)
      else bget_unused fuel (b_prev b)
  end.

(** The list has at most [NBUF] buffers. *)
Definition bget (dev blockno : Z) : K bst nat :=
  acquire bcache_lock;;
  n ← gets (λ s, bc_next s.2);
  r ← bget_cached NBUF n dev blockno;
  match r with
  | Some i =>
      modbuf i (λ b, set_b_refcnt (u32 (b_refcnt b + 1)) b);;
      release bcache_lock;;
      acquiresleep (buf_lockL i) (buf_addr i);;
      mret i
  | None =>
      n ← gets (λ s, bc_prev s.2);
      r ← bget_unused NBUF n;
      match r with
      | Some i =>
          modbuf i (set_b_dev dev);;
          modbuf i (set_b_blockno blockno);;
          modbuf i (set_b_flags 0);;
          modbuf i (set_b_refcnt 1);;
          release bcache_lock;;
          acquiresleep (buf_lockL i) (buf_addr i);;
          mret i
      | None => panic "bget: no buffers"
      end
  end.

Section bio.
Context (iderw : nat → K bst unit).

Definition bread (dev blockno : Z) : K bst nat :=
  i ← bget dev blockno;
  b ← buf_at i;
  when (Z.land (b_flags b) B_VALID =? 0) (iderw i);;
  mret i.

Definition bwrite (i : nat) : K bst unit :=
  l ← holdingsleep (buf_lockL i) (buf_addr i);
  if negb l then panic "bwrite" else
  modbuf i (λ b, set_b_flags (Z.lor (b_flags b) B_DIRTY) b);;
  iderw i.
End bio.

(** The statements of [brelse] that move [b] to the front of the list. *)
Definition brelse_unlink (i : nat) : K bst unit :=
  b ← buf_at i;
  set_prev (b_next b) (b_prev b);;
  b ← buf_at i;
  set_next (b_prev b) (b_next b);;
  n ← gets (λ s, bc_next s.2);
  set_next i n;;
  set_prev i head;;
  n ← gets (λ s, bc_next s.2);
  set_prev n i;;
  modc (set_bc_next i).

Definition brelse (i : nat) : K bst unit :=
  l ← holdingsleep (buf_lockL i) (buf_addr i);
  if negb l then panic "brelse" else
  releasesleep (buf_lockL i) (buf_addr i);;
  acquire bcache_lock;;
  modbuf i (λ b, set_b_refcnt (u32 (b_refcnt b - 1)) b);;
  b ← buf_at i;
  when (b_refcnt b =? 0) (brelse_unlink i);;
  release bcache_lock.

(** ** The invariant of the cache *)

(** A buffer without its links: what the rest of the kernel sees of it. *)
Definition core_buf (b : buf) : buf := set_b_prev 0 (set_b_next 0 (set_b_qnext None b)).
Definition core (s : bst) : list buf := core_buf <$> bc_bufs s.

(** One buffer, over disk blocks [D]: the flags are none, valid, or valid and
    dirty; a valid buffer caches a block of disk 1; a locked one is referenced;
    and the data of a valid clean unlocked buffer is the disk's. *)
Record buf_ok (D : list (list Z)) (b : buf) : Prop := {
  bo_flags : b_flags b = 0 ∨ b_flags b = 2 ∨ b_flags b = 6;
  bo_block : b_flags b ≠ 0 → b_dev b = 1 ∧ ∃ d, D !! Z.to_nat (b_blockno b) = Some d;
  bo_no : 0 ≤ b_blockno b;
  bo_ref : 0 ≤ b_refcnt b < 2 ^ 32 - 1;
  bo_lock : sl_locked (b_lock b) = true → 0 < b_refcnt b;
  bo_data : length (b_data b) = Z.to_nat BSIZE ∧ bytes (b_data b);
  bo_clean : b_flags b = 2 → sl_locked (b_lock b) = false →
    D !! Z.to_nat (b_blockno b) = Some (b_data b)
}.

(** No disk block is in two buffers. *)
Definition unique_blocks (B : list buf) : Prop :=
  ∀ i j b c, B !! i = Some b → B !! j = Some c → b_dev b = 1 → b_dev c = 1 →
    b_blockno b = b_blockno c → i = j.

Definition disk_ok (D : list (list Z)) : Prop :=
  Forall (λ d, length d = Z.to_nat BSIZE ∧ bytes d) D.

Record cache_inv (s : bst) (l : list nat) : Prop := {
  ci_len : length (bc_bufs s) = NBUF;
  ci_ring : ring (next_of s) (prev_of s) head l;
  ci_perm : l ≡ₚ seq 0 NBUF;
  ci_bufs : Forall (buf_ok (bc_disk s)) (core s);
  ci_uniq : unique_blocks (core s);
  ci_disk : disk_ok (bc_disk s);
  ci_size : bc_disksize s = Z.of_nat (length (bc_disk s))
}.

(** The contents of the disk as the cache presents them. *)
Definition holds_block (blk : Z) (b : buf) : Prop :=
  b_dev b = 1 ∧ b_blockno b = blk ∧ b_flags b ≠ 0.
#[global] Instance holds_block_dec blk b : Decision (holds_block blk b).
Proof. unfold holds_block. apply _. Defined.

Definition content (B : list buf) (D : list (list Z)) (blk : Z) : list Z :=
  match list_find (holds_block blk) B with
  | Some (_, b) => b_data b
  | None => default [] (D !! Z.to_nat blk)
  end.

(** ** Lemmas: links and cores *)

Definition nextp (i v : nat) (s : bst) : bst :=
  if decide (i = head) then set_bc_next v s
  else set_bc_bufs (alter (set_b_next v) i (bc_bufs s)) s.
Definition prevp (i v : nat) (s : bst) : bst :=
  if decide (i = head) then set_bc_prev v s
  else set_bc_bufs (alter (set_b_prev v) i (bc_bufs s)) s.

(** A node of the list. *)
Definition node (s : bst) (i : nat) : Prop := i = head ∨ (i < length (bc_bufs s))%nat.

Lemma set_next_run i v h s : set_next i v (h, s) = Ok tt (h, nextp i v s).
Proof. unfold set_next, nextp. by case_decide. Qed.
Lemma set_prev_run i v h s : set_prev i v (h, s) = Ok tt (h, prevp i v s).
Proof. unfold set_prev, prevp. by case_decide. Qed.

Lemma next_of_nextp i v s : node s i →
  pointwise_relation nat eq (next_of (nextp i v s)) (<[i := v]> (next_of s)).
Proof.
  intros Hi j. unfold next_of, nextp. pc_cases.
  - repeat case_decide; try done. cbn. rw list_lookup_alter_eq.
    destruct Hi as [?|[b Hb]%lookup_lt_is_Some]; [done|]. by rw Hb.
  - repeat case_decide; try done; cbn; [congruence|]. rw list_lookup_alter_ne //.
Qed.

Lemma prev_of_prevp i v s : node s i →
  pointwise_relation nat eq (prev_of (prevp i v s)) (<[i := v]> (prev_of s)).
Proof.
  intros Hi j. unfold prev_of, prevp. pc_cases.
  - repeat case_decide; try done. cbn. rw list_lookup_alter_eq.
    destruct Hi as [?|[b Hb]%lookup_lt_is_Some]; [done|]. by rw Hb.
  - repeat case_decide; try done; cbn; [congruence|]. rw list_lookup_alter_ne //.
Qed.

Lemma prev_of_nextp i v s : pointwise_relation nat eq (prev_of (nextp i v s)) (prev_of s).
Proof.
  intros j. unfold prev_of, nextp. repeat case_decide; try done; cbn.
  rw list_lookup_alter. case_decide; [|done]. subst. by destruct (bc_bufs s !! j).
Qed.

Lemma next_of_prevp i v s : pointwise_relation nat eq (next_of (prevp i v s)) (next_of s).
Proof.
  intros j. unfold next_of, prevp. repeat case_decide; try done; cbn.
  rw list_lookup_alter. case_decide; [|done]. subst. by destruct (bc_bufs s !! j).
Qed.

(** Equal but for the links. *)
Record same_but_links (s s' : bst) : Prop := {
  sb_core : core s' = core s;
  sb_disk : bc_disk s' = bc_disk s;
  sb_size : bc_disksize s' = bc_disksize s;
  sb_hist : bc_hist s' = bc_hist s;
  sb_ide : bc_idequeue s' = bc_idequeue s ∧ bc_havedisk1 s' = bc_havedisk1 s
}.

Lemma same_links_trans s1 s2 s3 :
  same_but_links s1 s2 → same_but_links s2 s3 → same_but_links s1 s3.
Proof. intros [] []. split; intuition congruence. Qed.

Lemma fmap_alter_same {A B} (f : A → B) (g : A → A) i (l : list A) :
  (∀ x, f (g x) = f x) → f <$> alter g i l = f <$> l.
Proof.
  intros Hg. apply list_eq. intros j. rw !list_lookup_fmap list_lookup_alter.
  case_decide; [subst|done]. destruct (l !! j); cbn; [by rw Hg|done].
Qed.

Lemma nextp_same i v s : same_but_links s (nextp i v s).
Proof. unfold nextp. case_decide; split; try done. by apply fmap_alter_same. Qed.
Lemma prevp_same i v s : same_but_links s (prevp i v s).
Proof. unfold prevp. case_decide; split; try done. by apply fmap_alter_same. Qed.

Lemma same_links_length s s' : same_but_links s s' → length (bc_bufs s') = length (bc_bufs s).
Proof. intros H. pose proof (f_equal length (sb_core _ _ H)) as E. by rw !length_fmap in E. Qed.

Lemma same_links_node s s' i : same_but_links s s' → node s i → node s' i.
Proof. intros Hs. unfold node. by rw (same_links_length _ _ Hs). Qed.

Lemma core_lookup s i : core s !! i = core_buf <$> bc_bufs s !! i.
Proof. apply list_lookup_fmap. Qed.

(** *** Moving a buffer to the front *)

Lemma next_head s : bc_next s = next_of s head.
Proof. unfold next_of. by rewrite -> decide_True by done. Qed.

Lemma buf_links s i b :
  bc_bufs s !! i = Some b → i ≠ head → b_next b = next_of s i ∧ b_prev b = prev_of s i.
Proof. intros Hb Hi. unfold next_of, prev_of. rewrite -> !decide_False by done. by rw Hb. Qed.

Lemma buf_at_run s i b h : bc_bufs s !! i = Some b → buf_at i (h, s) = Ok b (h, s).
Proof. intros Hb. unfold buf_at. rw bind_run /= Hb. done. Qed.

(** The last four statements of [brelse] (and of the loop of [binit]). *)
Definition pushp (i : nat) (s : bst) : bst :=
  nextp head i (prevp (bc_next s) i (prevp i head (nextp i (bc_next s) s))).

Lemma pushp_ring i s l :
  NoDup (head :: i :: l) → node s i → node s (bc_next s) →
  ring (next_of s) (prev_of s) head l →
  ring (next_of (pushp i s)) (prev_of (pushp i s)) head (i :: l).
Proof.
  intros Hnd Hi Hn Hr. apply (ring_push _ _ _ _ _ Hnd) in Hr. unfold pushp.
  set (s1 := nextp i (bc_next s) s). set (s2 := prevp i head s1). set (s3 := prevp _ i s2).
  pose proof (nextp_same i (bc_next s) s) as S1. pose proof (prevp_same i head s1) as S2.
  pose proof (prevp_same (bc_next s) i s2) as S3. fold s1 in S1. fold s2 in S2. fold s3 in S3.
  assert (node s1 i) as N1 by (by eapply same_links_node).
  assert (node s2 (bc_next s)) as N2 by (eapply same_links_node, same_links_node; done).
  assert (node s3 head) as N3 by (by left).
  rewrite -> (next_of_nextp head i s3 N3), (prev_of_nextp head i s3).
  assert (pointwise_relation nat eq (<[head:=i]> (next_of s3)) (<[head:=i]> (<[i:=next_of s head]> (next_of s)))) as ->.
  { intros x. pc_cases; try done; unfold s3, s2, s1;
      rewrite -> (next_of_prevp _ _ _ _), (next_of_prevp _ _ _ _), (next_of_nextp _ _ _ Hi _), next_head.
    all: by rewrite -> ?fn_lookup_insert, ?fn_lookup_insert_ne. }
  assert (pointwise_relation nat eq (prev_of s3) (<[next_of s head:=i]> (<[i:=head]> (prev_of s)))) as ->; [|done].
  intros x. unfold s3. rewrite -> (prev_of_prevp _ _ _ N2 _), next_head. pc_cases; try done;
    unfold s2; rewrite -> (prev_of_prevp _ _ _ N1 _); unfold s1;
    rewrite -> ?fn_lookup_insert, ?fn_lookup_insert_ne by done; try done.
  apply prev_of_nextp.
Qed.

Lemma pushp_same i s : same_but_links s (pushp i s).
Proof.
  unfold pushp. eapply same_links_trans; [|apply nextp_same].
  eapply same_links_trans; [|apply prevp_same].
  eapply same_links_trans; [|apply prevp_same]. apply nextp_same.
Qed.

Lemma ring_nodes s l x : l ≡ₚ seq 0 NBUF → length (bc_bufs s) = NBUF → x ∈ head :: l → node s x.
Proof.
  intros Hp Hl [->|Hx]%elem_of_cons; [by left|]. right. rw Hl. rw Hp in Hx. apply elem_of_seq in Hx. lia.
Qed.

Lemma ring_nodup l : l ≡ₚ seq 0 NBUF → NoDup (head :: l).
Proof.
  intros Hp. apply NoDup_cons. rw Hp. split; [|apply NoDup_seq].
  intros Hh%elem_of_seq. unfold head in Hh. lia.
Qed.

Lemma hd_elem (x : nat) l : hd x l ∈ x :: l.
Proof. destruct l; cbn; set_solver. Qed.

Lemma last_elem (x : nat) l : List.last l x ∈ x :: l.
Proof.
  destruct (decide (l = [])) as [->|Hl]; cbn; [set_solver|].
  destruct (exists_last Hl) as (l' & y & ->). rw List.last_last. set_solver.
Qed.

(** The two ends of a buffer's links are other nodes of the ring. *)
Lemma ring_neighbours s l1 i l2 :
  l1 ++ i :: l2 ≡ₚ seq 0 NBUF → ring (next_of s) (prev_of s) head (l1 ++ i :: l2) →
  next_of s i ≠ i ∧ next_of s i ∈ head :: l1 ++ i :: l2 ∧
  prev_of s i ≠ i ∧ prev_of s i ∈ head :: l1 ++ i :: l2.
Proof.
  intros Hp Hr. rw (ring_next _ _ _ _ _ _ Hr) (ring_prev _ _ _ _ _ _ Hr).
  pose proof (hd_elem head l2). pose proof (last_elem head l1).
  pose proof (ring_nodup _ Hp) as [Hh [H1 [H2 [Hi _]%NoDup_cons]]%NoDup_app]%NoDup_cons.
  split_and!; set_solver.
Qed.

Lemma brelse_unlink_run i s l1 l2 h :
  l1 ++ i :: l2 ≡ₚ seq 0 NBUF → length (bc_bufs s) = NBUF →
  ring (next_of s) (prev_of s) head (l1 ++ i :: l2) →
  ∃ s', brelse_unlink i (h, s) = Ok tt (h, s') ∧ same_but_links s s' ∧
    ring (next_of s') (prev_of s') head (i :: l1 ++ l2).
Proof.
  intros Hp Hl Hr. pose proof (ring_nodup _ Hp) as Hnd.
  destruct (ring_neighbours s l1 i l2 Hp Hr) as (Hn & Hn' & Hv & Hv').
  assert (i ≠ head) as Hih by (apply NoDup_cons in Hnd; set_solver).
  assert (i ∈ head :: l1 ++ i :: l2) as Hi by set_solver.
  pose proof (λ x Hx, ring_nodes s _ x Hp Hl Hx) as Hnode.
  assert (∃ b, bc_bufs s !! i = Some b) as [b Hb].
  { destruct (Hnode i Hi); [done|]. by apply lookup_lt_is_Some. }
  destruct (buf_links s i b Hb Hih) as [En Ev].
  set (s1 := prevp (next_of s i) (prev_of s i) s).
  pose proof (prevp_same (next_of s i) (prev_of s i) s) as S1. fold s1 in S1.
  assert (∃ b', bc_bufs s1 !! i = Some b') as [b' Hb'].
  { apply lookup_lt_is_Some. rw (same_links_length _ _ S1). by eapply lookup_lt_Some. }
  destruct (buf_links s1 i b' Hb' Hih) as [En' Ev'].
  assert (b_next b' = next_of s i) as En2 by (rw En'; apply next_of_prevp).
  assert (b_prev b' = prev_of s i) as Ev2.
  { rw Ev'. unfold s1. rewrite -> (prev_of_prevp _ _ _ (Hnode _ Hn') _).
    by rewrite -> fn_lookup_insert_ne by done. }
  set (s2 := nextp (prev_of s i) (next_of s i) s1).
  pose proof (nextp_same (prev_of s i) (next_of s i) s1) as S2. fold s2 in S2.
  pose proof (same_links_trans _ _ _ S1 S2) as S12.
  assert (ring (next_of s2) (prev_of s2) head (l1 ++ l2)) as Hr2.
  { apply (ring_unlink _ _ _ _ _ _ Hnd) in Hr. unfold s2.
    rewrite -> (next_of_nextp _ _ _ (same_links_node _ _ _ S1 (Hnode _ Hv'))), (prev_of_nextp _ _ _).
    unfold s1 at 2. rewrite -> (prev_of_prevp _ _ _ (Hnode _ Hn')).
    assert (pointwise_relation nat eq (<[prev_of s i:=next_of s i]> (next_of s1))
      (<[prev_of s i:=next_of s i]> (next_of s))) as ->; [|exact Hr].
    intros x. pc_cases; try done. apply next_of_prevp. }
  exists (pushp i s2). split_and!; [|eapply same_links_trans; [done|apply pushp_same]|].
  - unfold brelse_unlink. rw (bind_ok _ _ _ _ _ (buf_at_run s i b h Hb)) En Ev.
    rw (bind_ok _ _ _ _ _ (set_prev_run _ _ _ _)) (bind_ok _ _ _ _ _ (buf_at_run s1 i b' h Hb')) En2 Ev2.
    rw (bind_ok _ _ _ _ _ (set_next_run _ _ _ _)). fold s1 s2.
    rw (bind_ok _ _ _ (bc_next s2) (h, s2)) // (bind_ok _ _ _ _ _ (set_next_run _ _ _ _)).
    rw (bind_ok _ _ _ _ _ (set_prev_run _ _ _ _)).
    assert (bc_next (prevp i head (nextp i (bc_next s2) s2)) = bc_next s2) as E.
    { unfold prevp, nextp. rewrite -> !decide_False by done. done. }
    rw (bind_ok _ _ _ (bc_next s2) (h, prevp i head (nextp i (bc_next s2) s2))).
    { unfold gets. cbn -[prevp nextp]. by rw E. }
    by rw (bind_ok _ _ _ _ _ (set_prev_run _ _ _ _)).
  - assert (l1 ++ i :: l2 ≡ₚ i :: l1 ++ l2) as HP by solve_Permutation.
    apply pushp_ring; [by rw -HP|by eapply same_links_node, Hnode| |done].
    eapply same_links_node; [done|]. rw next_head (ring_first _ _ _ _ Hr2).
    apply Hnode. pose proof (hd_elem head (l1 ++ l2)). set_solver.
Qed.

(** *** Changing one buffer *)

Definition updbuf (i : nat) (f : buf → buf) (s : bst) : bst :=
  set_bc_bufs (alter f i (bc_bufs s)) s.

(** A change that neither looks at the links nor touches them. *)
Definition linkless (f : buf → buf) : Prop :=
  ∀ b, core_buf (f b) = f (core_buf b) ∧ b_next (f b) = b_next b ∧ b_prev (f b) = b_prev b.

(** The same list of buffers. *)
Record same_links (s s' : bst) : Prop := {
  sl_next : pointwise_relation nat eq (next_of s') (next_of s);
  sl_prev : pointwise_relation nat eq (prev_of s') (prev_of s);
  sl_len : length (bc_bufs s') = length (bc_bufs s);
  sl_hist : bc_hist s' = bc_hist s
}.

Lemma modbuf_run i f h s : modbuf i f (h, s) = Ok tt (h, updbuf i f s).
Proof. done. Qed.

Lemma updbuf_updbuf i f g s : updbuf i f (updbuf i g s) = updbuf i (f ∘ g) s.
Proof. unfold updbuf. unset_goal. by rw list_alter_alter. Qed.

Lemma updbuf_links i f s : linkless f → same_links s (updbuf i f s).
Proof.
  intros Hf. split; [intros j..|cbn; apply length_alter|done]; unfold next_of, prev_of;
    (case_decide; [done|]); cbn; rw list_lookup_alter; (case_decide; [subst|done]);
    destruct (bc_bufs s !! j) as [b|]; [|done| |done]; cbn; by destruct (Hf b) as (_ & ? & ?).
Qed.

Lemma updbuf_core i f s : linkless f → core (updbuf i f s) = alter f i (core s).
Proof.
  intros Hf. unfold core. cbn. apply list_eq. intros j.
  rw list_lookup_fmap !list_lookup_alter !list_lookup_fmap. case_decide; [subst|done].
  destruct (bc_bufs s !! j) as [b|]; [|done]. cbn. by destruct (Hf b) as [-> _].
Qed.

Lemma core_some s i b : core s !! i = Some b →
  ∃ b0, bc_bufs s !! i = Some b0 ∧ b = core_buf b0.
Proof. rw core_lookup. destruct (bc_bufs s !! i) as [b0|]; [|done]. intros [= <-]. eauto. Qed.

(** The invariant after a change of buffer [i] and of the disk. *)
Lemma cache_inv_upd s l s' i b b' :
  cache_inv s l → same_links s s' → core s !! i = Some b →
  core s' = <[i := b']> (core s) → bc_disksize s' = bc_disksize s →
  length (bc_disk s') = length (bc_disk s) → disk_ok (bc_disk s') →
  buf_ok (bc_disk s') b' →
  (∀ j c, j ≠ i → core s !! j = Some c → buf_ok (bc_disk s') c) →
  (∀ j c, j ≠ i → core s !! j = Some c → b_dev c = 1 → b_dev b' = 1 → b_blockno c ≠ b_blockno b') →
  cache_inv s' l.
Proof.
  intros [Hl Hr Hp Hb Hu Hd Hs] [Hn Hv Hlen _] Hi Hc Hsz HlD HD Hb' Ho Hun. split; try done.
  - by rw Hlen.
  - by rewrite -> Hn, Hv.
  - rw Hc. apply Forall_lookup. intros j c. rw list_lookup_insert.
    case_decide as E; [by intros [= <-]|]. intros Hj. apply (Ho j); [|done].
    intros ->. apply E. split; [done|by eapply lookup_lt_Some].
  - rw Hc. intros j k c d. rw !list_lookup_insert.
    assert (i < length (core s))%nat by (by eapply lookup_lt_Some).
    repeat case_decide; intros; simplify_eq; try naive_solver.
  - rw Hsz HlD. done.
Qed.

(** *** The searches of [bget] *)

Definition hit (s : bst) (dev blockno : Z) (i : nat) : bool :=
  from_option (λ b, (b_dev b =? dev) && (b_blockno b =? blockno)) false (bc_bufs s !! i).
Definition unused (s : bst) (i : nat) : bool :=
  from_option (λ b, (b_refcnt b =? 0) && (Z.land (b_flags b) B_DIRTY =? 0)) false (bc_bufs s !! i).

Lemma bget_cached_run h s dev blk l2 : ∀ l1 fuel,
  l1 ++ l2 ≡ₚ seq 0 NBUF → length (bc_bufs s) = NBUF →
  ring (next_of s) (prev_of s) head (l1 ++ l2) → (length l2 ≤ fuel)%nat →
  bget_cached fuel (hd head l2) dev blk (h, s) = Ok (List.find (hit s dev blk) l2) (h, s).
Proof.
  induction l2 as [|i l2 IH]; intros l1 fuel Hp Hl Hr Hf; cbn [hd List.find].
  { destruct fuel; cbn [bget_cached]; by rewrite -> decide_True by done. }
  pose proof (ring_nodup _ Hp) as [Hh _]%NoDup_cons.
  assert (i ≠ head) as Hih by set_solver. destruct fuel as [|fuel]; [cbn in Hf; lia|].
  cbn [bget_cached]. rewrite -> decide_False by done.
  assert (node s i) as [?|[b Hb]%lookup_lt_is_Some] by (eapply ring_nodes; [done..|set_solver]); [done|].
  rw (bind_ok _ _ _ _ _ (buf_at_run s i b h Hb)). unfold hit at 1. rw Hb. cbn [from_option].
  destruct (_ && _); [done|]. destruct (buf_links s i b Hb Hih) as [-> _].
  rw (ring_next _ _ _ _ _ _ Hr). apply (IH (l1 ++ [i])); rw -?app_assoc //. cbn in Hf. lia.
Qed.

Lemma bget_unused_run h s l1 : ∀ l2 fuel,
  rev l1 ++ l2 ≡ₚ seq 0 NBUF → length (bc_bufs s) = NBUF →
  ring (next_of s) (prev_of s) head (rev l1 ++ l2) → (length l1 ≤ fuel)%nat →
  bget_unused fuel (hd head l1) (h, s) = Ok (List.find (unused s) l1) (h, s).
Proof.
  induction l1 as [|i l1 IH]; intros l2 fuel Hp Hl Hr Hf; cbn [hd List.find].
  { destruct fuel; cbn [bget_unused]; by rewrite -> decide_True by done. }
  cbn [rev] in Hp, Hr. rw -app_assoc /= in Hp Hr.
  pose proof (ring_nodup _ Hp) as [Hh _]%NoDup_cons.
  assert (i ≠ head) as Hih by set_solver. destruct fuel as [|fuel]; [cbn in Hf; lia|].
  cbn [bget_unused]. rewrite -> decide_False by done.
  assert (node s i) as [?|[b Hb]%lookup_lt_is_Some] by (eapply ring_nodes; [done..|set_solver]); [done|].
  rw (bind_ok _ _ _ _ _ (buf_at_run s i b h Hb)). unfold unused at 1. rw Hb. cbn [from_option].
  destruct (_ && _); [done|]. destruct (buf_links s i b Hb Hih) as [_ ->].
  rw (ring_prev _ _ _ _ _ _ Hr).
  assert (List.last (rev l1) head = hd head l1) as -> by (destruct l1; [done|]; by cbn; rw List.last_last).
  apply (IH (i :: l2)); [done..|]. cbn in Hf. lia.
Qed.

(** *** Contents *)

Lemma content_cached B D i b :
  unique_blocks B → B !! i = Some b → b_dev b = 1 → b_flags b ≠ 0 →
  content B D (b_blockno b) = b_data b.
Proof.
  intros Hu Hi Hd Hf. unfold content.
  destruct (list_find _ B) as [[j c]|] eqn:E.
  - apply list_find_Some in E as (Hj & (Hcd & Hcb & _) & _).
    assert (i = j) as <- by (by eapply Hu). congruence.
  - apply list_find_None in E. rewrite -> Forall_lookup in E. by destruct (E i b Hi).
Qed.

Lemma content_uncached B D blk :
  (∀ i b, B !! i = Some b → ¬ holds_block blk b) → content B D blk = default [] (D !! Z.to_nat blk).
Proof.
  intros Hn. unfold content. destruct (list_find _ B) as [[j c]|] eqn:E; [|done].
  apply list_find_Some in E as (Hj & Hc & _). by destruct (Hn j c).
Qed.

Lemma content_cases B D blk :
  unique_blocks B →
  (∃ i b, B !! i = Some b ∧ holds_block blk b ∧ content B D blk = b_data b) ∨
  ((∀ i b, B !! i = Some b → ¬ holds_block blk b) ∧ content B D blk = default [] (D !! Z.to_nat blk)).
Proof.
  intros Hu. unfold content. destruct (list_find _ B) as [[j c]|] eqn:E.
  - apply list_find_Some in E as (Hj & Hc & _). left. by exists j, c.
  - apply list_find_None in E. right. split; [|done]. by apply Forall_lookup.
Qed.

(** ** What the cache relies on of a disk driver

    [iderw] of a locked buffer of disk 1 reads the block into an invalid buffer
    and writes a dirty buffer to its block; both leave it valid and clean. *)

Class BlockDev (iderw : nat → K bst unit) : Prop := {
  iderw_read p pr h s i b d :
    ready p pr h → core s !! i = Some b → b_lock b = MkSl true (p_pid pr) →
    b_flags b = 0 → b_dev b = 1 → 0 ≤ b_blockno b →
    bc_disksize s = Z.of_nat (length (bc_disk s)) →
    bc_disk s !! Z.to_nat (b_blockno b) = Some d →
    ∃ h' s', iderw i (h, s) = Ok tt (h', s') ∧ ready p pr h' ∧ same_links s s' ∧
      core s' = <[i := set_b_flags 2 (set_b_data d b)]> (core s) ∧
      bc_disk s' = bc_disk s ∧ bc_disksize s' = bc_disksize s;
  iderw_write p pr h s i b d :
    ready p pr h → core s !! i = Some b → b_lock b = MkSl true (p_pid pr) →
    b_flags b = 4 ∨ b_flags b = 6 → b_dev b = 1 → 0 ≤ b_blockno b →
    bc_disksize s = Z.of_nat (length (bc_disk s)) →
    bc_disk s !! Z.to_nat (b_blockno b) = Some d →
    ∃ h' s', iderw i (h, s) = Ok tt (h', s') ∧ ready p pr h' ∧
      same_links (note_write (Z.to_nat (b_blockno b)) (b_data b) s) s' ∧
      core s' = <[i := set_b_flags 2 b]> (core s) ∧
      bc_disk s' = <[Z.to_nat (b_blockno b) := b_data b]> (bc_disk s) ∧
      bc_disksize s' = bc_disksize s
}.

(** *** memide.c is such a driver *)

Lemma alter_insert_core f i b (B : list buf) : B !! i = Some b → alter f i B = <[i := f b]> B.
Proof.
  intros Hb. apply list_eq. intros j. rw list_lookup_alter list_lookup_insert.
  assert (i < length B)%nat by (by eapply lookup_lt_Some).
  repeat case_decide; subst; try done; [by rw Hb|naive_solver..].
Qed.

Lemma same_links_refl s : same_links s s.
Proof. by split. Qed.

(** The checks of [memide_iderw] pass on a locked buffer of the disk. *)
Lemma memide_iderw_checked p pr h s i b :
  ready p pr h → bc_bufs s !! i = Some b → b_lock b = MkSl true (p_pid pr) →
  b_flags b = 0 ∨ b_flags b = 4 ∨ b_flags b = 6 → b_dev b = 1 →
  0 ≤ b_blockno b < bc_disksize s →
  memide_iderw i (h, s) =
    ((if negb (Z.land (b_flags b) B_DIRTY =? 0) then
       modbuf i (λ b, set_b_flags (Z.land (b_flags b) (Z.lnot B_DIRTY)) b);;
       modc (λ s, set_bc_disk (<[Z.to_nat (b_blockno b) := b_data b]> (bc_disk s))
                    (note_write (Z.to_nat (b_blockno b)) (b_data b) s))
     else
       s ← getc;
       modbuf i (set_b_data (default [] (bc_disk s !! Z.to_nat (b_blockno b)))));;
    modbuf i (λ b, set_b_flags (Z.lor (b_flags b) B_VALID) b)) (settle h, s).
Proof.
  intros Hr Hb Hl Hf Hd Hn. unfold memide_iderw. rw (bind_ok _ _ _ _ _ (buf_at_run s i b h Hb)).
  rw (bind_ok _ _ _ _ _ (holdingsleep_run (buf_lockL i) (buf_addr i) p pr h s Hr)).
  cbn [view buf_lockL from_option]. rw Hb. cbn [from_option]. rw Hl. cbn [sl_locked sl_pid].
  rw Z.eqb_refl. cbn [andb negb].
  assert ((Z.land (b_flags b) (Z.lor B_VALID B_DIRTY) =? B_VALID) = false) as ->
    by (destruct Hf as [->|[->| ->]]; done).
  rw Hd. cbn [Z.eqb Pos.eqb negb]. rw bind_run. cbn -[modbuf modc].
  by rewrite -> (proj2 (Z.leb_gt _ _)) by lia.
Qed.

#[export] Instance memide_BlockDev : BlockDev memide_iderw.
Proof.
  split.
  - intros p pr h s i b d Hr Hi Hl Hf Hd Hn Hs HD.
    destruct (core_some s i b Hi) as (b0 & Hb & ->).
    erewrite (memide_iderw_checked p pr h s i b0); [|done..|by left|done|].
    2:{ split; [done|]. apply lookup_lt_Some in HD. rw Hs. cbn in *. lia. }
    cbn in Hf. rw Hf. cbn [Z.land Z.eqb negb]. exists (settle h).
    exists (updbuf i (λ b, set_b_flags (Z.lor (b_flags b) B_VALID) (set_b_data d b)) s).
    cbn in HD. split_and!; [|by apply ready_settle|apply updbuf_links; by split| |done..].
    + rw bind_run (bind_ok _ _ _ s (settle h, s)) // HD. cbn. unfold modbuf, modc, updbuf. unset_goal. by rw list_alter_alter.
    + rw updbuf_core; [by split|]. rewrite -> (alter_insert_core _ _ _ _ Hi). cbn. by rw Hf.
  - intros p pr h s i b d Hr Hi Hl Hf Hd Hn Hs HD.
    destruct (core_some s i b Hi) as (b0 & Hb & ->).
    erewrite (memide_iderw_checked p pr h s i b0); [|done..|by right|done|].
    2:{ split; [done|]. apply lookup_lt_Some in HD. rw Hs. cbn in *. lia. }
    assert ((Z.land (b_flags b0) B_DIRTY =? 0) = false) as -> by (change (b_flags (core_buf b0)) with (b_flags b0) in Hf; destruct Hf as [->| ->]; done).
    cbn [negb]. exists (settle h).
    exists (set_bc_disk (<[Z.to_nat (b_blockno b0) := b_data b0]> (bc_disk s))
      (note_write (Z.to_nat (b_blockno b0)) (b_data b0) (updbuf i (λ b, set_b_flags
        (Z.lor (Z.land (b_flags b) (Z.lnot B_DIRTY)) B_VALID) b) s))).
    split_and!; [|by apply ready_settle| |  |done..].
    + rw bind_assoc (bind_ok _ _ _ _ _ (modbuf_run i _ _ s)) bind_run. cbn -[updbuf]. rw modbuf_run.
      unfold updbuf. unset_goal. by rw list_alter_alter.
    + pose proof (updbuf_links i (λ b, set_b_flags (Z.lor (Z.land (b_flags b) (Z.lnot B_DIRTY)) B_VALID) b) s)
        as [? ? ? ?]; [by split|by split].
    + change (core (set_bc_disk _ (note_write _ _ ?x))) with (core x). rw updbuf_core; [by split|].
      rewrite -> (alter_insert_core _ _ _ _ Hi). do 2 f_equal. destruct Hf as [->| ->]; done.
Qed.

(** ** [bget] *)

Lemma hit_core s dev blk i :
  hit s dev blk i = from_option (λ b, (b_dev b =? dev) && (b_blockno b =? blk)) false (core s !! i).
Proof. unfold hit. rw core_lookup. by destruct (bc_bufs s !! i). Qed.

Lemma unused_core s i :
  unused s i =
  from_option (λ b, (b_refcnt b =? 0) && (Z.land (b_flags b) B_DIRTY =? 0)) false (core s !! i).
Proof. unfold unused. rw core_lookup. by destruct (bc_bufs s !! i). Qed.

Section bget.
Context (p : nat) (pr : proc).

(** The searches of [bget] under the lock of the cache. *)
Lemma bget_search h s l blk :
  cache_inv s l →
  (n ← gets (λ s, bc_next s.2); bget_cached NBUF n 1 blk) (h, s)
    = Ok (List.find (hit s 1 blk) l) (h, s) ∧
  (n ← gets (λ s, bc_prev s.2); bget_unused NBUF n) (h, s)
    = Ok (List.find (unused s) (rev l)) (h, s).
Proof.
  intros [Hl Hr Hp _ _ _ _].
  assert (length l = NBUF) as HL by (by rw Hp length_seq). split; rw bind_run; cbn [gets snd].
  - rw next_head (ring_first _ _ _ _ Hr). apply (bget_cached_run h s 1 blk l []); try done. by rw HL.
  - assert (bc_prev s = hd head (rev l)) as ->.
    { transitivity (prev_of s head); [unfold prev_of; by rewrite -> decide_True|].
      rw (ring_last _ _ _ _ Hr). destruct l as [|x l _] using rev_ind; [done|].
      by rw List.last_last rev_app_distr. }
    apply (bget_unused_run h s (rev l) []); rw ?rev_involutive ?app_nil_r //. by rw length_rev HL.
Qed.

Lemma find_hit s l blk i b :
  cache_inv s l → core s !! i = Some b → b_dev b = 1 → b_blockno b = blk →
  List.find (hit s 1 blk) l = Some i.
Proof.
  intros Hc Hi Hd Hb. destruct (List.find _ l) as [j|] eqn:E.
  - apply List.find_some in E as [_ E]. rw hit_core in E.
    destruct (core s !! j) as [c|] eqn:Hj; cbn in E; [|done].
    apply andb_true_iff in E as [E1%Z.eqb_eq E2%Z.eqb_eq]. f_equal.
    by eapply (ci_uniq _ _ Hc); try done; lia.
  - assert (i ∈ l) as Hil.
    { rw (ci_perm _ _ Hc). apply elem_of_seq. apply lookup_lt_Some in Hi. rw length_fmap in Hi.
      rw (ci_len _ _ Hc) in Hi. lia. }
    apply list_elem_of_In in Hil. pose proof (List.find_none _ _ E i Hil) as Hn.
    rw hit_core Hi /= in Hn. by rw Hd Hb !Z.eqb_refl in Hn.
Qed.

Lemma find_no_hit s l blk :
  cache_inv s l → (∀ j c, core s !! j = Some c → ¬ (b_dev c = 1 ∧ b_blockno c = blk)) →
  List.find (hit s 1 blk) l = None.
Proof.
  intros Hc Hn. destruct (List.find _ l) as [j|] eqn:E; [|done].
  apply List.find_some in E as [_ E]. rw hit_core in E.
  destruct (core s !! j) as [c|] eqn:Hj; cbn in E; [|done].
  apply andb_true_iff in E as [E1%Z.eqb_eq E2%Z.eqb_eq]. by destruct (Hn j c).
Qed.

Lemma bcache_ready h : ready p pr h →
  (∀ x : bst, acquire bcache_lock (h, x) = Ok tt (acq bcache_lock h, x)) ∧
  (∀ x : bst, release bcache_lock (acq bcache_lock h, x) = Ok tt (settle h, x)).
Proof.
  intros Hr. split; intros x.
  - apply acquire_ok; [by eapply ready_wf|by eapply ready_free].
  - apply release_ok; [by eapply ready_wf|by eapply ready_free].
Qed.

(** [bget] of a cached, unlocked block. *)
Lemma bget_hit h s l blk i b :
  ready p pr h → cache_inv s l → core s !! i = Some b →
  b_dev b = 1 → b_blockno b = blk → sl_locked (b_lock b) = false →
  ∃ s', bget 1 blk (h, s) = Ok i (settle h, s') ∧ same_links s s' ∧
    core s' = <[i := set_b_lock (MkSl true (p_pid pr)) (set_b_refcnt (b_refcnt b + 1) b)]> (core s) ∧
    bc_disk s' = bc_disk s ∧ bc_disksize s' = bc_disksize s.
Proof.
  intros Hr Hc Hi Hd Hb Hl. destruct (bcache_ready h Hr) as [Ha Hrel].
  pose proof (find_hit s l blk i b Hc Hi Hd Hb) as Hf.
  pose proof (proj1 (bget_search (acq bcache_lock h) s l blk Hc)) as Hs. rw Hf bind_run /= in Hs.
  set (f := λ b, set_b_refcnt (u32 (b_refcnt b + 1)) b).
  assert (linkless f) as Lf by (by split).
  exists (over (buf_lockL i) (MkSl true (p_pid pr)) (updbuf i f s)). split_and!; try done.
  - unfold bget. rw (bind_ok _ _ _ _ _ (Ha s)) (bind_ok _ _ _ (bc_next s) (acq bcache_lock h, s)) //.
    rw (bind_ok _ _ _ _ _ Hs) (bind_ok _ _ _ _ _ (modbuf_run i _ _ s)) (bind_ok _ _ _ _ _ (Hrel _)).
    erewrite bind_ok; [|eapply acquiresleep_free; [by apply ready_settle|]].
    + by rw settle_settle.
    + cbn. rw list_lookup_alter_eq. destruct (core_some s i b Hi) as (b0 & -> & E). cbn. by subst b.
  - change (same_links s (updbuf i (set_b_lock (MkSl true (p_pid pr))) (updbuf i f s))).
    rw updbuf_updbuf. by apply updbuf_links.
  - change (core (updbuf i (set_b_lock (MkSl true (p_pid pr))) (updbuf i f s)) = 
      <[i := set_b_lock (MkSl true (p_pid pr)) (set_b_refcnt (b_refcnt b + 1) b)]> (core s)).
    rw updbuf_updbuf updbuf_core //. rewrite -> (alter_insert_core _ _ _ _ Hi). cbn. unfold f.
    pose proof (ci_bufs _ _ Hc) as HB. rewrite -> Forall_lookup in HB.
    pose proof (bo_ref _ _ (HB i b Hi)). by rewrite -> wrapu_small by lia.
Qed.

(** [bget] of a cached block whose buffer is locked waits for it. *)
Lemma bget_wait h s l blk i b :
  ready p pr h → cache_inv s l → core s !! i = Some b →
  b_dev b = 1 → b_blockno b = blk → sl_locked (b_lock b) = true →
  ∃ s', bget 1 blk (h, s) =
      Stop Switch (acq ptable_lock (upd_proc p (asleep (Some (buf_addr i))) (settle h)), s') ∧
    same_links s s' ∧ core s' = <[i := set_b_refcnt (b_refcnt b + 1) b]> (core s) ∧
    bc_disk s' = bc_disk s ∧ bc_disksize s' = bc_disksize s.
Proof.
  intros Hr Hc Hi Hd Hb Hl. destruct (bcache_ready h Hr) as [Ha Hrel].
  pose proof (find_hit s l blk i b Hc Hi Hd Hb) as Hf.
  pose proof (proj1 (bget_search (acq bcache_lock h) s l blk Hc)) as Hs. rw Hf bind_run /= in Hs.
  set (f := λ b, set_b_refcnt (u32 (b_refcnt b + 1)) b).
  assert (linkless f) as Lf by (by split).
  exists (updbuf i f s). split_and!; try done; [|by apply updbuf_links|].
  - unfold bget. rw (bind_ok _ _ _ _ _ (Ha s)) (bind_ok _ _ _ (bc_next s) (acq bcache_lock h, s)) //.
    rw (bind_ok _ _ _ _ _ Hs) (bind_ok _ _ _ _ _ (modbuf_run i _ _ s)) (bind_ok _ _ _ _ _ (Hrel _)).
    erewrite bind_stop; [done|]. apply (acquiresleep_taken _ _ p pr); [by apply ready_settle|].
    cbn. rw list_lookup_alter_eq. destruct (core_some s i b Hi) as (b0 & -> & E). cbn. by subst b.
  - rw updbuf_core //. rewrite -> (alter_insert_core _ _ _ _ Hi). unfold f.
    pose proof (ci_bufs _ _ Hc) as HB. rewrite -> Forall_lookup in HB.
    pose proof (bo_ref _ _ (HB i b Hi)). by rewrite -> wrapu_small by lia.
Qed.

(** [bget] of a block that is not cached takes the least recently used
    buffer that is free. *)
Lemma bget_recycle h s l blk i :
  ready p pr h → cache_inv s l →
  (∀ j c, core s !! j = Some c → ¬ (b_dev c = 1 ∧ b_blockno c = blk)) →
  List.find (unused s) (rev l) = Some i →
  ∃ b s', core s !! i = Some b ∧ b_refcnt b = 0 ∧ b_flags b ≠ 6 ∧
    bget 1 blk (h, s) = Ok i (settle h, s') ∧ same_links s s' ∧
    core s' = <[i := set_b_lock (MkSl true (p_pid pr)) (set_b_refcnt 1 (set_b_flags 0
                (set_b_blockno blk (set_b_dev 1 b))))]> (core s) ∧
    bc_disk s' = bc_disk s ∧ bc_disksize s' = bc_disksize s.
Proof.
  intros Hr Hc Hno Hfu. destruct (bcache_ready h Hr) as [Ha Hrel].
  pose proof (find_no_hit s l blk Hc Hno) as Hf.
  destruct (bget_search (acq bcache_lock h) s l blk Hc) as [Hs Hs2].
  rw Hf bind_run /= in Hs. rw Hfu bind_run /= in Hs2.
  apply List.find_some in Hfu as [_ Hu]. rw unused_core in Hu.
  destruct (core s !! i) as [b|] eqn:Hi; cbn in Hu; [|done].
  apply andb_true_iff in Hu as [Hz%Z.eqb_eq Hdirty%Z.eqb_eq].
  pose proof (ci_bufs _ _ Hc) as HB. rewrite -> Forall_lookup in HB.
  pose proof (bo_lock _ _ (HB i b Hi)) as HL.
  set (f := set_b_refcnt 1 ∘ set_b_flags 0 ∘ set_b_blockno blk ∘ set_b_dev 1).
  assert (linkless f) as Lf by (by split).
  exists b, (over (buf_lockL i) (MkSl true (p_pid pr)) (updbuf i f s)).
  split_and!; try done; [by intros E; rw E in Hdirty|..].
  - unfold bget. rw (bind_ok _ _ _ _ _ (Ha s)) (bind_ok _ _ _ (bc_next s) (acq bcache_lock h, s)) //.
    rw (bind_ok _ _ _ _ _ Hs) (bind_ok _ _ _ (bc_prev s) (acq bcache_lock h, s)) //.
    rw (bind_ok _ _ _ _ _ Hs2) !(bind_ok _ _ _ _ _ (modbuf_run i _ _ _)) (bind_ok _ _ _ _ _ (Hrel _)).
    rw !updbuf_updbuf. fold f.
    erewrite bind_ok; [|eapply acquiresleep_free; [by apply ready_settle|]].
    + by rw settle_settle.
    + cbn. rw list_lookup_alter_eq. destruct (core_some s i b Hi) as (b0 & -> & E). cbn. subst b.
      cbn in HL, Hz. destruct (sl_locked (b_lock b0)); [|done]. specialize (HL eq_refl). lia.
  - change (same_links s (updbuf i (set_b_lock (MkSl true (p_pid pr))) (updbuf i f s))).
    rw updbuf_updbuf. by apply updbuf_links.
  - change (core (updbuf i (set_b_lock (MkSl true (p_pid pr))) (updbuf i f s)) =
      <[i := set_b_lock (MkSl true (p_pid pr)) (f b)]> (core s)).
    rw updbuf_updbuf updbuf_core //. by rewrite -> (alter_insert_core _ _ _ _ Hi).
Qed.

(** The invariant after one of these changes: one more reference to the
    buffer of the block, or a free buffer recycled for the block. *)
Lemma cache_inv_ref s s' l i b b' :
  cache_inv s l → same_links s s' → core s !! i = Some b → core s' = <[i := b']> (core s) →
  bc_disk s' = bc_disk s → bc_disksize s' = bc_disksize s →
  b' = set_b_lock (b_lock b') (set_b_refcnt (b_refcnt b + 1) b) →
  sl_locked (b_lock b') = true → b_refcnt b + 1 < 2 ^ 32 - 1 → cache_inv s' l.
Proof.
  intros Hc Hsl Hi Hcore HD HS Eb Hl Hrf. pose proof (ci_bufs _ _ Hc) as HB. rewrite -> Forall_lookup in HB.
  pose proof (HB i b Hi) as [].
  assert (b_dev b' = b_dev b ∧ b_blockno b' = b_blockno b) as [Ed En] by (by rw Eb).
  eapply (cache_inv_upd s l s' i b b'); try done; rw ?HD //.
  - apply (ci_disk _ _ Hc).
  - rewrite -> Eb in Hl |- *. split; cbn in *; try done; try lia. congruence.
  - intros j c _ Hj. by apply (HB j).
  - rw Ed En. intros j c Hji Hj Hcd Hbd E. apply Hji. by eapply (ci_uniq _ _ Hc j i c b).
Qed.

Lemma cache_inv_recycle s s' l i b blk pid :
  cache_inv s l → same_links s s' → core s !! i = Some b →
  core s' = <[i := set_b_lock (MkSl true pid) (set_b_refcnt 1 (set_b_flags 0
              (set_b_blockno blk (set_b_dev 1 b))))]> (core s) →
  bc_disk s' = bc_disk s → bc_disksize s' = bc_disksize s → 0 ≤ blk →
  (∀ j c, core s !! j = Some c → ¬ (b_dev c = 1 ∧ b_blockno c = blk)) → cache_inv s' l.
Proof.
  intros Hc Hsl Hi Hcore HD HS Hblk Hno. pose proof (ci_bufs _ _ Hc) as HB. rewrite -> Forall_lookup in HB.
  pose proof (HB i b Hi) as []. eapply (cache_inv_upd s l s' i b _ Hc Hsl Hi Hcore); try done; rw ?HD //.
  - apply (ci_disk _ _ Hc).
  - split; cbn; try done; try lia.
  - intros j c _ Hj. by apply (HB j).
  - cbn. intros j c _ Hj Hcd _ E. by apply (Hno j c).
Qed.

(** With every buffer referenced or dirty, [bget] panics. *)
Lemma bget_full h s l blk :
  ready p pr h → cache_inv s l →
  (∀ j c, core s !! j = Some c → ¬ (b_dev c = 1 ∧ b_blockno c = blk)) →
  List.find (unused s) (rev l) = None →
  bget 1 blk (h, s) = Stop (Panic "bget: no buffers") (acq bcache_lock h, s).
Proof.
  intros Hr Hc Hno Hfu. destruct (bcache_ready h Hr) as [Ha _].
  pose proof (find_no_hit s l blk Hc Hno) as Hf.
  destruct (bget_search (acq bcache_lock h) s l blk Hc) as [Hs Hs2].
  rw Hf bind_run /= in Hs. rw Hfu bind_run /= in Hs2.
  unfold bget. rw (bind_ok _ _ _ _ _ (Ha s)) (bind_ok _ _ _ (bc_next s) (acq bcache_lock h, s)) //.
  rw (bind_ok _ _ _ _ _ Hs) (bind_ok _ _ _ (bc_prev s) (acq bcache_lock h, s)) //.
  by rw (bind_ok _ _ _ _ _ Hs2).
Qed.
End bget.

(** ** Contents under changes of one buffer *)

Lemma content_insert B D i b b' blk :
  unique_blocks B → unique_blocks (<[i := b']> B) → B !! i = Some b →
  content (<[i := b']> B) D blk =
    if decide (holds_block blk b') then b_data b'
    else if decide (holds_block blk b) then default [] (D !! Z.to_nat blk)
    else content B D blk.
Proof.
  intros Hu Hu' Hi. assert (i < length B)%nat as Hlt by (by eapply lookup_lt_Some).
  assert (<[i := b']> B !! i = Some b') as Hi' by (by apply list_lookup_insert_eq).
  case_decide as H1.
  { destruct H1 as (Hd & <- & Hf). by apply (content_cached _ _ i). }
  case_decide as H2.
  { apply content_uncached. intros j c Hj Hc. destruct (decide (j = i)) as [->|Hne]; [congruence|].
    rewrite -> list_lookup_insert_ne in Hj by done. apply Hne.
    destruct H2 as (? & ? & _), Hc as (? & ? & _). apply (Hu j i c b); congruence. }
  destruct (content_cases B D blk Hu) as [(j & c & Hj & Hc & ->)|[Hn ->]].
  - assert (j ≠ i) by (intros ->; congruence). destruct Hc as (? & <- & ?).
    apply (content_cached _ _ j); try done. by rw list_lookup_insert_ne.
  - apply content_uncached. intros j c. rw list_lookup_insert. case_decide; [by intros [= <-]|apply Hn].
Qed.

Lemma content_same B D i b b' blk :
  unique_blocks B → unique_blocks (<[i := b']> B) → B !! i = Some b →
  (holds_block blk b' ↔ holds_block blk b) → (holds_block blk b' → b_data b' = b_data b) →
  content (<[i := b']> B) D blk = content B D blk.
Proof.
  intros Hu Hu' Hi Hh Hd. rewrite -> (content_insert B D i b b') by done. case_decide as H1.
  - rw Hd //. apply Hh in H1 as (? & <- & ?). symmetry. by apply (content_cached _ _ i).
  - by rewrite -> decide_False by tauto.
Qed.

(** The disk behind a cached block does not show. *)
Lemma content_disk B D D' blk :
  (∀ n, D' !! n = D !! n ∨ ∃ i b, B !! i = Some b ∧ b_dev b = 1 ∧ b_flags b ≠ 0 ∧
     n = Z.to_nat (b_blockno b) ∧ 0 ≤ b_blockno b) →
  unique_blocks B → 0 ≤ blk → content B D' blk = content B D blk.
Proof.
  intros HD Hu Hblk. unfold content. destruct (list_find _ B) as [[j c]|] eqn:E; [done|].
  apply list_find_None in E. rewrite -> Forall_lookup in E.
  destruct (HD (Z.to_nat blk)) as [->|(i & b & Hi & Hd & Hf & Hn & Hz)]; [done|].
  exfalso. apply (E i b Hi). split_and!; [done|lia|done].
Qed.

(** ** [bread], [bwrite] and [brelse] *)

(** Buffer [i] is locked by the process with [pid] and holds block [blk]. *)
Record owned (s : bst) (pid blk : Z) (i : nat) (b : buf) : Prop := {
  ow_buf : core s !! i = Some b;
  ow_dev : b_dev b = 1;
  ow_blk : b_blockno b = blk;
  ow_valid : b_flags b = 2 ∨ b_flags b = 6;
  ow_lock : b_lock b = MkSl true pid
}.

(** What [bread] does: buffer [i] becomes [b'], which holds the contents of
    the block; no content changes. *)
Record bread_post (pid blk : Z) (s s' : bst) (l : list nat) (i : nat) (b b' : buf) : Prop := {
  rp_inv : cache_inv s' l;
  rp_old : core s !! i = Some b;
  rp_core : core s' = <[i := b']> (core s);
  rp_own : owned s' pid blk i b';
  rp_data : b_data b' = content (core s) (bc_disk s) blk;
  rp_dirty : b_flags b' = 6 → b_flags b = 6;
  rp_ref : b_refcnt b' = b_refcnt b + 1;
  rp_unlocked : sl_locked (b_lock b) = false;
  rp_same : b_flags b = 6 → b_flags b' = 6 ∧ b_dev b = 1 ∧ b_blockno b = blk;
  rp_disk : bc_disk s' = bc_disk s ∧ bc_disksize s' = bc_disksize s ∧ bc_hist s' = bc_hist s;
  rp_content : ∀ n, content (core s') (bc_disk s') n = content (core s) (bc_disk s) n
}.

(** The block can be had: its buffer is unlocked, or it has none and one is
    free to take. *)
Inductive obtainable (s : bst) (l : list nat) (blk : Z) : Prop :=
| ob_cached i b :
    core s !! i = Some b → b_dev b = 1 → b_blockno b = blk →
    sl_locked (b_lock b) = false → b_refcnt b + 1 < 2 ^ 32 - 1 → obtainable s l blk
| ob_free i :
    (∀ j c, core s !! j = Some c → ¬ (b_dev c = 1 ∧ b_blockno c = blk)) →
    List.find (unused s) (rev l) = Some i → obtainable s l blk.

Section bread.
Context (iderw : nat → K bst unit) `{HBD : !BlockDev iderw} (p : nat) (pr : proc).
Abbreviation pid := (p_pid pr).

Lemma same_links_comp s1 s2 s3 : same_links s1 s2 → same_links s2 s3 → same_links s1 s3.
Proof.
  intros [A1 A2 A3 A4] [B1 B2 B3 B4]. split; [intros x..|congruence|congruence].
  - by rewrite -> (B1 x), (A1 x).
  - by rewrite -> (B2 x), (A2 x).
Qed.

(** The cache with the buffer [b'] in place of [b], holding the block. *)
Lemma bread_post_intro s s' l blk i b b' :
  cache_inv s l → same_links s s' → core s !! i = Some b → core s' = <[i := b']> (core s) →
  bc_disk s' = bc_disk s → bc_disksize s' = bc_disksize s → 0 ≤ blk →
  b_dev b' = 1 → b_blockno b' = blk → b_flags b' = 2 ∨ b_flags b' = 6 → b_lock b' = MkSl true pid →
  b_refcnt b' = b_refcnt b + 1 → b_refcnt b + 1 < 2 ^ 32 - 1 → sl_locked (b_lock b) = false →
  (∃ d, bc_disk s !! Z.to_nat blk = Some d) →
  (b_flags b' = 6 → b_flags b = 6) → (b_flags b = 6 → b_flags b' = 6 ∧ b_dev b = 1 ∧ b_blockno b = blk) →
  b_data b' = content (core s) (bc_disk s) blk → 
  (holds_block blk b → b_data b' = b_data b) →
  (¬ holds_block blk b → bc_disk s !! Z.to_nat blk = Some (b_data b')) →
  (∀ j c, j ≠ i → core s !! j = Some c → ¬ (b_dev c = 1 ∧ b_blockno c = blk)) →
  bread_post pid blk s s' l i b b'.
Proof.
  intros Hc Hsl Hi Hcore HD HS Hblk Hd Hb Hf Hl Hr Hr' Hul [d0 Hd0] Hdirty Hdirty' Hdata Hsame Hdisk Hun.
  pose proof (ci_bufs _ _ Hc) as HB. rewrite -> Forall_lookup in HB.
  pose proof (HB i b Hi) as Hbo.
  assert (buf_ok (bc_disk s) b') as Hbo'.
  { split; try tauto; try lia.
    - intros _. split; [done|]. rw Hb. by exists d0.
    - rw Hr. pose proof (bo_ref _ _ Hbo). lia.
    - intros _. pose proof (bo_ref _ _ Hbo). lia.
    - destruct (decide (holds_block blk b)) as [Hh|Hh].
      + rw Hsame //. apply (bo_data _ _ Hbo).
      + pose proof (ci_disk _ _ Hc) as Hdk. unfold disk_ok in Hdk. rewrite -> Forall_lookup in Hdk.
        by apply (Hdk _ _ (Hdisk Hh)).
    - rw Hl. done. }
  assert (cache_inv s' l) as Hc'.
  { eapply (cache_inv_upd s l s' i b b'); try done; rw ?HD //; [apply (ci_disk _ _ Hc)|intros; by eapply HB|].
    intros j c Hji Hj Hcd _. rw Hb. intros E. by apply (Hun j c Hji Hj). }
  pose proof (ci_uniq _ _ Hc) as Hu. pose proof (ci_uniq _ _ Hc') as Hu'. rw Hcore in Hu'.
  split; try done.
  - split; try done. rw Hcore. apply list_lookup_insert_eq. by eapply lookup_lt_Some.
  - split_and!; [done..|apply Hsl].
  - intros n. rw Hcore HD (content_insert _ _ i b b') //. case_decide as H1.
    + destruct H1 as (_ & <- & _). by rw Hb.
    + case_decide as H2; [|done]. destruct H2 as (H2d & <- & H2f).
      rewrite -> (content_cached _ _ i b) by done.
      destruct (bo_flags _ _ Hbo) as [?|[E|E]]; [done| |].
      * by rewrite -> (bo_clean _ _ Hbo E Hul).
      * destruct (Hdirty' E) as (? & _ & E2). exfalso. apply H1. split_and!; [done|congruence|lia].
Qed.

Lemma bread_after_bget h s s1 l blk i b b1 d :
  ready p pr h → cache_inv s l → same_links s s1 → core s !! i = Some b →
  core s1 = <[i := b1]> (core s) → bc_disk s1 = bc_disk s → bc_disksize s1 = bc_disksize s →
  0 ≤ blk → b_dev b1 = 1 → b_blockno b1 = blk → b_lock b1 = MkSl true pid →
  b_refcnt b1 = b_refcnt b + 1 → b_refcnt b + 1 < 2 ^ 32 - 1 → sl_locked (b_lock b) = false →
  bc_disk s !! Z.to_nat blk = Some d →
  (b_flags b1 = 0 ∧ b_flags b ≠ 6 ∧ ¬ holds_block blk b) ∨
    (holds_block blk b ∧ b_flags b1 = b_flags b ∧ b_data b1 = b_data b) →
  (∀ j c, j ≠ i → core s !! j = Some c → ¬ (b_dev c = 1 ∧ b_blockno c = blk)) →
  ∃ b' h' s', (b ← buf_at i; when (Z.land (b_flags b) B_VALID =? 0) (iderw i);; mret i) (h, s1)
    = Ok i (h', s') ∧ ready p pr h' ∧ bread_post pid blk s s' l i b b'.
Proof using HBD.
  intros Hr Hc Hsl Hi Hcore HD HS Hblk Hd Hb Hl Hrf Hrf' Hul Hd0 Hcase Hun.
  assert (core s1 !! i = Some b1) as Hi1.
  { rw Hcore. apply list_lookup_insert_eq. by eapply lookup_lt_Some. }
  destruct (core_some _ _ _ Hi1) as (b0 & Hb0 & E0).
  assert (b_flags b0 = b_flags b1) as Ef by (by rw E0).
  rw (bind_ok _ _ _ _ _ (buf_at_run s1 i b0 h Hb0)) Ef.
  destruct Hcase as [(Hf0 & Hf6 & Hnh)|(Hh & Hf1 & Hd1)].
  - rw Hf0. cbn [Z.land Z.eqb when].
    destruct (iderw_read p pr h s1 i b1 d) as (h' & s' & E & Hr' & Hsl' & Hc' & HD' & HS');
      try done; rw ?Hb ?HD ?HS //; [apply (ci_size _ _ Hc)|].
    exists (set_b_flags 2 (set_b_data d b1)), h', s'. rw (bind_ok _ _ _ _ _ E). split_and!; [done..|].
    apply bread_post_intro; try done; try congruence.
    + by eapply same_links_comp.
    + rw Hc' Hcore list_insert_insert_eq //.
    + by left.
    + by exists d.
    + cbn. rewrite -> content_uncached; [by rw Hd0|]. intros j c Hj Hcj.
      destruct (decide (j = i)) as [->|Hne]; [congruence|]. destruct Hcj as (? & ? & _).
      by apply (Hun j c).
  - destruct Hh as (Hbd & Hbb & Hbf). pose proof (ci_bufs _ _ Hc) as HB. rewrite -> Forall_lookup in HB.
    assert (b_flags b1 = 2 ∨ b_flags b1 = 6) as Hf26.
    { destruct (bo_flags _ _ (HB i b Hi)) as [?|[?|?]]; [done|left|right]; congruence. }
    assert ((Z.land (b_flags b1) B_VALID =? 0) = false) as -> by (destruct Hf26 as [->| ->]; done).
    cbn [when]. rw bind_run. cbn. exists b1, h, s1. split_and!; [done..|].
    apply bread_post_intro; try done.
    + by exists d.
    + by rw Hf1.
    + intros E. rw Hf1. by split_and!.
    + rw Hd1 -Hbb. symmetry. by apply (content_cached _ _ i); [apply (ci_uniq _ _ Hc)|..].
    + intros Hn. destruct Hn. by split_and!.
Qed.

Lemma bread_run h s l blk d :
  ready p pr h → cache_inv s l → 0 ≤ blk → bc_disk s !! Z.to_nat blk = Some d →
  obtainable s l blk →
  ∃ i b b' h' s', bread iderw 1 blk (h, s) = Ok i (h', s') ∧ ready p pr h' ∧
    bread_post pid blk s s' l i b b'.
Proof using HBD.
  intros Hr Hc Hblk Hd Hob. unfold bread. pose proof (ci_bufs _ _ Hc) as HB. rewrite -> Forall_lookup in HB.
  destruct Hob as [i b Hi Hbd Hbb Hbl Hbr|i Hno Hf].
  - destruct (bget_hit p pr h s l blk i b) as (s1 & E & Hsl & Hcore & HD & HS); [done..|].
    rw (bind_ok _ _ _ _ _ E). pose proof (ready_settle _ _ _ Hr) as Hr'.
    destruct (bread_after_bget (settle h) s s1 l blk i b
      (set_b_lock (MkSl true (p_pid pr)) (set_b_refcnt (b_refcnt b + 1) b)) d)
      as (b' & h' & s' & E' & Hr2 & Hpost); try done; [| |by exists i, b, b', h', s'].
    + destruct (decide (b_flags b = 0)) as [E0|E0]; [left|right].
      * split_and!; [done|lia|]. unfold holds_block. tauto.
      * split_and!; [|done..]. by split_and!.
    + intros j c Hji Hj [Hcd Hcb]. apply Hji. apply (ci_uniq _ _ Hc j i c b); congruence.
  - destruct (bget_recycle p pr h s l blk i) as (b & s1 & Hi & Hz & H6 & E & Hsl & Hcore & HD & HS); [done..|].
    rw (bind_ok _ _ _ _ _ E). pose proof (ready_settle _ _ _ Hr) as Hr'.
    destruct (bread_after_bget (settle h) s s1 l blk i b (set_b_lock (MkSl true (p_pid pr)) (set_b_refcnt 1
      (set_b_flags 0 (set_b_blockno blk (set_b_dev 1 b))))) d)
      as (b' & h' & s' & E' & Hr2 & Hpost); try done; [cbn; lia|lia| | | |by exists i, b, b', h', s'].
    + pose proof (bo_lock _ _ (HB i b Hi)). destruct (sl_locked (b_lock b)); [|done]. intuition lia.
    + left. split_and!; [done..|]. intros (? & ? & _). by apply (Hno i b).
    + intros j c _ Hj. by apply (Hno j c).
Qed.

(** The process that owns a buffer may store into its data. *)
Lemma write_data s l blk i b d :
  cache_inv s l → owned s pid blk i b → length d = Z.to_nat BSIZE → bytes d →
  cache_inv (updbuf i (set_b_data d) s) l ∧
  owned (updbuf i (set_b_data d) s) pid blk i (set_b_data d b) ∧
  core (updbuf i (set_b_data d) s) = <[i := set_b_data d b]> (core s).
Proof.
  intros Hc [Hi Hd Hb Hf Hl] Hlen Hby.
  assert (core (updbuf i (set_b_data d) s) = <[i := set_b_data d b]> (core s)) as Hcore.
  { rw updbuf_core; [by split|]. by apply alter_insert_core. }
  pose proof (ci_bufs _ _ Hc) as HB. rewrite -> Forall_lookup in HB.
  pose proof (HB i b Hi) as [].
  split_and!; [|split; try done; rw Hcore; apply list_lookup_insert_eq; by eapply lookup_lt_Some|done].
  eapply (cache_inv_upd s l _ i b (set_b_data d b)); try done.
  - apply updbuf_links. by split.
  - apply (ci_disk _ _ Hc).
  - split; cbn; try done. by rw Hl.
  - intros j c _ Hj. by eapply HB.
  - cbn. intros j c Hji Hj Hcd _ E. apply Hji. apply (ci_uniq _ _ Hc j i c b); done || congruence.
Qed.

Lemma holding_owned h s blk i b :
  ready p pr h → owned s pid blk i b →
  holdingsleep (buf_lockL i) (buf_addr i) (h, s) = Ok true (settle h, s).
Proof.
  intros Hr [Hi Hd Hb Hf Hl]. erewrite holdingsleep_run by done. cbn.
  destruct (core_some _ _ _ Hi) as (b0 & -> & E). cbn. subst b. cbn in Hl. rw Hl. cbn.
  by rw Z.eqb_refl.
Qed.

Lemma bwrite_run h s l blk i b :
  ready p pr h → cache_inv s l → owned s pid blk i b →
  ∃ h' s', bwrite iderw i (h, s) = Ok tt (h', s') ∧ ready p pr h' ∧ cache_inv s' l ∧
    owned s' pid blk i (set_b_flags 2 b) ∧ core s' = <[i := set_b_flags 2 b]> (core s) ∧
    bc_disk s' = <[Z.to_nat blk := b_data b]> (bc_disk s) ∧ bc_disksize s' = bc_disksize s ∧
    bc_hist s' = bc_hist s ++ [(Z.to_nat blk, b_data b)].
Proof using HBD.
  intros Hr Hc Ho. pose proof Ho as [Hi Hd Hb Hf Hl]. unfold bwrite.
  rw (bind_ok _ _ _ _ _ (holding_owned h s blk i b Hr Ho)). cbn [negb].
  set (f := λ b, set_b_flags (Z.lor (b_flags b) B_DIRTY) b). rw (bind_ok _ _ _ _ _ (modbuf_run i f _ s)).
  assert (core (updbuf i f s) = <[i := set_b_flags 6 b]> (core s)) as Hcore.
  { rw updbuf_core; [by split|]. rewrite -> (alter_insert_core _ _ _ _ Hi). unfold f.
    by destruct Hf as [->| ->]. }
  assert (i < length (core s))%nat as Hlt by (by eapply lookup_lt_Some).
  pose proof (ci_bufs _ _ Hc) as HB. rewrite -> Forall_lookup in HB. pose proof (HB i b Hi) as Hbo.
  destruct (bo_block _ _ Hbo) as [_ [d HD]]; [destruct Hf; lia|].
  destruct (iderw_write p pr (settle h) (updbuf i f s) i (set_b_flags 6 b) d)
    as (h' & s' & E & Hr' & Hsl & Hc' & HD' & HS'); try done.
  { by apply ready_settle. }
  { rw Hcore. by apply list_lookup_insert_eq. }
  { by right. }
  { apply (bo_no _ _ Hbo). }
  { apply (ci_size _ _ Hc). }
  assert (core s' = <[i := set_b_flags 2 b]> (core s)) as Hcore' by (rw Hc' Hcore list_insert_insert_eq //).
  cbn in HD', Hsl. rw Hb in HD' Hsl.
  exists h', s'. split_and!; try done; [|split; try done; [|by left]; rw Hcore'; by apply list_lookup_insert_eq|apply Hsl].
  - eapply (cache_inv_upd (note_write (Z.to_nat blk) (b_data b) s) l s' i b (set_b_flags 2 b)); try done.
    + by destruct Hc; split.
    + eapply same_links_comp; [|done]. apply (updbuf_links i f (note_write _ _ s)). by split.
    + by rw HD' length_insert.
    + rw HD'. apply Forall_insert; [apply (ci_disk _ _ Hc)|apply (bo_data _ _ Hbo)].
    + rw HD'. destruct Hbo. split; cbn; try done; [by right; left| |by rw Hl].
      intros _. split; [done|]. rw Hb. exists (b_data b). apply list_lookup_insert_eq.
      rw Hb in HD. by eapply lookup_lt_Some.
    + intros j c Hji Hj. rw HD'. pose proof (HB j c Hj) as []. split; try done.
      * intros Hfc. destruct (bo_block0 Hfc) as [? [d' Hd']]. split; [done|].
        rw list_lookup_insert. case_decide; eauto.
      * intros Hfc Hlc. rw list_lookup_insert_ne; [|by apply bo_clean0].
        destruct (bo_block0 ltac:(lia)) as [Hcd _]. intros E'. apply Hji.
        apply (ci_uniq _ _ Hc j i c b); try done. pose proof (bo_no _ _ Hbo). lia.
    + cbn. intros j c Hji Hj Hcd _ E'. apply Hji. apply (ci_uniq _ _ Hc j i c b); done || congruence.
Qed.
End bread.

(** The order of the list after [brelse] of [i]. *)
Definition mru (i : nat) (l : list nat) : list nat := i :: filter (λ j, j ≠ i) l.

Lemma mru_split i l1 l2 : NoDup (l1 ++ i :: l2) → mru i (l1 ++ i :: l2) = i :: l1 ++ l2.
Proof.
  intros (Hn1 & Hd & [Hi Hn2]%NoDup_cons)%NoDup_app. unfold mru. f_equal.
  rw filter_app filter_cons_False; [naive_solver|].
  rewrite -> !list_filter_all; [done|set_solver..].
Qed.

(** The buffer given back. *)
Definition given_back (b : buf) : buf := set_b_lock (MkSl false 0) (set_b_refcnt (b_refcnt b - 1) b).

Section brelse.
Context (p : nat) (pr : proc).
Abbreviation pid := (p_pid pr).

Lemma brelse_run h s l blk i b :
  ready p pr h → cache_inv s l → owned s pid blk i b →
  (b_flags b = 2 → bc_disk s !! Z.to_nat blk = Some (b_data b)) →
  ∃ h' s', brelse i (h, s) = Ok tt (h', s') ∧ ready p pr h' ∧
    cache_inv s' (if b_refcnt b =? 1 then mru i l else l) ∧
    core s' = <[i := given_back b]> (core s) ∧
    bc_disk s' = bc_disk s ∧ bc_disksize s' = bc_disksize s ∧ bc_hist s' = bc_hist s.
Proof.
  intros Hr Hc Ho Hclean. pose proof Ho as [Hi Hd Hb Hf Hl]. unfold brelse.
  rw (bind_ok _ _ _ _ _ (holding_owned p pr h s blk i b Hr Ho)). cbn [negb].
  pose proof (ci_bufs _ _ Hc) as HB. rewrite -> Forall_lookup in HB. pose proof (HB i b Hi) as Hbo.
  assert (0 < b_refcnt b < 2 ^ 32 - 1) as Href.
  { pose proof (bo_lock _ _ Hbo). pose proof (bo_ref _ _ Hbo). rw Hl in H. cbn in H. intuition lia. }
  erewrite bind_ok; [|eapply releasesleep_owner; [by apply ready_settle|]].
  2:{ cbn. destruct (core_some _ _ _ Hi) as (b0 & -> & E0). cbn. subst b. cbn in Hl. by rw Hl. }
  rw settle_settle. set (h1 := wake_all _ _).
  assert (ready p pr h1) as Hr1 by (by apply ready_wake, ready_settle).
  destruct (bcache_ready p pr h1 Hr1) as [Ha Hrel]. rw (bind_ok _ _ _ _ _ (Ha _)).
  set (f := (λ b, set_b_refcnt (u32 (b_refcnt b - 1)) b) ∘ set_b_lock (MkSl false 0)).
  assert (linkless f) as Lf by (by split).
  rw (bind_ok _ _ _ tt (acq bcache_lock h1, updbuf i f s)).
  { unfold modbuf, modc, updbuf, f. cbn. unset_goal. by rw list_alter_alter. }
  assert (core (updbuf i f s) = <[i := given_back b]> (core s)) as Hcore.
  { rw updbuf_core //. rewrite -> (alter_insert_core _ _ _ _ Hi). unfold f, given_back. cbn.
    by rewrite -> wrapu_small by lia. }
  assert (cache_inv (updbuf i f s) l) as Hc1.
  { destruct Hbo. eapply (cache_inv_upd s l _ i b (given_back b)); try done.
    - by apply updbuf_links.
    - apply (ci_disk _ _ Hc).
    - split; try done; cbn; [lia|]. intros E _. rw Hb. by apply Hclean.
    - intros j c _ Hj. by eapply HB.
    - cbn. intros j c Hji Hj Hcd _ E'. apply Hji. apply (ci_uniq _ _ Hc j i c b); done || congruence. }
  assert (∃ b1, bc_bufs (updbuf i f s) !! i = Some b1 ∧ b_refcnt b1 = b_refcnt b - 1) as (b1 & Hb1 & E1).
  { destruct (core_some (updbuf i f s) i (given_back b)) as (b1 & Hb1 & E1).
    - rw Hcore. apply list_lookup_insert_eq. by eapply lookup_lt_Some.
    - exists b1. split; [done|]. by injection E1. }
  rw (bind_ok _ _ _ _ _ (buf_at_run _ i b1 _ Hb1)) E1.
  replace (b_refcnt b - 1 =? 0) with (b_refcnt b =? 1) by (repeat case_bool; done || lia).
  destruct (b_refcnt b =? 1); cbn [when].
  2:{ rw bind_run. cbn -[release]. rw Hrel. exists (settle h1), (updbuf i f s).
      split_and!; try done. by apply ready_settle. }
  assert (i ∈ l) as (l1 & l2 & ->)%list_elem_of_split.
  { rw (ci_perm _ _ Hc). apply elem_of_seq. apply lookup_lt_Some in Hi. rw length_fmap in Hi.
    rw (ci_len _ _ Hc) in Hi. lia. }
  destruct Hc1 as [C1 C2 C3 C4 C5 C6 C7].
  destruct (brelse_unlink_run i _ l1 l2 (acq bcache_lock h1) C3 C1 C2) as (s' & E & Hs & Hring).
  rw (bind_ok _ _ _ _ _ E) Hrel. exists (settle h1), s'. destruct Hs as [Hs1 Hs2 Hs3 Hs4 _].
  split_and!; try done; [by apply ready_settle| |congruence].
  rw mru_split; [by apply ring_nodup in C3 as [_ ?]%NoDup_cons|].
  split; rw ?Hs1 ?Hs2 ?Hs3 //.
  - pose proof (f_equal length Hs1) as El. by rw !length_fmap C1 in El.
  - rw -C3. solve_Permutation.
Qed.
End brelse.

(** ** [binit] *)

Lemma updbuf_nextp i l j v s :
  updbuf i (set_b_lock l) (nextp j v s) = nextp j v (updbuf i (set_b_lock l) s).
Proof.
  unfold updbuf, nextp. case_decide; [done|]. unset_goal. f_equal.
  destruct (decide (i = j)) as [->|Hne]; [by rw !list_alter_alter|]. by apply alter_commute.
Qed.
Lemma updbuf_prevp i l j v s :
  updbuf i (set_b_lock l) (prevp j v s) = prevp j v (updbuf i (set_b_lock l) s).
Proof.
  unfold updbuf, prevp. case_decide; [done|]. unset_goal. f_equal.
  destruct (decide (i = j)) as [->|Hne]; [by rw !list_alter_alter|]. by apply alter_commute.
Qed.

Lemma initlock_free {C} lk h (x : C) : h_locks h = ∅ → initlock lk (h, x) = Ok tt (h, x).
Proof.
  intros Hl. unfold initlock, modh. cbn. rw Hl delete_empty -Hl. by destruct h.
Qed.

Lemma binit_body_run h s i :
  h_locks h = ∅ → i ≠ head →
  binit_body i (h, s) = Ok tt (h, pushp i (updbuf i (set_b_lock (MkSl false 0)) s)).
Proof.
  intros Hl Hi. unfold binit_body. rw (bind_ok _ _ _ (bc_next s) (h, s)) //.
  rw (bind_ok _ _ _ _ _ (set_next_run _ _ _ _)) (bind_ok _ _ _ _ _ (set_prev_run _ _ _ _)).
  set (s1 := prevp i head _).
  rw (bind_ok _ _ _ tt (h, updbuf i (set_b_lock (MkSl false 0)) s1)).
  { unfold initsleeplock. by rewrite -> (bind_ok _ _ _ _ _ (initlock_free _ h s1 Hl)). }
  assert (bc_next (updbuf i (set_b_lock (MkSl false 0)) s1) = bc_next s) as E.
  { unfold s1, updbuf, prevp, nextp. rewrite -> !decide_False by done. done. }
  rw (bind_ok _ _ _ (bc_next s) (h, updbuf i (set_b_lock (MkSl false 0)) s1)).
  { unfold gets. cbn -[updbuf]. by rw E. }
  rw (bind_ok _ _ _ _ _ (set_prev_run _ _ _ _)). unfold modc. cbn [fst snd]. do 2 f_equal.
  unfold s1. rw updbuf_prevp updbuf_nextp. unfold pushp. unfold nextp at 2.
  by rewrite -> decide_True by done.
Qed.

Definition zero_buf : buf :=
  MkBuf 0 0 0 (MkSl false 0) 0 0 0 None (replicate (Z.to_nat BSIZE) 0).

Lemma zero_buf_ok D : buf_ok D zero_buf.
Proof.
  split; try done; [by left|]. split; [apply length_replicate|]. by apply Forall_replicate.
Qed.

Lemma binit_run h s :
  h_locks h = ∅ → bc_bufs s = replicate NBUF zero_buf →
  ∃ s', binit (h, s) = Ok tt (h, s') ∧ core s' = core s ∧
    ring (next_of s') (prev_of s') head (rev (seq 0 NBUF)) ∧
    bc_disk s' = bc_disk s ∧ bc_disksize s' = bc_disksize s.
Proof.
  intros Hl Hz. unfold binit. rw (bind_ok _ _ _ _ _ (initlock_free _ h s Hl)) !bind_run.
  cbn -[mfor NBUF head seq].
  set (s0 := set_bc_next head (set_bc_prev head s)).
  assert (core s0 = replicate NBUF zero_buf) as Hc0 by (unfold core; cbn; by rw Hz fmap_replicate).
  destruct (mfor_rule (λ l0 st, st.1 = h ∧ core st.2 = core s ∧
      ring (next_of st.2) (prev_of st.2) head (rev l0) ∧ bc_disk st.2 = bc_disk s ∧
      bc_disksize st.2 = bc_disksize s) binit_body (seq 0 NBUF) [] (h, s0))
    as ([h' s'] & E & Hh' & H').
  - split_and!; try done. intros a b [= -> ->]%list_elem_of_singleton.
    unfold next_of, prev_of. by rewrite -> !decide_True by done.
  - intros l1 i l2 [h1 s1] Hsplit. cbn [fst snd]. intros (-> & Hc & Hr & Hd & Hs).
    assert (NoDup (l1 ++ i :: l2)) as (_ & Hn & _)%NoDup_app by (rw -Hsplit; apply NoDup_seq).
    assert (∀ x, x ∈ l1 ++ i :: l2 → (x < NBUF)%nat) as Hlt.
    { intros x. rw -Hsplit. cbn [app]. intros Hx%elem_of_seq. lia. }
    assert (length (bc_bufs s1) = NBUF) as HL.
    { pose proof (f_equal length Hc) as El. rw !length_fmap Hz length_replicate in El. done. }
    assert (i < NBUF)%nat as Hi by (apply Hlt; set_solver).
    assert (i ≠ head) by (unfold head; lia).
    set (s2 := updbuf i (set_b_lock (MkSl false 0)) s1).
    assert (same_links s1 s2) as [S1 S2 S3 _] by (by apply updbuf_links).
    eexists. split; [by apply binit_body_run|]. cbn [fst snd]. fold s2.
    destruct (pushp_same i s2) as [P1 P2 P3 _ _]. split_and!; try done; try congruence.
    + rw P1. unfold s2. rw updbuf_core; [by split|]. rw Hc. unfold core. rw Hz fmap_replicate.
      apply list_eq. intros j. rw list_lookup_alter. case_decide; [subst|done].
      destruct (_ !! j) as [b|] eqn:Eb; [|done]. by apply lookup_replicate in Eb as [-> _].
    + rw rev_unit. apply pushp_ring.
      * apply NoDup_cons. split; [|apply NoDup_cons; split].
        -- intros [?|Hh]%elem_of_cons; [done|]. apply list_elem_of_In, in_rev, list_elem_of_In in Hh.
           assert (head < NBUF)%nat by (apply Hlt; set_solver). unfold head in *. lia.
        -- intros Hh. apply list_elem_of_In, in_rev, list_elem_of_In in Hh. apply (Hn i Hh). set_solver.
        -- apply NoDup_ListNoDup, NoDup_rev, NoDup_ListNoDup. assert (NoDup (l1 ++ i :: l2)) as [? _]%NoDup_app; [|done].
           rw -Hsplit. apply NoDup_seq.
      * right. rw S3 HL. done.
      * assert (bc_next s2 ∈ head :: rev l1) as Hin.
        { rw next_head. rewrite -> (S1 head), (ring_first _ _ _ _ Hr). apply hd_elem. }
        apply elem_of_cons in Hin as [->|Hin]; [by left|right]. rw S3 HL. apply Hlt.
        apply list_elem_of_In, in_rev, list_elem_of_In in Hin. set_solver.
      * by rewrite -> S1, S2.
    + rw P2. exact Hd.
    + rw P3. exact Hs.
  - exists s'. cbn in Hh', H'. subst h'. split; [done|]. tauto.
Qed.

Lemma binit_inv h s :
  h_locks h = ∅ → bc_bufs s = replicate NBUF zero_buf → disk_ok (bc_disk s) →
  bc_disksize s = Z.of_nat (length (bc_disk s)) →
  ∃ s', binit (h, s) = Ok tt (h, s') ∧ cache_inv s' (rev (seq 0 NBUF)) ∧
    core s' = replicate NBUF zero_buf ∧ bc_disk s' = bc_disk s.
Proof.
  intros Hl Hz HD HS. destruct (binit_run h s Hl Hz) as (s' & E & Hc & Hr & Hd & Hs).
  assert (core s = replicate NBUF zero_buf) as Hcs by (unfold core; by rw Hz fmap_replicate).
  rw Hcs in Hc. exists s'. split; [exact E|]. split; [|exact (conj Hc Hd)].
  split; [|exact Hr| | | |by rw Hd|by rw Hs Hd]; rw ?Hd ?Hc.
  - pose proof (f_equal length Hc) as El. by rw length_fmap length_replicate in El.
  - apply Permutation_sym, Permutation_rev.
  - apply Forall_replicate, zero_buf_ok.
  - intros i j b c [-> _]%lookup_replicate. done.
Qed.

(** A buffer that [bread] returned clean has the disk's data. *)
Lemma bread_post_clean pid blk s s' l i b b' d :
  cache_inv s l → bread_post pid blk s s' l i b b' → 0 ≤ blk →
  bc_disk s !! Z.to_nat blk = Some d → b_flags b' = 2 →
  bc_disk s' !! Z.to_nat blk = Some (b_data b').
Proof.
  intros Hc Hp Hblk Hd Hf. destruct Hp. destruct rp_own0. destruct rp_disk0 as [-> _].
  rw rp_data0. destruct (content_cases (core s) (bc_disk s) blk (ci_uniq _ _ Hc))
    as [(j & c & Hj & (Hcd & Hcb & Hcf) & ->)|[_ ->]]; [|by rw Hd].
  assert (j = i) as ->.
  { destruct (decide (j = i)); [done|]. apply (ci_uniq _ _ rp_inv0 j i c b'); try done; [|congruence].
    by rw rp_core0 list_lookup_insert_ne. }
  assert (c = b) as -> by congruence. pose proof (ci_bufs _ _ Hc) as HB. rewrite -> Forall_lookup in HB.
  pose proof (HB i b rp_old0) as Hbo. destruct (bo_flags _ _ Hbo) as [?|[E|E]]; [done| |].
  - rw -Hcb. by apply (bo_clean _ _ Hbo).
  - destruct (rp_same0 E). lia.
Qed.

(** A buffer of the cache, in a state where nothing else changed. *)
Lemma given_back_content s l pid blk i b s' l' :
  cache_inv s l → owned s pid blk i b → cache_inv s' l' →
  core s' = <[i := given_back b]> (core s) → bc_disk s' = bc_disk s →
  ∀ n, content (core s') (bc_disk s') n = content (core s) (bc_disk s) n.
Proof.
  intros Hc [Hi Hd Hb Hf Hl] Hc' Hcore HD n. rw Hcore HD.
  apply (content_same _ _ _ b); try done; [apply (ci_uniq _ _ Hc)|].
  rw -Hcore. apply (ci_uniq _ _ Hc').
Qed.

(** ** Properties *)

Section properties.
Context (iderw : nat → K bst unit) `{HBD : !BlockDev iderw} (p : nat) (pr : proc).

(** The cache is transparent to reading.  [bread] of a block in range whose
    buffer can be had returns a buffer locked by the process with the contents
    of the block, whether it was cached, had to be read, or another buffer was
    recycled for it, and [brelse] gives it back; the contents of no block
    and nothing on the disk change, and the invariant of the cache holds again:
    every block is in at most one buffer, the buffers form one doubly linked
    ring, and an unlocked clean buffer agrees with the disk. *)
Theorem bread_brelse_transparent (h : hw) (s : bst) (l : list nat) (blk : Z) (d : list Z) :
  ready p pr h → cache_inv s l → 0 ≤ blk → bc_disk s !! Z.to_nat blk = Some d →
  obtainable s l blk →
  ∃ i b h1 s1 h2 s2 l2,
    bread iderw 1 blk (h, s) = Ok i (h1, s1) ∧ owned s1 (p_pid pr) blk i b ∧
    b_data b = content (core s) (bc_disk s) blk ∧ ready p pr h1 ∧ cache_inv s1 l ∧
    brelse i (h1, s1) = Ok tt (h2, s2) ∧ ready p pr h2 ∧ cache_inv s2 l2 ∧
    bc_disk s2 = bc_disk s ∧
    ∀ n, content (core s1) (bc_disk s1) n = content (core s) (bc_disk s) n ∧
         content (core s2) (bc_disk s2) n = content (core s) (bc_disk s) n.
Proof using HBD.
  intros Hr Hc Hblk Hd Hob.
  destruct (bread_run iderw p pr h s l blk d) as (i & b & b' & h1 & s1 & E & Hr1 & Hp); [done..|].
  destruct (brelse_run p pr h1 s1 l blk i b') as (h2 & s2 & E2 & Hr2 & Hc2 & Hcore2 & HD2 & _);
    [done|apply Hp..| |].
  { intros Hf. by eapply bread_post_clean. }
  exists i, b', h1, s1, h2, s2. eexists.
  split_and!; [done|apply Hp|apply Hp|done|apply Hp|done|done|exact Hc2| |].
  - rw HD2. apply (rp_disk _ _ _ _ _ _ _ _ Hp).
  - intros n. split; [apply Hp|].
    rewrite -> (given_back_content s1 l (p_pid pr) blk i b' s2 _
      (rp_inv _ _ _ _ _ _ _ _ Hp) (rp_own _ _ _ _ _ _ _ _ Hp) Hc2 Hcore2 HD2). apply Hp.
Qed.

(** The cache is write-through and does not disturb other blocks: storing
    [d] into the buffer of a block that the process owns, then [bwrite] and
    [brelse], puts exactly [d] on the disk at that block, makes it the contents
    of the block and leaves the contents of every other block alone. *)
Theorem bwrite_brelse_durable (h : hw) (s : bst) (l : list nat) (blk : Z) (i : nat) (b : buf) (d : list Z) :
  ready p pr h → cache_inv s l → owned s (p_pid pr) blk i b →
  length d = Z.to_nat BSIZE → bytes d →
  ∃ h1 s1 h2 s2 l2,
    bwrite iderw i (h, updbuf i (set_b_data d) s) = Ok tt (h1, s1) ∧
    brelse i (h1, s1) = Ok tt (h2, s2) ∧ ready p pr h2 ∧ cache_inv s2 l2 ∧
    bc_disk s2 = <[Z.to_nat blk := d]> (bc_disk s) ∧
    ∀ n, 0 ≤ n → content (core s2) (bc_disk s2) n =
      if decide (n = blk) then d else content (core s) (bc_disk s) n.
Proof using HBD.
  intros Hr Hc Ho Hlen Hby.
  destruct (write_data pr s l blk i b d) as (Hc1 & Ho1 & Hcore1); [done..|].
  destruct (bwrite_run iderw p pr h _ l blk i _ Hr Hc1 Ho1)
    as (h1 & s1 & E1 & Hr1 & Hc2 & Ho2 & Hcore2 & HD2 & HS2 & _). cbn in HD2.
  assert (∃ d0, bc_disk s !! Z.to_nat blk = Some d0) as [d0 Hd0].
  { pose proof (ci_bufs _ _ Hc) as HB. rewrite -> Forall_lookup in HB. destruct Ho as [Hi _ <- Hf _].
    by apply (bo_block _ _ (HB i b Hi)); destruct Hf; lia. }
  assert (bc_disk s1 !! Z.to_nat blk = Some d) as Hd1.
  { rw HD2. apply list_lookup_insert_eq. by eapply lookup_lt_Some. }
  destruct (brelse_run p pr h1 s1 l blk i _ Hr1 Hc2 Ho2) as (h2 & s2 & E2 & Hr2 & Hc3 & Hcore3 & HD3 & _).
  { by intros _. }
  exists h1, s1, h2, s2. eexists. split_and!; [done|done|done|exact Hc3|by rw HD3|].
  intros n Hn. rewrite -> (given_back_content s1 l (p_pid pr) blk i _ s2 _ Hc2 Ho2 Hc3 Hcore3 HD3).
  pose proof Ho as [Hi Hd Hb Hf Hl].
  assert (core s1 = <[i := set_b_flags 2 (set_b_data d b)]> (core s)) as Hcore
    by (rw Hcore2 Hcore1 list_insert_insert_eq //).
  pose proof (ci_uniq _ _ Hc2) as Hu. rw Hcore in Hu. rw Hcore.
  rewrite -> (content_insert _ _ i b) by (apply (ci_uniq _ _ Hc) || done).
  destruct (decide (n = blk)) as [->|Hne]; [by rewrite -> decide_True by (by split_and!)|].
  rewrite -> !decide_False by (intros (_ & E' & _); cbn in E'; congruence).
  apply content_disk; [|apply (ci_uniq _ _ Hc)|done].
  intros k. rw HD2 list_lookup_insert. case_decide as Hk; [|by left]. right.
  exists i, b. split_and!; [done..|destruct Hf; lia|by destruct Hk as [<- _]; rw Hb|].
  pose proof (ci_bufs _ _ Hc) as HB. rewrite -> Forall_lookup in HB. apply (bo_no _ _ (HB i b Hi)).
Qed.
End properties.

(** C36: Replacement is least recently used.  [l] is the order of the list of
    buffers, from the last one given up to the first; [core s] are the buffers
    without their links.  Every clause gives the whole cache afterwards, under the invariant again
    and with the disk as it was, so that the clauses apply to any sequence
    of these operations.

    A block that is cached is found: [bget] takes a reference to its buffer,
    and locks it or, when it is locked, sleeps on it; the order stays.  A block that
    is not cached goes into the first free buffer from the back of the list,
    which is made that block's, invalid and locked, with one reference; the order stays, and
    [bget] panics when every buffer is referenced or holds uncommitted data.
    [brelse] of the last reference moves its buffer to the front and keeps
    the order of the others, and of an earlier reference keeps the whole
    order. *)
Theorem bget_brelse_lru (p : nat) (pr : proc) (h : hw) (s : bst) (l : list nat) (blk : Z) :
  ready p pr h → cache_inv s l → 0 ≤ blk →
  (∀ i b, core s !! i = Some b → b_dev b = 1 → b_blockno b = blk → b_refcnt b + 1 < 2 ^ 32 - 1 →
    if sl_locked (b_lock b)
    then ∃ s', bget 1 blk (h, s) =
           Stop Switch (acq ptable_lock (upd_proc p (asleep (Some (buf_addr i))) (settle h)), s') ∧
         cache_inv s' l ∧ core s' = <[i := set_b_refcnt (b_refcnt b + 1) b]> (core s) ∧ bc_disk s' = bc_disk s
    else ∃ s', bget 1 blk (h, s) = Ok i (settle h, s') ∧ cache_inv s' l ∧
         core s' = <[i := set_b_lock (MkSl true (p_pid pr)) (set_b_refcnt (b_refcnt b + 1) b)]> (core s) ∧
         bc_disk s' = bc_disk s) ∧
  ((∀ j c, core s !! j = Some c → ¬ (b_dev c = 1 ∧ b_blockno c = blk)) →
    match List.find (unused s) (rev l) with
    | Some i => ∃ b s', core s !! i = Some b ∧ bget 1 blk (h, s) = Ok i (settle h, s') ∧ cache_inv s' l ∧
        core s' = <[i := set_b_lock (MkSl true (p_pid pr)) (set_b_refcnt 1 (set_b_flags 0
                    (set_b_blockno blk (set_b_dev 1 b))))]> (core s) ∧
        bc_disk s' = bc_disk s
    | None => bget 1 blk (h, s) = Stop (Panic "bget: no buffers") (acq bcache_lock h, s)
    end) ∧
  (∀ i b, owned s (p_pid pr) blk i b →
    (b_flags b = 2 → bc_disk s !! Z.to_nat blk = Some (b_data b)) →
    ∃ h' s', brelse i (h, s) = Ok tt (h', s') ∧ ready p pr h' ∧
      ring (next_of s') (prev_of s') head (if b_refcnt b =? 1 then mru i l else l) ∧
      cache_inv s' (if b_refcnt b =? 1 then mru i l else l) ∧
      core s' = <[i := given_back b]> (core s) ∧ bc_disk s' = bc_disk s).
Proof.
  intros Hr Hc Hblk. split_and!.
  - intros i b Hi Hd Hb Hrf. destruct (sl_locked (b_lock b)) eqn:Hl.
    + destruct (bget_wait p pr h s l blk i b Hr Hc Hi Hd Hb Hl) as (s' & E & Hsl & Hcore & HD & HS).
      exists s'. split_and!; [done| |done..]. by eapply cache_inv_ref.
    + destruct (bget_hit p pr h s l blk i b Hr Hc Hi Hd Hb Hl) as (s' & E & Hsl & Hcore & HD & HS).
      exists s'. split_and!; [done| |done..]. by eapply cache_inv_ref.
  - intros Hno. destruct (List.find (unused s) (rev l)) as [i|] eqn:E; [|by eapply bget_full].
    destruct (bget_recycle p pr h s l blk i Hr Hc Hno E) as (b & s' & Hi & _ & _ & E' & Hsl & Hcore & HD & HS).
    exists b, s'. split_and!; [done..| |done|done]. by eapply cache_inv_recycle.
  - intros i b Ho Hcl.
    destruct (brelse_run p pr h s l blk i b Hr Hc Ho Hcl) as (h' & s' & E & Hr' & Hc' & Hcore & HD & _).
    exists h', s'. split_and!; [done|done|apply (ci_ring _ _ Hc')|done..].
Qed.

(** [binit] turns the zeroed buffers of the kernel's data segment into a
    cache that satisfies the invariant: all buffers in one ring, none of them
    holding a block. *)
Theorem binit_establishes_cache (h : hw) (s : bst) :
  h_locks h = ∅ → bc_bufs s = replicate NBUF zero_buf → disk_ok (bc_disk s) →
  bc_disksize s = Z.of_nat (length (bc_disk s)) →
  ∃ s', binit (h, s) = Ok tt (h, s') ∧ cache_inv s' (rev (seq 0 NBUF)) ∧
    ∀ blk, content (core s') (bc_disk s') blk = default [] (bc_disk s !! Z.to_nat blk).
Proof.
  intros Hl Hz HD HS. destruct (binit_inv h s Hl Hz HD HS) as (s' & E & Hc & Hcore & Hd).
  exists s'. split; [exact E|]. split; [exact Hc|]. intros blk. rw Hd. apply content_uncached.
  rw Hcore. intros i b [-> _]%lookup_replicate (? & _). done.
Qed.

(** ** The properties on a concrete cache *)

Definition zero_block : list Z := replicate (Z.to_nat BSIZE) 0.
Definition ex_bst : bst :=
  MkBst (replicate NBUF zero_buf) 0 0 (replicate 4 zero_block) 4 None false [].

Lemma zero_block_ok : length zero_block = Z.to_nat BSIZE ∧ bytes zero_block.
Proof. split; [apply length_replicate|by apply Forall_replicate]. Qed.

Lemma ex_disk_ok : disk_ok (bc_disk ex_bst).
Proof. apply Forall_replicate, zero_block_ok. Qed.

Lemma ex_cache : ∃ s, binit (ex_machine, ex_bst) = Ok tt (ex_machine, s) ∧
  cache_inv s (rev (seq 0 NBUF)) ∧ core s = replicate NBUF zero_buf ∧ bc_disk s = replicate 4 zero_block.
Proof. exact (binit_inv ex_machine ex_bst eq_refl eq_refl ex_disk_ok eq_refl). Qed.

Lemma ex_obtainable s blk : core s = replicate NBUF zero_buf → obtainable s (rev (seq 0 NBUF)) blk.
Proof.
  intros Hc. apply (ob_free _ _ _ 0).
  - rw Hc. intros j c [-> _]%lookup_replicate [? _]. done.
  - rw rev_involutive. cbn [seq NBUF List.find]. unfold NBUF. cbn [Z.to_nat].
    change (seq 0 (Z.to_nat (MAXOPBLOCKS * 3))) with (0%nat :: seq 1 29). cbn [List.find].
    by rw unused_core Hc.
Qed.

Lemma binit_establishes_cache_witness :
  ∃ s', binit (ex_machine, ex_bst) = Ok tt (ex_machine, s') ∧ cache_inv s' (rev (seq 0 NBUF)) ∧
    ∀ blk, content (core s') (bc_disk s') blk = default [] (replicate 4 zero_block !! Z.to_nat blk).
Proof. exact (binit_establishes_cache ex_machine ex_bst eq_refl eq_refl ex_disk_ok eq_refl). Defined.

Lemma bread_brelse_transparent_witness :
  ∃ s i h1 s1 b, bread memide_iderw 1 2 (ex_machine, s) = Ok i (h1, s1) ∧
    owned s1 7 2 i b ∧ b_data b = zero_block.
Proof.
  destruct ex_cache as (s & _ & Hc & Hcore & HD).
  destruct (bread_brelse_transparent memide_iderw 0 (set_p_state RUNNING (set_p_pid 7 zero_proc))
    ex_machine s _ 2 zero_block ex_machine_running Hc ltac:(lia) ltac:(by rw HD) (ex_obtainable s 2 Hcore))
    as (i & b & h1 & s1 & h2 & s2 & l2 & E & Ho & Hdata & _).
  exists s, i, h1, s1, b. split; [exact E|]. split; [exact Ho|]. rw Hdata content_uncached.
  - rw Hcore. intros j c [-> _]%lookup_replicate (? & _). done.
  - by rw HD.
Defined.

(** A buffer of block 2 owned by the running process. *)
Lemma ex_owned : ∃ h s i b, ready 0 (set_p_state RUNNING (set_p_pid 7 zero_proc)) h ∧
  cache_inv s (rev (seq 0 NBUF)) ∧ owned s 7 2 i b ∧ bc_disk s = replicate 4 zero_block.
Proof.
  destruct ex_cache as (s & _ & Hc & Hcore & HD).
  destruct (bread_run memide_iderw 0 (set_p_state RUNNING (set_p_pid 7 zero_proc)) ex_machine s _ 2
    zero_block ex_machine_running Hc ltac:(lia) ltac:(by rw HD) (ex_obtainable s 2 Hcore))
    as (i & b & b' & h1 & s1 & E & Hr1 & Hp).
  exists h1, s1, i, b'. split; [exact Hr1|]. split; [exact (rp_inv _ _ _ _ _ _ _ _ Hp)|].
  split; [exact (rp_own _ _ _ _ _ _ _ _ Hp)|]. rw -HD. exact (proj1 (rp_disk _ _ _ _ _ _ _ _ Hp)).
Qed.

Lemma bwrite_brelse_durable_witness :
  ∃ h s i h1 s1 s2 h2, bwrite memide_iderw i (h, s) = Ok tt (h1, s1) ∧
    brelse i (h1, s1) = Ok tt (h2, s2) ∧
    bc_disk s2 = <[2%nat := replicate (Z.to_nat BSIZE) 255]> (replicate 4 zero_block).
Proof.
  destruct ex_owned as (h & s & i & b & Hr & Hc & Ho & HD).
  assert (bytes (replicate (Z.to_nat BSIZE) 255)) as Hb by (apply Forall_replicate; unfold is_byte; lia).
  destruct (bwrite_brelse_durable memide_iderw 0 _ h s _ 2 i b (replicate (Z.to_nat BSIZE) 255) Hr Hc Ho
    ltac:(apply length_replicate) Hb) as (h1 & s1 & h2 & s2 & l2 & E1 & E2 & _ & _ & HD2 & _).
  exists h, (updbuf i (set_b_data (replicate (Z.to_nat BSIZE) 255)) s), i, h1, s1, s2, h2.
  rw HD in HD2. split; [exact E1|]. split; [exact E2|exact HD2].
Defined.

Lemma bget_brelse_lru_witness :
  ∃ s s', bget 1 3 (ex_machine, s) = Ok 0%nat (settle ex_machine, s') ∧ cache_inv s' (rev (seq 0 NBUF)) ∧
    core s' = <[0%nat := set_b_lock (MkSl true 7) (set_b_refcnt 1 (set_b_blockno 3 (set_b_dev 1 zero_buf)))]>
      (replicate NBUF zero_buf).
Proof.
  destruct ex_cache as (s & _ & Hc & Hcore & HD). exists s.
  destruct (bget_brelse_lru 0 _ ex_machine s _ 3 ex_machine_running Hc ltac:(lia)) as (_ & H & _).
  assert (List.find (unused s) (rev (rev (seq 0 NBUF))) = Some 0%nat) as E.
  { rw rev_involutive. change (seq 0 NBUF) with (0%nat :: seq 1 29). cbn [List.find].
    by rw unused_core Hcore. }
  rw E in H. destruct H as (b & s' & Hb & E' & Hc' & Hcore' & _).
  { rw Hcore. intros j c [-> _]%lookup_replicate [? _]. done. }
  rw Hcore in Hb. apply lookup_replicate in Hb as [-> _]. rw Hcore in Hcore'.
  exists s'. split; [exact E'|]. split; [exact Hc'|exact Hcore'].
Defined.
