(* ===== verification/Cache.v ===== *)
(** * The buffer cache as its clients use it

    The view of a process on the cache of bio.c: the blocks on the disk, the
    blocks pinned in the cache with uncommitted contents, and the buffers the
    process holds.  Each operation of bio.c is one change of this view; the log
    and the file system are verified against it. *)

From S2P Require Import Prelude Machine Spinlock Mem Kalloc Sched Sleeplock Ring Bytes Bio.

(** ** The view *)

(** A buffer held by the process: its block, its data and whether it is
    marked dirty. *)
Record held : Type := MkHeld { hd_blk : Z; hd_data : list Z; hd_dirty : bool }.

(** [D]: the disk; [P]: the pinned blocks that nobody holds; [H]: the held
    buffers by number; all other buffers are idle and agree with the disk. *)
Record cview (pid : Z) (s : bst) (D : list (list Z)) (P : gmap Z (list Z)) (H : gmap nat held) : Prop := {
  cv_inv : ∃ l, cache_inv s l;
  cv_disk : bc_disk s = D;
  cv_held : ∀ i x, H !! i = Some x → ∃ b, owned s pid (hd_blk x) i b ∧ b_data b = hd_data x ∧
    b_refcnt b = 1 ∧ b_flags b = (if hd_dirty x then 6 else 2);
  cv_idle : ∀ i b, core s !! i = Some b → H !! i = None →
    sl_locked (b_lock b) = false ∧ b_refcnt b = 0;
  cv_pinned : ∀ n d, P !! n = Some d ↔ ∃ i b, core s !! i = Some b ∧ H !! i = None ∧
    b_flags b = 6 ∧ b_blockno b = n ∧ b_data b = d
}.

(** The contents of a block that is not held. *)
Definition logical (D : list (list Z)) (P : gmap Z (list Z)) (n : Z) : list Z :=
  default (default [] (D !! Z.to_nat n)) (P !! n).

(** ** Lemmas *)

Section view.
Context (pid : Z).
Implicit Types (s : bst) (D : list (list Z)) (P : gmap Z (list Z)) (H : gmap nat held).

Lemma cview_dirty s D P H i b :
  cview pid s D P H → core s !! i = Some b → H !! i = None → b_flags b = 6 →
  P !! b_blockno b = Some (b_data b).
Proof. intros Hv Hi Hn Hf. apply (cv_pinned _ _ _ _ _ Hv). by exists i, b. Qed.

(** The buffer with uncommitted contents of block [n]. *)
Definition pin_index (B : list buf) (n : Z) : nat :=
  default 0%nat (fst <$> list_find (λ b, b_flags b = 6 ∧ b_blockno b = n) B).

Lemma pin_index_eq s l i b :
  cache_inv s l → core s !! i = Some b → b_flags b = 6 → pin_index (core s) (b_blockno b) = i.
Proof.
  intros Hc Hi Hf. unfold pin_index. pose proof (ci_bufs _ _ Hc) as HB. rewrite -> Forall_lookup in HB.
  destruct (list_find _ _) as [[j c]|] eqn:E; cbn.
  - apply list_find_Some in E as (Hj & [Hcf Hcn] & _).
    apply (ci_uniq _ _ Hc j i c b); try done.
    + apply (bo_block _ _ (HB j c Hj)). lia.
    + apply (bo_block _ _ (HB i b Hi)). lia.
  - apply list_find_None in E. rewrite -> Forall_lookup in E. by destruct (E i b Hi).
Qed.

(** With fewer pinned and held buffers than there are buffers, one is free. *)
Lemma cview_room s D P H :
  cview pid s D P H → (size P + size H < NBUF)%nat →
  ∃ i b, core s !! i = Some b ∧ H !! i = None ∧ b_refcnt b = 0 ∧ b_flags b ≠ 6.
Proof.
  intros Hv Hsz. destruct (cv_inv _ _ _ _ _ Hv) as [l Hc].
  set (L := (map_to_list H).*1 ++ (pin_index (core s) <$> (map_to_list P).*1)).
  assert (∃ i, i ∈ seq 0 NBUF ∧ i ∉ L) as (i & Hi%elem_of_seq & HL).
  { destruct (decide (Forall (.∈ L) (seq 0 NBUF))) as [Hall|Hn].
    - assert (NBUF ≤ length L)%nat as Hle.
      { rw -{1}(length_seq NBUF 0). apply submseteq_length, NoDup_submseteq; [apply NoDup_seq|].
        by apply Forall_forall. }
      unfold L in Hle. rw length_app !length_fmap !length_map_to_list in Hle. lia.
    - apply not_Forall_Exists, Exists_exists in Hn as (i & Hi & Hn); [by exists i|apply _]. }
  assert (i < length (core s))%nat as [b Hb]%lookup_lt_is_Some.
  { unfold core. rw length_fmap (ci_len _ _ Hc). lia. }
  assert (H !! i = None) as Hh.
  { destruct (H !! i) as [x|] eqn:E; [|done]. exfalso. apply HL. unfold L. apply elem_of_app. left.
    apply list_elem_of_fmap. exists (i, x). split; [done|]. by apply elem_of_map_to_list. }
  exists i, b. split_and!; [done..|by apply (cv_idle _ _ _ _ _ Hv i)|]. intros Hf.
  apply HL. unfold L. apply elem_of_app. right. apply list_elem_of_fmap. exists (b_blockno b).
  split; [symmetry; by eapply pin_index_eq|]. apply list_elem_of_fmap. exists (b_blockno b, b_data b).
  split; [done|]. apply elem_of_map_to_list. by eapply cview_dirty.
Qed.

Lemma find_unused_some s l i b :
  cache_inv s l → core s !! i = Some b → b_refcnt b = 0 → b_flags b ≠ 6 →
  ∃ j, List.find (unused s) (rev l) = Some j.
Proof.
  intros Hc Hi Hr Hf. destruct (List.find _ _) as [j|] eqn:E; [by exists j|]. exfalso.
  assert (In i (rev l)) as Hin.
  { apply in_rev. rw rev_involutive. apply list_elem_of_In. rw (ci_perm _ _ Hc). apply elem_of_seq.
    apply lookup_lt_Some in Hi. rw length_fmap (ci_len _ _ Hc) in Hi. lia. }
  pose proof (List.find_none _ _ E i Hin) as Hn. rw unused_core Hi /= Hr in Hn.
  pose proof (ci_bufs _ _ Hc) as HB. rewrite -> Forall_lookup in HB.
  by destruct (bo_flags _ _ (HB i b Hi)) as [E'|[E'|E']]; rw E' in Hn.
Qed.

(** Any block that is not held can be had: it is pinned, or there is room. *)
Lemma cview_obtainable s D P H l blk :
  cview pid s D P H → cache_inv s l → (∀ i x, H !! i = Some x → hd_blk x ≠ blk) →
  is_Some (P !! blk) ∨ (size P + size H < NBUF)%nat → obtainable s l blk.
Proof.
  intros Hv Hc Hnh Hroom.
  destruct (decide (Exists (λ b, b_dev b = 1 ∧ b_blockno b = blk) (core s))) as [He|He].
  - apply Exists_exists in He as (b & (i & Hi)%list_elem_of_lookup & Hd & Hb).
    assert (H !! i = None) as Hn.
    { destruct (H !! i) as [x|] eqn:E; [|done]. destruct (cv_held _ _ _ _ _ Hv i x E) as (b' & Ho & _).
      exfalso. apply (Hnh i x E). destruct Ho. congruence. }
    destruct (cv_idle _ _ _ _ _ Hv i b Hi Hn) as [Hl Hr].
    apply (ob_cached _ _ _ i b); try done. rw Hr. lia.
  - assert (∀ j c, core s !! j = Some c → ¬ (b_dev c = 1 ∧ b_blockno c = blk)) as Hno.
    { intros j c Hj Hc'. apply He, Exists_exists. exists c. split; [|done]. by eapply list_elem_of_lookup_2. }
    destruct Hroom as [[d Hd]|Hroom].
    + apply (cv_pinned _ _ _ _ _ Hv) in Hd as (i & b & Hi & _ & Hf & Hb & _).
      pose proof (ci_bufs _ _ Hc) as HB. rewrite -> Forall_lookup in HB.
      destruct (Hno i b Hi). split; [|done]. apply (bo_block _ _ (HB i b Hi)). lia.
    + destruct (cview_room s D P H Hv Hroom) as (i & b & Hi & _ & Hr & Hf).
      destruct (find_unused_some s l i b Hc Hi Hr Hf) as [j Hj]. by apply (ob_free _ _ _ j).
Qed.

Lemma cview_content s D P H blk d0 :
  cview pid s D P H → (∀ i x, H !! i = Some x → hd_blk x ≠ blk) → D !! Z.to_nat blk = Some d0 →
  content (core s) D blk = default d0 (P !! blk).
Proof.
  intros Hv Hnh Hd0. destruct (cv_inv _ _ _ _ _ Hv) as [l Hc].
  pose proof (ci_bufs _ _ Hc) as HB. rewrite -> Forall_lookup in HB. rw (cv_disk _ _ _ _ _ Hv) in HB.
  destruct (content_cases (core s) D blk (ci_uniq _ _ Hc)) as [(i & b & Hi & (Hd & Hb & Hf) & ->)|[Hn ->]].
  - assert (H !! i = None) as Hni.
    { destruct (H !! i) as [x|] eqn:E; [|done]. destruct (cv_held _ _ _ _ _ Hv i x E) as (b' & Ho & _).
      exfalso. apply (Hnh i x E). destruct Ho. congruence. }
    destruct (cv_idle _ _ _ _ _ Hv i b Hi Hni) as [Hl _].
    destruct (bo_flags _ _ (HB i b Hi)) as [?|[E|E]]; [done| |].
    + destruct (P !! blk) as [d|] eqn:EP; cbn.
      * apply (cv_pinned _ _ _ _ _ Hv) in EP as (j & c & Hj & _ & Hcf & Hcb & <-).
        assert (i = j) as <-; [|congruence].
        apply (ci_uniq _ _ Hc i j b c); try done; [|congruence]. apply (bo_block _ _ (HB j c Hj)). lia.
      * pose proof (bo_clean _ _ (HB i b Hi) E Hl) as Hcl. rw Hb in Hcl. congruence.
    + rewrite <- Hb. by rewrite -> (cview_dirty s D P H i b).
  - rw Hd0. destruct (P !! blk) as [d|] eqn:EP; [|done]. exfalso.
    apply (cv_pinned _ _ _ _ _ Hv) in EP as (j & c & Hj & _ & Hcf & Hcb & _).
    apply (Hn j c Hj). split_and!; [|done|lia]. apply (bo_block _ _ (HB j c Hj)). lia.
Qed.

(** A change of buffer [i] that takes it out of the idle buffers. *)
Lemma cview_pinned_delete s s' D P H i x b b' blk :
  cview pid s D P H → (∃ l, cache_inv s l) → core s !! i = Some b → core s' = <[i := b']> (core s) → H !! i = None →
  (b_flags b = 6 → b_blockno b = blk) →
  (∀ j c, core s' !! j = Some c → b_flags c = 6 → b_blockno c = blk → j = i) →
  ∀ n d, delete blk P !! n = Some d ↔ ∃ j c, core s' !! j = Some c ∧ <[i := x]> H !! j = None ∧
    b_flags c = 6 ∧ b_blockno c = n ∧ b_data c = d.
Proof.
  intros Hv [l Hc] Hi Hcore Hn Hb Hu n d. rw lookup_delete. case_decide as E.
  - subst n. split; [done|]. intros (j & c & Hj & Hjn & Hf & Hcb & _).
    assert (j = i) as -> by (by eapply Hu). by rw lookup_insert_eq in Hjn.
  - rw (cv_pinned _ _ _ _ _ Hv). split.
    + intros (j & c & Hj & Hjn & Hf & Hcb & Hd). exists j, c. assert (j ≠ i) by (intros ->; rw Hi in Hj; injection Hj as <-; specialize (Hb Hf); congruence).
      rw Hcore list_lookup_insert_ne // lookup_insert_ne //.
    + intros (j & c & Hj & Hjn & Hf & Hcb & Hd). exists j, c.
      assert (j ≠ i) by (intros ->; by rw lookup_insert_eq in Hjn).
      rw Hcore list_lookup_insert_ne // in Hj. rw lookup_insert_ne // in Hjn.
Qed.
End view.

Section operations.
Context (iderw : nat → K bst unit) `{HBD : !BlockDev iderw} (p : nat) (pr : proc).
Abbreviation pid := (p_pid pr).
Implicit Types (s : bst) (D : list (list Z)) (P : gmap Z (list Z)) (H : gmap nat held).

Lemma held_other s s' D P H i x b b' :
  cview pid s D P H → core s !! i = Some b → core s' = <[i := b']> (core s) → H !! i = None →
  (∃ b1, owned s' pid (hd_blk x) i b1 ∧ b_data b1 = hd_data x ∧ b_refcnt b1 = 1 ∧
    b_flags b1 = (if hd_dirty x then 6 else 2)) →
  ∀ j y, <[i := x]> H !! j = Some y → ∃ b1, owned s' pid (hd_blk y) j b1 ∧ b_data b1 = hd_data y ∧
    b_refcnt b1 = 1 ∧ b_flags b1 = (if hd_dirty y then 6 else 2).
Proof.
  intros Hv Hi Hcore Hn Hx j y. rw lookup_insert. case_decide as E; [subst; by intros [= <-]|].
  intros Hj. destruct (cv_held _ _ _ _ _ Hv j y Hj) as (b1 & [] & ?). exists b1. split; [|done].
  split; try done. by rw Hcore list_lookup_insert_ne.
Qed.

Lemma cv_bread h s D P H blk d0 :
  ready p pr h → cview pid s D P H → 0 ≤ blk → D !! Z.to_nat blk = Some d0 →
  (∀ i x, H !! i = Some x → hd_blk x ≠ blk) →
  is_Some (P !! blk) ∨ (size P + size H < NBUF)%nat →
  ∃ i h' s', bread iderw 1 blk (h, s) = Ok i (h', s') ∧ ready p pr h' ∧ H !! i = None ∧
    cview pid s' D (delete blk P)
      (<[i := MkHeld blk (default d0 (P !! blk)) (bool_decide (is_Some (P !! blk)))]> H) ∧
    bc_hist s' = bc_hist s.
Proof using HBD.
  intros Hr Hv Hblk Hd0 Hnh Hroom. destruct (cv_inv _ _ _ _ _ Hv) as [l Hc].
  pose proof (cview_obtainable pid s D P H l blk Hv Hc Hnh Hroom) as Hob.
  pose proof (cv_disk _ _ _ _ _ Hv) as HDs.
  destruct (bread_run iderw p pr h s l blk d0) as (i & b & b' & h' & s' & E & Hr' & Hp); [done..|by rw HDs|done|].
  pose proof Hp as [Hc' Hi Hcore Ho Hdata Hd6 Href Hul Hsame (HD' & HS' & Hh') _].
  assert (H !! i = None) as Hni.
  { destruct (H !! i) as [x|] eqn:Ex; [|done]. destruct (cv_held _ _ _ _ _ Hv i x Ex) as (b1 & [Ob _ _ _ Ol] & _).
    rw Hi in Ob. injection Ob as <-. by rw Ol in Hul. }
  assert (bool_decide (is_Some (P !! blk)) = bool_decide (b_flags b' = 6)) as Hdirty.
  { apply bool_decide_ext. split.
    - intros [d (j & c & Hj & Hjn & Hf & Hb & _)%(cv_pinned _ _ _ _ _ Hv)].
      assert (j = i) as ->; [|apply Hsame; congruence].
      destruct (decide (j = i)) as [|Hne]; [done|]. destruct Ho.
      apply (ci_uniq _ _ Hc' j i c b'); try done; [by rw Hcore list_lookup_insert_ne| |congruence].
      pose proof (ci_bufs _ _ Hc) as HB. rewrite -> Forall_lookup in HB. apply (bo_block _ _ (HB j c Hj)). lia.
    - intros Hf. pose proof (Hd6 Hf) as Hf'. destruct (Hsame Hf') as (_ & _ & <-).
      erewrite cview_dirty by done. eauto. }
  exists i, h', s'. split_and!; try done. split.
  - by exists l.
  - congruence.
  - apply (held_other s s' D P H i _ b b' Hv Hi Hcore Hni). exists b'. cbn. split_and!; [done| | |].
    + by rw Hdata HDs (cview_content pid s D P H blk d0).
    + rw Href (proj2 (cv_idle _ _ _ _ _ Hv i b Hi Hni)). done.
    + rw Hdirty. clear Hdirty. destruct Ho. case_bool_decide; [done|]. tauto.
  - intros j c Hj Hjn. assert (j ≠ i) by (intros ->; by rw lookup_insert_eq in Hjn).
    rw Hcore list_lookup_insert_ne // in Hj. rw lookup_insert_ne // in Hjn.
    by apply (cv_idle _ _ _ _ _ Hv j c).
  - apply (cview_pinned_delete pid s s' D P H i _ b b' blk); try done; [by exists l|by apply Hsame|].
    intros j c Hj Hf Hb. destruct Ho. apply (ci_uniq _ _ Hc' j i c b'); try done; [|congruence].
    pose proof (ci_bufs _ _ Hc') as HB. rewrite -> Forall_lookup in HB. apply (bo_block _ _ (HB j c Hj)). lia.
Qed.

(** A change of a held buffer. *)
Lemma cview_change s s' l D D' P H i x x' b' :
  cview pid s D P H → H !! i = Some x → cache_inv s' l → bc_disk s' = D' →
  core s' = <[i := b']> (core s) → owned s' pid (hd_blk x') i b' → b_data b' = hd_data x' →
  b_refcnt b' = 1 → b_flags b' = (if hd_dirty x' then 6 else 2) →
  cview pid s' D' P (<[i := x']> H).
Proof.
  intros Hv Hx Hc HD Hcore Ho Hdata Href Hf. split; try done.
  - by exists l.
  - intros j y. rw lookup_insert. case_decide as E; [subst; intros [= <-]; by exists b'|].
    intros Hj. destruct (cv_held _ _ _ _ _ Hv j y Hj) as (b1 & [] & ?). exists b1. split; [|done].
    split; try done. by rw Hcore list_lookup_insert_ne.
  - intros j c Hj Hjn. assert (j ≠ i) by (intros ->; by rw lookup_insert_eq in Hjn).
    rw Hcore list_lookup_insert_ne // in Hj. rw lookup_insert_ne // in Hjn.
    by apply (cv_idle _ _ _ _ _ Hv j c).
  - intros n d. rw (cv_pinned _ _ _ _ _ Hv). split; intros (j & c & Hj & Hjn & Hrest); exists j, c.
    + assert (j ≠ i) by (intros ->; congruence). rw Hcore list_lookup_insert_ne // lookup_insert_ne //.
    + assert (j ≠ i) by (intros ->; by rw lookup_insert_eq in Hjn).
      rw Hcore list_lookup_insert_ne // in Hj. rw lookup_insert_ne // in Hjn.
Qed.

(** The data of a held buffer, and storing into it. *)
Lemma cv_data h s D P H i x :
  cview pid s D P H → H !! i = Some x →
  ∃ b, buf_at i (h, s) = Ok b (h, s) ∧ b_data b = hd_data x ∧ b_blockno b = hd_blk x.
Proof.
  intros Hv Hx. destruct (cv_held _ _ _ _ _ Hv i x Hx) as (b & [Hi _ Hb _ _] & Hd & _).
  destruct (core_some _ _ _ Hi) as (b0 & Hb0 & ->). exists b0. by split; [apply buf_at_run|].
Qed.

Lemma cv_set_data s D P H i x d :
  cview pid s D P H → H !! i = Some x → length d = Z.to_nat BSIZE → bytes d →
  cview pid (updbuf i (set_b_data d) s) D P (<[i := MkHeld (hd_blk x) d (hd_dirty x)]> H).
Proof.
  intros Hv Hx Hlen Hby. destruct (cv_held _ _ _ _ _ Hv i x Hx) as (b & Ho & Hd & Hr & Hf).
  destruct (cv_inv _ _ _ _ _ Hv) as [l Hc].
  destruct (write_data pr s l (hd_blk x) i b d) as (Hc' & Ho' & Hcore); [done..|].
  eapply (cview_change s _ l D D P H i x); try done. apply (cv_disk _ _ _ _ _ Hv).
Qed.

Lemma cv_bwrite h s D P H i x :
  ready p pr h → cview pid s D P H → H !! i = Some x →
  ∃ h' s', bwrite iderw i (h, s) = Ok tt (h', s') ∧ ready p pr h' ∧
    cview pid s' (<[Z.to_nat (hd_blk x) := hd_data x]> D) P
      (<[i := MkHeld (hd_blk x) (hd_data x) false]> H) ∧
    bc_hist s' = bc_hist s ++ [(Z.to_nat (hd_blk x), hd_data x)].
Proof using HBD.
  intros Hr Hv Hx. destruct (cv_held _ _ _ _ _ Hv i x Hx) as (b & Ho & Hd & Href & Hf).
  destruct (cv_inv _ _ _ _ _ Hv) as [l Hc].
  destruct (bwrite_run iderw p pr h s l (hd_blk x) i b)
    as (h' & s' & E & Hr' & Hc' & Ho' & Hcore & HD & _ & Hh); [done..|].
  rw Hd in HD Hh. exists h', s'. split_and!; try done.
  eapply (cview_change s _ l D _ P H i x); try done. by rw HD (cv_disk _ _ _ _ _ Hv).
Qed.

(** Marking a held buffer dirty, as [log_write] does. *)
Lemma cv_dirty s D P H i x :
  cview pid s D P H → H !! i = Some x →
  cview pid (updbuf i (λ b, set_b_flags (Z.lor (b_flags b) B_DIRTY) b) s) D P
    (<[i := MkHeld (hd_blk x) (hd_data x) true]> H).
Proof.
  intros Hv Hx. destruct (cv_held _ _ _ _ _ Hv i x Hx) as (b & Ho & Hd & Href & Hf).
  destruct (cv_inv _ _ _ _ _ Hv) as [l Hc]. pose proof Ho as [Hi Hdev Hb Hval Hl].
  assert (core (updbuf i (λ b, set_b_flags (Z.lor (b_flags b) B_DIRTY) b) s)
    = <[i := set_b_flags 6 b]> (core s)) as Hcore.
  { rw updbuf_core; [by split|]. rewrite -> (alter_insert_core _ _ _ _ Hi).
    by destruct Hval as [->| ->]. }
  pose proof (ci_bufs _ _ Hc) as HB. rewrite -> Forall_lookup in HB.
  pose proof (HB i b Hi) as [].
  assert (i < length (core s))%nat by (by eapply lookup_lt_Some).
  eapply (cview_change s _ l D D P H i x _ (set_b_flags 6 b)); try done.
  - eapply (cache_inv_upd s l _ i b (set_b_flags 6 b)); try done.
    + apply updbuf_links. by split.
    + apply (ci_disk _ _ Hc).
    + split; cbn; try done; [by right; right|]. intros _. apply bo_block. destruct Hval; lia.
    + intros j c _ Hj. by eapply HB.
    + cbn. intros j c Hji Hj Hcd _ E. apply Hji. apply (ci_uniq _ _ Hc j i c b); done || congruence.
  - apply (cv_disk _ _ _ _ _ Hv).
  - split; try done; [|by right]. rw Hcore. by apply list_lookup_insert_eq.
Qed.

(** Giving a buffer back: a dirty one stays pinned. *)
Lemma cv_brelse h s D P H i x :
  ready p pr h → cview pid s D P H → H !! i = Some x →
  (hd_dirty x = false → D !! Z.to_nat (hd_blk x) = Some (hd_data x)) →
  ∃ h' s', brelse i (h, s) = Ok tt (h', s') ∧ ready p pr h' ∧
    cview pid s' D (if hd_dirty x then <[hd_blk x := hd_data x]> P else P) (delete i H) ∧
    bc_hist s' = bc_hist s.
Proof.
  intros Hr Hv Hx Hclean. destruct (cv_held _ _ _ _ _ Hv i x Hx) as (b & Ho & Hd & Href & Hf).
  destruct (cv_inv _ _ _ _ _ Hv) as [l Hc]. pose proof Ho as [Hi Hdev Hb Hval Hl].
  destruct (brelse_run p pr h s l (hd_blk x) i b) as (h' & s' & E & Hr' & Hc' & Hcore & HD & _ & Hh); [done..| |].
  { rw Hf (cv_disk _ _ _ _ _ Hv) Hd. destruct (hd_dirty x); [done|]. intros _. by apply Hclean. }
  exists h', s'. split_and!; try done.
  assert (i < length (core s))%nat by (by eapply lookup_lt_Some).
  assert (core s' !! i = Some (given_back b)) as Hi' by (rw Hcore; by apply list_lookup_insert_eq).
  assert (∀ j, j ≠ i → core s' !! j = core s !! j) as Hother.
  { intros j Hj. by rw Hcore list_lookup_insert_ne. }
  assert (P !! hd_blk x = None) as HPn.
  { destruct (P !! hd_blk x) as [d|] eqn:EP; [|done].
    apply (cv_pinned _ _ _ _ _ Hv) in EP as (j & c & Hj & Hjn & Hcf & Hcb & _).
    pose proof (ci_bufs _ _ Hc) as HB. rewrite -> Forall_lookup in HB.
    assert (j = i) as ->; [|congruence]. apply (ci_uniq _ _ Hc j i c b); try done; [|congruence].
    apply (bo_block _ _ (HB j c Hj)). lia. }
  split; [by eexists|by rw HD (cv_disk _ _ _ _ _ Hv)|..].
  - intros j y. rw lookup_delete_Some. intros [Hne Hj].
    destruct (cv_held _ _ _ _ _ Hv j y Hj) as (b1 & [] & ?). exists b1. split; [|done].
    split; try done. by rw Hother.
  - intros j c Hj Hjn. destruct (decide (j = i)) as [->|Hne].
    + rw Hi' in Hj. injection Hj as <-. cbn. by rw Href.
    + rw Hother // in Hj. rw lookup_delete_ne // in Hjn. by apply (cv_idle _ _ _ _ _ Hv j c).
  - intros n d. destruct (hd_dirty x).
    + rw lookup_insert. case_decide as En.
      * subst n. split.
        -- intros [= <-]. exists i, (given_back b). by rw lookup_delete_eq.
        -- intros (j & c & Hj & Hjn & Hcf & Hcb & <-). destruct (decide (j = i)) as [->|Hne].
           ++ rw Hi' in Hj. injection Hj as <-. cbn. by rw Hd.
           ++ rw Hother // in Hj. rw lookup_delete_ne // in Hjn.
              pose proof (cview_dirty pid s D P H j c Hv Hj Hjn Hcf). congruence.
      * rw (cv_pinned _ _ _ _ _ Hv). split; intros (j & c & Hj & Hjn & Hcf & Hcb & Hcd); exists j, c.
        -- assert (j ≠ i) by (intros ->; congruence). rw Hother // lookup_delete_ne //.
        -- destruct (decide (j = i)) as [->|Hne].
           ++ rw Hi' in Hj. injection Hj as <-. cbn in Hcb. congruence.
           ++ rw Hother // in Hj. rw lookup_delete_ne // in Hjn.
    + rw (cv_pinned _ _ _ _ _ Hv). split; intros (j & c & Hj & Hjn & Hcf & Hcb & Hcd); exists j, c.
      * assert (j ≠ i) by (intros ->; congruence). rw Hother // lookup_delete_ne //.
      * destruct (decide (j = i)) as [->|Hne].
        -- rw Hi' in Hj. injection Hj as <-. cbn in Hcf. lia.
        -- rw Hother // in Hj. rw lookup_delete_ne // in Hjn.
Qed.
End operations.

(** ** Examples of views *)

(** The view right after [binit]. *)
Lemma fresh_view pid s l D :
  cache_inv s l → core s = replicate NBUF zero_buf → bc_disk s = D → cview pid s D ∅ ∅.
Proof.
  intros Hc Hcore HD. split; [by exists l|done|by intros i x|..].
  - rw Hcore. by intros i b [-> _]%lookup_replicate _.
  - intros n d. rw lookup_empty. split; [done|]. rw Hcore. by intros (i & b & [-> _]%lookup_replicate & _ & ? & _).
Qed.

(** A cache over eight empty blocks. *)
Definition ex_disk8 : list (list Z) := replicate 8 zero_block.
Definition ex_running : proc := set_p_state RUNNING (set_p_pid 7 zero_proc).

Lemma ex_disk8_ok : disk_ok ex_disk8.
Proof. apply Forall_replicate, zero_block_ok. Qed.

Lemma ex_view8 : ∃ s, cview 7 s ex_disk8 ∅ ∅.
Proof.
  destruct (binit_inv ex_machine (set_bc_disksize 8 (set_bc_disk ex_disk8 ex_bst)) eq_refl eq_refl ex_disk8_ok eq_refl)
    as (s & _ & Hc & Hcore & HD).
  exists s. exact (fresh_view 7 s _ _ Hc Hcore HD).
Qed.

(** Block 6 held, with new contents. *)
Lemma ex_held6 : ∃ s i, cview 7 s ex_disk8 ∅ (<[i := MkHeld 6 (replicate (Z.to_nat BSIZE) 1) false]> ∅).
Proof.
  destruct ex_view8 as (s & Hv).
  destruct (cv_bread memide_iderw 0 ex_running ex_machine s _ ∅ ∅ 6 zero_block ex_machine_running Hv)
    as (i & h1 & s1 & _ & _ & _ & Hv1 & _); [lia|exact eq_refl|by intros ??; rw lookup_empty|right; rw !map_size_empty; change NBUF with 30%nat; lia|].
  rewrite -> lookup_empty, delete_empty in Hv1. cbn [default] in Hv1.
  pose proof (cv_set_data ex_running s1 _ _ _ i _ (replicate (Z.to_nat BSIZE) 1) Hv1
    (lookup_insert_eq _ _ _) (length_replicate _ _) ltac:(by apply Forall_replicate)) as Hv2.
  rewrite -> insert_insert_eq in Hv2. eexists _, i. exact Hv2.
Qed.

(** Block 6 pinned. *)
Lemma ex_pinned6 : ∃ s, cview 7 s ex_disk8 {[6 := replicate (Z.to_nat BSIZE) 1]} ∅.
Proof.
  destruct ex_held6 as (s & i & Hv).
  pose proof (cv_dirty ex_running s _ _ _ i _ Hv (lookup_insert_eq _ _ _)) as Hv1.
  rewrite -> insert_insert_eq in Hv1.
  destruct (cv_brelse 0 ex_running ex_machine _ _ _ _ i _ ex_machine_running Hv1 (lookup_insert_eq _ _ _))
    as (h2 & s2 & _ & _ & Hv2 & _); [done|].
  rewrite -> delete_insert_id in Hv2 by done. by exists s2.
Qed.
