(* ===== verification/Ide.v ===== *)
(** * The disk driver: ide.c

    The queue of requests and the programming of the controller. The controller
    is a parameter: the functions of its ports, with what the driver relies
    on as the class [IdeController]. *)

From S2P Require Import Prelude Machine Spinlock Mem Kalloc Sched Sleeplock Ring Bytes Bio.

(** ** Constants *)

Definition SECTOR_SIZE : Z := 512.
Definition IDE_BSY : Z := 0x80.
Definition IDE_DRDY : Z := 0x40.
Definition IDE_DF : Z := 0x20.
Definition IDE_ERR : Z := 0x01.
Definition IDE_CMD_READ : Z := 0x20.
Definition IDE_CMD_WRITE : Z := 0x30.
Definition IDE_CMD_RDMUL : Z := 0xc4.
Definition IDE_CMD_WRMUL : Z := 0xc5.

Definition idelock : objaddr := ("ide"%string, 0).

(** The instructions on the ports of a device with states [D]: [insl] and [outsl]
    move a number of 32-bit words, here as bytes. *)
Record ports (D : Type) : Type := MkPorts {
  inb : Z → D → Z * D;
  outb : Z → Z → D → D;
  insl : Z → Z → D → list Z * D;
  outsl : Z → list Z → D → D
}.
Arguments MkPorts {D}.
Arguments inb {D}.
Arguments outb {D}.
Arguments insl {D}.
Arguments outsl {D}.

(** ** The driver *)

Section driver.
Context {D : Type} (io : ports D).
(** How often [idewait] polls; [enable] is [ioapicenable(IRQ_IDE, ncpu - 1)]. *)
Context (polls : nat) (enable : K (bst * D) unit).

Definition ide_in (p : Z) : K (bst * D) Z :=
  s ← getc;
  let '(v, d) := inb io p s.2 in
  modc (λ s, (s.1, d));;
  mret v.
Definition ide_out (p v : Z) : K (bst * D) unit := modc (λ s, (s.1, outb io p v s.2)).

Definition ide_buf (i : nat) : K (bst * D) buf :=
  s ← getc;
  match bc_bufs s.1 !! i with
  | Some b => mret b
  | None => fault "bad buffer pointer"
  end.
Definition ide_mod (i : nat) (f : buf → buf) : K (bst * D) unit :=
  modc (λ s, (set_bc_bufs (alter f i (bc_bufs s.1)) s.1, s.2)).

(** The sleep lock of a buffer. *)
Definition ide_lockL (i : nat) : lens (bst * D) sleeplock :=
  Lens (λ s, view (buf_lockL i) s.1) (λ l s, (over (buf_lockL i) l s.1, s.2)).

Fixpoint idewait_loop (n : nat) : K (bst * D) Z :=
  match n with
  | O => fault "idewait: not ready"
  | S n =>
      r ← ide_in 0x1f7;
      if negb (Z.land r (Z.lor IDE_BSY IDE_DRDY) =? IDE_DRDY) then idewait_loop n else mret r
  end.

Definition idewait (checkerr : bool) : K (bst * D) Z :=
  r ← idewait_loop polls;
  if checkerr && negb (Z.land r (Z.lor IDE_DF IDE_ERR) =? 0) then mret (-1) else mret 0.

(** The loop that looks for disk 1. *)
Fixpoint find_disk1 (n : nat) : K (bst * D) unit :=
  match n with
  | O => mret tt
  | S n =>
      r ← ide_in 0x1f7;
      if negb (r =? 0) then modc (λ s, (set_bc_havedisk1 true s.1, s.2)) else find_disk1 n
  end.

Definition ideinit : K (bst * D) unit :=
  initlock idelock;;
  enable;;
  idewait false;;
  ide_out 0x1f6 (Z.lor 0xe0 (Z.shiftl 1 4));;
  find_disk1 1000;;
  ide_out 0x1f6 (Z.lor 0xe0 (Z.shiftl 0 4)).

Definition idestart (b : option nat) : K (bst * D) unit :=
  match b with
  | None => panic "idestart"
  | Some i =>
      b ← ide_buf i;
      if FSSIZE <=? b_blockno b then panic "incorrect blockno" else
      let sector_per_block := BSIZE / SECTOR_SIZE in
      let sector := s32 (b_blockno b * sector_per_block) in
      let read_cmd := if sector_per_block =? 1 then IDE_CMD_READ else IDE_CMD_RDMUL in
      let write_cmd := if sector_per_block =? 1 then IDE_CMD_WRITE else IDE_CMD_WRMUL in
      if 7 <? sector_per_block then panic "idestart" else
      idewait false;;
      ide_out 0x3f6 0;;
      ide_out 0x1f2 sector_per_block;;
      ide_out 0x1f3 (Z.land sector 0xff);;
      ide_out 0x1f4 (Z.land (Z.shiftr sector 8) 0xff);;
      ide_out 0x1f5 (Z.land (Z.shiftr sector 16) 0xff);;
      ide_out 0x1f6 (Z.lor (Z.lor 0xe0 (Z.shiftl (Z.land (b_dev b) 1) 4)) (Z.land (Z.shiftr sector 24) 0x0f));;
      if negb (Z.land (b_flags b) B_DIRTY =? 0) then
        ide_out 0x1f7 write_cmd;;
        modc (λ s, (s.1, outsl io 0x1f0 (b_data b) s.2))
      else ide_out 0x1f7 read_cmd
  end.

Definition ideintr : K (bst * D) unit :=
  acquire idelock;;
  s ← getc;
  match bc_idequeue s.1 with
  | None => release idelock
  | Some i =>
      b ← ide_buf i;
      modc (λ s, (set_bc_idequeue (b_qnext b) s.1, s.2));;
      (if Z.land (b_flags b) B_DIRTY =? 0 then
         r ← idewait true;
         if 0 <=? r then
           s ← getc;
           let '(data, d) := insl io 0x1f0 (BSIZE / 4) s.2 in
           modc (λ s, (s.1, d));;
           ide_mod i (set_b_data data)
         else mret tt
       else mret tt);;
      ide_mod i (λ b, set_b_flags (Z.lor (b_flags b) B_VALID) b);;
      ide_mod i (λ b, set_b_flags (Z.land (b_flags b) (Z.lnot B_DIRTY)) b);;
      wakeup (Some (buf_addr i));;
      s ← getc;
      (if bool_decide (bc_idequeue s.1 = None) then mret tt else idestart (bc_idequeue s.1));;
      release idelock
  end.

(** A load and a store through [pp], which is [&idequeue] or the
    address of a [qnext]. *)
Definition ide_next (pp : option nat) : K (bst * D) (option nat) :=
  match pp with
  | None => gets (λ s, bc_idequeue s.2.1)
  | Some i => b ← ide_buf i; mret (b_qnext b)
  end.
Definition ide_link (pp : option nat) (b : option nat) : K (bst * D) unit :=
  match pp with
  | None => modc (λ s, (set_bc_idequeue b s.1, s.2))
  | Some i => ide_mod i (set_b_qnext b)
  end.

(** The loop of [iderw] to the end of the queue, and the store there. *)
Fixpoint ide_append (fuel : nat) (pp : option nat) (i : nat) : K (bst * D) unit :=
  match fuel with
  | O => fault "iderw: cycle"
  | S fuel =>
      n ← ide_next pp;
      match n with
      | Some j => ide_append fuel (Some j) i
      | None => ide_link pp (Some i)
      end
  end.

(** [while((b->flags & (B_VALID|B_DIRTY)) != B_VALID) sleep(b, &idelock);] and
    the rest. The loop goes on in [iderw_resume]. *)
Definition iderw_loop (i : nat) : K (bst * D) unit :=
  b ← ide_buf i;
  if negb (Z.land (b_flags b) (Z.lor B_VALID B_DIRTY) =? B_VALID) then sleep (Some (buf_addr i)) (Some idelock)
  else release idelock.

Definition iderw (i : nat) : K (bst * D) unit :=
  b ← ide_buf i;
  l ← holdingsleep (ide_lockL i) (buf_addr i);
  if negb l then panic "iderw: buf not locked" else
  if Z.land (b_flags b) (Z.lor B_VALID B_DIRTY) =? B_VALID then panic "iderw: nothing to do" else
  s ← getc;
  if negb (b_dev b =? 0) && negb (bc_havedisk1 s.1) then panic "iderw: ide disk 1 not present" else
  acquire idelock;;
  ide_mod i (set_b_qnext None);;
  ide_append (S NBUF) None i;;
  s ← getc;
  (if bool_decide (bc_idequeue s.1 = Some i) then idestart (Some i) else mret tt);;
  iderw_loop i.

Definition iderw_resume (i p : nat) (intena : bool) : K (bst * D) unit :=
  sleep_resume p idelock intena;;
  iderw_loop i.
End driver.

(** ** What the driver relies on *)

(** The command in the controller: the drive, the sector and the data. *)
Inductive ide_cmd : Type :=
| NoCmd
| ReadCmd (drive sector : Z)
| WriteWait (drive sector : Z)
| WriteCmd (drive sector : Z) (data : list Z).

(** The drive and the sector in the task file registers. *)
Definition task_drive (regs : Z → Z) : Z := Z.land (Z.shiftr (regs 0x1f6) 4) 1.
Definition task_sector (regs : Z → Z) : Z :=
  regs 0x1f3 + 2 ^ 8 * regs 0x1f4 + 2 ^ 16 * regs 0x1f5 + 2 ^ 24 * Z.land (regs 0x1f6) 0x0f.

(** The parts of a state of the controller: the sectors of its drives, the
    registers, the command, how often it still answers busy, and whether the last
    command failed. *)
Record controller (D : Type) : Type := MkController {
  dv_sector : D → Z → Z → list Z;
  dv_regs : D → Z → Z;
  dv_cmd : D → ide_cmd;
  dv_busy : D → nat;
  dv_error : D → bool
}.
Arguments MkController {D}.
Arguments dv_sector {D}.
Arguments dv_regs {D}.
Arguments dv_cmd {D}.
Arguments dv_busy {D}.
Arguments dv_error {D}.

(** Programmed I/O as ATA documents it. *)
Class IdeController {D : Type} (io : ports D) (c : controller D) : Prop := {
  ide_status d :
    let '(r, d') := inb io 0x1f7 d in
    dv_sector c d' = dv_sector c d ∧ dv_regs c d' = dv_regs c d ∧ dv_cmd c d' = dv_cmd c d ∧ dv_error c d' = dv_error c d ∧
    (Z.land r (Z.lor IDE_BSY IDE_DRDY) = IDE_DRDY ↔ dv_busy c d = 0%nat) ∧
    (dv_busy c d = 0%nat → (Z.land r (Z.lor IDE_DF IDE_ERR) = 0 ↔ dv_error c d = false)) ∧
    dv_busy c d' = pred (dv_busy c d);
  ide_control d v :
    dv_sector c (outb io 0x3f6 v d) = dv_sector c d ∧ dv_regs c (outb io 0x3f6 v d) = dv_regs c d ∧ dv_cmd c (outb io 0x3f6 v d) = dv_cmd c d;
  ide_register d p v : 0x1f2 ≤ p ≤ 0x1f6 →
    dv_sector c (outb io p v d) = dv_sector c d ∧ dv_cmd c (outb io p v d) = dv_cmd c d ∧
    ∀ q, dv_regs c (outb io p v d) q = if q =? p then v else dv_regs c d q;
  ide_read d : dv_cmd c d = NoCmd → dv_regs c d 0x1f2 = 1 →
    dv_sector c (outb io 0x1f7 IDE_CMD_READ d) = dv_sector c d ∧
    dv_cmd c (outb io 0x1f7 IDE_CMD_READ d) = ReadCmd (task_drive (dv_regs c d)) (task_sector (dv_regs c d));
  ide_write d : dv_cmd c d = NoCmd → dv_regs c d 0x1f2 = 1 →
    dv_sector c (outb io 0x1f7 IDE_CMD_WRITE d) = dv_sector c d ∧
    dv_cmd c (outb io 0x1f7 IDE_CMD_WRITE d) = WriteWait (task_drive (dv_regs c d)) (task_sector (dv_regs c d));
  ide_data_out d drive sector data : dv_cmd c d = WriteWait drive sector → Z.of_nat (length data) = SECTOR_SIZE →
    dv_sector c (outsl io 0x1f0 data d) = dv_sector c d ∧ dv_cmd c (outsl io 0x1f0 data d) = WriteCmd drive sector data;
  ide_data_in d drive sector : dv_cmd c d = ReadCmd drive sector → dv_error c d = false →
    let '(data, d') := insl io 0x1f0 (SECTOR_SIZE / 4) d in
    data = dv_sector c d drive sector ∧ dv_sector c d' = dv_sector c d ∧ dv_cmd c d' = NoCmd
}.

(** ** The queue *)

(** A buffer that is to be read or written, and the command for it. *)
Definition request_ok (b : buf) : Prop :=
  0 ≤ b_blockno b < FSSIZE ∧ Z.of_nat (length (b_data b)) = SECTOR_SIZE ∧ Z.land (b_flags b) (Z.lor B_VALID B_DIRTY) ≠ B_VALID.
Definition dirty (b : buf) : bool := negb (Z.land (b_flags b) B_DIRTY =? 0).
Definition request (b : buf) : ide_cmd :=
  if dirty b then WriteCmd (Z.land (b_dev b) 1) (b_blockno b) (b_data b) else ReadCmd (Z.land (b_dev b) 1) (b_blockno b).

Fixpoint queue_links (B : list buf) (first : option nat) (q : list nat) : Prop :=
  match q with
  | [] => first = None
  | i :: q => first = Some i ∧ ∃ b, B !! i = Some b ∧ request_ok b ∧ queue_links B (b_qnext b) q
  end.

Lemma links_frame B B' q : ∀ first, (∀ i, i ∈ q → B' !! i = B !! i) → queue_links B first q → queue_links B' first q.
Proof.
  induction q as [|i q IH]; intros first HB; cbn; [done|]. intros (-> & b & Hb & Hok & Hq). split; [done|]. exists b.
  split_and!; [rw HB //; set_solver|done|]. apply IH; [|done]. intros j Hj. apply HB. set_solver.
Qed.

(** The last link of the queue behind [pp], and the store through it. *)
Fixpoint queue_end (pp : option nat) (q : list nat) : option nat :=
  match q with [] => pp | j :: q => queue_end (Some j) q end.
Definition queue_ptr (s : bst) (pp : option nat) : option nat :=
  match pp with None => bc_idequeue s | Some j => from_option b_qnext None (bc_bufs s !! j) end.
Definition queue_put (pp : option nat) (i : nat) (s : bst) : bst :=
  match pp with
  | None => set_bc_idequeue (Some i) s
  | Some j => set_bc_bufs (alter (set_b_qnext (Some i)) j (bc_bufs s)) s
  end.

Lemma queue_end_in pp q : queue_end pp q = pp ∨ ∃ j, j ∈ q ∧ queue_end pp q = Some j.
Proof.
  revert pp. induction q as [|j q IH]; intros pp; cbn; [by left|right]. destruct (IH (Some j)) as [->|(k & Hk & ->)]; [exists j|exists k]; set_solver.
Qed.

Lemma queue_put_links i b s q : ∀ pp,
  match pp with Some j => is_Some (bc_bufs s !! j) ∧ (j ∉ q) ∧ j ≠ i | None => True end →
  queue_links (bc_bufs s) (queue_ptr s pp) q → NoDup q → i ∉ q →
  bc_bufs s !! i = Some b → b_qnext b = None → request_ok b →
  queue_links (bc_bufs (queue_put (queue_end pp q) i s)) (queue_ptr (queue_put (queue_end pp q) i s) pp) (q ++ [i]).
Proof.
  induction q as [|j q IH]; intros pp Hpp Hq Hnd Hi Hb Hn Hok; cbn [queue_end app].
  - cbn [queue_links]. destruct pp as [j|]; cbn.
    + destruct Hpp as ((bj & Hj) & _ & Hne). rw list_lookup_alter_eq Hj. split; [done|]. exists b. rw list_lookup_alter_ne //.
    + split; [done|]. by exists b.
  - cbn [queue_links] in Hq |- *. destruct Hq as (Eptr & bj & Hj & Hokj & Hq). apply NoDup_cons in Hnd as [Hjq Hnd].
    assert (queue_links (bc_bufs (queue_put (queue_end (Some j) q) i s)) (queue_ptr (queue_put (queue_end (Some j) q) i s) (Some j)) (q ++ [i])) as IHq.
    { apply IH; try done; [split_and!; [by exists bj|done|set_solver]| |set_solver]. cbn. by rw Hj. }
    destruct (queue_end_in (Some j) q) as [E|(k & Hk & E)]; rewrite -> E in *; cbn [queue_put queue_ptr] in *.
    + split.
      * destruct pp as [k|]; cbn in *; [|done]. rewrite -> list_lookup_alter_ne by set_solver. done.
      * exists (set_b_qnext (Some i) bj). cbn [bc_bufs set_bc_bufs] in *. rewrite -> list_lookup_alter_eq, Hj in IHq |- *. by split_and!.
    + split.
      * destruct pp as [k'|]; cbn in *; [|done]. rewrite -> list_lookup_alter_ne by set_solver. done.
      * exists bj. cbn [bc_bufs set_bc_bufs] in *. rewrite -> list_lookup_alter_ne in IHq |- * by set_solver. rewrite -> Hj in IHq |- *. by split_and!.
Qed.

Section spec.
Context {D : Type} (io : ports D) (c : controller D) (polls : nat).

(** The queue holds the requests [q], and the controller has the command of the
    first. *)
Record ide_inv (s : bst) (d : D) (q : list nat) : Prop := {
  iq_links : queue_links (bc_bufs s) (bc_idequeue s) q;
  iq_nodup : NoDup q;
  iq_cmd : dv_cmd c d = match q with [] => NoCmd | i :: _ => from_option request NoCmd (bc_bufs s !! i) end
}.

(** The controller has done its command: a write is on the disk, the data of a
    read wait in the controller unless there was an error. *)
Definition completes (d d' : D) : Prop :=
  match dv_cmd c d with
  | ReadCmd drive sector => dv_sector c d' = dv_sector c d ∧ dv_cmd c d' = if dv_error c d' then NoCmd else ReadCmd drive sector
  | WriteCmd drive sector data =>
      dv_cmd c d' = NoCmd ∧
      ∀ dr n, dv_sector c d' dr n = if (dr =? drive) && (n =? sector) && negb (dv_error c d') then data else dv_sector c d dr n
  | _ => False
  end.

Context `{!IdeController io c}.
Hypothesis Hpolls : ∀ d, (dv_busy c d < polls)%nat.

Lemma idewait_loop_run n : ∀ h s d, (dv_busy c d < n)%nat →
  ∃ r d', idewait_loop io n (h, (s, d)) = Ok r (h, (s, d')) ∧
    dv_sector c d' = dv_sector c d ∧ dv_regs c d' = dv_regs c d ∧ dv_cmd c d' = dv_cmd c d ∧ dv_error c d' = dv_error c d ∧
    (Z.land r (Z.lor IDE_DF IDE_ERR) = 0 ↔ dv_error c d = false).
Proof using IdeController0.
  induction n as [|n IH]; intros h s d Hn; [lia|]. cbn [idewait_loop]. unfold ide_in. rw bind_assoc. erewrite bind_ok; [|reflexivity]. cbn [fst snd].
  pose proof (ide_status d) as Hst. destruct (inb io 0x1f7 d) as [r d1]. destruct Hst as (H1 & H2 & H3 & H4 & H5 & H6 & H7).
  rw bind_assoc. erewrite bind_ok; [|reflexivity]. erewrite bind_ok; [|reflexivity]. cbn [fst snd]. destruct (dv_busy c d) as [|k] eqn:Ek.
  - rewrite -> (proj2 (Z.eqb_eq _ _) (proj2 H5 eq_refl)). exists r, d1. split_and!; try done. by apply H6.
  - rewrite -> (proj2 (Z.eqb_neq _ _)) by (intros E; apply H5 in E; lia). cbn [negb].
    destruct (IH h s d1) as (r' & d' & E & E1 & E2 & E3 & E4 & E5); [rw H7; cbn; lia|]. exists r', d'.
    split_and!; [done|by rw E1|by rw E2|by rw E3|by rw E4|by rw E5 H4].
Qed.

Lemma idewait_run chk h s d :
  ∃ d', idewait io polls chk (h, (s, d)) = Ok (if chk && dv_error c d then -1 else 0) (h, (s, d')) ∧
    dv_sector c d' = dv_sector c d ∧ dv_regs c d' = dv_regs c d ∧ dv_cmd c d' = dv_cmd c d ∧ dv_error c d' = dv_error c d.
Proof using All.
  destruct (idewait_loop_run polls h s d (Hpolls d)) as (r & d' & E & H1 & H2 & H3 & H4 & H5). exists d'. split_and!; [|done..].
  unfold idewait. rewrite -> (bind_ok _ _ _ _ _ E). destruct chk, (dv_error c d) eqn:Ee; cbn [andb]; try done.
  - rewrite -> (proj2 (Z.eqb_neq _ _)); [done|]. intros E0. by apply H5 in E0.
  - by rewrite -> (proj2 (Z.eqb_eq _ _) (proj2 H5 eq_refl)).
Qed.

(** The registers that [idestart] writes name the block. *)
Lemma task_block n dev (regs : Z → Z) : 0 ≤ n < FSSIZE →
  regs 0x1f3 = Z.land n 0xff → regs 0x1f4 = Z.land (Z.shiftr n 8) 0xff → regs 0x1f5 = Z.land (Z.shiftr n 16) 0xff →
  regs 0x1f6 = Z.lor (Z.lor 0xe0 (Z.shiftl (Z.land dev 1) 4)) (Z.land (Z.shiftr n 24) 0x0f) →
  task_drive regs = Z.land dev 1 ∧ task_sector regs = n.
Proof.
  intros Hn E3 E4 E5 E6. unfold FSSIZE in Hn. change 0xff with (Z.ones 8) in *. change 0x0f with (Z.ones 4) in E6.
  rewrite -> Z.land_ones in E3, E4, E5, E6 by lia. rewrite -> Z.shiftr_div_pow2 in E4, E5, E6 by lia.
  replace (n / 2 ^ 24) with 0 in E6 by dlia. replace (n / 2 ^ 16) with 0 in E5 by dlia. rw Z.mod_0_l // in E5. rw Z.mod_0_l // Z.lor_0_r in E6.
  unfold task_drive, task_sector. rw E3 E4 E5 E6. change 1 with (Z.ones 1). rewrite -> (Z.land_ones dev) by lia.
  assert (dev mod 2 ^ 1 = 0 ∨ dev mod 2 ^ 1 = 1) as [->| ->] by dlia;
    (split; [reflexivity|]); match goal with |- context [Z.land ?a ?b] => change (Z.land a b) with 0 end; dlia.
Qed.

Lemma idestart_run h s d i b :
  bc_bufs s !! i = Some b → request_ok b → dv_cmd c d = NoCmd →
  ∃ d', idestart io polls (Some i) (h, (s, d)) = Ok tt (h, (s, d')) ∧ dv_cmd c d' = request b ∧ dv_sector c d' = dv_sector c d.
Proof using All.
  intros Hb (Hn & Hlen & _) Hcmd. unfold idestart, ide_buf. rw bind_assoc. erewrite bind_ok; [|reflexivity]. cbn [fst snd]. rw Hb. erewrite bind_ok; [|reflexivity].
  rewrite -> (proj2 (Z.leb_gt _ _)) by lia. cbv zeta. change (BSIZE / SECTOR_SIZE) with 1. rw Z.mul_1_r. rewrite -> (wraps_small 32) by (unfold FSSIZE in *; lia). change (7 <? 1) with false. change (1 =? 1) with true. cbv iota.
  destruct (idewait_run false h s d) as (d0 & E0 & S0 & _ & C0 & _). rewrite -> (bind_ok _ _ _ _ _ E0). unfold ide_out. do 6 (erewrite bind_ok; [|reflexivity]). cbn [fst snd].
  set (d1 := outb io 0x3f6 0 d0). set (d2 := outb io 0x1f2 1 d1). set (d3 := outb io 0x1f3 _ d2). set (d4 := outb io 0x1f4 _ d3). set (d5 := outb io 0x1f5 _ d4). set (d6 := outb io 0x1f6 _ d5).
  destruct (ide_control d0 0) as (S1 & _ & C1). destruct (ide_register d1 0x1f2 1) as (S2 & C2 & R2); [lia|]. destruct (ide_register d2 0x1f3 (Z.land (b_blockno b) 0xff)) as (S3 & C3 & R3); [lia|].
  destruct (ide_register d3 0x1f4 (Z.land (Z.shiftr (b_blockno b) 8) 0xff)) as (S4 & C4 & R4); [lia|]. destruct (ide_register d4 0x1f5 (Z.land (Z.shiftr (b_blockno b) 16) 0xff)) as (S5 & C5 & R5); [lia|].
  destruct (ide_register d5 0x1f6 (Z.lor (Z.lor 0xe0 (Z.shiftl (Z.land (b_dev b) 1) 4)) (Z.land (Z.shiftr (b_blockno b) 24) 0x0f))) as (S6 & C6 & R6); [lia|].
  assert (dv_cmd c d6 = NoCmd ∧ dv_sector c d6 = dv_sector c d) as [Cd Sd] by (unfold d6, d5, d4, d3, d2, d1 in *; split; congruence).
  assert (dv_regs c d6 0x1f2 = 1) as G2 by (unfold d6; rw R6; unfold d5; rw R5; unfold d4; rw R4; unfold d3; rw R3; unfold d2; by rw R2).
  destruct (task_block (b_blockno b) (b_dev b) (dv_regs c d6) Hn) as [Td Ts].
  { unfold d6; rw R6; unfold d5; rw R5; unfold d4; rw R4; unfold d3; by rw R3. }
  { unfold d6; rw R6; unfold d5; rw R5; unfold d4; by rw R4. }
  { unfold d6; rw R6; unfold d5; by rw R5. }
  { unfold d6; by rw R6. }
  unfold request, dirty. destruct (negb _).
  - erewrite bind_ok; [|reflexivity]. destruct (ide_write d6 Cd G2) as (S7 & C7). rw Td Ts in C7. destruct (ide_data_out _ _ _ _ C7 Hlen) as (S8 & C8).
    eexists. split; [reflexivity|]. cbn [fst snd]. split; [done|]. by rw S8 S7.
  - destruct (ide_read d6 Cd G2) as (S7 & C7). rw Td Ts in C7. eexists. split; [reflexivity|]. cbn [fst snd]. split; [done|]. by rw S7.
Qed.

Lemma ide_buf_run h s (d : D) i b : bc_bufs s !! i = Some b → ide_buf i (h, (s, d)) = Ok b (h, (s, d)).
Proof. intros Hb. unfold ide_buf. rw bind_run. cbn. by rw Hb. Qed.

Lemma ide_next_run h s (d : D) pp : match pp with Some j => is_Some (bc_bufs s !! j) | None => True end →
  ide_next pp (h, (s, d)) = Ok (queue_ptr s pp) (h, (s, d)).
Proof. destruct pp as [j|]; [|done]. intros (b & Hb). cbn [ide_next]. rewrite -> (bind_ok _ _ _ _ _ (ide_buf_run h s d j b Hb)). cbn. by rw Hb. Qed.

Lemma ide_append_run h (d : D) i s q : ∀ fuel pp,
  match pp with Some j => is_Some (bc_bufs s !! j) | None => True end →
  queue_links (bc_bufs s) (queue_ptr s pp) q → (length q < fuel)%nat →
  ide_append fuel pp i (h, (s, d)) = Ok tt (h, (queue_put (queue_end pp q) i s, d)).
Proof.
  induction q as [|j q IH]; intros fuel pp Hpp Hq Hf; (destruct fuel as [|fuel]; [lia|]); cbn [ide_append queue_end].
  - rewrite -> (bind_ok _ _ _ _ _ (ide_next_run h s d pp Hpp)). cbn in Hq. rw Hq. by destruct pp.
  - cbn [queue_links] in Hq. destruct Hq as (Eptr & bj & Hj & _ & Hq). rewrite -> (bind_ok _ _ _ _ _ (ide_next_run h s d pp Hpp)). rw Eptr.
    apply IH; [by exists bj|cbn; by rw Hj|cbn in Hf; lia].
Qed.

Lemma idelock_ptable : idelock ≠ ptable_lock.
Proof. done. Qed.

Lemma queue_put_other pp i s : bc_havedisk1 (queue_put pp i s) = bc_havedisk1 s ∧
  ∀ j, set_b_qnext None <$> bc_bufs (queue_put pp i s) !! j = set_b_qnext None <$> bc_bufs s !! j.
Proof.
  destruct pp as [k|]; cbn; [|done]. split; [done|]. intros j. destruct (decide (j = k)) as [->|]; [|by rw list_lookup_alter_ne].
  rw list_lookup_alter_eq. by destruct (bc_bufs s !! k) as [[]|].
Qed.

(** [iderw] up to its sleep. *)
Lemma iderw_run p pr h s d q i b :
  ready p pr h → ide_inv s d q → bc_bufs s !! i = Some b → b_lock b = MkSl true (p_pid pr) → i ∉ q → request_ok b →
  (b_dev b = 0 ∨ bc_havedisk1 s = true) → (length q ≤ NBUF)%nat →
  ∃ s' d', iderw io polls i (h, (s, d)) = Stop Switch (acq ptable_lock (upd_proc p (asleep (Some (buf_addr i))) (settle h)), (s', d')) ∧
    ide_inv s' d' (q ++ [i]) ∧ dv_sector c d' = dv_sector c d ∧ (q ≠ [] → d' = d) ∧
    (∀ j, set_b_qnext None <$> bc_bufs s' !! j = set_b_qnext None <$> bc_bufs s !! j).
Proof using All.
  intros Hr [Hq Hnd Hcmd] Hb Hlk Hi Hok Hdev Hlen. unfold iderw. rewrite -> (bind_ok _ _ _ _ _ (ide_buf_run h s d i b Hb)).
  erewrite bind_ok; [|by apply (holdingsleep_run _ _ p pr)]. cbn [ide_lockL view buf_lockL fst snd]. rw Hb. cbn [from_option]. rw Hlk. cbn [sl_locked sl_pid andb]. rw Z.eqb_refl. cbn [negb].
  pose proof Hok as (Hn & Hl & Hfl). rewrite -> (proj2 (Z.eqb_neq _ _) Hfl). erewrite bind_ok; [|reflexivity]. cbn [fst snd].
  replace (negb (b_dev b =? 0) && negb (bc_havedisk1 s)) with false by (destruct Hdev as [->| ->]; [done|by rw andb_false_r]).
  apply ready_settle in Hr. set (h1 := settle h) in *. rewrite -> (bind_ok _ _ _ _ _ (ready_lock p pr idelock h1 _ Hr)). unfold ide_mod. erewrite bind_ok; [|reflexivity]. cbn [fst snd].
  set (s1 := set_bc_bufs (alter (set_b_qnext None) i (bc_bufs s)) s). assert (bc_bufs s1 !! i = Some (set_b_qnext None b)) as Hb1 by (unfold s1; cbn; by rw list_lookup_alter_eq Hb).
  assert (queue_links (bc_bufs s1) (queue_ptr s1 None) q) as Hq1.
  { eapply links_frame; [|exact Hq]. intros j Hj. unfold s1. cbn. rewrite -> list_lookup_alter_ne by set_solver. done. }
  erewrite bind_ok; [|by apply (ide_append_run (acq idelock h1) d i s1 q (S NBUF) None I Hq1); lia]. set (s2 := queue_put (queue_end None q) i s1).
  pose proof (queue_put_links i _ s1 q None I Hq1 Hnd Hi Hb1 eq_refl Hok) as Hq2. fold s2 in Hq2. cbn [queue_ptr] in Hq2.
  destruct (queue_put_other (queue_end None q) i s1) as [_ Hoth]. fold s2 in Hoth.
  assert (∀ j, set_b_qnext None <$> bc_bufs s2 !! j = set_b_qnext None <$> bc_bufs s !! j) as Hoth'.
  { intros j. rw Hoth. unfold s1. cbn. destruct (decide (j = i)) as [->|]; [rw list_lookup_alter_eq Hb|rw list_lookup_alter_ne]; done. }
  assert (∃ b2, bc_bufs s2 !! i = Some b2 ∧ request_ok b2 ∧ request b2 = request b ∧ b_flags b2 = b_flags b) as (b2 & Hb2 & Hok2 & Er2 & Ef2).
  { specialize (Hoth' i). rw Hb in Hoth'. destruct (bc_bufs s2 !! i) as [b2|]; [|done]. injection Hoth' as E1 E2 E3 E4 E5 E6 E7 E8. exists b2. unfold request_ok, request, dirty. rw E1 E2 E3 E8. split_and!; first [done|lia]. }
  erewrite bind_ok; [|reflexivity]. cbn [fst snd].
  assert (∀ d2 : D, iderw_loop i (acq idelock h1, (s2, d2)) = Stop Switch (acq ptable_lock (upd_proc p (asleep (Some (buf_addr i))) h1), (s2, d2))) as Hloop.
  { intros d2. unfold iderw_loop. rewrite -> (bind_ok _ _ _ _ _ (ide_buf_run _ s2 d2 i b2 Hb2)). rw Ef2. rewrite -> (proj2 (Z.eqb_neq _ _) Hfl). cbn [negb].
    apply (sleep_run h1 p pr); [by apply rd_runs|apply idelock_ptable|by eapply ready_free]. }
  assert (NoDup (q ++ [i])) as Hnd2 by (apply NoDup_app; split_and!; [done|set_solver|by apply NoDup_singleton]).
  destruct q as [|j q]; cbn [app queue_links] in Hq2.
  - destruct Hq2 as [Eq _]. rewrite -> bool_decide_eq_true_2 by done. destruct (idestart_run (acq idelock h1) s2 d i b2 Hb2 Hok2 Hcmd) as (d2 & E2 & C2 & S2).
    rewrite -> (bind_ok _ _ _ _ _ E2). exists s2, d2. split_and!; [by apply Hloop| |done|done|done]. split; [|done|cbn [app]; by rewrite -> Hb2].
    cbn. split; [done|]. exists b2. split_and!; [done|done|]. unfold s2. cbn in *. rewrite -> Hb1 in Hb2. by injection Hb2 as <-.
  - destruct Hq2 as [Eq Hq2]. rewrite -> bool_decide_eq_false_2 by (rw Eq; set_solver). erewrite bind_ok; [|reflexivity].
    exists s2, d. split_and!; [by apply Hloop| |done|done|done]. split; [by split|done|]. rw Hcmd. cbn [app]. pose proof (Hoth' j) as Ej.
    destruct (bc_bufs s2 !! j) as [[]|], (bc_bufs s !! j) as [[]|]; try done. cbn in Ej. injection Ej as <- <- <- <- <- <- <- <-. done.
Qed.

(** The process that slept in [iderw], when its buffer is done. *)
Lemma iderw_resume_run p pr h s (d : D) i b :
  ready p pr h → bc_bufs s !! i = Some b → Z.land (b_flags b) (Z.lor B_VALID B_DIRTY) = B_VALID →
  iderw_resume i p (h_if h) (acq ptable_lock h, (s, d)) = Ok tt (settle (upd_proc p (set_p_chan None) h), (s, d)).
Proof.
  intros Hr Hb Hf. unfold iderw_resume. erewrite bind_ok; [|apply (sleep_resume_run h p pr); [by apply rd_runs|apply idelock_ptable|by eapply ready_free]].
  unfold iderw_loop. rewrite -> (bind_ok _ _ _ _ _ (ide_buf_run _ s d i b Hb)). rewrite -> (proj2 (Z.eqb_eq _ _) Hf). cbn [negb].
  apply release_ok; [by apply wf_set_procs; eapply ready_wf|]. cbn. by eapply ready_free.
Qed.

(** What the interrupt makes of the buffer of the request. *)
Definition served (d : D) (b : buf) : buf :=
  let b := if dirty b || dv_error c d then b else set_b_data (dv_sector c d (Z.land (b_dev b) 1) (b_blockno b)) b in
  set_b_flags (Z.land (Z.lor (b_flags b) B_VALID) (Z.lnot B_DIRTY)) b.

(** The read of the data in [ideintr]. *)
Lemma ideintr_data h s d d1 i b :
  dv_cmd c d = request b → completes d d1 → bc_bufs s !! i = Some b →
  ∃ d2, (if Z.land (b_flags b) B_DIRTY =? 0 then
         r ← idewait io polls true;
         if 0 <=? r then
           s ← getc;
           let '(data, d) := insl io 0x1f0 (BSIZE / 4) s.2 in
           modc (λ s, (s.1, d));;
           ide_mod i (set_b_data data)
         else mret tt
       else mret tt) (h, (s, d1)) =
    Ok tt (h, (set_bc_bufs (alter (λ b, if dirty b || dv_error c d1 then b else set_b_data (dv_sector c d1 (Z.land (b_dev b) 1) (b_blockno b)) b) i (bc_bufs s)) s, d2)) ∧
    dv_cmd c d2 = NoCmd ∧ dv_sector c d2 = dv_sector c d1.
Proof using All.
  intros Hcmd Hc Hb. unfold completes in Hc. rw Hcmd in Hc. unfold request, dirty in *.
  assert (∀ f, f b = b → set_bc_bufs (alter f i (bc_bufs s)) s = s) as Hid by (intros f Ef; rw (alter_id_at f i _ b); [done|done|by destruct s]).
  destruct (Z.land (b_flags b) B_DIRTY =? 0) eqn:Ed; cbn [negb] in *.
  - destruct Hc as [Hs Hc]. destruct (idewait_run true h s d1) as (d2 & E & S2 & _ & C2 & Er2). rewrite -> (bind_ok _ _ _ _ _ E). cbn [andb].
    destruct (dv_error c d1) eqn:Ee; cbn [Z.leb Z.compare].
    + exists d2. split_and!; [|congruence|done]. rw Hid; [by rw orb_true_r|done].
    + erewrite bind_ok; [|reflexivity]. cbn [fst snd]. pose proof (ide_data_in d2 (Z.land (b_dev b) 1) (b_blockno b)) as Hin. change (SECTOR_SIZE / 4) with (BSIZE / 4) in Hin.
      destruct (insl io 0x1f0 (BSIZE / 4) d2) as [data d3]. destruct Hin as (-> & S3 & C3); [congruence|congruence|]. exists d3. split_and!; [|done|congruence].
      erewrite bind_ok; [|reflexivity]. unfold ide_mod, modc. cbn [modify fst snd].
      rewrite -> (alter_ext_at (set_b_data _) (λ b, if negb (Z.land (b_flags b) B_DIRTY =? 0) || false then b else set_b_data (dv_sector c d1 (Z.land (b_dev b) 1) (b_blockno b)) b) i (bc_bufs s) b Hb); [done|].
      rw Ed. cbn. by rw S2.
  - destruct Hc as [Hc _]. exists d1. split_and!; [|done|done]. rw Hid; [by rw Ed|done].
Qed.

Lemma alter_alter_at (f g : buf → buf) i (B : list buf) : alter f i (alter g i B) = alter (f ∘ g) i B.
Proof. apply list_eq. intros j. destruct (decide (i = j)) as [->|Hne]; [rw !list_lookup_alter_eq; by destruct (B !! j)|by rewrite -> !list_lookup_alter_ne by done]. Qed.

(** [ideintr] on a request that the controller has done. *)
Lemma ideintr_run h s d d1 i q b :
  sched_ready h → h_locks h !! idelock = None → ide_inv s d (i :: q) → completes d d1 → bc_bufs s !! i = Some b →
  ∃ s' d2, ideintr io polls (h, (s, d1)) = Ok tt (wake_all (Some (buf_addr i)) (settle h), (s', d2)) ∧
    ide_inv s' d2 q ∧ dv_sector c d2 = dv_sector c d1 ∧ bc_bufs s' = <[i := served d1 b]> (bc_bufs s).
Proof using All.
  intros Hs Hlk Hinv Hc Hb. pose proof Hinv as [Hq Hnd Hcmd]. pose proof Hs as [Hwf Hpt Hlen]. cbn [queue_links] in Hq. destruct Hq as (Eq & b' & Hb' & Hok & Hq).
  rewrite -> Hb in Hb'. injection Hb' as <-. apply NoDup_cons in Hnd as [Hiq Hnd].
  unfold ideintr. rewrite -> (bind_ok _ _ _ _ _ (acquire_ok h _ idelock Hwf Hlk)). erewrite bind_ok; [|reflexivity]. cbn [fst snd]. rw Eq.
  rewrite -> (bind_ok _ _ _ _ _ (ide_buf_run _ s d1 i b Hb)). erewrite bind_ok; [|reflexivity]. cbn [fst snd]. set (s1 := set_bc_idequeue (b_qnext b) s).
  destruct (ideintr_data (acq idelock h) s1 d d1 i b) as (d2 & E2 & C2 & S2); [by rw Hcmd Hb|done|done|].
  rewrite -> (bind_ok _ _ _ _ _ E2). unfold ide_mod. erewrite bind_ok; [|reflexivity]. erewrite bind_ok; [|reflexivity]. cbn [fst snd bc_bufs set_bc_bufs].
  rw !alter_alter_at. erewrite (alter_insert_core _ i b); [|done]. fold (served d1 b). set (s2 := set_bc_bufs _ _).
  assert (bc_bufs s2 = <[i := served d1 b]> (bc_bufs s)) as EB.
  { unfold s2. cbn. f_equal. }
  erewrite bind_ok; [|apply wakeup_run, sched_ready_acq; [done|apply idelock_ptable]]. rewrite -> settle_acq by done. rw wake_all_acq. erewrite bind_ok; [|reflexivity]. cbn [fst snd].
  change (bc_idequeue s2) with (b_qnext b). assert (queue_links (bc_bufs s2) (b_qnext b) q) as Hq2.
  { eapply links_frame; [|exact Hq]. intros j Hj. rw EB. rewrite -> list_lookup_insert_ne by set_solver. done. }
  assert (∀ s' d', release idelock (acq idelock (wake_all (Some (buf_addr i)) h), (s', d')) = Ok tt (wake_all (Some (buf_addr i)) (settle h), (s' : bst, d' : D))) as Hrel.
  { intros s' d'. rw -wake_all_settle. apply release_ok; [by apply wf_set_procs|done]. }
  destruct q as [|j q].
  - cbn in Hq2. rw Hq2. cbn [bool_decide]. rewrite -> bool_decide_eq_true_2 by done. erewrite bind_ok; [|reflexivity]. exists s2, d2. split_and!; [by apply Hrel| |done|done]. by split.
  - pose proof Hq2 as (Ej & bj & Hj & Hokj & _). rw Ej. rewrite -> bool_decide_eq_false_2 by done.
    destruct (idestart_run (acq idelock (wake_all (Some (buf_addr i)) h)) s2 d2 j bj Hj Hokj C2) as (d3 & E3 & C3 & S3). rewrite -> (bind_ok _ _ _ _ _ E3).
    exists s2, d3. split_and!; [by apply Hrel| |by rw S3|done]. split; [done|done|]. by rw Hj.
Qed.
End spec.

(** ** Properties *)

(** C24: the disk driver serves its requests in order, each once. With the
    requests [q] queued and the command of the first in the controller, [iderw]
    on a locked buffer that is to be read or written puts it at the
    end of the queue, starts it if it is alone, and sleeps. When the controller
    has done its command, the interrupt handler takes the first buffer off
    the queue with the data of its sector (or the data written), valid and not
    dirty, wakes its process and starts the next request; the process then returns from
    [iderw]. A read that failed also leaves the buffer marked valid, with its
    old data. *)
Theorem ide_driver_correct {D : Type} (io : ports D) (c : controller D) (polls : nat) `{!IdeController io c} (s : bst) (d : D) (q : list nat) (i : nat) (b : buf) :
  (∀ d, (dv_busy c d < polls)%nat) → bc_bufs s !! i = Some b → request_ok b →
  (∀ p pr h, ready p pr h → ide_inv c s d q → b_lock b = MkSl true (p_pid pr) → i ∉ q → (b_dev b = 0 ∨ bc_havedisk1 s = true) → (length q ≤ NBUF)%nat →
    ∃ s' d', iderw io polls i (h, (s, d)) = Stop Switch (acq ptable_lock (upd_proc p (asleep (Some (buf_addr i))) (settle h)), (s', d')) ∧
      ide_inv c s' d' (q ++ [i]) ∧ dv_sector c d' = dv_sector c d ∧ (q ≠ [] → d' = d) ∧
      (∀ j, set_b_qnext None <$> bc_bufs s' !! j = set_b_qnext None <$> bc_bufs s !! j)) ∧
  (∀ h d1, sched_ready h → h_locks h !! idelock = None → ide_inv c s d (i :: q) → completes c d d1 →
    ∃ s' d2, ideintr io polls (h, (s, d1)) = Ok tt (wake_all (Some (buf_addr i)) (settle h), (s', d2)) ∧
      ide_inv c s' d2 q ∧ dv_sector c d2 = dv_sector c d1 ∧ bc_bufs s' = <[i := served c d1 b]> (bc_bufs s) ∧
      (if dirty b then dv_error c d1 = false → dv_sector c d1 (Z.land (b_dev b) 1) (b_blockno b) = b_data b
       else b_data (served c d1 b) = if dv_error c d1 then b_data b else dv_sector c d (Z.land (b_dev b) 1) (b_blockno b)) ∧
      ∀ p pr h', ready p pr h' →
        iderw_resume i p (h_if h') (acq ptable_lock h', (s', d2)) = Ok tt (settle (upd_proc p (set_p_chan None) h'), (s', d2))).
Proof.
  intros Hpolls Hb Hok. split.
  - intros p pr h Hr Hinv Hlk Hi Hdev Hlen. by apply (iderw_run io c polls Hpolls p pr h s d q i b).
  - intros h d1 Hs Hlk Hinv Hc. destruct (ideintr_run io c polls Hpolls h s d d1 i q b Hs Hlk Hinv Hc Hb) as (s' & d2 & E & Hinv' & HS & HB). exists s', d2. split_and!; try done.
    + pose proof (iq_cmd _ _ _ _ Hinv) as Hcmd. rw Hb in Hcmd. cbn in Hcmd. unfold completes in Hc. rw Hcmd in Hc. unfold request in Hc. unfold served. destruct (dirty b) eqn:Ed.
      * destruct Hc as [_ Hc]. intros He. by rw Hc He !Z.eqb_refl.
      * destruct Hc as [Hc _]. cbn [orb]. destruct (dv_error c d1); [done|]. cbn. by rw Hc.
    + intros p pr h' Hr. apply (iderw_resume_run p pr h' s' d2 i (served c d1 b)); [done|rw HB; rewrite -> list_lookup_insert_eq by (by eapply lookup_lt_Some); done|].
      apply Z.bits_inj'. intros k Hk. unfold served. cbn [b_flags set_b_flags]. rw !Z.land_spec !Z.lor_spec Z.lnot_spec //.
      destruct (Z.testbit B_VALID k) eqn:E1, (Z.testbit B_DIRTY k) eqn:E2; rw ?andb_false_r ?orb_true_r ?andb_true_r //=.
      assert (Z.testbit (Z.land B_VALID B_DIRTY) k = false) as E3 by (change (Z.land B_VALID B_DIRTY) with 0; apply Z.bits_0). rewrite -> Z.land_spec, E1, E2 in E3. done.
Qed.

(** ** A controller *)

(** A drive with one command at a time that is never busy. *)
Record simdev : Type := MkSim { sim_sectors : Z → Z → list Z; sim_regs : Z → Z; sim_cmd : ide_cmd; sim_error : bool }.

Definition sim_out (p v : Z) (d : simdev) : simdev :=
  if p =? 0x1f7 then
    let cmd := if v =? IDE_CMD_READ then ReadCmd (task_drive (sim_regs d)) (task_sector (sim_regs d))
               else WriteWait (task_drive (sim_regs d)) (task_sector (sim_regs d)) in
    MkSim (sim_sectors d) (sim_regs d) cmd false
  else if p =? 0x3f6 then d
  else MkSim (sim_sectors d) (λ q, if q =? p then v else sim_regs d q) (sim_cmd d) (sim_error d).

Definition sim_ports : ports simdev := MkPorts
  (λ _ d, (if sim_error d then 0x41 else 0x40, d))
  sim_out
  (λ _ _ d, match sim_cmd d with
            | ReadCmd drive sector => (sim_sectors d drive sector, MkSim (sim_sectors d) (sim_regs d) NoCmd (sim_error d))
            | _ => ([], d)
            end)
  (λ _ data d, match sim_cmd d with
               | WriteWait drive sector => MkSim (sim_sectors d) (sim_regs d) (WriteCmd drive sector data) (sim_error d)
               | _ => d
               end).
Definition sim_controller : controller simdev := MkController sim_sectors sim_regs sim_cmd (λ _, 0%nat) sim_error.

#[export] Instance sim_laws : IdeController sim_ports sim_controller.
Proof.
  split; intros d; cbn.
  - split_and!; try done; destruct (sim_error d); done.
  - done.
  - intros p v Hp. unfold sim_out. rewrite -> (proj2 (Z.eqb_neq p 0x1f7)), (proj2 (Z.eqb_neq p 0x3f6)) by lia. done.
  - done.
  - done.
  - intros drive sector data E _. by rw E.
  - intros drive sector E _. by rw E.
Qed.

(** ** On concrete data *)

Definition ex_request : buf := MkBuf 0 1 5 (MkSl true 7) 1 0 0 None (replicate 512 0).
Definition ex_driver : bst := MkBst [ex_request] 0 0 [] 0 None true [].
Definition ex_drive : simdev := MkSim (λ _ n, replicate 512 n) (λ _, 0) NoCmd false.

Lemma ide_driver_correct_witness :
  (∃ s' d' h', iderw sim_ports 1 0 (ex_machine, (ex_driver, ex_drive)) = Stop Switch (h', (s', d')) ∧ sim_cmd d' = ReadCmd 1 5) ∧
  (let s := set_bc_idequeue (Some 0%nat) ex_driver in
   let d := MkSim (λ _ n, replicate 512 n) (λ _, 0) (ReadCmd 1 5) false in
   ∃ s' d' h', ideintr sim_ports 1 (ex_machine, (s, d)) = Ok tt (h', (s', d')) ∧ b_data <$> bc_bufs s' !! 0%nat = Some (replicate 512 5)).
Proof.
  assert (request_ok ex_request) as Hok by (split_and!; cbn; unfold FSSIZE, SECTOR_SIZE; by (lia || done)). split.
  - destruct (ide_driver_correct sim_ports sim_controller 1 ex_driver ex_drive [] 0 ex_request) as [H _]; [intros d; cbn; lia|done|done|].
    destruct (H 0%nat _ ex_machine ex_machine_running) as (s' & d' & E & [_ _ Hc] & _ & _ & Hoth); [by split; [|constructor|]|done|by apply not_elem_of_nil|by right|cbn; lia|].
    exists s', d'. eexists. split; [exact E|]. cbn in Hc. specialize (Hoth 0%nat). cbn in Hoth. destruct (bc_bufs s' !! 0%nat) as [[]|]; [|done]. cbn in Hoth. by injection Hoth as -> -> -> -> -> -> -> ->.
  - set (s := set_bc_idequeue (Some 0%nat) ex_driver). set (d := MkSim _ _ _ _).
    destruct (ide_driver_correct sim_ports sim_controller 1 s d [] 0 ex_request) as [_ H]; [intros d'; cbn; lia|done|done|].
    destruct (H ex_machine d) as (s' & d' & E & _ & _ & EB & _); [apply (ru_ready _ _ _ (rd_runs _ _ _ ex_machine_running))|done| |done|].
    { split; [split; [done|]; by exists ex_request|apply NoDup_singleton|done]. }
    exists s', d'. eexists. split; [exact E|]. rw EB. by vm_compute.
Defined.
