(* ===== verification/Log.v ===== *)
(** * The log: log.c

    Transactions of disk blocks: [begin_op] and [end_op] around the system
    calls of the file system, [log_write] in place of [bwrite], the commit and
    the recovery after a crash. *)

From S2P Require Import Prelude Machine Spinlock Mem Kalloc Sched Sleeplock Ring Bytes Bio Cache.

(** ** State: [struct log] with its header [lh], over the buffer cache *)

Record logst : Type := MkLog {
  lg_b : bst;
  lg_start : Z;
  lg_size : Z;
  lg_outstanding : Z;
  lg_committing : bool;
  lg_dev : Z;
  lg_n : Z;
  lg_block : list Z
}.
Definition set_lg_b (v : bst) (r : logst) : logst :=
  MkLog v (lg_start r) (lg_size r) (lg_outstanding r) (lg_committing r)
    (lg_dev r) (lg_n r) (lg_block r).
Definition set_lg_start (v : Z) (r : logst) : logst :=
  MkLog (lg_b r) v (lg_size r) (lg_outstanding r) (lg_committing r) (lg_dev r)
    (lg_n r) (lg_block r).
Definition set_lg_size (v : Z) (r : logst) : logst :=
  MkLog (lg_b r) (lg_start r) v (lg_outstanding r) (lg_committing r) (lg_dev
    r) (lg_n r) (lg_block r).
Definition set_lg_outstanding (v : Z) (r : logst) : logst :=
  MkLog (lg_b r) (lg_start r) (lg_size r) v (lg_committing r) (lg_dev r) (lg_n
    r) (lg_block r).
Definition set_lg_committing (v : bool) (r : logst) : logst :=
  MkLog (lg_b r) (lg_start r) (lg_size r) (lg_outstanding r) v (lg_dev r)
    (lg_n r) (lg_block r).
Definition set_lg_dev (v : Z) (r : logst) : logst :=
  MkLog (lg_b r) (lg_start r) (lg_size r) (lg_outstanding r) (lg_committing r)
    v (lg_n r) (lg_block r).
Definition set_lg_n (v : Z) (r : logst) : logst :=
  MkLog (lg_b r) (lg_start r) (lg_size r) (lg_outstanding r) (lg_committing r)
    (lg_dev r) v (lg_block r).
Definition set_lg_block (v : list Z) (r : logst) : logst :=
  MkLog (lg_b r) (lg_start r) (lg_size r) (lg_outstanding r) (lg_committing r)
    (lg_dev r) (lg_n r) v.
#[export] Hint Unfold set_lg_b set_lg_start set_lg_size set_lg_outstanding set_lg_committing set_lg_dev set_lg_n set_lg_block : setters.

Definition lg_bL : lens logst bst := Lens lg_b set_lg_b.

(** [&log], and [&log.lock]. *)
Definition log_addr : objaddr := ("log"%string, 0).
Definition log_lock : objaddr := ("log.lock"%string, 0).

(** [struct superblock] of fs.h. *)
Record superblock : Type := MkSb {
  sb_size : Z;
  sb_nblocks : Z;
  sb_ninodes : Z;
  sb_nlog : Z;
  sb_logstart : Z;
  sb_inodestart : Z;
  sb_bmapstart : Z
}.

Definition sb_of_bytes (d : list Z) : superblock :=
  MkSb (get32 d 0) (get32 d 4) (get32 d 8) (get32 d 12) (get32 d 16) (get32 d 20) (get32 d 24).

(** [sizeof(struct logheader)]. *)
Definition SIZEOF_LOGHEADER : Z := 4 + 4 * LOGSIZE.

(** [log.lh.block[i]], and [log.lh.block[i] = v]. *)
Definition lh_block (i : Z) : K logst Z :=
  s ← getc;
  match lg_block s !! Z.to_nat i with
  | Some v => mret v
  | None => fault "log.lh.block out of bounds"
  end.
Definition set_lh_block (i v : Z) : K logst unit :=
  s ← getc;
  if (0 <=? i) && (i <? Z.of_nat (length (lg_block s)))
  then modc (set_lg_block (<[Z.to_nat i := v]> (lg_block s)))
  else fault "log.lh.block out of bounds".

(** ** Operations *)

Section log.
Context (iderw : nat → K bst unit).

(** The data of a buffer. *)
Definition buf_data (i : nat) : K bst (list Z) := b ← buf_at i; mret (b_data b).
Definition set_data (i : nat) (d : list Z) : K bst unit := modbuf i (set_b_data d).

Abbreviation lbread dev blk := (zoom lg_bL (bread iderw dev blk)).
Abbreviation lbwrite i := (zoom lg_bL (bwrite iderw i)).
Abbreviation lbrelse i := (zoom lg_bL (brelse i)).

(** [readsb] of fs.c. *)
Definition readsb (dev : Z) : K bst superblock :=
  bp ← bread iderw dev 1;
  d ← buf_data bp;
  brelse bp;;
  mret (sb_of_bytes d).

(** The body of the loop of [install_trans] for [tail]. *)
Definition install_body (tail : nat) : K logst unit :=
  s ← getc;
  lbuf ← lbread (lg_dev s) (u32 (lg_start s + Z.of_nat tail + 1));
  bno ← lh_block (Z.of_nat tail);
  dbuf ← lbread (lg_dev s) (u32 bno);
  d ← zoom lg_bL (buf_data lbuf);
  zoom lg_bL (set_data dbuf d);;
  lbwrite dbuf;;
  lbrelse lbuf;;
  lbrelse dbuf.

Definition install_trans : K logst unit :=
  s ← getc;
  mfor (seq 0 (Z.to_nat (lg_n s))) install_body.

Definition read_head : K logst unit :=
  s ← getc;
  buf ← lbread (lg_dev s) (u32 (lg_start s));
  d ← zoom lg_bL (buf_data buf);
  modc (set_lg_n (s32 (get32 d 0)));;
  s ← getc;
  mfor (seq 0 (Z.to_nat (lg_n s)))
    (λ i, set_lh_block (Z.of_nat i) (s32 (get32 d (4 + 4 * Z.of_nat i))));;
  lbrelse buf.

(** [hb->n = log.lh.n; for(...) hb->block[i] = log.lh.block[i];] into the data
    of a block. *)
Definition head_data (n : Z) (block : list Z) (d : list Z) : list Z :=
  put_words (put32 d 0 n) 4 (take (Z.to_nat n) block).

Definition write_head : K logst unit :=
  s ← getc;
  buf ← lbread (lg_dev s) (u32 (lg_start s));
  d ← zoom lg_bL (buf_data buf);
  if Z.of_nat (length (lg_block s)) <? lg_n s then fault "log.lh.block out of bounds" else
  zoom lg_bL (set_data buf (head_data (lg_n s) (lg_block s) d));;
  lbwrite buf;;
  lbrelse buf.

Definition recover_from_log : K logst unit :=
  read_head;;
  install_trans;;
  modc (set_lg_n 0);;
  write_head.

Definition initlog (dev : Z) : K logst unit :=
  if BSIZE <=? SIZEOF_LOGHEADER then panic "initlog: too big logheader" else
  initlock log_lock;;
  sb ← zoom lg_bL (readsb dev);
  modc (set_lg_start (s32 (sb_logstart sb)));;
  modc (set_lg_size (s32 (sb_nlog sb)));;
  modc (set_lg_dev dev);;
  recover_from_log.

(** [while(1) ...] of [begin_op]: after [sleep] the loop continues in
    [begin_op_resume]. *)
Definition begin_op_loop : K logst unit :=
  s ← getc;
  if lg_committing s then sleep (Some log_addr) (Some log_lock)
  else if LOGSIZE <? lg_n s + (lg_outstanding s + 1) * MAXOPBLOCKS then
    sleep (Some log_addr) (Some log_lock)
  else
    modc (set_lg_outstanding (lg_outstanding s + 1));;
    release log_lock.

Definition begin_op : K logst unit :=
  acquire log_lock;;
  begin_op_loop.

Definition begin_op_resume (p : nat) (intena : bool) : K logst unit :=
  sleep_resume p log_lock intena;;
  begin_op_loop.

(** The body of the loop of [write_log] for [tail]. *)
Definition write_log_body (tail : nat) : K logst unit :=
  s ← getc;
  to ← lbread (lg_dev s) (u32 (lg_start s + Z.of_nat tail + 1));
  bno ← lh_block (Z.of_nat tail);
  from ← lbread (lg_dev s) (u32 bno);
  d ← zoom lg_bL (buf_data from);
  zoom lg_bL (set_data to d);;
  lbwrite to;;
  lbrelse from;;
  lbrelse to.

Definition write_log : K logst unit :=
  s ← getc;
  mfor (seq 0 (Z.to_nat (lg_n s))) write_log_body.

Definition commit : K logst unit :=
  s ← getc;
  when (0 <? lg_n s)
    (write_log;;
     write_head;;
     install_trans;;
     modc (set_lg_n 0);;
     write_head).

(** [end_op] up to the [release] before the commit; its result is
    [do_commit]. *)
Definition end_op_begin : K logst bool :=
  acquire log_lock;;
  modc (λ s, set_lg_outstanding (lg_outstanding s - 1) s);;
  s ← getc;
  if lg_committing s then panic "log.committing" else
  do_commit ← (if lg_outstanding s =? 0 then
                 modc (set_lg_committing true);;
                 mret true
               else
                 wakeup (Some log_addr);;
                 mret false);
  release log_lock;;
  mret do_commit.

(** The critical section after the commit. *)
Definition end_op_finish : K logst unit :=
  acquire log_lock;;
  modc (set_lg_committing false);;
  wakeup (Some log_addr);;
  release log_lock.

Definition end_op : K logst unit :=
  do_commit ← end_op_begin;
  when do_commit (commit;; end_op_finish).
End log.

(** [for (i = 0; i < log.lh.n; i++) if (log.lh.block[i] == b->blockno)
    break;]: the index of the block in the header, or [n]. *)
Fixpoint absorb_index (blocks : list Z) (blockno : Z) : nat :=
  match blocks with
  | [] => 0
  | x :: l => if u32 x =? blockno then 0%nat else S (absorb_index l blockno)
  end.

Definition log_write (bi : nat) : K logst unit :=
  s ← getc;
  if (LOGSIZE <=? lg_n s) || (lg_size s - 1 <=? lg_n s) then panic "too big a transaction" else
  if lg_outstanding s <? 1 then panic "log_write outside of trans" else
  acquire log_lock;;
  s ← getc;
  b ← zoom lg_bL (buf_at bi);
  let i := Z.of_nat (absorb_index (take (Z.to_nat (lg_n s)) (lg_block s)) (b_blockno b)) in
  set_lh_block i (s32 (b_blockno b));;
  when (i =? lg_n s) (modc (λ s, set_lg_n (lg_n s + 1) s));;
  zoom lg_bL (modbuf bi (λ b, set_b_flags (Z.lor (b_flags b) B_DIRTY) b));;
  release log_lock.


(** ** The writes of a commit

    A disk after the writes [ws]; the log blocks, the header and the home
    blocks that [commit] writes, for the logged blocks [bnos] with pinned
    contents [P]. *)

Definition apply_writes (D : list (list Z)) (ws : list (nat * list Z)) : list (list Z) :=
  foldl (λ D w, <[w.1 := w.2]> D) D ws.

Definition log_writes (start : Z) (P : gmap Z (list Z)) (bnos : list Z) : list (nat * list Z) :=
  imap (λ k bno, (Z.to_nat (start + Z.of_nat k + 1), default [] (P !! bno))) bnos.
Definition home_writes (start : Z) (D : list (list Z)) (bnos : list Z) : list (nat * list Z) :=
  imap (λ k bno, (Z.to_nat bno, default [] (D !! Z.to_nat (start + Z.of_nat k + 1)))) bnos.
Definition head_write (start n : Z) (bnos : list Z) (D : list (list Z)) : nat * list Z :=
  (Z.to_nat start, head_data n bnos (default [] (D !! Z.to_nat start))).

(** All writes of [commit], in order: the log blocks, the header (the commit
    point), the home blocks, the empty header. *)
Definition commit_writes (start n : Z) (block : list Z) (D : list (list Z))
    (P : gmap Z (list Z)) (bnos : list Z) : list (nat * list Z) :=
  let lw := log_writes start P bnos in
  let D1 := apply_writes D lw in
  let hd := head_write start n block D1 in
  let D2 := apply_writes D1 [hd] in
  let hw := home_writes start D2 bnos in
  lw ++ [hd] ++ hw ++ [head_write start 0 block (apply_writes D2 hw)].

(** The log of a transaction: the blocks of the header are pinned, are distinct
    and lie outside the log area, and the transaction fits. *)
Record log_layout (s : logst) (D : list (list Z)) (bnos : list Z) : Prop := {
  ll_dev : lg_dev s = 1;
  ll_start : 0 < lg_start s;
  ll_size : lg_start s + lg_size s ≤ Z.of_nat (length D) < 2 ^ 31;
  ll_n : lg_n s = Z.of_nat (length bnos);
  ll_fits : lg_n s ≤ LOGSIZE ∧ lg_n s ≤ lg_size s - 1 ∧ lg_n s < Z.of_nat NBUF;
  ll_block : length (lg_block s) = Z.to_nat LOGSIZE;
  ll_bnos : take (length bnos) (lg_block s) = bnos;
  ll_home : Forall (λ bno, 0 ≤ bno < Z.of_nat (length D) ∧
              ¬ (lg_start s ≤ bno < lg_start s + lg_size s)) bnos;
  ll_nodup : NoDup bnos
}.

(** ** Lemmas *)

Lemma zoom_lg {A} (m : K bst A) h s a h' b' :
  m (h, lg_b s) = Ok a (h', b') → zoom lg_bL m (h, s) = Ok a (h', set_lg_b b' s).
Proof. intros H. unfold zoom. cbn. by rw H. Qed.

Lemma set_set_lg_b b b' s : set_lg_b b (set_lg_b b' s) = set_lg_b b s.
Proof. done. Qed.

Lemma buf_data_run (pid : Z) h s D P H i x :
  cview pid s D P H → H !! i = Some x → buf_data i (h, s) = Ok (hd_data x) (h, s).
Proof.
  intros Hv Hx. destruct (cv_held _ _ _ _ _ Hv i x Hx) as (b & [Hi _ Hb _ _] & Hd & _).
  destruct (core_some _ _ _ Hi) as (b0 & Hb0 & ->). unfold buf_data.
  by rw (bind_ok _ _ _ _ _ (buf_at_run s i b0 h Hb0)) -Hd.
Qed.

Lemma lh_block_run h s k bno :
  lg_block s !! k = Some bno → lh_block (Z.of_nat k) (h, s) = Ok bno (h, s).
Proof. intros Hk. unfold lh_block. rw bind_run /= Nat2Z.id Hk. done. Qed.

(** *** Disks under writes *)

Lemma length_apply ws : ∀ D, length (apply_writes D ws) = length D.
Proof. induction ws as [|w ws IH]; intros D; cbn; [done|]. by rw IH length_insert. Qed.

Lemma apply_snoc D ws w : apply_writes D (ws ++ [w]) = <[w.1 := w.2]> (apply_writes D ws).
Proof. unfold apply_writes. by rw foldl_app. Qed.

Lemma apply_app D ws ws' : apply_writes D (ws ++ ws') = apply_writes (apply_writes D ws) ws'.
Proof. unfold apply_writes. by rw foldl_app. Qed.

Lemma apply_other n ws : ∀ D, n ∉ ws.*1 → apply_writes D ws !! n = D !! n.
Proof.
  induction ws as [|w ws IH]; intros D Hn; cbn in *; [done|]. rw IH; [set_solver|].
  rw list_lookup_insert_ne //. set_solver.
Qed.

Lemma apply_lookup n d ws : ∀ D,
  NoDup ws.*1 → (n, d) ∈ ws → (n < length D)%nat → apply_writes D ws !! n = Some d.
Proof.
  induction ws as [|[m e] ws IH]; intros D Hnd Hin Hlt; cbn in *; [set_solver|].
  apply NoDup_cons in Hnd as [Hm Hnd]. apply elem_of_cons in Hin as [[= <- <-]|Hin].
  - rw apply_other //. by apply list_lookup_insert_eq.
  - apply IH; [done..|]. by rw length_insert.
Qed.

Lemma disk_ok_apply D ws :
  disk_ok D → Forall (λ w, length w.2 = Z.to_nat BSIZE ∧ bytes w.2) ws → disk_ok (apply_writes D ws).
Proof.
  revert D. induction ws as [|w ws IH]; intros D HD Hw; cbn; [done|].
  apply Forall_cons in Hw as [Hw Hws]. apply IH; [|done]. by apply Forall_insert.
Qed.

(** *** What the view says about the blocks *)

Lemma cview_disk_ok {pid} s D P H : cview pid s D P H → disk_ok D.
Proof. intros Hv. destruct (cv_inv _ _ _ _ _ Hv) as [l Hc]. rw -(cv_disk _ _ _ _ _ Hv). apply Hc. Qed.

Lemma disk_ok_lookup D n d : disk_ok D → D !! n = Some d → length d = Z.to_nat BSIZE ∧ bytes d.
Proof. intros HD Hn. unfold disk_ok in HD. rewrite -> Forall_lookup in HD. by eapply HD. Qed.

Lemma cview_pinned_ok {pid} s D P H n d :
  cview pid s D P H → P !! n = Some d → length d = Z.to_nat BSIZE ∧ bytes d.
Proof.
  intros Hv Hn. destruct (cv_inv _ _ _ _ _ Hv) as [l Hc].
  apply (cv_pinned _ _ _ _ _ Hv) in Hn as (i & b & Hi & _ & _ & _ & <-).
  pose proof (ci_bufs _ _ Hc) as HB. rewrite -> Forall_lookup in HB. apply (bo_data _ _ (HB i b Hi)).
Qed.

Lemma lookup_size_bound (P : gmap Z (list Z)) bnos :
  NoDup bnos → (∀ b, is_Some (P !! b) ↔ b ∈ bnos) → size P = length bnos.
Proof.
  intros Hnd HP. rw -size_dom. rw -(size_list_to_set (C := gset Z)) //. f_equal.
  apply set_eq. intros b. rw elem_of_dom HP elem_of_list_to_set. done.
Qed.

(** The pinned blocks without the blocks [bs]. *)
Definition unpin (bs : list Z) (P : gmap Z (list Z)) : gmap Z (list Z) :=
  filter (λ kv, kv.1 ∉ bs) P.

Lemma lookup_unpin bs P b : unpin bs P !! b = if decide (b ∈ bs) then None else P !! b.
Proof.
  unfold unpin. rw map_lookup_filter. destruct (P !! b) as [d|]; cbn; [|by case_decide].
  repeat (case_decide || case_guard); cbn in *; try done; tauto.
Qed.

Lemma unpin_snoc bs b P : unpin (bs ++ [b]) P = delete b (unpin bs P).
Proof.
  apply map_eq. intros c. rw lookup_delete !lookup_unpin. repeat case_decide; set_solver.
Qed.

Lemma unpin_nil P : unpin [] P = P.
Proof. apply map_eq. intros c. rw lookup_unpin. rewrite -> decide_False by set_solver. done. Qed.

Lemma size_unpin bs P : (size (unpin bs P) ≤ size P)%nat.
Proof. apply map_subseteq_size, map_filter_subseteq. Qed.

(** Run the next operation of the cache. *)
Ltac lg_step E := erewrite bind_ok; [|apply zoom_lg; exact E]; rw ?set_set_lg_b.

Section steps.
Context (iderw : nat → K bst unit) `{HBD : !BlockDev iderw} (p : nat) (pr : proc).
Abbreviation pid := (p_pid pr).
Implicit Types (D : list (list Z)) (P : gmap Z (list Z)).

(** One round of [write_log]: the pinned contents of block [bno] go into the
    log block. *)
Lemma write_log_body_run h s D P k bno d d1 :
  ready p pr h → cview pid (lg_b s) D P ∅ → lg_dev s = 1 →
  lg_block s !! k = Some bno → 0 ≤ bno < 2 ^ 32 → P !! bno = Some d →
  let blk := lg_start s + Z.of_nat k + 1 in
  0 ≤ blk < 2 ^ 32 → P !! blk = None → D !! Z.to_nat blk = Some d1 →
  is_Some (D !! Z.to_nat bno) → length d = Z.to_nat BSIZE → bytes d → (size P < NBUF)%nat →
  ∃ h' b', write_log_body iderw k (h, s) = Ok tt (h', set_lg_b b' s) ∧ ready p pr h' ∧
    cview pid b' (<[Z.to_nat blk := d]> D) P ∅ ∧
    bc_hist b' = bc_hist (lg_b s) ++ [(Z.to_nat blk, d)].
Proof using HBD.
  intros Hr Hv Hdev Hk Hbno HP blk Hblk HPb HD1 [d2 HD2] Hlen Hby Hsz. unfold write_log_body.
  rw (bind_ok _ _ _ s (h, s)) // Hdev. fold blk. rewrite -> (wrapu_small 32 blk) by lia.
  assert (blk ≠ bno) as Hne by congruence.
  destruct (cv_bread iderw p pr h _ D P ∅ blk d1 Hr Hv) as (i1 & h1 & b1 & E1 & Hr1 & _ & Hv1 & Hh1);
    [lia|done|by intros ??; rw lookup_empty|right; rw map_size_empty; lia|].
  rw HPb delete_id // in Hv1. cbn in Hv1. lg_step E1.
  rw (bind_ok _ _ _ _ _ (lh_block_run h1 (set_lg_b b1 s) k bno Hk)).
  rewrite -> (wrapu_small 32 bno) by lia.
  destruct (cv_bread iderw p pr h1 b1 D P _ bno d2 Hr1 Hv1) as (i2 & h2 & b2 & E2 & Hr2 & Hi12 & Hv2 & Hh2);
    [lia|done| |by left|].
  { intros i x. rw lookup_insert_Some. intros [[_ <-]|[_ ?]]; [done|done]. }
  assert (i2 ≠ i1) as Hi21 by (intros ->; by rw lookup_insert_eq in Hi12).
  rw HP in Hv2. cbn in Hv2. lg_step E2.
  lg_step (buf_data_run pid h2 b2 _ _ _ i2 _ Hv2 ltac:(apply lookup_insert_eq)). cbn [hd_data].
  pose proof (cv_set_data pr b2 _ _ _ i1 _ d Hv2 ltac:(rw lookup_insert_ne //; apply lookup_insert_eq) Hlen Hby)
    as Hv3. cbn [hd_blk hd_dirty] in Hv3. rw insert_insert_ne // insert_insert_eq in Hv3.
  lg_step (modbuf_run i1 (set_b_data d) h2 b2).
  destruct (cv_bwrite iderw p pr h2 _ _ _ _ i1 _ Hr2 Hv3 ltac:(rw lookup_insert_ne //; apply lookup_insert_eq))
    as (h4 & b4 & E4 & Hr4 & Hv4 & Hh4). cbn [hd_blk hd_data] in Hv4, Hh4.
  rw insert_insert_ne // insert_insert_eq in Hv4. lg_step E4.
  destruct (cv_brelse p pr h4 _ _ _ _ i2 _ Hr4 Hv4 ltac:(apply lookup_insert_eq))
    as (h5 & b5 & E5 & Hr5 & Hv5 & Hh5); [done|]. cbn [hd_blk hd_data hd_dirty] in Hv5.
  rw insert_delete_eq insert_id // delete_insert_id // in Hv5; [by rw lookup_insert_ne|].
  lg_step E5.
  destruct (cv_brelse p pr h5 _ _ _ _ i1 _ Hr5 Hv5 ltac:(apply lookup_insert_eq))
    as (h6 & b6 & E6 & Hr6 & Hv6 & Hh6).
  { intros _. apply list_lookup_insert_eq. by eapply lookup_lt_Some. }
  cbn [hd_blk hd_data hd_dirty] in Hv6. rw delete_insert_id // in Hv6.
  exists h6, b6. split_and!; [exact (zoom_lg _ h5 (set_lg_b b5 s) _ _ _ E6)|done|done|]. by rw Hh6 Hh5 Hh4 /= Hh2 Hh1.
Qed.

(** One round of [install_trans]: the log block goes home, and its block is no
    longer pinned. *)
Lemma install_body_run h s D P k bno d d2 :
  ready p pr h → cview pid (lg_b s) D P ∅ → lg_dev s = 1 →
  lg_block s !! k = Some bno → 0 ≤ bno < 2 ^ 32 → D !! Z.to_nat bno = Some d2 →
  let blk := lg_start s + Z.of_nat k + 1 in
  0 ≤ blk < 2 ^ 32 → P !! blk = None → D !! Z.to_nat blk = Some d → blk ≠ bno →
  length d = Z.to_nat BSIZE → bytes d → (size P < NBUF)%nat →
  is_Some (P !! bno) ∨ (size P + 1 < NBUF)%nat →
  ∃ h' b', install_body iderw k (h, s) = Ok tt (h', set_lg_b b' s) ∧ ready p pr h' ∧
    cview pid b' (<[Z.to_nat bno := d]> D) (delete bno P) ∅ ∧
    bc_hist b' = bc_hist (lg_b s) ++ [(Z.to_nat bno, d)].
Proof using HBD.
  intros Hr Hv Hdev Hk Hbno HD2 blk Hblk HPb HD1 Hne Hlen Hby Hsz Hroom. unfold install_body.
  rw (bind_ok _ _ _ s (h, s)) // Hdev. fold blk. rewrite -> (wrapu_small 32 blk) by lia.
  destruct (cv_bread iderw p pr h _ D P ∅ blk d Hr Hv) as (i1 & h1 & b1 & E1 & Hr1 & _ & Hv1 & Hh1);
    [lia|done|by intros ??; rw lookup_empty|right; rw map_size_empty; lia|].
  rw HPb delete_id // in Hv1. cbn in Hv1. lg_step E1.
  rw (bind_ok _ _ _ _ _ (lh_block_run h1 (set_lg_b b1 s) k bno Hk)).
  rewrite -> (wrapu_small 32 bno) by lia.
  destruct (cv_bread iderw p pr h1 b1 D P _ bno d2 Hr1 Hv1) as (i2 & h2 & b2 & E2 & Hr2 & Hi12 & Hv2 & Hh2);
    [lia|done| |rw map_size_insert_None // map_size_empty; by destruct Hroom; [left|right; lia]|].
  { intros i x. rw lookup_insert_Some. intros [[_ <-]|[_ ?]]; [done|done]. }
  assert (i2 ≠ i1) as Hi21 by (intros ->; by rw lookup_insert_eq in Hi12).
  lg_step E2.
  lg_step (buf_data_run pid h2 b2 _ _ _ i1 _ Hv2 ltac:(rw lookup_insert_ne //; apply lookup_insert_eq)).
  cbn [hd_data].
  pose proof (cv_set_data pr b2 _ _ _ i2 _ d Hv2 ltac:(apply lookup_insert_eq) Hlen Hby) as Hv3.
  cbn [hd_blk hd_dirty] in Hv3. rw insert_insert_eq in Hv3. lg_step (modbuf_run i2 (set_b_data d) h2 b2).
  destruct (cv_bwrite iderw p pr h2 _ _ _ _ i2 _ Hr2 Hv3 ltac:(apply lookup_insert_eq))
    as (h4 & b4 & E4 & Hr4 & Hv4 & Hh4). cbn [hd_blk hd_data] in Hv4, Hh4.
  rw insert_insert_eq in Hv4. lg_step E4.
  assert (Z.to_nat bno ≠ Z.to_nat blk) by lia.
  destruct (cv_brelse p pr h4 _ _ _ _ i1 _ Hr4 Hv4 ltac:(rw lookup_insert_ne //; apply lookup_insert_eq))
    as (h5 & b5 & E5 & Hr5 & Hv5 & Hh5); [intros _; by rw list_lookup_insert_ne|].
  cbn [hd_blk hd_data hd_dirty] in Hv5. rw delete_insert_ne // delete_insert_id // in Hv5. lg_step E5.
  destruct (cv_brelse p pr h5 _ _ _ _ i2 _ Hr5 Hv5 ltac:(apply lookup_insert_eq))
    as (h6 & b6 & E6 & Hr6 & Hv6 & Hh6).
  { intros _. apply list_lookup_insert_eq. by eapply lookup_lt_Some. }
  cbn [hd_blk hd_data hd_dirty] in Hv6. rw delete_insert_id // in Hv6.
  exists h6, b6. split_and!; [exact (zoom_lg _ h5 (set_lg_b b5 s) _ _ _ E6)|done|done|].
  by rw Hh6 Hh5 Hh4 /= Hh2 Hh1.
Qed.

(** The header, with its [n] block numbers, is written to its block. *)
Lemma length_head_data n bnos d :
  0 ≤ n ≤ LOGSIZE → length d = Z.to_nat BSIZE → length (head_data n bnos d) = Z.to_nat BSIZE.
Proof.
  intros Hn Hd. unfold head_data, LOGSIZE, MAXOPBLOCKS, BSIZE in *.
  rewrite -> length_put_words; rw ?length_put32 ?length_take; lia.
Qed.

Lemma bytes_head_data n bnos d : bytes d → bytes (head_data n bnos d).
Proof. intros Hd. by apply bytes_put_words, bytes_put32. Qed.

Lemma write_head_run h s D P d :
  ready p pr h → cview pid (lg_b s) D P ∅ → lg_dev s = 1 →
  0 ≤ lg_start s < 2 ^ 32 → P !! lg_start s = None → D !! Z.to_nat (lg_start s) = Some d →
  length d = Z.to_nat BSIZE → bytes d → (size P < NBUF)%nat →
  0 ≤ lg_n s ≤ LOGSIZE → length (lg_block s) = Z.to_nat LOGSIZE →
  let d' := head_data (lg_n s) (lg_block s) d in
  ∃ h' b', write_head iderw (h, s) = Ok tt (h', set_lg_b b' s) ∧ ready p pr h' ∧
    cview pid b' (<[Z.to_nat (lg_start s) := d']> D) P ∅ ∧
    bc_hist b' = bc_hist (lg_b s) ++ [(Z.to_nat (lg_start s), d')].
Proof using HBD.
  intros Hr Hv Hdev Hst HPn HD1 Hlen Hby Hsz Hn Hbl d'. unfold write_head.
  rw (bind_ok _ _ _ s (h, s)) // Hdev. rewrite -> (wrapu_small 32 (lg_start s)) by lia.
  destruct (cv_bread iderw p pr h _ D P ∅ (lg_start s) d Hr Hv) as (i & h1 & b1 & E1 & Hr1 & _ & Hv1 & Hh1);
    [lia|done|by intros ??; rw lookup_empty|right; rw map_size_empty; lia|].
  rw HPn delete_id // in Hv1. cbn in Hv1. lg_step E1.
  lg_step (buf_data_run pid h1 b1 _ _ _ i _ Hv1 ltac:(apply lookup_insert_eq)). cbn [hd_data].
  rewrite -> (proj2 (Z.ltb_ge _ _)) by (rw Hbl; unfold LOGSIZE, MAXOPBLOCKS in *; lia). fold d'.
  pose proof (cv_set_data pr b1 _ _ _ i _ d' Hv1 ltac:(apply lookup_insert_eq)
    ltac:(by apply length_head_data) ltac:(by apply bytes_head_data)) as Hv3.
  cbn [hd_blk hd_dirty] in Hv3. rw insert_insert_eq in Hv3. lg_step (modbuf_run i (set_b_data d') h1 b1).
  destruct (cv_bwrite iderw p pr h1 _ _ _ _ i _ Hr1 Hv3 ltac:(apply lookup_insert_eq))
    as (h4 & b4 & E4 & Hr4 & Hv4 & Hh4). cbn [hd_blk hd_data] in Hv4, Hh4.
  rw insert_insert_eq in Hv4. lg_step E4.
  destruct (cv_brelse p pr h4 _ _ _ _ i _ Hr4 Hv4 ltac:(apply lookup_insert_eq))
    as (h5 & b5 & E5 & Hr5 & Hv5 & Hh5).
  { intros _. apply list_lookup_insert_eq. by eapply lookup_lt_Some. }
  cbn [hd_blk hd_data hd_dirty] in Hv5. rw delete_insert_id // in Hv5.
  exists h5, b5. split_and!; [exact (zoom_lg _ h4 (set_lg_b b4 s) _ _ _ E5)|done|done|].
  by rw Hh5 Hh4 /= Hh1.
Qed.

(** ** [write_log] *)

Lemma log_writes_lookup start P bnos k :
  log_writes start P bnos !! k =
  (λ bno, (Z.to_nat (start + Z.of_nat k + 1), default [] (P !! bno))) <$> bnos !! k.
Proof. apply list_lookup_imap. Qed.

Lemma layout_block s D bnos k bno :
  log_layout s D bnos → bnos !! k = Some bno → lg_block s !! k = Some bno.
Proof.
  intros HL Hk. assert (k < length bnos)%nat by (by eapply lookup_lt_Some).
  rw -(ll_bnos _ _ _ HL) in Hk. by rewrite -> lookup_take_lt in Hk by done.
Qed.

Lemma layout_ranges s D bnos k bno :
  log_layout s D bnos → bnos !! k = Some bno →
  0 ≤ bno < 2 ^ 31 ∧ is_Some (D !! Z.to_nat bno) ∧ ¬ (lg_start s ≤ bno < lg_start s + lg_size s) ∧
  0 ≤ lg_start s + Z.of_nat k + 1 < 2 ^ 31 ∧ lg_start s + Z.of_nat k + 1 < lg_start s + lg_size s ∧
  is_Some (D !! Z.to_nat (lg_start s + Z.of_nat k + 1)).
Proof.
  intros HL Hk. assert (k < length bnos)%nat by (by eapply lookup_lt_Some). destruct HL.
  rewrite -> Forall_lookup in ll_home0. destruct (ll_home0 k bno Hk).
  split_and!; try lia; apply lookup_lt_is_Some; lia.
Qed.

Lemma write_log_run h s D P bnos :
  ready p pr h → cview pid (lg_b s) D P ∅ → log_layout s D bnos →
  (∀ b, is_Some (P !! b) ↔ b ∈ bnos) →
  ∃ h' b', write_log iderw (h, s) = Ok tt (h', set_lg_b b' s) ∧ ready p pr h' ∧
    cview pid b' (apply_writes D (log_writes (lg_start s) P bnos)) P ∅ ∧
    bc_hist b' = bc_hist (lg_b s) ++ log_writes (lg_start s) P bnos.
Proof using HBD.
  intros Hr Hv HL HP. unfold write_log. rw (bind_ok _ _ _ s (h, s)) // (ll_n _ _ _ HL) Nat2Z.id.
  set (ws := log_writes (lg_start s) P bnos).
  assert (length ws = length bnos) as Hws by apply length_imap.
  destruct (mfor_rule (λ l st, ∃ h' b', st = (h', set_lg_b b' s) ∧ ready p pr h' ∧
      cview pid b' (apply_writes D (take (length l) ws)) P ∅ ∧
      bc_hist b' = bc_hist (lg_b s) ++ take (length l) ws)
    (write_log_body iderw) (seq 0 (length bnos)) [] (h, s)) as (st & E & h' & b' & -> & Hr' & Hv' & Hh').
  - exists h, (lg_b s). cbn. rw app_nil_r. split_and!; try done. by destruct s.
  - intros l1 k l2 st Hsplit (h1 & b1 & -> & Hr1 & Hv1 & Hh1).
    assert (k = length l1 ∧ k < length bnos)%nat as [-> Hk].
    { assert (seq 0 (length bnos) !! length l1 = Some k) as [-> ?]%lookup_seq; [|lia].
      cbn in Hsplit. by rw Hsplit list_lookup_middle. }
    apply lookup_lt_is_Some in Hk as [bno Hbno].
    destruct (layout_ranges s D bnos (length l1) bno HL Hbno) as (R1 & R2 & R3 & R4 & R5 & R6).
    assert (∃ d, P !! bno = Some d) as [d Hd] by (apply HP; by eapply list_elem_of_lookup_2).
    assert (P !! (lg_start s + Z.of_nat (length l1) + 1) = None) as HPn.
    { apply eq_None_not_Some. rw HP. intros Hin%list_elem_of_lookup. destruct Hin as [j Hj].
      destruct (layout_ranges s D bnos j _ HL Hj). lia. }
    assert (ws !! length l1 = Some (Z.to_nat (lg_start s + Z.of_nat (length l1) + 1), d)) as Hw
      by (unfold ws; rw log_writes_lookup Hbno /= Hd //).
    destruct (cview_pinned_ok _ _ _ _ _ _ Hv Hd) as [Hlen Hby].
    assert (is_Some (apply_writes D (take (length l1) ws) !! Z.to_nat (lg_start s + Z.of_nat (length l1) + 1)))
      as [d1 Hd1] by (apply lookup_lt_is_Some; rw length_apply; by apply lookup_lt_is_Some).
    destruct (write_log_body_run h1 (set_lg_b b1 s) _ P (length l1) bno d d1 Hr1 Hv1)
      as (h2 & b2 & E2 & Hr2 & Hv2 & Hh2); try done; try lia.
    + apply (ll_dev _ _ _ HL).
    + exact (layout_block s D bnos _ _ HL Hbno).
    + cbn. lia.
    + apply lookup_lt_is_Some. rw length_apply. by apply lookup_lt_is_Some.
    + rw (lookup_size_bound P bnos (ll_nodup _ _ _ HL) HP). pose proof (ll_fits _ _ _ HL).
      pose proof (ll_n _ _ _ HL). lia.
    + rw set_set_lg_b in E2. exists (h2, set_lg_b b2 s). split; [done|]. exists h2, b2.
      rewrite -> length_app, Nat.add_1_r, (take_S_r _ _ _ Hw). split_and!; [done..| |].
      * by rw apply_snoc.
      * rw Hh2 /= Hh1 app_assoc //.
  - exists h', b'. rw /= length_seq in Hv' Hh'. rewrite -> firstn_all2 in Hv', Hh' by lia. by split_and!.
Qed.

(** ** [install_trans] *)

Lemma home_writes_lookup start D bnos k :
  home_writes start D bnos !! k =
  (λ bno, (Z.to_nat bno, default [] (D !! Z.to_nat (start + Z.of_nat k + 1)))) <$> bnos !! k.
Proof. apply list_lookup_imap. Qed.

(** The home blocks do not touch the log area. *)
Lemma home_writes_outside s D D' bnos ws n :
  log_layout s D bnos → ws ⊆ home_writes (lg_start s) D' bnos →
  lg_start s ≤ n < lg_start s + lg_size s → Z.to_nat n ∉ ws.*1.
Proof.
  intros HL Hws Hn Hin. apply list_elem_of_fmap in Hin as ([m d] & E & Hin). cbn in E.
  apply Hws, list_elem_of_lookup in Hin as [k Hk]. rw home_writes_lookup in Hk.
  destruct (bnos !! k) as [bno|] eqn:Hb; [|done]. injection Hk as <- <-.
  destruct (layout_ranges s D bnos k bno HL Hb) as (R1 & _ & R3 & _).
  pose proof (ll_start _ _ _ HL). lia.
Qed.

Lemma install_trans_run h s D P bnos :
  ready p pr h → cview pid (lg_b s) D P ∅ → log_layout s D bnos →
  (∀ b, is_Some (P !! b) → b ∈ bnos) → (∀ b, b ∈ bnos → is_Some (P !! b)) ∨ P = ∅ →
  ∃ h' b', install_trans iderw (h, s) = Ok tt (h', set_lg_b b' s) ∧ ready p pr h' ∧
    cview pid b' (apply_writes D (home_writes (lg_start s) D bnos)) ∅ ∅ ∧
    bc_hist b' = bc_hist (lg_b s) ++ home_writes (lg_start s) D bnos.
Proof using HBD.
  intros Hr Hv HL HP HP'. unfold install_trans. rw (bind_ok _ _ _ s (h, s)) // (ll_n _ _ _ HL) Nat2Z.id.
  set (ws := home_writes (lg_start s) D bnos).
  assert (length ws = length bnos) as Hws by apply length_imap.
  assert (size P < NBUF)%nat as HPsz.
  { destruct HP' as [HP'| ->]; [|rw map_size_empty; change NBUF with 30%nat; lia].
    rw (lookup_size_bound P bnos (ll_nodup _ _ _ HL)); [intros b; split; auto|].
    pose proof (ll_fits _ _ _ HL). pose proof (ll_n _ _ _ HL). lia. }
  destruct (mfor_rule (λ l st, ∃ h' b', st = (h', set_lg_b b' s) ∧ ready p pr h' ∧
      cview pid b' (apply_writes D (take (length l) ws)) (unpin (take (length l) bnos) P) ∅ ∧
      bc_hist b' = bc_hist (lg_b s) ++ take (length l) ws)
    (install_body iderw) (seq 0 (length bnos)) [] (h, s)) as (st & E & h' & b' & -> & Hr' & Hv' & Hh').
  - exists h, (lg_b s). cbn. rw app_nil_r unpin_nil. split_and!; try done. by destruct s.
  - intros l1 k l2 st Hsplit (h1 & b1 & -> & Hr1 & Hv1 & Hh1).
    assert (k = length l1 ∧ k < length bnos)%nat as [-> Hk].
    { assert (seq 0 (length bnos) !! length l1 = Some k) as [-> ?]%lookup_seq; [|lia].
      cbn in Hsplit. by rw Hsplit list_lookup_middle. }
    apply lookup_lt_is_Some in Hk as [bno Hbno].
    destruct (layout_ranges s D bnos (length l1) bno HL Hbno) as (R1 & R2 & R3 & R4 & R5 & [d Hd]).
    assert (ws !! length l1 = Some (Z.to_nat bno, d)) as Hw
      by (unfold ws; rw home_writes_lookup Hbno /= Hd //).
    assert (bno ∉ take (length l1) bnos) as Hfresh.
    { intros (j & Hj1 & Hj2)%elem_of_take.
      pose proof (NoDup_lookup _ _ _ _ (ll_nodup _ _ _ HL) Hj1 Hbno). lia. }
    assert (apply_writes D (take (length l1) ws) !! Z.to_nat (lg_start s + Z.of_nat (length l1) + 1) = Some d) as Hd1.
    { rw apply_other //. eapply home_writes_outside; [done|apply subseteq_take|lia]. }
    assert (is_Some (apply_writes D (take (length l1) ws) !! Z.to_nat bno)) as [d2 Hd2]
      by (apply lookup_lt_is_Some; rw length_apply; by apply lookup_lt_is_Some).
    destruct (disk_ok_lookup _ _ _ (cview_disk_ok _ _ _ _ Hv1) Hd1) as [Hlen Hby].
    pose proof (size_unpin (take (length l1) bnos) P) as Hsz.
    destruct (install_body_run h1 (set_lg_b b1 s) _ _ (length l1) bno d d2 Hr1 Hv1)
      as (h2 & b2 & E2 & Hr2 & Hv2 & Hh2); try done; try lia.
    + apply (ll_dev _ _ _ HL).
    + exact (layout_block s D bnos _ _ HL Hbno).
    + cbn. lia.
    + rw lookup_unpin. case_decide; [done|]. apply eq_None_not_Some. intros Hin%HP.
      apply list_elem_of_lookup in Hin as [j Hj]. destruct (layout_ranges s D bnos j _ HL Hj).
      cbn in *. lia.
    + cbn. lia.
    + destruct HP' as [HP'| ->].
      * left. rw lookup_unpin decide_False //. apply HP'. by eapply list_elem_of_lookup_2.
      * right. unfold unpin. rw map_filter_empty map_size_empty. change NBUF with 30%nat. lia.
    + rw set_set_lg_b in E2. exists (h2, set_lg_b b2 s). split; [done|]. exists h2, b2.
      rewrite -> length_app, Nat.add_1_r, (take_S_r _ _ _ Hw), (take_S_r _ _ _ Hbno).
      split_and!; [done..| |].
      * by rw apply_snoc unpin_snoc.
      * rw Hh2 /= Hh1 app_assoc //.
  - exists h', b'. rw /= length_seq in Hv' Hh'. rewrite -> (firstn_all2 ws) in Hv', Hh' by lia. rewrite -> (firstn_all2 bnos) in Hv' by lia.
    assert (unpin bnos P = ∅) as HE; [|rewrite -> HE in Hv'; by split_and!].
    apply map_eq. intros b. rw lookup_unpin lookup_empty. case_decide as Hb; [done|].
    apply eq_None_not_Some. intros Hin%HP. done.
Qed.

(** ** [commit] *)

Lemma layout_length s s' D D' bnos :
  log_layout s D bnos → length D' = length D → lg_dev s' = lg_dev s → lg_start s' = lg_start s →
  lg_size s' = lg_size s → lg_n s' = lg_n s → lg_block s' = lg_block s → log_layout s' D' bnos.
Proof. intros [] HD E1 E2 E3 E4 E5. split; rw ?HD ?E1 ?E2 ?E3 ?E4 ?E5 //. Qed.

Lemma layout_start s D P bnos :
  log_layout s D bnos → (∀ b, is_Some (P !! b) → b ∈ bnos) →
  P !! lg_start s = None ∧ 0 ≤ lg_start s < 2 ^ 32 ∧ is_Some (D !! Z.to_nat (lg_start s)) ∧
  0 ≤ lg_n s ≤ LOGSIZE.
Proof.
  intros HL HP. pose proof HL as []. split_and!; try lia.
  - apply eq_None_not_Some. intros Hin%HP%list_elem_of_lookup. destruct Hin as [j Hj].
    destruct (layout_ranges s D bnos j _ HL Hj). lia.
  - apply lookup_lt_is_Some. lia.
Qed.

(** [write_head] as a write of the trace. *)
Lemma write_head_trace h s D P bnos n :
  ready p pr h → cview pid (lg_b s) D P ∅ → log_layout s D bnos →
  (∀ b, is_Some (P !! b) → b ∈ bnos) → (size P < NBUF)%nat → 0 ≤ n ≤ LOGSIZE →
  ∃ h' b', write_head iderw (h, set_lg_n n s) = Ok tt (h', set_lg_n n (set_lg_b b' s)) ∧ ready p pr h' ∧
    cview pid b' (apply_writes D [head_write (lg_start s) n (lg_block s) D]) P ∅ ∧
    bc_hist b' = bc_hist (lg_b s) ++ [head_write (lg_start s) n (lg_block s) D].
Proof using HBD.
  intros Hr Hv HL HP Hsz Hn. destruct (layout_start s D P bnos HL HP) as (HPn & Hst & [d Hd] & _).
  destruct (disk_ok_lookup _ _ _ (cview_disk_ok _ _ _ _ Hv) Hd) as [Hlen Hby].
  destruct (write_head_run h (set_lg_n n s) D P d) as (h' & b' & E & Hr' & Hv' & Hh'); try done.
  - apply (ll_dev _ _ _ HL).
  - apply (ll_block _ _ _ HL).
  - exists h', b'. unfold head_write. rw Hd. by split_and!.
Qed.

Lemma commit_run h s D P bnos :
  ready p pr h → cview pid (lg_b s) D P ∅ → log_layout s D bnos →
  (∀ b, is_Some (P !! b) ↔ b ∈ bnos) → 0 < lg_n s →
  let ws := commit_writes (lg_start s) (lg_n s) (lg_block s) D P bnos in
  ∃ h' b', commit iderw (h, s) = Ok tt (h', set_lg_n 0 (set_lg_b b' s)) ∧ ready p pr h' ∧
    cview pid b' (apply_writes D ws) ∅ ∅ ∧ bc_hist b' = bc_hist (lg_b s) ++ ws.
Proof using HBD.
  intros Hr Hv HL HP Hn ws. unfold commit. rw (bind_ok _ _ _ s (h, s)) //.
  rewrite -> (proj2 (Z.ltb_lt _ _) Hn). cbn [when].
  assert (∀ b, is_Some (P !! b) → b ∈ bnos) as HP1 by (intros b; apply HP).
  assert (size P < NBUF)%nat as Hsz.
  { rw (lookup_size_bound P bnos (ll_nodup _ _ _ HL) HP). pose proof (ll_fits _ _ _ HL).
    pose proof (ll_n _ _ _ HL). lia. }
  destruct (layout_start s D P bnos HL HP1) as (_ & _ & _ & Hn').
  destruct (write_log_run h s D P bnos Hr Hv HL HP) as (h1 & b1 & E1 & Hr1 & Hv1 & Hh1).
  rw (bind_ok _ _ _ _ _ E1). set (D1 := apply_writes D _) in Hv1.
  assert (log_layout (set_lg_b b1 s) D1 bnos) as HL1 by (eapply layout_length; [done|apply length_apply|done..]).
  destruct (write_head_trace h1 (set_lg_b b1 s) D1 P bnos (lg_n s)) as (h2 & b2 & E2 & Hr2 & Hv2 & Hh2); [done..|].
  assert (set_lg_n (lg_n s) (set_lg_b b1 s) = set_lg_b b1 s) as En by (by destruct s).
  rw En in E2. rw (bind_ok _ _ _ _ _ E2). cbn [lg_start lg_block set_lg_b] in Hv2, Hh2.
  set (D2 := apply_writes D1 _) in Hv2. rw set_set_lg_b in E2 |- *.
  assert (set_lg_n (lg_n s) (set_lg_b b2 s) = set_lg_b b2 s) as En2 by (by destruct s). rw En2.
  assert (log_layout (set_lg_b b2 s) D2 bnos) as HL2.
  { eapply layout_length; [apply HL1|apply length_apply|done..]. }
  destruct (install_trans_run h2 (set_lg_b b2 s) D2 P bnos) as (h3 & b3 & E3 & Hr3 & Hv3 & Hh3);
    [done..|left; intros b; apply HP|].
  rw (bind_ok _ _ _ _ _ E3) set_set_lg_b. cbn [lg_start set_lg_b] in Hv3, Hh3.
  rw (bind_ok _ _ _ tt (h3, set_lg_n 0 (set_lg_b b3 s))) //. set (D3 := apply_writes D2 _) in Hv3.
  assert (log_layout (set_lg_b b3 s) D3 bnos) as HL3.
  { eapply layout_length; [apply HL2|apply length_apply|done..]. }
  destruct (write_head_trace h3 (set_lg_b b3 s) D3 ∅ bnos 0) as (h4 & b4 & E4 & Hr4 & Hv4 & Hh4); [exact Hr3|exact Hv3|exact HL3|..].
  { intros b. rw lookup_empty. by intros []. }
  { rw map_size_empty. change NBUF with 30%nat. lia. }
  { lia. }
  rw set_set_lg_b in E4. exists h4, b4. split_and!; [done..| |].
  - unfold ws, commit_writes. cbv zeta. rw !apply_app. exact Hv4.
  - cbn [lg_b set_lg_b lg_start lg_block] in *. unfold ws, commit_writes. cbv zeta.
    rw Hh4 Hh3 Hh2 Hh1 -!app_assoc. done.
Qed.
End steps.
