(* ===== verification/Recovery.v ===== *)
(** * Crashes and recovery: the atomicity of log.c

    [recover_from_log] on the disk a crash leaves, and the theorem that a
    crash at any write of [commit], or of a recovery, leaves either all or none
    of the transaction. A write of one block is atomic, as log.c assumes. *)

From S2P Require Import Prelude Machine Spinlock Mem Kalloc Sched Sleeplock Ring Bytes Bio Cache Log.

(** ** The header on the disk, and the writes of a recovery *)

Definition header_n (d : list Z) : Z := s32 (get32 d 0).
Definition header_blocks (d : list Z) : list Z := s32 <$> get_words d 4 (Z.to_nat (header_n d)).

Definition recover_writes (start : Z) (D : list (list Z)) : list (nat * list Z) :=
  let bnos := header_blocks (default [] (D !! Z.to_nat start)) in
  let hw := home_writes start D bnos in
  hw ++ [head_write start 0 [] (apply_writes D hw)].

(** The home disk after a transaction that logged [bnos] with contents [P]. *)
Definition new_home (D : list (list Z)) (P : gmap Z (list Z)) (bnos : list Z) : list (list Z) :=
  apply_writes D ((λ b, (Z.to_nat b, default [] (P !! b))) <$> bnos).

(** ** Disks a crash can leave *)

Record log_area (start size : Z) (len : nat) (bnos : list Z) : Prop := {
  la_start : 0 < start;
  la_size : start + size ≤ Z.of_nat len < 2 ^ 31;
  la_fits : Z.of_nat (length bnos) ≤ LOGSIZE ∧ Z.of_nat (length bnos) ≤ size - 1 ∧ (length bnos < NBUF)%nat;
  la_home : Forall (λ bno, 0 ≤ bno < Z.of_nat len ∧ ¬ (start ≤ bno < start + size)) bnos;
  la_nodup : NoDup bnos
}.

(** The header says [bnos]. *)
Definition has_header (start : Z) (X : list (list Z)) (bnos : list Z) : Prop :=
  ∃ d, X !! Z.to_nat start = Some d ∧ length d = Z.to_nat BSIZE ∧
    header_n d = Z.of_nat (length bnos) ∧ header_blocks d = bnos.

(** Outside the log and [bnos], [X] is [V]. *)
Definition homes_agree (start size : Z) (X V : list (list Z)) (bnos : list Z) : Prop :=
  length X = length V ∧
  ∀ b, 0 ≤ b → ¬ (start ≤ b < start + size) → b ∉ bnos → X !! Z.to_nat b = V !! Z.to_nat b.

(** A disk that recovers to the home blocks of [V]: the log holds, for the
    blocks of the header, their contents in [V]. *)
Record redo (start size : Z) (X V : list (list Z)) (bnos : list Z) : Prop := {
  rd_area : log_area start size (length X) bnos;
  rd_hdr : has_header start X bnos;
  rd_log : ∀ k bno, bnos !! k = Some bno → X !! Z.to_nat (start + Z.of_nat k + 1) = V !! Z.to_nat bno;
  rd_home : homes_agree start size X V bnos
}.

(** ** Lemmas *)

Lemma layout_area s D bnos : log_layout s D bnos → log_area (lg_start s) (lg_size s) (length D) bnos.
Proof. intros []. split; try done. lia. Qed.

Lemma area_bno start size len bnos k bno :
  log_area start size len bnos → bnos !! k = Some bno →
  0 ≤ bno < Z.of_nat len ∧ ¬ (start ≤ bno < start + size) ∧ start + Z.of_nat k + 1 < start + size.
Proof.
  intros [] Hk. rewrite -> Forall_lookup in la_home0. destruct (la_home0 k bno Hk).
  apply lookup_lt_Some in Hk. lia.
Qed.

Lemma area_nil start size len bnos : log_area start size len bnos → log_area start size len [].
Proof. intros []. split; cbn; try done; try lia. constructor. Qed.

Lemma s32_of_u32 x : 0 ≤ x < 2 ^ 31 → s32 (u32 x) = x.
Proof. intros Hx. rewrite -> (wrapu_small 32) by lia. apply (wraps_small 32); lia. Qed.

(** *** The header *)

Lemma header_n_head n block d :
  0 ≤ n ≤ LOGSIZE → length d = Z.to_nat BSIZE → header_n (head_data n block d) = n.
Proof.
  intros Hn Hd. unfold header_n, head_data, LOGSIZE, MAXOPBLOCKS, BSIZE in *.
  rewrite -> get32_put_words_ne by (rw ?length_put32 ?length_take; lia).
  rewrite -> get32_put32_eq by lia. apply s32_of_u32. lia.
Qed.

Lemma header_blocks_head n block d bnos :
  n = Z.of_nat (length bnos) → n ≤ LOGSIZE → length d = Z.to_nat BSIZE →
  take (length bnos) block = bnos → Forall (λ b, 0 ≤ b < 2 ^ 31) bnos →
  header_blocks (head_data n block d) = bnos.
Proof.
  intros -> Hn Hd Hbl Hr. unfold header_blocks. rewrite -> header_n_head by (done || lia).
  unfold head_data. rw Nat2Z.id Hbl. unfold LOGSIZE, MAXOPBLOCKS, BSIZE in *.
  rewrite -> get_words_put_words by (rw ?length_put32; lia).
  rw -list_fmap_compose -{2}(list_fmap_id bnos). apply list_fmap_ext. intros i x Hx.
  apply s32_of_u32. rewrite -> Forall_lookup in Hr. by apply (Hr i).
Qed.

Lemma head_write_0 start block D : head_write start 0 block D = head_write start 0 [] D.
Proof. done. Qed.

Lemma has_header_write start n block X bnos :
  n = Z.of_nat (length bnos) → n ≤ LOGSIZE → take (length bnos) block = bnos →
  Forall (λ b, 0 ≤ b < 2 ^ 31) bnos →
  (∃ d, X !! Z.to_nat start = Some d ∧ length d = Z.to_nat BSIZE) →
  has_header start (apply_writes X [head_write start n block X]) bnos.
Proof.
  intros Hn Hle Hbl Hr (d & Hd & Hlen). unfold head_write. cbn. rw Hd /=.
  exists (head_data n block d). split_and!.
  - apply list_lookup_insert_eq. by eapply lookup_lt_Some.
  - apply length_head_data; [lia|done].
  - rewrite -> header_n_head; [done|lia|done].
  - by eapply header_blocks_head.
Qed.

Lemma has_header_len start X bnos :
  has_header start X bnos → ∃ d, X !! Z.to_nat start = Some d ∧ length d = Z.to_nat BSIZE.
Proof. intros (d & ? & ? & _). by exists d. Qed.

Lemma area_numbers start size len bnos :
  log_area start size len bnos → Forall (λ b, 0 ≤ b < 2 ^ 31) bnos.
Proof. intros [? ? ? Hh ?]. eapply Forall_impl; [apply Hh|]. cbn. lia. Qed.

(** *** Installing the log *)

Lemma home_key start D bnos ws m :
  ws ⊆ home_writes start D bnos → m ∈ ws.*1 → ∃ bno, bno ∈ bnos ∧ m = Z.to_nat bno.
Proof.
  intros Hws Hin. apply list_elem_of_fmap in Hin as ([m' d] & -> & Hin).
  apply Hws, list_elem_of_lookup in Hin as [k Hk]. rw home_writes_lookup in Hk.
  destruct (bnos !! k) as [bno|] eqn:Hb; [|done]. injection Hk as <- <-. exists bno.
  split; [by eapply list_elem_of_lookup_2|done].
Qed.

Section install.
Context (start size : Z) (bnos : list Z).

(** A prefix of the home writes leaves the log area and the other home blocks. *)
Lemma home_prefix_other X ws b :
  log_area start size (length X) bnos → ws ⊆ home_writes start X bnos → 0 ≤ b →
  b ∉ bnos → apply_writes X ws !! Z.to_nat b = X !! Z.to_nat b.
Proof.
  intros HA Hws Hb Hn. apply apply_other. intros (bno & Hin & E)%(home_key start X bnos); [|done].
  apply list_elem_of_lookup in Hin as [k Hk]. destruct (area_bno _ _ _ _ _ _ HA Hk).
  assert (b = bno) as -> by lia. apply Hn. by eapply list_elem_of_lookup_2.
Qed.

Lemma log_not_home len b : log_area start size len bnos → start ≤ b < start + size → b ∉ bnos.
Proof.
  intros HA Hb Hin. apply list_elem_of_lookup in Hin as [k Hk].
  destruct (area_bno _ _ _ _ _ _ HA Hk). lia.
Qed.

Lemma redo_prefix X V ws :
  redo start size X V bnos → ws ⊆ home_writes start X bnos → redo start size (apply_writes X ws) V bnos.
Proof.
  intros [HA (d & Hd & Hh) Hl [Hlen Hho]] Hws. pose proof (la_start _ _ _ _ HA). pose proof (la_fits _ _ _ _ HA).
  split.
  - by rw length_apply.
  - exists d. split; [|done]. rewrite -> (home_prefix_other X ws start); [done..|lia|].
    apply (log_not_home _ _ HA). lia.
  - intros k bno Hk. rw -(Hl k bno Hk). destruct (area_bno _ _ _ _ _ _ HA Hk).
    apply home_prefix_other; [done..|lia|]. apply (log_not_home _ _ HA). lia.
  - split; [by rw length_apply|]. intros b Hb Hnl Hnb. rewrite -> (home_prefix_other X ws b); auto.
Qed.

Lemma NoDup_home_keys X : log_area start size (length X) bnos → NoDup (home_writes start X bnos).*1.
Proof.
  intros HA. apply NoDup_alt. intros i j m Hi Hj. rw !list_lookup_fmap !home_writes_lookup in Hi Hj.
  destruct (bnos !! i) as [a|] eqn:Ha; [|done]. destruct (bnos !! j) as [c|] eqn:Hc; [|done].
  injection Hi as <-. injection Hj as Hj. apply (NoDup_lookup bnos i j a (la_nodup _ _ _ _ HA)); [done|].
  destruct (area_bno _ _ _ _ _ _ HA Ha), (area_bno _ _ _ _ _ _ HA Hc).
  assert (a = c) as -> by lia. done.
Qed.

(** All home writes: the home blocks are those of [V]. *)
Lemma redo_installed X V :
  redo start size X V bnos → homes_agree start size (apply_writes X (home_writes start X bnos)) V [].
Proof.
  intros [HA Hh Hl [Hlen Hho]]. split; [by rw length_apply|]. intros b Hb Hnl _.
  destruct (decide (b ∈ bnos)) as [Hin|Hin].
  - apply list_elem_of_lookup in Hin as [k Hk]. rw -(Hl k b Hk).
    destruct (area_bno _ _ _ _ _ _ HA Hk) as (R1 & R2 & R3). pose proof (la_size _ _ _ _ HA). pose proof (la_start _ _ _ _ HA).
    assert (is_Some (X !! Z.to_nat (start + Z.of_nat k + 1))) as [d Hd] by (apply lookup_lt_is_Some; lia).
    rw Hd. apply apply_lookup; [by apply NoDup_home_keys| |lia].
    apply list_elem_of_lookup. exists k. by rw home_writes_lookup Hk /= Hd.
  - rewrite -> (home_prefix_other X _ b); auto.
Qed.

(** The header is cleared: nothing is left to redo. *)
Lemma redo_clear Y V block cs :
  log_area start size (length Y) cs → has_header start Y cs → homes_agree start size Y V [] →
  redo start size (apply_writes Y [head_write start 0 block Y]) V [].
Proof.
  intros HA (d & Hd & Hlen & _) [HlenV Hho]. pose proof (la_start _ _ _ _ HA).
  pose proof (la_fits _ _ _ _ HA). split; [| |done|].
  - rw length_apply. by eapply area_nil.
  - apply (has_header_write start 0 block Y []); try done. by exists d.
  - split; [by rw length_apply|]. intros b Hb Hnl Hnb. cbn [apply_writes foldl head_write fst snd].
    rw list_lookup_insert_ne; [lia|]. by apply Hho.
Qed.

Lemma redo_header X V : redo start size X V bnos →
  header_blocks (default [] (X !! Z.to_nat start)) = bnos.
Proof. intros [_ (d & -> & _ & _ & Hh) _ _]. done. Qed.

(** Every prefix of the writes of a recovery still recovers to [V], and the
    whole of them leaves an empty log. *)
Lemma recover_prefix X V j :
  redo start size X V bnos →
  ∃ cs, redo start size (apply_writes X (take j (recover_writes start X))) V cs ∧
    (length (recover_writes start X) ≤ j → cs = [])%nat.
Proof.
  intros HR. unfold recover_writes. rw (redo_header X V HR). set (hw := home_writes start X bnos).
  destruct (decide (j ≤ length hw)%nat) as [Hj|Hj].
  - exists bnos. rewrite -> take_app_le by done. split; [apply redo_prefix; [done|apply subseteq_take]|].
    rw length_app /=. lia.
  - exists []. rewrite -> firstn_all2 by (rw length_app /=; lia). split; [|done].
    pose proof (redo_prefix X V hw HR ltac:(done)) as [HA Hh _ _].
    rw apply_app. eapply redo_clear; [done..|]. by apply redo_installed.
Qed.

Lemma recover_full X V :
  redo start size X V bnos → redo start size (apply_writes X (recover_writes start X)) V [].
Proof.
  intros HR. destruct (recover_prefix X V (length (recover_writes start X)) HR) as (cs & Hcs & Hnil).
  specialize (Hnil ltac:(done)) as ->. by rewrite -> firstn_all in Hcs.
Qed.
End install.

(** *** The writes of [commit] *)

Lemma new_home_in s D P bnos b d :
  log_layout s D bnos → b ∈ bnos → P !! b = Some d → new_home D P bnos !! Z.to_nat b = Some d.
Proof.
  intros HL Hin Hd. pose proof (layout_area _ _ _ HL) as HA. apply apply_lookup.
  - rw -list_fmap_compose. apply NoDup_alt. intros i j m Hi Hj. rw !list_lookup_fmap in Hi Hj.
    destruct (bnos !! i) as [a|] eqn:Ha; [|done]. destruct (bnos !! j) as [c|] eqn:Hc; [|done].
    cbn in Hi, Hj. injection Hi as <-. injection Hj as Hj.
    apply (NoDup_lookup bnos i j a (la_nodup _ _ _ _ HA)); [done|].
    destruct (area_bno _ _ _ _ _ _ HA Ha), (area_bno _ _ _ _ _ _ HA Hc). assert (a = c) as -> by lia. done.
  - apply list_elem_of_fmap. exists b. by rw Hd.
  - apply list_elem_of_lookup in Hin as [k Hk]. destruct (area_bno _ _ _ _ _ _ HA Hk). lia.
Qed.

Lemma new_home_other s D P bnos b :
  log_layout s D bnos → 0 ≤ b → b ∉ bnos → new_home D P bnos !! Z.to_nat b = D !! Z.to_nat b.
Proof.
  intros HL Hb Hin. apply apply_other. intros Hk. apply list_elem_of_fmap in Hk as (x & E & Hx).
  apply list_elem_of_fmap in Hx as (c & -> & Hc). cbn in E. pose proof (layout_area _ _ _ HL) as HA.
  pose proof Hc as Hc'. apply list_elem_of_lookup in Hc' as [k Hk]. destruct (area_bno _ _ _ _ _ _ HA Hk).
  assert (b = c) as -> by lia. done.
Qed.

Section commit.
Context (s : logst) (D : list (list Z)) (P : gmap Z (list Z)) (bnos : list Z).
Context (HL : log_layout s D bnos) (HP : ∀ b, is_Some (P !! b) ↔ b ∈ bnos).
Abbreviation start := (lg_start s).
Abbreviation size := (lg_size s).
Context (HD : redo start size D D []).

Lemma log_writes_key ws n :
  ws ⊆ log_writes start P bnos → n ∈ ws.*1 →
  ∃ k, (k < length bnos)%nat ∧ n = Z.to_nat (start + Z.of_nat k + 1).
Proof using Type.
  intros Hws Hin. apply list_elem_of_fmap in Hin as ([m d] & -> & Hin).
  apply Hws, list_elem_of_lookup in Hin as [k Hk]. rw log_writes_lookup in Hk.
  destruct (bnos !! k) as [bno|] eqn:Hb; [|done]. injection Hk as <- <-. exists k.
  split; [by eapply lookup_lt_Some|done].
Qed.

(** The log blocks leave the header and the home blocks. *)
Lemma log_prefix_home ws b :
  ws ⊆ log_writes start P bnos → 0 ≤ b → b = start ∨ ¬ (start ≤ b < start + size) →
  apply_writes D ws !! Z.to_nat b = D !! Z.to_nat b.
Proof using HL.
  intros Hws Hb Hout. apply apply_other. intros (k & Hk & E)%log_writes_key; [|done].
  destruct HL. lia.
Qed.

Lemma log_prefix_redo ws :
  ws ⊆ log_writes start P bnos → redo start size (apply_writes D ws) D [].
Proof using HL HD.
  intros Hws. destruct HD as [HA (d & Hd & Hh) _ _]. pose proof (ll_start _ _ _ HL). split; [| |done|].
  - by rw length_apply.
  - exists d. split; [|done]. rewrite -> (log_prefix_home ws start); [done..|lia|by left].
  - split; [by rw length_apply|]. intros b Hb Hnl _. apply log_prefix_home; [done..|by right].
Qed.

Lemma log_writes_done k bno :
  bnos !! k = Some bno →
  apply_writes D (log_writes start P bnos) !! Z.to_nat (start + Z.of_nat k + 1) = P !! bno.
Proof using HL HP.
  intros Hk. assert (is_Some (P !! bno)) as [d Hd] by (apply HP; by eapply list_elem_of_lookup_2).
  rw Hd. destruct (layout_ranges _ _ _ _ _ HL Hk) as (_ & _ & _ & R4 & R5 & R6).
  pose proof (ll_start _ _ _ HL). apply apply_lookup.
  - apply NoDup_alt. intros i j m Hi Hj. rw !list_lookup_fmap !log_writes_lookup in Hi Hj.
    destruct (bnos !! i) eqn:Ha; [|done]. destruct (bnos !! j) eqn:Hc; [|done].
    injection Hi as <-. injection Hj as Hj. lia.
  - apply list_elem_of_lookup. exists k. by rw log_writes_lookup Hk /= Hd.
  - by apply lookup_lt_is_Some.
Qed.

Abbreviation D1 := (apply_writes D (log_writes start P bnos)).
Abbreviation D2 := (apply_writes D1 [head_write start (lg_n s) (lg_block s) D1]).

(** The commit point: with the header on the disk the log redoes the
    transaction. *)
Lemma header_redo : redo start size D2 (new_home D P bnos) bnos.
Proof using HL HP HD.
  pose proof (log_prefix_redo (log_writes start P bnos) ltac:(done)) as [_ Hh _ _].
  pose proof (layout_area _ _ _ HL) as HA. pose proof (ll_start _ _ _ HL).
  assert (∀ b, 0 ≤ b → b ≠ start → D2 !! Z.to_nat b = D1 !! Z.to_nat b) as HD2.
  { intros b Hb Hne. cbn [apply_writes foldl head_write fst snd]. rw list_lookup_insert_ne //. lia. }
  split.
  - by rw !length_apply.
  - destruct HL. apply has_header_write; [done|lia|done|by eapply area_numbers|by eapply has_header_len].
  - intros k bno Hk. assert (is_Some (P !! bno)) as [d Hd] by (apply HP; by eapply list_elem_of_lookup_2).
    rw HD2; [lia|lia|]. rw (log_writes_done k bno Hk) Hd. symmetry.
    apply (new_home_in s); [done|by eapply list_elem_of_lookup_2|done].
  - split; [by rw !length_apply|]. intros b Hb Hnl Hnb. rw HD2; [lia| |].
    { intros ->. destruct HL. lia. }
    rewrite -> (new_home_other s) by done. apply log_prefix_home; [done..|by right].
Qed.

(** A crash before the header is written undoes the transaction, a crash after
    it redoes it. *)
Lemma commit_prefix k :
  let X := apply_writes D (take k (commit_writes start (lg_n s) (lg_block s) D P bnos)) in
  if decide (k ≤ length bnos)%nat then redo start size X D []
  else ∃ cs, redo start size X (new_home D P bnos) cs.
Proof using HL HP HD.
  cbv zeta. unfold commit_writes. cbv zeta. assert (length (log_writes start P bnos) = length bnos) as Hlw by apply length_imap.
  case_decide as Hk.
  - rewrite -> take_app_le by lia. apply log_prefix_redo, subseteq_take.
  - rw take_app apply_app. rewrite -> (firstn_all2 (log_writes _ _ _)) by lia. rw Hlw.
    destruct (k - length bnos)%nat as [|m] eqn:Em; [lia|]. cbn [app take]. rw (apply_app _ [_]).
    pose proof header_redo as HR. destruct (recover_prefix start size bnos D2 _ m HR) as (cs & Hcs & _).
    exists cs. unfold recover_writes in Hcs. rewrite -> (redo_header start size bnos D2 _ HR) in Hcs. exact Hcs.
Qed.
End commit.

(** ** [read_head], [recover_from_log] *)

Section recovery.
Context (iderw : nat → K bst unit) {HBD : BlockDev iderw} (p : nat) (pr : proc).
Abbreviation pid := (p_pid pr).

Lemma read_head_loop h s d n :
  (n ≤ length (lg_block s))%nat →
  mfor (seq 0 n) (λ i, set_lh_block (Z.of_nat i) (s32 (get32 d (4 + 4 * Z.of_nat i)))) (h, s) =
  Ok tt (h, set_lg_block ((s32 <$> get_words d 4 n) ++ drop n (lg_block s)) s).
Proof using Type.
  intros Hn. set (ws := s32 <$> get_words d 4 n).
  assert (length ws = n) as Hws by (unfold ws; rw length_fmap length_get_words //).
  destruct (mfor_rule (λ l st, st = (h, set_lg_block (take (length l) ws ++ drop (length l) (lg_block s)) s))
    (λ i, set_lh_block (Z.of_nat i) (s32 (get32 d (4 + 4 * Z.of_nat i)))) (seq 0 n) [] (h, s))
    as (st & E & ->).
  - cbn. by destruct s.
  - intros l1 k l2 st Hsplit ->.
    assert (k = length l1 ∧ k < n)%nat as [-> Hk].
    { assert (seq 0 n !! length l1 = Some k) as [-> ?]%lookup_seq; [|lia].
      cbn in Hsplit. by rw Hsplit list_lookup_middle. }
    eexists. split; [|reflexivity]. unfold set_lh_block. rw bind_run. cbn [lg_block set_lg_block getc].
    assert (ws !! length l1 = Some (s32 (get32 d (4 + 4 * Z.of_nat (length l1))))) as Hw.
    { unfold ws. rw list_lookup_fmap get_words_lookup //. }
    cbn. rw length_app length_take length_drop Hws.
    replace (_ && _) with true by (symmetry; rewrite -> andb_true_iff, Z.leb_le, Z.ltb_lt; lia).
    rw Nat2Z.id. f_equal. f_equal. unset. f_equal.
    rewrite -> length_app, Nat.add_1_r, (take_S_r _ _ _ Hw).
    rewrite -> insert_app_r_alt by (rw length_take; lia). rw length_take Hws -app_assoc.
    replace (length l1 - length l1 `min` n)%nat with 0%nat by lia. f_equal.
    assert (is_Some (lg_block s !! length l1)) as [x Hx] by (apply lookup_lt_is_Some; lia).
    by rw (drop_S _ _ _ Hx).
  - rw E /= length_seq. rewrite -> (firstn_all2 ws) by lia. done.
Qed.

Lemma read_head_run h s D d :
  ready p pr h → cview pid (lg_b s) D ∅ ∅ → lg_dev s = 1 → 0 ≤ lg_start s < 2 ^ 32 →
  D !! Z.to_nat (lg_start s) = Some d → length (lg_block s) = Z.to_nat LOGSIZE →
  0 ≤ header_n d ≤ LOGSIZE →
  ∃ h' b', read_head iderw (h, s) =
      Ok tt (h', set_lg_block (header_blocks d ++ drop (Z.to_nat (header_n d)) (lg_block s))
                   (set_lg_n (header_n d) (set_lg_b b' s))) ∧
    ready p pr h' ∧ cview pid b' D ∅ ∅ ∧ bc_hist b' = bc_hist (lg_b s).
Proof using HBD.
  intros Hr Hv Hdev Hst HD1 Hbl Hn. unfold read_head.
  rw (bind_ok _ _ _ s (h, s)) // Hdev. rewrite -> (wrapu_small 32 (lg_start s)) by lia.
  destruct (cv_bread iderw p pr h _ D ∅ ∅ (lg_start s) d Hr Hv) as (i & h1 & b1 & E1 & Hr1 & _ & Hv1 & Hh1);
    [lia|done|by intros ??; rw lookup_empty|right; rw !map_size_empty; change NBUF with 30%nat; lia|].
  rewrite -> lookup_empty, delete_empty in Hv1. cbn in Hv1. lg_step E1.
  lg_step (buf_data_run pid h1 b1 _ _ _ i _ Hv1 ltac:(apply lookup_insert_eq)). cbn [hd_data].
  fold (header_n d). rw (bind_ok _ _ _ tt (h1, set_lg_n (header_n d) (set_lg_b b1 s))) //.
  rw (bind_ok _ _ _ (set_lg_n (header_n d) (set_lg_b b1 s)) (h1, set_lg_n (header_n d) (set_lg_b b1 s))) //.
  rw (bind_ok _ _ _ _ _ (read_head_loop h1 (set_lg_n (header_n d) (set_lg_b b1 s)) d (Z.to_nat (header_n d)) ltac:(cbn; lia))).
  destruct (cv_brelse p pr h1 _ _ _ _ i _ Hr1 Hv1 ltac:(apply lookup_insert_eq))
    as (h5 & b5 & E5 & Hr5 & Hv5 & Hh5); [done|].
  cbn [hd_blk hd_data hd_dirty] in Hv5. rw delete_insert_id // in Hv5. exists h5, b5.
  split_and!; [|done|done|by rw Hh5].
  set (s1 := set_lg_block _ _). rewrite -> (zoom_lg _ h1 s1 _ _ _ E5). done.
Qed.

(** [recover_from_log] performs the writes [recover_writes] and leaves an empty
    header. *)
Lemma recover_run h s D V bnos :
  ready p pr h → cview pid (lg_b s) D ∅ ∅ → lg_dev s = 1 → length (lg_block s) = Z.to_nat LOGSIZE →
  redo (lg_start s) (lg_size s) D V bnos →
  ∃ h' b' bl, recover_from_log iderw (h, s) = Ok tt (h', set_lg_n 0 (set_lg_block bl (set_lg_b b' s))) ∧
    ready p pr h' ∧ length bl = Z.to_nat LOGSIZE ∧
    cview pid b' (apply_writes D (recover_writes (lg_start s) D)) ∅ ∅ ∧
    bc_hist b' = bc_hist (lg_b s) ++ recover_writes (lg_start s) D.
Proof using HBD.
  intros Hr Hv Hdev Hbl HR. pose proof (redo_header _ _ _ _ _ HR) as Hhb.
  destruct HR as [HA (d & Hd & Hlen & Hn & Hblocks) _ _]. unfold recover_writes. rw Hhb. cbv zeta.
  pose proof HA as [A1 A2 A3 A4 A5].
  destruct (read_head_run h s D d Hr Hv Hdev) as (h1 & b1 & E1 & Hr1 & Hv1 & Hh1); [lia|done|done|lia|].
  unfold recover_from_log. rw (bind_ok _ _ _ _ _ E1). rw Hblocks. set (bl := bnos ++ _).
  set (s1 := set_lg_block bl _). assert (length bl = Z.to_nat LOGSIZE) as Hbl1.
  { unfold bl. rw length_app length_drop. lia. }
  assert (log_layout s1 D bnos) as HL.
  { unfold s1. unset. split; cbn; try done; [lia|]. unfold bl. by rw take_app_length. }
  destruct (install_trans_run iderw p pr h1 s1 D ∅ bnos) as (h3 & b3 & E3 & Hr3 & Hv3 & Hh3);
    [done|exact Hv1|done|by intros b []%lookup_empty_is_Some|by right|].
  rw (bind_ok _ _ _ _ _ E3). rw (bind_ok _ _ _ tt (h3, set_lg_n 0 (set_lg_b b3 s1))) //.
  set (D3 := apply_writes D _) in Hv3.
  assert (log_layout (set_lg_b b3 s1) D3 bnos) as HL3.
  { eapply layout_length; [apply HL|apply length_apply|done..]. }
  destruct (write_head_trace iderw p pr h3 (set_lg_b b3 s1) D3 ∅ bnos 0)
    as (h4 & b4 & E4 & Hr4 & Hv4 & Hh4); [exact Hr3|exact Hv3|exact HL3|..].
  { by intros b []%lookup_empty_is_Some. }
  { rw map_size_empty. change NBUF with 30%nat. lia. }
  { lia. }
  exists h4, b4, bl. split_and!; [exact E4|done|done| |].
  - rw apply_app. exact Hv4.
  - rw Hh4 /= Hh3 /= Hh1 -app_assoc //.
Qed.

(** C1: transactions are atomic under crashes. [commit] on a transaction that
    logged the blocks [bnos] performs the disk writes [ws]. Let the machine stop
    after any number [k] of them, let the recovery at the next boot also stop
    after any number [j] of its writes, which are the writes [recover_from_log]
    performs on that disk, and run [recover_from_log] on the disk
    that is left: it returns, and outside the log area every block is as before the
    transaction when the header had not been written, and as the transaction
    wrote it when it had. The log is empty then. *)
Theorem commit_crash_atomic h s D P bnos :
  ready p pr h → cview pid (lg_b s) D P ∅ → log_layout s D bnos →
  (∀ b, is_Some (P !! b) ↔ b ∈ bnos) → 0 < lg_n s → redo (lg_start s) (lg_size s) D D [] →
  ∃ h' b' ws, commit iderw (h, s) = Ok tt (h', set_lg_n 0 (set_lg_b b' s)) ∧
    bc_hist b' = bc_hist (lg_b s) ++ ws ∧ bc_disk b' = apply_writes D ws ∧
    ∀ k j, let X := apply_writes D (take k ws) in
      let Y := apply_writes X (take j (recover_writes (lg_start s) X)) in
      (∀ h0 s0, ready p pr h0 → cview pid (lg_b s0) X ∅ ∅ → lg_dev s0 = 1 →
        length (lg_block s0) = Z.to_nat LOGSIZE → lg_start s0 = lg_start s → lg_size s0 = lg_size s →
        ∃ h1 s1, recover_from_log iderw (h0, s0) = Ok tt (h1, s1) ∧
          bc_hist (lg_b s1) = bc_hist (lg_b s0) ++ recover_writes (lg_start s) X) ∧
      ∀ h0 s0, ready p pr h0 → cview pid (lg_b s0) Y ∅ ∅ → lg_dev s0 = 1 →
        length (lg_block s0) = Z.to_nat LOGSIZE → lg_start s0 = lg_start s → lg_size s0 = lg_size s →
        ∃ h1 s1, recover_from_log iderw (h0, s0) = Ok tt (h1, s1) ∧ lg_n s1 = 0 ∧
          has_header (lg_start s) (bc_disk (lg_b s1)) [] ∧
          ∀ b, 0 ≤ b → ¬ (lg_start s ≤ b < lg_start s + lg_size s) →
            bc_disk (lg_b s1) !! Z.to_nat b =
              if decide (k ≤ length bnos)%nat then D !! Z.to_nat b
              else if decide (b ∈ bnos) then P !! b else D !! Z.to_nat b.
Proof using HBD.
  intros Hr Hv HL HP Hn HD. destruct (commit_run iderw p pr h s D P bnos Hr Hv HL HP Hn)
    as (h' & b' & E & Hr' & Hv' & Hh'). eexists h', b', _. split_and!; [exact E|exact Hh'|apply (cv_disk _ _ _ _ _ Hv')|].
  intros k j X Y. pose proof (commit_prefix s D P bnos HL HP HD k) as Hk. cbv zeta in Hk. fold X in Hk.
  assert (∃ V cs, redo (lg_start s) (lg_size s) X V cs ∧ ∀ b, 0 ≤ b → V !! Z.to_nat b =
    if decide (k ≤ length bnos)%nat then D !! Z.to_nat b
    else if decide (b ∈ bnos) then P !! b else D !! Z.to_nat b) as (V & cs & HR & HV).
  { case_decide; [by exists D, []|]. destruct Hk as (cs & Hk). exists (new_home D P bnos), cs.
    split; [done|]. intros b Hb. case_decide as Hin; [|by apply (new_home_other s)].
    destruct (proj2 (HP b) Hin) as [d Hd]. rw Hd. by apply (new_home_in s). }
  split.
  { intros h0 s0 Hr0 Hv0 Hdev0 Hbl0 Es Ez. rewrite <- Es, <- Ez in HR.
    destruct (recover_run h0 s0 X V cs Hr0 Hv0 Hdev0 Hbl0 HR) as (h1 & b1 & bl & E1 & _ & _ & _ & Hh1).
    eexists h1, _. split; [exact E1|]. rw -Es. exact Hh1. }
  intros h0 s0 Hr0 Hv0 Hdev0 Hbl0 Es Ez. destruct (recover_prefix _ _ _ X V j HR) as (cs' & HY & _). fold Y in HY.
  rewrite <- Es, <- Ez in HY.
  destruct (recover_run h0 s0 Y V cs' Hr0 Hv0 Hdev0 Hbl0 HY) as (h1 & b1 & bl & E1 & _ & _ & Hv1 & _).
  pose proof (recover_full _ _ _ _ _ HY) as HR1. rewrite -> Es, Ez in HR1. destruct HR1 as [_ Hhd _ [_ Hho]].
  eexists h1, _. split_and!; [exact E1|done| |].
  - cbn [lg_b set_lg_n set_lg_block set_lg_b]. rw (cv_disk _ _ _ _ _ Hv1) Es. exact Hhd.
  - intros b Hb Hnl. cbn [lg_b set_lg_n set_lg_block set_lg_b]. rw (cv_disk _ _ _ _ _ Hv1) Es.
    rw -(HV b Hb). apply Hho; [done..|set_solver].
Qed.
End recovery.

(** ** The property on a concrete disk *)

(** A log of four blocks from block 2, that has block 6. *)
Definition ex_log6 (b : bst) : logst := MkLog b 2 4 1 false 1 1 (<[0%nat := 6]> (replicate (Z.to_nat LOGSIZE) 0)).

Lemma ex_log6_layout b : log_layout (ex_log6 b) ex_disk8 [6].
Proof.
  assert (length ex_disk8 = 8%nat) as Hl by apply length_replicate.
  split; rw ?Hl; cbn [ex_log6 lg_dev lg_start lg_size lg_n lg_block length]; try lia; try done.
  - constructor; [lia|constructor].
  - apply NoDup_singleton.
Qed.

Lemma ex_log6_pins d b : is_Some (({[6 := d]} : gmap Z (list Z)) !! b) ↔ b ∈ [6].
Proof. rw lookup_singleton_is_Some list_elem_of_singleton. done. Qed.

Lemma ex_log6_stable : redo 2 4 ex_disk8 ex_disk8 [].
Proof.
  split; [| |done|done].
  - eapply (area_nil 2 4 _ [6]). exact (layout_area _ _ _ (ex_log6_layout ex_bst)).
  - exists zero_block. by split_and!.
Qed.

Lemma commit_crash_atomic_witness :
  ∃ b h' b' ws, cview 7 b ex_disk8 {[6 := replicate (Z.to_nat BSIZE) 1]} ∅ ∧
    commit memide_iderw (ex_machine, ex_log6 b) = Ok tt (h', set_lg_n 0 (set_lg_b b' (ex_log6 b))) ∧
    bc_hist b' = bc_hist b ++ ws.
Proof.
  destruct ex_pinned6 as (b & Hv).
  destruct (commit_crash_atomic memide_iderw 0 ex_running ex_machine (ex_log6 b) ex_disk8 _ [6] ex_machine_running Hv
    (ex_log6_layout b) (ex_log6_pins _) ltac:(done) ex_log6_stable) as (h' & b' & ws & E & Hh & _).
  by exists b, h', b', ws.
Defined.
