(* ===== verification/Txn.v ===== *)
(** * Transactions: [begin_op], [log_write] and [end_op] of log.c

    What the file system relies on: a system call between [begin_op] and
    [end_op] sees and changes a logical disk, its blocks stay in the cache until
    the last [end_op] commits them, and the log never overflows while every
    operation writes at most [MAXOPBLOCKS] blocks. *)

From S2P Require Import Prelude Machine Spinlock Mem Kalloc Sched Sleeplock Ring Bytes Bio Cache Log Recovery.

(** The test of [begin_op]: the operation has to wait. *)
Definition log_full (s : logst) : bool :=
  lg_committing s || (LOGSIZE <? lg_n s + (lg_outstanding s + 1) * MAXOPBLOCKS).

(** A transaction in progress: the blocks of the log are the pinned blocks
    together with the blocks of held dirty buffers. *)
Record txn (pid : Z) (s : logst) (D : list (list Z)) (P : gmap Z (list Z))
    (H : gmap nat held) (bnos : list Z) : Prop := {
  tx_view : cview pid (lg_b s) D P H;
  tx_layout : log_layout s D bnos;
  tx_size : lg_size s ≤ Z.of_nat NBUF;
  tx_pins : ∀ b, b ∈ bnos ↔ is_Some (P !! b) ∨ ∃ i x, H !! i = Some x ∧ hd_dirty x = true ∧ hd_blk x = b
}.

(** The blocks of the log after [log_write] of block [b]. *)
Definition logged (bnos : list Z) (b : Z) : list Z := if decide (b ∈ bnos) then bnos else bnos ++ [b].

(** ** The blocks of the log *)

Lemma absorb_index_in bnos b :
  Forall (λ x, 0 ≤ x < 2 ^ 31) bnos → b ∈ bnos →
  bnos !! absorb_index bnos b = Some b.
Proof.
  induction 1 as [|x l Hx Hl IH]; cbn; [set_solver|]. intros Hin. rewrite -> (wrapu_small 32 x) by lia.
  case_bool; [cbn; by f_equal|]. apply IH. set_solver.
Qed.

Lemma absorb_index_notin bnos b :
  Forall (λ x, 0 ≤ x < 2 ^ 31) bnos → b ∉ bnos → absorb_index bnos b = length bnos.
Proof.
  induction 1 as [|x l Hx Hl IH]; cbn; [done|]. intros Hin. rewrite -> (wrapu_small 32 x) by lia.
  case_bool; [set_solver|]. f_equal. apply IH. set_solver.
Qed.

Lemma logged_block bl bnos b :
  Forall (λ x, 0 ≤ x < 2 ^ 31) bnos → take (length bnos) bl = bnos → (length bnos < length bl)%nat →
  take (length (logged bnos b)) (<[absorb_index bnos b := b]> bl) = logged bnos b.
Proof.
  intros HF Ht Hlt. unfold logged. case_decide as Hin.
  - pose proof (absorb_index_in bnos b HF Hin) as Hi. rewrite -> list_insert_id; [done|].
    rewrite <- (lookup_take_lt bl (length bnos)) by (exact (lookup_lt_Some _ _ _ Hi)). by rw Ht.
  - rw absorb_index_notin // length_app /= Nat.add_1_r.
    rewrite -> (take_S_r _ _ b) by (by apply list_lookup_insert_eq).
    rewrite -> take_insert_ge by lia. by rw Ht.
Qed.

Lemma logged_length bnos b :
  Forall (λ x, 0 ≤ x < 2 ^ 31) bnos →
  Z.of_nat (length (logged bnos b)) = Z.of_nat (length bnos) +
    (if Z.of_nat (absorb_index bnos b) =? Z.of_nat (length bnos) then 1 else 0).
Proof.
  intros HF. unfold logged. case_decide as Hin.
  - pose proof (absorb_index_in bnos b HF Hin) as Hi%lookup_lt_Some. case_bool; lia.
  - rw absorb_index_notin // Z.eqb_refl length_app /=. lia.
Qed.

(** The layout of the log with one more block. *)
Lemma layout_logged s s' D bnos b :
  log_layout s D bnos → lg_size s ≤ Z.of_nat NBUF → lg_n s < LOGSIZE → lg_n s < lg_size s - 1 →
  0 ≤ b < Z.of_nat (length D) → ¬ (lg_start s ≤ b < lg_start s + lg_size s) →
  lg_dev s' = lg_dev s → lg_start s' = lg_start s → lg_size s' = lg_size s →
  lg_n s' = Z.of_nat (length (logged bnos b)) →
  lg_block s' = <[absorb_index bnos b := b]> (lg_block s) → log_layout s' D (logged bnos b).
Proof.
  intros HL Hsz H1 H2 Hb Hnl E1 E2 E3 E4 E5.
  pose proof (area_numbers _ _ _ _ (layout_area _ _ _ HL)) as HF. pose proof (logged_length bnos b HF) as Hll.
  pose proof (logged_block (lg_block s) bnos b HF (ll_bnos _ _ _ HL)) as Hlb. destruct HL.
  split; rw ?E1 ?E2 ?E3 ?E4 ?E5 ?length_insert //; [repeat case_bool; lia|apply Hlb; lia| |].
  - unfold logged. case_decide; [done|]. apply Forall_app. split; [done|]. by constructor.
  - unfold logged. case_decide; [done|]. apply NoDup_app. split_and!; [done|set_solver|apply NoDup_singleton].
Qed.

(** ** [begin_op] *)

Section ops.
Context (iderw : nat → K bst unit) {HBD : BlockDev iderw} (p : nat) (pr : proc).
Abbreviation pid := (p_pid pr).
Implicit Types (h : hw) (s : logst).

Lemma log_ptable : log_lock ≠ ptable_lock.
Proof using Type. by intros [=]. Qed.

Lemma begin_op_loop_run h s :
  ready p pr h →
  begin_op_loop (acq log_lock h, s) =
    (if log_full s then Stop Switch (acq ptable_lock (upd_proc p (asleep (Some log_addr)) h), s)
     else Ok tt (settle h, set_lg_outstanding (lg_outstanding s + 1) s)).
Proof using Type.
  intros Hr. unfold begin_op_loop, log_full. rw (bind_ok _ _ _ s (acq log_lock h, s)) //.
  assert (sleep (Some log_addr) (Some log_lock) (acq log_lock h, s) =
    Stop Switch (acq ptable_lock (upd_proc p (asleep (Some log_addr)) h), s)) as Hs.
  { eapply sleep_run; [by apply rd_runs|apply log_ptable|by eapply ready_free]. }
  destruct (lg_committing s); cbn [orb]; [done|]. case_bool; [done|].
  rw bind_run /=. by eapply ready_unlock.
Qed.

Lemma begin_op_run h s :
  ready p pr h →
  begin_op (h, s) =
    (if log_full s then Stop Switch (acq ptable_lock (upd_proc p (asleep (Some log_addr)) h), s)
     else Ok tt (settle h, set_lg_outstanding (lg_outstanding s + 1) s)).
Proof using Type.
  intros Hr. unfold begin_op. rw (bind_ok _ _ _ _ _ (ready_lock p pr _ h s Hr)).
  by apply begin_op_loop_run.
Qed.

(** ** [end_op] *)

Lemma end_op_begin_run h s :
  ready p pr h → lg_committing s = false →
  end_op_begin (h, s) =
    (if lg_outstanding s =? 1
     then Ok true (settle h, set_lg_committing true (set_lg_outstanding 0 s))
     else Ok false (settle (wake_all (Some log_addr) h), set_lg_outstanding (lg_outstanding s - 1) s)).
Proof using Type.
  intros Hr Hc. unfold end_op_begin. rw (bind_ok _ _ _ _ _ (ready_lock p pr _ h s Hr)).
  set (s1 := set_lg_outstanding (lg_outstanding s - 1) s).
  rw (bind_ok _ _ _ tt (acq log_lock h, s1)) // (bind_ok _ _ _ s1 (acq log_lock h, s1)) //.
  cbn [lg_committing set_lg_outstanding s1]. rw Hc. cbn [lg_outstanding set_lg_outstanding s1].
  replace (lg_outstanding s - 1 =? 0) with (lg_outstanding s =? 1) by (repeat case_bool; lia).
  case_bool.
  - rw (bind_ok _ _ _ true (acq log_lock h, set_lg_committing true s1)) //.
    rw (bind_ok _ _ _ _ _ (ready_unlock p pr _ h _ Hr)). unfold s1. by replace (lg_outstanding s - 1) with 0 by lia.
  - rw (bind_ok _ _ _ false (acq log_lock (wake_all (Some log_addr) h), s1)).
    { by rw (bind_ok _ _ _ _ _ (ready_wakeup p pr (Some log_addr) _ h s1 Hr log_ptable)). }
    by rw (bind_ok _ _ _ _ _ (ready_unlock p pr _ _ _ (ready_wake p pr _ h Hr))).
Qed.

Lemma end_op_finish_run h s :
  ready p pr h →
  end_op_finish (h, s) = Ok tt (settle (wake_all (Some log_addr) h), set_lg_committing false s).
Proof using Type.
  intros Hr. unfold end_op_finish. rw (bind_ok _ _ _ _ _ (ready_lock p pr _ h s Hr)).
  rw (bind_ok _ _ _ tt (acq log_lock h, set_lg_committing false s)) //.
  rw (bind_ok _ _ _ _ _ (ready_wakeup p pr (Some log_addr) _ h _ Hr log_ptable)).
  eapply ready_unlock, ready_wake. done.
Qed.

Lemma commit_empty h s : lg_n s = 0 → commit iderw (h, s) = Ok tt (h, s).
Proof using Type. intros Hn. unfold commit. rw bind_run /= Hn. done. Qed.

(** The last [end_op] of a group commits: the blocks of the log are on the
    disk. *)
Lemma end_op_last h s D P bnos :
  ready p pr h → txn pid s D P ∅ bnos → lg_committing s = false → lg_outstanding s = 1 →
  redo (lg_start s) (lg_size s) D D [] →
  ∃ h' b', end_op iderw (h, s) =
      Ok tt (h', set_lg_committing false (set_lg_n 0 (set_lg_b b' (set_lg_outstanding 0 s)))) ∧
    ready p pr h' ∧ ∃ D', cview pid b' D' ∅ ∅ ∧ redo (lg_start s) (lg_size s) D' D' [] ∧
      homes_agree (lg_start s) (lg_size s) D' (new_home D P bnos) [].
Proof using HBD.
  intros Hr [Hv HL Hs HP] Hc Ho HD. unfold end_op. 
  rw (bind_ok _ _ _ true (settle h, set_lg_committing true (set_lg_outstanding 0 s))).
  { rw end_op_begin_run // Ho. done. }
  cbn [when]. set (s1 := set_lg_committing true _). pose proof (ready_settle p pr h Hr) as Hr1.
  assert (∀ b, is_Some (P !! b) ↔ b ∈ bnos) as HP1.
  { intros b. rw HP. split; [by left|]. intros [|(i & x & Hx & _)]; [done|]. by rw lookup_empty in Hx. }
  assert (log_layout s1 D bnos) as HL1 by (by eapply layout_length).
  destruct (decide (lg_n s = 0)) as [Hn|Hn].
  - rw (bind_ok _ _ _ _ _ (commit_empty _ s1 Hn)) end_op_finish_run //.
    assert (bnos = []) as -> by (apply length_zero_iff_nil; pose proof (ll_n _ _ _ HL); lia).
    exists (settle (wake_all (Some log_addr) (settle h))), (lg_b s). split_and!.
    + rewrite <- Hn at 1. by destruct s.
    + by apply ready_settle, ready_wake.
    + assert (P = ∅) as ->.
      { apply map_eq. intros b. rw lookup_empty. apply eq_None_not_Some. rw HP1. set_solver. }
      exists D. by split_and!.
  - assert (0 < lg_n s1) as Hn1 by (pose proof (ll_n _ _ _ HL); cbn; lia).
    destruct (commit_run iderw p pr _ s1 D P bnos Hr1 Hv HL1 HP1 Hn1) as (h2 & b2 & E2 & Hr2 & Hv2 & _).
    rw (bind_ok _ _ _ _ _ E2) end_op_finish_run //. exists (settle (wake_all (Some log_addr) h2)), b2.
    split_and!; [done|by apply ready_settle, ready_wake|]. eexists. split; [exact Hv2|].
    pose proof (header_redo s1 D P bnos HL1 HP1 HD) as HR.
    pose proof (recover_full _ _ _ _ _ HR) as Hcs.
    unfold recover_writes in Hcs. rewrite -> (redo_header _ _ _ _ _ HR) in Hcs.
    unfold commit_writes. cbv zeta. rw apply_app (apply_app _ [_]).
    destruct Hcs as [A1 A2 A3 A4]. split; [|exact A4]. by split.
Qed.

(** ** [log_write] *)

Lemma log_write_run h s D P H bnos i x :
  ready p pr h → txn pid s D P H bnos → H !! i = Some x →
  0 ≤ hd_blk x < Z.of_nat (length D) → ¬ (lg_start s ≤ hd_blk x < lg_start s + lg_size s) →
  lg_n s < LOGSIZE → lg_n s < lg_size s - 1 → 1 ≤ lg_outstanding s →
  ∃ b' bl n, let s' := set_lg_b b' (set_lg_n n (set_lg_block bl s)) in
    log_write i (h, s) = Ok tt (settle h, s') ∧ n = Z.of_nat (length (logged bnos (hd_blk x))) ∧
    txn pid s' D P (<[i := MkHeld (hd_blk x) (hd_data x) true]> H) (logged bnos (hd_blk x)) ∧
    bc_hist b' = bc_hist (lg_b s).
Proof using HBD.
  intros Hr [Hv HL Hsz HP] Hx Hb Hnl H1 H2 Ho. unfold log_write. rw (bind_ok _ _ _ s (h, s)) //.
  replace (_ || _) with false by (symmetry; apply orb_false_iff; rw !Z.leb_gt; lia).
  rewrite -> (proj2 (Z.ltb_ge _ _)) by lia.
  rw (bind_ok _ _ _ _ _ (ready_lock p pr _ h s Hr)) (bind_ok _ _ _ s (acq log_lock h, s)) //.
  destruct (cv_data pr (acq log_lock h) _ _ _ _ i x Hv Hx) as (b & Eb & Hbd & Hbn).
  lg_step Eb. rw Hbn. replace (set_lg_b (lg_b s) s) with s by (by destruct s).
  set (n := lg_n s) in *. assert (n = Z.of_nat (length bnos)) as Hn by apply (ll_n _ _ _ HL).
  replace (take (Z.to_nat n) (lg_block s)) with bnos by (rw Hn Nat2Z.id (ll_bnos _ _ _ HL) //).
  set (k := absorb_index bnos (hd_blk x)).
  pose proof (area_numbers _ _ _ _ (layout_area _ _ _ HL)) as HF.
  pose proof (logged_length bnos (hd_blk x) HF) as Hll. fold k in Hll. rewrite <- Hn in Hll.
  assert (k ≤ length bnos)%nat as Hk.
  { unfold k. destruct (decide (hd_blk x ∈ bnos)).
    - pose proof (absorb_index_in bnos (hd_blk x) HF ltac:(done)) as Hi%lookup_lt_Some. lia.
    - rw absorb_index_notin //. }
  set (s1 := set_lg_block (<[k := hd_blk x]> (lg_block s)) s).
  rw (bind_ok _ _ _ tt (acq log_lock h, s1)).
  { unfold set_lh_block. rw bind_run /=.
    replace (_ && _) with true by (symmetry; apply andb_true_iff; rw Z.leb_le Z.ltb_lt (ll_block _ _ _ HL); lia).
    rw Nat2Z.id. unfold modc. cbn. unfold s1. rewrite -> (wraps_small 32 (hd_blk x)); [done|lia|]. destruct HL; lia. }
  set (n' := Z.of_nat (length (logged bnos (hd_blk x)))) in *.
  rw (bind_ok _ _ _ tt (acq log_lock h, set_lg_n n' s1)).
  { unfold when. case_bool; cbn -[acq]; unfold modc, s1; unset; cbn -[acq]; rw Hll ?Z.add_0_r //. }
  set (dirty := λ b, set_b_flags (Z.lor (b_flags b) B_DIRTY) b).
  lg_step (modbuf_run i dirty (acq log_lock h) (lg_b s)).
  exists (updbuf i dirty (lg_b s)), (<[k := hd_blk x]> (lg_block s)), n'. cbv zeta. split_and!.
  - rw (ready_unlock p pr _ h _ Hr). done.
  - done.
  - split; [by apply (cv_dirty pr)| |done|].
    + apply (layout_logged s); try done.
    + intros c. unfold logged. split.
      * intros Hc. assert (c ∈ bnos ∨ c = hd_blk x) as [Hc'| ->] by (revert Hc; case_decide; set_solver).
        -- apply HP in Hc' as [?|(j & y & Hj & Hd & <-)]; [by left|]. right.
           destruct (decide (j = i)) as [->|].
           ++ simplify_eq. eexists i, _. rw lookup_insert_eq. by split_and!.
           ++ exists j, y. by rw lookup_insert_ne.
        -- right. eexists i, _. rw lookup_insert_eq. by split_and!.
      * intros Hc. assert (c ∈ bnos ∨ c = hd_blk x) as Hc'; [|case_decide; set_solver].
        rw HP. destruct Hc as [?|(j & y & Hj & Hd & <-)]; [by left; left|].
        destruct (decide (j = i)) as [->|Hne]; [rw lookup_insert_eq in Hj; simplify_eq; by right|].
        rw lookup_insert_ne // in Hj. left. right. by exists j, y.
  - done.
Qed.

Lemma log_write_panics h s i :
  (LOGSIZE ≤ lg_n s ∨ lg_size s - 1 ≤ lg_n s →
    log_write i (h, s) = Stop (Panic "too big a transaction") (h, s)) ∧
  (lg_n s < LOGSIZE → lg_n s < lg_size s - 1 → lg_outstanding s < 1 →
    log_write i (h, s) = Stop (Panic "log_write outside of trans") (h, s)).
Proof using Type.
  unfold log_write. split.
  - intros Hn. rw (bind_ok _ _ _ s (h, s)) //. 
    replace (_ || _) with true; [done|]. symmetry. apply orb_true_iff. rw !Z.leb_le. lia.
  - intros H1 H2 H3. rw (bind_ok _ _ _ s (h, s)) //.
    replace (_ || _) with false by (symmetry; apply orb_false_iff; rw !Z.leb_gt; lia).
    by rewrite -> (proj2 (Z.ltb_lt _ _)) by lia.
Qed.

(** ** Properties *)

(** C9: [log_write] on every branch. With room in the log and inside a
    transaction it marks the held buffer dirty, so that it stays in the cache, and
    puts its block into the header: a block that is already there is absorbed
    (the header does not grow), a new block is appended. Nothing is written to
    the disk. With no room, or outside a transaction, it panics. *)
Theorem log_write_records h s D P H bnos i x :
  ready p pr h → txn pid s D P H bnos → H !! i = Some x →
  0 ≤ hd_blk x < Z.of_nat (length D) → ¬ (lg_start s ≤ hd_blk x < lg_start s + lg_size s) →
  (LOGSIZE ≤ lg_n s ∨ lg_size s - 1 ≤ lg_n s →
    log_write i (h, s) = Stop (Panic "too big a transaction") (h, s)) ∧
  (lg_n s < LOGSIZE → lg_n s < lg_size s - 1 → lg_outstanding s < 1 →
    log_write i (h, s) = Stop (Panic "log_write outside of trans") (h, s)) ∧
  (lg_n s < LOGSIZE → lg_n s < lg_size s - 1 → 1 ≤ lg_outstanding s →
   ∃ s', log_write i (h, s) = Ok tt (settle h, s') ∧
     lg_n s' = (if decide (hd_blk x ∈ bnos) then lg_n s else lg_n s + 1) ∧
     txn pid s' D P (<[i := MkHeld (hd_blk x) (hd_data x) true]> H)
       (if decide (hd_blk x ∈ bnos) then bnos else bnos ++ [hd_blk x]) ∧
     bc_disk (lg_b s') = bc_disk (lg_b s) ∧ bc_hist (lg_b s') = bc_hist (lg_b s)).
Proof using HBD.
  intros Hr Ht Hx Hb Hnl. split_and!; [apply (log_write_panics h s i)..|].
  intros H1 H2 H3. destruct (log_write_run h s D P H bnos i x Hr Ht Hx Hb Hnl H1 H2 H3)
    as (b' & bl & n & E & Hn & Ht' & Hh). eexists. split_and!; [exact E| |exact Ht'| |exact Hh].
  - cbn. rw Hn (ll_n _ _ _ (tx_layout _ _ _ _ _ _ Ht)). unfold logged. case_decide; [done|].
    rw length_app /=. lia.
  - etrans; [apply (cv_disk _ _ _ _ _ (tx_view _ _ _ _ _ _ Ht'))|].
    symmetry. apply (cv_disk _ _ _ _ _ (tx_view _ _ _ _ _ _ Ht)).
Qed.

(** C8: [begin_op] and [end_op]. [begin_op] sleeps on the log while a commit
    runs or while the log might overflow, and otherwise enters the transaction.
    An [end_op] that leaves other operations open wakes the waiting processes
    and commits nothing. The last one commits: on return no operation is open
    and no commit runs, the log is empty in memory and its header on the disk
    counts no block, so that a recovery would replay nothing; no block is pinned,
    and on the disk every home block is what the transaction made of it. *)
Theorem begin_op_end_op h s D P bnos :
  ready p pr h → txn pid s D P ∅ bnos → lg_committing s = false →
  redo (lg_start s) (lg_size s) D D [] →
  begin_op (h, s) =
    (if LOGSIZE <? lg_n s + (lg_outstanding s + 1) * MAXOPBLOCKS
     then Stop Switch (acq ptable_lock (upd_proc p (asleep (Some log_addr)) h), s)
     else Ok tt (settle h, set_lg_outstanding (lg_outstanding s + 1) s)) ∧
  begin_op (h, set_lg_committing true s) =
    Stop Switch (acq ptable_lock (upd_proc p (asleep (Some log_addr)) h), set_lg_committing true s) ∧
  (lg_outstanding s ≠ 1 →
    end_op iderw (h, s) =
      Ok tt (settle (wake_all (Some log_addr) h), set_lg_outstanding (lg_outstanding s - 1) s)) ∧
  (lg_outstanding s = 1 → ∃ h' s', end_op iderw (h, s) = Ok tt (h', s') ∧ ready p pr h' ∧
    lg_outstanding s' = 0 ∧ lg_committing s' = false ∧ lg_n s' = 0 ∧
    has_header (lg_start s) (bc_disk (lg_b s')) [] ∧
    cview pid (lg_b s') (bc_disk (lg_b s')) ∅ ∅ ∧
    ∀ b, 0 ≤ b → ¬ (lg_start s ≤ b < lg_start s + lg_size s) →
      bc_disk (lg_b s') !! Z.to_nat b = if decide (b ∈ bnos) then P !! b else D !! Z.to_nat b).
Proof using HBD.
  intros Hr Ht Hc HD. split_and!.
  - rw begin_op_run // /log_full Hc. done.
  - by rw begin_op_run.
  - intros Ho. unfold end_op. pose proof (end_op_begin_run h s Hr Hc) as E.
    rewrite -> (proj2 (Z.eqb_neq _ _) Ho) in E. by rw (bind_ok _ _ _ _ _ E).
  - intros Ho. destruct (end_op_last h s D P bnos Hr Ht Hc Ho HD) as (h' & b' & E & Hr' & D' & Hv & HR & [_ Hh]).
    eexists h', _. split_and!; [exact E|done..| | |].
    + cbn. rw (cv_disk _ _ _ _ _ Hv). apply (rd_hdr _ _ _ _ _ HR).
    + cbn. by rw (cv_disk _ _ _ _ _ Hv).
    + intros b Hb Hnl. cbn. rw (cv_disk _ _ _ _ _ Hv) Hh //; [set_solver|].
      destruct Ht as [_ HL _ HP]. case_decide as Hin; [|by apply (new_home_other s)].
      pose proof Hin as [[d Hd]|(i & x & Hx & _)]%HP; [|by rw lookup_empty in Hx].
      rw Hd. by apply (new_home_in s).
Qed.
End ops.

(** ** The properties on a concrete log *)

Lemma log_write_records_witness :
  ∃ b i s', log_write i (ex_machine, set_lg_n 0 (ex_log6 b)) = Ok tt (settle ex_machine, s') ∧ lg_n s' = 1.
Proof.
  destruct ex_held6 as (b & i & Hv). exists b, i.
  assert (txn 7 (set_lg_n 0 (ex_log6 b)) ex_disk8 ∅
    (<[i := MkHeld 6 (replicate (Z.to_nat BSIZE) 1) false]> ∅) []) as Ht.
  { pose proof (ex_log6_layout b) as []. split; [exact Hv| |by unfold NBUF; cbn|].
    - split; try done; constructor.
    - intros c. split; [by intros ?%not_elem_of_nil|]. intros [[d Hd]|(j & x & Hj & Hd & _)].
      + by rw lookup_empty in Hd.
      + apply lookup_insert_Some in Hj as [[<- <-]|[_ Hj]]; [done|by rw lookup_empty in Hj]. }
  destruct (log_write_records memide_iderw 0 ex_running ex_machine _ _ _ _ _ i _ ex_machine_running Ht
    (lookup_insert_eq _ _ _)) as (_ & _ & H); [cbn; change (length ex_disk8) with 8%nat; lia|cbn; lia|].
  destruct H as (s' & E & Hn & _); [done..|]. exists s'. split; [exact E|exact Hn].
Defined.

Lemma begin_op_end_op_witness :
  ∃ b h' s', end_op memide_iderw (ex_machine, ex_log6 b) = Ok tt (h', s') ∧ lg_n s' = 0 ∧
    has_header 2 (bc_disk (lg_b s')) [] ∧ bc_disk (lg_b s') !! 6%nat = Some (replicate (Z.to_nat BSIZE) 1).
Proof.
  destruct ex_pinned6 as (b & Hv). exists b.
  assert (txn 7 (ex_log6 b) ex_disk8 {[6 := replicate (Z.to_nat BSIZE) 1]} ∅ [6]) as Ht.
  { split; [exact Hv|apply ex_log6_layout|by unfold NBUF; cbn|]. intros c. rw -(ex_log6_pins (replicate (Z.to_nat BSIZE) 1)).
    split; [by left|]. intros [?|(j & x & Hj & _)]; [done|by rw lookup_empty in Hj]. }
  destruct (begin_op_end_op memide_iderw 0 ex_running ex_machine _ _ _ _ ex_machine_running Ht eq_refl ex_log6_stable)
    as (_ & _ & _ & H). destruct (H eq_refl) as (h' & s' & E & _ & _ & _ & Hn & Hh & _ & Hd). exists h', s'.
  split_and!; [exact E|exact Hn|exact Hh|]. pose proof (Hd 6 ltac:(lia) ltac:(cbn; lia)) as H6.
  destruct (decide (6 ∈ [6])) as [_|Hn6]; [exact H6|]. destruct Hn6. constructor.
Defined.
