(* ===== verification/LogSpace.v ===== *)
(** * The space of the log: the admission test of [begin_op]

    Any interleaving of [begin_op], [log_write], [end_op] and [commit] by the
    processes of the system, as a step relation whose steps are the functions of
    log.c. *)

From S2P Require Import Prelude Machine Spinlock Mem Kalloc Sched Sleeplock Ring Bytes Bio Cache Log Recovery Txn.

(** ** Operations that leave a part of the state alone *)

Definition keeps {A B : Type} (f : logst → B) (m : K logst A) : Prop :=
  ∀ st a st', m st = Ok a st' → f st'.2 = f st.2.

Section keeps.
Context {B : Type} (f : logst → B).

Lemma keeps_bind {A A'} (m : K logst A) (k : A → K logst A') :
  keeps f m → (∀ a, keeps f (k a)) → keeps f (m ≫= k).
Proof.
  intros Hm Hk st a st' E. rw bind_run in E. destruct (m st) as [a1 st1|] eqn:E1; [|done].
  rewrite -> (Hk _ _ _ _ E). by eapply Hm.
Qed.

Lemma keeps_mfor {A} (l : list A) (g : A → K logst unit) : (∀ x, keeps f (g x)) → keeps f (mfor l g).
Proof.
  intros Hg. induction l as [|x l IH]; [by intros st a st' [= <- <-]|]. by apply keeps_bind.
Qed.

Lemma keeps_zoom {A} (m : K bst A) : (∀ b s, f (set_lg_b b s) = f s) → keeps f (zoom lg_bL m).
Proof.
  intros Hf [h s] a st' E. unfold zoom in E. cbn in E.
  destruct (m (h, lg_b s)) as [a1 [h1 b1]|w [h1 b1]] eqn:E1; [|done]. injection E as <- <-. apply Hf.
Qed.

Lemma keeps_getc : keeps f getc.
Proof. by intros st a st' [= <- <-]. Qed.

Lemma keeps_gets {A} (g : hw * logst → A) : keeps f (gets g).
Proof. by intros st a st' [= <- <-]. Qed.

Lemma keeps_modh g : keeps f (modh g).
Proof. by intros [h s] a st' [= <- <-]. Qed.

Lemma keeps_mret {A} (a : A) : keeps f (mret a).
Proof. by intros st a' st' [= <- <-]. Qed.

Lemma keeps_modc g : (∀ s, f (g s) = f s) → keeps f (modc g).
Proof. intros Hg [h s] a st' [= <- <-]. apply Hg. Qed.

Lemma keeps_stop {A} w : keeps f (stop_with w : K logst A).
Proof. by intros st a st'. Qed.

Lemma keeps_when (b : bool) (m : K logst unit) : keeps f m → keeps f (when b m).
Proof. intros Hm. destruct b; [done|apply keeps_mret]. Qed.

Lemma keeps_if {A} (b : bool) (m m' : K logst A) : keeps f m → keeps f m' → keeps f (if b then m else m').
Proof. by destruct b. Qed.
End keeps.

(** The counters of the log. *)
Definition counters (s : logst) : Z * bool := (lg_outstanding s, lg_committing s).
Definition sizes (s : logst) : Z * (Z * bool) := (lg_n s, counters s).

Ltac keeps_step := first
  [ done | match goal with |- forall _, _ => intros ? end | apply keeps_bind | apply keeps_gets | apply keeps_modh | apply keeps_mfor | apply keeps_zoom | apply keeps_getc
  | apply keeps_mret | apply keeps_modc | apply keeps_stop | apply keeps_when | apply keeps_if
  | progress case_match ].
Ltac solve_keeps := repeat keeps_step.

(** What does not change after [initlog]: the size of the log and the room of
    the header in memory. *)
Definition extent (s : logst) : Z * nat := (lg_size s, length (lg_block s)).

Section commit_keeps.
Context (iderw : nat → K bst unit).

Lemma write_log_keeps {B} (f : logst → B) : (∀ b s, f (set_lg_b b s) = f s) → keeps f (write_log iderw).
Proof using Type. intros Hf. unfold write_log, write_log_body, lh_block. solve_keeps. Qed.

Lemma write_head_keeps {B} (f : logst → B) : (∀ b s, f (set_lg_b b s) = f s) → keeps f (write_head iderw).
Proof using Type. intros Hf. unfold write_head. solve_keeps. Qed.

Lemma install_trans_keeps {B} (f : logst → B) : (∀ b s, f (set_lg_b b s) = f s) → keeps f (install_trans iderw).
Proof using Type. intros Hf. unfold install_trans, install_body, lh_block. solve_keeps. Qed.

Lemma commit_extent : keeps extent (commit iderw).
Proof using Type.
  unfold commit.
  repeat first [apply write_log_keeps; done | apply write_head_keeps; done | apply install_trans_keeps; done
    | keeps_step].
Qed.

(** [commit] empties the header and leaves the counters. *)
Lemma commit_sizes st st' :
  commit iderw st = Ok tt st' → 0 ≤ lg_n st.2 → lg_n st'.2 = 0 ∧ counters st'.2 = counters st.2.
Proof.
  destruct st as [h s]. unfold commit. rw (bind_ok _ _ _ s (h, s)) //. unfold when.
  case_bool; [|intros [= <-]; cbn; split; [lia|done]]. intros E _. rw bind_run in E.
  destruct (write_log iderw (h, s)) as [[] st1|] eqn:E1; [|done]. rw bind_run in E.
  destruct (write_head iderw st1) as [[] st2|] eqn:E2; [|done]. rw bind_run in E.
  destruct (install_trans iderw st2) as [[] [h3 s3]|] eqn:E3; [|done].
  rw (bind_ok _ _ _ tt (h3, set_lg_n 0 s3)) // in E.
  apply (write_log_keeps sizes) in E1; [|done]. apply (write_head_keeps sizes) in E2; [|done].
  apply (write_head_keeps sizes) in E; [|done]. apply (install_trans_keeps sizes) in E3; [|done].
  unfold sizes, counters in *. cbn in *. simplify_eq. split; congruence.
Qed.
End commit_keeps.

Lemma acquire_keeps {B} (f : logst → B) lk : keeps f (acquire lk).
Proof. unfold acquire, acquire_xchg, holding, pushcli, popcli, mycpu, cpu_at, modcpu, cli, sti, geth. solve_keeps. Qed.

Lemma release_keeps {B} (f : logst → B) lk : keeps f (release lk).
Proof. unfold release, holding, pushcli, popcli, mycpu, cpu_at, modcpu, cli, sti, geth. solve_keeps. Qed.

(** [log_write] puts at most one block into the header. *)
Lemma log_write_sizes st st' i :
  log_write i st = Ok tt st' →
  lg_n st.2 ≤ lg_n st'.2 ≤ lg_n st.2 + 1 ∧ counters st'.2 = counters st.2.
Proof.
  destruct st as [h s]. unfold log_write. rw (bind_ok _ _ _ s (h, s)) //. do 2 (case_match; [done|]). rw bind_run.
  destruct (acquire _ _) as [[] st1|] eqn:E1; [|done]. apply (acquire_keeps sizes) in E1.
  rw (bind_ok _ _ _ st1.2 st1) // bind_run.
  destruct (zoom lg_bL (buf_at i) _) as [b st2|] eqn:E2; [|done]. apply (keeps_zoom sizes) in E2; [|done].
  set (k := Z.of_nat _). rw bind_run.
  destruct (set_lh_block k _ st2) as [[] [h3 s3]|] eqn:E3; [|done].
  assert (keeps sizes (set_lh_block k (s32 (b_blockno b)))) as E3' by (unfold set_lh_block; solve_keeps).
  apply E3' in E3. rw bind_run. destruct (when _ _ (h3, s3)) as [[] st4|] eqn:E4; [|done]. 
  assert (lg_n s3 ≤ lg_n st4.2 ≤ lg_n s3 + 1 ∧ counters st4.2 = counters s3) as [Hn Hc].
  { revert E4. unfold when. destruct (_ =? _); intros [= <-]; cbn; split; try done; lia. }
  rw bind_run. destruct (zoom lg_bL _ st4) as [[] st5|] eqn:E5; [|done]. apply (keeps_zoom sizes) in E5; [|done].
  intros E6. apply (release_keeps sizes) in E6. unfold sizes, counters in *. cbn in *. simplify_eq.
  split; [lia|]. congruence.
Qed.

(** [sleep] does not return: it switches to the scheduler. *)
Lemma sleep_keeps {B} (f : logst → B) chan lk : keeps f (sleep chan lk).
Proof. unfold sleep. solve_keeps. Qed.

Lemma wakeup_keeps {B} (f : logst → B) chan : keeps f (wakeup chan).
Proof. unfold wakeup. solve_keeps. Qed.

Lemma begin_op_extent : keeps extent begin_op.
Proof. unfold begin_op, begin_op_loop. solve_keeps. Qed.

Lemma end_op_begin_extent : keeps extent end_op_begin.
Proof. unfold end_op_begin. solve_keeps. Qed.

Lemma end_op_finish_extent : keeps extent end_op_finish.
Proof. unfold end_op_finish. solve_keeps. Qed.

Lemma set_lh_block_extent i v : keeps extent (set_lh_block i v).
Proof.
  intros [h s] a st' E. unfold set_lh_block in E. rw (bind_ok _ _ _ s (h, s)) // in E.
  destruct (_ && _); [|done]. injection E as <- <-. unfold extent. cbn. by rw length_insert.
Qed.

Lemma log_write_extent i : keeps extent (log_write i).
Proof.
  unfold log_write. repeat first [apply set_lh_block_extent | keeps_step].
Qed.

Lemma absorb_index_le l b : (absorb_index l b ≤ length l)%nat.
Proof. induction l as [|x l IH]; cbn; [lia|]. destruct (_ =? _); lia. Qed.

(** [log_write] returns while the header has room in memory and on the disk. *)
Lemma log_write_returns p pr h s i b :
  ready p pr h → bc_bufs (lg_b s) !! i = Some b → length (lg_block s) = Z.to_nat LOGSIZE →
  0 ≤ lg_n s < LOGSIZE → lg_n s < lg_size s - 1 → 1 ≤ lg_outstanding s →
  ∃ s', log_write i (h, s) = Ok tt (settle h, s').
Proof.
  intros Hr Hb Hbl Hn Hsz Ho. unfold log_write. rw (bind_ok _ _ _ s (h, s)) //.
  replace (_ || _) with false by (symmetry; apply orb_false_iff; rw !Z.leb_gt; lia).
  rewrite -> (proj2 (Z.ltb_ge _ _)) by lia.
  rw (bind_ok _ _ _ _ _ (ready_lock p pr _ h s Hr)) (bind_ok _ _ _ s (acq log_lock h, s)) //.
  rw (bind_ok _ _ _ b (acq log_lock h, s)).
  { unfold zoom, buf_at. cbn -[acq]. rw bind_run. cbn -[acq]. rw Hb. cbn -[acq]. by destruct s. }
  pose proof (absorb_index_le (take (Z.to_nat (lg_n s)) (lg_block s)) (b_blockno b)) as Hk. rw length_take in Hk.
  set (k := absorb_index _ _) in *. set (s1 := set_lg_block (<[k := s32 (b_blockno b)]> (lg_block s)) s).
  rw (bind_ok _ _ _ tt (acq log_lock h, s1)).
  { unfold set_lh_block. rw (bind_ok _ _ _ s (acq log_lock h, s)) //.
    replace (_ && _) with true by (symmetry; apply andb_true_iff; rw Z.leb_le Z.ltb_lt; lia).
    by rw Nat2Z.id. }
  assert (∃ n, when (Z.of_nat k =? lg_n s) (modc (λ s, set_lg_n (lg_n s + 1) s)) (acq log_lock h, s1) =
    Ok tt (acq log_lock h, set_lg_n n s1)) as [n E].
  { unfold when. destruct (_ =? _); [by eexists|]. exists (lg_n s1). by destruct s. }
  rw (bind_ok _ _ _ _ _ E). eexists. 
  rw bind_run. cbn -[acq release]. by rw (ready_unlock p pr _ h _ Hr).
Qed.

(** ** The system: open operations with the blocks each has written *)

Section system.
Context (iderw : nat → K bst unit).

(** Process [q] enters an operation; writes a block, of the [MAXOPBLOCKS] it may
    write; ends the operation, when it was the last one going on to commit; the
    commit; the end of the commit. *)
Inductive log_step : logst * gmap nat Z → logst * gmap nat Z → Prop :=
| ls_begin q qr h h' s s' U :
    ready q qr h → U !! q = None → begin_op (h, s) = Ok tt (h', s') →
    log_step (s, U) (s', <[q := 0]> U)
| ls_write q u i h h' s s' U :
    U !! q = Some u → u < MAXOPBLOCKS → log_write i (h, s) = Ok tt (h', s') →
    log_step (s, U) (s', <[q := u + 1]> U)
| ls_end q u qr h h' s s' c U :
    ready q qr h → U !! q = Some u → end_op_begin (h, s) = Ok c (h', s') →
    log_step (s, U) (s', delete q U)
| ls_commit h h' s s' U :
    lg_committing s = true → commit iderw (h, s) = Ok tt (h', s') → log_step (s, U) (s', U)
| ls_finish q qr h h' s s' U :
    ready q qr h → lg_committing s = true → lg_n s = 0 →
    end_op_finish (h, s) = Ok tt (h', s') → log_step (s, U) (s', U).

(** The log after [initlog]. *)
Definition log_idle (s : logst) : Prop :=
  lg_n s = 0 ∧ lg_outstanding s = 0 ∧ lg_committing s = false ∧ length (lg_block s) = Z.to_nat LOGSIZE.

(** The blocks the open operations may still write. *)
Definition reserved (U : gmap nat Z) : Z := map_fold (λ _ u r, MAXOPBLOCKS - u + r) 0 U.

Record space_inv (s : logst) (U : gmap nat Z) : Prop := {
  sp_count : lg_outstanding s = Z.of_nat (size U);
  sp_commit : lg_committing s = true → U = ∅;
  sp_used : map_Forall (λ _ u, 0 ≤ u ≤ MAXOPBLOCKS) U;
  sp_room : 0 ≤ lg_n s ∧ lg_n s + reserved U ≤ LOGSIZE
}.

Lemma reserved_insert U q u :
  U !! q = None → reserved (<[q := u]> U) = MAXOPBLOCKS - u + reserved U.
Proof. intros Hq. unfold reserved. rw map_fold_insert_L //. intros. lia. Qed.

Lemma reserved_delete U q u : U !! q = Some u → reserved U = MAXOPBLOCKS - u + reserved (delete q U).
Proof.
  intros Hq. rewrite <- (insert_delete_id U q u Hq) at 1. apply reserved_insert. apply lookup_delete_eq.
Qed.

Lemma reserved_range U :
  map_Forall (λ _ u, 0 ≤ u ≤ MAXOPBLOCKS) U → 0 ≤ reserved U ≤ Z.of_nat (size U) * MAXOPBLOCKS.
Proof.
  induction U as [|q u U Hq IH] using map_ind.
  - intros _. unfold reserved. rw map_fold_empty map_size_empty. lia.
  - intros (Hu & HU)%map_Forall_insert; [|done]. rw reserved_insert // map_size_insert_None //.
    specialize (IH HU). unfold MAXOPBLOCKS in *. lia.
Qed.

Lemma space_step sU sU' :
  log_step sU sU' → space_inv sU.1 sU.2 → space_inv sU'.1 sU'.2.
Proof.
  intros Hstep. destruct Hstep as [q qr h h' s s' U Hr Hq E|q u i h h' s s' U Hq Hu E
    |q u qr h h' s s' c U Hr Hq E|h h' s s' U Hc E|q qr h h' s s' U Hr Hc Hn0 E]; cbn; intros [I1 I2 I3 [I4 I5]].
  - rewrite -> (begin_op_run q qr h s Hr) in E. unfold log_full in E. destruct (lg_committing s) eqn:Ec; [done|].
    cbn [orb] in E. revert E. case_bool; [done|]. intros [= <- <-]. pose proof (reserved_range U I3).
    split; unset; cbn; [rw map_size_insert_None //; lia|congruence| |].
    + apply map_Forall_insert; [done|]. split; [unfold MAXOPBLOCKS; lia|done].
    + rw reserved_insert //. lia.
  - apply log_write_sizes in E as [Hn Hc]. cbn in Hn, Hc. unfold counters in Hc. injection Hc as Ho Hc.
    pose proof (map_Forall_lookup_1 _ _ _ _ I3 Hq) as Hu0. rewrite -> (reserved_delete U q u Hq) in I5.
    rw -insert_delete_eq. split.
    + rw Ho I1 map_size_insert_None; [apply lookup_delete_eq|]. rw map_size_delete Hq.
      assert (size U ≠ 0%nat); [|lia]. intros E0%map_size_empty_iff. by rw E0 lookup_empty in Hq.
    + rw Hc. intros E0%I2. by rw E0 lookup_empty in Hq.
    + apply map_Forall_insert; [apply lookup_delete_eq|]. cbn in Hu0. split; [lia|]. by apply map_Forall_delete.
    + rw reserved_insert; [apply lookup_delete_eq|]. lia.
  - destruct (lg_committing s) eqn:Ec. { specialize (I2 eq_refl). by rw I2 lookup_empty in Hq. }
    rewrite -> (end_op_begin_run q qr h s Hr Ec) in E. rewrite -> (reserved_delete U q u Hq) in I5.
    pose proof (map_Forall_lookup_1 _ _ _ _ I3 Hq) as Hu0. cbn in Hu0.
    assert (Z.of_nat (size (delete q U)) = lg_outstanding s - 1) as Hsz.
    { rw map_size_delete Hq I1. assert (size U ≠ 0%nat); [|lia].
      intros E0%map_size_empty_iff. by rw E0 lookup_empty in Hq. }
    pose proof (map_Forall_delete _ _ q I3) as I3'. revert E. case_bool; intros [= <- <- <-]; split; unset; cbn; try done; try lia.
    + intros _. apply map_size_empty_iff. lia.
    + congruence.
  - apply commit_sizes in E as [Hn Hcn]; [|done]. cbn in Hn, Hcn. unfold counters in Hcn. injection Hcn as Ho Hc'.
    specialize (I2 Hc). subst U. split; rw ?Ho ?Hc' ?Hn //.
  - rewrite -> (end_op_finish_run q qr h s Hr) in E. injection E as <- <-. split; unset; cbn; done.
Qed.

Lemma extent_step sU sU' : log_step sU sU' → extent sU'.1 = extent sU.1.
Proof using Type.
  intros [q qr h h' s s' U _ _ E|q u i h h' s s' U _ _ E|q u qr h h' s s' c U _ _ E
    |h h' s s' U _ E|q qr h h' s s' U _ _ _ E]; cbn.
  - by apply begin_op_extent in E.
  - by apply log_write_extent in E.
  - by apply end_op_begin_extent in E.
  - by apply commit_extent in E.
  - by apply end_op_finish_extent in E.
Qed.

(** The invariant in the states the system can reach. *)
Lemma space_reachable s0 s U :
  log_idle s0 → rtc log_step (s0, ∅) (s, U) → space_inv s U ∧ extent s = extent s0.
Proof using Type.
  intros (Hn & Ho & Hc & _) Hrtc.
  apply (rtc_invariant log_step (λ sU, space_inv sU.1 sU.2 ∧ extent sU.1 = extent s0) (s0, ∅) (s, U));
    [|split; [split; cbn; rw ?Ho ?Hc ?Hn //|done]|done].
  intros a b [Ha Hg] Hab. split; [by eapply space_step|]. by rw (extent_step a b Hab).
Qed.

(** C3: the log has room for every admitted operation. However the processes
    interleave their operations, as long as each writes at most [MAXOPBLOCKS]
    blocks: the header never has more than [LOGSIZE] blocks; [outstanding] counts
    the open operations; a commit runs only when no operation is open, so the
    panic of [end_op] is unreachable; and an operation that may still write finds
    a free entry of the header. When the log on the disk has more than [LOGSIZE]
    blocks, its header block included, the [log_write] of that operation returns
    for any buffer. In a smaller log it returns while fewer than [log.size - 1]
    blocks are logged, and panics when that many are. *)
Theorem log_reservation s0 s U :
  log_idle s0 → rtc log_step (s0, ∅) (s, U) →
  0 ≤ lg_n s ≤ LOGSIZE ∧ lg_outstanding s = Z.of_nat (size U) ∧
  (lg_committing s = true → U = ∅) ∧
  (∀ q u, U !! q = Some u → lg_committing s = false ∧
    (u < MAXOPBLOCKS → lg_n s < LOGSIZE ∧ 1 ≤ lg_outstanding s ∧
      ∀ i b qr h, bc_bufs (lg_b s) !! i = Some b → ready q qr h →
        (LOGSIZE < lg_size s0 → ∃ s', log_write i (h, s) = Ok tt (settle h, s')) ∧
        (lg_n s < lg_size s0 - 1 → ∃ s', log_write i (h, s) = Ok tt (settle h, s')) ∧
        (lg_size s0 - 1 ≤ lg_n s → log_write i (h, s) = Stop (Panic "too big a transaction") (h, s)))).
Proof using Type.
  intros Hi Hrtc. pose proof Hi as (_ & _ & _ & Hbl).
  destruct (space_reachable s0 s U Hi Hrtc) as [[I1 I2 I3 [I4 I5]] [= Hg1 Hg2]].
  pose proof (reserved_range U I3). split_and!; [lia..|done|]. intros q u Hq. split.
  { destruct (lg_committing s) eqn:Ec; [|done]. by rw (I2 eq_refl) lookup_empty in Hq. }
  intros Hu. rewrite -> (reserved_delete U q u Hq) in I5.
  pose proof (reserved_range (delete q U) (map_Forall_delete _ _ q I3)).
  assert (lg_n s < LOGSIZE) as Hn by lia. assert (1 ≤ lg_outstanding s) as Ho.
  { rw I1. assert (size U ≠ 0%nat); [|lia]. intros E0%map_size_empty_iff. by rw E0 lookup_empty in Hq. }
  split_and!; [done..|]. intros i b qr h Hb Hr. rewrite <- Hg1. rewrite <- Hg2 in Hbl. split_and!; intros Hs.
  - apply (log_write_returns q qr h s i b); done || lia.
  - apply (log_write_returns q qr h s i b); done || lia.
  - apply log_write_panics. by right.
Qed.
End system.

(** ** The log of mkfs.c

    mkfs.c gives the log [nlog = LOGSIZE] blocks, one of which is the header. *)

Definition ex_on (q : nat) : hw :=
  set_h_cpus [set_c_proc (Some q) boot_cpu]
    (set_h_procs (replicate NPROC (set_p_state RUNNING (set_p_pid 7 zero_proc))) boot_hw).

Lemma ex_on_ready q : (q < NPROC)%nat → ready q (set_p_state RUNNING (set_p_pid 7 zero_proc)) (ex_on q).
Proof.
  intros Hq. split; [|done|done]. split; [split| | |]; [|done| | |done|].
  - eexists. by split_and!.
  - apply length_replicate.
  - by intros c [= <-].
  - exact (lookup_replicate_2 _ _ _ Hq).
Qed.

(** A log of [LOGSIZE] blocks over a cache with 30 different blocks; the log
    and the open operations after [k] writes, ten by each of three processes. *)
Definition ex_log : logst :=
  MkLog (set_bc_bufs (imap (λ i b, set_b_blockno (100 + Z.of_nat i) b) (replicate NBUF zero_buf)) ex_bst)
    2 LOGSIZE 0 false 1 0 (replicate (Z.to_nat LOGSIZE) 0).
Fixpoint ex_written (k : nat) : logst * gmap nat Z :=
  match k with
  | O => (set_lg_outstanding 3 ex_log, <[2%nat := 0]> (<[1%nat := 0]> (<[0%nat := 0]> ∅)))
  | S k =>
      let '(s, U) := ex_written k in
      (match log_write k (ex_on (k / 10), s) with Ok _ st => st.2 | Stop _ st => st.2 end,
       <[(k / 10)%nat := Z.of_nat (k mod 10) + 1]> U)
  end.

Lemma ex_written_step iderw k : (k < 29)%nat → log_step iderw (ex_written k) (ex_written (S k)).
Proof.
  intros Hk.
  assert ((ex_written k).2 !! (k / 10)%nat = Some (Z.of_nat (k mod 10))) as HU.
  { do 29 (destruct k as [|k]; [vm_compute; reflexivity|]). lia. }
  assert (∃ h', log_write k (ex_on (k / 10), (ex_written k).1) = Ok tt (h', (ex_written (S k)).1)) as [h' E].
  { clear HU. do 29 (destruct k as [|k]; [eexists; vm_compute; reflexivity|]). lia. }
  rw (surjective_pairing (ex_written k)).
  assert (ex_written (S k) = ((ex_written (S k)).1, <[(k / 10)%nat := Z.of_nat (k mod 10) + 1]> (ex_written k).2)) as ->.
  { cbn. by destruct (ex_written k). }
  eapply ls_write; [exact HU| |exact E]. pose proof (Nat.mod_upper_bound k 10). unfold MAXOPBLOCKS. lia.
Qed.

Lemma ex_begun iderw : rtc (log_step iderw) (ex_log, ∅) (ex_written 0).
Proof.
  assert (∀ q n U, (q < NPROC)%nat → U !! q = None → n = 0 ∨ n = 1 ∨ n = 2 →
    log_step iderw (set_lg_outstanding n ex_log, U) (set_lg_outstanding (n + 1) ex_log, <[q := 0]> U)) as H.
  { intros q n U Hq HU Hn. eapply ls_begin; [by apply ex_on_ready|done|].
    rw (begin_op_run _ _ _ _ (ex_on_ready q Hq)). by destruct Hn as [->|[->| ->]]. }
  eapply rtc_l; [exact (H 0%nat 0 ∅ ltac:(unfold NPROC; lia) eq_refl ltac:(lia))|].
  eapply rtc_l; [exact (H 1%nat 1 (<[0%nat := 0]> ∅) ltac:(unfold NPROC; lia) eq_refl ltac:(lia))|].
  eapply rtc_l; [exact (H 2%nat 2 (<[1%nat := 0]> (<[0%nat := 0]> ∅)) ltac:(unfold NPROC; lia) eq_refl ltac:(lia))|]. reflexivity.
Qed.

(** C10: the log that mkfs.c makes is one block too small. With [log.size] equal
    to [LOGSIZE], three operations that [begin_op] admits together and that
    write ten blocks each, as [MAXOPBLOCKS] allows, run into the panic of
    [log_write]: after 29 blocks the third operation, with one block of its
    reservation left, stops the machine. *)
Theorem log_size_too_small iderw :
  ∃ s U, log_idle ex_log ∧ lg_size ex_log = LOGSIZE ∧ rtc (log_step iderw) (ex_log, ∅) (s, U) ∧
    U !! 2%nat = Some (MAXOPBLOCKS - 1) ∧ lg_n s < LOGSIZE ∧
    log_write 29 (ex_on 2, s) = Stop (Panic "too big a transaction") (ex_on 2, s).
Proof.
  exists (ex_written 29).1, (ex_written 29).2. split_and!; [done|done| |by vm_compute..|].
  - rw -surjective_pairing. etrans; [apply ex_begun|].
    assert (∀ k, (k ≤ 29)%nat → rtc (log_step iderw) (ex_written 0) (ex_written k)) as H; [|by apply H].
    induction k as [|k IH]; intros Hk; [done|]. eapply rtc_r; [apply IH; lia|]. apply ex_written_step. lia.
  - apply log_write_panics. right. vm_compute. done.
Qed.

Lemma log_reservation_witness :
  ∃ s U s', rtc (log_step memide_iderw) (ex_log, ∅) (s, U) ∧ 0 ≤ lg_n s ≤ LOGSIZE ∧
    log_write 4 (ex_on 2, s) = Ok tt (settle (ex_on 2), s').
Proof.
  pose proof (ex_begun memide_iderw) as H.
  destruct (log_reservation memide_iderw ex_log (ex_written 0).1 (ex_written 0).2 ltac:(by split_and!) H)
    as (Hn & _ & _ & HU). destruct (HU 2%nat 0 ltac:(by vm_compute)) as [_ Hw].
  destruct (Hw ltac:(unfold MAXOPBLOCKS; lia)) as (_ & _ & Hlw).
  destruct (Hlw 4%nat (set_b_blockno 104 zero_buf) _ (ex_on 2) ltac:(by vm_compute)
    (ex_on_ready 2 ltac:(unfold NPROC; lia))) as (_ & Hok & _).
  destruct Hok as [s' E]; [by vm_compute|]. exists (ex_written 0).1, (ex_written 0).2, s'.
  split_and!; [exact H|exact (proj1 Hn)|exact (proj2 Hn)|exact E].
Defined.
