(* ===== verification/Fs.v ===== *)
(** * The file system: fs.c

    Blocks, inodes, directories and path names over the log. Bytes that
    move between a file and the memory of a process are lists: [readi] returns the
    bytes it stores, [writei] gets the bytes of the buffer. *)

From S2P Require Import Prelude Machine Spinlock Console Mem CString Kalloc Sched Sleeplock Ring Bytes Bio Cache Log Recovery Txn.

(** ** Constants of fs.h and stat.h *)

Definition ROOTINO : Z := 1.
Definition NDIRECT : Z := 12.
Definition NINDIRECT : Z := BSIZE / 4.
Definition MAXFILE : Z := NDIRECT + NINDIRECT.
Definition SIZEOF_DINODE : Z := 64.
Definition IPB : Z := BSIZE / SIZEOF_DINODE.
Definition IBLOCK (i : Z) (sb : superblock) : Z := u32 (i / IPB + sb_inodestart sb).
Definition BPB : Z := BSIZE * 8.
Definition BBLOCK (b : Z) (sb : superblock) : Z := u32 (b / BPB + sb_bmapstart sb).
Definition DIRSIZ : nat := 14.
Definition SIZEOF_DIRENT : Z := 16.
Definition T_DIR : Z := 1.
Definition T_FILE : Z := 2.
Definition T_DEV : Z := 3.

(** ** State *)

(** [struct inode] of file.h. *)
Record inode : Type := MkInode {
  i_dev : Z;
  i_inum : Z;
  i_ref : Z;
  i_lock : sleeplock;
  i_valid : bool;
  i_type : Z;
  i_major : Z;
  i_minor : Z;
  i_nlink : Z;
  i_size : Z;
  i_addrs : list Z
}.
Definition set_i_dev (v : Z) (r : inode) : inode :=
  MkInode v (i_inum r) (i_ref r) (i_lock r) (i_valid r) (i_type r) (i_major r)
    (i_minor r) (i_nlink r) (i_size r) (i_addrs r).
Definition set_i_inum (v : Z) (r : inode) : inode :=
  MkInode (i_dev r) v (i_ref r) (i_lock r) (i_valid r) (i_type r) (i_major r)
    (i_minor r) (i_nlink r) (i_size r) (i_addrs r).
Definition set_i_ref (v : Z) (r : inode) : inode :=
  MkInode (i_dev r) (i_inum r) v (i_lock r) (i_valid r) (i_type r) (i_major r)
    (i_minor r) (i_nlink r) (i_size r) (i_addrs r).
Definition set_i_lock (v : sleeplock) (r : inode) : inode :=
  MkInode (i_dev r) (i_inum r) (i_ref r) v (i_valid r) (i_type r) (i_major r)
    (i_minor r) (i_nlink r) (i_size r) (i_addrs r).
Definition set_i_valid (v : bool) (r : inode) : inode :=
  MkInode (i_dev r) (i_inum r) (i_ref r) (i_lock r) v (i_type r) (i_major r)
    (i_minor r) (i_nlink r) (i_size r) (i_addrs r).
Definition set_i_type (v : Z) (r : inode) : inode :=
  MkInode (i_dev r) (i_inum r) (i_ref r) (i_lock r) (i_valid r) v (i_major r)
    (i_minor r) (i_nlink r) (i_size r) (i_addrs r).
Definition set_i_major (v : Z) (r : inode) : inode :=
  MkInode (i_dev r) (i_inum r) (i_ref r) (i_lock r) (i_valid r) (i_type r) v
    (i_minor r) (i_nlink r) (i_size r) (i_addrs r).
Definition set_i_minor (v : Z) (r : inode) : inode :=
  MkInode (i_dev r) (i_inum r) (i_ref r) (i_lock r) (i_valid r) (i_type r)
    (i_major r) v (i_nlink r) (i_size r) (i_addrs r).
Definition set_i_nlink (v : Z) (r : inode) : inode :=
  MkInode (i_dev r) (i_inum r) (i_ref r) (i_lock r) (i_valid r) (i_type r)
    (i_major r) (i_minor r) v (i_size r) (i_addrs r).
Definition set_i_size (v : Z) (r : inode) : inode :=
  MkInode (i_dev r) (i_inum r) (i_ref r) (i_lock r) (i_valid r) (i_type r)
    (i_major r) (i_minor r) (i_nlink r) v (i_addrs r).
Definition set_i_addrs (v : list Z) (r : inode) : inode :=
  MkInode (i_dev r) (i_inum r) (i_ref r) (i_lock r) (i_valid r) (i_type r)
    (i_major r) (i_minor r) (i_nlink r) (i_size r) v.
#[export] Hint Unfold set_i_dev set_i_inum set_i_ref set_i_lock set_i_valid set_i_type set_i_major set_i_minor set_i_nlink set_i_size set_i_addrs : setters.

(** The log, the superblock [sb] and the inode cache [icache]. *)
Record fsst : Type := MkFs {
  fs_log : logst;
  fs_sb : superblock;
  fs_inodes : list inode
}.
Definition set_fs_log (v : logst) (r : fsst) : fsst :=
  MkFs v (fs_sb r) (fs_inodes r).
Definition set_fs_sb (v : superblock) (r : fsst) : fsst :=
  MkFs (fs_log r) v (fs_inodes r).
Definition set_fs_inodes (v : list inode) (r : fsst) : fsst :=
  MkFs (fs_log r) (fs_sb r) v.
#[export] Hint Unfold set_fs_log set_fs_sb set_fs_inodes : setters.

Definition fs_logL : lens fsst logst := Lens fs_log set_fs_log.
Definition inode_lockL (i : nat) : lens fsst sleeplock :=
  Lens (λ s, from_option i_lock (MkSl false 0) (fs_inodes s !! i))
       (λ l s, set_fs_inodes (alter (set_i_lock l) i (fs_inodes s)) s).

Definition icache_lock : objaddr := ("icache"%string, 0).
Definition inode_addr (i : nat) : objaddr := ("inode"%string, Z.of_nat i).

(** [struct stat] of stat.h. *)
Record stat : Type := MkStat {
  st_type : Z;
  st_dev : Z;
  st_ino : Z;
  st_nlink : Z;
  st_size : Z
}.

(** ** Blocks *)

Section fs.
Context (iderw : nat → K bst unit).

Definition fbread (dev blk : Z) : K fsst nat := zoom fs_logL (zoom lg_bL (bread iderw dev blk)).
Definition fbrelse (bp : nat) : K fsst unit := zoom fs_logL (zoom lg_bL (brelse bp)).
Definition fdata (bp : nat) : K fsst (list Z) := zoom fs_logL (zoom lg_bL (buf_data bp)).
Definition fset_data (bp : nat) (d : list Z) : K fsst unit := zoom fs_logL (zoom lg_bL (set_data bp d)).
Definition flog_write (bp : nat) : K fsst unit := zoom fs_logL (log_write bp).

Definition bzero (dev bno : Z) : K fsst unit :=
  bp ← fbread dev (u32 bno);
  fset_data bp (replicate (Z.to_nat BSIZE) 0);;
  flog_write bp;;
  fbrelse bp.

(** [bp->data[bi/8] & m], and the byte with the bit set or cleared. *)
Definition bit_of (d : list Z) (bi : Z) : bool :=
  Z.testbit (nth (Z.to_nat (bi / 8)) d 0) (bi mod 8).
Definition set_bit (d : list Z) (bi : Z) : list Z :=
  alter (λ x, Z.lor x (Z.shiftl 1 (bi mod 8))) (Z.to_nat (bi / 8)) d.
Definition clear_bit (d : list Z) (bi : Z) : list Z :=
  alter (λ x, Z.land x (Z.lnot (Z.shiftl 1 (bi mod 8)))) (Z.to_nat (bi / 8)) d.

(** The inner loop of [balloc]: the first free bit among the [n] bits from
    [bi]. *)
Fixpoint balloc_scan (n : nat) (d : list Z) (bi : Z) : option Z :=
  match n with
  | O => None
  | S n => if negb (bit_of d bi) then Some bi else balloc_scan n d (bi + 1)
  end.

(** The outer loop from block [b]; [bi] stops at [BPB] and at [sb.size]. *)
Fixpoint balloc_loop (fuel : nat) (dev b : Z) : K fsst Z :=
  s ← getc;
  if negb (b <? sb_size (fs_sb s)) then panic "balloc: out of blocks" else
  match fuel with
  | O => fault "balloc: loop"
  | S fuel =>
      bp ← fbread dev (BBLOCK b (fs_sb s));
      d ← fdata bp;
      match balloc_scan (Z.to_nat (Z.min BPB (sb_size (fs_sb s) - b))) d 0 with
      | Some bi =>
          fset_data bp (set_bit d bi);;
          flog_write bp;;
          fbrelse bp;;
          bzero dev (b + bi);;
          mret (b + bi)
      | None =>
          fbrelse bp;;
          balloc_loop fuel dev (b + BPB)
      end
  end.

Definition balloc (dev : Z) : K fsst Z :=
  s ← getc;
  balloc_loop (Z.to_nat (sb_size (fs_sb s) / BPB + 1)) dev 0.

Definition bfree (dev b : Z) : K fsst unit :=
  s ← getc;
  bp ← fbread dev (BBLOCK b (fs_sb s));
  d ← fdata bp;
  let bi := b mod BPB in
  if negb (bit_of d bi) then panic "freeing free block" else
  fset_data bp (clear_bit d bi);;
  flog_write bp;;
  fbrelse bp.

(** ** Inodes *)

(** [*ip] for the inode in slot [ip] of the cache, and its update. *)
Definition inode_at (ip : nat) : K fsst inode :=
  s ← getc;
  match fs_inodes s !! ip with
  | Some i => mret i
  | None => fault "inode out of bounds"
  end.
Definition modinode (ip : nat) (f : inode → inode) : K fsst unit :=
  modc (λ s, set_fs_inodes (alter f ip (fs_inodes s)) s).

Definition iinit (dev : Z) : K fsst unit :=
  initlock icache_lock;;
  mfor (seq 0 NINODE) (λ i, initsleeplock (inode_lockL i) (inode_addr i));;
  sb ← zoom fs_logL (zoom lg_bL (readsb iderw dev));
  modc (set_fs_sb sb);;
  cprintf (chars "sb: size %d nblocks %d ninodes %d nlog %d logstart %d inodestart %d bmap start %d" ++ [10])
    [AInt (sb_size sb); AInt (sb_nblocks sb); AInt (sb_ninodes sb); AInt (sb_nlog sb); AInt (sb_logstart sb);
     AInt (sb_inodestart sb); AInt (sb_bmapstart sb)].

(** [struct dinode] at offset [off] of a block: the fields of the inode read
    from it, and written to it. *)
Definition dinode_off (inum : Z) : Z := SIZEOF_DINODE * (inum mod IPB).
Definition read_dinode (d : list Z) (off : Z) (i : inode) : inode :=
  set_i_addrs (get_words d (off + 12) (Z.to_nat (NDIRECT + 1)))
    (set_i_size (get32 d (off + 8))
    (set_i_nlink (s16 (get16 d (off + 6)))
    (set_i_minor (s16 (get16 d (off + 4)))
    (set_i_major (s16 (get16 d (off + 2)))
    (set_i_type (s16 (get16 d off)) i))))).
Definition write_dinode (d : list Z) (off : Z) (i : inode) : list Z :=
  put_words
    (put32 (put16 (put16 (put16 (put16 d off (i_type i)) (off + 2) (i_major i)) (off + 4) (i_minor i))
       (off + 6) (i_nlink i)) (off + 8) (i_size i))
    (off + 12) (i_addrs i).

Definition iupdate (ip : nat) : K fsst unit :=
  s ← getc;
  i ← inode_at ip;
  bp ← fbread (i_dev i) (IBLOCK (i_inum i) (fs_sb s));
  d ← fdata bp;
  fset_data bp (write_dinode d (dinode_off (i_inum i)) i);;
  flog_write bp;;
  fbrelse bp.

(** The loop of [iget]: the slot with the inode, or the first empty slot. *)
Fixpoint iget_scan (l : list inode) (k : nat) (dev inum : Z) (empty : option nat) : option nat * option nat :=
  match l with
  | [] => (None, empty)
  | i :: l =>
      if (0 <? i_ref i) && (i_dev i =? dev) && (i_inum i =? inum) then (Some k, empty)
      else iget_scan l (S k) dev inum
             (if bool_decide (empty = None) && (i_ref i =? 0) then Some k else empty)
  end.

Definition iget (dev inum : Z) : K fsst nat :=
  acquire icache_lock;;
  s ← getc;
  match iget_scan (fs_inodes s) 0 dev inum None with
  | (Some ip, _) =>
      modinode ip (λ i, set_i_ref (i_ref i + 1) i);;
      release icache_lock;;
      mret ip
  | (None, None) => panic "iget: no inodes"
  | (None, Some ip) =>
      modinode ip (λ i, set_i_valid false (set_i_ref 1 (set_i_inum inum (set_i_dev dev i))));;
      release icache_lock;;
      mret ip
  end.

Definition idup (ip : nat) : K fsst nat :=
  acquire icache_lock;;
  modinode ip (λ i, set_i_ref (i_ref i + 1) i);;
  release icache_lock;;
  mret ip.

(** The loop of [ialloc] from [inum]. *)
Fixpoint ialloc_loop (fuel : nat) (dev type inum : Z) : K fsst nat :=
  s ← getc;
  if negb (inum <? sb_ninodes (fs_sb s)) then panic "ialloc: no inodes" else
  match fuel with
  | O => fault "ialloc: loop"
  | S fuel =>
      bp ← fbread dev (IBLOCK inum (fs_sb s));
      d ← fdata bp;
      let off := dinode_off inum in
      if get16 d off =? 0 then
        fset_data bp (put16 (splice d off (replicate (Z.to_nat SIZEOF_DINODE) 0)) off type);;
        flog_write bp;;
        fbrelse bp;;
        iget dev inum
      else
        fbrelse bp;;
        ialloc_loop fuel dev type (inum + 1)
  end.

Definition ialloc (dev type : Z) : K fsst nat :=
  s ← getc;
  ialloc_loop (Z.to_nat (sb_ninodes (fs_sb s))) dev type 1.

(** After [acquiresleep] of [ilock]. *)
Definition ilock_load (ip : nat) : K fsst unit :=
  s ← getc;
  i ← inode_at ip;
  if i_valid i then mret tt else
  bp ← fbread (i_dev i) (IBLOCK (i_inum i) (fs_sb s));
  d ← fdata bp;
  modinode ip (read_dinode d (dinode_off (i_inum i)));;
  fbrelse bp;;
  modinode ip (set_i_valid true);;
  i ← inode_at ip;
  if i_type i =? 0 then panic "ilock: no type" else mret tt.

Definition ilock (ip : option nat) : K fsst unit :=
  match ip with
  | None => panic "ilock"
  | Some ip =>
      i ← inode_at ip;
      if i_ref i <? 1 then panic "ilock" else
      acquiresleep (inode_lockL ip) (inode_addr ip);;
      ilock_load ip
  end.

Definition iunlock (ip : option nat) : K fsst unit :=
  match ip with
  | None => panic "iunlock"
  | Some ip =>
      b ← holdingsleep (inode_lockL ip) (inode_addr ip);
      if negb b then panic "iunlock" else
      i ← inode_at ip;
      if i_ref i <? 1 then panic "iunlock" else
      releasesleep (inode_lockL ip) (inode_addr ip)
  end.

(** [ip->addrs[k]], and [ip->addrs[k] = v]. *)
Definition addr_at (ip : nat) (k : Z) : K fsst Z :=
  i ← inode_at ip; mret (nth (Z.to_nat k) (i_addrs i) 0).
Definition set_addr (ip : nat) (k v : Z) : K fsst unit :=
  modinode ip (λ i, set_i_addrs (<[Z.to_nat k := v]> (i_addrs i)) i).

(** [for(i = 0; i < NDIRECT; i++) if(ip->addrs[i]) ...] *)
Definition itrunc_direct (ip : nat) (k : Z) : K fsst unit :=
  a ← addr_at ip k;
  if a =? 0 then mret tt else
  i ← inode_at ip;
  bfree (i_dev i) a;;
  set_addr ip k 0.

Definition itrunc (ip : nat) : K fsst unit :=
  mfor (seqZ 0 NDIRECT) (itrunc_direct ip);;
  a ← addr_at ip NDIRECT;
  (if a =? 0 then mret tt else
   i ← inode_at ip;
   bp ← fbread (i_dev i) a;
   d ← fdata bp;
   mfor (seqZ 0 NINDIRECT) (λ j,
     let b := get32 d (4 * j) in
     if b =? 0 then mret tt else bfree (i_dev i) b);;
   fbrelse bp;;
   bfree (i_dev i) a;;
   set_addr ip NDIRECT 0);;
  modinode ip (set_i_size 0);;
  iupdate ip.

Definition iput (ip : nat) : K fsst unit :=
  acquiresleep (inode_lockL ip) (inode_addr ip);;
  i ← inode_at ip;
  (if i_valid i && (i_nlink i =? 0) then
     acquire icache_lock;;
     i ← inode_at ip;
     let r := i_ref i in
     release icache_lock;;
     if r =? 1 then
       itrunc ip;;
       modinode ip (set_i_type 0);;
       iupdate ip;;
       modinode ip (set_i_valid false)
     else mret tt
   else mret tt);;
  releasesleep (inode_lockL ip) (inode_addr ip);;
  acquire icache_lock;;
  modinode ip (λ i, set_i_ref (i_ref i - 1) i);;
  release icache_lock.

Definition iunlockput (ip : nat) : K fsst unit :=
  iunlock (Some ip);;
  iput ip.

(** ** Contents of inodes *)

Definition bmap (ip : nat) (bn : Z) : K fsst Z :=
  if bn <? NDIRECT then
    addr ← addr_at ip bn;
    if negb (addr =? 0) then mret addr else
    i ← inode_at ip;
    addr ← balloc (i_dev i);
    set_addr ip bn addr;;
    mret addr
  else
    let bn := bn - NDIRECT in
    if bn <? NINDIRECT then
      i ← inode_at ip;
      addr ← addr_at ip NDIRECT;
      addr ← (if negb (addr =? 0) then mret addr else
              addr ← balloc (i_dev i);
              set_addr ip NDIRECT addr;;
              mret addr);
      bp ← fbread (i_dev i) addr;
      d ← fdata bp;
      let addr := get32 d (4 * bn) in
      addr ← (if negb (addr =? 0) then mret addr else
              addr ← balloc (i_dev i);
              fset_data bp (put32 d (4 * bn) addr);;
              flog_write bp;;
              mret addr);
      fbrelse bp;;
      mret addr
    else panic "bmap: out of range".

Definition stati (ip : nat) : K fsst stat :=
  i ← inode_at ip;
  mret (MkStat (i_type i) (i_dev i) (i_inum i) (i_nlink i) (i_size i)).

(** The devices: [devsw[major].read] and [.write], where there are any. *)
Context (dev_read : Z → option (nat → Z → K fsst (Z * list Z)))
        (dev_write : Z → option (nat → list Z → Z → K fsst Z)).

(** The loop of [readi]: [n] bytes from [off]. *)
Fixpoint readi_loop (fuel : nat) (ip : nat) (off n : Z) : K fsst (list Z) :=
  if n <=? 0 then mret [] else
  match fuel with
  | O => fault "readi: loop"
  | S fuel =>
      i ← inode_at ip;
      b ← bmap ip (off / BSIZE);
      bp ← fbread (i_dev i) b;
      d ← fdata bp;
      let m := Z.min n (BSIZE - off mod BSIZE) in
      fbrelse bp;;
      rest ← readi_loop fuel ip (off + m) (n - m);
      mret (slice d (off mod BSIZE) m ++ rest)
  end.

(** The return value and the bytes stored at [dst]. *)
Definition readi (ip : nat) (off n : Z) : K fsst (Z * list Z) :=
  i ← inode_at ip;
  if i_type i =? T_DEV then
    if (i_major i <? 0) || (NDEV <=? i_major i) then mret (-1, []) else
    match dev_read (i_major i) with
    | Some read => read ip n
    | None => mret (-1, [])
    end
  else
  if (i_size i <? off) || (u32 (off + n) <? off) then mret (-1, []) else
  let n := if i_size i <? off + n then i_size i - off else n in
  bs ← readi_loop (Z.to_nat (n / BSIZE + 2)) ip off n;
  mret (n, bs).

(** The loop of [writei]: the bytes [src] from [off]. *)
Fixpoint writei_loop (fuel : nat) (ip : nat) (off : Z) (src : list Z) : K fsst unit :=
  if Z.of_nat (length src) <=? 0 then mret tt else
  match fuel with
  | O => fault "writei: loop"
  | S fuel =>
      i ← inode_at ip;
      b ← bmap ip (off / BSIZE);
      bp ← fbread (i_dev i) b;
      d ← fdata bp;
      let m := Z.min (Z.of_nat (length src)) (BSIZE - off mod BSIZE) in
      fset_data bp (splice d (off mod BSIZE) (take (Z.to_nat m) src));;
      flog_write bp;;
      fbrelse bp;;
      writei_loop fuel ip (off + m) (drop (Z.to_nat m) src)
  end.

(** [src]: the [n] bytes of the buffer. *)
Definition writei (ip : nat) (src : list Z) (off : Z) : K fsst Z :=
  let n := Z.of_nat (length src) in
  i ← inode_at ip;
  if i_type i =? T_DEV then
    if (i_major i <? 0) || (NDEV <=? i_major i) then mret (-1) else
    match dev_write (i_major i) with
    | Some write => write ip src n
    | None => mret (-1)
    end
  else
  if (i_size i <? off) || (u32 (off + n) <? off) then mret (-1) else
  if MAXFILE * BSIZE <? u32 (off + n) then mret (-1) else
  writei_loop (Z.to_nat (n / BSIZE + 2)) ip off src;;
  i ← inode_at ip;
  when ((0 <? n) && (i_size i <? off + n))
    (modinode ip (set_i_size (off + n));;
     iupdate ip);;
  mret n.

(** ** Directories *)

Definition namecmp (s t : list Z) : Z := strncmp s t DIRSIZ.

(** [struct dirent]: its inode number, its name; and its bytes. *)
Definition de_inum (de : list Z) : Z := get16 de 0.
Definition de_name (de : list Z) : list Z := slice de 2 (Z.of_nat DIRSIZ).
Definition dirent_bytes (inum : Z) (name : list Z) : list Z := le_bytes 2 inum ++ name.

(** The loop of [dirlookup] from [off]: the offset and the inode number of the
    entry. *)
Fixpoint dirlookup_loop (fuel : nat) (dp : nat) (name : list Z) (off : Z) : K fsst (option (Z * Z)) :=
  i ← inode_at dp;
  if negb (off <? i_size i) then mret None else
  match fuel with
  | O => fault "dirlookup: loop"
  | S fuel =>
      '(r, de) ← readi dp off SIZEOF_DIRENT;
      if negb (r =? SIZEOF_DIRENT) then panic "dirlookup read" else
      if negb (de_inum de =? 0) && (namecmp name (de_name de) =? 0) then mret (Some (off, de_inum de))
      else dirlookup_loop fuel dp name (off + SIZEOF_DIRENT)
  end.

(** The inode of the entry and its offset ([*poff]). *)
Definition dirlookup (dp : nat) (name : list Z) : K fsst (option (nat * Z)) :=
  i ← inode_at dp;
  if negb (i_type i =? T_DIR) then panic "dirlookup not DIR" else
  r ← dirlookup_loop (Z.to_nat (i_size i / SIZEOF_DIRENT + 1)) dp name 0;
  match r with
  | Some (off, inum) => ip ← iget (i_dev i) inum; mret (Some (ip, off))
  | None => mret None
  end.

(** The loop of [dirlink]: the offset of the first empty entry, or the end. *)
Fixpoint dirlink_loop (fuel : nat) (dp : nat) (off : Z) : K fsst Z :=
  i ← inode_at dp;
  if negb (off <? i_size i) then mret off else
  match fuel with
  | O => fault "dirlink: loop"
  | S fuel =>
      '(r, de) ← readi dp off SIZEOF_DIRENT;
      if negb (r =? SIZEOF_DIRENT) then panic "dirlink read" else
      if de_inum de =? 0 then mret off
      else dirlink_loop fuel dp (off + SIZEOF_DIRENT)
  end.

Definition dirlink (dp : nat) (name : list Z) (inum : Z) : K fsst Z :=
  r ← dirlookup dp name;
  match r with
  | Some (ip, _) => iput ip;; mret (-1)
  | None =>
      i ← inode_at dp;
      off ← dirlink_loop (Z.to_nat (i_size i / SIZEOF_DIRENT + 1)) dp 0;
      r ← writei dp (dirent_bytes inum (strncpy_bytes name DIRSIZ)) off;
      if negb (r =? SIZEOF_DIRENT) then panic "dirlink" else mret 0
  end.

(** ** Paths *)

Fixpoint skip_slashes (path : list Z) : list Z :=
  match path with
  | c :: path' => if c =? 47 then skip_slashes path' else path
  | [] => []
  end.
(** The bytes before the next slash or NUL, and the rest. *)
Fixpoint take_elem (path : list Z) : list Z * list Z :=
  match path with
  | c :: path' => if (c =? 47) || (c =? 0) then ([], path) else
      let '(e, r) := take_elem path' in (c :: e, r)
  | [] => ([], [])
  end.

(** [name] is the buffer of [DIRSIZ] bytes; the result is the rest of the path
    and the new [name]. *)
Definition skipelem (path name : list Z) : option (list Z * list Z) :=
  let path := skip_slashes path in
  if byte0 path =? 0 then None else
  let '(e, rest) := take_elem path in
  let name :=
    if Z.of_nat DIRSIZ <=? Z.of_nat (length e) then take DIRSIZ e ++ drop DIRSIZ name
    else e ++ [0] ++ drop (S (length e)) name in
  Some (skip_slashes rest, name).

(** The loop of [namex] from the inode [ip]. *)
Fixpoint namex_loop (fuel : nat) (ip : nat) (path : list Z) (parent : bool) (name : list Z)
    : K fsst (option nat * list Z) :=
  match skipelem path name with
  | None =>
      if parent then iput ip;; mret (None, name) else mret (Some ip, name)
  | Some (path, name) =>
      match fuel with
      | O => fault "namex: loop"
      | S fuel =>
          ilock (Some ip);;
          i ← inode_at ip;
          if negb (i_type i =? T_DIR) then iunlockput ip;; mret (None, name) else
          if parent && (byte0 path =? 0) then iunlock (Some ip);; mret (Some ip, name) else
          r ← dirlookup ip name;
          match r with
          | None => iunlockput ip;; mret (None, name)
          | Some (next, _) =>
              iunlockput ip;;
              namex_loop fuel next path parent name
          end
      end
  end.

Definition namex (path : list Z) (parent : bool) (name : list Z) : K fsst (option nat * list Z) :=
  ip ← (if byte0 path =? 47 then iget ROOTDEV ROOTINO
        else me ← myproc;
             p ← proc_at me;
             match p_cwd p with
             | Some cwd => idup cwd
             | None => fault "namex: no cwd"
             end);
  namex_loop (length path) ip path parent name.

Definition namei (path : list Z) : K fsst (option nat) :=
  '(ip, _) ← namex path false (replicate DIRSIZ 0);
  mret ip.

(** The parent and the last element of the path. *)
Definition nameiparent (path name : list Z) : K fsst (option nat * list Z) := namex path true name.
End fs.
