(* ===== verification/FsView.v ===== *)
(** * The logical disk: what fs.c sees of the log and of the buffer cache

    Inside a transaction the file system reads and writes a logical disk, a
    function from block numbers to contents. [lview] relates it to the state of
    the log and of the cache; each operation of fs.c on a buffer is one lemma
    here, and the rest of the file system is verified against them. *)

From S2P Require Import Prelude Machine Spinlock Console Mem CString Kalloc Sched Sleeplock Ring Bytes Bio Cache Log Recovery Txn Fs.

(** The logical disk with new contents of block [b]. *)
Definition vset (V : Z → list Z) (b : Z) (d : list Z) : Z → list Z :=
  λ x, if decide (x = b) then d else V x.

Lemma vset_eq V b d : vset V b d b = d.
Proof. unfold vset. by rewrite -> decide_True. Qed.
Lemma vset_ne V b d x : x ≠ b → vset V b d x = V x.
Proof. intros. unfold vset. by rewrite -> decide_False. Qed.

(** The place of the log and the size of the disk, which no operation changes,
    and the number of open operations. *)
Record geometry : Type := MkGeo { g_start : Z; g_size : Z; g_nblocks : Z; g_open : Z }.

(** The blocks that are not in the log. *)
Definition home (g : geometry) (b : Z) : Prop :=
  0 ≤ b < g_nblocks g ∧ ¬ (g_start g ≤ b < g_start g + g_size g).

(** No buffer of [H] is of block [b]. *)
Definition unheld (H : gmap nat held) (b : Z) : Prop := ∀ i x, H !! i = Some x → hd_blk x ≠ b.

(** [V]: the logical disk; [H]: the buffers the process holds; [L]: the blocks
    of the transaction; [D] and [P]: the disk and the pinned blocks. *)
Record lviewp (g : geometry) (pid : Z) (s : logst) (V : Z → list Z) (H : gmap nat held) (L : list Z)
    (D : list (list Z)) (P : gmap Z (list Z)) : Prop := {
  lv_txn : txn pid s D P H L;
  lv_geo : lg_start s = g_start g ∧ lg_size s = g_size g ∧ Z.of_nat (length D) = g_nblocks g;
  lv_open : lg_outstanding s = g_open g ∧ 0 ≤ g_open g ∧ lg_committing s = false;
  lv_held : ∀ i x, H !! i = Some x → home g (hd_blk x) ∧ V (hd_blk x) = hd_data x ∧
    (hd_dirty x = false → D !! Z.to_nat (hd_blk x) = Some (hd_data x));
  lv_rest : ∀ b, home g b → unheld H b → V b = logical D P b
}.
Definition lview (g : geometry) (pid : Z) (s : logst) (V : Z → list Z) (H : gmap nat held) (L : list Z) : Prop :=
  ∃ D P, lviewp g pid s V H L D P.

(** An operation is open and the log has room for one more block. *)
Definition log_room (g : geometry) (L : list Z) : Prop :=
  1 ≤ g_open g ∧ Z.of_nat (length L) < Z.min LOGSIZE (g_size g - 1).
(** And the cache for [n] more buffers. *)
Definition cache_room (L : list Z) (H : gmap nat held) (n : nat) : Prop := (length L + size H + n ≤ NBUF)%nat.

Section view.
Context (iderw : nat → K bst unit) `{HBD : !BlockDev iderw} (p : nat) (pr : proc) (g : geometry).
Abbreviation pid := (p_pid pr).
Implicit Types (V : Z → list Z) (H : gmap nat held) (L : list Z).

Lemma pinned_count s D P H L :
  txn pid s D P H L → (size P ≤ length L)%nat.
Proof using Type.
  intros [_ HL _ Hp]. assert (dom P ⊆ list_to_set (C := gset Z) L) as Hsub.
  { intros b Hb%elem_of_dom. apply elem_of_list_to_set, Hp. by left. }
  apply subseteq_size in Hsub. rw size_dom size_list_to_set // in Hsub. apply (ll_nodup _ _ _ HL).
Qed.

Lemma zoom_fs {A} (m : K logst A) h s a h' l' :
  m (h, fs_log s) = Ok a (h', l') → zoom fs_logL m (h, s) = Ok a (h', set_fs_log l' s).
Proof using Type. intros E. unfold zoom. cbn. by rw E. Qed.

Lemma lview_disk s V H L D P b :
  lviewp g pid s V H L D P → home g b → ∃ d, D !! Z.to_nat b = Some d ∧ length d = Z.to_nat BSIZE ∧ bytes d.
Proof using Type.
  intros Hv [Hb _]. destruct (lookup_lt_is_Some_2 D (Z.to_nat b)) as [d Hd].
  { pose proof (lv_geo _ _ _ _ _ _ _ _ Hv). lia. }
  exists d. split; [done|]. destruct (cv_inv _ _ _ _ _ (tx_view _ _ _ _ _ _ (lv_txn _ _ _ _ _ _ _ _ Hv))) as [l Hc].
  pose proof (ci_disk _ _ Hc) as HD. rw (cv_disk _ _ _ _ _ (tx_view _ _ _ _ _ _ (lv_txn _ _ _ _ _ _ _ _ Hv))) in HD.
  unfold disk_ok in HD. rewrite -> Forall_lookup in HD. by eapply HD.
Qed.

(** Every block of the logical disk is a block of bytes. *)
Lemma lview_block s V H L b :
  lview g pid s V H L → home g b → length (V b) = Z.to_nat BSIZE ∧ bytes (V b).
Proof using Type.
  intros (D & P & Hv) Hb. pose proof (tx_view _ _ _ _ _ _ (lv_txn _ _ _ _ _ _ _ _ Hv)) as Hc.
  destruct (cv_inv _ _ _ _ _ Hc) as [l Hi]. pose proof (ci_bufs _ _ Hi) as HB. rewrite -> Forall_lookup in HB.
  destruct (decide (map_Exists (λ _ x, hd_blk x = b) H)) as [(i & x & Hx & <-)|Hn].
  - destruct (lv_held _ _ _ _ _ _ _ _ Hv i x Hx) as (_ & -> & _).
    destruct (cv_held _ _ _ _ _ Hc i x Hx) as (bf & [Hbf _ _ _ _] & <- & _). apply (bo_data _ _ (HB i bf Hbf)).
  - rewrite -> (lv_rest _ _ _ _ _ _ _ _ Hv b Hb) by (intros i x Hx E; apply Hn; by exists i, x).
    unfold logical. destruct (P !! b) as [d|] eqn:Ep; cbn [default].
    + apply (cv_pinned _ _ _ _ _ Hc) in Ep as (i & bf & Hbf & _ & _ & _ & <-). apply (bo_data _ _ (HB i bf Hbf)).
    + by destruct (lview_disk s V H L D P b Hv Hb) as (d & -> & Hd).
Qed.

(** ** The operations on buffers *)

Lemma fbread_run h s V H L b :
  ready p pr h → lview g pid (fs_log s) V H L → home g b → unheld H b → cache_room L H 1 →
  ∃ i dirty h' l', fbread iderw 1 b (h, s) = Ok i (h', set_fs_log l' s) ∧ ready p pr h' ∧ H !! i = None ∧
    lview g pid l' V (<[i := MkHeld b (V b) dirty]> H) L.
Proof using HBD.
  intros Hr (D & P & Hv) Hb Hu Hroom. destruct (lview_disk _ _ _ _ _ _ _ Hv Hb) as (d0 & Hd0 & _).
  pose proof (lv_txn _ _ _ _ _ _ _ _ Hv) as Ht. pose proof (pinned_count _ _ _ _ _ Ht) as Hpc.
  destruct Ht as [Hc HL Hsz Hp]. unfold cache_room in Hroom.
  destruct (cv_bread iderw p pr h _ D P H b d0 Hr Hc (proj1 (proj1 Hb)) Hd0 Hu) as (i & h' & b' & E & Hr' & Hi & Hc' & _);
    [right; lia|].
  assert (V b = default d0 (P !! b)) as EV.
  { rewrite -> (lv_rest _ _ _ _ _ _ _ _ Hv b Hb Hu). unfold logical. by rw Hd0. }
  rewrite <- EV in Hc'. set (dirty := bool_decide (is_Some (P !! b))) in *.
  exists i, dirty, h', (set_lg_b b' (fs_log s)). split_and!; [|done|done|].
  { unfold fbread. apply zoom_fs. by apply zoom_lg. }
  exists D, (delete b P). destruct Hv as [_ Hg Ho Hh Hre]. split; try done.
  - split; try done. { by eapply layout_length. }
    intros c. rw Hp. split.
    + intros [Hc1|(j & x & Hj & Hd & <-)].
      * destruct (decide (c = b)) as [->|]; [|left; by rw lookup_delete_ne].
        right. eexists i, _. rw lookup_insert_eq. split_and!; [done| |done]. cbn. unfold dirty. by apply bool_decide_eq_true.
      * right. exists j, x. rw lookup_insert_ne //. by intros ->; simplify_eq.
    + intros [Hc1|(j & x & Hj & Hd & <-)].
      * left. apply lookup_delete_is_Some in Hc1 as [_ ?]. done.
      * apply lookup_insert_Some in Hj as [[<- <-]|[? ?]]; [|right; by exists j, x]. left. cbn in *.
        by apply bool_decide_eq_true in Hd.
  - intros j x Hj. apply lookup_insert_Some in Hj as [[<- <-]|[_ Hj]]; [|by apply (Hh j)]. cbn. split_and!; [done..|].
    unfold dirty. intros Hn%bool_decide_eq_false. rw EV Hd0. destruct (P !! b); [destruct Hn; by eexists|done].
  - intros c Hc1 Hu1. assert (c ≠ b) as Hne by (intros ->; by eapply (Hu1 i); [apply lookup_insert_eq|]).
    rewrite -> (Hre c Hc1). { unfold logical. by rw lookup_delete_ne. }
    intros j x Hj. apply (Hu1 j). rw lookup_insert_ne //. by intros ->; simplify_eq.
Qed.

Lemma fdata_run h s V H L i x :
  lview g pid (fs_log s) V H L → H !! i = Some x → fdata i (h, s) = Ok (hd_data x) (h, s).
Proof using Type.
  intros (D & P & Hv) Hx. destruct (cv_data pr h _ _ _ _ i x (tx_view _ _ _ _ _ _ (lv_txn _ _ _ _ _ _ _ _ Hv)) Hx) as (b & E & Hd & _).
  unfold fdata. rewrite -> (zoom_fs _ h s (hd_data x) h (fs_log s)); [by destruct s|].
  rewrite -> (zoom_lg _ h (fs_log s) (hd_data x) h (lg_b (fs_log s))); [by destruct (fs_log s)|].
  unfold buf_data. rw (bind_ok _ _ _ _ _ E) Hd. done.
Qed.

(** [memmove(bp->data, ...); log_write(bp);] *)
Lemma fwrite_run h s V H L i x d :
  ready p pr h → lview g pid (fs_log s) V H L → H !! i = Some x → length d = Z.to_nat BSIZE → bytes d →
  log_room g L →
  ∃ l', (fset_data i d;; flog_write i) (h, s) = Ok tt (settle h, set_fs_log l' s) ∧
    lview g pid l' (vset V (hd_blk x) d) (<[i := MkHeld (hd_blk x) d true]> H) (logged L (hd_blk x)).
Proof using HBD.
  intros Hr (D & P & Hv) Hx Hlen Hby Hroom. pose proof Hv as [[Hc HL Hsz Hp] Hg Ho Hh Hre].
  destruct (Hh i x Hx) as (Hb & HVx & _). unfold log_room in Hroom.
  pose proof (cv_set_data pr _ _ _ _ i x d Hc Hx Hlen Hby) as Hc1.
  set (b1 := updbuf i (set_b_data d) (lg_b (fs_log s))) in *. set (l1 := set_lg_b b1 (fs_log s)).
  set (H1 := <[i := MkHeld (hd_blk x) d (hd_dirty x)]> H) in *.
  assert (txn pid l1 D P H1 L) as Ht1.
  { split; try done. { by eapply layout_length. }
    intros c. rw Hp. unfold H1. split; (intros [?|(j & y & Hj & Hd & <-)]; [by left|right]).
    - destruct (decide (j = i)) as [->|]; [|exists j, y; by rw lookup_insert_ne]. simplify_eq.
      eexists i, _. by rw lookup_insert_eq.
    - apply lookup_insert_Some in Hj as [[<- <-]|[? ?]]; [by exists i, x|by exists j, y]. }
  destruct (log_write_run iderw p pr h l1 D P H1 L i (MkHeld (hd_blk x) d (hd_dirty x)) Hr Ht1) as (b' & bl & n & E & _ & Ht' & _).
  - apply lookup_insert_eq.
  - cbn. destruct Hb. lia.
  - cbn. destruct Hb as [_ Hb]. lia.
  - cbn. pose proof (ll_n _ _ _ HL). lia.
  - cbn. pose proof (ll_n _ _ _ HL). lia.
  - cbn. lia.
  - eexists. split.
    + rw (bind_ok _ _ _ tt (h, set_fs_log l1 s)); [|unfold flog_write; exact (zoom_fs _ h (set_fs_log l1 s) _ _ _ E)].
      unfold fset_data. apply zoom_fs. apply zoom_lg. apply modbuf_run.
    + exists D, P. unfold H1 in Ht'. rw insert_insert_eq in Ht'. split; [exact Ht'|exact Hg|exact Ho|..].
      * intros j y Hj. apply lookup_insert_Some in Hj as [[<- <-]|[Hne Hj]]; [cbn; by rw vset_eq|].
        destruct (Hh j y Hj) as (? & ? & ?). split_and!; [done| |done]. rw vset_ne //.
        intros E2. apply Hne. destruct (cv_inv _ _ _ _ _ Hc) as [l Hi].
        destruct (cv_held _ _ _ _ _ Hc i x Hx) as (bi & [Hbi Hdi Hni _ _] & _).
        destruct (cv_held _ _ _ _ _ Hc j y Hj) as (bj & [Hbj Hdj Hnj _ _] & _).
        eapply (ci_uniq _ _ Hi); [exact Hbi|exact Hbj|done|done|congruence].
      * intros c Hc2 Hu2. assert (c ≠ hd_blk x) as Hne by (intros ->; by eapply (Hu2 i); [apply lookup_insert_eq|]).
        rw vset_ne //. apply Hre; [done|]. intros j y Hj. destruct (decide (j = i)) as [->|]; [by simplify_eq|].
        apply (Hu2 j). by rw lookup_insert_ne.
Qed.

Lemma fbrelse_run h s V H L i x :
  ready p pr h → lview g pid (fs_log s) V H L → H !! i = Some x →
  ∃ h' l', fbrelse i (h, s) = Ok tt (h', set_fs_log l' s) ∧ ready p pr h' ∧ lview g pid l' V (delete i H) L.
Proof using Type.
  intros Hr (D & P & Hv) Hx. pose proof Hv as [[Hc HL Hsz Hp] Hg Ho Hh Hre].
  destruct (Hh i x Hx) as (Hb & HVx & Hcl).
  destruct (cv_brelse p pr h _ D P H i x Hr Hc Hx Hcl) as (h' & b' & E & Hr' & Hc' & _).
  exists h', (set_lg_b b' (fs_log s)). split_and!; [unfold fbrelse; apply zoom_fs; by apply zoom_lg|done|].
  eexists D, _. split; [|done|done|..].
  - split; [exact Hc'|by eapply layout_length|done|]. intros c. rw Hp. destruct (hd_dirty x) eqn:Ed.
    + split.
      * intros [Hc1|(j & y & Hj & Hd & <-)].
        -- left. rw lookup_insert_is_Some. destruct (decide (hd_blk x = c)); auto.
        -- destruct (decide (j = i)) as [->|]; [simplify_eq; left; rw lookup_insert_is_Some; auto|].
           right. exists j, y. by rw lookup_delete_ne.
      * intros [Hc1|(j & y & Hj & Hd & <-)].
        -- apply lookup_insert_is_Some in Hc1 as [<-|[_ ?]]; [right; by exists i, x|by left].
        -- apply lookup_delete_Some in Hj as [_ Hj]. right. by exists j, y.
    + split; (intros [Hc1|(j & y & Hj & Hd & <-)]; [by left|right; exists j, y]).
      * rw lookup_delete_ne //. intros ->. simplify_eq. congruence.
      * by apply lookup_delete_Some in Hj as [_ Hj].
  - intros j y Hj. apply lookup_delete_Some in Hj as [_ Hj]. by apply (Hh j).
  - intros c Hc1 Hu1. destruct (decide (c = hd_blk x)) as [->|Hne].
    + rw HVx. unfold logical. destruct (hd_dirty x) eqn:Ed; [by rw lookup_insert_eq|]. 
      destruct (P !! hd_blk x) as [d|] eqn:Ep; [|cbn; by rw (Hcl eq_refl)].
      exfalso. apply (cv_pinned _ _ _ _ _ Hc) in Ep as (j & bj & Hbj & Hjn & Hf6 & Hn & _).
      destruct (cv_inv _ _ _ _ _ Hc) as [l Hi]. destruct (cv_held _ _ _ _ _ Hc i x Hx) as (bi & [Hbi Hdi Hni _ _] & _ & _ & Hfl).
      pose proof (ci_bufs _ _ Hi) as HB. rewrite -> Forall_lookup in HB.
      assert (j = i); [|by simplify_eq].
      eapply (ci_uniq _ _ Hi); [exact Hbj|exact Hbi| |done|congruence]. apply (bo_block _ _ (HB j bj Hbj)). lia.
    + rewrite -> (Hre c Hc1). { unfold logical. destruct (hd_dirty x); [by rw lookup_insert_ne|done]. }
      intros j y Hj. destruct (decide (j = i)) as [->|]; [simplify_eq; congruence|]. apply (Hu1 j). by rw lookup_delete_ne.
Qed.

(** A block changed by the process that holds it: the end of [balloc],
    [bfree], [iupdate] and the like, before the continuation [k]. *)
Lemma fcommit_run h s V H L i x d :
  ready p pr h → lview g pid (fs_log s) V H L → H !! i = Some x → length d = Z.to_nat BSIZE → bytes d →
  log_room g L →
  ∃ h' l', (∀ A (k : K fsst A), (fset_data i d;; flog_write i;; fbrelse i;; k) (h, s) = k (h', set_fs_log l' s)) ∧
    (fset_data i d;; flog_write i;; fbrelse i) (h, s) = Ok tt (h', set_fs_log l' s) ∧ ready p pr h' ∧
    lview g pid l' (vset V (hd_blk x) d) (delete i H) (logged L (hd_blk x)).
Proof using HBD.
  intros Hr Hv Hx Hlen Hby Hroom.
  destruct (fwrite_run h s V H L i x d Hr Hv Hx Hlen Hby Hroom) as (l1 & E1 & Hv1).
  pose proof (ready_settle p pr h Hr) as Hr1.
  destruct (fbrelse_run (settle h) (set_fs_log l1 s) _ _ _ i _ Hr1 Hv1 (lookup_insert_eq _ _ _)) as (h2 & l2 & E2 & Hr2 & Hv2).
  rw delete_insert_eq in Hv2. exists h2, l2. split_and!; [| |done|done].
  - intros A k. rw -bind_assoc (bind_ok _ _ _ _ _ E1) (bind_ok _ _ _ _ _ E2). done.
  - rw -bind_assoc (bind_ok _ _ _ _ _ E1) E2. done.
Qed.

Lemma unheld_insert H i x b : unheld H b → hd_blk x ≠ b → unheld (<[i := x]> H) b.
Proof using Type. intros Hu Hx j y Hj. apply lookup_insert_Some in Hj as [[_ <-]|[_ Hj]]; [done|by apply (Hu j)]. Qed.

Lemma logged_le L b : (length (logged L b) ≤ S (length L))%nat.
Proof using Type. unfold logged. case_decide; [lia|]. rw length_app /=. lia. Qed.

Lemma bzero_run h s V H L b :
  ready p pr h → lview g pid (fs_log s) V H L → home g b → unheld H b → cache_room L H 1 → log_room g L →
  0 ≤ b < 2 ^ 32 →
  ∃ h' l', bzero iderw 1 b (h, s) = Ok tt (h', set_fs_log l' s) ∧ ready p pr h' ∧
    lview g pid l' (vset V b (replicate (Z.to_nat BSIZE) 0)) H (logged L b).
Proof using HBD.
  intros Hr Hv Hb Hu Hc Hl Hrng. unfold bzero. rewrite -> (wrapu_small 32 b) by lia.
  destruct (fbread_run h s V H L b Hr Hv Hb Hu Hc) as (i & dirty & h1 & l1 & E1 & Hr1 & Hi & Hv1).
  rw (bind_ok _ _ _ _ _ E1).
  destruct (fcommit_run h1 (set_fs_log l1 s) V _ L i _ (replicate (Z.to_nat BSIZE) 0) Hr1 Hv1 (lookup_insert_eq _ _ _))
    as (h2 & l2 & _ & E2 & Hr2 & Hv2); [by rw length_replicate|by apply Forall_replicate|done|].
  exists h2, l2. split_and!; [exact E2|done|]. cbn [hd_blk] in Hv2. by rewrite -> delete_insert_id in Hv2 by done.
Qed.
End view.

(** ** A small file system

    24 blocks: the log in blocks 2 to 15, the inodes in block 16, the bitmap in
    block 17 and the root directory in block 18. *)

Definition pad (l : list Z) : list Z := l ++ replicate (Z.to_nat BSIZE - length l) 0.

Lemma pad_ok l : (length l ≤ Z.to_nat BSIZE)%nat → bytes l → length (pad l) = Z.to_nat BSIZE ∧ bytes (pad l).
Proof.
  intros Hl Hb. unfold pad. split; [rw length_app length_replicate; lia|].
  apply Forall_app. split; [done|]. by apply Forall_replicate.
Qed.

Definition ex_dinode : list Z := [1; 0; 0; 0; 0; 0; 1; 0; 32; 0; 0; 0; 18; 0; 0; 0].
Definition ex_inodes : list Z := pad (replicate 64 0 ++ ex_dinode).
Definition ex_bitmap : list Z := pad [255; 255; 7].
Definition ex_rootdir : list Z :=
  pad ([1; 0; 46] ++ replicate 13 0 ++ [1; 0; 46; 46] ++ replicate 12 0).
Definition ex_fsdisk : list (list Z) :=
  replicate 16 zero_block ++ [ex_inodes; ex_bitmap; ex_rootdir] ++ replicate 5 zero_block.

Ltac bytes_tac :=
  repeat first [apply Forall_nil_2 | apply Forall_app_2 | apply Forall_replicate; done | apply Forall_cons_2; [done|]].

Lemma ex_fsdisk_ok : disk_ok ex_fsdisk.
Proof.
  unfold disk_ok, ex_fsdisk. apply Forall_app_2; [apply Forall_replicate, zero_block_ok|].
  apply Forall_app_2; [|apply Forall_replicate, zero_block_ok].
  repeat (apply Forall_cons_2); [..|apply Forall_nil_2].
  all: apply pad_ok; [rw ?length_app ?length_replicate; cbn; unfold BSIZE; lia|unfold ex_dinode, bytes; bytes_tac].
Qed.

Definition ex_geo : geometry := MkGeo 2 14 24 1.
Definition ex_fslog (b : bst) : logst := MkLog b 2 14 1 false 1 0 (replicate (Z.to_nat LOGSIZE) 0).
Definition ex_V (b : Z) : list Z := default [] (ex_fsdisk !! Z.to_nat b).
Definition ex_sb : superblock := MkSb 24 5 8 14 2 16 17.

Lemma ex_lview : ∃ b, lview ex_geo 7 (ex_fslog b) ex_V ∅ [].
Proof.
  destruct (binit_inv ex_machine (set_bc_disksize 24 (set_bc_disk ex_fsdisk ex_bst)) eq_refl eq_refl ex_fsdisk_ok eq_refl)
    as (b & _ & Hc & Hcore & HD).
  pose proof (fresh_view 7 b _ _ Hc Hcore HD) as Hv. cbn [bc_disk set_bc_disk set_bc_disksize] in Hv.
  assert (length ex_fsdisk = 24%nat) as Hlen by reflexivity.
  exists b, ex_fsdisk, ∅. split.
  - split; [exact Hv| |by unfold NBUF; cbn|].
    + split; rw ?Hlen; cbn [ex_fslog lg_dev lg_start lg_size lg_n lg_block length]; try lia; try done; try constructor.
    + intros c. split; [by intros ?%not_elem_of_nil|]. intros [[d Hd]|(i & x & Hx & _)]; by rw lookup_empty in Hd || rw lookup_empty in Hx.
  - done.
  - done.
  - intros i x Hx. by rw lookup_empty in Hx.
  - intros c _ _. unfold logical, ex_V. by rw lookup_empty.
Qed.
