(* ===== verification/Balloc.v ===== *)
(** * The block allocator: [balloc] and [bfree] of fs.c

    The bitmap has a bit for every block of the disk. *)

From S2P Require Import Prelude Machine Spinlock Console Mem CString Kalloc Sched Sleeplock Ring Bytes Bio Cache Log Recovery Txn Fs FsView.

(** ** Bits of a block *)

Lemma nth_alter (f : Z → Z) (i j : nat) (d : list Z) :
  (j < length d)%nat → nth i (alter f j d) 0 = if decide (i = j) then f (nth i d 0) else nth i d 0.
Proof.
  intros Hj. rw !nth_lookup list_lookup_alter. case_decide; [|by rewrite -> decide_False by congruence].
  subst j. rewrite -> decide_True by done. destruct (lookup_lt_is_Some_2 d i Hj) as [x ->]. done.
Qed.

Lemma byte_bits x : is_byte x ↔ 0 ≤ x ∧ ∀ k, 8 ≤ k → Z.testbit x k = false.
Proof.
  unfold is_byte. split.
  - intros Hx. split; [lia|]. intros k Hk. destruct (Z.eq_dec x 0) as [->|]; [apply Z.bits_0|].
    apply Z.bits_above_log2; [lia|]. apply Z.log2_lt_pow2; [lia|].
    assert (2 ^ 8 ≤ 2 ^ k) by (apply Z.pow_le_mono_r; lia). lia.
  - intros [Hx Hk]. split; [done|]. destruct (Z.lt_ge_cases x 256) as [|Hge]; [done|exfalso].
    assert (0 < x) by lia. pose proof (Z.bit_log2 x ltac:(lia)) as Hb. rw Hk in Hb; [|done].
    apply Z.log2_le_pow2; lia.
Qed.

Section bits.
Implicit Types (d : list Z) (bi bj : Z).

Lemma bit_index bi d : 0 ≤ bi < 8 * Z.of_nat (length d) → (Z.to_nat (bi / 8) < length d)%nat.
Proof. intros. assert (0 ≤ bi / 8 < Z.of_nat (length d)) by (split; [apply Z.div_pos|apply Z.div_lt_upper_bound]; lia). lia. Qed.

Lemma bit_same bi bj : 0 ≤ bi → 0 ≤ bj → (bi / 8 = bj / 8 ∧ bi mod 8 = bj mod 8) ↔ bi = bj.
Proof. intros. split; [|by intros ->]. intros [H1 H2]. rw (Z.div_mod bi 8) // (Z.div_mod bj 8) // H1 H2. done. Qed.

Lemma bit_of_set d bi bj :
  0 ≤ bi < 8 * Z.of_nat (length d) → 0 ≤ bj →
  bit_of (set_bit d bi) bj = (bj =? bi) || bit_of d bj.
Proof.
  intros Hi Hj. unfold bit_of, set_bit. rewrite -> nth_alter by (by apply bit_index).
  pose proof (Z.div_pos bj 8 ltac:(lia) ltac:(lia)). pose proof (Z.div_pos bi 8 ltac:(lia) ltac:(lia)).
  pose proof (bit_same bj bi Hj (proj1 Hi)) as Hs.
  case_decide as E.
  - apply Z2Nat.inj in E; [|lia..]. rw Z.lor_spec Z.shiftl_1_l Z.pow2_bits_eqb; [dlia|].
    rw orb_comm. f_equal. apply eq_bool_prop_intro. split; intros H2%Is_true_eq_true; apply Is_true_eq_left.
    + apply Z.eqb_eq in H2. apply Z.eqb_eq, Hs. lia.
    + apply Z.eqb_eq in H2. subst. apply Z.eqb_refl.
  - rewrite -> (proj2 (Z.eqb_neq bj bi)); [done|]. intros ->. done.
Qed.

Lemma bit_of_clear d bi bj :
  0 ≤ bi < 8 * Z.of_nat (length d) → 0 ≤ bj →
  bit_of (clear_bit d bi) bj = negb (bj =? bi) && bit_of d bj.
Proof.
  intros Hi Hj. unfold bit_of, clear_bit. rewrite -> nth_alter by (by apply bit_index).
  pose proof (Z.div_pos bj 8 ltac:(lia) ltac:(lia)). pose proof (Z.div_pos bi 8 ltac:(lia) ltac:(lia)).
  pose proof (bit_same bj bi Hj (proj1 Hi)) as Hs.
  case_decide as E.
  - apply Z2Nat.inj in E; [|lia..].
    assert (0 ≤ bj mod 8) by dlia. rw Z.land_spec Z.lnot_spec // Z.shiftl_1_l Z.pow2_bits_eqb; [dlia|].
    rw andb_comm. f_equal. f_equal. apply eq_bool_prop_intro. split; intros H2%Is_true_eq_true; apply Is_true_eq_left.
    + apply Z.eqb_eq in H2. apply Z.eqb_eq, Hs. lia.
    + apply Z.eqb_eq in H2. subst. apply Z.eqb_refl.
  - rewrite -> (proj2 (Z.eqb_neq bj bi)); [done|]. intros ->. done.
Qed.

Lemma bytes_alter (f : Z → Z) j d : (∀ x, is_byte x → is_byte (f x)) → bytes d → bytes (alter f j d).
Proof.
  intros Hf Hd. unfold bytes in *. rewrite -> Forall_lookup in *. intros i x. rw list_lookup_alter. case_decide.
  - subst. intros (y & Hy & ->)%fmap_Some. by eapply Hf, Hd.
  - apply Hd.
Qed.

Lemma set_bit_ok d bi :
  length d = Z.to_nat BSIZE → bytes d → length (set_bit d bi) = Z.to_nat BSIZE ∧ bytes (set_bit d bi).
Proof.
  intros Hl Hb. unfold set_bit. split; [by rw length_alter|]. apply bytes_alter; [|done].
  intros x [Hx Hk]%byte_bits. apply byte_bits. split.
  - apply Z.lor_nonneg. split; [done|]. rw Z.shiftl_1_l. apply Z.pow_nonneg. lia.
  - intros k Hk'. rewrite -> Z.lor_spec, Hk, Z.shiftl_1_l, Z.pow2_bits_false by (dlia). done.
Qed.

Lemma clear_bit_ok d bi :
  length d = Z.to_nat BSIZE → bytes d → length (clear_bit d bi) = Z.to_nat BSIZE ∧ bytes (clear_bit d bi).
Proof.
  intros Hl Hb. unfold clear_bit. split; [by rw length_alter|]. apply bytes_alter; [|done].
  intros x [Hx Hk]%byte_bits. apply byte_bits. split; [apply Z.land_nonneg; by left|].
  intros k Hk'. rw Z.land_spec Hk //.
Qed.

Lemma balloc_scan_spec n d : ∀ bi,
  match balloc_scan n d bi with
  | Some k => bi ≤ k < bi + Z.of_nat n ∧ bit_of d k = false ∧ ∀ j, bi ≤ j < k → bit_of d j = true
  | None => ∀ j, bi ≤ j < bi + Z.of_nat n → bit_of d j = true
  end.
Proof.
  induction n as [|n IH]; intros bi; cbn [balloc_scan]; [intros; lia|]. destruct (bit_of d bi) eqn:E; cbn [negb].
  - specialize (IH (bi + 1)). destruct (balloc_scan n d (bi + 1)) as [k|].
    + destruct IH as (H1 & H2 & H3). split_and!; [lia..|done|]. intros j Hj.
      destruct (decide (j = bi)) as [->|]; [done|]. apply H3. lia.
    + intros j Hj. destruct (decide (j = bi)) as [->|]; [done|]. apply IH. lia.
  - split_and!; [lia..|done|]. intros; lia.
Qed.
End bits.

(** ** The bitmap *)

Definition used (sb : superblock) (V : Z → list Z) (b : Z) : bool := bit_of (V (BBLOCK b sb)) (b mod BPB).

(** The bitmap covers the disk, outside the log. *)
Record sb_ok (g : geometry) (sb : superblock) : Prop := {
  so_size : sb_size sb = g_nblocks g ∧ 0 < sb_size sb < 2 ^ 31;
  so_bmap : 0 ≤ sb_bmapstart sb ∧ sb_bmapstart sb + sb_size sb < 2 ^ 32;
  so_home : ∀ b, 0 ≤ b < sb_size sb → home g (BBLOCK b sb)
}.

(** A free block can be handed out: it is neither in the log nor in the bitmap
    itself. *)
Definition bitmap_ok (g : geometry) (sb : superblock) (V : Z → list Z) : Prop :=
  ∀ b, 0 ≤ b < sb_size sb → used sb V b = false →
    home g b ∧ ∀ c, 0 ≤ c < sb_size sb → BBLOCK c sb ≠ b.

(** The buffers of [H] are of blocks in use outside the bitmap. *)
Definition held_used (sb : superblock) (V : Z → list Z) (H : gmap nat held) : Prop :=
  ∀ i x, H !! i = Some x →
    (∀ c, 0 ≤ c < sb_size sb → BBLOCK c sb ≠ hd_blk x) ∧
    (0 ≤ hd_blk x < sb_size sb → used sb V (hd_blk x) = true).

(** The logical disk after [balloc] of block [b], and after [bfree]. *)
Definition mark (sb : superblock) (V : Z → list Z) (b : Z) : Z → list Z :=
  vset V (BBLOCK b sb) (set_bit (V (BBLOCK b sb)) (b mod BPB)).
Definition zeros : list Z := replicate (Z.to_nat BSIZE) 0.
Definition allocated (sb : superblock) (V : Z → list Z) (b : Z) : Z → list Z := vset (mark sb V b) b zeros.
Definition released (sb : superblock) (V : Z → list Z) (b : Z) : Z → list Z :=
  vset V (BBLOCK b sb) (clear_bit (V (BBLOCK b sb)) (b mod BPB)).

Section bitmap.
Context (g : geometry) (sb : superblock) (Hsb : sb_ok g sb).
Implicit Types (V : Z → list Z).

Lemma bblock_eq b : 0 ≤ b < sb_size sb → BBLOCK b sb = b / BPB + sb_bmapstart sb.
Proof using Hsb.
  intros Hb. destruct Hsb as [Hs Hm _]. unfold BBLOCK. apply wrapu_small.
  assert (0 ≤ b / BPB ≤ b) by (unfold BPB, BSIZE; dlia). lia.
Qed.

Lemma same_bit b c : 0 ≤ b < sb_size sb → 0 ≤ c < sb_size sb → BBLOCK b sb = BBLOCK c sb → b mod BPB = c mod BPB → b = c.
Proof using Hsb.
  intros Hb Hc. rw !bblock_eq //. intros H1 H2. rw (Z.div_mod b BPB) // (Z.div_mod c BPB) // H2.
  replace (b / BPB) with (c / BPB) by lia. done.
Qed.

(** A block of the bitmap has a bit for every [b mod BPB]. *)
Lemma bit_range (b : Z) (d : list Z) : length d = Z.to_nat BSIZE → 0 ≤ b mod BPB < 8 * Z.of_nat (length d).
Proof using Type. intros ->. unfold BPB, BSIZE. dlia. Qed.

Lemma used_mark V b c :
  0 ≤ b < sb_size sb → 0 ≤ c < sb_size sb → length (V (BBLOCK b sb)) = Z.to_nat BSIZE →
  used sb (mark sb V b) c = (c =? b) || used sb V c.
Proof using Hsb.
  intros Hb Hc Hl. unfold used, mark. destruct (decide (BBLOCK c sb = BBLOCK b sb)) as [E|E].
  - rw E vset_eq bit_of_set; [by apply bit_range|unfold BPB, BSIZE; dlia|]. f_equal.
    destruct (Z.eqb_spec c b) as [->|Hne]; [by rw Z.eqb_refl|]. apply Z.eqb_neq. intros E2. apply Hne. by apply same_bit.
  - rw vset_ne //. rewrite -> (proj2 (Z.eqb_neq c b)) by congruence. done.
Qed.

Lemma used_allocated V b c :
  0 ≤ b < sb_size sb → 0 ≤ c < sb_size sb → length (V (BBLOCK b sb)) = Z.to_nat BSIZE →
  (∀ c, 0 ≤ c < sb_size sb → BBLOCK c sb ≠ b) →
  used sb (allocated sb V b) c = (c =? b) || used sb V c.
Proof using Hsb. intros Hb Hc Hl Hn. rewrite <- used_mark by done. unfold used, allocated. by rewrite -> vset_ne by (by apply Hn). Qed.

Lemma used_released V b c :
  0 ≤ b < sb_size sb → 0 ≤ c < sb_size sb → length (V (BBLOCK b sb)) = Z.to_nat BSIZE →
  used sb (released sb V b) c = negb (c =? b) && used sb V c.
Proof using Hsb.
  intros Hb Hc Hl. unfold used, released. destruct (decide (BBLOCK c sb = BBLOCK b sb)) as [E|E].
  - rw E vset_eq bit_of_clear; [by apply bit_range|unfold BPB, BSIZE; dlia|]. f_equal. f_equal.
    destruct (Z.eqb_spec c b) as [->|Hne]; [by rw Z.eqb_refl|]. apply Z.eqb_neq. intros E2. apply Hne. by apply same_bit.
  - rw vset_ne //. rewrite -> (proj2 (Z.eqb_neq c b)) by congruence. done.
Qed.
End bitmap.

(** ** The operations *)

Section balloc.
Context (iderw : nat → K bst unit) `{HBD : !BlockDev iderw} (p : nat) (pr : proc) (g : geometry).
Abbreviation pid := (p_pid pr).
Implicit Types (V : Z → list Z) (H : gmap nat held) (L : list Z).

(** Room for the blocks that [balloc] writes. *)
Definition alloc_room (sb : superblock) (L : list Z) (H : gmap nat held) : Prop :=
  log_room g L ∧ (∀ b, 0 ≤ b < sb_size sb → log_room g (logged L (BBLOCK b sb))) ∧ cache_room L H 2.

Lemma balloc_found h s V H L b bi i dirty :
  ready p pr h → sb_ok g (fs_sb s) → bitmap_ok g (fs_sb s) V → held_used (fs_sb s) V H → H !! i = None →
  let sb := fs_sb s in let c := b + bi in let k := BBLOCK b sb in
  lview g pid (fs_log s) V (<[i := MkHeld k (V k) dirty]> H) L → alloc_room sb L H →
  b mod BPB = 0 → 0 ≤ b → 0 ≤ bi < BPB → c < sb_size sb → used sb V c = false →
  ∃ h' l', (fset_data i (set_bit (V k) bi);; flog_write i;; fbrelse i;; bzero iderw 1 c;; mret c) (h, s)
      = Ok c (h', set_fs_log l' s) ∧ ready p pr h' ∧
    lview g pid l' (allocated sb V c) H (logged (logged L (BBLOCK c sb)) c).
Proof using HBD.
  intros Hr Hsb Hbm Hhu Hi sb c k Hv (Hl1 & Hl2 & Hc) Hb Hb0 Hbi Hcs Hfree.
  assert (BBLOCK c sb = k ∧ c mod BPB = bi) as [Ek Em].
  { unfold k, c, BBLOCK. assert ((b + bi) / BPB = b / BPB ∧ (b + bi) mod BPB = bi) as [-> ->]; [|done].
    unfold BPB, BSIZE in *. dlia. }
  assert (0 ≤ c < sb_size sb) as Hcr by (unfold c in *; lia). destruct (Hbm c Hcr Hfree) as [Hch Hcb].
  assert (0 ≤ b < sb_size sb) as Hbr by (unfold c in *; lia). pose proof (so_home _ _ Hsb b Hbr) as Hkh. fold sb k in Hkh.
  destruct (lview_block pr g _ _ _ _ k Hv Hkh) as [Hkl Hkb].
  destruct (set_bit_ok (V k) bi Hkl Hkb) as [Hsl Hsbb].
  destruct (fcommit_run iderw p pr g h s V _ L i _ (set_bit (V k) bi) Hr Hv (lookup_insert_eq _ _ _) Hsl Hsbb Hl1)
    as (h1 & l1 & E1 & _ & Hr1 & Hv1). cbn [hd_blk] in Hv1. rewrite -> delete_insert_id in Hv1 by done.
  rw E1. set (s1 := set_fs_log l1 s).
  destruct (bzero_run iderw p pr g h1 s1 _ H (logged L k) c Hr1 Hv1 Hch) as (h2 & l2 & E2 & Hr2 & Hv2).
  - intros j x Hj E. destruct (Hhu j x Hj) as [_ Hu]. rewrite -> E in Hu. specialize (Hu Hcr). fold sb in Hu. congruence.
  - unfold cache_room in *. pose proof (logged_le L k). lia.
  - by apply (Hl2 b).
  - destruct Hsb as [Hs _ _]. fold sb in Hs. lia.
  - exists h2, l2. split_and!; [by rw (bind_ok _ _ _ _ _ E2)|done|]. unfold allocated, mark. rw Ek Em. exact Hv2.
Qed.

(** The loop from block [b] on, when the blocks before [b] are in use. *)
Lemma balloc_loop_run fuel : ∀ h s V H L b,
  ready p pr h → sb_ok g (fs_sb s) → bitmap_ok g (fs_sb s) V → held_used (fs_sb s) V H →
  let sb := fs_sb s in
  lview g pid (fs_log s) V H L → alloc_room sb L H →
  b mod BPB = 0 → 0 ≤ b → sb_size sb - b < BPB * Z.of_nat fuel →
  (∀ c, 0 ≤ c < b → c < sb_size sb → used sb V c = true) →
  (∃ c h' l', balloc_loop iderw fuel 1 b (h, s) = Ok c (h', set_fs_log l' s) ∧ ready p pr h' ∧
     0 ≤ c < sb_size sb ∧ used sb V c = false ∧ (∀ c', 0 ≤ c' < c → used sb V c' = true) ∧
     lview g pid l' (allocated sb V c) H (logged (logged L (BBLOCK c sb)) c)) ∨
  ((∀ c, 0 ≤ c < sb_size sb → used sb V c = true) ∧
   ∃ h' l', balloc_loop iderw fuel 1 b (h, s) = Stop (Panic "balloc: out of blocks") (h', set_fs_log l' s) ∧
     lview g pid l' V H L).
Proof using HBD.
  induction fuel as [|fuel IH]; intros h s V H L b Hr Hsb Hbm Hhu sb Hv Hroom Hb Hb0 Hfuel Hall;
    cbn [balloc_loop]; rw (bind_ok _ _ _ s (h, s)) //; fold sb.
  - rewrite -> (proj2 (Z.ltb_ge _ _)) by lia. right. split; [intros c Hc; apply Hall; lia|].
    exists h, (fs_log s). split; [by destruct s|done].
  - destruct (Z.ltb_spec b (sb_size sb)) as [Hlt|Hge]; cbn [negb].
    2:{ right. split; [intros c Hc; apply Hall; lia|]. exists h, (fs_log s). split; [by destruct s|done]. }
    set (k := BBLOCK b sb). pose proof Hroom as (_ & _ & Hc2). unfold cache_room in Hc2.
    assert (home g k) as Hkh by (exact (so_home _ _ Hsb b (conj Hb0 Hlt))).
    assert (unheld H k) as Huk by (intros j x Hj E; destruct (Hhu j x Hj) as [Hn _]; by apply (Hn b (conj Hb0 Hlt))).
    destruct (fbread_run iderw p pr g h s V H L k Hr Hv Hkh Huk) as (i & dirty & h1 & l1 & E1 & Hr1 & Hi & Hv1);
      [unfold cache_room; lia|].
    rw (bind_ok _ _ _ _ _ E1). set (s1 := set_fs_log l1 s).
    rw (bind_ok _ _ _ _ _ (fdata_run pr g h1 s1 _ _ _ i _ Hv1 (lookup_insert_eq _ _ _))). cbn [hd_data].
    pose proof (balloc_scan_spec (Z.to_nat (Z.min BPB (sb_size sb - b))) (V k) 0) as Hscan.
    assert (∀ bi, 0 ≤ bi < BPB → b + bi < sb_size sb → used sb V (b + bi) = bit_of (V k) bi) as Hbit.
    { intros bi Hbi Hbs. unfold used, k, BBLOCK. assert ((b + bi) / BPB = b / BPB ∧ (b + bi) mod BPB = bi) as [-> ->]; [|done].
      unfold BPB, BSIZE in *. dlia. }
    destruct (balloc_scan _ (V k) 0) as [bi|].
    + destruct Hscan as (Hbi & Hz & Hbefore).
      destruct (balloc_found h1 s1 V H L b bi i dirty Hr1 Hsb Hbm Hhu Hi Hv1 Hroom Hb Hb0) as (h2 & l2 & E2 & Hr2 & Hv2);
        [lia|change (fs_sb s1) with sb; lia|change (fs_sb s1) with sb; rw Hbit; [lia..|done]|].
      left. exists (b + bi), h2, l2. split_and!; [exact E2|done|lia|lia|rw Hbit; [lia..|done]| |exact Hv2].
      intros c' Hc'. destruct (Z.lt_ge_cases c' b); [apply Hall; lia|].
      replace c' with (b + (c' - b)) by lia. rw Hbit; [lia..|]. apply Hbefore. lia.
    + destruct (fbrelse_run p pr g h1 s1 _ _ _ i _ Hr1 Hv1 (lookup_insert_eq _ _ _)) as (h2 & l2 & E2 & Hr2 & Hv2).
      rw (bind_ok _ _ _ _ _ E2). rewrite -> delete_insert_id in Hv2 by done.
      apply (IH h2 (set_fs_log l2 s1) V H L (b + BPB)); try done.
      * unfold BPB, BSIZE in *. dlia.
      * unfold BPB, BSIZE in *. lia.
      * change (fs_sb (set_fs_log l2 s1)) with sb. lia.
      * intros c Hc Hcs. destruct (Z.lt_ge_cases c b); [apply Hall; lia|]. change (fs_sb (set_fs_log l2 s1)) with sb in *.
        replace c with (b + (c - b)) by lia. rw Hbit; [lia..|]. apply Hscan. lia.
Qed.

Lemma balloc_run h s V H L :
  ready p pr h → sb_ok g (fs_sb s) → bitmap_ok g (fs_sb s) V → held_used (fs_sb s) V H →
  let sb := fs_sb s in
  lview g pid (fs_log s) V H L → alloc_room sb L H →
  (∃ c h' l', balloc iderw 1 (h, s) = Ok c (h', set_fs_log l' s) ∧ ready p pr h' ∧
     0 ≤ c < sb_size sb ∧ used sb V c = false ∧ (∀ c', 0 ≤ c' < c → used sb V c' = true) ∧
     lview g pid l' (allocated sb V c) H (logged (logged L (BBLOCK c sb)) c)) ∨
  ((∀ c, 0 ≤ c < sb_size sb → used sb V c = true) ∧
   ∃ h' l', balloc iderw 1 (h, s) = Stop (Panic "balloc: out of blocks") (h', set_fs_log l' s) ∧
     lview g pid l' V H L).
Proof using HBD.
  intros Hr Hsb Hbm Hhu sb Hv Hroom. unfold balloc. rw (bind_ok _ _ _ s (h, s)) //.
  apply balloc_loop_run; try done; [|intros; lia]. fold sb. destruct Hsb as [Hs _ _]. fold sb in Hs.
  unfold BPB, BSIZE. dlia.
Qed.

Lemma bfree_run h s V H L b :
  ready p pr h → sb_ok g (fs_sb s) → let sb := fs_sb s in
  lview g pid (fs_log s) V H L → 0 ≤ b < sb_size sb → unheld H (BBLOCK b sb) → cache_room L H 1 → log_room g L →
  if used sb V b
  then ∃ h' l', bfree iderw 1 b (h, s) = Ok tt (h', set_fs_log l' s) ∧ ready p pr h' ∧
         lview g pid l' (released sb V b) H (logged L (BBLOCK b sb))
  else ∃ h' l', bfree iderw 1 b (h, s) = Stop (Panic "freeing free block") (h', set_fs_log l' s).
Proof using HBD.
  intros Hr Hsb sb Hv Hb Hu Hc Hl. unfold bfree. rw (bind_ok _ _ _ s (h, s)) //. fold sb.
  set (k := BBLOCK b sb) in *. pose proof (so_home _ _ Hsb b Hb) as Hkh. fold sb k in Hkh.
  destruct (fbread_run iderw p pr g h s V H L k Hr Hv Hkh Hu Hc) as (i & dirty & h1 & l1 & E1 & Hr1 & Hi & Hv1).
  rw (bind_ok _ _ _ _ _ E1). set (s1 := set_fs_log l1 s).
  rw (bind_ok _ _ _ _ _ (fdata_run pr g h1 s1 _ _ _ i _ Hv1 (lookup_insert_eq _ _ _))). cbn [hd_data].
  unfold used. fold k. destruct (bit_of (V k) (b mod BPB)) eqn:Eb; cbn [negb]; [|by exists h1, l1].
  destruct (lview_block pr g _ _ _ _ k Hv Hkh) as [Hkl Hkb].
  destruct (clear_bit_ok (V k) (b mod BPB) Hkl Hkb) as [Hsl Hsbb].
  destruct (fcommit_run iderw p pr g h1 s1 V _ L i _ _ Hr1 Hv1 (lookup_insert_eq _ _ _) Hsl Hsbb Hl)
    as (h2 & l2 & _ & E2 & Hr2 & Hv2). cbn [hd_blk] in Hv2. rewrite -> delete_insert_id in Hv2 by done.
  exists h2, l2. split_and!; [exact E2|done|exact Hv2].
Qed.
End balloc.

(** ** Properties *)

Section properties.
Context (iderw : nat → K bst unit) `{HBD : !BlockDev iderw} (p : nat) (pr : proc) (g : geometry).
Abbreviation pid := (p_pid pr).

(** C38: the block allocator. [balloc] returns the first block that is free in
    the bitmap, marks that block and no other one, and fills it with zeros; if
    no block is free it panics. [bfree] of a block in use clears its bit and no
    other one, and of a free block panics. Neither changes a block outside
    the bitmap, apart from the one allocated, and what changes is logged in
    the transaction: the bitmap block, and after it the block allocated. *)
Theorem balloc_bfree_correct h s V H L :
  let sb := fs_sb s in
  ready p pr h → sb_ok g sb → bitmap_ok g sb V → held_used sb V H →
  lview g pid (fs_log s) V H L → alloc_room g sb L H →
  ((∃ c h' l' V', balloc iderw 1 (h, s) = Ok c (h', set_fs_log l' s) ∧ ready p pr h' ∧
      lview g pid l' V' H (logged (logged L (BBLOCK c sb)) c) ∧ 0 ≤ c < sb_size sb ∧
      used sb V c = false ∧ (∀ x, 0 ≤ x < c → used sb V x = true) ∧ V' c = zeros ∧
      (∀ x, 0 ≤ x < sb_size sb → used sb V' x = (x =? c) || used sb V x) ∧
      (∀ x, x ≠ c → x ≠ BBLOCK c sb → V' x = V x)) ∨
   ((∀ c, 0 ≤ c < sb_size sb → used sb V c = true) ∧
    ∃ h' l', balloc iderw 1 (h, s) = Stop (Panic "balloc: out of blocks") (h', set_fs_log l' s))) ∧
  (∀ b, 0 ≤ b < sb_size sb →
   (used sb V b = true → ∃ h' l' V', bfree iderw 1 b (h, s) = Ok tt (h', set_fs_log l' s) ∧ ready p pr h' ∧
      lview g pid l' V' H (logged L (BBLOCK b sb)) ∧
      (∀ x, 0 ≤ x < sb_size sb → used sb V' x = negb (x =? b) && used sb V x) ∧
      (∀ x, x ≠ BBLOCK b sb → V' x = V x)) ∧
   (used sb V b = false → ∃ h' l', bfree iderw 1 b (h, s) = Stop (Panic "freeing free block") (h', set_fs_log l' s))).
Proof using HBD.
  intros sb Hr Hsb Hbm Hhu Hv Hroom.
  assert (∀ b, 0 ≤ b < sb_size sb → length (V (BBLOCK b sb)) = Z.to_nat BSIZE) as Hlen.
  { intros b Hb. by apply (lview_block pr g _ _ _ _ _ Hv), (so_home _ _ Hsb). }
  split.
  - destruct (balloc_run iderw p pr g h s V H L Hr Hsb Hbm Hhu Hv Hroom)
      as [(c & h' & l' & E & Hr' & Hc & Hf & Hmin & Hv')|(Hall & h' & l' & E & _)]; [left|right; split; [done|by exists h', l']].
    destruct (Hbm c Hc Hf) as [_ Hcb]. exists c, h', l', (allocated sb V c).
    split_and!; try done; try apply Hc.
    + apply vset_eq.
    + intros x Hx. eapply used_allocated; try done. by apply Hlen.
    + intros x Hx1 Hx2. unfold allocated, mark. by rewrite -> !vset_ne by done.
  - intros b Hb. assert (unheld H (BBLOCK b sb)) as Hu.
    { intros i x Hx E. destruct (Hhu i x Hx) as [Hn _]. by apply (Hn b Hb). }
    destruct Hroom as (Hl & _ & Hc). assert (cache_room L H 1) as Hc1 by (unfold cache_room in *; lia).
    pose proof (bfree_run iderw p pr g h s V H L b Hr Hsb Hv Hb Hu Hc1 Hl) as E. fold sb in E.
    split; intros Eu; rewrite -> Eu in E; [|done]. destruct E as (h' & l' & E & Hr' & Hv').
    eexists h', l', _. split_and!; try done.
    + intros x Hx. eapply used_released; try done. by apply Hlen.
    + intros x Hx. unfold released. by rw vset_ne.
Qed.
End properties.

(** ** The property on the small file system *)

Lemma ex_bblock b : 0 ≤ b < 24 → BBLOCK b ex_sb = 17.
Proof. intros. unfold BBLOCK. rewrite -> Z.div_small by (unfold BPB, BSIZE; lia). done. Qed.

Lemma ex_sb_ok : sb_ok ex_geo ex_sb.
Proof. split; cbn; [lia..|]. intros b Hb. rw ex_bblock //. unfold home. cbn. lia. Qed.

Lemma ex_used b : 0 ≤ b < 24 → used ex_sb ex_V b = (b <? 19).
Proof. intros Hb. apply eqb_prop. apply (forallb_range (λ b, Bool.eqb (used ex_sb ex_V b) (b <? 19)) 24 b); [|done]. vm_compute. reflexivity. Qed.

Lemma ex_bitmap_ok : bitmap_ok ex_geo ex_sb ex_V.
Proof.
  intros b Hb. cbn in Hb. rw ex_used //. intros Hge%Z.ltb_ge. split.
  - unfold home. cbn. lia.
  - intros c Hc. rw ex_bblock //. lia.
Qed.

Lemma ex_alloc_room : alloc_room ex_geo ex_sb [] ∅.
Proof.
  split_and!; [done| |unfold cache_room; rw map_size_empty; change NBUF with 30%nat; cbn; lia].
  intros b Hb. rw ex_bblock //.
Qed.

Lemma balloc_bfree_correct_witness :
  ∃ b c h' l', balloc memide_iderw 1 (ex_machine, MkFs (ex_fslog b) ex_sb [])
    = Ok c (h', set_fs_log l' (MkFs (ex_fslog b) ex_sb [])) ∧ c = 19.
Proof.
  destruct ex_lview as (b & Hv). exists b.
  destruct (balloc_bfree_correct memide_iderw 0 ex_running ex_geo ex_machine (MkFs (ex_fslog b) ex_sb []) ex_V ∅ []
    ex_machine_running ex_sb_ok ex_bitmap_ok ltac:(by intros i x ?) Hv ex_alloc_room)
    as [[(c & h' & l' & V' & E & _ & _ & Hc & Hf & Hmin & _)|[Hall _]] _].
  - exists c, h', l'. split; [exact E|]. cbn in Hc, Hf, Hmin. rw ex_used // in Hf.
    destruct (decide (19 < c)) as [Hgt|]; [|lia]. specialize (Hmin 19 ltac:(lia)). rw ex_used // in Hmin.
  - exfalso. specialize (Hall 23 ltac:(cbn; lia)). rw ex_used // in Hall.
Defined.
