(* ===== verification/Inode.v ===== *)
(** * Inodes: [ilock], [iupdate] and the layout of the inode blocks

    An inode on the disk is a structure of 64 bytes; [disk_inode] reads it from
    the logical disk. *)

From S2P Require Import Prelude Machine Spinlock Console Mem CString Kalloc Sched Sleeplock Ring Bytes Bio Cache Log Recovery Txn Fs FsView Balloc.

(** ** The structure [dinode] *)

(** The fields of an inode that are on the disk have their C types. *)
Record inode_ok (i : inode) : Prop := {
  io_type : - 2 ^ 15 ≤ i_type i < 2 ^ 15;
  io_major : - 2 ^ 15 ≤ i_major i < 2 ^ 15;
  io_minor : - 2 ^ 15 ≤ i_minor i < 2 ^ 15;
  io_nlink : - 2 ^ 15 ≤ i_nlink i < 2 ^ 15;
  io_size : 0 ≤ i_size i < 2 ^ 32;
  io_addrs : length (i_addrs i) = Z.to_nat (NDIRECT + 1) ∧ Forall (λ a, 0 ≤ a < 2 ^ 32) (i_addrs i)
}.

(** The bytes of the structure. *)
Definition dinode_bytes (i : inode) : list Z :=
  le_bytes 2 (i_type i) ++ le_bytes 2 (i_major i) ++ le_bytes 2 (i_minor i) ++ le_bytes 2 (i_nlink i) ++
  le_bytes 4 (i_size i) ++ flat_map (le_bytes 4) (i_addrs i).

(** The inode [j] with the disk fields of [i]. *)
Definition with_fields (i j : inode) : inode :=
  MkInode (i_dev j) (i_inum j) (i_ref j) (i_lock j) (i_valid j)
    (i_type i) (i_major i) (i_minor i) (i_nlink i) (i_size i) (i_addrs i).

Lemma length_words l : Z.of_nat (length (flat_map (le_bytes 4) l)) = 4 * Z.of_nat (length l).
Proof. induction l as [|v l IH]; [done|]. cbn [flat_map]. rw length_app length_le_bytes. cbn [length]. lia. Qed.

Lemma length_dinode i : inode_ok i → Z.of_nat (length (dinode_bytes i)) = SIZEOF_DINODE.
Proof.
  intros [_ _ _ _ _ [Hl _]]. unfold dinode_bytes. rw !length_app !length_le_bytes.
  pose proof (length_words (i_addrs i)) as Hw. rw Hl in Hw. unfold SIZEOF_DINODE, NDIRECT in *. lia.
Qed.

Lemma put_words_splice l : ∀ b off,
  0 ≤ off → off + 4 * Z.of_nat (length l) ≤ Z.of_nat (length b) →
  put_words b off l = splice b off (flat_map (le_bytes 4) l).
Proof.
  induction l as [|v l IH]; intros b off H1 H2; cbn [put_words flat_map].
  - apply list_eq. intros i. rewrite -> splice_lookup by (cbn in *; lia). by rewrite -> decide_False by (cbn; lia).
  - cbn [length] in H2. rewrite -> IH by (rw ?length_put32; lia). unfold put32.
    rewrite <- splice_splice by (rw ?length_words ?length_le_bytes; lia). by rw length_le_bytes.
Qed.

Lemma splice_snoc b off l1 l2 k :
  0 ≤ off → k = off + Z.of_nat (length l1) → k + Z.of_nat (length l2) ≤ Z.of_nat (length b) →
  splice (splice b off l1) k l2 = splice b off (l1 ++ l2).
Proof. intros H1 -> H2. by apply splice_splice. Qed.

Lemma write_dinode_splice d off i :
  inode_ok i → 0 ≤ off → off + SIZEOF_DINODE ≤ Z.of_nat (length d) →
  write_dinode d off i = splice d off (dinode_bytes i).
Proof.
  intros Hi H1 H2. pose proof (io_addrs _ Hi) as [Hl _]. pose proof (length_words (i_addrs i)) as Hw.
  rewrite -> Hl in Hw. unfold SIZEOF_DINODE, NDIRECT in *. unfold write_dinode, dinode_bytes, put16, put32.
  rewrite -> (splice_snoc d off) by (rw ?length_le_bytes; lia).
  rewrite -> (splice_snoc d off) by (rw ?length_app ?length_le_bytes; lia).
  rewrite -> (splice_snoc d off) by (rw ?length_app ?length_le_bytes; lia).
  rewrite -> (splice_snoc d off) by (rw ?length_app ?length_le_bytes; lia).
  rewrite -> put_words_splice by (rw ?length_splice ?length_app ?length_le_bytes ?Hl; lia).
  rewrite -> (splice_snoc d off) by (rw ?length_app ?length_le_bytes; lia).
  by rw -!app_assoc.
Qed.

(** Reading the structure that starts with given bytes. *)
Lemma read_dinode_slice d d' off off' i :
  slice d off SIZEOF_DINODE = slice d' off' SIZEOF_DINODE → 0 ≤ off → 0 ≤ off' →
  read_dinode d off i = read_dinode d' off' i.
Proof.
  intros E H1 H2. assert (∀ k n, 0 ≤ k → 0 ≤ n → k + n ≤ SIZEOF_DINODE → slice d (off + k) n = slice d' (off' + k) n) as Hs.
  { intros k n Hk Hn Hkn. apply list_eq. intros j. destruct (decide (j < Z.to_nat n)%nat) as [Hj|Hj].
    - rewrite -> !slice_lookup by lia.
      assert (slice d off SIZEOF_DINODE !! (Z.to_nat k + j)%nat = slice d' off' SIZEOF_DINODE !! (Z.to_nat k + j)%nat) as Ej by (by rw E).
      rewrite -> !slice_lookup in Ej by lia. rewrite -> !Z2Nat.inj_add, <- !Nat.add_assoc by lia. exact Ej.
    - unfold slice. rewrite -> !lookup_take_ge by lia. done. }
  unfold read_dinode. assert (get16 d off = get16 d' off') as ->.
  { unfold get16. rewrite <- (Z.add_0_r off), <- (Z.add_0_r off'). rw Hs //. }
  unfold get16, get32. rw !Hs //.
  assert (∀ n k, 12 ≤ k → k + 4 * Z.of_nat n ≤ SIZEOF_DINODE → get_words d (off + k) n = get_words d' (off' + k) n) as Hw.
  { induction n as [|n IH]; intros k Hk Hkn; cbn [get_words]; [done|]. f_equal.
    - unfold get32. f_equal. apply Hs; lia.
    - rewrite <- !Z.add_assoc. apply IH; lia. }
  rewrite -> (Hw (Z.to_nat (NDIRECT + 1)) 12) by (unfold SIZEOF_DINODE, NDIRECT; lia). done.
Qed.

Lemma wraps_of_wrapu w x : 0 < w → - 2 ^ (w - 1) ≤ x < 2 ^ (w - 1) → wraps w (wrapu w x) = x.
Proof.
  intros Hw Hx. rewrite <- (wraps_small w x Hw Hx) at 2. unfold wraps, wrapu. rewrite -> Z.mod_mod; [done|].
  apply Z.pow_nonzero; lia.
Qed.

Lemma get_words_flat l : ∀ a k,
  Forall (λ a, 0 ≤ a < 2 ^ 32) l → k = Z.of_nat (length a) →
  get_words (a ++ flat_map (le_bytes 4) l) k (length l) = l.
Proof.
  induction l as [|v l IH]; intros a k Hl ->; cbn [flat_map length get_words]; [done|].
  apply Forall_cons in Hl as [Hv Hl]. f_equal.
  - unfold get32. rewrite <- (Z.add_0_r (Z.of_nat (length a))). rw slice_app_r //.
    rw slice_app_l; [by rw length_le_bytes|]. rw (le_value_bytes 4). by apply Z.mod_small.
  - rw app_assoc. apply IH; [done|]. rw length_app length_le_bytes. lia.
Qed.

Lemma read_dinode_bytes i j : inode_ok i → read_dinode (dinode_bytes i) 0 j = with_fields i j.
Proof.
  intros [H1 H2 H3 H4 H5 [Hl Ha]]. unfold read_dinode, with_fields.
  unfold set_i_addrs, set_i_size, set_i_nlink, set_i_minor, set_i_major, set_i_type.
  cbn [i_dev i_inum i_ref i_lock i_valid i_type i_major i_minor i_nlink i_size i_addrs].
  change (get16 (dinode_bytes i) 0) with (le_value (le_bytes 2 (i_type i))).
  change (get16 (dinode_bytes i) (0 + 2)) with (le_value (le_bytes 2 (i_major i))).
  change (get16 (dinode_bytes i) (0 + 4)) with (le_value (le_bytes 2 (i_minor i))).
  change (get16 (dinode_bytes i) (0 + 6)) with (le_value (le_bytes 2 (i_nlink i))).
  change (get32 (dinode_bytes i) (0 + 8)) with (le_value (le_bytes 4 (i_size i))).
  rw !(le_value_bytes 2) (le_value_bytes 4). change (?x mod 256 ^ Z.of_nat 2) with (u16 x).
  rewrite -> !(wraps_of_wrapu 16) by lia. rewrite -> (Z.mod_small (i_size i)) by (change (256 ^ Z.of_nat 4) with (2 ^ 32); lia).
  f_equal. rewrite <- Hl.
  unfold dinode_bytes. rw !app_assoc. by apply get_words_flat.
Qed.

(** ** The inode blocks *)

(** The inode blocks are blocks outside the log. *)
Record iblocks_ok (g : geometry) (sb : superblock) : Prop := {
  ib_range : 0 ≤ sb_inodestart sb ∧ 0 ≤ sb_ninodes sb ∧ sb_inodestart sb + sb_ninodes sb < 2 ^ 32;
  ib_home : ∀ n, 0 ≤ n < sb_ninodes sb → home g (IBLOCK n sb)
}.

(** The inode [j] with its fields read from inode [n] of the disk. *)
Definition disk_inode (sb : superblock) (V : Z → list Z) (n : Z) (j : inode) : inode :=
  read_dinode (V (IBLOCK n sb)) (dinode_off n) j.

(** The logical disk after [iupdate]. *)
Definition updated (sb : superblock) (V : Z → list Z) (i : inode) : Z → list Z :=
  let k := IBLOCK (i_inum i) sb in vset V k (splice (V k) (dinode_off (i_inum i)) (dinode_bytes i)).

Lemma dinode_off_range n : 0 ≤ dinode_off n ∧ dinode_off n + SIZEOF_DINODE ≤ BSIZE.
Proof. unfold dinode_off. change IPB with 8. change SIZEOF_DINODE with 64. change BSIZE with 512. dlia. Qed.

Lemma bytes_strncpy n : ∀ t, bytes t → bytes (strncpy_bytes t n).
Proof.
  induction n as [|n IH]; intros t Ht; cbn [strncpy_bytes]; [constructor|]. assert (is_byte (byte0 t)) as Hb.
  { unfold is_byte. destruct Ht; cbn; [lia|done]. }
  constructor; [done|]. destruct (byte0 t =? 0); [apply Forall_replicate; unfold is_byte; lia|]. apply IH. destruct Ht; [constructor|done].
Qed.

Lemma bytes_dinode i : bytes (dinode_bytes i).
Proof.
  unfold dinode_bytes. repeat (apply Forall_app_2; [apply bytes_le|]).
  induction (i_addrs i) as [|v l IH]; cbn [flat_map]; [apply Forall_nil_2|]. apply Forall_app_2; [apply bytes_le|done].
Qed.

Section iblocks.
Context (g : geometry) (sb : superblock) (Hib : iblocks_ok g sb).

Lemma iblock_eq n : 0 ≤ n < sb_ninodes sb → IBLOCK n sb = n / IPB + sb_inodestart sb.
Proof using Hib.
  intros Hn. destruct Hib as [Hr _]. unfold IBLOCK. apply wrapu_small.
  assert (0 ≤ n / IPB ≤ n) by (change IPB with 8; dlia). lia.
Qed.

(** Two inodes of one block do not overlap. *)
Lemma dinode_apart n n' :
  0 ≤ n < sb_ninodes sb → 0 ≤ n' < sb_ninodes sb → n ≠ n' → IBLOCK n sb = IBLOCK n' sb →
  dinode_off n + SIZEOF_DINODE ≤ dinode_off n' ∨ dinode_off n' + SIZEOF_DINODE ≤ dinode_off n.
Proof using Hib.
  intros Hn Hn' Hne. rw !iblock_eq //. unfold dinode_off. change IPB with 8. change SIZEOF_DINODE with 64. dlia.
Qed.

Lemma disk_inode_updated V i j :
  inode_ok i → length (V (IBLOCK (i_inum i) sb)) = Z.to_nat BSIZE →
  disk_inode sb (updated sb V i) (i_inum i) j = with_fields i j.
Proof using Type.
  intros Hi Hl. pose proof (dinode_off_range (i_inum i)) as Ho. pose proof (length_dinode i Hi) as Hd.
  rewrite <- (read_dinode_bytes i j Hi). unfold disk_inode, updated. rw vset_eq.
  apply read_dinode_slice; [|lia..]. unfold BSIZE in *.
  rewrite <- Hd at 1. rewrite -> slice_splice_eq by lia. unfold slice.
  rewrite <- Hd, Nat2Z.id, drop_0, firstn_all. done.
Qed.

Lemma disk_inode_updated_ne V i n j :
  inode_ok i → length (V (IBLOCK (i_inum i) sb)) = Z.to_nat BSIZE →
  0 ≤ n < sb_ninodes sb → 0 ≤ i_inum i < sb_ninodes sb → n ≠ i_inum i →
  disk_inode sb (updated sb V i) n j = disk_inode sb V n j.
Proof using Hib.
  intros Hi Hl Hn Hin Hne. pose proof (dinode_off_range (i_inum i)) as Ho. pose proof (dinode_off_range n) as Ho'.
  pose proof (length_dinode i Hi) as Hd.
  unfold disk_inode, updated. destruct (decide (IBLOCK n sb = IBLOCK (i_inum i) sb)) as [E|E]; [|by rw vset_ne].
  rw E vset_eq. apply read_dinode_slice; [|lia..]. unfold BSIZE in *. apply slice_splice_ne; [lia..|].
  rw Hd. pose proof (dinode_apart (i_inum i) n Hin Hn (not_eq_sym Hne) (eq_sym E)). lia.
Qed.
End iblocks.

(** ** [iupdate], [ilock] and [iunlock] *)

Section operations.
Context (iderw : nat → K bst unit) `{HBD : !BlockDev iderw} (p : nat) (pr : proc) (g : geometry).
Abbreviation pid := (p_pid pr).
Implicit Types (V : Z → list Z) (H : gmap nat held) (L : list Z).

(** The state with a changed slot of the inode cache. *)
Definition put_inode (ip : nat) (i : inode) (s : fsst) : fsst := set_fs_inodes (<[ip := i]> (fs_inodes s)) s.

Lemma inode_at_run h s ip i : fs_inodes s !! ip = Some i → inode_at ip (h, s) = Ok i (h, s).
Proof using Type. intros E. unfold inode_at. rw (bind_ok _ _ _ s (h, s)) // E. done. Qed.

Lemma alter_slot s ip i f : fs_inodes s !! ip = Some i → set_fs_inodes (alter f ip (fs_inodes s)) s = put_inode ip (f i) s.
Proof using Type.
  intros E. unfold put_inode. f_equal. apply list_eq. intros k. rw list_lookup_alter.
  case_decide as Ek; [subst k|by rw list_lookup_insert_ne]. rw E list_lookup_insert_eq //. by eapply lookup_lt_Some.
Qed.

Lemma modinode_run h s ip i f : fs_inodes s !! ip = Some i → modinode ip f (h, s) = Ok tt (h, put_inode ip (f i) s).
Proof using Type. intros E. unfold modinode, modc. cbn. by rw (alter_slot s ip i f E). Qed.

Lemma put_inode_log ip i l s : put_inode ip i (set_fs_log l s) = set_fs_log l (put_inode ip i s).
Proof using Type. done. Qed.

Lemma iupdate_run h s V H L ip i :
  ready p pr h → lview g pid (fs_log s) V H L → let sb := fs_sb s in iblocks_ok g sb →
  fs_inodes s !! ip = Some i → i_dev i = 1 → 0 ≤ i_inum i < sb_ninodes sb → inode_ok i →
  unheld H (IBLOCK (i_inum i) sb) → cache_room L H 1 → log_room g L →
  ∃ h' l', iupdate iderw ip (h, s) = Ok tt (h', set_fs_log l' s) ∧ ready p pr h' ∧
    lview g pid l' (updated sb V i) H (logged L (IBLOCK (i_inum i) sb)).
Proof using HBD.
  intros Hr Hv sb Hib Hip Hdev Hin Hi Hu Hc Hl. unfold iupdate. rw (bind_ok _ _ _ s (h, s)) //.
  rw (bind_ok _ _ _ _ _ (inode_at_run h s ip i Hip)) Hdev. fold sb. set (k := IBLOCK (i_inum i) sb) in *.
  pose proof (ib_home _ _ Hib _ Hin) as Hk. fold sb k in Hk.
  destruct (lview_block pr g _ _ _ _ k Hv Hk) as [Hkl Hkb].
  destruct (fbread_run iderw p pr g h s V H L k Hr Hv Hk Hu Hc) as (b & dirty & h1 & l1 & E1 & Hr1 & Hb & Hv1).
  rw (bind_ok _ _ _ _ _ E1). set (s1 := set_fs_log l1 s).
  rw (bind_ok _ _ _ _ _ (fdata_run pr g h1 s1 _ _ _ b _ Hv1 (lookup_insert_eq _ _ _))). cbn [hd_data].
  pose proof (dinode_off_range (i_inum i)) as Ho. pose proof (length_dinode i Hi) as Hd. unfold BSIZE in *.
  rewrite -> write_dinode_splice by (done || lia).
  set (d := splice (V k) (dinode_off (i_inum i)) (dinode_bytes i)).
  destruct (fcommit_run iderw p pr g h1 s1 V _ L b _ d Hr1 Hv1 (lookup_insert_eq _ _ _))
    as (h2 & l2 & _ & E2 & Hr2 & Hv2).
  - unfold d. rewrite -> length_splice by lia. done.
  - apply bytes_splice; [done|apply bytes_dinode].
  - done.
  - exists h2, l2. split_and!; [exact E2|done|]. cbn [hd_blk] in Hv2. by rewrite -> delete_insert_id in Hv2 by done.
Qed.

(** After [acquiresleep]. *)
Lemma ilock_load_run h s V H L ip i :
  ready p pr h → lview g pid (fs_log s) V H L → let sb := fs_sb s in iblocks_ok g sb →
  fs_inodes s !! ip = Some i → i_dev i = 1 → 0 ≤ i_inum i < sb_ninodes sb →
  unheld H (IBLOCK (i_inum i) sb) → cache_room L H 1 →
  let i' := if i_valid i then i else set_i_valid true (disk_inode sb V (i_inum i) i) in
  ∃ h' l', ready p pr h' ∧ lview g pid l' V H L ∧
    let s' := set_fs_log l' (put_inode ip i' s) in
    ilock_load iderw ip (h, s) =
      (if negb (i_valid i) && (i_type i' =? 0) then Stop (Panic "ilock: no type") (h', s') else Ok tt (h', s')).
Proof using HBD.
  intros Hr Hv sb Hib Hip Hdev Hin Hu Hc i'. unfold ilock_load. rw (bind_ok _ _ _ s (h, s)) //.
  rw (bind_ok _ _ _ _ _ (inode_at_run h s ip i Hip)) Hdev. fold sb. unfold i'. clear i'.
  destruct (i_valid i); cbn [negb andb].
  { exists h, (fs_log s). split_and!; [done..|]. unfold put_inode. rw list_insert_id //. by destruct s. }
  set (k := IBLOCK (i_inum i) sb) in *. pose proof (ib_home _ _ Hib _ Hin) as Hk. fold sb k in Hk.
  destruct (fbread_run iderw p pr g h s V H L k Hr Hv Hk Hu Hc) as (b & dirty & h1 & l1 & E1 & Hr1 & Hb & Hv1).
  rw (bind_ok _ _ _ _ _ E1). set (s1 := set_fs_log l1 s).
  rw (bind_ok _ _ _ _ _ (fdata_run pr g h1 s1 _ _ _ b _ Hv1 (lookup_insert_eq _ _ _))). cbn [hd_data].
  set (i1 := read_dinode (V k) (dinode_off (i_inum i)) i).
  rw (bind_ok _ _ _ _ _ (modinode_run h1 s1 ip i _ Hip)). fold i1. set (s2 := put_inode ip i1 s1).
  destruct (fbrelse_run p pr g h1 s2 _ _ _ b _ Hr1 Hv1 (lookup_insert_eq _ _ _)) as (h2 & l2 & E2 & Hr2 & Hv2).
  rw (bind_ok _ _ _ _ _ E2). rewrite -> delete_insert_id in Hv2 by done.
  apply lookup_lt_Some in Hip.
  assert (fs_inodes (set_fs_log l2 s2) !! ip = Some i1) as H2 by (cbn; by rewrite -> list_lookup_insert_eq by done).
  rw (bind_ok _ _ _ _ _ (modinode_run h2 _ ip i1 _ H2)).
  set (i2 := set_i_valid true i1). set (s3 := put_inode ip i2 (set_fs_log l2 s2)).
  assert (s3 = set_fs_log l2 (put_inode ip i2 s)) as ->.
  { unfold s3, s2, put_inode. cbn. by rw list_insert_insert_eq. }
  exists h2, l2. split_and!; [done..|]. cbn zeta. 
  assert (fs_inodes (set_fs_log l2 (put_inode ip i2 s)) !! ip = Some i2) as H3 by (cbn; by rewrite -> list_lookup_insert_eq by done).
  rw (bind_ok _ _ _ _ _ (inode_at_run h2 _ ip i2 H3)).
  change (set_i_valid true (disk_inode sb V (i_inum i) i)) with i2. by destruct (i_type i2 =? 0).
Qed.

Lemma put_put ip i i' s : put_inode ip i' (put_inode ip i s) = put_inode ip i' s.
Proof using Type. unfold put_inode. cbn. by rw list_insert_insert_eq. Qed.

Lemma put_lookup ip i i' s : fs_inodes s !! ip = Some i' → fs_inodes (put_inode ip i s) !! ip = Some i.
Proof using Type. intros E. cbn. apply list_lookup_insert_eq. by eapply lookup_lt_Some. Qed.

(** The slot after [ilock]. *)
Definition locked_inode (sb : superblock) (V : Z → list Z) (i : inode) : inode :=
  let j := set_i_lock (MkSl true pid) i in
  if i_valid i then j else set_i_valid true (disk_inode sb V (i_inum i) j).

Lemma ilock_run h s V H L ip i :
  ready p pr h → lview g pid (fs_log s) V H L → let sb := fs_sb s in iblocks_ok g sb →
  fs_inodes s !! ip = Some i → 1 ≤ i_ref i → sl_locked (i_lock i) = false → i_dev i = 1 → 0 ≤ i_inum i < sb_ninodes sb →
  unheld H (IBLOCK (i_inum i) sb) → cache_room L H 1 →
  let i' := locked_inode sb V i in
  ∃ h' l', ready p pr h' ∧ lview g pid l' V H L ∧
    let s' := set_fs_log l' (put_inode ip i' s) in
    ilock iderw (Some ip) (h, s) =
      (if negb (i_valid i) && (i_type i' =? 0) then Stop (Panic "ilock: no type") (h', s') else Ok tt (h', s')).
Proof using HBD.
  intros Hr Hv sb Hib Hip Href Hlk Hdev Hin Hu Hc i'. unfold ilock.
  rw (bind_ok _ _ _ _ _ (inode_at_run h s ip i Hip)). rewrite -> (proj2 (Z.ltb_ge _ _) Href).
  rewrite -> (bind_ok _ _ _ _ _ (acquiresleep_free (inode_lockL ip) (inode_addr ip) p pr h s Hr ltac:(cbn; by rw Hip))).
  set (j := set_i_lock (MkSl true pid) i). cbn [over inode_lockL]. rw (alter_slot s ip i _ Hip). fold j.
  destruct (ilock_load_run (settle h) (put_inode ip j s) V H L ip j (ready_settle _ _ _ Hr) Hv Hib (put_lookup _ _ _ _ Hip) Hdev Hin Hu Hc)
    as (h' & l' & Hr' & Hv' & E). rw put_put in E. exists h', l'. by split_and!.
Qed.

Lemma iunlock_run h s ip i :
  ready p pr h → fs_inodes s !! ip = Some i → 1 ≤ i_ref i →
  if sl_locked (i_lock i) && (sl_pid (i_lock i) =? pid)
  then ∃ h', iunlock (Some ip) (h, s) = Ok tt (h', put_inode ip (set_i_lock (MkSl false 0) i) s) ∧ ready p pr h'
  else iunlock (Some ip) (h, s) = Stop (Panic "iunlock") (settle h, s).
Proof using Type.
  intros Hr Hip Href. unfold iunlock.
  rw (bind_ok _ _ _ _ _ (holdingsleep_run (inode_lockL ip) (inode_addr ip) p pr h s Hr)).
  cbn [view inode_lockL]. rw Hip. cbn [from_option].
  destruct (sl_locked (i_lock i)) eqn:El; cbn [andb negb]; [|done].
  destruct (Z.eqb_spec (sl_pid (i_lock i)) pid) as [Ep|_]; cbn [negb]; [|done].
  rw (bind_ok _ _ _ _ _ (inode_at_run (settle h) s ip i Hip)). rewrite -> (proj2 (Z.ltb_ge _ _) Href).
  pose proof (ready_settle _ _ _ Hr) as Hr1.
  rewrite -> (releasesleep_owner (inode_lockL ip) (inode_addr ip) p pr (settle h) s Hr1) by (cbn; by rw Hip).
  cbn [over inode_lockL]. rw (alter_slot s ip i _ Hip). eexists. split; [done|]. by apply ready_wake, ready_settle.
Qed.
End operations.

(** What [ilock] loads has the C types. *)
Lemma read_dinode_ok d off j : bytes d → inode_ok (read_dinode d off j).
Proof.
  intros Hd. split; try (by apply (wraps_range 16)); [by apply get32_range|]. split; [apply length_get_words|].
  cbn [read_dinode set_i_addrs i_addrs]. apply Forall_lookup. intros k a Hk.
  pose proof (lookup_lt_Some _ _ _ Hk) as Hlt. rw length_get_words in Hlt.
  rewrite -> get_words_lookup in Hk by done. simplify_eq. by apply get32_range.
Qed.

Lemma inode_ok_lock i l : inode_ok i → inode_ok (set_i_lock l i).
Proof. by intros []. Qed.
Lemma inode_ok_valid i v : inode_ok i → inode_ok (set_i_valid v i).
Proof. by intros []. Qed.

(** ** Properties *)

Section properties.
Context (iderw : nat → K bst unit) `{HBD : !BlockDev iderw} (p : nat) (pr : proc) (g : geometry).
Abbreviation pid := (p_pid pr).

(** C23: [iupdate] and [ilock] agree on the layout of the inode blocks.
    [iupdate] writes the fields of the inode to its place on the logical
    disk and changes no other inode and no other block. Afterwards [ilock] of
    a slot of the cache for inode [n] that is not valid loads the fields
    that were written for [n], all of them and with their signs; a free inode
    makes it panic, and the slot of a valid inode only gets its lock. *)
Theorem iupdate_ilock_roundtrip h s V H L ip i :
  let sb := fs_sb s in
  ready p pr h → lview g pid (fs_log s) V H L → iblocks_ok g sb →
  fs_inodes s !! ip = Some i → i_dev i = 1 → 0 ≤ i_inum i < sb_ninodes sb → inode_ok i →
  (∀ n, 0 ≤ n < sb_ninodes sb → unheld H (IBLOCK n sb)) → cache_room L H 2 → log_room g L →
  ∃ h' l' V' L', iupdate iderw ip (h, s) = Ok tt (h', set_fs_log l' s) ∧ ready p pr h' ∧ lview g pid l' V' H L' ∧
    (∀ x, x ≠ IBLOCK (i_inum i) sb → V' x = V x) ∧
    ∀ jp j, fs_inodes s !! jp = Some j → 1 ≤ i_ref j → sl_locked (i_lock j) = false → i_dev j = 1 →
      0 ≤ i_inum j < sb_ninodes sb →
      let lj := set_i_lock (MkSl true pid) j in
      let j' := if i_valid j then lj else
                set_i_valid true (if decide (i_inum j = i_inum i) then with_fields i lj else disk_inode sb V (i_inum j) lj) in
      ∃ h2 l2, ready p pr h2 ∧ lview g pid l2 V' H L' ∧
        ilock iderw (Some jp) (h', set_fs_log l' s) =
          (if negb (i_valid j) && (i_type j' =? 0) then Stop (Panic "ilock: no type") else Ok tt)
            (h2, set_fs_log l2 (put_inode jp j' s)).
Proof using HBD.
  intros sb Hr Hv Hib Hip Hdev Hin Hi Hu Hc Hl.
  assert (length (V (IBLOCK (i_inum i) sb)) = Z.to_nat BSIZE) as Hlen.
  { by apply (lview_block pr g _ _ _ _ _ Hv), (ib_home _ _ Hib). }
  destruct (iupdate_run iderw p pr g h s V H L ip i Hr Hv Hib Hip Hdev Hin Hi) as (h1 & l1 & E1 & Hr1 & Hv1);
    [by apply Hu|unfold cache_room in *; lia|done|].
  eexists h1, l1, _, _. split_and!; [done..|intros x Hx; by apply vset_ne|].
  intros jp j Hjp Href Hlk Hjd Hjn lj j'.
  destruct (ilock_run iderw p pr g h1 (set_fs_log l1 s) _ H _ jp j Hr1 Hv1 Hib Hjp Href Hlk Hjd Hjn) as (h2 & l2 & Hr2 & Hv2 & E2).
  { by apply Hu. }
  { unfold cache_room in *. pose proof (logged_le L (IBLOCK (i_inum i) sb)). fold sb. lia. }
  assert (locked_inode pr (fs_sb (set_fs_log l1 s)) (updated sb V i) j = j') as Ej.
  { unfold locked_inode, j'. destruct (i_valid j); [done|]. f_equal. change (fs_sb (set_fs_log l1 s)) with sb. case_decide as Ei.
    - rw Ei. by apply disk_inode_updated.
    - by apply (disk_inode_updated_ne g sb Hib). }
  fold sb in E2. rewrite -> Ej in E2. exists h2, l2. split_and!; [done..|]. rw E2. by case_match.
Qed.
End properties.

(** ** The property on the small file system *)

Definition ex_slot (n : Z) : inode := MkInode 1 n 1 (MkSl false 0) false 0 0 0 0 0 (replicate 13 0).
(** Inode 2, a new file. *)
Definition ex_new : inode := MkInode 1 2 1 (MkSl true 7) true 2 0 0 1 0 (replicate 13 0).

Lemma ex_new_ok : inode_ok ex_new.
Proof. split; cbn; try lia. split; [done|]. by repeat constructor. Qed.

Lemma ex_iblocks_ok : iblocks_ok ex_geo ex_sb.
Proof.
  split; [cbn; lia|]. intros n Hn. cbn in Hn. unfold IBLOCK. rewrite -> Z.div_small by (change IPB with 8; lia).
  change (u32 (0 + sb_inodestart ex_sb)) with 16. unfold home. cbn. lia.
Qed.

Lemma iupdate_ilock_roundtrip_witness :
  ∃ b h' l' h2 l2,
    let s := MkFs (ex_fslog b) ex_sb [ex_new; ex_slot 1; ex_slot 2] in
    iupdate memide_iderw 0 (ex_machine, s) = Ok tt (h', set_fs_log l' s) ∧
    ilock memide_iderw (Some 2%nat) (h', set_fs_log l' s)
      = Ok tt (h2, set_fs_log l2 (put_inode 2 (set_i_lock (MkSl true 7) ex_new) s)).
Proof.
  destruct ex_lview as (b & Hv). exists b.
  destruct (iupdate_ilock_roundtrip memide_iderw 0 ex_running ex_geo ex_machine
    (MkFs (ex_fslog b) ex_sb [ex_new; ex_slot 1; ex_slot 2]) ex_V ∅ [] 0 ex_new
    ex_machine_running Hv ex_iblocks_ok eq_refl eq_refl ltac:(cbn; lia) ex_new_ok ltac:(by intros n Hn i x ?)
    ltac:(unfold cache_room; rw map_size_empty; change NBUF with 30%nat; cbn; lia) ltac:(done))
    as (h' & l' & V' & L' & E & _ & _ & _ & Hj).
  destruct (Hj 2%nat (ex_slot 2) eq_refl ltac:(done) eq_refl eq_refl ltac:(cbn; lia)) as (h2 & l2 & _ & _ & E2).
  exists h', l', h2, l2. split; [exact E|exact E2].
Defined.
