(* ===== verification/Content.v ===== *)
(** * The contents of files: [bmap], [readi] and [writei] of fs.c

    The blocks of a file are those its inode names, directly or in its
    indirect block. [fbyte] is the file as an array of bytes; [evolves] is what
    an operation on one file may do to the disk. *)

From S2P Require Import Prelude Machine Spinlock Console Mem CString Kalloc Sched Sleeplock Ring Bytes Bio Cache Log Recovery Txn Fs FsView Balloc Inode.

(** ** A file on the logical disk *)

Definition iaddr (i : inode) (k : Z) : Z := nth (Z.to_nat k) (i_addrs i) 0.
(** The indirect block. *)
Abbreviation iind i := (iaddr i NDIRECT).

(** The disk block of block [bn] of the file, 0 for none; its contents; and
    byte [o] of the file. *)
Definition faddr (V : Z → list Z) (i : inode) (bn : Z) : Z :=
  if bn <? NDIRECT then iaddr i bn else
  if iind i =? 0 then 0 else get32 (V (iind i)) (4 * (bn - NDIRECT)).
Definition fblock (V : Z → list Z) (i : inode) (bn : Z) : list Z :=
  if faddr V i bn =? 0 then zeros else V (faddr V i bn).
Definition fbyte (V : Z → list Z) (i : inode) (o : Z) : Z :=
  nth (Z.to_nat (o mod BSIZE)) (fblock V i (o / BSIZE)) 0.

(** Block [a] belongs to the file. *)
Definition owns (V : Z → list Z) (i : inode) (a : Z) : Prop :=
  a ≠ 0 ∧ (a = iind i ∨ ∃ bn, 0 ≤ bn < MAXFILE ∧ faddr V i bn = a).

(** ** Invariants *)

(** Every block outside the log is a block of bytes. *)
Definition blocks_ok (g : geometry) (V : Z → list Z) : Prop :=
  ∀ b, home g b → length (V b) = Z.to_nat BSIZE ∧ bytes (V b).

(** The bitmap and the inode blocks are apart, and no free block is one of
    them or the boot block. *)
Record fs_ok (g : geometry) (sb : superblock) (V : Z → list Z) : Prop := {
  fo_sb : sb_ok g sb;
  fo_ib : iblocks_ok g sb;
  fo_bm : bitmap_ok g sb V;
  fo_free : ∀ b, 0 ≤ b < sb_size sb → used sb V b = false →
    b ≠ 0 ∧ ∀ n, 0 ≤ n < sb_ninodes sb → IBLOCK n sb ≠ b;
  fo_apart : ∀ n c, 0 ≤ n < sb_ninodes sb → 0 ≤ c < sb_size sb → IBLOCK n sb ≠ BBLOCK c sb
}.

(** A block of a file: in use, and not one of the file system's own. *)
Record data_block (g : geometry) (sb : superblock) (V : Z → list Z) (a : Z) : Prop := {
  db_range : 0 < a < sb_size sb;
  db_home : home g a;
  db_used : used sb V a = true;
  db_bitmap : ∀ c, 0 ≤ c < sb_size sb → BBLOCK c sb ≠ a;
  db_inode : ∀ n, 0 ≤ n < sb_ninodes sb → IBLOCK n sb ≠ a
}.

(** The blocks of a file are pairwise different. *)
Record file_ok (g : geometry) (sb : superblock) (V : Z → list Z) (i : inode) : Prop := {
  fk_inode : inode_ok i;
  fk_block : ∀ a, owns V i a → data_block g sb V a;
  fk_inj : ∀ b b', 0 ≤ b < MAXFILE → 0 ≤ b' < MAXFILE → faddr V i b = faddr V i b' → faddr V i b ≠ 0 → b = b';
  fk_ind : ∀ b, 0 ≤ b < MAXFILE → faddr V i b ≠ 0 → faddr V i b ≠ iind i
}.

(** What an operation on the file [i] may do: the inode changes in its size and
    by new blocks, which were free; no block in use outside the file and
    the bitmap changes. *)
Record evolves (g : geometry) (sb : superblock) (V : Z → list Z) (i : inode) (V' : Z → list Z) (i' : inode) : Prop := {
  ev_fs : fs_ok g sb V';
  ev_file : file_ok g sb V' i';
  ev_meta : i' = set_i_addrs (i_addrs i') (set_i_size (i_size i') i);
  ev_keep : ∀ bn, 0 ≤ bn < MAXFILE → faddr V i bn ≠ 0 → faddr V' i' bn = faddr V i bn;
  ev_ind : iind i ≠ 0 → iind i' = iind i;
  ev_owns : ∀ a, owns V' i' a → owns V i a ∨ (0 ≤ a < sb_size sb ∧ used sb V a = false);
  ev_used : ∀ x, 0 ≤ x < sb_size sb → used sb V x = true → used sb V' x = true;
  ev_frame : ∀ x, (∀ c, 0 ≤ c < sb_size sb → BBLOCK c sb ≠ x) → ¬ owns V i x →
    (0 ≤ x < sb_size sb → used sb V x = true) → V' x = V x
}.

(** ** Lemmas *)

Lemma le_value_zeros n : le_value (replicate n 0) = 0.
Proof. induction n as [|n IH]; cbn [replicate le_value]; [done|]. by rw IH. Qed.
Lemma get32_zeros off : get32 zeros off = 0.
Proof. unfold get32, slice, zeros. rw drop_replicate take_replicate. apply le_value_zeros. Qed.

Lemma iaddr_insert i k c k' :
  0 ≤ k → 0 ≤ k' → (Z.to_nat k < length (i_addrs i))%nat →
  iaddr (set_i_addrs (<[Z.to_nat k := c]> (i_addrs i)) i) k' = if decide (k' = k) then c else iaddr i k'.
Proof.
  intros Hk Hk' Hl. unfold iaddr. cbn [i_addrs set_i_addrs]. rw !nth_lookup. case_decide as E.
  - subst. by rewrite -> list_lookup_insert_eq by done.
  - rewrite -> list_lookup_insert_ne by lia. done.
Qed.

Lemma iaddr_range g sb V i k : file_ok g sb V i → 0 ≤ iaddr i k < 2 ^ 32.
Proof.
  intros [[_ _ _ _ _ [_ Ha]] _ _ _]. unfold iaddr. rw nth_lookup.
  destruct (i_addrs i !! Z.to_nat k) as [a|] eqn:E; cbn; [|lia]. rewrite -> Forall_lookup in Ha. by eapply Ha.
Qed.

Section pure.
Context (g : geometry) (sb : superblock).
Implicit Types (V : Z → list Z) (i : inode).

Lemma owns_ind V i : iind i ≠ 0 → owns V i (iind i).
Proof. split; [done|by left]. Qed.
Lemma owns_addr V i bn : 0 ≤ bn < MAXFILE → faddr V i bn ≠ 0 → owns V i (faddr V i bn).
Proof. split; [done|right; by exists bn]. Qed.

(** The bitmap determines which blocks are in use. *)
Lemma used_ext V V' : (∀ c, 0 ≤ c < sb_size sb → V' (BBLOCK c sb) = V (BBLOCK c sb)) →
  ∀ x, 0 ≤ x < sb_size sb → used sb V' x = used sb V x.
Proof. intros E x Hx. unfold used. by rewrite -> E by done. Qed.

Lemma fs_ok_ext V V' : (∀ x, 0 ≤ x < sb_size sb → used sb V x = true → used sb V' x = true) → fs_ok g sb V → fs_ok g sb V'.
Proof.
  intros E [H1 H2 H3 H4 H5]. assert (∀ b, 0 ≤ b < sb_size sb → used sb V' b = false → used sb V b = false) as Hf.
  { intros b Hb Hu. destruct (used sb V b) eqn:Eu; [|done]. rewrite -> E in Hu by done. done. }
  split; try done; intros b Hb Hu; [apply H3|apply H4]; auto.
Qed.

Lemma data_block_ext V V' a :
  (∀ x, 0 ≤ x < sb_size sb → used sb V x = true → used sb V' x = true) → data_block g sb V a → data_block g sb V' a.
Proof. intros E [H1 H2 H3 H4 H5]. split; try done. apply E; [lia|done]. Qed.

Lemma data_block_new V V' c :
  fs_ok g sb V → 0 ≤ c < sb_size sb → used sb V c = false → used sb V' c = true → data_block g sb V' c.
Proof.
  intros Hf Hc Hu Hu'. destruct (fo_bm _ _ _ Hf c Hc Hu) as [Hh Hb]. destruct (fo_free _ _ _ Hf c Hc Hu) as [H0 Hn].
  split; try done. lia.
Qed.

Lemma evolves_refl V i : fs_ok g sb V → file_ok g sb V i → evolves g sb V i V i.
Proof. intros Hf Hi. split; try done; [by destruct i|auto]. Qed.

Lemma evolves_trans V i V1 i1 V2 i2 :
  file_ok g sb V i → evolves g sb V i V1 i1 → evolves g sb V1 i1 V2 i2 → evolves g sb V i V2 i2.
Proof.
  intros Hi [_ _ Hm1 Hk1 Hi1 Ho1 Hu1 Hf1] [Hfs Hfi Hm2 Hk2 Hi2 Ho2 Hu2 Hf2]. split; try done.
  - rewrite -> Hm2, Hm1. done.
  - intros bn Hbn Hne. rewrite -> Hk2, Hk1; try done. rewrite -> Hk1; done.
  - intros Hne. rewrite -> Hi2, Hi1; try done. rewrite -> Hi1; done.
  - intros a Ha. apply Ho2 in Ha as [Ha|[Hr Hu]]; [by apply Ho1|]. right. split; [done|].
    destruct (used sb V a) eqn:E; [|done]. rewrite -> Hu1 in Hu by done. done.
  - auto.
  - intros x Hb Hn Hx. rewrite -> Hf2; [by apply Hf1|done| |intros Hr; apply Hu1; auto].
    intros Ha. apply Ho1 in Ha as [Ha|[Hr Hu]]; [done|]. rewrite -> Hx in Hu; done.
Qed.

(** The block [c], free before, becomes block [k] of the file, or the indirect
    block when [k] is [-1]; nothing is added when [k] is [-2]. *)
Lemma evolves_add V i V' i' k c :
  fs_ok g sb V → file_ok g sb V i → inode_ok i' →
  i' = set_i_addrs (i_addrs i') (set_i_size (i_size i') i) →
  (k ≠ -2 → 0 ≤ c < sb_size sb ∧ used sb V c = false ∧ used sb V' c = true) →
  (∀ bn, 0 ≤ bn < MAXFILE → faddr V' i' bn = if decide (bn = k) then c else faddr V i bn) →
  (0 ≤ k → faddr V i k = 0) →
  iind i' = (if decide (k = -1) then c else iind i) → (k = -1 → iind i = 0) →
  (∀ x, 0 ≤ x < sb_size sb → used sb V x = true → used sb V' x = true) →
  (∀ x, (∀ c, 0 ≤ c < sb_size sb → BBLOCK c sb ≠ x) → ¬ owns V i x →
    (0 ≤ x < sb_size sb → used sb V x = true) → V' x = V x) →
  evolves g sb V i V' i'.
Proof.
  intros Hfs Hfi Hok Hmeta Hc Hfa H0 Hin Hk1 Hu Hframe.
  assert (∀ a, owns V' i' a → owns V i a ∨ (k ≠ -2 ∧ a = c)) as Hown.
  { intros a [Ha [->|(bn & Hbn & <-)]].
    - rewrite -> Hin in *. case_decide; [right; lia|left; by apply owns_ind].
    - rewrite -> Hfa in * by done. case_decide; [right; lia|left; by apply owns_addr]. }
  assert (k ≠ -2 → ∀ a, owns V i a → a ≠ c) as Hne.
  { intros Hk a Ha ->. destruct (Hc Hk) as (_ & Hf & _). rewrite -> (db_used _ _ _ _ (fk_block _ _ _ _ Hfi c Ha)) in Hf. done. }
  split; try done.
  - by eapply fs_ok_ext.
  - split; try done.
    + intros a Ha. apply Hown in Ha as [Ha|[Hk ->]]; [eapply data_block_ext, fk_block; done|].
      destruct (Hc Hk) as (? & ? & ?). by eapply (data_block_new V).
    + intros b b' Hb Hb'. rewrite -> !Hfa by done. destruct (decide (b = k)) as [E1|E1], (decide (b' = k)) as [E2|E2]; [intros; lia|..].
      * intros E Hn0. exfalso. eapply (Hne ltac:(lia)); [|symmetry; exact E]. apply owns_addr; [done|congruence].
      * intros E Hn0. exfalso. eapply (Hne ltac:(lia)); [|exact E]. by apply owns_addr.
      * by apply (fk_inj _ _ _ _ Hfi).
    + intros b Hb. rewrite -> Hfa, Hin by done. destruct (decide (b = k)) as [E1|E1], (decide (k = -1)) as [E2|E2]; [lia|..].
      * intros Hn0 E. eapply (Hne ltac:(lia)); [|symmetry; exact E]. apply owns_ind. congruence.
      * intros Hn0 E. eapply (Hne ltac:(lia)); [|exact E]. by apply owns_addr.
      * by apply (fk_ind _ _ _ _ Hfi).
  - intros bn Hbn Hn0. rewrite -> Hfa by done. destruct (decide (bn = k)); [|done]. subst. by rewrite -> H0 in Hn0 by lia.
  - intros Hn0. rewrite -> Hin. destruct (decide (k = -1)); [|done]. by rewrite -> Hk1 in Hn0.
  - intros a Ha. apply Hown in Ha as [Ha|[Hk ->]]; [by left|right]. destruct (Hc Hk) as (? & ? & ?). done.
Qed.

(** ** The three changes *)

Context (V : Z → list Z) (i : inode) (Hfs : fs_ok g sb V) (Hfi : file_ok g sb V i) (Hbl : blocks_ok g V).

Lemma bitmap_len c : 0 ≤ c < sb_size sb → length (V (BBLOCK c sb)) = Z.to_nat BSIZE.
Proof using Hfs Hbl. intros Hc. by apply Hbl, (so_home _ _ (fo_sb _ _ _ Hfs)). Qed.

Lemma allocated_used c x :
  0 ≤ c < sb_size sb → used sb V c = false → 0 ≤ x < sb_size sb → used sb (allocated sb V c) x = (x =? c) || used sb V x.
Proof using Hfs Hbl.
  intros Hc Hu Hx. apply (used_allocated g); try done; [apply Hfs|by apply bitmap_len|]. by apply (fo_bm _ _ _ Hfs).
Qed.

Lemma allocated_other c x :
  0 ≤ c < sb_size sb → x ≠ c → (∀ c, 0 ≤ c < sb_size sb → BBLOCK c sb ≠ x) → allocated sb V c x = V x.
Proof using Type. intros Hc Hne Hb. unfold allocated, mark. rewrite -> !vset_ne; [done|by apply not_eq_sym, Hb|done]. Qed.

Lemma owned_not_free c a : 0 ≤ c < sb_size sb → used sb V c = false → owns V i a → a ≠ c.
Proof using Hfi. intros Hc Hu Ha ->. by rewrite -> (db_used _ _ _ _ (fk_block _ _ _ _ Hfi c Ha)) in Hu. Qed.

Lemma allocated_owned c a : 0 ≤ c < sb_size sb → used sb V c = false → owns V i a → allocated sb V c a = V a.
Proof using Hfi.
  intros Hc Hu Ha. apply allocated_other; [done|by eapply owned_not_free|]. by apply (db_bitmap _ _ _ _ (fk_block _ _ _ _ Hfi a Ha)).
Qed.

(** A new block in the inode itself. *)
Lemma evolves_addr k c :
  0 ≤ c < sb_size sb → used sb V c = false → 0 ≤ k ≤ NDIRECT → iaddr i k = 0 →
  let V' := allocated sb V c in let i' := set_i_addrs (<[Z.to_nat k := c]> (i_addrs i)) i in
  evolves g sb V i V' i' ∧ (∀ bn, 0 ≤ bn < MAXFILE → fblock V' i' bn = fblock V i bn) ∧
  iaddr i' k = c ∧ (if decide (k = NDIRECT) then ∀ bn, 0 ≤ bn < MAXFILE → faddr V' i' bn = faddr V i bn else iind i' = iind i).
Proof using Hfs Hfi Hbl.
  intros Hc Hu Hk H0 V' i'. pose proof (fk_inode _ _ _ _ Hfi) as Hio. pose proof Hio as [? ? ? ? ? [Hl Ha]].
  assert (∀ k', 0 ≤ k' → iaddr i' k' = if decide (k' = k) then c else iaddr i k') as Hia.
  { intros k' Hk'. apply iaddr_insert; [lia..|]. rw Hl. unfold NDIRECT in *. lia. }
  pose proof (proj1 (fo_free _ _ _ Hfs c Hc Hu)) as Hc0.
  assert (V' c = zeros) as HVc by apply vset_eq.
  assert (∀ bn, 0 ≤ bn < MAXFILE → faddr V' i' bn = if decide (bn = if decide (k = NDIRECT) then -1 else k) then c else faddr V i bn) as Hfa.
  { intros bn Hbn. unfold faddr. destruct (Z.ltb_spec bn NDIRECT) as [Hlt|Hge].
    - rewrite -> Hia by lia. repeat case_decide; lia || done.
    - rewrite -> Hia by done. case_decide as E1.
      + subst k. rewrite -> H0. rewrite -> (proj2 (Z.eqb_neq c 0) Hc0), HVc, get32_zeros. repeat case_decide; lia || done.
      + rewrite -> (decide_False (P := bn = _)) by (case_decide; lia). destruct (Z.eqb_spec (iind i) 0); [done|].
        unfold V'. rewrite -> allocated_owned by (done || by apply owns_ind). done. }
  assert (iind i' = if decide (k = NDIRECT) then c else iind i) as Hii.
  { rewrite -> Hia by done. repeat case_decide; congruence. }
  split_and!.
  - apply (evolves_add V i V' i' (if decide (k = NDIRECT) then -1 else k) c); try done.
    + split; try done. cbn. rw length_insert. split; [done|]. apply Forall_insert; [done|].
      pose proof (so_size _ _ (fo_sb _ _ _ Hfs)). lia.
    + intros _. split_and!; [lia..|done|]. unfold V'. rewrite -> allocated_used by done. by rw Z.eqb_refl.
    + case_decide; [lia|]. intros _. unfold faddr. rewrite -> (proj2 (Z.ltb_lt k NDIRECT)) by lia. done.
    + rewrite -> Hii. repeat case_decide; lia || done.
    + destruct (decide (k = NDIRECT)) as [->|]; [done|lia].
    + intros x Hx Hux. unfold V'. rewrite -> allocated_used by done. rw Hux. apply orb_true_r.
    + intros x Hb Hn Hx. apply allocated_other; [done| |done]. intros ->. by rewrite -> Hx in Hu.
  - intros bn Hbn. unfold fblock. rewrite -> Hfa by done. destruct (decide (bn = _)) as [E|E].
    + rewrite -> (proj2 (Z.eqb_neq c 0) Hc0), HVc. replace (faddr V i bn) with 0; [done|].
      revert E. case_decide; [lia|]. intros ->. unfold faddr. rewrite -> (proj2 (Z.ltb_lt k NDIRECT)) by lia. done.
    + destruct (Z.eqb_spec (faddr V i bn) 0); [done|]. apply allocated_owned; [done..|]. by apply owns_addr.
  - rewrite -> Hia by lia. by rewrite -> decide_True.
  - destruct (decide (k = NDIRECT)); [|by rewrite -> Hii]. intros bn Hbn. rewrite -> Hfa by done. by rewrite -> decide_False by lia.
Qed.

(** A new block in the indirect block. *)
Lemma evolves_indirect bn c :
  0 ≤ c < sb_size sb → used sb V c = false → NDIRECT ≤ bn < MAXFILE → iind i ≠ 0 → faddr V i bn = 0 →
  let V' := vset (allocated sb V c) (iind i) (put32 (V (iind i)) (4 * (bn - NDIRECT)) c) in
  evolves g sb V i V' i ∧ (∀ b, 0 ≤ b < MAXFILE → fblock V' i b = fblock V i b) ∧ faddr V' i bn = c.
Proof using Hfs Hfi Hbl.
  intros Hc Hu Hbn Hin H0 V'. pose proof (proj1 (fo_free _ _ _ Hfs c Hc Hu)) as Hc0.
  pose proof (owns_ind V i Hin) as Hoi. pose proof (fk_block _ _ _ _ Hfi _ Hoi) as Hdi.
  destruct (Hbl _ (db_home _ _ _ _ Hdi)) as [Hil Hib]. change MAXFILE with 140 in *. change NDIRECT with 12 in *.
  pose proof (so_size _ _ (fo_sb _ _ _ Hfs)) as Hsz.
  assert (∀ b, 0 ≤ b < 140 → faddr V' i b = if decide (b = bn) then c else faddr V i b) as Hfa.
  { intros b Hb. unfold faddr. change NDIRECT with 12. destruct (Z.ltb_spec b 12); [rewrite -> decide_False by lia; done|].
    rewrite -> (proj2 (Z.eqb_neq _ _) Hin). unfold V'. rw vset_eq. case_decide as E.
    - subst b. rewrite -> get32_put32_eq by (rw ?Hil; unfold BSIZE; lia). apply wrapu_small; lia.
    - apply get32_put32_ne; rw ?Hil; unfold BSIZE; lia. }
  assert (∀ x, 0 ≤ x < sb_size sb → used sb V' x = (x =? c) || used sb V x) as Hused.
  { intros x Hx. rewrite <- allocated_used by done. eapply used_ext; [|done]. intros d Hd. apply vset_ne. by apply (db_bitmap _ _ _ _ Hdi). }
  split_and!.
  - apply (evolves_add V i V' i bn c); try done.
    + apply Hfi.
    + by destruct i.
    + intros _. split_and!; [lia..|done|]. rewrite -> Hused by done. by rw Z.eqb_refl.
    + by rewrite -> decide_False by lia.
    + lia.
    + intros x Hx Hux. rewrite -> Hused, Hux by done. apply orb_true_r.
    + intros x Hb Hn Hx. unfold V'. rewrite -> vset_ne by (intros ->; done).
      apply allocated_other; [done| |done]. intros ->. by rewrite -> Hx in Hu.
  - intros b Hb. unfold fblock. rewrite -> Hfa by done. case_decide as E.
    + subst. rewrite -> (proj2 (Z.eqb_neq c 0) Hc0), H0. unfold V'. rewrite -> vset_ne; [apply vset_eq|].
      apply not_eq_sym. by apply owned_not_free.
    + destruct (Z.eqb_spec (faddr V i b) 0) as [|Hn0]; [done|]. unfold V'.
      rewrite -> vset_ne by (by apply (fk_ind _ _ _ _ Hfi)). apply allocated_owned; [done..|]. by apply owns_addr.
  - rewrite -> Hfa by lia. by rewrite -> decide_True.
Qed.

(** New contents of a block of the file. *)
Lemma evolves_write bn d :
  0 ≤ bn < MAXFILE → faddr V i bn ≠ 0 →
  let V' := vset V (faddr V i bn) d in
  evolves g sb V i V' i ∧ (∀ b, 0 ≤ b < MAXFILE → fblock V' i b = if decide (b = bn) then d else fblock V i b) ∧
  (∀ b, 0 ≤ b < MAXFILE → faddr V' i b = faddr V i b).
Proof using Hfs Hfi.
  intros Hbn Hn V'. pose proof (owns_addr V i bn Hbn Hn) as Ho. pose proof (fk_block _ _ _ _ Hfi _ Ho) as Hd.
  assert (∀ b, 0 ≤ b < MAXFILE → faddr V' i b = faddr V i b) as Hfa.
  { intros b Hb. unfold faddr. destruct (b <? NDIRECT); [done|]. destruct (Z.eqb_spec (iind i) 0) as [|Hin]; [done|].
    unfold V'. rewrite -> vset_ne; [done|]. by apply not_eq_sym, (fk_ind _ _ _ _ Hfi). }
  assert (∀ x, 0 ≤ x < sb_size sb → used sb V' x = used sb V x) as Hu.
  { apply used_ext. intros c Hc. apply vset_ne. by apply (db_bitmap _ _ _ _ Hd). }
  split_and!; [|intros b Hb|done].
  - apply (evolves_add V i V' i (-2) 0); try done.
    + apply Hfi.
    + by destruct i.
    + intros b Hb. rewrite -> decide_False by lia. by apply Hfa.
    + intros x Hx. by rewrite -> Hu.
    + intros x _ Hx _. apply vset_ne. by intros ->.
  - unfold fblock. rewrite -> Hfa by done. case_decide as E.
    + subst b. rewrite -> (proj2 (Z.eqb_neq _ _) Hn). apply vset_eq.
    + destruct (Z.eqb_spec (faddr V i b) 0) as [|Hn0]; [done|]. apply vset_ne. intros E2. apply E. by apply (fk_inj _ _ _ _ Hfi).
Qed.

(** [iupdate] does not touch the contents of any file. *)
Lemma updated_other j : 0 ≤ i_inum j < sb_ninodes sb →
  (∀ x, 0 ≤ x < sb_size sb → used sb (updated sb V j) x = used sb V x) ∧
  (∀ a, owns V i a → updated sb V j a = V a).
Proof using Hfs Hfi.
  intros Hj. split.
  - apply used_ext. intros c Hc. apply vset_ne. by apply not_eq_sym, (fo_apart _ _ _ Hfs).
  - intros a Ha. apply vset_ne. by apply not_eq_sym, (db_inode _ _ _ _ (fk_block _ _ _ _ Hfi a Ha)).
Qed.

(** A file depends on its own blocks only. *)
Lemma file_ext V' : (∀ a, owns V i a → V' a = V a) →
  (∀ bn, 0 ≤ bn < MAXFILE → faddr V' i bn = faddr V i bn) ∧ (∀ bn, 0 ≤ bn < MAXFILE → fblock V' i bn = fblock V i bn).
Proof using Type.
  intros E. assert (∀ bn, 0 ≤ bn < MAXFILE → faddr V' i bn = faddr V i bn) as Hfa.
  { intros bn Hbn. unfold faddr. destruct (bn <? NDIRECT); [done|]. destruct (Z.eqb_spec (iind i) 0) as [|Hin]; [done|].
    rewrite -> E; [done|]. by apply owns_ind. }
  split; [done|]. intros bn Hbn. unfold fblock. rewrite -> Hfa by done.
  destruct (Z.eqb_spec (faddr V i bn) 0) as [|Hn0]; [done|]. apply E. by apply owns_addr.
Qed.

Lemma file_ok_ext V' :
  (∀ a, owns V i a → V' a = V a) → (∀ x, 0 ≤ x < sb_size sb → used sb V x = true → used sb V' x = true) →
  file_ok g sb V' i.
Proof using Hfi.
  intros E Hu. destruct (file_ext V' E) as [Hfa _]. destruct Hfi as [H1 H2 H3 H4]. split; [done|..].
  - intros a [Ha Hx]. eapply data_block_ext; [done|]. apply H2. split; [done|].
    destruct Hx as [->|(bn & Hbn & <-)]; [by left|right]. exists bn. by rewrite -> Hfa.
  - intros b b' Hb Hb'. rewrite -> !Hfa by done. by apply H3.
  - intros b Hb. rewrite -> !Hfa by done. by apply H4.
Qed.
End pure.

(** Another file, with blocks of its own, is not affected. *)
Lemma evolves_others g sb V i V' i' j :
  evolves g sb V i V' i' → file_ok g sb V j → (∀ a, owns V i a → ¬ owns V j a) →
  file_ok g sb V' j ∧ (∀ bn, 0 ≤ bn < MAXFILE → fblock V' j bn = fblock V j bn) ∧ (∀ a, owns V' i' a → ¬ owns V' j a).
Proof.
  intros Hev Hj Hd. assert (∀ a, owns V j a → V' a = V a) as E.
  { intros a Ha. pose proof (fk_block _ _ _ _ Hj a Ha) as Hb. apply (ev_frame _ _ _ _ _ _ Hev).
    - apply (db_bitmap _ _ _ _ Hb).
    - intros Hi. by apply (Hd a).
    - intros _. apply Hb. }
  destruct (file_ext V j V' E) as [Hfa Hfb]. split_and!; [|done|].
  - eapply file_ok_ext; [done..|]. apply Hev.
  - intros a Hi [Ha Hx]. assert (owns V j a) as Hja.
    { split; [done|]. destruct Hx as [->|(bn & Hbn & <-)]; [by left|right]. exists bn. by rewrite -> Hfa. }
    apply (ev_owns _ _ _ _ _ _ Hev) in Hi as [Hi|[_ Hu]]; [by apply (Hd a)|].
    by rewrite -> (db_used _ _ _ _ (fk_block _ _ _ _ Hj a Hja)) in Hu.
Qed.

(** ** Counting *)

(** The number of free blocks. *)
Definition nfree (sb : superblock) (V : Z → list Z) : nat :=
  length (filter (λ b, used sb V b = false) (seqZ 0 (sb_size sb))).

Lemma filter_same (P Q : Z → Prop) `{!∀ x, Decision (P x), !∀ x, Decision (Q x)} (l : list Z) :
  (∀ x, x ∈ l → P x ↔ Q x) → filter P l = filter Q l.
Proof.
  induction l as [|x l IH]; intros E; [done|]. rw !filter_cons IH; [intros; apply E; by right|].
  by rewrite -> (decide_ext _ _ _ _ (E x (list_elem_of_here _ _))).
Qed.

Lemma filter_none (P : Z → Prop) `{!∀ x, Decision (P x)} (l : list Z) : (∀ x, x ∈ l → ¬ P x) → length (filter P l) = 0%nat.
Proof.
  induction l as [|x l IH]; intros E; [done|]. rw filter_cons. rewrite -> decide_False by (apply E; by left).
  apply IH. intros y Hy. apply E. by right.
Qed.

Lemma filter_remove (P Q : Z → Prop) `{!∀ x, Decision (P x), !∀ x, Decision (Q x)} (l : list Z) c :
  NoDup l → c ∈ l → P c → (∀ x, x ∈ l → Q x ↔ P x ∧ x ≠ c) → length (filter P l) = S (length (filter Q l)).
Proof.
  induction 1 as [|x l Hx Hl IH]; intros Hc Hp HQ; [by apply elem_of_nil in Hc|]. rw !filter_cons.
  apply elem_of_cons in Hc as [<-|Hc].
  - rewrite -> decide_True by done. rewrite -> decide_False by (rewrite -> HQ by (by left); tauto). cbn. f_equal. f_equal.
    apply filter_same. intros y Hy. rewrite -> HQ by (by right). split; [|by intros []].
    intros. split; [done|]. intros ->. done.
  - specialize (IH Hc Hp (λ y Hy, HQ y (list_elem_of_further _ _ _ Hy))). assert (x ≠ c) as Hne by (intros ->; done).
    destruct (decide (P x)).
    + rewrite -> decide_True by (rewrite -> HQ by (by left); done). cbn. by rw IH.
    + rewrite -> decide_False by (rewrite -> HQ by (by left); tauto). done.
Qed.

Lemma nfree_add sb V V' c :
  0 ≤ c < sb_size sb → used sb V c = false →
  (∀ x, 0 ≤ x < sb_size sb → used sb V' x = (x =? c) || used sb V x) → nfree sb V = S (nfree sb V').
Proof.
  intros Hc Hu E. unfold nfree. apply (filter_remove _ _ _ c); [apply NoDup_seqZ|apply elem_of_seqZ; lia|done|].
  intros x Hx%elem_of_seqZ. rewrite -> E by lia. rw orb_false_iff Z.eqb_neq. tauto.
Qed.

Lemma nfree_ext sb V V' : (∀ x, 0 ≤ x < sb_size sb → used sb V' x = used sb V x) → nfree sb V' = nfree sb V.
Proof. intros E. unfold nfree. f_equal. apply filter_same. intros x Hx%elem_of_seqZ. by rewrite -> E by lia. Qed.

Lemma nfree_full sb V : (∀ c, 0 ≤ c < sb_size sb → used sb V c = true) → nfree sb V = 0%nat.
Proof.
  intros E. unfold nfree. apply filter_none. intros x Hx%elem_of_seqZ. by rewrite -> E by lia.
Qed.

(** The log and the cache have room for [n] more blocks of the transaction. *)
Definition space (g : geometry) (L : list Z) (n : nat) : Prop :=
  1 ≤ g_open g ∧ Z.of_nat (length L + n) ≤ Z.min LOGSIZE (g_size g - 1) ∧ (length L + n + 2 ≤ NBUF)%nat.

(** What the indirect block can still cost: its bitmap block and itself, or
    itself, or nothing when it is in the log already. *)
Definition ind_cost (i : inode) (L : list Z) : nat :=
  if decide (iind i = 0) then 2%nat else if decide (iind i ∈ L) then 0%nat else 1%nat.
Definition ind_miss (i : inode) : nat := if decide (iind i = 0) then 1%nat else 0%nat.
Definition miss (V : Z → list Z) (i : inode) (bn : Z) : nat := if decide (faddr V i bn = 0) then 1%nat else 0%nat.

Lemma ind_cost_mono i i' L L' : iind i' = iind i → (∀ x, x ∈ L → x ∈ L') → (ind_cost i' L' ≤ ind_cost i L)%nat.
Proof.
  intros E HL. unfold ind_cost. rw E. destruct (decide (iind i = 0)); [lia|]. destruct (decide (iind i ∈ L)) as [Hin|].
  - by rewrite -> decide_True by auto.
  - case_decide; lia.
Qed.

Lemma space_le g L n L' n' : space g L n → (length L' + n' ≤ length L + n)%nat → space g L' n'.
Proof. unfold space. intros (H1 & H2 & H3) Hle. split_and!; [done|lia|lia]. Qed.

Lemma space_log g L n : space g L (S n) → log_room g L.
Proof. intros (H1 & H2 & H3). split; [done|]. lia. Qed.

Lemma space_cache g L n H k : space g L n → (size H + k ≤ n + 2)%nat → cache_room L H k.
Proof. intros (H1 & H2 & H3) Hk. unfold cache_room. lia. Qed.

Lemma space_alloc g sb L n H : space g L (S (S n)) → (size H ≤ 2)%nat → alloc_room g sb L H.
Proof.
  intros Hs HH. split_and!.
  - by eapply space_log.
  - intros b _. apply (space_log _ _ n). eapply space_le; [done|]. pose proof (logged_le L (BBLOCK b sb)). lia.
  - eapply space_cache; [done|]. lia.
Qed.

Lemma elem_of_logged L b x : x ∈ logged L b ↔ x ∈ L ∨ x = b.
Proof. unfold logged. case_decide; set_solver. Qed.

(** ** [bmap] *)

Section bmap.
Context (iderw : nat → K bst unit) `{HBD : !BlockDev iderw} (p : nat) (pr : proc) (g : geometry).
Abbreviation pid := (p_pid pr).
Implicit Types (V : Z → list Z) (H : gmap nat held) (L : list Z).

Lemma lview_blocks s V H L : lview g pid s V H L → blocks_ok g V.
Proof using Type. intros Hv b Hb. by eapply lview_block. Qed.

Lemma addr_at_run h s ip i k : fs_inodes s !! ip = Some i → addr_at ip k (h, s) = Ok (iaddr i k) (h, s).
Proof using Type. intros E. unfold addr_at. by rw (bind_ok _ _ _ _ _ (inode_at_run h s ip i E)). Qed.

(** A block that the file has already. *)
Lemma bmap_mapped h s V L ip i bn :
  ready p pr h → lview g pid (fs_log s) V ∅ L → fs_inodes s !! ip = Some i → i_dev i = 1 →
  file_ok g (fs_sb s) V i → 0 ≤ bn < MAXFILE → faddr V i bn ≠ 0 → cache_room L ∅ 1 →
  ∃ h' l', bmap iderw ip bn (h, s) = Ok (faddr V i bn) (h', set_fs_log l' s) ∧ ready p pr h' ∧ lview g pid l' V ∅ L.
Proof using HBD.
  intros Hr Hv Hip Hdev Hfi Hbn Hn Hc. unfold bmap, faddr in *. destruct (Z.ltb_spec bn NDIRECT) as [Hlt|Hge].
  - rw (bind_ok _ _ _ _ _ (addr_at_run h s ip i bn Hip)). rewrite -> (proj2 (Z.eqb_neq _ _) Hn). cbn [negb].
    exists h, (fs_log s). split_and!; [by destruct s|done..].
  - rewrite -> (proj2 (Z.ltb_lt _ _)) by (unfold MAXFILE in *; lia).
    rw (bind_ok _ _ _ _ _ (inode_at_run h s ip i Hip)) (bind_ok _ _ _ _ _ (addr_at_run h s ip i NDIRECT Hip)).
    destruct (Z.eqb_spec (iind i) 0) as [|Hin]; [done|]. cbn [negb]. rw (bind_ok _ _ _ (iind i) (h, s)) // Hdev.
    pose proof (fk_block _ _ _ _ Hfi _ (owns_ind V i Hin)) as Hd.
    destruct (fbread_run iderw p pr g h s V ∅ L (iind i) Hr Hv (db_home _ _ _ _ Hd)) as (b & dirty & h1 & l1 & E1 & Hr1 & Hb & Hv1);
      [by intros ? ? ?|done|].
    rw (bind_ok _ _ _ _ _ E1). set (s1 := set_fs_log l1 s).
    rw (bind_ok _ _ _ _ _ (fdata_run pr g h1 s1 _ _ _ b _ Hv1 (lookup_insert_eq _ _ _))). cbn [hd_data].
    rewrite -> (proj2 (Z.eqb_neq _ _) Hn). cbn [negb]. rw (bind_ok _ _ _ (get32 (V (iind i)) (4 * (bn - NDIRECT))) (h1, s1)) //.
    destruct (fbrelse_run p pr g h1 s1 _ _ _ b _ Hr1 Hv1 (lookup_insert_eq _ _ _)) as (h2 & l2 & E2 & Hr2 & Hv2).
    rw (bind_ok _ _ _ _ _ E2). exists h2, l2. split_and!; [done..|]. by rewrite -> delete_insert_id in Hv2 by done.
Qed.

(** [balloc] when a block is free. *)
Lemma balloc_free_run h s V H L :
  ready p pr h → lview g pid (fs_log s) V H L → let sb := fs_sb s in fs_ok g sb V → held_used sb V H →
  (0 < nfree sb V)%nat → alloc_room g sb L H →
  ∃ c h' l', balloc iderw 1 (h, s) = Ok c (h', set_fs_log l' s) ∧ ready p pr h' ∧
    0 ≤ c < sb_size sb ∧ used sb V c = false ∧
    lview g pid l' (allocated sb V c) H (logged (logged L (BBLOCK c sb)) c).
Proof using HBD.
  intros Hr Hv sb Hfs Hhu Hn Hroom.
  destruct (balloc_run iderw p pr g h s V H L Hr (fo_sb _ _ _ Hfs) (fo_bm _ _ _ Hfs) Hhu Hv Hroom)
    as [(c & h' & l' & E & Hr' & Hc & Hu & _ & Hv')|[Hall _]].
  - by exists c, h', l'.
  - fold sb in Hall. rewrite -> (nfree_full sb V Hall) in Hn. lia.
Qed.

(** A new block for slot [k] of the inode. *)
Lemma bmap_slot h s V L ip i k n :
  ready p pr h → lview g pid (fs_log s) V ∅ L → let sb := fs_sb s in fs_ok g sb V → file_ok g sb V i →
  fs_inodes s !! ip = Some i → i_dev i = 1 → 0 ≤ k ≤ NDIRECT → iaddr i k = 0 →
  (0 < nfree sb V)%nat → space g L (S (S n)) →
  ∃ c h' l' V' i' L',
    (addr ← balloc iderw (i_dev i); set_addr ip k addr;; mret addr) (h, s) = Ok c (h', set_fs_log l' (put_inode ip i' s)) ∧
    ready p pr h' ∧ lview g pid l' V' ∅ L' ∧ evolves g sb V i V' i' ∧
    (∀ bn, 0 ≤ bn < MAXFILE → fblock V' i' bn = fblock V i bn) ∧
    iaddr i' k = c ∧ c ≠ 0 ∧ i_size i' = i_size i ∧
    (if decide (k = NDIRECT) then ∀ bn, 0 ≤ bn < MAXFILE → faddr V' i' bn = faddr V i bn else iind i' = iind i) ∧
    (length L' ≤ length L + 2)%nat ∧ (∀ x, x ∈ L → x ∈ L') ∧ c ∈ L' ∧ nfree sb V = S (nfree sb V').
Proof using HBD.
  intros Hr Hv sb Hfs Hfi Hip Hdev Hk H0 Hn Hs. rw Hdev.
  destruct (balloc_free_run h s V ∅ L Hr Hv Hfs ltac:(by intros ? ? ?) Hn) as (c & h1 & l1 & E1 & Hr1 & Hc & Hu & Hv1).
  { eapply space_alloc; [done|]. rw map_size_empty. lia. }
  rw (bind_ok _ _ _ _ _ E1). unfold set_addr. set (s1 := set_fs_log l1 s). fold sb in Hv1, Hc, Hu.
  rw (bind_ok _ _ _ _ _ (modinode_run h1 s1 ip i _ Hip)).
  destruct (evolves_addr g sb V i Hfs Hfi (lview_blocks _ _ _ _ Hv) k c Hc Hu Hk H0) as (Hev & Hfb & Hia & Hii).
  eexists c, h1, l1, _, _, _. split_and!; [done|done|exact Hv1|exact Hev|done|done| |done|exact Hii|..].
  - by apply (fo_free _ _ _ Hfs c).
  - pose proof (logged_le (logged L (BBLOCK c sb)) c). pose proof (logged_le L (BBLOCK c sb)). lia.
  - intros x Hx. rw !elem_of_logged. tauto.
  - rw !elem_of_logged. tauto.
  - eapply nfree_add; [done..|]. intros x Hx. by apply (allocated_used g _ _ Hfs (lview_blocks _ _ _ _ Hv)).
Qed.

(** The second half of [bmap]: entry [bn] of the indirect block. *)
Definition bmap_entry (dev ind bn : Z) : K fsst Z :=
  bp ← fbread iderw dev ind;
  d ← fdata bp;
  let addr := get32 d (4 * bn) in
  addr ← (if negb (addr =? 0) then mret addr else
          addr ← balloc iderw dev;
          fset_data bp (put32 d (4 * bn) addr);;
          flog_write bp;;
          mret addr);
  fbrelse bp;;
  mret addr.

Lemma bmap_entry_run h s V L i bn n :
  ready p pr h → lview g pid (fs_log s) V ∅ L → let sb := fs_sb s in fs_ok g sb V → file_ok g sb V i →
  NDIRECT ≤ bn < MAXFILE → iind i ≠ 0 → faddr V i bn = 0 → (0 < nfree sb V)%nat → space g L (S (S (S n))) →
  ∃ c h' l' V' L',
    bmap_entry 1 (iind i) (bn - NDIRECT) (h, s) = Ok c (h', set_fs_log l' s) ∧
    ready p pr h' ∧ lview g pid l' V' ∅ L' ∧ evolves g sb V i V' i ∧
    (∀ b, 0 ≤ b < MAXFILE → fblock V' i b = fblock V i b) ∧ faddr V' i bn = c ∧ c ≠ 0 ∧
    (length L' + ind_cost i L' ≤ length L + ind_cost i L + 2)%nat ∧ c ∈ L' ∧ nfree sb V = S (nfree sb V').
Proof using HBD.
  intros Hr Hv sb Hfs Hfi Hbn Hin H0 Hn Hs. unfold bmap_entry.
  pose proof (fk_block _ _ _ _ Hfi _ (owns_ind V i Hin)) as Hd. pose proof (lview_blocks _ _ _ _ Hv) as Hbl.
  destruct (fbread_run iderw p pr g h s V ∅ L (iind i) Hr Hv (db_home _ _ _ _ Hd)) as (b & dirty & h1 & l1 & E1 & Hr1 & Hb & Hv1);
    [by intros ? ? ?|eapply space_cache; [done|rw map_size_empty; lia]|].
  rw (bind_ok _ _ _ _ _ E1). set (s1 := set_fs_log l1 s).
  rw (bind_ok _ _ _ _ _ (fdata_run pr g h1 s1 _ _ _ b _ Hv1 (lookup_insert_eq _ _ _))). cbn [hd_data].
  assert (get32 (V (iind i)) (4 * (bn - NDIRECT)) = 0) as H0'.
  { unfold faddr in H0. rewrite -> (proj2 (Z.ltb_ge _ _) (proj1 Hbn)), (proj2 (Z.eqb_neq _ _) Hin) in H0. done. }
  rewrite -> H0', Z.eqb_refl. cbn [negb].
  set (H1 := <[b := MkHeld (iind i) (V (iind i)) dirty]> ∅) in *.
  assert (size H1 = 1%nat) as Hsz1 by (unfold H1; rewrite -> map_size_insert_None by done; by rw map_size_empty).
  destruct (balloc_free_run h1 s1 V H1 L Hr1 Hv1 Hfs) as (c & h2 & l2 & E2 & Hr2 & Hc & Hu & Hv2); [|done|eapply space_alloc; [done|lia]|].
  { intros j x Hj. apply lookup_insert_Some in Hj as [[_ <-]|[_ Hj]]; [|done]. cbn [hd_blk]. split; [apply Hd|]. intros _. apply Hd. }
  fold sb in Hv2, Hc, Hu. change (fs_sb s1) with sb in *. set (s2 := set_fs_log l2 s1).
  destruct (evolves_indirect g sb V i Hfs Hfi Hbl bn c Hc Hu Hbn Hin H0) as (Hev & Hfb & Hfa).
  set (d := put32 (V (iind i)) (4 * (bn - NDIRECT)) c) in *.
  destruct (Hbl _ (db_home _ _ _ _ Hd)) as [Hil Hib].
  assert (length d = Z.to_nat BSIZE) as Hdl.
  { unfold d. rewrite -> length_put32; [done|..]; rw ?Hil; change MAXFILE with 140 in *; change NDIRECT with 12 in *; unfold BSIZE; lia. }
  pose proof (logged_le (logged L (BBLOCK c sb)) c) as Hl1. pose proof (logged_le L (BBLOCK c sb)) as Hl2.
  set (L2 := logged (logged L (BBLOCK c sb)) c) in *.
  destruct (fwrite_run iderw p pr g h2 s2 _ H1 L2 b _ d Hr2 Hv2 (lookup_insert_eq _ _ _) Hdl (bytes_put32 _ _ _ Hib)) as (l3 & E3 & Hv3).
  { eapply (space_log _ _ n). eapply space_le; [done|]. lia. }
  set (s3 := set_fs_log l3 s2). cbn [hd_blk] in Hv3. pose proof (ready_settle _ _ _ Hr2) as Hr3.
  rw (bind_ok _ _ _ c (settle h2, s3)); [by rw (bind_ok _ _ _ _ _ E2) -bind_assoc (bind_ok _ _ _ _ _ E3)|].
  destruct (fbrelse_run p pr g (settle h2) s3 _ _ _ b _ Hr3 Hv3 (lookup_insert_eq _ _ _)) as (h4 & l4 & E4 & Hr4 & Hv4).
  rw (bind_ok _ _ _ _ _ E4). rw delete_insert_eq in Hv4. unfold H1 in Hv4. rewrite -> delete_insert_id in Hv4 by done.
  eexists c, h4, l4, _, _. split_and!; [done|done|exact Hv4|exact Hev|done|done|..].
  - by apply (fo_free _ _ _ Hfs c).
  - unfold ind_cost. rewrite -> !(decide_False (P := iind i = 0)) by done.
    rewrite -> (decide_True (P := iind i ∈ logged L2 _)) by (rw elem_of_logged; by right).
    case_decide as Ei; [|pose proof (logged_le L2 (iind i)); lia].
    unfold logged at 1. rewrite -> decide_True by (unfold L2; rw !elem_of_logged; tauto). lia.
  - unfold L2. rw !elem_of_logged. tauto.
  - eapply nfree_add; [done..|]. intros x Hx. rewrite <- (allocated_used g _ _ Hfs Hbl c x Hc Hu Hx).
    eapply used_ext; [|done]. intros e He. apply vset_ne. by apply (db_bitmap _ _ _ _ Hd).
Qed.

(** [bmap] gives the file the block if it lacks it, without changing what the
    file contains. *)
Definition bmap_post (sb : superblock) V i L (bn : Z) V' i' L' : Prop :=
  evolves g sb V i V' i' ∧ (∀ b, 0 ≤ b < MAXFILE → fblock V' i' b = fblock V i b) ∧ faddr V' i' bn ≠ 0 ∧
  i_size i' = i_size i ∧ (length L' + ind_cost i' L' ≤ length L + ind_cost i L + 2 * miss V i bn)%nat ∧
  (if decide (faddr V i bn = 0) then faddr V' i' bn ∈ L' else i' = i) ∧
  (nfree sb V + ind_miss i' = nfree sb V' + miss V i bn + ind_miss i)%nat.

Section missing.
Context (h : hw) (s : fsst) V L (ip : nat) (i : inode) (bn : Z).
Abbreviation sb := (fs_sb s).
Context (Hr : ready p pr h) (Hv : lview g pid (fs_log s) V ∅ L) (Hfs : fs_ok g sb V) (Hfi : file_ok g sb V i)
  (Hip : fs_inodes s !! ip = Some i) (Hdev : i_dev i = 1) (Hbn : 0 ≤ bn < MAXFILE) (H0 : faddr V i bn = 0)
  (Hn : (1 + ind_miss i ≤ nfree sb V)%nat) (Hs : space g L (ind_cost i L + 3)).

Lemma bmap_direct : bn < NDIRECT →
  ∃ h' l' V' i' L', bmap iderw ip bn (h, s) = Ok (faddr V' i' bn) (h', set_fs_log l' (put_inode ip i' s)) ∧
    ready p pr h' ∧ lview g pid l' V' ∅ L' ∧ bmap_post sb V i L bn V' i' L'.
Proof using All.
  intros Hlt. unfold bmap. rewrite -> (proj2 (Z.ltb_lt _ _) Hlt).
  rw (bind_ok _ _ _ _ _ (addr_at_run h s ip i bn Hip)). assert (iaddr i bn = 0) as H0'.
  { unfold faddr in H0. by rewrite -> (proj2 (Z.ltb_lt _ _) Hlt) in H0. }
  rewrite -> H0', Z.eqb_refl. cbn [negb]. rw (bind_ok _ _ _ _ _ (inode_at_run h s ip i Hip)).
  destruct (bmap_slot h s V L ip i bn (S (ind_cost i L)) Hr Hv Hfs Hfi Hip Hdev) as
    (c & h' & l' & V' & i' & L' & E & Hr' & Hv' & Hev & Hfb & Hia & Hc & Hsz & Hii & HL & HLi & HcL & Hnf);
    [lia|done|lia|eapply space_le; [done|lia]|]. rewrite -> decide_False in Hii by lia.
  assert (faddr V' i' bn = c) as Hfa by (unfold faddr; by rewrite -> (proj2 (Z.ltb_lt _ _) Hlt)).
  exists h', l', V', i', L'. rw Hfa. unfold bmap_post, miss. rw Hfa. repeat rewrite -> (decide_True (P := faddr V i bn = 0)) by done.
  pose proof (ind_cost_mono i i' L L' Hii HLi). split_and!; try done; [lia|]. unfold ind_miss. rw Hii. lia.
Qed.

Lemma bmap_indirect : NDIRECT ≤ bn →
  ∃ h' l' V' i' L', bmap iderw ip bn (h, s) = Ok (faddr V' i' bn) (h', set_fs_log l' (put_inode ip i' s)) ∧
    ready p pr h' ∧ lview g pid l' V' ∅ L' ∧ bmap_post sb V i L bn V' i' L'.
Proof using All.
  intros Hge. unfold bmap. rewrite -> (proj2 (Z.ltb_ge _ _) Hge), (proj2 (Z.ltb_lt _ _)) by (unfold MAXFILE in *; lia).
  rw (bind_ok _ _ _ _ _ (inode_at_run h s ip i Hip)) (bind_ok _ _ _ _ _ (addr_at_run h s ip i NDIRECT Hip)).
  unfold bmap_post, miss. repeat rewrite -> (decide_True (P := faddr V i bn = 0)) by done.
  destruct (Z.eqb_spec (iind i) 0) as [Hin|Hin]; cbn [negb].
  - assert (ind_cost i L = 2%nat ∧ ind_miss i = 1%nat) as [Ei Em] by (unfold ind_cost, ind_miss; by rewrite -> !decide_True).
    rewrite -> Ei, Em in *.
    destruct (bmap_slot h s V L ip i NDIRECT 3 Hr Hv Hfs Hfi Hip Hdev) as
      (c & h1 & l1 & V1 & i1 & L1 & E1 & Hr1 & Hv1 & Hev1 & Hfb1 & Hia & Hc & Hsz & Hfa1 & HL & HLi & HcL & Hnf1);
      [unfold NDIRECT; lia|done|lia|done|]. rewrite -> decide_True in Hfa1 by done.
    rw (bind_ok _ _ _ _ _ E1). set (s1 := set_fs_log l1 (put_inode ip i1 s)) in *.
    assert (ind_cost i1 L1 = 0%nat) as Hic by (unfold ind_cost; rw Hia; by rewrite -> decide_False, decide_True).
    destruct (bmap_entry_run h1 s1 V1 L1 i1 bn 0 Hr1 Hv1 (ev_fs _ _ _ _ _ _ Hev1) (ev_file _ _ _ _ _ _ Hev1))
      as (c2 & h2 & l2 & V2 & L2 & E2 & Hr2 & Hv2 & Hev2 & Hfb2 & Hfa2 & Hc2 & HL2 & HcL2 & Hnf2);
      [lia|by rw Hia|by rewrite -> Hfa1|cbn; lia|eapply space_le; [done|lia]|].
    rewrite -> Hia in E2. rewrite -> Hdev. unfold bmap_entry in E2. rw E2.
    exists h2, l2, V2, i1, L2. rw Hfa2. split_and!; try done.
    + by eapply evolves_trans.
    + intros b Hb. by rewrite -> Hfb2, Hfb1.
    + lia.
    + by rewrite -> decide_True.
    + cbn in Hnf2. unfold ind_miss. rewrite -> decide_False by (by rw Hia). lia.
  - rw (bind_ok _ _ _ (iind i) (h, s)) // Hdev.
    destruct (bmap_entry_run h s V L i bn (ind_cost i L) Hr Hv Hfs Hfi)
      as (c2 & h2 & l2 & V2 & L2 & E2 & Hr2 & Hv2 & Hev2 & Hfb2 & Hfa2 & Hc2 & HL2 & HcL2 & Hnf2);
      [lia|done|done|lia|eapply space_le; [done|lia]|].
    unfold bmap_entry in E2. rw E2. exists h2, l2, V2, i, L2. rw Hfa2. unfold put_inode. rw list_insert_id //.
    rewrite -> (decide_True (P := faddr V i bn = 0)) by done. split_and!; try done; lia.
Qed.
End missing.

Lemma bmap_run h s V L ip i bn :
  ready p pr h → lview g pid (fs_log s) V ∅ L → let sb := fs_sb s in fs_ok g sb V → file_ok g sb V i →
  fs_inodes s !! ip = Some i → i_dev i = 1 → 0 ≤ bn < MAXFILE →
  (miss V i bn + ind_miss i ≤ nfree sb V)%nat → space g L (ind_cost i L + 2 * miss V i bn + 1) →
  ∃ h' l' V' i' L', bmap iderw ip bn (h, s) = Ok (faddr V' i' bn) (h', set_fs_log l' (put_inode ip i' s)) ∧
    ready p pr h' ∧ lview g pid l' V' ∅ L' ∧ bmap_post sb V i L bn V' i' L'.
Proof using HBD.
  intros Hr Hv sb Hfs Hfi Hip Hdev Hbn Hn Hs. unfold miss in *. destruct (decide (faddr V i bn = 0)) as [H0|H0].
  - assert (space g L (ind_cost i L + 3)) as Hs' by (eapply space_le; [exact Hs|lia]).
    destruct (Z.lt_ge_cases bn NDIRECT); [by apply bmap_direct|by apply bmap_indirect].
  - destruct (bmap_mapped h s V L ip i bn Hr Hv Hip Hdev Hfi Hbn H0) as (h' & l' & E & Hr' & Hv').
    { eapply space_cache; [done|]. rw map_size_empty. lia. }
    exists h', l', V, i, L. unfold put_inode, bmap_post, miss. rw list_insert_id //. repeat rewrite -> (decide_False (P := faddr V i bn = 0)) by done.
    split_and!; try done; [by apply evolves_refl|lia..].
Qed.
End bmap.

(** ** The file as an array of bytes *)

(** [n] bytes from [off]. *)
Definition fread (V : Z → list Z) (i : inode) (off n : Z) : list Z := fbyte V i <$> seqZ off n.
(** The blocks that hold them. *)
Definition blocks_of (off n : Z) : list Z :=
  if n <=? 0 then [] else seqZ (off / BSIZE) ((off + n - 1) / BSIZE - off / BSIZE + 1).
(** How many of the blocks the file lacks. *)
Definition misses (V : Z → list Z) (i : inode) (bns : list Z) : nat := length (filter (λ bn, faddr V i bn = 0) bns).

Lemma chunk_pos off n : 0 < n → 0 ≤ off → 0 < Z.min n (BSIZE - off mod BSIZE) ≤ n.
Proof. unfold BSIZE. dlia. Qed.

Lemma block_range off n : 0 < n → 0 ≤ off → off + n ≤ MAXFILE * BSIZE → 0 ≤ off / BSIZE < MAXFILE.
Proof. change MAXFILE with 140. change BSIZE with 512. dlia. Qed.

(** The first piece ends at the end of the data or of the block. *)
Lemma chunk_end off n (m := Z.min n (BSIZE - off mod BSIZE)) : 0 < n → 0 ≤ off →
  m = n ∨ (off + m) mod BSIZE = 0 ∧ (off + m) / BSIZE = off / BSIZE + 1 ∧ m = BSIZE - off mod BSIZE.
Proof. intros Hn Ho. subst m. unfold BSIZE. dlia. Qed.

Lemma fuel_step off n fuel (m := Z.min n (BSIZE - off mod BSIZE)) : 0 < n → 0 ≤ off →
  n ≤ 0 ∨ off mod BSIZE + n ≤ BSIZE * Z.of_nat (S fuel) → n - m ≤ 0 ∨ (off + m) mod BSIZE + (n - m) ≤ BSIZE * Z.of_nat fuel.
Proof. intros Hn Ho Hf. destruct (chunk_end off n Hn Ho) as [E|(E1 & _ & E2)]; unfold m; lia. Qed.

Lemma seqZ_head a n : 0 < n → seqZ a n = a :: seqZ (a + 1) (n - 1).
Proof. intros. rewrite -> seqZ_cons by lia. by rw Z.add_1_r -Z.sub_1_r. Qed.

Lemma blocks_of_step off n (m := Z.min n (BSIZE - off mod BSIZE)) : 0 < n → 0 ≤ off →
  blocks_of off n = off / BSIZE :: blocks_of (off + m) (n - m).
Proof.
  intros Hn Ho. unfold blocks_of. rewrite -> (proj2 (Z.leb_gt n 0)) by lia.
  assert (off / BSIZE ≤ (off + n - 1) / BSIZE) by (apply Z.div_le_mono; unfold BSIZE; lia).
  rewrite -> seqZ_head by lia. f_equal. destruct (chunk_end off n Hn Ho) as [Em|(Em & Ed & Eq)]; fold m in Em.
  - rewrite -> Em, Z.sub_diag. cbn [Z.leb Z.compare]. rewrite -> seqZ_nil; [done|].
    assert ((off + n - 1) / BSIZE = off / BSIZE); [|lia]. subst m. unfold BSIZE in *. dlia.
  - fold m in Ed, Eq. destruct (Z.leb_spec (n - m) 0).
    + rewrite -> seqZ_nil; [done|]. assert ((off + n - 1) / BSIZE = off / BSIZE); [|lia]. unfold BSIZE in *. dlia.
    + rewrite -> Ed. replace (off + m + (n - m) - 1) with (off + n - 1) by lia. f_equal. lia.
Qed.

Lemma elem_of_blocks off n bn : 0 ≤ off → bn ∈ blocks_of off n ↔ 0 < n ∧ off / BSIZE ≤ bn ∧ bn * BSIZE < off + n.
Proof.
  intros Ho. unfold blocks_of. destruct (Z.leb_spec n 0); [split; [by intros ?%elem_of_nil|lia]|].
  rewrite -> elem_of_seqZ. unfold BSIZE. split; intros; dlia.
Qed.

(** The bytes of one block. *)
Lemma fread_block V i off m :
  0 ≤ off → 0 ≤ m → off mod BSIZE + m ≤ BSIZE → length (fblock V i (off / BSIZE)) = Z.to_nat BSIZE →
  slice (fblock V i (off / BSIZE)) (off mod BSIZE) m = fread V i off m.
Proof.
  intros Ho Hm Hle Hl. unfold fread. apply list_eq. intros k. destruct (decide (k < Z.to_nat m)%nat) as [Hk|Hk].
  - assert (0 ≤ off mod BSIZE) as Hmod by (unfold BSIZE; dlia). rewrite -> slice_lookup by lia.
    rewrite -> list_lookup_fmap, lookup_seqZ_lt by lia. cbn [fmap option_fmap option_map]. unfold fbyte.
    assert ((off + Z.of_nat k) / BSIZE = off / BSIZE ∧ (off + Z.of_nat k) mod BSIZE = off mod BSIZE + Z.of_nat k) as [-> ->]
      by (unfold BSIZE in *; dlia).
    rw nth_lookup. replace (Z.to_nat (off mod BSIZE + Z.of_nat k)) with (Z.to_nat (off mod BSIZE) + k)%nat by lia.
    destruct (lookup_lt_is_Some_2 (fblock V i (off / BSIZE)) (Z.to_nat (off mod BSIZE) + k)) as [x ->]; [|done]. rw Hl. lia.
  - unfold slice. rewrite -> lookup_take_ge by lia. symmetry. apply lookup_ge_None. rw length_fmap length_seqZ. lia.
Qed.

Lemma nth_splice (b : list Z) off l k :
  0 ≤ off → 0 ≤ k → off + Z.of_nat (length l) ≤ Z.of_nat (length b) →
  nth (Z.to_nat k) (splice b off l) 0 =
    if decide (off ≤ k < off + Z.of_nat (length l)) then nth (Z.to_nat (k - off)) l 0 else nth (Z.to_nat k) b 0.
Proof.
  intros Ho Hk Hl. rw !nth_lookup splice_lookup //. rw (Z2Nat.id k) //. case_decide; [|done].
  by replace (Z.to_nat (k - off)) with (Z.to_nat k - Z.to_nat off)%nat by lia.
Qed.

Lemma fblock_len g sb V i bn : file_ok g sb V i → blocks_ok g V → 0 ≤ bn < MAXFILE → length (fblock V i bn) = Z.to_nat BSIZE.
Proof.
  intros Hfi Hbl Hbn. unfold fblock. destruct (Z.eqb_spec (faddr V i bn) 0) as [|Hn]; [apply length_replicate|].
  apply Hbl. apply (fk_block _ _ _ _ Hfi). by apply owns_addr.
Qed.

(** ** [readi] *)

Section readi.
Context (iderw : nat → K bst unit) `{HBD : !BlockDev iderw} (p : nat) (pr : proc) (g : geometry).
Abbreviation pid := (p_pid pr).
Context (V : Z → list Z) (L : list Z) (ip : nat) (i : inode).

Lemma readi_loop_run fuel : ∀ h s off n,
  ready p pr h → lview g pid (fs_log s) V ∅ L → fs_inodes s !! ip = Some i → i_dev i = 1 → file_ok g (fs_sb s) V i →
  0 ≤ off → off + n ≤ MAXFILE * BSIZE → (∀ bn, bn ∈ blocks_of off n → faddr V i bn ≠ 0) → cache_room L ∅ 1 →
  n ≤ 0 ∨ off mod BSIZE + n ≤ BSIZE * Z.of_nat fuel →
  ∃ h' l', readi_loop iderw fuel ip off n (h, s) = Ok (fread V i off n) (h', set_fs_log l' s) ∧ ready p pr h' ∧ lview g pid l' V ∅ L.
Proof using HBD.
  induction fuel as [|fuel IH]; intros h s off n Hr Hv Hip Hdev Hfi Ho Hmax Hmap Hc Hfuel;
    cbn [readi_loop]; destruct (Z.leb_spec n 0) as [Hn|Hn].
  1,3: exists h, (fs_log s); unfold fread; rewrite -> seqZ_nil by lia; split_and!; [by destruct s|done..].
  - exfalso. pose proof (Z.mod_pos_bound off BSIZE ltac:(done)). lia.
  - rw (bind_ok _ _ _ _ _ (inode_at_run h s ip i Hip)). set (m := Z.min n (BSIZE - off mod BSIZE)).
    pose proof (chunk_pos off n Hn Ho) as Hm. fold m in Hm. set (bn := off / BSIZE).
    assert (0 ≤ bn < MAXFILE) as Hbn by (by eapply block_range).
    assert (faddr V i bn ≠ 0) as Ha by (apply Hmap; rewrite -> blocks_of_step by done; by left).
    destruct (bmap_mapped iderw p pr g h s V L ip i bn Hr Hv Hip Hdev Hfi Hbn Ha Hc) as (h1 & l1 & E1 & Hr1 & Hv1).
    rw (bind_ok _ _ _ _ _ E1) Hdev. set (s1 := set_fs_log l1 s).
    pose proof (fk_block _ _ _ _ Hfi _ (owns_addr V i bn Hbn Ha)) as Hd.
    destruct (fbread_run iderw p pr g h1 s1 V ∅ L (faddr V i bn) Hr1 Hv1 (db_home _ _ _ _ Hd)) as (b & dirty & h2 & l2 & E2 & Hr2 & Hb & Hv2);
      [by intros ? ? ?|done|].
    rw (bind_ok _ _ _ _ _ E2). set (s2 := set_fs_log l2 s1).
    rw (bind_ok _ _ _ _ _ (fdata_run pr g h2 s2 _ _ _ b _ Hv2 (lookup_insert_eq _ _ _))). cbn [hd_data].
    destruct (fbrelse_run p pr g h2 s2 _ _ _ b _ Hr2 Hv2 (lookup_insert_eq _ _ _)) as (h3 & l3 & E3 & Hr3 & Hv3).
    rewrite -> delete_insert_id in Hv3 by done. rw (bind_ok _ _ _ _ _ E3). set (s3 := set_fs_log l3 s2).
    destruct (IH h3 s3 (off + m) (n - m)) as (h4 & l4 & E4 & Hr4 & Hv4); try done; try lia.
    + intros b' Hb'. apply Hmap. rewrite -> blocks_of_step by done. by right.
    + by apply fuel_step.
    + rw (bind_ok _ _ _ _ _ E4). exists h4, l4. split_and!; [|done..].
      assert (V (faddr V i bn) = fblock V i bn) as -> by (unfold fblock; by rewrite -> (proj2 (Z.eqb_neq _ _) Ha)).
      unfold bn. rewrite -> fread_block; [|done|lia|lia|by eapply fblock_len, Hbn; [|by eapply lview_blocks]].
      unfold fread. rewrite <- fmap_app. do 3 f_equal. rewrite <- seqZ_app by lia. f_equal. lia.
Qed.
End readi.

(** ** [writei] *)

(** The bytes [src] written at [off]. *)
Definition fwritten (V : Z → list Z) (i : inode) (off : Z) (src : list Z) (V' : Z → list Z) (i' : inode) : Prop :=
  ∀ o, 0 ≤ o < MAXFILE * BSIZE →
    fbyte V' i' o = if decide (off ≤ o < off + Z.of_nat (length src)) then nth (Z.to_nat (o - off)) src 0 else fbyte V i o.

Lemma misses_mono V i V' i' bns :
  (∀ bn, bn ∈ bns → faddr V i bn ≠ 0 → faddr V' i' bn ≠ 0) → (misses V' i' bns ≤ misses V i bns)%nat.
Proof.
  unfold misses. induction bns as [|bn bns IH]; intros Hk; [done|]. rw !filter_cons.
  specialize (IH (λ b Hb, Hk b (list_elem_of_further _ _ _ Hb))). specialize (Hk bn (list_elem_of_here _ _)).
  destruct (decide (faddr V i bn = 0)), (decide (faddr V' i' bn = 0)); cbn; try lia.
Qed.

Lemma misses_cons V i bn bns : misses V i (bn :: bns) = (miss V i bn + misses V i bns)%nat.
Proof. unfold misses, miss. rw filter_cons. by case_decide. Qed.

(** A piece of [src] in one block, then the rest. *)
Lemma fwritten_step g sb V i off src V1 V2 V3 i1 i3 (n := Z.of_nat (length src)) (m := Z.min n (BSIZE - off mod BSIZE)) (bn := off / BSIZE) :
  0 < n → 0 ≤ off → off + n ≤ MAXFILE * BSIZE → file_ok g sb V1 i1 → blocks_ok g V1 →
  (∀ b, 0 ≤ b < MAXFILE → fblock V1 i1 b = fblock V i b) →
  (∀ b, 0 ≤ b < MAXFILE → fblock V2 i1 b =
     if decide (b = bn) then splice (fblock V1 i1 bn) (off mod BSIZE) (take (Z.to_nat m) src) else fblock V1 i1 b) →
  fwritten V2 i1 (off + m) (drop (Z.to_nat m) src) V3 i3 → fwritten V i off src V3 i3.
Proof.
  intros Hn Ho Hmax Hfi Hbl H1 H2 H3 o Hor. pose proof (chunk_pos off n Hn Ho) as Hm. fold m in Hm.
  assert (0 ≤ bn < MAXFILE) as Hbn by (by eapply block_range).
  rewrite -> H3 by done. rw length_drop. replace (Z.of_nat (length src - Z.to_nat m)) with (n - m) by lia.
  replace (off + m + (n - m)) with (off + n) by lia. destruct (decide (off + m ≤ o < off + n)) as [Hin|Hout].
  - rewrite -> decide_True by lia. rw !nth_lookup lookup_drop. do 2 f_equal. lia.
  - unfold fbyte. assert (0 ≤ o / BSIZE < MAXFILE) as Hob by (eapply (block_range o 1); lia).
    rewrite -> H2 by done. assert (0 ≤ o mod BSIZE < BSIZE ∧ 0 ≤ off mod BSIZE) as [Hod Hoff] by (unfold BSIZE; dlia).
    assert (length (take (Z.to_nat m) src) = Z.to_nat m) as Hlt by (rw length_take; lia).
    pose proof (fblock_len g sb V1 i1 bn Hfi Hbl Hbn) as Hfl.
    assert (off mod BSIZE + m ≤ BSIZE) as Hmb by lia.
    destruct (decide (o / BSIZE = bn)) as [Eb|Eb].
    + rewrite -> nth_splice by (rw ?Hlt ?Hfl; lia). rw Hlt (Z2Nat.id m); [lia|].
      assert (o - off = o mod BSIZE - off mod BSIZE) as Ed by (unfold bn in Eb; unfold BSIZE in *; dlia).
      destruct (decide (off ≤ o < off + m)) as [Hi|Hi].
      * rewrite -> !decide_True by lia. rw Ed !nth_lookup lookup_take_lt //. lia.
      * rewrite -> !decide_False by lia. by rewrite -> H1, Eb.
    + rewrite -> decide_False, H1; [done..|]. intros Hi. apply Eb. unfold bn. unfold BSIZE in *. dlia.
Qed.

Section writei.
Context (iderw : nat → K bst unit) `{HBD : !BlockDev iderw} (p : nat) (pr : proc) (g : geometry).
Abbreviation pid := (p_pid pr).

Lemma write_block_run h s V L i bn o chunk :
  ready p pr h → lview g pid (fs_log s) V ∅ L → file_ok g (fs_sb s) V i → 0 ≤ bn < MAXFILE → faddr V i bn ≠ 0 →
  log_room g L → cache_room L ∅ 1 → 0 ≤ o → o + Z.of_nat (length chunk) ≤ BSIZE → bytes chunk →
  ∃ h' l', (∀ A (k : K fsst A),
      (bp ← fbread iderw 1 (faddr V i bn); d ← fdata bp;
       fset_data bp (splice d o chunk);; flog_write bp;; fbrelse bp;; k) (h, s) = k (h', set_fs_log l' s)) ∧
    ready p pr h' ∧ lview g pid l' (vset V (faddr V i bn) (splice (fblock V i bn) o chunk)) ∅ (logged L (faddr V i bn)).
Proof using HBD.
  intros Hr Hv Hfi Hbn Ha Hl Hc Ho Hlen Hby. pose proof (fk_block _ _ _ _ Hfi _ (owns_addr V i bn Hbn Ha)) as Hd.
  destruct (fbread_run iderw p pr g h s V ∅ L (faddr V i bn) Hr Hv (db_home _ _ _ _ Hd)) as (b & dirty & h1 & l1 & E1 & Hr1 & Hb & Hv1);
    [by intros ? ? ?|done|]. set (s1 := set_fs_log l1 s).
  assert (V (faddr V i bn) = fblock V i bn) as Ev by (unfold fblock; by rewrite -> (proj2 (Z.eqb_neq _ _) Ha)).
  destruct (lview_blocks pr g _ _ _ _ Hv _ (db_home _ _ _ _ Hd)) as [Hil Hib].
  destruct (fcommit_run iderw p pr g h1 s1 V _ L b _ (splice (V (faddr V i bn)) o chunk) Hr1 Hv1 (lookup_insert_eq _ _ _))
    as (h2 & l2 & E2 & _ & Hr2 & Hv2).
  - rewrite -> length_splice; [done|done|]. rw Hil. unfold BSIZE in *. lia.
  - by apply bytes_splice.
  - done.
  - exists h2, l2. split_and!.
    + intros A k. rw (bind_ok _ _ _ _ _ E1).
      rw (bind_ok _ _ _ _ _ (fdata_run pr g h1 s1 _ _ _ b _ Hv1 (lookup_insert_eq _ _ _))). cbn [hd_data]. apply E2.
    + done.
    + cbn [hd_blk] in Hv2. rewrite -> delete_insert_id in Hv2 by done. by rw Ev in Hv2.
Qed.

(** One round of the loop. *)
Lemma writei_step h s V L ip i off src :
  let n := Z.of_nat (length src) in let m := Z.min n (BSIZE - off mod BSIZE) in let bn := off / BSIZE in let sb := fs_sb s in
  ready p pr h → lview g pid (fs_log s) V ∅ L → fs_ok g sb V → file_ok g sb V i →
  fs_inodes s !! ip = Some i → i_dev i = 1 → 0 ≤ off → 0 < n → off + n ≤ MAXFILE * BSIZE → bytes src →
  (miss V i bn + ind_miss i ≤ nfree sb V)%nat → space g L (ind_cost i L + (1 + miss V i bn) + 1) →
  ∃ h' l' V' i' L',
    (∀ A (k : K fsst A), (i ← inode_at ip; b ← bmap iderw ip bn; bp ← fbread iderw (i_dev i) b; d ← fdata bp;
       fset_data bp (splice d (off mod BSIZE) (take (Z.to_nat m) src));; flog_write bp;; fbrelse bp;; k) (h, s)
       = k (h', set_fs_log l' (put_inode ip i' s))) ∧
    ready p pr h' ∧ lview g pid l' V' ∅ L' ∧ evolves g sb V i V' i' ∧ i_size i' = i_size i ∧ faddr V' i' bn ≠ 0 ∧
    (∀ V3 i3, fwritten V' i' (off + m) (drop (Z.to_nat m) src) V3 i3 → fwritten V i off src V3 i3) ∧
    (length L' + ind_cost i' L' ≤ length L + ind_cost i L + (1 + miss V i bn))%nat ∧ (miss V i bn = 0%nat → i' = i) ∧
    (nfree sb V + ind_miss i' = nfree sb V' + miss V i bn + ind_miss i)%nat.
Proof using HBD.
  intros n m bn sb Hr Hv Hfs Hfi Hip Hdev Ho Hn Hmax Hby Hnf Hsp.
  pose proof (chunk_pos off n Hn Ho) as Hm. fold m in Hm.
  assert (0 ≤ bn < MAXFILE) as Hbn by (by eapply block_range).
  assert (miss V i bn ≤ 1)%nat as Hm1 by (unfold miss; case_decide; lia).
  destruct (bmap_run iderw p pr g h s V L ip i bn Hr Hv Hfs Hfi Hip Hdev Hbn) as
    (h1 & l1 & V1 & i1 & L1 & E1 & Hr1 & Hv1 & Hev1 & Hfb1 & Ha & Hsz1 & HL1 & HaL & Hnf1);
    [done|eapply space_le; [done|lia]|]. fold sb in Hev1, Hnf1. set (s1 := set_fs_log l1 (put_inode ip i1 s)) in *.
  pose proof (ev_file _ _ _ _ _ _ Hev1) as Hfi1. pose proof (ev_fs _ _ _ _ _ _ Hev1) as Hfs1.
  assert (length (take (Z.to_nat m) src) = Z.to_nat m) as Hlt by (rw length_take; lia).
  assert (0 ≤ off mod BSIZE) as Hod by (unfold BSIZE; dlia).
  assert (space g L1 1) as Hsp1 by (eapply space_le; [done|lia]).
  destruct (write_block_run h1 s1 V1 L1 i1 bn (off mod BSIZE) (take (Z.to_nat m) src) Hr1 Hv1 Hfi1 Hbn Ha) as (h2 & l2 & E2 & Hr2 & Hv2);
    [by eapply space_log|eapply space_cache; [done|rw map_size_empty; lia]|lia|rw Hlt; lia|by apply Forall_take|].
  destruct (evolves_write g sb V1 i1 Hfs1 Hfi1 bn (splice (fblock V1 i1 bn) (off mod BSIZE) (take (Z.to_nat m) src)) Hbn Ha) as (Hev2 & Hfb2 & Hfa2).
  eexists h2, l2, _, i1, _. split_and!; [|exact Hr2|exact Hv2|by eapply evolves_trans|done|by rewrite -> Hfa2| | | |].
  - intros A k. rw (bind_ok _ _ _ _ _ (inode_at_run h s ip i Hip)) (bind_ok _ _ _ _ _ E1) Hdev. apply E2.
  - intros V3 i3 H3. eapply (fwritten_step g sb V i off src V1); try done. by eapply lview_blocks.
  - pose proof (ind_cost_mono i1 i1 L1 (logged L1 (faddr V1 i1 bn)) eq_refl ltac:(intros; apply elem_of_logged; auto)).
    pose proof (logged_le L1 (faddr V1 i1 bn)). unfold miss in HL1 |- *. destruct (decide (faddr V i bn = 0)); [|lia].
    unfold logged at 1. rewrite -> decide_True by auto. lia.
  - unfold miss. by destruct (decide (faddr V i bn = 0)).
  - rewrite -> (nfree_ext sb V1 (vset V1 _ _)); [done|]. apply used_ext. intros c Hc. apply vset_ne.
    by apply (db_bitmap _ _ _ _ (fk_block _ _ _ _ Hfi1 _ (owns_addr V1 i1 bn Hbn Ha))).
Qed.

(** What the loop establishes: the bytes are there, the blocks that hold them
    belong to the file, and the log grew by no more than the blocks touched,
    their missing bitmap blocks and the indirect block. *)
Definition written (sb : superblock) V i L off src V' i' L' : Prop :=
  let bns := blocks_of off (Z.of_nat (length src)) in
  evolves g sb V i V' i' ∧ i_size i' = i_size i ∧ fwritten V i off src V' i' ∧
  (∀ bn, bn ∈ bns → faddr V' i' bn ≠ 0) ∧ (misses V i bns = 0%nat → i' = i) ∧
  (length L' + ind_cost i' L' ≤ length L + ind_cost i L + (length bns + misses V i bns))%nat.

Lemma writei_loop_run fuel : ∀ h s V L ip i off src,
  let n := Z.of_nat (length src) in let bns := blocks_of off n in let sb := fs_sb s in
  ready p pr h → lview g pid (fs_log s) V ∅ L → fs_ok g sb V → file_ok g sb V i →
  fs_inodes s !! ip = Some i → i_dev i = 1 → 0 ≤ off → off + n ≤ MAXFILE * BSIZE → bytes src →
  (misses V i bns + ind_miss i ≤ nfree sb V)%nat → space g L (ind_cost i L + (length bns + misses V i bns) + 1) →
  n ≤ 0 ∨ off mod BSIZE + n ≤ BSIZE * Z.of_nat fuel →
  ∃ h' l' V' i' L', writei_loop iderw fuel ip off src (h, s) = Ok tt (h', set_fs_log l' (put_inode ip i' s)) ∧
    ready p pr h' ∧ lview g pid l' V' ∅ L' ∧ written sb V i L off src V' i' L'.
Proof using HBD.
  induction fuel as [|fuel IH]; intros h s V L ip i off src n bns sb Hr Hv Hfs Hfi Hip Hdev Ho Hmax Hby Hnf Hsp Hfuel;
    cbn [writei_loop]; fold n; destruct (Z.leb_spec n 0) as [Hn|Hn].
  1,3: exists h, (fs_log s), V, i, L; unfold put_inode; rw list_insert_id //; split_and!; [by destruct s|done..|];
    unfold written; fold n; unfold blocks_of; rewrite -> (proj2 (Z.leb_le n 0)) by done;
    split_and!; [by apply evolves_refl|done|intros o Ho'; by rewrite -> decide_False by lia|by intros ? ?%elem_of_nil|done|cbn; lia].
  { exfalso. pose proof (Z.mod_pos_bound off BSIZE ltac:(done)). lia. }
  set (m := Z.min n (BSIZE - off mod BSIZE)). set (bn := off / BSIZE).
  pose proof (chunk_pos off n Hn Ho) as Hm. fold m in Hm.
  assert (bns = bn :: blocks_of (off + m) (n - m)) as Hbs by (by apply blocks_of_step).
  set (bns' := blocks_of (off + m) (n - m)) in *. rewrite -> Hbs, misses_cons in Hnf, Hsp. cbn [length] in Hsp.
  destruct (writei_step h s V L ip i off src Hr Hv Hfs Hfi Hip Hdev Ho Hn Hmax Hby) as
    (h1 & l1 & V1 & i1 & L1 & E1 & Hr1 & Hv1 & Hev1 & Hsz1 & Ha & Hfw & HL1 & Hii1 & Hnf1);
    [fold bn sb; lia|fold bn; eapply space_le; [done|lia]|].
  fold n m bn sb in E1, Hev1, Hnf1, HL1, Hfw, Ha, Hii1. rw E1. set (s1 := set_fs_log l1 (put_inode ip i1 s)) in *.
  assert (Z.of_nat (length (drop (Z.to_nat m) src)) = n - m) as Hld by (rw length_drop; lia).
  assert (misses V1 i1 bns' ≤ misses V i bns')%nat as Hmi.
  { apply misses_mono. intros b Hb%elem_of_blocks; [|lia]. assert (0 ≤ b < MAXFILE) as Hbr.
    { change MAXFILE with 140 in *. unfold BSIZE in *. dlia. }
    intros Hb0. by rewrite -> (ev_keep _ _ _ _ _ _ Hev1). }
  destruct (IH h1 s1 V1 L1 ip i1 (off + m) (drop (Z.to_nat m) src)) as (h3 & l3 & V3 & i3 & L3 & E3 & Hr3 & Hv3 & Hw3);
    rw ?Hld; try done; try lia.
  - apply Hev1.
  - apply Hev1.
  - by eapply put_lookup.
  - rewrite -> (ev_meta _ _ _ _ _ _ Hev1). done.
  - by apply Forall_drop.
  - change (fs_sb s1) with sb. fold bns'. lia.
  - fold bns'. eapply space_le; [done|]. lia.
  - by apply fuel_step.
  - exists h3, l3, V3, i3, L3. unfold written in *. rewrite -> Hld in Hw3. fold bns' in Hw3. fold n bns. rewrite -> Hbs, misses_cons.
    destruct Hw3 as (Hev3 & Hsz3 & Hfw3 & Hmap3 & Hii3 & HL3). split_and!; [|done|done|by eapply evolves_trans|congruence|by apply Hfw| | |cbn [length]; lia].
    + rw E3. unfold s1. rw put_inode_log put_put. done.
    + intros b [->|Hb]%elem_of_cons; [|by apply Hmap3]. rewrite -> (ev_keep _ _ _ _ _ _ Hev3); [done| |done]. by eapply block_range.
    + intros Hz. rewrite <- Hii1 by lia. apply Hii3. lia.
Qed.
End writei.
