(* ===== verification/Args.v ===== *)
(** * System call arguments: the first half of syscall.c

    The kernel reads the arguments of a system call from the stack of the user
    process, and the memory they point to, through the page table that is
    loaded. *)

From S2P Require Import Prelude Machine Spinlock Mem Kalloc Sched Vm Bytes.

(** ** The paging hardware *)

(** The address in the kernel's map of memory of the byte at virtual address
    [va], for an access by the kernel; [None] is a page fault. The kernel runs
    with write protection on. *)
Definition translate (m : memory) (cr3 va : Z) (write : bool) : option Z :=
  let pde := ld32 m (P2V cr3 + 4 * PDX va) in
  if Z.land pde PTE_P =? 0 then None else
  let pte := ld32 m (P2V (PTE_ADDR pde) + 4 * PTX va) in
  if Z.land pte PTE_P =? 0 then None else
  if write && ((Z.land pde PTE_W =? 0) || (Z.land pte PTE_W =? 0)) then None else
  Some (P2V (PTE_ADDR pte) + va mod PGSIZE).

(** Loads and stores of the kernel at user addresses. *)
Definition uld8 (va : Z) : K memst Z :=
  h ← geth;
  s ← getc;
  match translate (m_mem s) (h_cr3 h) va false with
  | Some a => mret (ld8 (m_mem s) a)
  | None => fault "page fault"
  end.
Definition ust8 (va v : Z) : K memst unit :=
  h ← geth;
  s ← getc;
  match translate (m_mem s) (h_cr3 h) va true with
  | Some a => modc (set_m_mem (st8 (m_mem s) a v))
  | None => fault "page fault"
  end.

(** The [n] bytes at [va]; the bytes [l] stored there. *)
Fixpoint ubytes (n : nat) (va : Z) : K memst (list Z) :=
  match n with
  | O => mret []
  | S n => c ← uld8 va; l ← ubytes n (u32 (va + 1)); mret (c :: l)
  end.
Fixpoint uwrite (va : Z) (l : list Z) : K memst unit :=
  match l with
  | [] => mret tt
  | c :: l => ust8 va c;; uwrite (u32 (va + 1)) l
  end.

Definition uld32 (va : Z) : K memst Z := l ← ubytes 4 va; mret (le_value l).

(** ** Operations; [None] is the result -1 *)

Definition fetchint (addr : Z) : K memst (option Z) :=
  me ← myproc;
  p ← proc_at me;
  if (p_sz p <=? addr) || (p_sz p <? u32 (addr + 4)) then mret None else
  v ← uld32 addr;
  mret (Some (s32 v)).

(** The loop of [fetchstr]: the bytes before the NUL, if there is one in the
    [n] bytes at [s]. *)
Fixpoint fetchstr_loop (n : nat) (s : Z) : K memst (option (list Z)) :=
  match n with
  | O => mret None
  | S n =>
      c ← uld8 s;
      if c =? 0 then mret (Some []) else
      r ← fetchstr_loop n (u32 (s + 1));
      mret ((c ::.) <$> r)
  end.

(** The string itself instead of its address and its length. *)
Definition fetchstr (addr : Z) : K memst (option (list Z)) :=
  me ← myproc;
  p ← proc_at me;
  if p_sz p <=? addr then mret None else
  fetchstr_loop (Z.to_nat (p_sz p - addr)) addr.

Definition argint (n : Z) : K memst (option Z) :=
  me ← myproc;
  p ← proc_at me;
  fetchint (u32 (tf_esp (p_tf p) + 4 + 4 * n)).

(** The address. *)
Definition argptr (n size : Z) : K memst (option Z) :=
  me ← myproc;
  p ← proc_at me;
  r ← argint n;
  match r with
  | None => mret None
  | Some i =>
      if (size <? 0) || (p_sz p <=? u32 i) || (p_sz p <? u32 (u32 i + size)) then mret None
      else mret (Some (u32 i))
  end.

Definition argstr (n : Z) : K memst (option (list Z)) :=
  r ← argint n;
  match r with
  | None => mret None
  | Some addr => fetchstr (u32 addr)
  end.

(** ** Lemmas *)

(** The bytes that the process has in its [sz] bytes of memory. *)
Definition umem (m : memory) (cr3 sz : Z) (f : Z → Z) : Prop :=
  ∀ va, 0 ≤ va < sz → is_byte (f va) ∧ ∃ a, translate m cr3 va false = Some a ∧ ld8 m a = f va.
Definition uword (f : Z → Z) (a : Z) : Z := le_value (f <$> seqZ a 4).

Lemma cr3_settle h : h_cr3 (settle h) = h_cr3 h.
Proof. unfold settle, upd_me. by destruct (me h). Qed.

Section args.
Context (s : memst) (sz : Z) (f : Z → Z) (Hsz : sz ≤ KERNBASE).
Implicit Types h : hw.

Lemma uld8_run h va : umem (m_mem s) (h_cr3 h) sz f → 0 ≤ va < sz → uld8 va (h, s) = Ok (f va) (h, s).
Proof using Type.
  intros Hm Hva. destruct (Hm va Hva) as (_ & a & Ea & El). unfold uld8.
  rw (bind_ok _ _ _ h (h, s)) // (bind_ok _ _ _ s (h, s)) // Ea El. done.
Qed.

Lemma ubytes_run h n : ∀ va, umem (m_mem s) (h_cr3 h) sz f → 0 ≤ va → va + Z.of_nat n ≤ sz →
  ubytes n va (h, s) = Ok (f <$> seqZ va (Z.of_nat n)) (h, s).
Proof using Hsz.
  induction n as [|n IH]; intros va Hm H0 Hle; [done|]. cbn [ubytes].
  rw (bind_ok _ _ _ _ _ (uld8_run h va Hm ltac:(lia))). rewrite -> wrapu_small by (unfold KERNBASE in *; lia).
  rw (bind_ok _ _ _ _ _ (IH (va + 1) Hm ltac:(lia) ltac:(lia))). rewrite -> (seqZ_cons va) by lia.
  cbn [fmap list_fmap]. do 3 f_equal. f_equal. lia.
Qed.

Lemma uword_range h a : umem (m_mem s) (h_cr3 h) sz f → 0 ≤ a → a + 4 ≤ sz → 0 ≤ uword f a < 2 ^ 32.
Proof using Type.
  intros Hm H0 Hle. assert (bytes (f <$> seqZ a 4)) as Hb.
  { apply Forall_fmap, Forall_forall. intros x Hx%elem_of_seqZ. apply (Hm x). lia. }
  pose proof (le_value_range _ Hb) as Hr. by rw length_fmap length_seqZ in Hr.
Qed.

Lemma fetchstr_loop_run h n : ∀ va, umem (m_mem s) (h_cr3 h) sz f → 0 ≤ va → va + Z.of_nat n ≤ sz →
  ∃ r, fetchstr_loop n va (h, s) = Ok r (h, s) ∧
    match r with
    | Some l => let k := Z.of_nat (length l) in k < Z.of_nat n ∧ l = f <$> seqZ va k ∧ f (va + k) = 0 ∧ Forall (λ c, c ≠ 0) l
    | None => ∀ o, va ≤ o < va + Z.of_nat n → f o ≠ 0
    end.
Proof using Hsz.
  induction n as [|n IH]; intros va Hm H0 Hle; cbn [fetchstr_loop].
  { exists None. split; [done|]. lia. }
  rw (bind_ok _ _ _ _ _ (uld8_run h va Hm ltac:(lia))). destruct (Z.eqb_spec (f va) 0) as [Ez|Ez].
  { exists (Some []). split; [done|]. cbn. split_and!; [lia|done|by rw Z.add_0_r|done]. }
  rewrite -> wrapu_small by (unfold KERNBASE in *; lia).
  destruct (IH (va + 1) Hm ltac:(lia) ltac:(lia)) as (r & E & Hr). rw (bind_ok _ _ _ _ _ E). destruct r as [l|].
  - exists (Some (f va :: l)). split; [done|]. destruct Hr as (H1 & H2 & H3 & H4). cbn [length]. split_and!; [lia| | |by constructor].
    + rewrite -> seqZ_cons by lia. cbn [fmap list_fmap]. f_equal. rewrite -> H2 at 1. do 2 f_equal; lia.
    + rewrite <- H3. f_equal. lia.
  - exists None. split; [done|]. intros o Ho. destruct (decide (o = va)) as [->|]; [done|]. apply Hr. lia.
Qed.

Lemma runs_myproc h p pr : runs h p pr → (me ← myproc; proc_at me) (h, s) = Ok pr (settle h, s).
Proof using Type.
  intros [[Hw _ _] _ Hc Hp]. rw (bind_ok _ _ _ _ _ (myproc_ok h s Hw)) Hc. apply proc_at_ok. by rw procs_settle.
Qed.

Lemma runs_then {A} h p pr (k : proc → K memst A) : runs h p pr → (me ← myproc; p ← proc_at me; k p) (h, s) = k pr (settle h, s).
Proof using Type. intros Hr. rw -bind_assoc (bind_ok _ _ _ _ _ (runs_myproc h p pr Hr)). done. Qed.
End args.

(** ** Properties *)

(** C33: the arguments of a system call come from the memory of the process and
    nowhere else. For a process with [sz] bytes of memory, [argint] returns the
    word at its place on the user stack, or -1 when it is not inside;
    [argptr] accepts a pointer exactly when the whole block lies inside the
    memory, also for sizes and addresses whose sum wraps around in C;
    [argstr] returns the bytes up to the first NUL when there is one inside,
    and -1 otherwise. None of them faults or changes anything. *)
Theorem arguments_in_bounds (h : hw) (s : memst) (p : nat) (pr : proc) (f : Z → Z) (n : Z) :
  let sz := p_sz pr in let a := u32 (tf_esp (p_tf pr) + 4 + 4 * n) in let v := uword f a in
  runs h p pr → 0 ≤ sz ≤ KERNBASE → umem (m_mem s) (h_cr3 h) sz f →
  argint n (h, s) = Ok (if a + 4 <=? sz then Some (s32 v) else None) (settle h, s) ∧
  (∀ size, - 2 ^ 31 ≤ size < 2 ^ 31 →
    argptr n size (h, s) =
      Ok (if (a + 4 <=? sz) && (0 <=? size) && (v <? sz) && (v + size <=? sz) then Some v else None) (settle h, s)) ∧
  ∃ r, argstr n (h, s) = Ok r (settle h, s) ∧
    match r with
    | Some l => let k := Z.of_nat (length l) in
        a + 4 ≤ sz ∧ v + k < sz ∧ l = f <$> seqZ v k ∧ f (v + k) = 0 ∧ Forall (λ c, c ≠ 0) l
    | None => sz < a + 4 ∨ ∀ o, v ≤ o < sz → f o ≠ 0
    end.
Proof.
  intros sz a v Hr Hsz Hm. pose proof (runs_settle _ _ _ Hr) as Hr1. assert (0 ≤ a < 2 ^ 32) as Ha by (by apply wrapu_range).
  assert (∀ h, runs h p pr → umem (m_mem s) (h_cr3 h) sz f →
    argint n (h, s) = Ok (if a + 4 <=? sz then Some (s32 v) else None) (settle h, s)) as Hint.
  { clear - Hsz Ha. intros h Hr Hm. pose proof (runs_settle _ _ _ Hr) as Hr1.
    unfold argint. rw (runs_then s h p pr _ Hr). fold a. unfold fetchint. rw (runs_then s (settle h) p pr _ Hr1). fold sz.
    rw settle_settle. destruct (Z.leb_spec sz a); cbn [orb].
    { by rewrite -> (proj2 (Z.leb_gt (a + 4) sz)) by lia. }
    rewrite -> wrapu_small by (unfold KERNBASE in *; lia). rewrite -> Z.leb_antisym. destruct (Z.ltb_spec sz (a + 4)); cbn [negb]; [done|].
    unfold uld32. rewrite -> (bind_ok _ _ _ v (settle h, s)); [done|].
    rw (bind_ok _ _ _ _ _ (ubytes_run s sz f ltac:(lia) (settle h) 4 a ltac:(by rw cr3_settle) ltac:(lia) ltac:(lia))). done. }
  assert (umem (m_mem s) (h_cr3 (settle h)) sz f) as Hm1 by (by rw cr3_settle).
  assert (a + 4 ≤ sz → u32 (s32 v) = v) as Huv.
  { intros Hle. apply wrapu_of_wraps; [done|]. eapply uword_range; [exact Hm|lia..]. }
  split_and!; [by apply Hint|..].
  - intros size Hsize. unfold argptr. rw (runs_then s h p pr _ Hr) (bind_ok _ _ _ _ _ (Hint _ Hr1 Hm1)) settle_settle.
    destruct (Z.leb_spec (a + 4) sz) as [Hle|]; [|done]. rewrite -> Huv by done. fold sz. cbn [andb].
    pose proof (uword_range s sz f h a Hm ltac:(lia) Hle) as Hvr. fold v in Hvr. unfold KERNBASE in *.
    destruct (Z.ltb_spec size 0), (Z.leb_spec 0 size); try lia; [done|]. cbn [orb andb].
    destruct (Z.leb_spec sz v), (Z.ltb_spec v sz); try lia; [done|]. cbn [orb andb].
    rewrite -> wrapu_small by lia. destruct (Z.ltb_spec sz (v + size)), (Z.leb_spec (v + size) sz); lia || done.
  - unfold argstr. rw (bind_ok _ _ _ _ _ (Hint _ Hr Hm)).
    destruct (Z.leb_spec (a + 4) sz) as [Hle|]; [|exists None; split; [done|by left]]. rewrite -> Huv by done.
    pose proof (uword_range s sz f h a Hm ltac:(lia) Hle) as Hvr. fold v in Hvr.
    unfold fetchstr. rw (runs_then s (settle h) p pr _ Hr1) settle_settle. fold sz.
    destruct (Z.leb_spec sz v); [exists None; split; [done|right; lia]|].
    destruct (fetchstr_loop_run s sz f ltac:(lia) (settle h) (Z.to_nat (sz - v)) v Hm1 ltac:(lia) ltac:(lia)) as (r & E & Hres).
    exists r. split; [done|]. destruct r as [l|]; [|right; intros o Ho; apply Hres; lia].
    destruct Hres as (? & ? & ? & ?). split_and!; try done; lia.
Qed.

(** ** The property on a concrete process *)

(** A process with 24 bytes of memory in one frame; its first argument points
    to the string at 16. *)
Definition ex_argmem : memst :=
  let m := st32 (st32 ∅ ex_pgdir (V2P ex_tab + 7)) ex_tab 0x600007 in
  set_m_mem (st8 (st8 (st32 m 0x80600004 16) 0x80600010 104) 0x80600011 105) ex_kmem.
Definition ex_argproc : proc := set_p_sz 24 (set_p_state RUNNING (set_p_pid 7 zero_proc)).
Definition ex_argmachine : hw := set_h_cr3 (V2P ex_pgdir) (set_h_procs (ex_argproc :: replicate 63 zero_proc) boot_hw).
Definition ex_argbyte (va : Z) : Z := if va =? 4 then 16 else if va =? 16 then 104 else if va =? 17 then 105 else 0.

Lemma ex_argruns : runs ex_argmachine 0 ex_argproc.
Proof. split; [split; [apply boot_hw_wf|done..]| |done..]. by intros c [= <-]. Qed.

Lemma ex_argumem : umem (m_mem ex_argmem) (h_cr3 ex_argmachine) 24 ex_argbyte.
Proof.
  intros va Hva. split; [unfold ex_argbyte, is_byte; repeat case_bool; lia|].
  pose proof (forallb_range (λ va, match translate (m_mem ex_argmem) (h_cr3 ex_argmachine) va false with
    | Some a => ld8 (m_mem ex_argmem) a =? ex_argbyte va | None => false end) 24 va ltac:(by vm_compute) Hva) as E.
  cbn beta in E. destruct (translate _ _ va false) as [a|]; [|done]. exists a. split; [done|]. by apply Z.eqb_eq.
Qed.

Lemma arguments_in_bounds_witness :
  argint 0 (ex_argmachine, ex_argmem) = Ok (Some 16) (settle ex_argmachine, ex_argmem) ∧
  argptr 0 8 (ex_argmachine, ex_argmem) = Ok (Some 16) (settle ex_argmachine, ex_argmem) ∧
  argptr 0 9 (ex_argmachine, ex_argmem) = Ok None (settle ex_argmachine, ex_argmem).
Proof.
  destruct (arguments_in_bounds ex_argmachine ex_argmem 0 ex_argproc ex_argbyte 0 ex_argruns ltac:(done) ex_argumem) as (H1 & H2 & _).
  assert (∀ r r' : option Z, r = r' → Ok (A := option Z) (S := hw * memst) r (settle ex_argmachine, ex_argmem) = Ok r' (settle ex_argmachine, ex_argmem))
    as Hr by (by intros ? ? ->).
  split_and!; [rewrite -> H1|rewrite -> (H2 8) by lia|rewrite -> (H2 9) by lia]; apply Hr; vm_compute; reflexivity.
Defined.
