(* ===== verification/ConsoleIn.v ===== *)
(** * Console input: the keyboard half of console.c, and [procdump] of proc.c

    [consoleintr] edits the current line in the input buffer and hands complete
    lines to [consoleread]; [consoleread] and [consolewrite] are the device
    behind the inode of the console. *)

From S2P Require Import Prelude Machine Spinlock Console Mem CString Kalloc Sched Sleeplock Ring Bytes Bio Cache Log Recovery Txn Fs.

(** ** The process listing *)

(** The loop of [getcallerpcs] of spinlock.c: [n] return addresses through the
    saved frame pointers, then zeros. *)
Fixpoint getcallerpcs_loop (m : memory) (n : nat) (ebp : Z) : list Z :=
  match n with
  | O => []
  | S n =>
      if (ebp =? 0) || (ebp <? KERNBASE) || (ebp =? 0xffffffff) then replicate (S n) 0
      else ld32 m (u32 (ebp + 4)) :: getcallerpcs_loop m n (ld32 m ebp)
  end.
Definition getcallerpcs (m : memory) (v : Z) : list Z := getcallerpcs_loop m 10 (u32 (v - 8)).

(** [states[p->state]] *)
Definition state_name (s : procstate) : list Z :=
  chars match s with
  | UNUSED => "unused" | EMBRYO => "embryo" | SLEEPING => "sleep "
  | RUNNABLE => "runble" | RUNNING => "run   " | ZOMBIE => "zombie"
  end.

(** [for(i=0; i<10 && pc[i] != 0; i++) cprintf(" %p", pc[i]);] *)
Fixpoint print_pcs {C} (pc : list Z) : K C unit :=
  match pc with
  | [] => mret tt
  | x :: pc => if x =? 0 then mret tt else cprintf (chars " %p") [AInt x];; print_pcs pc
  end.

Definition procdump : K memst unit :=
  mfor (seq 0 NPROC) (λ i,
    p ← proc_at (Some i);
    if bool_decide (p_state p = UNUSED) then mret tt else
    cprintf (chars "%d %s %s") [AInt (p_pid p); AStr (Some (state_name (p_state p))); AStr (Some (cstr (p_name p)))];;
    when (bool_decide (p_state p = SLEEPING))
      (s ← getc;
       print_pcs (getcallerpcs (m_mem s) (u32 (cx_ebp (p_context p) + 8))));;
    cprintf [10] []).

(** ** The line editor *)

Definition INPUT_BUF : Z := 128.
(** [C(x)] *)
Definition ctrl (x : Z) : Z := x - 64.

Definition input_r : option objaddr := Some ("input.r"%string, 0).

Section input.
Context {C : Type}.

Definition getin : K C inputst := h ← geth; mret (cn_input (h_cons h)).
Definition modin (f : inputst → inputst) : K C unit :=
  modcons (λ s, set_cn_input (f (cn_input s)) s).
(** [input.buf[i % INPUT_BUF]] *)
Definition in_at (inp : inputst) (i : Z) : Z := nth (Z.to_nat (i mod INPUT_BUF)) (in_buf inp) 0.

(** [while(input.e != input.w && input.buf[(input.e-1) % INPUT_BUF] != '\n')] *)
Fixpoint kill_line (fuel : nat) : K C unit :=
  inp ← getin;
  if (in_e inp =? in_w inp) || (in_at inp (u32 (in_e inp - 1)) =? 10) then mret tt else
  match fuel with
  | O => fault "consoleintr: loop"
  | S fuel =>
      modin (set_in_e (u32 (in_e inp - 1)));;
      consputc BACKSPACE;;
      kill_line fuel
  end.

(** The [switch] of [consoleintr]; [C('P')] is the flag [doprocdump]. The buffer
    has elements of type [char]. *)
Definition consoleintr_char (c : Z) : K C unit :=
  inp ← getin;
  if c =? ctrl 80 then mret tt
  else if c =? ctrl 85 then kill_line (Z.to_nat (u32 (in_e inp - in_w inp)))
  else if (c =? ctrl 72) || (c =? 0x7f) then
    if negb (in_e inp =? in_w inp) then
      modin (set_in_e (u32 (in_e inp - 1)));;
      consputc BACKSPACE
    else mret tt
  else if negb (c =? 0) && (u32 (in_e inp - in_r inp) <? INPUT_BUF) then
    let c := if c =? 13 then 10 else c in
    modin (λ i, set_in_e (u32 (in_e i + 1)) (set_in_buf (<[Z.to_nat (in_e i mod INPUT_BUF) := s8 c]> (in_buf i)) i));;
    consputc c;;
    inp ← getin;
    when ((c =? 10) || (c =? ctrl 68) || (in_e inp =? u32 (in_r inp + INPUT_BUF)))
      (modin (λ i, set_in_w (in_e i) i);;
       wakeup input_r)
  else mret tt.
End input.

(** [cs]: what [getc] returns before the first negative number. *)
Definition consoleintr (cs : list Z) : K memst unit :=
  acquire cons_lock;;
  mfor cs consoleintr_char;;
  release cons_lock;;
  when (bool_decide (ctrl 80 ∈ cs)) procdump.

(** ** The console device *)

Section device.
Context (iderw : nat → K bst unit).

(** The loop of [consoleread] with [n] characters to go: the bytes stored, and
    whether the process was found killed. *)
Fixpoint consoleread_loop (n : nat) (target : Z) : K fsst (list Z * bool) :=
  match n with
  | O => mret ([], false)
  | S n' =>
      inp ← getin;
      if in_r inp =? in_w inp then
        me ← myproc;
        p ← proc_at me;
        if p_killed p then mret ([], true)
        else sleep input_r (Some cons_lock);; mret ([], true)
      else
        let c := in_at inp (in_r inp) in
        modin (set_in_r (u32 (in_r inp + 1)));;
        if c =? ctrl 68 then
          when (Z.of_nat n <? target) (modin (λ i, set_in_r (u32 (in_r i - 1)) i));;
          mret ([], false)
        else if c =? 10 then mret ([u8 c], false)
        else
          '(bs, killed) ← consoleread_loop n' target;
          mret (u8 c :: bs, killed)
  end.

(** From the loop on, with [n] characters to go and the bytes [got] stored. *)
Definition consoleread_from (ip : nat) (n target : Z) (got : list Z) : K fsst (Z * list Z) :=
  '(bs, killed) ← consoleread_loop (Z.to_nat n) target;
  release cons_lock;;
  ilock iderw (Some ip);;
  mret (if killed : bool then -1 else Z.of_nat (length (got ++ bs)), got ++ bs).

Definition consoleread (ip : nat) (n : Z) : K fsst (Z * list Z) :=
  iunlock (Some ip);;
  acquire cons_lock;;
  consoleread_from ip n (u32 n) [].

(** The process [p] runs again, with the bytes [got] stored before it slept. *)
Definition consoleread_resume (p : nat) (intena : bool) (ip : nat) (n target : Z) (got : list Z) : K fsst (Z * list Z) :=
  sleep_resume p cons_lock intena;;
  consoleread_from ip n target got.

Definition consolewrite (ip : nat) (buf : list Z) (n : Z) : K fsst Z :=
  iunlock (Some ip);;
  acquire cons_lock;;
  mfor buf (λ c, consputc (Z.land c 0xff));;
  release cons_lock;;
  ilock iderw (Some ip);;
  mret n.
End device.

(** [devsw] as [consoleinit] fills it. *)
Definition CONSOLE : Z := 1.
Definition dev_read (iderw : nat → K bst unit) (major : Z) : option (nat → Z → K fsst (Z * list Z)) :=
  if major =? CONSOLE then Some (consoleread iderw) else None.
Definition dev_write (iderw : nat → K bst unit) (major : Z) : option (nat → list Z → Z → K fsst Z) :=
  if major =? CONSOLE then Some (consolewrite iderw) else None.

(** The keyboard interrupt is enabled in the I/O APIC as well. *)
Definition consoleinit {C} : K C unit :=
  initlock cons_lock;;
  modcons (set_cn_locking true).
