(* ===== verification/Editor.v ===== *)
(** * The line editor of the console: [consoleintr] and [consoleread] of console.c

    The circular buffer with its three indexes refines two lists: the bytes of
    the lines that are complete and not yet read, and the line being typed. *)

From S2P Require Import Prelude Machine Spinlock Console Mem CString Kalloc Sched Sleeplock Ring Bytes Bio Cache Log Recovery Txn Fs ConsoleIn.

(** ** The abstract editor *)

(** What can be read, and the line being typed; elements of type [char]. *)
Record tty : Type := MkTty { ty_ready : list Z; ty_line : list Z }.

Definition erase : list Z := [8; 32; 8].

(** One key: the new state, the bytes echoed on the serial line, and whether
    readers are woken. *)
Definition key (t : tty) (c : Z) : tty * list Z * bool :=
  let n := Z.of_nat (length (ty_ready t) + length (ty_line t)) in
  if c =? ctrl 80 then (t, [], false)
  else if c =? ctrl 85 then (MkTty (ty_ready t) [], mjoin (replicate (length (ty_line t)) erase), false)
  else if (c =? ctrl 72) || (c =? 0x7f) then
    match ty_line t with
    | [] => (t, [], false)
    | l => (MkTty (ty_ready t) (take (length l - 1) l), erase, false)
    end
  else if negb (c =? 0) && (n <? INPUT_BUF) then
    let c := if c =? 13 then 10 else c in
    let l := ty_line t ++ [s8 c] in
    if (c =? 10) || (c =? ctrl 68) || (n + 1 =? INPUT_BUF)
    then (MkTty (ty_ready t ++ l) [], [c], true)
    else (MkTty (ty_ready t) l, [c], false)
  else (t, [], false).

Fixpoint keys (t : tty) (cs : list Z) : tty * list Z * bool :=
  match cs with
  | [] => (t, [], false)
  | c :: cs =>
      let '(t1, o1, b1) := key t c in
      let '(t2, o2, b2) := keys t1 cs in
      (t2, o1 ++ o2, b1 || b2)
  end.

(** A read of [n] bytes, of [target] in all: the bytes, and what stays to be
    read; [None] when there is no complete line. *)
Fixpoint read_line (n : nat) (target : Z) (l : list Z) : option (list Z * list Z) :=
  match n, l with
  | O, _ => Some ([], l)
  | S _, [] => None
  | S n', c :: l' =>
      if c =? ctrl 68 then Some ([], if Z.of_nat n <? target then l else l')
      else if c =? 10 then Some ([u8 c], l')
      else '(bs, l'') ← read_line n' target l'; Some (u8 c :: bs, l'')
  end.

(** ** The buffer *)

Record tty_rep (i : inputst) (t : tty) : Prop := {
  tt_buf : length (in_buf i) = Z.to_nat INPUT_BUF;
  tt_r : 0 ≤ in_r i < 2 ^ 32;
  tt_w : in_w i = u32 (in_r i + Z.of_nat (length (ty_ready t)));
  tt_e : in_e i = u32 (in_r i + Z.of_nat (length (ty_ready t ++ ty_line t)));
  tt_size : Z.of_nat (length (ty_ready t ++ ty_line t)) ≤ INPUT_BUF;
  tt_at : ∀ k x, (ty_ready t ++ ty_line t) !! k = Some x → in_at i (in_r i + Z.of_nat k) = x
}.

(** The indexes wrap at 2^32, a multiple of the size of the buffer. *)
Lemma wrap_mod k : u32 k mod INPUT_BUF = k mod INPUT_BUF.
Proof. unfold wrapu, INPUT_BUF. apply Z.mod_mod_divide. by exists 33554432. Qed.
Lemma in_at_wrap i k : in_at i (u32 k) = in_at i k.
Proof. unfold in_at. by rw wrap_mod. Qed.

Lemma wrap_same a b : 0 ≤ b < 2 ^ 32 → u32 (a + b) = u32 a ↔ b = 0.
Proof.
  intros Hb. unfold wrapu. split; [|intros ->; by rw Z.add_0_r]. intros E. dlia.
Qed.

Lemma wrap_diff a b : 0 ≤ b < 2 ^ 32 → u32 (u32 (a + b) - a) = b.
Proof. intros Hb. unfold wrapu. dlia. Qed.
Lemma wrap_add a b : u32 (u32 a + b) = u32 (a + b).
Proof. unfold wrapu. by rewrite -> Z.add_mod_idemp_l by lia. Qed.
Lemma wrap_sub a b : u32 (u32 a - b) = u32 (a - b).
Proof. unfold wrapu. by rewrite -> Zminus_mod_idemp_l. Qed.

Lemma in_at_put i k j c : length (in_buf i) = Z.to_nat INPUT_BUF →
  in_at (set_in_buf (<[Z.to_nat (k mod INPUT_BUF) := c]> (in_buf i)) i) j = if decide (j mod INPUT_BUF = k mod INPUT_BUF) then c else in_at i j.
Proof.
  intros Hl. unfold in_at. cbn [in_buf set_in_buf]. rw !nth_lookup. assert (0 ≤ j mod INPUT_BUF < INPUT_BUF ∧ 0 ≤ k mod INPUT_BUF < INPUT_BUF) as [? ?] by (unfold INPUT_BUF; dlia).
  case_decide as E.
  - rw E. rewrite -> list_lookup_insert_eq by lia. done.
  - rewrite -> list_lookup_insert_ne by lia. done.
Qed.

Section rep.
Context (i : inputst) (t : tty) (H : tty_rep i t).
Abbreviation nr := (Z.of_nat (length (ty_ready t))).
Abbreviation nl := (Z.of_nat (length (ty_line t))).

Lemma rep_size : nr + nl ≤ 128.
Proof using H. pose proof (tt_size _ _ H) as Hs. rw length_app in Hs. unfold INPUT_BUF in Hs. lia. Qed.

(** [input.e == input.w]: nothing is being typed. *)
Lemma rep_empty : (in_e i =? in_w i) = bool_decide (ty_line t = []).
Proof using H.
  pose proof rep_size as Hs. rewrite -> (tt_e _ _ H), (tt_w _ _ H). rw length_app Nat2Z.inj_add Z.add_assoc.
  pose proof (wrap_same (in_r i + nr) nl ltac:(lia)) as Hw. destruct (Z.eqb_spec (u32 (in_r i + nr + nl)) (u32 (in_r i + nr))) as [E|E]; symmetry.
  - apply bool_decide_eq_true. apply nil_length_inv. apply Hw in E. lia.
  - apply bool_decide_eq_false. intros El. apply E, Hw. by rw El.
Qed.

(** [input.r == input.w]: nothing can be read. *)
Lemma rep_blocked : (in_r i =? in_w i) = bool_decide (ty_ready t = []).
Proof using H.
  pose proof rep_size as Hs. pose proof (tt_r _ _ H) as Hr. rewrite -> (tt_w _ _ H).
  pose proof (wrap_same (in_r i) nr ltac:(lia)) as Hw. rewrite -> (wrapu_small 32 (in_r i)) in Hw by done.
  destruct (Z.eqb_spec (in_r i) (u32 (in_r i + nr))) as [E|E]; symmetry.
  - apply bool_decide_eq_true. apply nil_length_inv. symmetry in E. apply Hw in E. lia.
  - apply bool_decide_eq_false. intros El. apply E. symmetry. apply Hw. by rw El.
Qed.

Lemma rep_count : u32 (in_e i - in_r i) = nr + nl.
Proof using H. pose proof rep_size. rewrite -> (tt_e _ _ H), wrap_diff; rw length_app; lia. Qed.

(** The last character typed. *)
Lemma rep_last l x : ty_line t = l ++ [x] → in_at i (u32 (in_e i - 1)) = x.
Proof using H.
  intros E. rewrite -> (tt_e _ _ H), wrap_sub, in_at_wrap. replace (in_r i + Z.of_nat (length (ty_ready t ++ ty_line t)) - 1) with (in_r i + Z.of_nat (length (ty_ready t ++ l))).
  - apply (tt_at _ _ H). rw E app_assoc. apply list_lookup_middle. done.
  - rw E !length_app. cbn [length]. lia.
Qed.

Lemma rep_erase l x : ty_line t = l ++ [x] → tty_rep (set_in_e (u32 (in_e i - 1)) i) (MkTty (ty_ready t) l).
Proof using H.
  intros E. destruct H as [H1 H2 H3 H4 H5 H6]. split; try done; cbn [ty_ready ty_line].
  - cbn [in_e set_in_e in_r]. rw H4 wrap_sub E. f_equal. rw !length_app. cbn [length]. lia.
  - rw E in H5. rw !length_app in H5. rw length_app. cbn [length] in H5. lia.
  - intros k y Hk. apply H6. rw E app_assoc. by apply lookup_app_l_Some.
Qed.

Lemma rep_insert c : nr + nl < INPUT_BUF →
  tty_rep (set_in_e (u32 (in_e i + 1)) (set_in_buf (<[Z.to_nat (in_e i mod INPUT_BUF) := c]> (in_buf i)) i)) (MkTty (ty_ready t) (ty_line t ++ [c])).
Proof using H.
  intros Hlt. pose proof (tt_buf _ _ H) as Hb. destruct H as [_ H2 H3 H4 H5 H6]. rw length_app in H4. rw length_app in H5. split; try done; cbn [ty_ready ty_line].
  - cbn. by rw length_insert.
  - cbn [in_e set_in_e in_r set_in_buf]. rw H4 wrap_add. f_equal. rw !length_app. cbn [length]. lia.
  - rw !length_app. cbn [length]. lia.
  - intros k x Hk. change (in_at (set_in_e _ ?j) ?y) with (in_at j y). rw in_at_put //. cbn [in_r set_in_e set_in_buf].
    assert (in_e i mod INPUT_BUF = (in_r i + (nr + nl)) mod INPUT_BUF) as Ee.
    { rw H4 wrap_mod. do 2 f_equal. lia. }
    rw Ee. rw app_assoc in Hk. apply lookup_app_Some in Hk as [Hk|[Hge Hk]].
    + pose proof (lookup_lt_Some _ _ _ Hk) as Hkl. rw length_app in Hkl. rewrite -> decide_False; [by apply H6|]. unfold INPUT_BUF in *. dlia.
    + apply list_lookup_singleton_Some in Hk as [Hk <-]. rw length_app in Hk, Hge. rewrite -> decide_True; [done|]. do 2 f_equal. lia.
Qed.

Lemma rep_commit : tty_rep (set_in_w (in_e i) i) (MkTty (ty_ready t ++ ty_line t) []).
Proof using H. destruct H as [H1 H2 H3 H4 H5 H6]. split; try done; cbn [ty_ready ty_line]; by rw app_nil_r. Qed.

(** The first byte that can be read. *)
Lemma rep_first c l : ty_ready t = c :: l → in_at i (in_r i) = c ∧ tty_rep (set_in_r (u32 (in_r i + 1)) i) (MkTty l (ty_line t)).
Proof using H.
  intros E. destruct H as [H1 H2 H3 H4 H5 H6]. rw E in H3, H4, H5, H6. cbn [app length] in *. split.
  - rewrite <- (Z.add_0_r (in_r i)). by apply (H6 0%nat).
  - split; try done; cbn [ty_ready ty_line in_r set_in_r in_w in_e].
    + by apply wrapu_range.
    + rw wrap_add H3. f_equal. lia.
    + rw wrap_add H4. f_equal. lia.
    + lia.
    + intros k x Hk. change (in_at (set_in_r _ ?j) ?y) with (in_at j y). rewrite <- in_at_wrap, wrap_add, in_at_wrap.
      replace (in_r i + 1 + Z.of_nat k) with (in_r i + Z.of_nat (S k)) by lia. by apply H6.
Qed.
End rep.

(** ** The handlers on the machine *)

(** The state after some keys: the screen and the serial line have [out] in
    addition, and the sleeping readers may have been woken. *)
Record edits (h : hw) (h' : hw) (t' : tty) (out : list Z) (woke : bool) : Prop := {
  ed_ready : sched_ready h';
  ed_cons : cons_ok (h_cons h');
  ed_locks : h_locks h' = h_locks h;
  ed_rep : tty_rep (cn_input (h_cons h')) t';
  ed_uart : cn_uart (h_cons h') = cn_uart (h_cons h) ∧
    (cn_uart (h_cons h) = true → cn_uart_out (h_cons h') = cn_uart_out (h_cons h) ++ out);
  ed_procs : h_procs h' = if woke then woken input_r <$> h_procs h else h_procs h
}.

Definition with_input (f : inputst → inputst) (h : hw) : hw := set_h_cons (set_cn_input (f (cn_input (h_cons h))) (h_cons h)) h.
Definition with_char (c : Z) (h : hw) : hw := set_h_cons (cons_put (h_cons h) c) h.

Section runs.
Context {C : Type}.
Implicit Types (x : C) (h : hw).

Lemma getin_run h x : getin (acq cons_lock h, x) = Ok (cn_input (h_cons h)) (acq cons_lock h, x).
Proof using Type. unfold getin. erewrite bind_ok; [|done]. cbn [fst]. by rw cons_acq. Qed.

Lemma modin_run f h x : modin f (acq cons_lock h, x) = Ok tt (acq cons_lock (with_input f h), x).
Proof using Type. unfold modin, modcons, modh, with_input. cbn [fst snd]. by rw cons_acq acq_set_cons. Qed.

Lemma putc_run c h x : cons_ok (h_cons h) → consputc c (acq cons_lock h, x) = Ok tt (acq cons_lock (with_char c h), x).
Proof using Type. intros Hok. rw consputc_run; [by rw cons_acq|]. unfold with_char. by rw cons_acq acq_set_cons. Qed.
End runs.

Lemma cons_put_input s c : cn_input (cons_put s c) = cn_input s.
Proof.
  assert (∀ d s, cn_input (uart_put d s) = cn_input s) as Hu by (intros d u; unfold uart_put; by destruct (cn_uart u)).
  unfold cons_put, cga_put. destruct (cga_advance _ _) as [pos crt].
  destruct (pos =? 24 * 80); cbn [cn_input set_cn_crt set_cn_pos]; destruct (c =? BACKSPACE); by rw !Hu.
Qed.

Lemma cons_put_uart s c : cn_uart (cons_put s c) = cn_uart s.
Proof.
  assert (∀ d s, cn_uart (uart_put d s) = cn_uart s) as Hu by (intros d u; unfold uart_put; by destruct (cn_uart u) eqn:E).
  unfold cons_put. rw (proj1 (cga_put_uart _ _)). destruct (c =? BACKSPACE); by rw !Hu.
Qed.

Lemma woken_woken chan p : woken chan (woken chan p) = woken chan p.
Proof.
  unfold woken. destruct (bool_decide (p_state p = SLEEPING) && bool_decide (p_chan p = chan)) eqn:E; [done|by rw E].
Qed.

Lemma edits_refl h t : sched_ready h → cons_ok (h_cons h) → tty_rep (cn_input (h_cons h)) t → edits h h t [] false.
Proof. intros. split; try done. split; [done|]. by rw app_nil_r. Qed.

Lemma edits_trans h h1 t1 o1 b1 h2 t2 o2 b2 : edits h h1 t1 o1 b1 → edits h1 h2 t2 o2 b2 → edits h h2 t2 (o1 ++ o2) (b1 || b2).
Proof.
  intros [_ _ L1 _ [U1 O1] P1] [R2 C2 L2 T2 [U2 O2] P2]. split; try done.
  - by rw L2 L1.
  - split; [by rw U2 U1|]. intros Hu. rw O2; [by rw U1|]. by rw O1 // app_assoc.
  - rw P2 P1. destruct b1, b2; try done. cbn. rw -list_fmap_compose. apply list_fmap_ext. intros _ p _. apply woken_woken.
Qed.

(** A change of the buffer, and a character on the screen. *)
Lemma edits_input h h1 t1 o1 b1 f t2 : edits h h1 t1 o1 b1 → tty_rep (f (cn_input (h_cons h1))) t2 → edits h (with_input f h1) t2 o1 b1.
Proof. intros [[R1 R2 R3] C1 L1 _ U1 P1] HT. by split. Qed.

Lemma edits_char h h1 t1 o1 b1 c o : edits h h1 t1 o1 b1 → (c = BACKSPACE ∧ o = erase ∨ 0 ≤ c < 256 ∧ o = [c]) →
  edits h (with_char c h1) t1 (o1 ++ o) b1.
Proof.
  intros [[R1 R2 R3] C1 L1 T1 [U1 O1] P1] Hc. split; try done.
  - by apply cons_put_ok.
  - cbn. by rw cons_put_input.
  - destruct Hc as [[-> ->]|[Hc ->]].
    + unfold with_char, cons_put. cbn [h_cons set_h_cons]. rw !(proj1 (cga_put_uart _ _)) !(proj2 (cga_put_uart _ _)).
      change (BACKSPACE =? BACKSPACE) with true. cbv iota. unfold uart_put.
      destruct (cn_uart (h_cons h1)) eqn:Hu; cbn [cn_uart set_cn_uart_out cn_uart_out]; rw ?Hu; cbn [cn_uart set_cn_uart_out cn_uart_out]; rw ?Hu.
      * split; [by rw -U1|]. intros Hu'. rw O1 //. by rw -!app_assoc.
      * split; [by rw -U1|]. intros Hu'. by rw Hu' in U1.
    + pose proof (uart_stream [c] (h_cons h1)) as Hs. cbn [foldl] in Hs. unfold with_char. cbn [h_cons set_h_cons]. split.
      * by rw cons_put_uart.
      * intros Hu. rw Hs; [by rw U1|constructor; [done|constructor]|]. by rw O1 // app_assoc.
Qed.

(** The characters typed since the last line: [input.e - input.w]. *)
Lemma rep_typed i t : tty_rep i t → u32 (in_e i - in_w i) = Z.of_nat (length (ty_line t)).
Proof.
  intros H. pose proof (rep_size i t H) as Hs. rewrite -> (tt_e _ _ H), (tt_w _ _ H). rw length_app. unfold wrapu. rewrite -> Zminus_mod_idemp_l, Zminus_mod_idemp_r.
  rewrite -> Z.mod_small; lia.
Qed.

Section editor.
Context {C : Type}.
Implicit Types (x : C) (h : hw).

Lemma erase_run h h1 t o b x l c : edits h h1 t o b → ty_line t = l ++ [c] →
  (modin (set_in_e (u32 (in_e (cn_input (h_cons h1)) - 1)));; consputc BACKSPACE) (acq cons_lock h1, x)
    = Ok tt (acq cons_lock (with_char BACKSPACE (with_input (set_in_e (u32 (in_e (cn_input (h_cons h1)) - 1))) h1)), x) ∧
  edits h (with_char BACKSPACE (with_input (set_in_e (u32 (in_e (cn_input (h_cons h1)) - 1))) h1)) (MkTty (ty_ready t) l) (o ++ erase) b.
Proof using Type.
  intros He El. pose proof (ed_rep _ _ _ _ _ He) as HT. set (f := set_in_e _).
  assert (edits h (with_input f h1) (MkTty (ty_ready t) l) o b) as He1.
  { eapply edits_input; [done|by eapply rep_erase]. }
  split; [|eapply edits_char; [done|by left]]. rw (bind_ok _ _ _ _ _ (modin_run f h1 x)). apply putc_run. apply He1.
Qed.

Lemma kill_line_run n : ∀ h h1 t o b x, edits h h1 t o b → (10 ∉ ty_line t) → (length (ty_line t) ≤ n)%nat →
  ∃ h2, kill_line n (acq cons_lock h1, x) = Ok tt (acq cons_lock h2, x) ∧
    edits h h2 (MkTty (ty_ready t) []) (o ++ mjoin (replicate (length (ty_line t)) erase)) b.
Proof using Type.
  induction n as [|n IH]; intros h h1 t o b x He Hn Hl; cbn [kill_line]; rw (bind_ok _ _ _ _ _ (getin_run h1 x));
    pose proof (ed_rep _ _ _ _ _ He) as HT; rw (rep_empty _ _ HT);
    destruct (ty_line t) as [|c0 l0 _] eqn:El using rev_ind.
  1,3: exists h1; split; [done|]; cbn; rw app_nil_r; by destruct t; cbn in El; subst.
  { rw length_app in Hl. cbn [length] in Hl. lia. }
  assert (l0 ++ [c0] ≠ []) as Hne by (by destruct l0). rewrite -> (bool_decide_eq_false_2 _ Hne). rewrite -> (rep_last _ _ HT l0 c0 El).
  assert (c0 ≠ 10) as Hc by set_solver. rewrite -> (proj2 (Z.eqb_neq c0 10) Hc). cbn [orb].
  destruct (erase_run h h1 t o b x l0 c0 He El) as [E1 He1]. rw -bind_assoc (bind_ok _ _ _ _ _ E1). rw length_app in Hl. cbn [length] in Hl.
  destruct (IH h _ (MkTty (ty_ready t) l0) _ b x He1) as (h2 & E2 & He2); [cbn; set_solver|cbn; lia|]. exists h2. split; [done|]. cbn [ty_ready ty_line] in He2.
  rw -app_assoc in He2. rw length_app Nat.add_comm. done.
Qed.

Lemma wakeup_input_run h x : sched_ready h → wakeup input_r (acq cons_lock h, x) = Ok tt (acq cons_lock (wake_all input_r h), x).
Proof using Type.
  intros [R1 R2 R3]. rw wakeup_run.
  - split; [by apply wf_acq|unfold acq; cbn; by rw lookup_insert_ne|by rw procs_acq].
  - rw settle_acq //. unfold wake_all. by rw procs_acq acq_set_procs.
Qed.

Lemma edits_wake h h1 t o b : edits h h1 t o b → edits h (wake_all input_r h1) t o true.
Proof using Type.
  intros [[R1 R2 R3] C1 L1 T1 U1 P1]. split; try done.
  - split; try done. cbn. by rw length_fmap.
  - cbn. rw P1. destruct b; [|done]. rw -list_fmap_compose. apply list_fmap_ext. intros _ p _. apply woken_woken.
Qed.

(** The branch that stores a character. *)
Lemma insert_run h h1 t o b x c (n := Z.of_nat (length (ty_ready t) + length (ty_line t))) : edits h h1 t o b → 0 ≤ c < 256 → n < INPUT_BUF →
  ∃ h2, (modin (λ i, set_in_e (u32 (in_e i + 1)) (set_in_buf (<[Z.to_nat (in_e i mod INPUT_BUF) := s8 c]> (in_buf i)) i));;
      consputc c;;
      inp ← getin;
      when ((c =? 10) || (c =? ctrl 68) || (in_e inp =? u32 (in_r inp + INPUT_BUF)))
        (modin (λ i, set_in_w (in_e i) i);; wakeup input_r)) (acq cons_lock h1, x) = Ok tt (acq cons_lock h2, x) ∧
    if (c =? 10) || (c =? ctrl 68) || (n + 1 =? INPUT_BUF)
    then edits h h2 (MkTty (ty_ready t ++ ty_line t ++ [s8 c]) []) (o ++ [c]) true
    else edits h h2 (MkTty (ty_ready t) (ty_line t ++ [s8 c])) (o ++ [c]) b.
Proof using Type.
  intros He Hc Hlt. pose proof (ed_rep _ _ _ _ _ He) as HT. set (f := λ i, set_in_e _ _).
  assert (edits h (with_char c (with_input f h1)) (MkTty (ty_ready t) (ty_line t ++ [s8 c])) (o ++ [c]) b) as He1.
  { eapply edits_char; [|by right]. eapply edits_input; [done|]. apply rep_insert; [done|]. unfold n in Hlt. lia. }
  set (h2 := with_char c (with_input f h1)) in *. pose proof (ed_rep _ _ _ _ _ He1) as HT1.
  rw (bind_ok _ _ _ _ _ (modin_run f h1 x)). rw (bind_ok _ _ _ _ _ (putc_run c (with_input f h1) x (ed_cons _ _ _ _ _ He))).
  change (with_char c (with_input f h1)) with h2. rw (bind_ok _ _ _ _ _ (getin_run h2 x)).
  assert ((in_e (cn_input (h_cons h2)) =? u32 (in_r (cn_input (h_cons h2)) + INPUT_BUF)) = (n + 1 =? INPUT_BUF)) as ->.
  { rewrite -> (tt_e _ _ HT1). cbn [ty_ready ty_line]. rw !length_app. cbn [length]. set (r := in_r _).
    replace (Z.of_nat (length (ty_ready t) + (length (ty_line t) + 1))) with (n + 1) by lia. unfold INPUT_BUF in *.
    destruct (Z.eqb_spec (n + 1) 128) as [->|Hne]; [apply Z.eqb_refl|]. apply Z.eqb_neq. unfold wrapu. dlia. }
  destruct ((c =? 10) || (c =? ctrl 68) || (n + 1 =? INPUT_BUF)); [|by exists h2]. unfold when.
  rw (bind_ok _ _ _ _ _ (modin_run _ h2 x)).
  assert (edits h (with_input (λ i, set_in_w (in_e i) i) h2) (MkTty (ty_ready t ++ ty_line t ++ [s8 c]) []) (o ++ [c]) b) as He2.
  { eapply edits_input; [done|]. apply (rep_commit _ _ HT1). }
  exists (wake_all input_r (with_input (λ i, set_in_w (in_e i) i) h2)). split; [|by eapply edits_wake].
  apply wakeup_input_run. apply He2.
Qed.

Lemma key_run h h1 t o b x c : edits h h1 t o b → (10 ∉ ty_line t) → 0 ≤ c < 256 →
  let '(t', o', b') := key t c in
  ∃ h2, consoleintr_char c (acq cons_lock h1, x) = Ok tt (acq cons_lock h2, x) ∧ edits h h2 t' (o ++ o') (b || b') ∧ (10 ∉ ty_line t').
Proof using Type.
  intros He Hn Hc. pose proof (ed_rep _ _ _ _ _ He) as HT. unfold key, consoleintr_char. rw (bind_ok _ _ _ _ _ (getin_run h1 x)).
  assert (∃ h2, (mret tt : K C unit) (acq cons_lock h1, x) = Ok tt (acq cons_lock h2, x) ∧ edits h h2 t (o ++ []) (b || false) ∧ (10 ∉ ty_line t)) as Hid.
  { exists h1. by rw app_nil_r orb_false_r. }
  destruct (c =? ctrl 80); [done|]. destruct (c =? ctrl 85).
  { rw (rep_typed _ _ HT) Nat2Z.id. destruct (kill_line_run (length (ty_line t)) h h1 t o b x He Hn (le_n _)) as (h2 & E & He2).
    exists h2. rw orb_false_r. split_and!; [done..|]. cbn. set_solver. }
  destruct ((c =? ctrl 72) || (c =? 0x7f)).
  { rw (rep_empty _ _ HT). destruct (ty_line t) as [|c0 l0 _] eqn:El using rev_ind; [rewrite -> bool_decide_eq_true_2 by done; rw El; exact Hid|].
    assert (l0 ++ [c0] ≠ []) as Hne by (by destruct l0). rewrite -> (bool_decide_eq_false_2 _ Hne). cbn [negb].
    destruct (erase_run h h1 t o b x l0 c0 He El) as [E1 He1]. rw E1.
    assert (take (length (l0 ++ [c0]) - 1) (l0 ++ [c0]) = l0) as Et.
    { rw length_app. cbn [length]. rewrite -> Nat.add_sub. by rewrite -> take_app_length. }
    assert (10 ∉ l0) as Hn0 by set_solver.
    destruct (l0 ++ [c0]) as [|c1 l1]; [done|]. rw Et orb_false_r. by eexists. }
  rw (rep_count _ _ HT) -Nat2Z.inj_add. destruct (negb (c =? 0) && _) eqn:Eg; [|done].
  apply andb_true_iff in Eg as [_ Hlt%Z.ltb_lt]. set (c' := if c =? 13 then 10 else c).
  assert (0 ≤ c' < 256) as Hc' by (unfold c'; destruct (c =? 13); lia).
  destruct (insert_run h h1 t o b x c' He Hc' Hlt) as (h2 & E & He2). rw E.
  destruct ((c' =? 10) || (c' =? ctrl 68) || _) eqn:Ec; exists h2.
  - rw orb_true_r. split_and!; [done..|]. cbn. set_solver.
  - rw orb_false_r. split_and!; [done..|]. cbn. apply orb_false_iff in Ec as [[Ec%Z.eqb_neq _]%orb_false_iff _].
    rewrite -> elem_of_app, list_elem_of_singleton. intros [|E10]; [done|]. unfold wraps in E10. cbv zeta in E10. revert E10. case_bool; intros; dlia.
Qed.
End editor.

Lemma keys_run {C} cs : ∀ h h1 t o b (x : C), edits h h1 t o b → (10 ∉ ty_line t) → Forall (λ c, 0 ≤ c < 256) cs →
  let '(t', o', b') := keys t cs in
  ∃ h2, mfor cs consoleintr_char (acq cons_lock h1, x) = Ok tt (acq cons_lock h2, x) ∧ edits h h2 t' (o ++ o') (b || b') ∧ (10 ∉ ty_line t').
Proof.
  induction cs as [|c cs IH]; intros h h1 t o b x He Hn Hcs; cbn [keys mfor]; [exists h1; by rw app_nil_r orb_false_r|].
  apply Forall_cons in Hcs as [Hc Hcs]. pose proof (key_run h h1 t o b x c He Hn Hc) as Hk. destruct (key t c) as [[t1 o1] b1].
  destruct Hk as (h2 & E & He2 & Hn2). rw (bind_ok _ _ _ _ _ E). specialize (IH h h2 t1 _ _ x He2 Hn2 Hcs).
  destruct (keys t1 cs) as [[t2 o2] b2]. destruct IH as (h3 & E3 & He3 & Hn3). exists h3. by rw app_assoc orb_assoc.
Qed.

(** ** Reading *)

Lemma runs_input f h p pr : runs h p pr → runs (with_input f h) p pr.
Proof. intros [[R1 R2 R3] N Cp P]. by split. Qed.

Lemma with_input_r a b h : with_input (set_in_r a) (with_input (set_in_r b) h) = with_input (set_in_r a) h.
Proof. done. Qed.
Lemma with_input_id h : with_input (set_in_r (in_r (cn_input (h_cons h)))) h = h.
Proof. destruct h as []. unfold with_input. cbn. f_equal. destruct h_cons as []. unfold set_cn_input. cbn. f_equal. by destruct cn_input. Qed.

(** The loop on the bytes that are ready: it returns, or sleeps when it has
    taken all of them. *)
Lemma consoleread_loop_run n target : ∀ h p pr t (s : fsst), runs h p pr → p_killed pr = false → h_locks h !! cons_lock = None → tty_rep (cn_input (h_cons h)) t →
  match read_line n target (ty_ready t) with
  | Some (bs, rest) => ∃ r, consoleread_loop n target (acq cons_lock h, s) = Ok (bs, false) (acq cons_lock (with_input (set_in_r r) h), s) ∧
      tty_rep (set_in_r r (cn_input (h_cons h))) (MkTty rest (ty_line t))
  | None => ∃ r, consoleread_loop n target (acq cons_lock h, s) =
        Stop Switch (acq ptable_lock (upd_proc p (asleep input_r) (with_input (set_in_r r) h)), s) ∧
      tty_rep (set_in_r r (cn_input (h_cons h))) (MkTty [] (ty_line t))
  end.
Proof.
  induction n as [|n IH]; intros h p pr t s Hr Hk Hl HT; cbn [read_line consoleread_loop].
  { exists (in_r (cn_input (h_cons h))). rw with_input_id. split; [done|]. destruct t. by destruct (cn_input (h_cons h)). }
  rw (bind_ok _ _ _ _ _ (getin_run h s)) (rep_blocked _ _ HT). destruct (ty_ready t) as [|c l] eqn:Et.
  - rewrite -> bool_decide_eq_true_2 by done. exists (in_r (cn_input (h_cons h))). rw with_input_id. split; [|destruct t as [? ?]; cbn in Et; subst; by destruct (cn_input (h_cons h))].
    rw (bind_ok _ _ _ _ _ (myproc_acq h p pr _ s Hr)). rw (bind_ok _ _ _ _ _ (proc_at_ok _ s p pr (runs_acq_proc h p pr _ Hr))). rw Hk.
    by rw (bind_stop _ _ _ _ _ (sleep_run h p pr cons_lock input_r s Hr ltac:(done) Hl)).
  - rewrite -> bool_decide_eq_false_2 by done. destruct (rep_first _ _ HT c l Et) as [Ec HT1]. rw Ec. set (r := in_r (cn_input (h_cons h))) in *.
    rw (bind_ok _ _ _ _ _ (modin_run (set_in_r (u32 (r + 1))) h s)). set (h1 := with_input (set_in_r (u32 (r + 1))) h).
    destruct (c =? ctrl 68).
    { destruct (Z.of_nat (S n) <? target).
      - exists r. cbn [when]. rw (bind_ok _ _ _ _ _ (modin_run _ h1 s)). split.
        + change (with_input (λ i, set_in_r (u32 (in_r i - 1)) i) h1) with (with_input (set_in_r (u32 (u32 (r + 1) - 1))) h). rewrite -> wrap_sub.
          replace (r + 1 - 1) with r by lia. rewrite -> wrapu_small by apply (tt_r _ _ HT). done.
        + destruct t as [? ?]. cbn in Et. subst. by destruct (cn_input (h_cons h)).
      - exists (u32 (r + 1)). done. }
    destruct (c =? 10); [by exists (u32 (r + 1))|].
    specialize (IH h1 p pr (MkTty l (ty_line t)) s (runs_input _ _ _ _ Hr) Hk Hl HT1). cbn [ty_ready ty_line] in IH.
    destruct (read_line n target l) as [[bs rest]|]; destruct IH as (r' & E & HT2); exists r'; cbn [mbind option_bind].
    + by rw (bind_ok _ _ _ _ _ E).
    + by rw (bind_stop _ _ _ _ _ E).
Qed.

(** ** Properties *)

(** C25: the console as a line editor.  Whatever is typed, [C('P')] apart, the
    handler of the keyboard interrupt does to the buffer what the abstract editor does:
    characters are added to the line and echoed, backspace takes the last one
    of the line off again and [C('U')] all of them, never one of a complete line,
    a newline or [C('D')] or a full buffer completes the line and wakes the
    readers, a full buffer drops characters.  A read of a machine in the
    resulting state returns the bytes up to the first newline, to the count or to
    [C('D')], which stays in the buffer when bytes come before it, and
    otherwise takes what there is and sleeps. *)
Theorem line_editor_correct (h : hw) (t : tty) (cs : list Z) (m : memst) :
  sched_ready h → cons_ok (h_cons h) → h_locks h !! cons_lock = None → tty_rep (cn_input (h_cons h)) t → (10 ∉ ty_line t) →
  Forall (λ c, 0 ≤ c < 256) cs → (ctrl 80 ∉ cs) →
  let '(t', out, woke) := keys t cs in
  (∃ h', consoleintr cs (h, m) = Ok tt (settle h', m) ∧ edits h h' t' out woke) ∧
  ∀ iderw (ip : nat) (n target : Z) (got : list Z) (h2 : hw) (s : fsst) (p : nat) (pr : proc),
    runs h2 p pr → p_killed pr = false → h_locks h2 !! cons_lock = None → tty_rep (cn_input (h_cons h2)) t' →
    match read_line (Z.to_nat n) target (ty_ready t') with
    | Some (bs, rest) => ∃ r,
        consoleread_from iderw ip n target got (acq cons_lock h2, s) =
          (ilock iderw (Some ip);; mret (Z.of_nat (length (got ++ bs)), got ++ bs)) (settle (with_input (set_in_r r) h2), s) ∧
        tty_rep (set_in_r r (cn_input (h_cons h2))) (MkTty rest (ty_line t'))
    | None => ∃ r,
        consoleread_from iderw ip n target got (acq cons_lock h2, s) =
          Stop Switch (acq ptable_lock (upd_proc p (asleep input_r) (with_input (set_in_r r) h2)), s) ∧
        tty_rep (set_in_r r (cn_input (h_cons h2))) (MkTty [] (ty_line t'))
    end.
Proof.
  intros Hr Hok Hl HT Hn Hcs Hp. pose proof (keys_run cs h h t [] false m (edits_refl h t Hr Hok HT) Hn Hcs) as Hk.
  destruct (keys t cs) as [[t' out] woke]. destruct Hk as (h' & E & He & _). split.
  - exists h'. split; [|done]. unfold consoleintr. rw (bind_ok _ _ _ _ _ (acquire_ok h m cons_lock (sr_wf _ Hr) Hl)) (bind_ok _ _ _ _ _ E).
    rw (bind_ok _ _ _ _ _ (release_ok h' m cons_lock (sr_wf _ (ed_ready _ _ _ _ _ He)) ltac:(by rw (ed_locks _ _ _ _ _ He)))).
    by rewrite -> bool_decide_eq_false_2.
  - intros iderw ip n target got h2 s p pr Hr2 Hk2 Hl2 HT2. unfold consoleread_from.
    pose proof (consoleread_loop_run (Z.to_nat n) target h2 p pr t' s Hr2 Hk2 Hl2 HT2) as Hc.
    destruct (read_line (Z.to_nat n) target (ty_ready t')) as [[bs rest]|]; destruct Hc as (r & E2 & HT3); exists r; (split; [|done]).
    + rw (bind_ok _ _ _ _ _ E2). by rw (bind_ok _ _ _ _ _ (release_ok (with_input (set_in_r r) h2) s cons_lock (sr_wf _ (ru_ready _ _ _ (runs_input _ _ _ _ Hr2))) Hl2)).
    + by rw (bind_stop _ _ _ _ _ E2).
Qed.

(** The machine of the example after the line was typed. *)
Definition ex_typed : hw := with_input (λ _, MkIn ([97; 99; 10] ++ replicate 125 0) 0 3 3) ex_machine.

Lemma line_editor_correct_witness :
  let t' := MkTty [97; 99; 10] [] in
  keys (MkTty [] []) [97; 98; 8; 99; 13] = (t', [97; 98] ++ erase ++ [99; 10], true) ∧
  (∃ h', consoleintr [97; 98; 8; 99; 13] (ex_machine, ex_kmem) = Ok tt (settle h', ex_kmem) ∧
    edits ex_machine h' t' ([97; 98] ++ erase ++ [99; 10]) true) ∧
  ∀ iderw ip s, ∃ r,
    consoleread_from iderw ip 10 10 [] (acq cons_lock ex_typed, s) =
      (ilock iderw (Some ip);; mret (3, [97; 99; 10])) (settle (with_input (set_in_r r) ex_typed), s) ∧
    tty_rep (set_in_r r (cn_input (h_cons ex_typed))) (MkTty [] []).
Proof.
  intros t'. split; [done|].
  assert (tty_rep (cn_input (h_cons ex_machine)) (MkTty [] [])) as HT by (by split; vm_compute).
  assert (tty_rep (cn_input (h_cons ex_typed)) t') as HT2.
  { split; [by vm_compute..|]. intros [|[|[|k]]] x Hx; [by injection Hx as <-..|done]. }
  destruct (line_editor_correct ex_machine (MkTty [] []) [97; 98; 8; 99; 13] ex_kmem ex_machine_ready ltac:(by vm_compute) eq_refl HT
    ltac:(cbn; set_solver) ltac:(by repeat constructor)
    ltac:(apply (bool_decide_unpack (ctrl 80 ∉ [97; 98; 8; 99; 13])); by vm_compute)) as [Hi Hr].
  split; [exact Hi|]. intros iderw ip s.
  exact (Hr iderw ip 10 10 [] ex_typed s _ _ (runs_input _ _ _ _ ex_machine_runs) eq_refl eq_refl HT2).
Defined.
