(* ===== verification/Kbd.v ===== *)
(** * The keyboard and the serial line: kbd.c, kbd.h and uart.c

    The bytes that wait at a device are a list: the bit for data in the status
    register is set while it is not empty. *)

From S2P Require Import Prelude Machine Spinlock Console Mem CString Kalloc Sched Vm Sleeplock Ring Bytes Bio Log Fs Args ConsoleIn.

(** ** kbd.h *)

Definition NO : Z := 0.
Definition SHIFT : Z := 0x01.
Definition CTL : Z := 0x02.
Definition ALT : Z := 0x04.
Definition CAPSLOCK : Z := 0x08.
Definition NUMLOCK : Z := 0x10.
Definition SCROLLLOCK : Z := 0x20.
Definition E0ESC : Z := 0x40.

Definition KEY_HOME : Z := 0xE0.
Definition KEY_END : Z := 0xE1.
Definition KEY_UP : Z := 0xE2.
Definition KEY_DN : Z := 0xE3.
Definition KEY_LF : Z := 0xE4.
Definition KEY_RT : Z := 0xE5.
Definition KEY_PGUP : Z := 0xE6.
Definition KEY_PGDN : Z := 0xE7.
Definition KEY_INS : Z := 0xE8.
Definition KEY_DEL : Z := 0xE9.

(** [C(x)] *)
Definition ctl (x : Z) : Z := x - 64.

(** An array of [uchar] with its first elements and designated ones; the others
    are 0. *)
Definition uchars (first : list Z) (designated : list (Z * Z)) : list Z :=
  foldl (λ l e, <[Z.to_nat e.1 := u8 e.2]> l) ((u8 <$> first) ++ replicate (256 - length first) 0) designated.

Definition shiftcode : list Z :=
  uchars [] [(0x1D, CTL); (0x2A, SHIFT); (0x36, SHIFT); (0x38, ALT); (0x9D, CTL); (0xB8, ALT)].
Definition togglecode : list Z := uchars [] [(0x3A, CAPSLOCK); (0x45, NUMLOCK); (0x46, SCROLLLOCK)].

(** The designated elements of the three maps, with the codes of enter and of
    the slash on the key pad. *)
Definition keypad (enter slash : Z) : list (Z * Z) :=
  [(0x9C, enter); (0xB5, slash); (0xC8, KEY_UP); (0xD0, KEY_DN); (0xC9, KEY_PGUP); (0xD1, KEY_PGDN);
   (0xCB, KEY_LF); (0xCD, KEY_RT); (0x97, KEY_HOME); (0xCF, KEY_END); (0xD2, KEY_INS); (0xD3, KEY_DEL)].

(** The rows of the maps that are the same: the key pad digits. *)
Definition numpad : list Z := replicate 13 NO ++ chars "789-456+1230." ++ replicate 4 NO.

Definition normalmap : list Z := uchars
  ([NO; 0x1B] ++ chars "1234567890-=" ++ [8; 9] ++ chars "qwertyuiop[]" ++ [10; NO] ++ chars "asdfghjkl;'`" ++ [NO; 92] ++
   chars "zxcvbnm,./" ++ [NO; 42; NO; 32] ++ numpad) (keypad 10 47).
Definition shiftmap : list Z := uchars
  ([NO; 27] ++ chars "!@#$%^&*()_+" ++ [8; 9] ++ chars "QWERTYUIOP{}" ++ [10; NO] ++ chars "ASDFGHJKL:" ++ [34; 126; NO; 124] ++
   chars "ZXCVBNM<>?" ++ [NO; 42; NO; 32] ++ numpad) (keypad 10 47).
Definition ctlmap : list Z := uchars
  (replicate 16 NO ++ (ctl <$> chars "QWERTYUIOP") ++ [NO; NO; 13; NO] ++ (ctl <$> chars "ASDFGHJKL") ++ [NO; NO; NO; NO; ctl 92] ++
   (ctl <$> chars "ZXCVBNM") ++ [NO; NO; ctl 47; NO; NO]) (keypad 13 (ctl 47)).

(** ** kbd.c *)

(** [a[data]]; [None] is an access outside of the array. *)
Definition charcode (m : Z) : list Z := if m =? 0 then normalmap else if m =? 1 then shiftmap else ctlmap.

(** The key behind [data]: the code of [c] and [shift] after the tables. *)
Definition kbd_key (shift data : Z) : option (Z * Z) :=
  sc ← shiftcode !! Z.to_nat data;
  tc ← togglecode !! Z.to_nat data;
  let shift := Z.lxor (Z.lor shift sc) tc in
  c ← charcode (Z.land shift (Z.lor CTL SHIFT)) !! Z.to_nat data;
  let c := if negb (Z.land shift CAPSLOCK =? 0) then
             if (97 <=? c) && (c <=? 122) then u32 (c + (65 - 97))
             else if (65 <=? c) && (c <=? 90) then u32 (c + (97 - 65)) else c
           else c in
  Some (c, shift).

(** [shift]: the static variable; [port]: the bytes in the buffer of the
    controller. The result, [shift] and the bytes that are left. *)
Definition kbdgetc (shift : Z) (port : list Z) : option (Z * Z * list Z) :=
  match port with
  | [] => Some (-1, shift, [])
  | data :: port =>
      if data =? 0xE0 then Some (0, Z.lor shift E0ESC, port)
      else if negb (Z.land data 0x80 =? 0) then
        let data := if negb (Z.land shift E0ESC =? 0) then data else Z.land data 0x7F in
        sc ← shiftcode !! Z.to_nat data;
        Some (0, Z.land shift (Z.lnot (Z.lor sc E0ESC)), port)
      else
        let '(data, shift) :=
          if negb (Z.land shift E0ESC =? 0) then (Z.lor data 0x80, Z.land shift (Z.lnot E0ESC)) else (data, shift) in
        '(c, shift) ← kbd_key shift data;
        Some (c, shift, port)
  end.

(** What [consoleintr] gets from [kbdgetc] up to the first -1. *)
Fixpoint kbd_chars (n : nat) (shift : Z) (port : list Z) : option (list Z * Z) :=
  match n with
  | O => None
  | S n =>
      '(c, shift, port) ← kbdgetc shift port;
      if c <? 0 then Some ([], shift)
      else '(cs, shift) ← kbd_chars n shift port; Some (c :: cs, shift)
  end.

Definition kbdintr (shift : Z) (port : list Z) : K memst Z :=
  match kbd_chars (S (length port)) shift port with
  | Some (cs, shift) => consoleintr cs;; mret shift
  | None => fault "kbdgetc"
  end.

(** ** uart.c *)

Definition COM1 : Z := 0x3f8.

(** The registers that [uartinit] writes. *)
Definition uart_setup : list (Z * Z) :=
  [(COM1 + 2, 0); (COM1 + 3, 0x80); (COM1 + 0, 115200 / 9600); (COM1 + 1, 0); (COM1 + 3, 0x03); (COM1 + 4, 0); (COM1 + 1, 0x01)].

(** [outb]: the ports of the device; [status]: what the line status register
    reads; [enable]: [ioapicenable(IRQ_COM1, 0)]. *)
Definition uartinit {C : Type} (outb : Z → Z → K C unit) (status : Z) (enable : K C unit) : K C unit :=
  mfor uart_setup (λ e, outb e.1 e.2);;
  if status =? 0xFF then mret tt else
  modcons (set_cn_uart true);;
  enable;;
  mfor (chars "xv6..." ++ [10]) uartputc.

Definition uartgetc (uart : bool) (port : list Z) : Z * list Z :=
  if negb uart then (-1, port) else
  match port with
  | [] => (-1, [])
  | c :: port => (c, port)
  end.

Fixpoint uart_chars (n : nat) (uart : bool) (port : list Z) : list Z :=
  match n with
  | O => []
  | S n => let '(c, port) := uartgetc uart port in if c <? 0 then [] else c :: uart_chars n uart port
  end.

Definition uartintr (port : list Z) : K memst unit :=
  h ← geth;
  consoleintr (uart_chars (S (length port)) (cn_uart (h_cons h)) port).

(** ** What the keys mean *)

(** The letter on a key. *)
Definition letter (data : Z) : option Z :=
  if (0x10 <=? data) && (data <=? 0x19) then chars "qwertyuiop" !! Z.to_nat (data - 0x10)
  else if (0x1E <=? data) && (data <=? 0x26) then chars "asdfghjkl" !! Z.to_nat (data - 0x1E)
  else if (0x2C <=? data) && (data <=? 0x32) then chars "zxcvbnm" !! Z.to_nat (data - 0x2C)
  else None.

(** The modifier of a key. *)
Definition modifier (data : Z) : option Z :=
  if (data =? 0x2A) || (data =? 0x36) then Some SHIFT
  else if data =? 0x1D then Some CTL
  else if data =? 0x38 then Some ALT else None.

Definition has (shift m : Z) : bool := negb (Z.land shift m =? 0).

(** The letter with the modifiers: a control character, or a capital
    with exactly one of shift and caps lock. *)
Definition typed (shift l : Z) : Z :=
  if has shift CTL then l - 96 else if xorb (has shift SHIFT) (has shift CAPSLOCK) then l - 32 else l.

(** What [kbdgetc] does on one byte, as a test. *)
Definition kbd_test (shift data : Z) : bool :=
  match kbdgetc shift [data] with
  | Some (c, shift', port) =>
      (0 <=? c) && (c <? 256) && (0 <=? shift') && (shift' <? 128) && bool_decide (port = []) &&
      (if has shift E0ESC then true else
       match letter data with Some l => (c =? typed shift l) && (shift' =? shift) | None => true end &&
       match modifier data with Some m => (c =? 0) && (shift' =? Z.lor shift m) | None => true end &&
       (if has data 0x80 then
          match modifier (Z.land data 0x7F) with Some m => (c =? 0) && (shift' =? Z.land shift (Z.lnot m)) | None => (c =? 0) && ((data =? 0xE0) || (shift' =? shift)) end
        else true) &&
       (if data =? 0x3A then (c =? 0) && (shift' =? Z.lxor shift CAPSLOCK) else true))
  | None => false
  end.

Lemma kbd_tests : forallb (λ shift, forallb (kbd_test shift) (seqZ 0 256)) (seqZ 0 128) = true.
Proof. by vm_compute. Qed.

Lemma kbd_tested shift data : 0 ≤ shift < 128 → 0 ≤ data < 256 → kbd_test shift data = true.
Proof.
  intros Hs Hd. pose proof kbd_tests as H. rewrite -> forallb_forall in H. specialize (H shift). rewrite -> forallb_forall in H.
  apply H; apply list_elem_of_In, elem_of_seqZ; lia.
Qed.

(** The bytes behind the first one wait. *)
Lemma kbdgetc_port shift data port :
  kbdgetc shift (data :: port) = (λ '(c, shift', _), (c, shift', port)) <$> kbdgetc shift [data].
Proof.
  unfold kbdgetc. case_bool; [done|]. destruct (negb (Z.land data 0x80 =? 0)); [by destruct (shiftcode !! _)|].
  destruct (if negb (Z.land shift E0ESC =? 0) then _ else _) as [data' shift']. by destruct (kbd_key shift' data') as [[? ?]|].
Qed.

Ltac split_bools := repeat match goal with H : _ && _ = true |- _ => apply andb_prop in H as [? ?] end.

Lemma kbdgetc_range shift data port : 0 ≤ shift < 128 → 0 ≤ data < 256 →
  ∃ c shift', kbdgetc shift (data :: port) = Some (c, shift', port) ∧ 0 ≤ c < 256 ∧ 0 ≤ shift' < 128.
Proof.
  intros Hs Hd. pose proof (kbd_tested shift data Hs Hd) as H. unfold kbd_test in H. rw kbdgetc_port.
  destruct (kbdgetc shift [data]) as [[[c shift'] p]|]; [|done]. split_bools. exists c, shift'. split_and!; [done|lia..].
Qed.

Lemma kbd_chars_run port : ∀ n shift, (length port < n)%nat → 0 ≤ shift < 128 → Forall is_byte port →
  ∃ cs shift', kbd_chars n shift port = Some (cs, shift') ∧ length cs = length port ∧ Forall is_byte cs ∧ 0 ≤ shift' < 128.
Proof.
  induction port as [|data port IH]; intros n shift Hn Hs Hb; (destruct n as [|n]; [lia|]); cbn [kbd_chars].
  - exists [], shift. split_and!; [done|done|constructor|lia..].
  - apply Forall_cons in Hb as [Hd Hb]. destruct (kbdgetc_range shift data port Hs Hd) as (c & shift1 & -> & Hc & Hs1). cbn [mbind option_bind].
    rewrite -> (proj2 (Z.ltb_ge _ _)) by lia. destruct (IH n shift1) as (cs & shift2 & -> & Hl & Hcs & Hs2); [cbn in Hn; lia|done|done|].
    exists (c :: cs), shift2. split_and!; [done|cbn; by rw Hl|by constructor|lia..].
Qed.

(** ** Properties *)

(** C31: the keyboard driver. In every state of the modifier keys and for every byte of the
    controller, [kbdgetc] stays inside its tables and returns a byte, with the state
    of the modifiers again below 128; [kbdintr] passes one character for each byte to the
    console. A letter key gives the letter, the capital letter with exactly one of
    shift and caps lock, or the control character; the keys shift, control and
    alt set their bit when pressed and clear it when released, caps lock flips its bit, and
    the release of another key changes nothing. *)
Theorem kbd_correct (shift data : Z) (port : list Z) :
  0 ≤ shift < 128 → 0 ≤ data < 256 → Forall is_byte port →
  (∃ c shift', kbdgetc shift (data :: port) = Some (c, shift', port) ∧ 0 ≤ c < 256 ∧ 0 ≤ shift' < 128) ∧
  (∃ cs shift', 0 ≤ shift' < 128 ∧ length cs = length port ∧ Forall is_byte cs ∧ kbdintr shift port = (consoleintr cs;; mret shift')) ∧
  (has shift E0ESC = false →
   (∀ l, letter data = Some l → kbdgetc shift (data :: port) = Some (typed shift l, shift, port)) ∧
   (∀ m, modifier data = Some m → kbdgetc shift (data :: port) = Some (0, Z.lor shift m, port)) ∧
   (has data 0x80 = true → data ≠ 0xE0 →
      kbdgetc shift (data :: port) = Some (0, match modifier (Z.land data 0x7F) with Some m => Z.land shift (Z.lnot m) | None => shift end, port)) ∧
   (data = 0x3A → kbdgetc shift (data :: port) = Some (0, Z.lxor shift CAPSLOCK, port))).
Proof.
  intros Hs Hd Hp. split; [by apply kbdgetc_range|]. split.
  - unfold kbdintr. destruct (kbd_chars_run port (S (length port)) shift ltac:(lia) Hs Hp) as (cs & shift' & -> & Hl & Hcs & Hs'). by exists cs, shift'.
  - intros He. pose proof (kbd_tested shift data Hs Hd) as H. unfold kbd_test in H. rw He in H. rw kbdgetc_port.
    destruct (kbdgetc shift [data]) as [[[c shift'] p]|]; [|done]. split_bools. cbn [fmap option_fmap option_map].
    split_and!; [intros l El|intros m Em|intros Eh Hne|intros E3].
    + rewrite -> El in *. split_bools. repeat f_equal; lia.
    + rewrite -> Em in *. split_bools. repeat f_equal; lia.
    + rewrite -> Eh in *. destruct (modifier (Z.land data 0x7F)); split_bools; repeat f_equal; lia.
    + rewrite -> (proj2 (Z.eqb_eq data 0x3A) E3) in *. split_bools. repeat f_equal; lia.
Qed.

Lemma kbd_correct_witness :
  kbdgetc 0 [0x1E] = Some (97, 0, []) ∧ kbdgetc SHIFT [0x1E] = Some (65, SHIFT, []) ∧ kbdgetc CTL [0x1E; 0x2A] = Some (1, CTL, [0x2A]).
Proof.
  split_and!.
  - destruct (kbd_correct 0 0x1E []) as (_ & _ & H); [lia..|constructor|]. exact (proj1 (H eq_refl) 97 eq_refl).
  - destruct (kbd_correct SHIFT 0x1E []) as (_ & _ & H); [by vm_compute|lia|constructor|]. exact (proj1 (H eq_refl) 97 eq_refl).
  - destruct (kbd_correct CTL 0x1E [0x2A]) as (_ & _ & H); [by vm_compute|lia|constructor; [by vm_compute|constructor]|]. exact (proj1 (H eq_refl) 97 eq_refl).
Defined.
