(* ===== verification/File.v ===== *)
(** * Open files: file.c, and the allocation of pipes

    The state of the whole kernel, [kst], with the table of open files; the
    operations on a file descriptor's file, which go to a pipe or to an inode. *)

From S2P Require Import Prelude Machine Spinlock Console Mem CString Kalloc PrioLock Sched Vm Sleeplock Pipe Ring Bytes Bio Cache Log Recovery Txn Fs ConsoleIn.

(** ** State *)

Inductive fdtype : Type := FD_NONE | FD_PIPE | FD_INODE.
#[export] Instance fdtype_eq_dec : EqDecision fdtype.
Proof. solve_decision. Defined.

(** [struct file] of file.h; a pipe is the address of its page. *)
Record file : Type := MkFile {
  f_type : fdtype;
  f_ref : Z;
  f_readable : bool;
  f_writable : bool;
  f_pipe : Z;
  f_ip : option nat;
  f_off : Z
}.
Definition set_f_type (v : fdtype) (r : file) : file :=
  MkFile v (f_ref r) (f_readable r) (f_writable r) (f_pipe r) (f_ip r) (f_off
    r).
Definition set_f_ref (v : Z) (r : file) : file :=
  MkFile (f_type r) v (f_readable r) (f_writable r) (f_pipe r) (f_ip r) (f_off
    r).
Definition set_f_readable (v : bool) (r : file) : file :=
  MkFile (f_type r) (f_ref r) v (f_writable r) (f_pipe r) (f_ip r) (f_off r).
Definition set_f_writable (v : bool) (r : file) : file :=
  MkFile (f_type r) (f_ref r) (f_readable r) v (f_pipe r) (f_ip r) (f_off r).
Definition set_f_pipe (v : Z) (r : file) : file :=
  MkFile (f_type r) (f_ref r) (f_readable r) (f_writable r) v (f_ip r) (f_off
    r).
Definition set_f_ip (v : option nat) (r : file) : file :=
  MkFile (f_type r) (f_ref r) (f_readable r) (f_writable r) (f_pipe r) v
    (f_off r).
Definition set_f_off (v : Z) (r : file) : file :=
  MkFile (f_type r) (f_ref r) (f_readable r) (f_writable r) (f_pipe r) (f_ip
    r) v.
#[export] Hint Unfold set_f_type set_f_ref set_f_readable set_f_writable set_f_pipe set_f_ip set_f_off : setters.

Definition zero_file : file := MkFile FD_NONE 0 false false 0 None 0.

(** [struct page] of sysutils.h. *)
Record shpage : Type := MkShpage {
  sp_ref_count : Z;
  sp_frame : Z
}.
Definition set_sp_ref_count (v : Z) (r : shpage) : shpage :=
  MkShpage v (sp_frame r).
Definition set_sp_frame (v : Z) (r : shpage) : shpage :=
  MkShpage (sp_ref_count r) v.
#[export] Hint Unfold set_sp_ref_count set_sp_frame : setters.

(** The kernel: the file system, the memory, [ftable], the pipes by the address of
    their page, the flag [first] of [forkret], the queue of the priority lock
    [lock] and the table [main_mem] of sysutils.c. *)
Record kst : Type := MkK {
  k_fs : fsst;
  k_mem : memst;
  k_files : list file;
  k_pipes : gmap Z pipest;
  k_first : bool;
  k_qhead : Z;
  k_shared : list shpage
}.
Definition set_k_fs (v : fsst) (r : kst) : kst :=
  MkK v (k_mem r) (k_files r) (k_pipes r) (k_first r) (k_qhead r) (k_shared
    r).
Definition set_k_mem (v : memst) (r : kst) : kst :=
  MkK (k_fs r) v (k_files r) (k_pipes r) (k_first r) (k_qhead r) (k_shared r).
Definition set_k_files (v : list file) (r : kst) : kst :=
  MkK (k_fs r) (k_mem r) v (k_pipes r) (k_first r) (k_qhead r) (k_shared r).
Definition set_k_pipes (v : gmap Z pipest) (r : kst) : kst :=
  MkK (k_fs r) (k_mem r) (k_files r) v (k_first r) (k_qhead r) (k_shared r).
Definition set_k_first (v : bool) (r : kst) : kst :=
  MkK (k_fs r) (k_mem r) (k_files r) (k_pipes r) v (k_qhead r) (k_shared r).
Definition set_k_qhead (v : Z) (r : kst) : kst :=
  MkK (k_fs r) (k_mem r) (k_files r) (k_pipes r) (k_first r) v (k_shared r).
Definition set_k_shared (v : list shpage) (r : kst) : kst :=
  MkK (k_fs r) (k_mem r) (k_files r) (k_pipes r) (k_first r) (k_qhead r) v.
#[export] Hint Unfold set_k_fs set_k_mem set_k_files set_k_pipes set_k_first set_k_qhead set_k_shared : setters.

Definition k_fsL : lens kst fsst := Lens k_fs set_k_fs.
Definition k_memL : lens kst memst := Lens k_mem set_k_mem.
Definition k_pipeL (a : Z) : lens kst pipest :=
  Lens (λ s, default (new_pipe ∅ a) (k_pipes s !! a)) (λ p s, set_k_pipes (<[a := p]> (k_pipes s)) s).
Definition k_plL : lens kst plst :=
  Lens (λ s, MkPl (k_mem s) (k_qhead s)) (λ p s, set_k_qhead (pl_head p) (set_k_mem (pl_mem p) s)).

Definition ftable_lock : objaddr := ("ftable"%string, 0).

(** ** Operations *)

Section file.
Context (iderw : nat → K bst unit).

(** Code of fs.c and log.c in the kernel. *)
Definition infs {A} (m : K fsst A) : K kst A := zoom k_fsL m.
Definition inlog {A} (m : K logst A) : K kst A := zoom k_fsL (zoom fs_logL m).
Definition inmem {A} (m : K memst A) : K kst A := zoom k_memL m.

(** [*f] for the file in slot [f], and its update. *)
Definition file_at (f : nat) : K kst file :=
  s ← getc;
  match k_files s !! f with
  | Some x => mret x
  | None => fault "file out of bounds"
  end.
Definition modfile (f : nat) (g : file → file) : K kst unit :=
  modc (λ s, set_k_files (alter g f (k_files s)) s).

(** The inode behind a pointer that is dereferenced. *)
Definition deref (ip : option nat) : K kst nat :=
  match ip with Some ip => mret ip | None => fault "null inode" end.

Definition fileinit : K kst unit := initlock ftable_lock.

(** The loop of [filealloc] over the slots [l]. *)
Fixpoint filealloc_loop (l : list nat) : K kst (option nat) :=
  match l with
  | [] => release ftable_lock;; mret None
  | f :: l =>
      x ← file_at f;
      if f_ref x =? 0 then
        modfile f (set_f_ref 1);;
        release ftable_lock;;
        mret (Some f)
      else filealloc_loop l
  end.

Definition filealloc : K kst (option nat) :=
  acquire ftable_lock;;
  filealloc_loop (seq 0 NFILE).

Definition filedup (f : nat) : K kst nat :=
  acquire ftable_lock;;
  x ← file_at f;
  if f_ref x <? 1 then panic "filedup" else
  modfile f (λ x, set_f_ref (f_ref x + 1) x);;
  release ftable_lock;;
  mret f.

Definition fileclose (f : nat) : K kst unit :=
  acquire ftable_lock;;
  x ← file_at f;
  if f_ref x <? 1 then panic "fileclose" else
  modfile f (λ x, set_f_ref (f_ref x - 1) x);;
  ff ← file_at f;
  if 0 <? f_ref ff then release ftable_lock else
  modfile f (λ x, set_f_type FD_NONE (set_f_ref 0 x));;
  release ftable_lock;;
  match f_type ff with
  | FD_PIPE => pipeclose k_memL (k_pipeL (f_pipe ff)) (f_pipe ff) (f_writable ff)
  | FD_INODE =>
      inlog begin_op;;
      ip ← deref (f_ip ff);
      infs (iput iderw ip);;
      inlog (end_op iderw)
  | FD_NONE => mret tt
  end.

(** The structure [*st], or -1. *)
Definition filestat (f : nat) : K kst (option stat) :=
  x ← file_at f;
  match f_type x with
  | FD_INODE =>
      infs (ilock iderw (f_ip x));;
      ip ← deref (f_ip x);
      st ← infs (stati ip);
      infs (iunlock (f_ip x));;
      mret (Some st)
  | _ => mret None
  end.

(** The result and the bytes stored at [addr]. *)
Definition fileread (f : nat) (n : Z) : K kst (Z * list Z) :=
  x ← file_at f;
  if negb (f_readable x) then mret (-1, []) else
  match f_type x with
  | FD_PIPE => piperead (k_pipeL (f_pipe x)) (f_pipe x) n
  | FD_INODE =>
      infs (ilock iderw (f_ip x));;
      ip ← deref (f_ip x);
      '(r, bs) ← infs (readi iderw (dev_read iderw) ip (f_off x) (u32 n));
      when (0 <? r) (modfile f (λ x, set_f_off (u32 (f_off x + r)) x));;
      infs (iunlock (f_ip x));;
      mret (r, bs)
  | FD_NONE => panic "fileread"
  end.

(** [int max = ((MAXOPBLOCKS-1-1-2) / 2) * 512] *)
Definition filewrite_max : Z := (MAXOPBLOCKS - 1 - 1 - 2) / 2 * 512.

(** The loop of [filewrite] with the bytes [bs] to go: whether all were
    written. *)
Fixpoint filewrite_loop (fuel : nat) (f : nat) (bs : list Z) : K kst bool :=
  if Z.of_nat (length bs) <=? 0 then mret true else
  match fuel with
  | O => fault "filewrite: loop"
  | S fuel =>
      let n1 := Z.min (Z.of_nat (length bs)) filewrite_max in
      inlog begin_op;;
      x ← file_at f;
      infs (ilock iderw (f_ip x));;
      ip ← deref (f_ip x);
      r ← infs (writei iderw (dev_write iderw) ip (take (Z.to_nat n1) bs) (f_off x));
      when (0 <? r) (modfile f (λ x, set_f_off (u32 (f_off x + r)) x));;
      infs (iunlock (f_ip x));;
      inlog (end_op iderw);;
      if r <? 0 then mret false else
      if negb (r =? n1) then panic "short filewrite" else
      filewrite_loop fuel f (drop (Z.to_nat r) bs)
  end.

(** [bs]: the bytes of the buffer, [n] of them. *)
Definition filewrite (f : nat) (bs : list Z) : K kst Z :=
  let n := Z.of_nat (length bs) in
  x ← file_at f;
  if negb (f_writable x) then mret (-1) else
  match f_type x with
  | FD_PIPE => pipewrite (k_pipeL (f_pipe x)) (f_pipe x) bs n
  | FD_INODE =>
      all ← filewrite_loop (length bs) f bs;
      mret (if all : bool then n else -1)
  | FD_NONE => panic "filewrite"
  end.

(** *** pipe.c: [pipealloc] *)

(** At the label [bad] no page has been allocated. *)
Definition pipealloc : K kst (option (nat * nat)) :=
  f0 ← filealloc;
  match f0 with
  | None => mret None
  | Some f0 =>
      f1 ← filealloc;
      match f1 with
      | None => fileclose f0;; mret None
      | Some f1 =>
          p ← inmem kalloc;
          if p =? 0 then
            fileclose f0;;
            fileclose f1;;
            mret None
          else
            modc (λ s, set_k_pipes (<[p := new_pipe (m_mem (k_mem s)) p]> (k_pipes s)) s);;
            initlock (pipe_lock p);;
            modfile f0 (λ x, set_f_pipe p (set_f_writable false (set_f_readable true (set_f_type FD_PIPE x))));;
            modfile f1 (λ x, set_f_pipe p (set_f_writable true (set_f_readable false (set_f_type FD_PIPE x))));;
            mret (Some (f0, f1))
      end
  end.
End file.
