(* ===== verification/Rdwr.v ===== *)
(** * Reading and writing files: [readi] and [writei] of fs.c

    What the two operations do to a file without holes, and what a write costs
    in log blocks. *)

From S2P Require Import Prelude Machine Spinlock Console Mem CString Kalloc Sched Sleeplock Ring Bytes Bio Cache Log Recovery Txn Fs FsView Balloc Inode Content File.

(** No holes: every block below the size is there. *)
Definition dense (V : Z → list Z) (i : inode) : Prop :=
  i_size i ≤ MAXFILE * BSIZE ∧ ∀ bn, 0 ≤ bn → bn * BSIZE < i_size i → faddr V i bn ≠ 0.
(** The inode on the disk is the one in the cache. *)
Definition synced (sb : superblock) (V : Z → list Z) (i : inode) : Prop :=
  ∀ j, disk_inode sb V (i_inum i) j = with_fields i j.

(** ** Lemmas *)

Lemma misses_length V i bns : (misses V i bns ≤ length bns)%nat.
Proof. unfold misses. apply length_filter. Qed.

(** The blocks that [filewrite] lets one transaction touch. *)
Lemma chunk_cost V i off n :
  dense V i → 0 ≤ off ≤ i_size i → n ≤ filewrite_max →
  let bns := blocks_of off n in (length bns + misses V i bns ≤ 7)%nat ∧ (misses V i bns ≤ 3)%nat.
Proof.
  intros [_ Hd] Ho Hn bns. pose proof (misses_length V i bns) as Hml. change filewrite_max with 1536 in Hn.
  unfold bns in *. destruct (Z.leb_spec n 0) as [H0|H0].
  { unfold blocks_of. rewrite -> (proj2 (Z.leb_le n 0)) by done. cbn. lia. }
  destruct (decide (off mod BSIZE = 0)) as [E|E].
  - assert (length (blocks_of off n) ≤ 3)%nat; [|lia]. unfold blocks_of. rewrite -> (proj2 (Z.leb_gt n 0)) by done.
    rw length_seqZ. unfold BSIZE in *. dlia.
  - assert (length (blocks_of off n) ≤ 4)%nat.
    { unfold blocks_of. rewrite -> (proj2 (Z.leb_gt n 0)) by done. rw length_seqZ. unfold BSIZE in *. dlia. }
    revert Hml. rewrite -> blocks_of_step in * by lia. rewrite -> misses_cons. unfold miss.
    rewrite -> decide_False; [cbn [length] in *; pose proof (misses_length V i (blocks_of (off + Z.min n (BSIZE - off mod BSIZE)) (n - Z.min n (BSIZE - off mod BSIZE)))); lia|].
    apply Hd; [apply Z.div_pos; [lia|done]|]. unfold BSIZE in *. dlia.
Qed.

Lemma evolves_size g sb V i V' i' sz :
  0 ≤ sz < 2 ^ 32 → evolves g sb V i V' i' → evolves g sb V i V' (set_i_size sz i').
Proof.
  intros Hsz [H1 [[Ha1 Ha2 Ha3 Ha4 Ha5 Ha6] Hb Hc Hd] H3 H4 H5 H6 H7 H8]. split; try done.
  cbn. rewrite -> H3. done.
Qed.

Lemma dense_written V i V' i' off n :
  dense V i → 0 ≤ off ≤ i_size i → off + n ≤ MAXFILE * BSIZE → i_size i' = Z.max (i_size i) (off + n) →
  (∀ bn, 0 ≤ bn < MAXFILE → faddr V i bn ≠ 0 → faddr V' i' bn ≠ 0) →
  (∀ bn, bn ∈ blocks_of off n → faddr V' i' bn ≠ 0) → dense V' i'.
Proof.
  intros [Hs Hd] Ho Hmax Hsz Hk Hm. split; [lia|]. intros bn Hbn Hlt. rewrite -> Hsz in Hlt.
  destruct (Z.lt_ge_cases (bn * BSIZE) (i_size i)) as [H1|H1].
  - apply Hk; [unfold BSIZE in *; lia|by apply Hd].
  - apply Hm, elem_of_blocks; [lia|]. unfold BSIZE in *. dlia.
Qed.

Lemma fuel_enough off n : 0 ≤ off → n ≤ 0 ∨ off mod BSIZE + n ≤ BSIZE * Z.of_nat (Z.to_nat (n / BSIZE + 2)).
Proof. intros Ho. unfold BSIZE. dlia. Qed.

Section rdwr.
Context (iderw : nat → K bst unit) `{HBD : !BlockDev iderw} (p : nat) (pr : proc) (g : geometry).
Context (dev_read : Z → option (nat → Z → K fsst (Z * list Z))) (dev_write : Z → option (nat → list Z → Z → K fsst Z)).
Abbreviation pid := (p_pid pr).

Lemma readi_run h s V L ip i off n :
  ready p pr h → lview g pid (fs_log s) V ∅ L → fs_inodes s !! ip = Some i → i_dev i = 1 → file_ok g (fs_sb s) V i →
  i_type i ≠ T_DEV → dense V i → 0 ≤ off < 2 ^ 32 → 0 ≤ n < 2 ^ 32 → cache_room L ∅ 1 →
  let m := Z.min n (i_size i - off) in
  if (i_size i <? off) || (u32 (off + n) <? off) then readi iderw dev_read ip off n (h, s) = Ok (-1, []) (h, s)
  else ∃ h' l', readi iderw dev_read ip off n (h, s) = Ok (m, fread V i off m) (h', set_fs_log l' s) ∧ ready p pr h' ∧
    lview g pid l' V ∅ L.
Proof using HBD.
  intros Hr Hv Hip Hdev Hfi Ht [Hs Hd] Ho Hn Hc m. unfold readi. rw (bind_ok _ _ _ _ _ (inode_at_run h s ip i Hip)).
  rewrite -> (proj2 (Z.eqb_neq _ _) Ht). destruct (i_size i <? off) eqn:E1; [done|]. apply Z.ltb_ge in E1. cbn [orb].
  destruct (u32 (off + n) <? off) eqn:E2; [done|].
  replace (if i_size i <? off + n then i_size i - off else n) with m by (unfold m; case_bool; lia).
  destruct (readi_loop_run iderw p pr g V L ip i (Z.to_nat (m / BSIZE + 2)) h s off m Hr Hv Hip Hdev Hfi) as (h' & l' & E & Hr' & Hv');
    [lia|lia| |done|by apply fuel_enough; lia|].
  - intros bn Hbn. apply elem_of_blocks in Hbn; [|lia]. apply Hd; [|lia]. pose proof (Z.div_pos off BSIZE ltac:(lia) ltac:(done)). lia.
  - rw (bind_ok _ _ _ _ _ E). by exists h', l'.
Qed.

Lemma writei_run h s V L ip i off src :
  let n := Z.of_nat (length src) in let bns := blocks_of off n in let sb := fs_sb s in
  ready p pr h → lview g pid (fs_log s) V ∅ L → fs_ok g sb V → file_ok g sb V i →
  fs_inodes s !! ip = Some i → i_dev i = 1 → 0 ≤ i_inum i < sb_ninodes sb → i_type i ≠ T_DEV →
  0 ≤ off ≤ i_size i → off + n ≤ MAXFILE * BSIZE → bytes src →
  (misses V i bns + ind_miss i ≤ nfree sb V)%nat → space g L (ind_cost i L + (length bns + misses V i bns) + 1) →
  ∃ h' l' V1 V' i' L', writei iderw dev_write ip src off (h, s) = Ok n (h', set_fs_log l' (put_inode ip i' s)) ∧
    ready p pr h' ∧ lview g pid l' V' ∅ L' ∧ blocks_ok g V1 ∧ evolves g sb V i V1 i' ∧ i_size i' = Z.max (i_size i) (off + n) ∧
    fwritten V i off src V1 i' ∧ (∀ bn, bn ∈ bns → faddr V1 i' bn ≠ 0) ∧
    (if bool_decide (i_size i < off + n) then V' = updated sb V1 i' else V' = V1) ∧ (misses V i bns = 0%nat → i_addrs i' = i_addrs i) ∧
    (length L' ≤ length L + ind_cost i L + (length bns + misses V i bns) + 1)%nat.
Proof using HBD.
  intros n bns sb Hr Hv Hfs Hfi Hip Hdev Hin Ht Ho Hmax Hby Hnf Hsp. unfold writei. fold n.
  rw (bind_ok _ _ _ _ _ (inode_at_run h s ip i Hip)). rewrite -> (proj2 (Z.eqb_neq _ _) Ht).
  assert (MAXFILE * BSIZE = 71680) as Emax by done. rewrite -> (wrapu_small 32 (off + n)) by lia.
  rewrite -> (proj2 (Z.ltb_ge (i_size i) off)), (proj2 (Z.ltb_ge (off + n) off)), (proj2 (Z.ltb_ge (MAXFILE * BSIZE) (off + n))) by lia.
  cbn [orb].
  destruct (writei_loop_run iderw p pr g (Z.to_nat (n / BSIZE + 2)) h s V L ip i off src Hr Hv Hfs Hfi Hip Hdev ltac:(lia) Hmax Hby Hnf Hsp)
    as (h1 & l1 & V1 & i1 & L1 & E1 & Hr1 & Hv1 & Hw); [by apply fuel_enough; lia|].
  destruct Hw as (Hev & Hsz & Hfw & Hmap & Hii & HL1). fold n bns sb in Hev, Hmap, Hii, HL1.
  rw (bind_ok _ _ _ _ _ E1). set (s1 := set_fs_log l1 (put_inode ip i1 s)).
  assert (fs_inodes s1 !! ip = Some i1) as Hip1 by (by eapply put_lookup).
  rw (bind_ok _ _ _ _ _ (inode_at_run h1 s1 ip i1 Hip1)) Hsz. destruct (bool_decide_reflect (i_size i < off + n)) as [Hlt|Hge].
  2:{ rewrite -> (proj2 (Z.ltb_ge (i_size i) _)), andb_false_r by lia. rw (bind_ok _ _ _ tt (h1, s1)) //.
      exists h1, l1, V1, V1, i1, L1. split_and!; try done; [by eapply lview_blocks|lia| |lia]. intros Hz. by rewrite -> (Hii Hz). }
  rewrite -> (proj2 (Z.ltb_lt 0 n)), (proj2 (Z.ltb_lt (i_size i) _)) by lia. cbn [andb].
  set (i2 := set_i_size (off + n) i1). set (s2 := put_inode ip i2 s1).
  pose proof (evolves_size g sb V i V1 i1 (off + n) ltac:(lia) Hev) as Hev2. fold i2 in Hev2.
  pose proof (ev_meta _ _ _ _ _ _ Hev) as Hmeta.
  destruct (iupdate_run iderw p pr g h1 s2 V1 ∅ L1 ip i2 Hr1 Hv1 (fo_ib _ _ _ Hfs)) as (h3 & l3 & E3 & Hr3 & Hv3).
  - by eapply put_lookup.
  - cbn. rewrite -> Hmeta. done.
  - cbn. rewrite -> Hmeta. done.
  - apply (fk_inode _ _ _ _ (ev_file _ _ _ _ _ _ Hev2)).
  - by intros ? ? ?.
  - eapply (space_cache _ _ 1); [eapply space_le; [done|lia]|rw map_size_empty; lia].
  - eapply (space_log _ _ 0), space_le; [done|lia].
  - rw (bind_ok _ _ _ tt (h3, set_fs_log l3 s2)).
    { unfold when. rw (bind_ok _ _ _ _ _ (modinode_run h1 s1 ip i1 _ Hip1)). exact E3. }
    eexists h3, l3, V1, _, i2, _. unfold s2, s1. rw put_inode_log put_put.
    split_and!; [done|done|exact Hv3|by eapply lview_blocks|exact Hev2|cbn; lia|done|done|done| |].
    + intros Hz. unfold i2. by rewrite -> (Hii Hz).
    + etrans; [apply logged_le|]. lia.
Qed.
End rdwr.

(** [iupdate] keeps every file. *)
Lemma updated_keeps g sb V i j :
  fs_ok g sb V → file_ok g sb V i → 0 ≤ i_inum j < sb_ninodes sb →
  let V' := updated sb V j in
  fs_ok g sb V' ∧ file_ok g sb V' i ∧ (∀ bn, 0 ≤ bn < MAXFILE → faddr V' i bn = faddr V i bn) ∧
  (∀ bn, 0 ≤ bn < MAXFILE → fblock V' i bn = fblock V i bn) ∧ (∀ a, owns V' i a ↔ owns V i a).
Proof.
  intros Hfs Hfi Hj V'. destruct (updated_other g sb V i Hfs Hfi j Hj) as [Hu Ho]. fold V' in Hu, Ho.
  destruct (file_ext V i V' Ho) as [Hfa Hfb]. split_and!; [| |done|done|].
  - eapply fs_ok_ext; [|done]. intros x Hx. by rewrite -> Hu.
  - eapply file_ok_ext; [done..|]. intros x Hx. by rewrite -> Hu.
  - intros a. unfold owns. split; (intros [Ha [->|(bn & Hbn & <-)]]; split; [done|by left|done|right; exists bn]).
    + split; [done|]. symmetry. by apply Hfa.
    + split; [done|]. by apply Hfa.
Qed.

(** The disk after the last step of [writei]. *)
Lemma finished_keeps g sb V V' i (b : bool) j :
  fs_ok g sb V → file_ok g sb V i → 0 ≤ i_inum j < sb_ninodes sb → (if b then V' = updated sb V j else V' = V) →
  fs_ok g sb V' ∧ file_ok g sb V' i ∧ (∀ bn, 0 ≤ bn < MAXFILE → faddr V' i bn = faddr V i bn) ∧
  (∀ bn, 0 ≤ bn < MAXFILE → fblock V' i bn = fblock V i bn) ∧ (∀ a, owns V' i a ↔ owns V i a).
Proof. intros Hfs Hfi Hj. destruct b; intros ->; [by apply updated_keeps|done]. Qed.

Lemma fbyte_ext V V' i o : (∀ bn, 0 ≤ bn < MAXFILE → fblock V' i bn = fblock V i bn) → 0 ≤ o < MAXFILE * BSIZE → fbyte V' i o = fbyte V i o.
Proof. intros E Ho. unfold fbyte. rewrite -> E; [done|]. apply (block_range o 1); lia. Qed.

(** ** Properties *)

(** A locked inode of a file in a consistent file system, as [readi] and
    [writei] find it; [L] are the blocks of the running transaction. *)
Record loaded_file (g : geometry) (pid : Z) (s : fsst) (V : Z → list Z) (L : list Z) (ip : nat) (i : inode) : Prop := {
  of_view : lview g pid (fs_log s) V ∅ L;
  of_fs : fs_ok g (fs_sb s) V;
  of_file : file_ok g (fs_sb s) V i;
  of_slot : fs_inodes s !! ip = Some i;
  of_dev : i_dev i = 1;
  of_inum : 0 ≤ i_inum i < sb_ninodes (fs_sb s);
  of_type : i_type i ≠ T_DEV;
  of_dense : dense V i;
  of_synced : synced (fs_sb s) V i
}.

(** The inode blocks are not touched by what happens to the blocks of a file. *)
Lemma evolves_iblock g sb V i V' i' n :
  fs_ok g sb V → file_ok g sb V i → evolves g sb V i V' i' → 0 ≤ n < sb_ninodes sb → V' (IBLOCK n sb) = V (IBLOCK n sb).
Proof.
  intros Hfs Hfi Hev Hn. apply (ev_frame _ _ _ _ _ _ Hev).
  - intros c Hc. by apply not_eq_sym, (fo_apart _ _ _ Hfs).
  - intros Ho. by apply (db_inode _ _ _ _ (fk_block _ _ _ _ Hfi _ Ho) n Hn).
  - intros Hr. destruct (used sb V (IBLOCK n sb)) eqn:E; [done|]. by apply (fo_free _ _ _ Hfs _ Hr E) in Hn.
Qed.

(** After [writei] the inode on the disk is up to date. *)
Lemma synced_written g sb V i V1 V' i' off n :
  fs_ok g sb V → file_ok g sb V i → blocks_ok g V1 → 0 ≤ i_inum i < sb_ninodes sb → dense V i → synced sb V i → 0 ≤ off ≤ i_size i →
  evolves g sb V i V1 i' → i_size i' = Z.max (i_size i) (off + n) →
  (misses V i (blocks_of off n) = 0%nat → i_addrs i' = i_addrs i) →
  (if bool_decide (i_size i < off + n) then V' = updated sb V1 i' else V' = V1) → synced sb V' i'.
Proof.
  intros Hfs Hfi Hbl Hin [Hmax Hd] Hsy Ho Hev Hsz Hadr HV' j. pose proof (ev_meta _ _ _ _ _ _ Hev) as Hme.
  assert (i_inum i' = i_inum i) as Hinum by (by rewrite -> Hme). case_bool_decide as Hlt; subst V'.
  - apply disk_inode_updated; [apply (fk_inode _ _ _ _ (ev_file _ _ _ _ _ _ Hev))|].
    rw Hinum. apply Hbl. by apply (ib_home _ _ (fo_ib _ _ _ Hfs)).
  - assert (misses V i (blocks_of off n) = 0%nat) as Hm0.
    { unfold misses. apply filter_none. intros bn Hbn%elem_of_blocks; [|lia]. apply Hd; [|lia].
      pose proof (Z.div_pos off BSIZE ltac:(lia) ltac:(done)). lia. }
    unfold disk_inode. rw Hinum (evolves_iblock g sb V i V1 i') //. rewrite -> (Hsy j : read_dinode _ _ _ = _).
    unfold with_fields. rewrite -> (Hadr Hm0), Hsz, Z.max_l by lia. by rewrite -> Hme.
Qed.

Section properties.
Context (iderw : nat → K bst unit) `{HBD : !BlockDev iderw} (p : nat) (pr : proc) (g : geometry).
Context (dev_read : Z → option (nat → Z → K fsst (Z * list Z))) (dev_write : Z → option (nat → list Z → Z → K fsst Z)).
Abbreviation pid := (p_pid pr).

(** [writei] on a loaded file, with the inode slot it leaves. *)
Lemma writei_file h s V L ip i off src :
  let n := Z.of_nat (length src) in let sb := fs_sb s in
  ready p pr h → loaded_file g pid s V L ip i → 0 ≤ off < 2 ^ 32 → bytes src → n ≤ filewrite_max →
  space g L (Z.to_nat MAXOPBLOCKS) → (4 ≤ nfree sb V)%nat →
  if (i_size i <? off) || (MAXFILE * BSIZE <? off + n) then writei iderw dev_write ip src off (h, s) = Ok (-1) (h, s)
  else ∃ h' l' V' i' L', let s' := set_fs_log l' (put_inode ip i' s) in writei iderw dev_write ip src off (h, s) = Ok n (h', s') ∧ ready p pr h' ∧
    i' = set_i_addrs (i_addrs i') (set_i_size (i_size i') i) ∧
    loaded_file g pid s' V' L' ip i' ∧ i_size i' = Z.max (i_size i) (off + n) ∧ fwritten V i off src V' i' ∧
    (length L' ≤ length L + Z.to_nat MAXOPBLOCKS)%nat ∧
    ∀ j, file_ok g sb V j → (∀ a, owns V i a → ¬ owns V j a) →
      file_ok g sb V' j ∧ (∀ bn, 0 ≤ bn < MAXFILE → fblock V' j bn = fblock V j bn) ∧ (∀ a, owns V' i' a → ¬ owns V' j a).
Proof using HBD.
  intros n sb Hr [Hv Hfs Hfi Hip Hdev Hin Ht Hde Hsy] Ho Hby Hn Hsp Hnf. change filewrite_max with 1536 in Hn.
  assert (MAXFILE * BSIZE = 71680) as Emax by done. pose proof Hde as [Hmax _].
  destruct (Z.ltb_spec (i_size i) off) as [Hlt|Hle]; cbn [orb].
  { unfold writei. rw (bind_ok _ _ _ _ _ (inode_at_run h s ip i Hip)). rewrite -> (proj2 (Z.eqb_neq _ _) Ht).
    by rewrite -> (proj2 (Z.ltb_lt _ _) Hlt). }
  destruct (Z.ltb_spec (MAXFILE * BSIZE) (off + n)) as [Hlt|Hle2].
  { unfold writei. fold n. rw (bind_ok _ _ _ _ _ (inode_at_run h s ip i Hip)). rewrite -> (proj2 (Z.eqb_neq _ _) Ht).
    rewrite -> (wrapu_small 32 (off + n)) by lia.
    by rewrite -> (proj2 (Z.ltb_ge (i_size i) off)), (proj2 (Z.ltb_ge (off + n) off)), (proj2 (Z.ltb_lt (MAXFILE * BSIZE) (off + n))) by lia. }
  destruct (chunk_cost V i off n Hde ltac:(lia) Hn) as [Hc1 Hc2].
  assert (ind_cost i L ≤ 2 ∧ ind_miss i ≤ 1)%nat as [Hi1 Hi2] by (unfold ind_cost, ind_miss; repeat case_decide; lia).
  assert (Z.to_nat MAXOPBLOCKS = 10%nat) as Emo by done. rewrite -> Emo in *.
  destruct (writei_run iderw p pr g dev_write h s V L ip i off src Hr Hv Hfs Hfi Hip Hdev Hin Ht ltac:(lia) Hle2 Hby)
    as (h' & l' & V1 & V' & i' & L' & E & Hr' & Hv' & Hbl1 & Hev & Hsz & Hfw & Hmap & HV' & Hadr & HL'); [fold n sb; lia|eapply space_le; [done|fold n; lia]|].
  fold n sb in Hev, Hmap, HV', Hadr, HL'.
  pose proof (ev_fs _ _ _ _ _ _ Hev) as Hfs1. pose proof (ev_file _ _ _ _ _ _ Hev) as Hfi1. pose proof (ev_meta _ _ _ _ _ _ Hev) as Hme.
  assert (i_inum i' = i_inum i) as Hinum by (by rewrite -> Hme). assert (0 ≤ i_inum i' < sb_ninodes sb) as Hin' by (by rw Hinum).
  destruct (finished_keeps g sb V1 V' i' _ i' Hfs1 Hfi1 Hin' HV') as (Hfs' & Hfi' & Hfa' & Hfb' & Hown').
  exists h', l', V', i', L'. split_and!; [done|done|done| |done| |lia|].
  - split; try done; [by eapply put_lookup|by rewrite -> Hme..| |].
    + destruct (dense_written V i V1 i' off n Hde ltac:(lia) Hle2 Hsz) as [Hd1 Hd2]; [|done|].
      * intros bn Hbn Hb0. by rewrite -> (ev_keep _ _ _ _ _ _ Hev).
      * split; [done|]. intros bn Hb0 Hbl. rewrite -> Hfa'; [by apply Hd2|]. unfold BSIZE in *. lia.
    + eapply (synced_written g sb V i V1 V' i' off n); try done; lia.
  - intros o Hor. rewrite -> (fbyte_ext V1) by done. by apply Hfw.
  - intros j Hj Hdj. destruct (evolves_others g sb V i V1 i' j Hev Hj Hdj) as (Hj1 & Hfj1 & Hd1).
    destruct (finished_keeps g sb V1 V' j _ i' Hfs1 Hj1 Hin' HV') as (_ & Hj' & _ & Hfbj & Hownj). split_and!; [done|..].
    + intros bn Hbn. by rewrite -> Hfbj, Hfj1.
    + intros a Ha Hja. apply (Hd1 a); [by apply Hown'|by apply Hownj].
Qed.

(** C18: [writei]. On a file without holes, with a write no longer than
    [filewrite] passes and the MAXOPBLOCKS log blocks that [begin_op]
    reserved, [writei] succeeds exactly when the write starts inside the file
    or at its end and ends below the maximal size. It then changes exactly the
    bytes of the range, extends the size if needed, leaves no hole, brings the
    inode on the disk up to date, and logs at most MAXOPBLOCKS blocks; every
    file that shares no block with this one keeps its contents, and still
    shares none. Otherwise it returns -1 and changes nothing. *)
Theorem writei_correct h s V L ip i off src :
  let n := Z.of_nat (length src) in let sb := fs_sb s in
  ready p pr h → loaded_file g pid s V L ip i → 0 ≤ off < 2 ^ 32 → bytes src → n ≤ filewrite_max →
  space g L (Z.to_nat MAXOPBLOCKS) → (4 ≤ nfree sb V)%nat →
  if (i_size i <? off) || (MAXFILE * BSIZE <? off + n) then writei iderw dev_write ip src off (h, s) = Ok (-1) (h, s)
  else ∃ h' s' V' i' L', writei iderw dev_write ip src off (h, s) = Ok n (h', s') ∧ ready p pr h' ∧
    loaded_file g pid s' V' L' ip i' ∧ i_size i' = Z.max (i_size i) (off + n) ∧ fwritten V i off src V' i' ∧
    (length L' ≤ length L + Z.to_nat MAXOPBLOCKS)%nat ∧
    ∀ j, file_ok g sb V j → (∀ a, owns V i a → ¬ owns V j a) →
      file_ok g sb V' j ∧ (∀ bn, 0 ≤ bn < MAXFILE → fblock V' j bn = fblock V j bn) ∧ (∀ a, owns V' i' a → ¬ owns V' j a).
Proof using HBD.
  intros n sb Hr Hof Ho Hby Hn Hsp Hnf. pose proof (writei_file h s V L ip i off src Hr Hof Ho Hby Hn Hsp Hnf) as H. cbv zeta in H. fold n sb in H.
  destruct ((i_size i <? off) || (MAXFILE * BSIZE <? off + n)); [done|]. destruct H as (h' & l' & V' & i' & L' & E & Hr' & _ & H).
  by exists h', (set_fs_log l' (put_inode ip i' s)), V', i', L'.
Qed.

(** C19: [readi]. On a locked inode that is a file or a directory, not a
    device, and has no hole below its size, for every offset and count, [readi]
    returns the bytes of the file from the offset, cut at its size, or -1 when
    the offset is beyond the size or the sum wraps around; it changes
    neither the file nor the transaction. *)
Theorem readi_correct h s V L ip i off n :
  ready p pr h → loaded_file g pid s V L ip i → 0 ≤ off < 2 ^ 32 → 0 ≤ n < 2 ^ 32 → cache_room L ∅ 1 →
  let m := Z.min n (i_size i - off) in
  if (i_size i <? off) || (u32 (off + n) <? off) then readi iderw dev_read ip off n (h, s) = Ok (-1, []) (h, s)
  else ∃ h' s', readi iderw dev_read ip off n (h, s) = Ok (m, fread V i off m) (h', s') ∧ ready p pr h' ∧
    loaded_file g pid s' V L ip i.
Proof using HBD.
  intros Hr Hof Ho Hn Hc m. pose proof Hof as [Hv Hfs Hfi Hip Hdev Hin Ht Hde Hsy].
  pose proof (readi_run iderw p pr g dev_read h s V L ip i off n Hr Hv Hip Hdev Hfi Ht Hde Ho Hn Hc) as E.
  fold m in E. destruct ((i_size i <? off) || (u32 (off + n) <? off)); [done|].
  destruct E as (h' & l' & E & Hr' & Hv'). by exists h', (set_fs_log l' s).
Qed.
End properties.

(** ** The properties on the small file system *)

Definition ex_root : inode := MkInode 1 1 1 (MkSl true 7) true 1 0 0 1 32 (18 :: replicate 12 0).
Definition ex_fs (b : bst) : fsst := MkFs (ex_fslog b) ex_sb [ex_root].

Lemma ex_iblock n : 0 ≤ n < 8 → IBLOCK n ex_sb = 16.
Proof. intros. unfold IBLOCK. rewrite -> Z.div_small by (change IPB with 8; lia). done. Qed.

Lemma ex_fs_ok : fs_ok ex_geo ex_sb ex_V.
Proof.
  split; [apply ex_sb_ok|apply ex_iblocks_ok|apply ex_bitmap_ok|..].
  - intros b Hb. cbn in Hb. rw ex_used //. intros Hge%Z.ltb_ge. split; [lia|]. intros n Hn. rw ex_iblock //. lia.
  - intros n c Hn Hc. cbn in Hn, Hc. by rw ex_iblock // ex_bblock.
Qed.

Lemma ex_faddr bn : 0 ≤ bn < MAXFILE → faddr ex_V ex_root bn = if bn =? 0 then 18 else 0.
Proof.
  intros Hb. apply Z.eqb_eq. apply (forallb_range (λ bn, faddr ex_V ex_root bn =? (if bn =? 0 then 18 else 0)) MAXFILE bn); [|done].
  vm_compute. reflexivity.
Qed.

Lemma ex_file_ok : file_ok ex_geo ex_sb ex_V ex_root.
Proof.
  split.
  - split; cbn; try lia. split; [done|]. repeat constructor; lia.
  - intros a [Ha [->|(bn & Hbn & <-)]]; [done|]. revert Ha. rewrite -> ex_faddr by done. case_bool; [|done]. intros _.
    split; [cbn; lia|unfold home; cbn; lia|by rewrite -> ex_used by lia|..].
    + intros c Hc. by rw ex_bblock.
    + intros n Hn. by rw ex_iblock.
  - intros b b' Hb Hb'. rewrite -> !ex_faddr by done. case_bool; case_bool; lia.
  - intros b Hb. rewrite -> ex_faddr by done. case_bool; done.
Qed.

Lemma ex_open : ∃ b, loaded_file ex_geo 7 (ex_fs b) ex_V [] 0 ex_root.
Proof.
  destruct ex_lview as (b & Hv). exists b. split; try done; [apply ex_fs_ok|apply ex_file_ok|..].
  split; [done|]. intros bn Hb Hlt. cbn in Hlt. rewrite -> ex_faddr by (change MAXFILE with 140; unfold BSIZE in *; lia).
  case_bool; [done|]. unfold BSIZE in *. lia.
Qed.

Lemma ex_space : space ex_geo [] (Z.to_nat MAXOPBLOCKS).
Proof. change (Z.to_nat MAXOPBLOCKS) with 10%nat. split_and!; [done|done|]. change NBUF with 30%nat. cbn. lia. Qed.

Lemma writei_correct_witness :
  ∃ b h' s' V' i', writei memide_iderw (λ _, None) 0 [104; 105] 32 (ex_machine, ex_fs b) = Ok 2 (h', s') ∧
    i_size i' = 34 ∧ fbyte V' i' 33 = 105.
Proof.
  destruct ex_open as (b & Hof). exists b.
  destruct (writei_correct memide_iderw 0 ex_running ex_geo (λ _, None) ex_machine (ex_fs b) ex_V [] 0 ex_root 32 [104; 105]
    ex_machine_running Hof ltac:(lia) ltac:(by repeat constructor) ltac:(done)
    ex_space ltac:(vm_compute; lia))
    as (h' & s' & V' & i' & L' & E & _ & _ & Hsz & Hw & _).
  exists h', s', V', i'. split_and!; [exact E|exact Hsz|]. by rewrite -> (Hw 33 ltac:(done)).
Defined.

Lemma readi_correct_witness :
  ∃ b h' s', readi memide_iderw (λ _, None) 0 16 100 (ex_machine, ex_fs b) = Ok (16, [1; 0; 46; 46] ++ replicate 12 0) (h', s').
Proof.
  destruct ex_open as (b & Hof). exists b.
  destruct (readi_correct memide_iderw 0 ex_running ex_geo (λ _, None) ex_machine (ex_fs b) ex_V [] 0 ex_root 16 100
    ex_machine_running Hof ltac:(lia) ltac:(lia) ltac:(unfold cache_room; rw map_size_empty; change NBUF with 30%nat; cbn; lia))
    as (h' & s' & E & _).
  exists h', s'. rewrite -> E. do 2 f_equal.
Defined.
