(* ===== verification/Dir.v ===== *)
(** * Directories: [dirlookup] and [dirlink] of fs.c

    A directory is a file of entries of 16 bytes; its abstraction is the list of
    its entries, an inode number and the string that the name field holds. *)

From S2P Require Import Prelude Machine Spinlock Console Mem CString Kalloc Sched Sleeplock Ring Bytes Bio Cache Log Recovery Txn Fs FsView Balloc Inode Content File Rdwr.

(** ** The entries *)

Definition entry : Type := Z * list Z.

Definition dentry (V : Z → list Z) (i : inode) (k : nat) : entry :=
  let de := fread V i (16 * Z.of_nat k) 16 in (de_inum de, cname DIRSIZ (de_name de)).
Definition entries (V : Z → list Z) (i : inode) : list entry := dentry V i <$> seq 0 (Z.to_nat (i_size i / 16)).

(** A directory has whole entries. *)
Record directory (V : Z → list Z) (i : inode) : Prop := {
  dr_type : i_type i = T_DIR;
  dr_size : i_size i = 16 * (i_size i / 16)
}.

Definition entry_is (name : list Z) (e : entry) : Prop := e.1 ≠ 0 ∧ e.2 = cname DIRSIZ name.
#[global] Instance entry_is_dec name e : Decision (entry_is name e).
Proof. unfold entry_is. apply _. Defined.
Definition entry_free (e : entry) : Prop := e.1 = 0.
#[global] Instance entry_free_dec e : Decision (entry_free e).
Proof. unfold entry_free. apply _. Defined.

(** The place of a new entry: the first empty one, or the end. *)
Definition free_slot (es : list entry) : nat :=
  match list_find entry_free es with Some (k, _) => k | None => length es end.

(** ** The inode table *)

(** The slot that [iget] returns: the one of the inode, or the first that is
    not in use. *)
Definition is_inode (dev inum : Z) (i : inode) : Prop := 0 < i_ref i ∧ i_dev i = dev ∧ i_inum i = inum.
#[global] Instance is_inode_dec dev inum i : Decision (is_inode dev inum i).
Proof. unfold is_inode. apply _. Defined.
Definition iget_slot (l : list inode) (dev inum : Z) : option (nat * inode) :=
  match list_find (is_inode dev inum) l with
  | Some r => Some r
  | None => list_find (λ i, i_ref i = 0) l
  end.

(** The inode in that slot afterwards. *)
Definition iget_inode (dev inum : Z) (i : inode) : inode :=
  if decide (is_inode dev inum i) then set_i_ref (i_ref i + 1) i
  else set_i_valid false (set_i_ref 1 (set_i_inum inum (set_i_dev dev i))).

Lemma iget_scan_run dev inum l : ∀ k e,
  iget_scan l k dev inum e =
    match list_find (is_inode dev inum) l with
    | Some (j, _) => (Some (k + j)%nat, snd (iget_scan l k dev inum e))
    | None => (None, match e with Some x => Some x | None => (λ r, k + r.1)%nat <$> list_find (λ i, i_ref i = 0) l end)
    end.
Proof.
  induction l as [|i l IH]; intros k e; cbn [iget_scan list_find]; [by destruct e|].
  assert ((0 <? i_ref i) && (i_dev i =? dev) && (i_inum i =? inum) = bool_decide (is_inode dev inum i)) as ->.
  { unfold is_inode. repeat case_bool; cbn; symmetry; (apply bool_decide_eq_true_2 || apply bool_decide_eq_false_2); lia. }
  case_bool_decide as Hi; [rewrite -> decide_True by done; by rw Nat.add_0_r|rewrite -> decide_False by done]. rw IH.
  destruct (list_find (is_inode dev inum) l) as [[j x]|]; cbn; [f_equal; f_equal; lia|]. f_equal.
  destruct e as [x|]; [done|]. rewrite -> (bool_decide_eq_true_2 (None = None)) by done. cbn [andb].
  destruct (Z.eqb_spec (i_ref i) 0) as [E|E]; [rewrite -> decide_True by done; cbn; by rw Nat.add_0_r|rewrite -> decide_False by done].
  destruct (list_find (λ i, i_ref i = 0) l) as [[j x]|]; cbn; [|done]. f_equal. lia.
Qed.

(** ** The bytes of entries *)

Lemma entries_lookup V i k : (k < Z.to_nat (i_size i / 16))%nat → entries V i !! k = Some (dentry V i k).
Proof. intros Hk. unfold entries. rw list_lookup_fmap lookup_seq_lt //. Qed.

Lemma drop_entries V i k : (k < Z.to_nat (i_size i / 16))%nat → drop k (entries V i) = dentry V i k :: drop (S k) (entries V i).
Proof. intros Hk. by apply drop_S, entries_lookup. Qed.

Lemma fread_written V i off src V' i' o :
  fwritten V i off src V' i' → 0 ≤ o → o + Z.of_nat (length src) ≤ MAXFILE * BSIZE →
  o = off ∨ o + Z.of_nat (length src) ≤ off ∨ off + Z.of_nat (length src) ≤ o →
  fread V' i' o (Z.of_nat (length src)) = if decide (o = off) then src else fread V i o (Z.of_nat (length src)).
Proof.
  intros Hw Ho Hm Hd. apply list_eq. intros k. unfold fread. rw list_lookup_fmap.
  destruct (decide (k < length src)%nat) as [Hk|Hk].
  - rewrite -> lookup_seqZ_lt by lia. cbn. rewrite -> Hw by lia. case_decide as E1; case_decide as E2; try lia.
    + replace (Z.to_nat (o + Z.of_nat k - off)) with k by lia. destruct (lookup_lt_is_Some_2 src k Hk) as [x Hx]. rw Hx. by rewrite -> (nth_lookup_Some _ _ _ _ Hx).
    + rw list_lookup_fmap. by rewrite -> lookup_seqZ_lt by lia.
  - rewrite -> lookup_seqZ_ge by lia. case_decide; [by rewrite -> lookup_ge_None_2 by lia|]. rw list_lookup_fmap. by rewrite -> lookup_seqZ_ge by lia.
Qed.

Lemma dirent_fields inum name :
  0 ≤ inum < 65536 → length name = DIRSIZ → de_inum (dirent_bytes inum name) = inum ∧ de_name (dirent_bytes inum name) = name.
Proof.
  intros Hi Hn. unfold de_inum, de_name, dirent_bytes, get16. split.
  - rw slice_app_l // le_value_bytes. by apply Z.mod_small.
  - etransitivity; [apply (slice_app_r (le_bytes 2 inum) name 0 (Z.of_nat DIRSIZ)); done|].
    etransitivity; [symmetry; apply (f_equal (λ l, slice l 0 (Z.of_nat DIRSIZ))), (app_nil_r name)|]. apply slice_app_l. by rw Hn.
Qed.

(** The entries after one was written at place [k]. *)
Lemma entries_written V i V' i' k inum name :
  directory V i → 0 ≤ i_size i → (k ≤ Z.to_nat (i_size i / 16))%nat → 16 * Z.of_nat k + 16 ≤ MAXFILE * BSIZE → i_size i ≤ MAXFILE * BSIZE →
  i_size i' = Z.max (i_size i) (16 * Z.of_nat k + 16) → 0 ≤ inum < 65536 →
  fwritten V i (16 * Z.of_nat k) (dirent_bytes inum (strncpy_bytes name DIRSIZ)) V' i' →
  entries V' i' = take k (entries V i) ++ (inum, cname DIRSIZ name) :: drop (S k) (entries V i).
Proof.
  intros [_ Hsz] Hs0 Hk Hm1 Hm2 Hs' Hi Hw. assert (length (dirent_bytes inum (strncpy_bytes name DIRSIZ)) = 16%nat) as Hlen
    by (unfold dirent_bytes; by rw length_app length_strncpy_bytes).
  set (n := Z.to_nat (i_size i / 16)) in *. assert (Z.to_nat (i_size i' / 16) = Nat.max n (S k)) as Hn' by (rw Hs'; unfold n; dlia).
  assert (∀ j, (j < Nat.max n (S k))%nat → dentry V' i' j = if decide (j = k) then (inum, cname DIRSIZ name) else dentry V i j) as Hj.
  { intros j Hj. unfold dentry. pose proof (fread_written V i _ _ V' i' (16 * Z.of_nat j) Hw) as E. rewrite -> Hlen in E. change (Z.of_nat 16) with 16 in E.
    rewrite -> E by (unfold n in *; lia). case_decide as E1; case_decide as E2; try lia; [|done].
    destruct (dirent_fields inum (strncpy_bytes name DIRSIZ) Hi ltac:(apply length_strncpy_bytes)) as [-> ->]. f_equal.
    etransitivity; [symmetry; apply (f_equal (cname DIRSIZ)), (app_nil_r (strncpy_bytes name DIRSIZ))|]. apply cname_strncpy_bytes. }
  apply list_eq. intros j. unfold entries at 1. rw Hn' list_lookup_fmap.
  assert (length (take k (entries V i)) = k) as Htk by (unfold entries; rw length_take length_fmap length_seq; lia).
  destruct (decide (j < k)%nat) as [H1|H1]; [|destruct (decide (j = k)) as [->|H2]].
  - rewrite -> lookup_app_l, lookup_take_lt, entries_lookup, lookup_seq_lt by lia. cbn. rewrite -> Hj, decide_False by lia. done.
  - rewrite -> lookup_app_r, Htk, Nat.sub_diag, lookup_seq_lt by lia. cbn. by rewrite -> Hj, decide_True by lia.
  - rewrite -> lookup_app_r, Htk by lia. replace (j - k)%nat with (S (j - S k)) by lia.
    change ((?x :: ?l) !! S ?m) with (l !! m). rewrite -> lookup_drop. replace (S k + (j - S k))%nat with j by lia. destruct (decide (j < n)%nat).
    + rewrite -> entries_lookup, lookup_seq_lt by lia. cbn. rewrite -> Hj, decide_False by lia. done.
    + rewrite -> (lookup_ge_None_2 (entries V i)) by (unfold entries; rw length_fmap length_seq; lia).
      by rewrite -> lookup_ge_None_2 by (rw length_seq; lia).
Qed.
Lemma iget_slot_lookup l dev inum ip j : iget_slot l dev inum = Some (ip, j) → l !! ip = Some j ∧ (is_inode dev inum j ∨ i_ref j = 0).
Proof.
  unfold iget_slot. destruct (list_find (is_inode dev inum) l) as [[k x]|] eqn:E; [intros [= -> ->]; apply list_find_Some in E; naive_solver|].
  intros (? & ? & _)%list_find_Some. auto.
Qed.

Lemma free_slot_le es : (free_slot es ≤ length es)%nat.
Proof. unfold free_slot. destruct (list_find _ es) as [[k e]|] eqn:E; [|done]. apply list_find_Some in E as (E & _). apply lookup_lt_Some in E. lia. Qed.

(** A name that is not there is found where its entry is put. *)
Lemma find_added es k name inum :
  (k ≤ length es)%nat → inum ≠ 0 → list_find (entry_is name) es = None →
  list_find (entry_is name) (take k es ++ (inum, cname DIRSIZ name) :: drop (S k) es) = Some (k, (inum, cname DIRSIZ name)).
Proof.
  intros Hk Hi Hn. apply list_find_None in Hn. rewrite -> Forall_lookup in Hn. apply list_find_Some. split_and!.
  - apply list_lookup_middle. rw length_take. lia.
  - by split.
  - intros j e Hj Hlt. rewrite -> lookup_app_l, lookup_take_lt in Hj by (rw ?length_take; lia). by eapply Hn.
Qed.

Section dir.
Context (iderw : nat → K bst unit) `{HBD : !BlockDev iderw} (p : nat) (pr : proc) (g : geometry).
Context (dev_read : Z → option (nat → Z → K fsst (Z * list Z))) (dev_write : Z → option (nat → list Z → Z → K fsst Z)).
Abbreviation pid := (p_pid pr).

Lemma iget_run h s dev inum :
  ready p pr h →
  iget dev inum (h, s) =
    match iget_slot (fs_inodes s) dev inum with
    | Some (ip, i) => Ok ip (settle h, put_inode ip (iget_inode dev inum i) s)
    | None => Stop (Panic "iget: no inodes") (acq icache_lock h, s)
    end.
Proof using Type.
  intros Hr. unfold iget, iget_slot. rw (bind_ok _ _ _ _ _ (ready_lock p pr _ h s Hr)) (bind_ok _ _ _ s (acq icache_lock h, s)) //.
  rw iget_scan_run. destruct (list_find (is_inode dev inum) _) as [[j i]|] eqn:E1; [|destruct (list_find (λ i, i_ref i = 0) _) as [[j i]|] eqn:E2; [|done]].
  - apply list_find_Some in E1 as (Hj & Hi & _). cbn [Nat.add]. rw (bind_ok _ _ _ _ _ (modinode_run _ s j i _ Hj)).
    unfold iget_inode. rewrite -> decide_True by done. by rw (bind_ok _ _ _ _ _ (ready_unlock p pr _ h _ Hr)).
  - apply list_find_Some in E2 as (Hj & Hi & _). cbn [fmap option_fmap option_map fst Nat.add].
    rw (bind_ok _ _ _ _ _ (modinode_run _ s j i _ Hj)).
    unfold iget_inode. rewrite -> decide_False by (intros [? _]; lia). by rw (bind_ok _ _ _ _ _ (ready_unlock p pr _ h _ Hr)).
Qed.

(** ** Looking names up *)

(** Reading entry [k]. *)
Lemma read_entry h s V L dp i k :
  ready p pr h → loaded_file g pid s V L dp i → directory V i → (k < Z.to_nat (i_size i / 16))%nat → cache_room L ∅ 1 →
  ∃ h' l', readi iderw dev_read dp (16 * Z.of_nat k) SIZEOF_DIRENT (h, s) = Ok (16, fread V i (16 * Z.of_nat k) 16) (h', set_fs_log l' s) ∧
    ready p pr h' ∧ loaded_file g pid (set_fs_log l' s) V L dp i.
Proof using HBD.
  intros Hr Hof [Hty Hsz] Hk Hc. pose proof Hof as [Hv Hfs Hfi Hip Hdev Hin Ht Hde Hsy]. pose proof (proj1 Hde) as Hmax.
  change (MAXFILE * BSIZE) with 71680 in Hmax.
  pose proof (readi_run iderw p pr g dev_read h s V L dp i (16 * Z.of_nat k) SIZEOF_DIRENT Hr Hv Hip Hdev Hfi Ht Hde ltac:(lia) ltac:(done) Hc) as E.
  change SIZEOF_DIRENT with 16 in E at 1 2. rewrite -> (wrapu_small 32) in E by lia.
  rewrite -> (proj2 (Z.ltb_ge _ _)), (proj2 (Z.ltb_ge (16 * Z.of_nat k + 16) _)) in E by lia. cbn [orb] in E.
  rewrite -> Z.min_l in E by (change SIZEOF_DIRENT with 16; lia). destruct E as (h' & l' & E & Hr' & Hv'). by exists h', l'.
Qed.

Lemma dirlookup_loop_run V L dp i name fuel : ∀ h s k,
  ready p pr h → loaded_file g pid s V L dp i → directory V i → cache_room L ∅ 1 →
  (k + fuel)%nat = S (Z.to_nat (i_size i / 16)) → (k ≤ Z.to_nat (i_size i / 16))%nat →
  ∃ h' l', dirlookup_loop iderw dev_read fuel dp name (16 * Z.of_nat k) (h, s) =
      Ok ((λ r : nat * entry, (16 * Z.of_nat (k + r.1), r.2.1)) <$> list_find (entry_is name) (drop k (entries V i))) (h', set_fs_log l' s) ∧
    ready p pr h' ∧ loaded_file g pid (set_fs_log l' s) V L dp i.
Proof using HBD.
  induction fuel as [|fuel IH]; intros h s k Hr Hof Hd Hc Hf Hk; [lia|]. pose proof Hd as [_ Hsz]. cbn [dirlookup_loop].
  rw (bind_ok _ _ _ _ _ (inode_at_run h s dp i (of_slot _ _ _ _ _ _ _ Hof))).
  destruct (decide (k = Z.to_nat (i_size i / 16))) as [->|Hne].
  { rewrite -> (proj2 (Z.ltb_ge _ _)) by lia. rewrite -> drop_ge by (unfold entries; rw length_fmap length_seq; lia).
    exists h, (fs_log s). replace (set_fs_log (fs_log s) s) with s by (by destruct s). done. }
  rewrite -> (proj2 (Z.ltb_lt _ _)) by lia. cbn [negb].
  destruct (read_entry h s V L dp i k Hr Hof Hd ltac:(lia) Hc) as (h1 & l1 & E1 & Hr1 & Hof1). rw (bind_ok _ _ _ _ _ E1).
  change (16 =? SIZEOF_DIRENT) with true. cbn [negb]. rewrite -> drop_entries by lia. cbn [list_find].
  set (de := fread V i (16 * Z.of_nat k) 16).
  assert (negb (de_inum de =? 0) && (namecmp name (de_name de) =? 0) = bool_decide (entry_is name (dentry V i k))) as ->.
  { unfold entry_is, dentry. cbn [fst snd]. fold de. symmetry. unfold namecmp. destruct (Z.eqb_spec (de_inum de) 0); cbn [negb andb].
    - apply bool_decide_eq_false_2. naive_solver.
    - destruct (Z.eqb_spec (strncmp name (de_name de) DIRSIZ) 0) as [E|E]; rw strncmp_cname in E;
        [apply bool_decide_eq_true_2|apply bool_decide_eq_false_2]; naive_solver. }
  case_bool_decide as He; [rewrite -> decide_True by done|rewrite -> decide_False by done].
  - exists h1, l1. cbn. by rw Nat.add_0_r.
  - destruct (IH h1 (set_fs_log l1 s) (S k) Hr1 Hof1 Hd Hc ltac:(lia) ltac:(lia)) as (h' & l' & E & Hr' & Hof').
    exists h', l'. split_and!; [|done|done]. replace (16 * Z.of_nat k + SIZEOF_DIRENT) with (16 * Z.of_nat (S k)) by (change SIZEOF_DIRENT with 16; lia).
    rw E. f_equal. destruct (list_find _ _) as [[j e]|]; cbn; [|done]. do 2 f_equal. lia.
Qed.

Lemma dirlink_loop_run V L dp i fuel : ∀ h s k,
  ready p pr h → loaded_file g pid s V L dp i → directory V i → cache_room L ∅ 1 →
  (k + fuel)%nat = S (Z.to_nat (i_size i / 16)) → (k ≤ Z.to_nat (i_size i / 16))%nat →
  ∃ h' l', dirlink_loop iderw dev_read fuel dp (16 * Z.of_nat k) (h, s) =
      Ok (16 * Z.of_nat (k + free_slot (drop k (entries V i)))) (h', set_fs_log l' s) ∧
    ready p pr h' ∧ loaded_file g pid (set_fs_log l' s) V L dp i.
Proof using HBD.
  induction fuel as [|fuel IH]; intros h s k Hr Hof Hd Hc Hf Hk; [lia|]. pose proof Hd as [_ Hsz]. cbn [dirlink_loop].
  rw (bind_ok _ _ _ _ _ (inode_at_run h s dp i (of_slot _ _ _ _ _ _ _ Hof))). unfold free_slot.
  destruct (decide (k = Z.to_nat (i_size i / 16))) as [->|Hne].
  { rewrite -> (proj2 (Z.ltb_ge _ _)) by lia. rewrite -> drop_ge by (unfold entries; rw length_fmap length_seq; lia).
    exists h, (fs_log s). replace (set_fs_log (fs_log s) s) with s by (by destruct s). cbn. by rw Nat.add_0_r. }
  rewrite -> (proj2 (Z.ltb_lt _ _)) by lia. cbn [negb].
  destruct (read_entry h s V L dp i k Hr Hof Hd ltac:(lia) Hc) as (h1 & l1 & E1 & Hr1 & Hof1). rw (bind_ok _ _ _ _ _ E1).
  change (16 =? SIZEOF_DIRENT) with true. cbn [negb]. rewrite -> drop_entries by lia. cbn [list_find].
  destruct (Z.eqb_spec (de_inum (fread V i (16 * Z.of_nat k) 16)) 0) as [E|E];
    [rewrite -> decide_True by done|rewrite -> decide_False by done].
  - exists h1, l1. by rw Nat.add_0_r.
  - destruct (IH h1 (set_fs_log l1 s) (S k) Hr1 Hof1 Hd Hc ltac:(lia) ltac:(lia)) as (h' & l' & E' & Hr' & Hof').
    exists h', l'. split_and!; [|done|done]. replace (16 * Z.of_nat k + SIZEOF_DIRENT) with (16 * Z.of_nat (S k)) by (change SIZEOF_DIRENT with 16; lia).
    rw E'. f_equal. unfold free_slot. destruct (list_find _ _) as [[j e]|]; cbn [fmap option_fmap option_map prod_map fst length]; do 2 f_equal; lia.
Qed.

(** [dirlookup] up to its call of [iget]. *)
Lemma dirlookup_run h s V L dp i name :
  ready p pr h → loaded_file g pid s V L dp i → directory V i → cache_room L ∅ 1 →
  ∃ h' l', ready p pr h' ∧ loaded_file g pid (set_fs_log l' s) V L dp i ∧
    dirlookup iderw dev_read dp name (h, s) =
      match list_find (entry_is name) (entries V i) with
      | None => Ok None (h', set_fs_log l' s)
      | Some (k, e) =>
          match iget_slot (fs_inodes s) 1 e.1 with
          | Some (ip, j) => Ok (Some (ip, 16 * Z.of_nat k)) (settle h', put_inode ip (iget_inode 1 e.1 j) (set_fs_log l' s))
          | None => Stop (Panic "iget: no inodes") (acq icache_lock h', set_fs_log l' s)
          end
      end.
Proof using HBD.
  intros Hr Hof Hd Hc. pose proof Hof as [Hv Hfs Hfi Hip Hdev Hin Ht Hde Hsy]. pose proof Hd as [Hty Hsz].
  pose proof (io_size _ (fk_inode _ _ _ _ Hfi)) as Hs0. unfold dirlookup. rw (bind_ok _ _ _ _ _ (inode_at_run h s dp i Hip)) Hty. rw Z.eqb_refl. cbn [negb].
  destruct (dirlookup_loop_run V L dp i name (Z.to_nat (i_size i / SIZEOF_DIRENT + 1)) h s 0 Hr Hof Hd Hc) as (h' & l' & E & Hr' & Hof').
  { change SIZEOF_DIRENT with 16. pose proof (Z.div_pos (i_size i) 16 ltac:(lia) ltac:(done)). lia. } { lia. }
  change (16 * Z.of_nat 0) with 0 in E. rw drop_0 in E. exists h', l'. split_and!; [done|done|]. rw (bind_ok _ _ _ _ _ E).
  destruct (list_find (entry_is name) (entries V i)) as [[k e]|]; cbn [fmap option_fmap option_map fst snd Nat.add]; [|done].
  rw bind_run Hdev iget_run //. cbn [fs_inodes set_fs_log]. by destruct (iget_slot (fs_inodes s) 1 e.1) as [[ip j]|].
Qed.


(** ** Dropping a reference *)

(** [iput] of an inode that is not to be freed. *)
Lemma iput_keep h s ip i :
  ready p pr h → fs_inodes s !! ip = Some i → sl_locked (i_lock i) = false → i_valid i && (i_nlink i =? 0) && (i_ref i =? 1) = false →
  ∃ h', iput iderw ip (h, s) = Ok tt (h', put_inode ip (set_i_ref (i_ref i - 1) (set_i_lock (MkSl false 0) i)) s) ∧ ready p pr h'.
Proof using Type.
  intros Hr Hip Hlk Hk. unfold iput.
  rewrite -> (bind_ok _ _ _ _ _ (acquiresleep_free (inode_lockL ip) (inode_addr ip) p pr h s Hr ltac:(cbn; by rw Hip))).
  cbn [over inode_lockL]. rw (alter_slot s ip i _ Hip). set (j := set_i_lock (MkSl true pid) i). set (s1 := put_inode ip j s).
  pose proof (put_lookup ip j i s Hip) as Hj. fold s1 in Hj. pose proof (ready_settle _ _ _ Hr) as Hr1.
  rw (bind_ok _ _ _ _ _ (inode_at_run (settle h) s1 ip j Hj)).
  assert (∃ h2, (if i_valid j && (i_nlink j =? 0) then
     acquire icache_lock;; i ← inode_at ip;
     let r := i_ref i in release icache_lock;;
     if r =? 1 then itrunc iderw ip;; modinode ip (set_i_type 0);; iupdate iderw ip;; modinode ip (set_i_valid false) else mret tt
   else mret tt) (settle h, s1) = Ok tt (h2, s1) ∧ ready p pr h2) as (h2 & E2 & Hr2).
  { cbn [i_valid i_nlink j set_i_lock]. destruct (i_valid i && (i_nlink i =? 0)); [|by exists (settle h)].
    rw (bind_ok _ _ _ _ _ (ready_lock p pr _ _ s1 Hr1)) (bind_ok _ _ _ _ _ (inode_at_run _ s1 ip j Hj)). cbv zeta.
    rw (bind_ok _ _ _ _ _ (ready_unlock p pr _ _ s1 Hr1)). change (i_ref j) with (i_ref i). cbn [andb] in Hk. rw Hk.
    exists (settle (settle h)). split; [done|]. by apply ready_settle. }
  rw (bind_ok _ _ _ _ _ E2).
  rewrite -> (bind_ok _ _ _ _ _ (releasesleep_owner (inode_lockL ip) (inode_addr ip) p pr h2 s1 Hr2 ltac:(cbn; by rw Hj))).
  cbn [over inode_lockL]. rw (alter_slot s1 ip j _ Hj). unfold s1. rw put_put. set (h3 := wake_all _ _).
  assert (ready p pr h3) as Hr3 by (by apply ready_wake, ready_settle).
  rw (bind_ok _ _ _ _ _ (ready_lock p pr _ _ _ Hr3)) (bind_ok _ _ _ _ _ (modinode_run _ _ ip _ _ (put_lookup ip _ i s Hip))) put_put.
  rw (ready_unlock p pr _ _ _ Hr3). eexists. split; [done|]. by apply ready_settle.
Qed.

(** [iput] of an inode whose lock is taken. *)
Lemma iput_taken h s ip i :
  ready p pr h → fs_inodes s !! ip = Some i → sl_locked (i_lock i) = true →
  iput iderw ip (h, s) = Stop Switch (acq ptable_lock (upd_proc p (asleep (Some (inode_addr ip))) h), s).
Proof using Type.
  intros Hr Hip Hlk. unfold iput. apply bind_stop. apply (acquiresleep_taken (inode_lockL ip) (inode_addr ip) p pr); [done|]. cbn. by rw Hip.
Qed.

(** ** Adding an entry *)

(** What [dirlink] leaves when it adds the entry [inum], [name] at place [k]. *)
Record linked_entry (s : fsst) (V : Z → list Z) (L : list Z) (dp : nat) (i : inode) (k : nat) (name : list Z) (inum : Z)
    (s' : fsst) (V' : Z → list Z) (L' : list Z) (i' : inode) : Prop := {
  le_state : s' = set_fs_log (fs_log s') (put_inode dp i' s);
  le_loaded : loaded_file g pid s' V' L' dp i';
  le_dir : directory V' i';
  le_entries : entries V' i' = take k (entries V i) ++ (inum, cname DIRSIZ name) :: drop (S k) (entries V i);
  le_found : list_find (entry_is name) (entries V' i') = Some (k, (inum, cname DIRSIZ name));
  le_log : (length L' ≤ length L + Z.to_nat MAXOPBLOCKS)%nat;
  le_others : ∀ j, file_ok g (fs_sb s) V j → (∀ a, owns V i a → ¬ owns V j a) →
    file_ok g (fs_sb s) V' j ∧ (∀ bn, 0 ≤ bn < MAXFILE → fblock V' j bn = fblock V j bn) ∧ (∀ a, owns V' i' a → ¬ owns V' j a)
}.

Lemma dirlink_new h s V L dp i name inum :
  ready p pr h → loaded_file g pid s V L dp i → directory V i → 0 < inum < 65536 → bytes name →
  space g L (Z.to_nat MAXOPBLOCKS) → (4 ≤ nfree (fs_sb s) V)%nat → list_find (entry_is name) (entries V i) = None →
  let k := free_slot (entries V i) in
  if MAXFILE * BSIZE <? 16 * Z.of_nat k + 16
  then ∃ h' l', dirlink iderw dev_read dev_write dp name inum (h, s) = Stop (Panic "dirlink") (h', set_fs_log l' s)
  else ∃ h' s' V' i' L', dirlink iderw dev_read dev_write dp name inum (h, s) = Ok 0 (h', s') ∧ ready p pr h' ∧
    linked_entry s V L dp i k name inum s' V' L' i'.
Proof using HBD.
  intros Hr Hof Hd Hi Hby Hsp Hnf Hno k. pose proof Hd as [Hty Hsz].
  assert (cache_room L ∅ 1) as Hc by (eapply (space_cache g L _ ∅ 1); [exact Hsp|rw map_size_empty; lia]).
  destruct (dirlookup_run h s V L dp i name Hr Hof Hd Hc) as (h1 & l1 & Hr1 & Hof1 & E1). rw Hno in E1.
  unfold dirlink. rw (bind_ok _ _ _ _ _ E1) (bind_ok _ _ _ _ _ (inode_at_run _ _ dp i (of_slot _ _ _ _ _ _ _ Hof1))).
  pose proof (io_size _ (fk_inode _ _ _ _ (of_file _ _ _ _ _ _ _ Hof))) as Hs0. pose proof (proj1 (of_dense _ _ _ _ _ _ _ Hof)) as Hmax.
  assert (MAXFILE * BSIZE = 71680) as Emax by done.
  destruct (dirlink_loop_run V L dp i (Z.to_nat (i_size i / SIZEOF_DIRENT + 1)) h1 (set_fs_log l1 s) 0 Hr1 Hof1 Hd Hc) as (h2 & l2 & E2 & Hr2 & Hof2).
  { change SIZEOF_DIRENT with 16. pose proof (Z.div_pos (i_size i) 16 ltac:(lia) ltac:(done)). lia. } { lia. }
  change (16 * Z.of_nat 0) with 0 in E2. rw drop_0 in E2. cbn [Nat.add] in E2. fold k in E2. rw (bind_ok _ _ _ _ _ E2).
  change (set_fs_log l2 (set_fs_log l1 s)) with (set_fs_log l2 s) in *. set (s2 := set_fs_log l2 s) in *.
  assert (k ≤ Z.to_nat (i_size i / 16))%nat as Hk by (pose proof (free_slot_le (entries V i)) as H; unfold entries in H at 2; rw length_fmap length_seq in H; exact H).
  set (src := dirent_bytes inum (strncpy_bytes name DIRSIZ)).
  assert (length src = 16%nat) as Hlen by (unfold src, dirent_bytes; by rw length_app length_strncpy_bytes).
  pose proof (writei_file iderw p pr g dev_write h2 s2 V L dp i (16 * Z.of_nat k) src Hr2 Hof2) as Hw. cbv zeta in Hw. rewrite -> Hlen in Hw. change (Z.of_nat 16) with 16 in Hw.
  specialize (Hw ltac:(lia) ltac:(apply Forall_app; split; [apply bytes_le|by apply bytes_strncpy]) ltac:(done) Hsp Hnf). rewrite -> (proj2 (Z.ltb_ge (i_size i) _)) in Hw by lia. cbn [orb] in Hw.
  destruct (MAXFILE * BSIZE <? 16 * Z.of_nat k + 16) eqn:Efull.
  - exists h2, l2. by rw (bind_ok _ _ _ _ _ Hw).
  - destruct Hw as (h3 & l3 & V' & i' & L' & E3 & Hr3 & Hme & Hof3 & Hsz3 & Hfw & HL & Hoth). rw (bind_ok _ _ _ _ _ E3).
    exists h3, (set_fs_log l3 (put_inode dp i' s)), V', i', L'. split_and!; [done|done|].
    pose proof (entries_written V i V' i' k inum name Hd ltac:(lia) Hk) as Hent. apply Z.ltb_ge in Efull.
    specialize (Hent Efull Hmax Hsz3 ltac:(lia) Hfw). split; try done.
    + split; [by rewrite -> Hme|]. rw Hsz3. dlia.
    + rw Hent. apply find_added; [apply free_slot_le|lia|done].
Qed.

(** The name is there: the reference that [dirlookup] took is dropped again. *)
Lemma dirlink_present h s V L dp i name inum k e :
  ready p pr h → loaded_file g pid s V L dp i → directory V i → cache_room L ∅ 1 → list_find (entry_is name) (entries V i) = Some (k, e) →
  match iget_slot (fs_inodes s) 1 e.1 with
  | None => ∃ h' l', dirlink iderw dev_read dev_write dp name inum (h, s) = Stop (Panic "iget: no inodes") (h', set_fs_log l' s)
  | Some (ip, j) =>
      let j' := iget_inode 1 e.1 j in
      ∃ h' l', ready p pr h' ∧ dirlink iderw dev_read dev_write dp name inum (h, s) =
        if sl_locked (i_lock j)
        then Stop Switch (acq ptable_lock (upd_proc p (asleep (Some (inode_addr ip))) h'), set_fs_log l' (put_inode ip j' s))
        else Ok (-1) (h', set_fs_log l' (put_inode ip (set_i_ref (i_ref j' - 1) (set_i_lock (MkSl false 0) j')) s))
  end.
Proof using HBD.
  intros Hr Hof Hd Hc He. destruct (dirlookup_run h s V L dp i name Hr Hof Hd Hc) as (h1 & l1 & Hr1 & Hof1 & E1). rw He in E1. unfold dirlink.
  destruct (iget_slot (fs_inodes s) 1 e.1) as [[ip j]|] eqn:Es; [|eexists _, _; by rw (bind_stop _ _ _ _ _ E1)].
  cbv zeta. set (j' := iget_inode 1 e.1 j) in *. rw put_inode_log in E1. rw (bind_ok _ _ _ _ _ E1).
  destruct (iget_slot_lookup _ _ _ _ _ Es) as [Hj Hcase]. set (s1 := set_fs_log l1 (put_inode ip j' s)).
  assert (fs_inodes s1 !! ip = Some j') as Hj1 by (by eapply put_lookup). pose proof (ready_settle _ _ _ Hr1) as Hr2.
  assert (i_lock j' = i_lock j) as Hlk by (unfold j', iget_inode; by case_decide).
  destruct (sl_locked (i_lock j)) eqn:El.
  - exists (settle h1), l1. split; [done|]. apply bind_stop. apply (iput_taken _ _ _ j'); [done..|]. by rw Hlk.
  - destruct (iput_keep (settle h1) s1 ip j' Hr2 Hj1) as (h3 & E3 & Hr3); [by rw Hlk| |].
    + unfold j', iget_inode. case_decide as Hin; [|done]. destruct Hin as [Hpos _]. cbn [i_ref set_i_ref].
      rewrite -> (proj2 (Z.eqb_neq (i_ref j + 1) 1)) by lia. apply andb_false_r.
    + exists h3, l1. split; [done|]. rw (bind_ok _ _ _ _ _ E3). unfold s1. by rw put_inode_log put_put.
Qed.

(** ** Properties *)

(** C20: directories.  [dirlookup] finds the first entry in use with the name,
    cut at DIRSIZ bytes, and returns its offset and the slot of its inode with one reference
    more, or nothing when the name is not there.  [dirlink] puts a new name into the first
    empty entry or at the end, where [dirlookup] finds it, keeps every other entry,
    every other file and the reservation of the log, and panics when the
    directory is as large as a file can be.  A name that is there makes it return -1 with
    the references as they were, unless the inode of the entry is locked: then it sleeps.  The
    directory itself is locked by the caller, so linking a name whose entry is the
    directory, as [.] is, sleeps on a lock that the process itself holds. *)
Theorem directory_correct h s V L dp i name inum :
  ready p pr h → loaded_file g pid s V L dp i → directory V i → 0 < inum < 65536 → bytes name →
  space g L (Z.to_nat MAXOPBLOCKS) → (4 ≤ nfree (fs_sb s) V)%nat →
  let es := entries V i in
  (∃ h' l', ready p pr h' ∧ loaded_file g pid (set_fs_log l' s) V L dp i ∧
    dirlookup iderw dev_read dp name (h, s) =
      match list_find (entry_is name) es with
      | None => Ok None (h', set_fs_log l' s)
      | Some (k, e) =>
          match iget_slot (fs_inodes s) 1 e.1 with
          | Some (ip, j) => Ok (Some (ip, 16 * Z.of_nat k)) (settle h', put_inode ip (iget_inode 1 e.1 j) (set_fs_log l' s))
          | None => Stop (Panic "iget: no inodes") (acq icache_lock h', set_fs_log l' s)
          end
      end) ∧
  (list_find (entry_is name) es = None →
    if MAXFILE * BSIZE <? 16 * Z.of_nat (free_slot es) + 16
    then ∃ h' l', dirlink iderw dev_read dev_write dp name inum (h, s) = Stop (Panic "dirlink") (h', set_fs_log l' s)
    else ∃ h' s' V' i' L', dirlink iderw dev_read dev_write dp name inum (h, s) = Ok 0 (h', s') ∧ ready p pr h' ∧
      linked_entry s V L dp i (free_slot es) name inum s' V' L' i') ∧
  (∀ k e ip j, list_find (entry_is name) es = Some (k, e) → iget_slot (fs_inodes s) 1 e.1 = Some (ip, j) →
    let j' := iget_inode 1 e.1 j in
    ∃ h' l', ready p pr h' ∧ dirlink iderw dev_read dev_write dp name inum (h, s) =
      if sl_locked (i_lock j)
      then Stop Switch (acq ptable_lock (upd_proc p (asleep (Some (inode_addr ip))) h'), set_fs_log l' (put_inode ip j' s))
      else Ok (-1) (h', set_fs_log l' (put_inode ip (set_i_ref (i_ref j' - 1) (set_i_lock (MkSl false 0) j')) s))).
Proof using HBD.
  intros Hr Hof Hd Hi Hby Hsp Hnf es.
  assert (cache_room L ∅ 1) as Hc by (eapply (space_cache g L _ ∅ 1); [exact Hsp|rw map_size_empty; lia]).
  split_and!; [by apply dirlookup_run|by apply dirlink_new|].
  intros k e ip j He Hs. pose proof (dirlink_present h s V L dp i name inum k e Hr Hof Hd Hc He) as H. by rw Hs in H.
Qed.
End dir.

(** ** The property on the small file system *)

Lemma ex_entries : entries ex_V ex_root = [(1, [46]); (1, [46; 46])].
Proof. by vm_compute. Qed.

(** Linking the name [a] into the root directory, and linking [.]. *)
Lemma directory_correct_witness :
  ∃ b, (∃ h' s' V' i', dirlink memide_iderw (λ _, None) (λ _, None) 0 [97; 0] 3 (ex_machine, ex_fs b) = Ok 0 (h', s') ∧
      entries V' i' = [(1, [46]); (1, [46; 46]); (3, [97])]) ∧
    ∃ h' s', dirlink memide_iderw (λ _, None) (λ _, None) 0 [46; 0] 3 (ex_machine, ex_fs b)
      = Stop Switch (acq ptable_lock (upd_proc 0 (asleep (Some (inode_addr 0))) h'), s').
Proof.
  destruct ex_open as (b & Hof). exists b.
  pose proof (λ name (Hb : bytes name), directory_correct memide_iderw 0 ex_running ex_geo (λ _, None) (λ _, None) ex_machine (ex_fs b) ex_V [] 0
    ex_root name 3 ex_machine_running Hof ltac:(by split) ltac:(lia) Hb ex_space ltac:(vm_compute; lia)) as Hdir. cbv zeta in Hdir.
  split.
  - destruct (Hdir [97; 0] ltac:(by repeat constructor)) as (_ & Hn & _). rw ex_entries in Hn.
    destruct (Hn eq_refl) as (h' & s' & V' & i' & L' & E & _ & Hl). exists h', s', V', i'. split; [exact E|].
    rw (le_entries _ _ _ _ _ _ _ _ _ _ _ _ _ _ Hl) ex_entries. reflexivity.
  - destruct (Hdir [46; 0] ltac:(by repeat constructor)) as (_ & _ & Hp). rw ex_entries in Hp.
    destruct (Hp 0%nat (1, [46]) 0%nat ex_root eq_refl eq_refl) as (h' & l' & _ & E). eexists h', _. exact E.
Defined.
