(* ===== verification/Namei.v ===== *)
(** * Path names: [skipelem] and [namex] of fs.c

    A path denotes a list of names; a lookup walks through the directories on
    the disk with one inode of the table at a time. *)

From S2P Require Import Prelude Machine Spinlock Console Mem CString Kalloc Sched Sleeplock Ring Bytes Bio Cache Log Recovery Txn Fs FsView Balloc Inode Content File Rdwr Dir.

(** ** The names of a path *)

Definition flush (cur : list Z) : list (list Z) := match cur with [] => [] | _ => [cur] end.

(** The names in the string [path], after the characters [cur]. *)
Fixpoint names_from (cur path : list Z) : list (list Z) :=
  match path with
  | [] => flush cur
  | c :: path => if c =? 0 then flush cur else if c =? 47 then flush cur ++ names_from [] path else names_from (cur ++ [c]) path
  end.
Definition names (path : list Z) : list (list Z) := names_from [] path.

Lemma names_slashes path : names (skip_slashes path) = names path.
Proof.
  induction path as [|c path IH]; [done|]. cbn [skip_slashes]. destruct (Z.eqb_spec c 47) as [->|]; [|done]. rw IH. done.
Qed.

Lemma take_elem_spec path : ∀ cur,
  let '(e, r) := take_elem path in
  names_from cur path = flush (cur ++ e) ++ names r ∧ (length e + length r)%nat = length path ∧ (0 ∉ e) ∧
  (match path with c :: _ => (c =? 47) || (c =? 0) | [] => true end = false → e ≠ []).
Proof.
  induction path as [|c path IH]; intros cur; cbn [take_elem names_from].
  { rw !app_nil_r. split_and!; [done|done|apply not_elem_of_nil|done]. }
  destruct (Z.eqb_spec c 47) as [->|Hc]; [|destruct (Z.eqb_spec c 0) as [->|Hc0]]; cbn [orb].
  - rw app_nil_r. split_and!; [done|done|apply not_elem_of_nil|done].
  - rw app_nil_r. unfold names. cbn. rw app_nil_r. split_and!; [done|done|apply not_elem_of_nil|done].
  - specialize (IH (cur ++ [c])). destruct (take_elem path) as [e r]. destruct IH as (E & Hl & Hn & _). rw E -app_assoc. cbn [app length].
    split_and!; [done|lia| |done]. apply not_elem_of_cons. split; [by apply not_eq_sym|done].
Qed.

Lemma skip_slashes_head path : byte0 (skip_slashes path) ≠ 47 ∧ (length (skip_slashes path) ≤ length path)%nat.
Proof.
  induction path as [|c path IH]; [done|]. cbn [skip_slashes length]. destruct (Z.eqb_spec c 47) as [->|Hc]; [split; [apply IH|destruct IH; lia]|done].
Qed.

(** The end of a path that does not begin with a slash. *)
Lemma names_end path : byte0 path ≠ 47 → (byte0 path =? 0) = bool_decide (names path = []).
Proof.
  intros Hs. destruct path as [|c path]; [done|]. cbn in *. unfold names. cbn. destruct (Z.eqb_spec c 0) as [->|Hc]; [done|].
  rewrite -> (proj2 (Z.eqb_neq c 47)) by done. symmetry. apply bool_decide_eq_false_2.
  pose proof (take_elem_spec path [c]) as H. destruct (take_elem path) as [e r]. destruct H as (-> & _). done.
Qed.

(** A name in the buffer of DIRSIZ bytes. *)
Lemma cname_take n e k : 0 ∉ e → (length e < n)%nat → cname n (e ++ [0] ++ k) = e.
Proof.
  revert n. induction e as [|c e IH]; intros [|n] H0 Hl; cbn [app length] in *; try lia; [done|].
  apply not_elem_of_cons in H0 as [Hc H0]. rw cname_cons. rewrite -> (proj2 (Z.eqb_neq c 0)) by lia. f_equal. apply IH; [done|lia].
Qed.
Lemma cname_full n e : 0 ∉ e → cname n e = take n e.
Proof.
  revert n. induction e as [|c e IH]; intros [|n] H0; [done..|].
  apply not_elem_of_cons in H0 as [Hc H0]. rw cname_cons. rewrite -> (proj2 (Z.eqb_neq c 0)) by lia. cbn. f_equal. by apply IH.
Qed.
Lemma cname_cut n e k : (n ≤ length e)%nat → cname n (take n e ++ k) = cname n e.
Proof. intros Hl. unfold cname. rewrite -> take_app_le, take_take, Nat.min_id by (rw length_take; lia). done. Qed.

(** [skipelem] takes the first name off the path. *)
Lemma skipelem_names path name :
  match skipelem path name with
  | None => names path = []
  | Some (rest, name') => ∃ e, names path = e :: names rest ∧ cname DIRSIZ name' = cname DIRSIZ e ∧
      byte0 rest ≠ 47 ∧ (length rest < length path)%nat
  end.
Proof.
  unfold skipelem. pose proof (skip_slashes_head path) as [Hs Hlen]. set (p := skip_slashes path) in *.
  rewrite -> (names_end p Hs). case_bool_decide as Hnil; [by rw -(names_slashes path)|].
  pose proof (take_elem_spec p []) as H. destruct (take_elem p) as [e r] eqn:Et. destruct H as (E & Hl & H0 & Hne).
  assert (e ≠ []) as He.
  { apply Hne. destruct p as [|c p']; [done|]. cbn in Hs. rewrite -> (proj2 (Z.eqb_neq c 47)) by done. cbn [orb]. apply Z.eqb_neq. intros ->. by apply Hnil. }
  exists e. destruct (skip_slashes_head r) as [Hs2 Hl2]. split_and!.
  - rw names_slashes -(names_slashes path). unfold names at 1. fold p. rw E app_nil_l. destruct e; [done|]. done.
  - case_bool.
    + by apply cname_cut; lia.
    + rw cname_take; [done|lia|]. symmetry. rewrite -> cname_full by done. apply take_ge. lia.
  - done.
  - assert (0 < length e)%nat by (destruct e; [done|cbn; lia]). lia.
Qed.

(** ** The tree on the disk *)

(** Inode [n] of the disk, as a slot of the table could hold it. *)
Definition dino (sb : superblock) (V : Z → list Z) (n : Z) : inode :=
  disk_inode sb V n (MkInode 1 n 0 (MkSl false 0) true 0 0 0 0 0 []).

Definition alive (sb : superblock) (V : Z → list Z) (n : Z) : Prop :=
  0 ≤ n < sb_ninodes sb ∧ i_type (dino sb V n) ≠ 0 ∧ i_nlink (dino sb V n) ≠ 0.

(** Every file in use is in order, and the entries of directories are files in use. *)
Record tree_ok (g : geometry) (sb : superblock) (V : Z → list Z) : Prop := {
  to_fs : fs_ok g sb V;
  to_file : ∀ n, alive sb V n → file_ok g sb V (dino sb V n) ∧ dense V (dino sb V n);
  to_dir : ∀ n, alive sb V n → i_type (dino sb V n) = T_DIR → directory V (dino sb V n);
  to_entry : ∀ n e, alive sb V n → i_type (dino sb V n) = T_DIR → e ∈ entries V (dino sb V n) → e.1 ≠ 0 → alive sb V e.1;
  to_root : alive sb V ROOTINO
}.

(** The inode that the names denote from inode [n]; with [parent] the directory
    of the last name. *)
Fixpoint walk (sb : superblock) (V : Z → list Z) (parent : bool) (n : Z) (ns : list (list Z)) : option Z :=
  match ns with
  | [] => if parent then None else Some n
  | e :: ns =>
      if negb (i_type (dino sb V n) =? T_DIR) then None else
      if parent && bool_decide (ns = []) then Some n else
      match list_find (entry_is e) (entries V (dino sb V n)) with
      | Some (_, x) => walk sb V parent x.1 ns
      | None => None
      end
  end.

(** ** The table of inodes *)

(** The references to inode [n] of the disk, and the free slots. *)
Definition tally (f : inode → Z) (l : list inode) : Z := foldr (λ i n, f i + n) 0 l.
Definition refs (n : Z) : list inode → Z := tally (λ i, if decide (i_dev i = 1 ∧ i_inum i = n) then i_ref i else 0).
Definition free_slots : list inode → Z := tally (λ i, if decide (i_ref i = 0) then 1 else 0).

Record table_ok (sb : superblock) (V : Z → list Z) (l : list inode) : Prop := {
  tb_ref : ∀ ip i, l !! ip = Some i → 0 ≤ i_ref i;
  tb_lock : ∀ ip i, l !! ip = Some i → sl_locked (i_lock i) = false;
  tb_valid : ∀ ip i, l !! ip = Some i → 0 < i_ref i → i_dev i = 1 → i_valid i = true → synced sb V i;
  tb_once : ∀ ip ip' i i', l !! ip = Some i → l !! ip' = Some i' → 0 < i_ref i → 0 < i_ref i' →
    i_dev i = i_dev i' → i_inum i = i_inum i' → ip = ip'
}.

Lemma tally_insert f l k x y : l !! k = Some x → tally f (<[k := y]> l) = tally f l - f x + f y.
Proof.
  revert k. induction l as [|z l IH]; intros [|k] Hk; [done..| |].
  - injection Hk as ->. cbn. lia.
  - change (f z + tally f (<[k := y]> l) = f z + tally f l - f x + f y). rewrite -> (IH k Hk). lia.
Qed.

Lemma tally_pos f l : (∀ i, 0 ≤ f i) → 0 < tally f l → ∃ k i, l !! k = Some i ∧ 0 < f i.
Proof.
  intros Hf. induction l as [|z l IH]; [by cbn|]. change (tally f (z :: l)) with (f z + tally f l). intros H. destruct (Z.lt_ge_cases 0 (f z)) as [Hz|Hz].
  - by exists 0%nat, z.
  - pose proof (Hf z). destruct IH as (k & i & Hk & Hi); [lia|]. by exists (S k), i.
Qed.

(** The changes of the table. *)

Lemma table_insert sb V l ip i y :
  table_ok sb V l → l !! ip = Some i → 0 ≤ i_ref y → sl_locked (i_lock y) = false →
  (0 < i_ref y → i_dev y = 1 → i_valid y = true → synced sb V y) →
  (0 < i_ref y → ∀ ip' i', ip' ≠ ip → l !! ip' = Some i' → 0 < i_ref i' → i_dev y = i_dev i' → i_inum y ≠ i_inum i') →
  table_ok sb V (<[ip := y]> l).
Proof.
  intros [H1 H2 H3 H4] Hip Hr Hl Hv Ho. pose proof (lookup_lt_Some _ _ _ Hip) as Hlt. split.
  - intros k x Hk. apply list_lookup_insert_Some in Hk as [(<- & <- & _)|[_ Hk]]; [done|by eapply H1].
  - intros k x Hk. apply list_lookup_insert_Some in Hk as [(<- & <- & _)|[_ Hk]]; [done|by eapply H2].
  - intros k x Hk. apply list_lookup_insert_Some in Hk as [(<- & <- & _)|[_ Hk]]; [done|by eapply H3].
  - intros k k' x x' Hk Hk' Hx Hx' Hd Hi.
    apply list_lookup_insert_Some in Hk as [(<- & <- & _)|[Hne Hk]]; apply list_lookup_insert_Some in Hk' as [(<- & <- & _)|[Hne' Hk']].
    + done.
    + exfalso. by eapply (Ho Hx k' x').
    + exfalso. by eapply (Ho Hx' k x).
    + by eapply (H4 k k' x x').
Qed.

(** The same inode with other contents. *)
Lemma table_reload sb V l ip i y :
  table_ok sb V l → l !! ip = Some i → i_ref y = i_ref i → i_dev y = i_dev i → i_inum y = i_inum i → sl_locked (i_lock y) = false →
  (i_dev y = 1 → i_valid y = true → synced sb V y) → table_ok sb V (<[ip := y]> l).
Proof.
  intros HT Hip Hr Hd Hi Hl Hv. eapply table_insert; try done; [rw Hr; by eapply (tb_ref _ _ _ HT)|].
  intros Hy ip' i' Hne Hk Hi' Ed E. apply Hne. eapply (tb_once _ _ _ HT ip' ip i' i); try done; congruence || lia.
Qed.

Lemma refs_same n l ip i y : l !! ip = Some i → i_ref y = i_ref i → i_dev y = i_dev i → i_inum y = i_inum i →
  refs n (<[ip := y]> l) = refs n l ∧ free_slots (<[ip := y]> l) = free_slots l.
Proof.
  intros Hip E1 E2 E3. unfold refs, free_slots. rewrite -> !(tally_insert _ _ _ _ _ Hip). cbv beta. rw E1 E2 E3. lia.
Qed.

(** [iput]: one reference less. *)
Lemma table_put sb V l ip i :
  table_ok sb V l → l !! ip = Some i → 1 ≤ i_ref i → i_dev i = 1 →
  let l' := <[ip := set_i_ref (i_ref i - 1) i]> l in
  table_ok sb V l' ∧ (∀ n, refs n l' = refs n l - if decide (n = i_inum i) then 1 else 0) ∧
  free_slots l' = free_slots l + if decide (i_ref i = 1) then 1 else 0.
Proof.
  intros HT Hip Hr Hd l'. split_and!.
  - eapply table_insert; try done; cbn.
    + lia.
    + by eapply (tb_lock _ _ _ HT).
    + intros _ _ Hv. exact (tb_valid _ _ _ HT ip i Hip ltac:(lia) Hd Hv).
    + intros _ ip' i' Hne Hk Hi' Ed E. apply Hne. eapply (tb_once _ _ _ HT ip' ip i' i); try done; congruence || lia.
  - intros n. unfold l', refs. rewrite -> (tally_insert _ _ _ _ _ Hip). cbn [i_dev i_inum i_ref set_i_ref]. repeat case_decide; naive_solver lia.
  - unfold l', free_slots. rewrite -> (tally_insert _ _ _ _ _ Hip). cbn [i_ref set_i_ref]. repeat case_decide; lia.
Qed.

(** [iget]: one reference more. *)
Lemma table_get sb V l n :
  table_ok sb V l → 1 ≤ free_slots l →
  ∃ ip j, iget_slot l 1 n = Some (ip, j) ∧ l !! ip = Some j ∧
    let j' := iget_inode 1 n j in let l' := <[ip := j']> l in
    table_ok sb V l' ∧ (∀ m, refs m l' = refs m l + if decide (m = n) then 1 else 0) ∧ i_dev j' = 1 ∧ i_inum j' = n ∧ 1 ≤ i_ref j' ∧
    free_slots l' = free_slots l - (if decide (i_ref j' = 1) then 1 else 0).
Proof.
  intros HT Hf. assert (∃ ip j, iget_slot l 1 n = Some (ip, j)) as (ip & j & Es).
  { unfold iget_slot. destruct (list_find (is_inode 1 n) l) as [[ip j]|]; [by exists ip, j|].
    destruct (tally_pos (λ i, if decide (i_ref i = 0) then 1 else 0) l) as (k & i & Hk & Hi); [intros; by case_decide|unfold free_slots in Hf; lia|].
    destruct (list_find (λ i, i_ref i = 0) l) as [[ip j]|] eqn:E; [by exists ip, j|]. apply list_find_None in E. rewrite -> Forall_lookup in E.
    specialize (E k i Hk). cbn in E. by rewrite -> decide_False in Hi by done. }
  exists ip, j. split; [done|]. destruct (iget_slot_lookup _ _ _ _ _ Es) as [Hj Hcase]. split; [done|]. intros j' l'.
  pose proof (tb_lock _ _ _ HT ip j Hj) as Hlk. unfold l', refs, free_slots. setoid_rewrite (tally_insert _ _ _ _ _ Hj). cbv beta.
  unfold j', iget_inode in *. destruct (decide (is_inode 1 n j)) as [(Hr & Hd & Hi)|Hno].
  - cbn [i_dev i_inum i_ref set_i_ref]. split_and!; try done; [|intros m; repeat case_decide; naive_solver lia|lia|repeat case_decide; lia].
    eapply table_insert; try done; cbn; [lia| |].
    + intros _ _ Hv. exact (tb_valid _ _ _ HT ip j Hj Hr Hd Hv).
    + intros _ ip' i' Hne Hk Hi' Ed E. apply Hne. eapply (tb_once _ _ _ HT ip' ip i' j); done || congruence.
  - destruct Hcase as [?|H0]; [done|]. cbn [i_dev i_inum i_ref set_i_ref set_i_valid set_i_inum set_i_dev].
    split_and!; try done; [|intros m; repeat case_decide; naive_solver lia|repeat case_decide; lia].
    eapply table_insert; try done. cbn. intros _ ip' i' _ Hk Hi' Ed E. unfold iget_slot in Es.
    destruct (list_find (is_inode 1 n) l) as [[k x]|] eqn:El.
    + injection Es as -> ->. apply list_find_Some in El as (_ & ? & _). done.
    + apply list_find_None in El. rewrite -> Forall_lookup in El. by apply (El ip' i' Hk).
Qed.

(** A step of the walk: the next inode is taken before the last one is dropped. *)
Lemma table_step sb V l ip i m :
  table_ok sb V l → l !! ip = Some i → 1 ≤ i_ref i → i_dev i = 1 → 2 ≤ free_slots l + (if decide (i_ref i = 1) then 1 else 0) →
  ∃ ip' j, iget_slot l 1 m = Some (ip', j) ∧
    let y := if decide (ip' = ip) then iget_inode 1 m j else i in
    let l' := <[ip := set_i_ref (i_ref y - 1) y]> (<[ip' := iget_inode 1 m j]> l) in
    table_ok sb V l' ∧ (∀ n, refs n l' = refs n l + (if decide (n = m) then 1 else 0) - (if decide (n = i_inum i) then 1 else 0)) ∧
    ∃ z, l' !! ip' = Some z ∧ 1 ≤ i_ref z ∧ i_dev z = 1 ∧ i_inum z = m ∧ 2 ≤ free_slots l' + (if decide (i_ref z = 1) then 1 else 0).
Proof.
  intros HT Hip Hr Hd Hsp. destruct (table_get sb V l m HT) as (ip' & j & Es & Hj & H); [case_decide; lia|]. exists ip', j. split; [done|].
  cbv zeta in H. set (j' := iget_inode 1 m j) in *. destruct H as (HT1 & Hrefs1 & Hd1 & Hi1 & Hr1 & Hf1).
  pose proof (lookup_lt_Some _ _ _ Hip) as Hlt. destruct (decide (ip' = ip)) as [->|Hne]; cbv zeta.
  - assert (j = i) as -> by congruence. assert (j' = set_i_ref (i_ref i + 1) i ∧ i_inum i = m) as [Ej Em].
    { destruct (iget_slot_lookup _ _ _ _ _ Es) as [_ [Hin|?]]; [|lia]. unfold j', iget_inode. rewrite -> decide_True by done. split; [done|apply Hin]. }
    destruct (table_put sb V (<[ip := j']> l) ip j' HT1) as (HT2 & Hrefs2 & Hf2); [by rw list_lookup_insert_eq|done|done|].
    split_and!; [done|intros n; rewrite -> Hrefs2, Hrefs1, Hi1, Em; lia|]. eexists. split; [by rewrite -> list_lookup_insert_eq by (by rw length_insert)|].
    rewrite -> Hf2, Hf1, Ej. cbn [i_ref i_dev i_inum set_i_ref]. repeat case_decide; split_and!; lia || done.
  - destruct (table_put sb V (<[ip' := j']> l) ip i HT1) as (HT2 & Hrefs2 & Hf2); [by rw list_lookup_insert_ne|done|done|].
    split_and!; [done|intros n; rewrite -> Hrefs2, Hrefs1; lia|]. exists j'. split.
    { rewrite -> list_lookup_insert_ne by done. rewrite -> list_lookup_insert_eq by (by eapply lookup_lt_Some). done. }
    rewrite -> Hf2, Hf1. repeat case_decide; split_and!; lia || done.
Qed.

Lemma refs_back (r x n : Z) : r = r - (if decide (x = n) then 1 else 0) + (if decide (Some n = Some x) then 1 else 0).
Proof. repeat case_decide; naive_solver lia. Qed.

(** The search for a slot does not look at the locks. *)
Lemma find_relock (P : inode → Prop) `{!∀ i, Decision (P i)} l ip x y :
  (P x ↔ P y) → list_find P (<[ip := x]> l) = (λ r : nat * inode, (r.1, if decide (r.1 = ip) then x else r.2)) <$> list_find P (<[ip := y]> l).
Proof.
  intros HP. revert ip. induction l as [|z l IH]; intros ip; [done|]. destruct ip as [|ip]; cbn [insert list_insert list_find].
  - destruct (decide (P x)), (decide (P y)); try naive_solver. destruct (list_find P l) as [[]|]; done.
  - destruct (decide (P z)); [done|]. rw IH. destruct (list_find P (<[ip := y]> l)) as [[k r]|]; cbn; [|done].
    do 2 f_equal. destruct (decide (k = ip)), (decide (S k = S ip)); done || lia.
Qed.

Lemma iget_relock l ip x y m ip' j :
  i_ref x = i_ref y → i_dev x = i_dev y → i_inum x = i_inum y →
  iget_slot (<[ip := y]> l) 1 m = Some (ip', j) → iget_slot (<[ip := x]> l) 1 m = Some (ip', if decide (ip' = ip) then x else j).
Proof.
  intros E1 E2 E3. unfold iget_slot.
  rw (find_relock (is_inode 1 m) l ip x y); [unfold is_inode; by rw E1 E2 E3|]. rw (find_relock (λ i, i_ref i = 0) l ip x y); [by rw E1|].
  destruct (list_find (is_inode 1 m) _) as [[k r]|]; cbn; [by intros [= -> ->]|].
  destruct (list_find (λ i, i_ref i = 0) _) as [[k r]|]; cbn; [by intros [= -> ->]|done].
Qed.

(** ** One inode of the walk *)

(** An inode and the disk hold the same file. *)
Lemma synced_dino sb V i : synced sb V i → dino sb V (i_inum i) = with_fields i (MkInode 1 (i_inum i) 0 (MkSl false 0) true 0 0 0 0 0 []).
Proof. intros Hs. apply Hs. Qed.

Lemma file_fields g sb V i j : file_ok g sb V (with_fields i j) → file_ok g sb V i.
Proof. intros [[H1 H2 H3 H4 H5 H6] Hb Hi Hn]. split; [by split|exact Hb|exact Hi|exact Hn]. Qed.

Section walk.
Context (iderw : nat → K bst unit) `{HBD : !BlockDev iderw} (p : nat) (pr : proc) (g : geometry).
Context (dev_read : Z → option (nat → Z → K fsst (Z * list Z))).
Abbreviation pid := (p_pid pr).

(** The process has a reference to inode [n] in slot [ip], and two slots are free or will be
    when it drops it. *)
Record stands (h : hw) (s : fsst) (V : Z → list Z) (L : list Z) (ip : nat) (i : inode) (n : Z) : Prop := {
  st_ready : ready p pr h;
  st_view : lview g pid (fs_log s) V ∅ L;
  st_room : cache_room L ∅ 1;
  st_tree : tree_ok g (fs_sb s) V;
  st_table : table_ok (fs_sb s) V (fs_inodes s);
  st_slot : fs_inodes s !! ip = Some i;
  st_ref : 1 ≤ i_ref i;
  st_dev : i_dev i = 1;
  st_inum : i_inum i = n;
  st_alive : alive (fs_sb s) V n;
  st_spare : 2 ≤ free_slots (fs_inodes s) + if decide (i_ref i = 1) then 1 else 0
}.

Lemma locked_synced sb V i : (i_valid i = true → synced sb V i) → synced sb V (locked_inode pr sb V i).
Proof using Type.
  intros Hs. unfold locked_inode. destruct (i_valid i); [|done]. intros j. exact (Hs eq_refl j).
Qed.

(** [ilock] of that inode. *)
Lemma ilock_stands h s V L ip i n :
  stands h s V L ip i n →
  let i1 := locked_inode pr (fs_sb s) V i in
  ∃ h1 l1, ilock iderw (Some ip) (h, s) = Ok tt (h1, set_fs_log l1 (put_inode ip i1 s)) ∧ ready p pr h1 ∧ lview g pid l1 V ∅ L ∧
    i_lock i1 = MkSl true pid ∧ i_valid i1 = true ∧ i_ref i1 = i_ref i ∧ i_dev i1 = 1 ∧ i_inum i1 = n ∧ synced (fs_sb s) V i1.
Proof using HBD.
  intros [Hr Hv Hc HT Htb Hip Href Hdev Hin [Hrange [Hty Hnl]] Hsp] i1. subst n.
  assert (synced (fs_sb s) V i1) as Hs by (apply locked_synced; intros Hvalid; exact (tb_valid _ _ _ Htb ip i Hip ltac:(lia) Hdev Hvalid)).
  assert (i_lock i1 = MkSl true pid ∧ i_valid i1 = true ∧ i_ref i1 = i_ref i ∧ i_dev i1 = 1 ∧ i_inum i1 = i_inum i) as (E1 & E2 & E3 & E4 & E5).
  { unfold i1, locked_inode. destruct (i_valid i) eqn:Ev; [by split_and!|]. by split_and!. }
  destruct (ilock_run iderw p pr g h s V ∅ L ip i Hr Hv (fo_ib _ _ _ (to_fs _ _ _ HT)) Hip Href (tb_lock _ _ _ Htb ip i Hip) Hdev Hrange) as (h1 & l1 & Hr1 & Hv1 & E);
    [by intros ? ? ?|done|]. fold i1 in E.
  exists h1, l1. split_and!; try done. cbv zeta in E. rw E.
  assert (i_type i1 = i_type (dino (fs_sb s) V (i_inum i))) as ->.
  { rw -E5 (synced_dino _ _ _ Hs). done. }
  rewrite -> (proj2 (Z.eqb_neq _ _) Hty), andb_false_r. done.
Qed.

Lemma iunlockput_run h s ip x :
  ready p pr h → fs_inodes s !! ip = Some x → i_lock x = MkSl true pid → 1 ≤ i_ref x → i_nlink x ≠ 0 →
  ∃ h', iunlockput iderw ip (h, s) = Ok tt (h', put_inode ip (set_i_ref (i_ref x - 1) (set_i_lock (MkSl false 0) x)) s) ∧ ready p pr h'.
Proof using Type.
  intros Hr Hx Hl Href Hn. unfold iunlockput. pose proof (iunlock_run p pr h s ip x Hr Hx Href) as E. rw Hl Z.eqb_refl in E. cbn [sl_locked andb sl_pid] in E.
  destruct E as (h1 & E1 & Hr1). rw (bind_ok _ _ _ _ _ E1).
  destruct (iput_keep iderw p pr h1 (put_inode ip (set_i_lock (MkSl false 0) x) s) ip _ Hr1 (put_lookup _ _ _ _ Hx)) as (h2 & E2 & Hr2); [done| |].
  - cbn [i_nlink set_i_lock]. rewrite -> (proj2 (Z.eqb_neq _ _) Hn). by rw andb_false_r.
  - exists h2. split; [|done]. rw E2 put_put. done.
Qed.

(** The table after the reference to the inode was dropped, or its contents loaded. *)
Lemma stands_load h s V L ip i n x :
  stands h s V L ip i n → i_ref x = i_ref i → i_dev x = 1 → i_inum x = n → sl_locked (i_lock x) = false →
  (i_valid x = true → synced (fs_sb s) V x) →
  let l := <[ip := x]> (fs_inodes s) in
  table_ok (fs_sb s) V l ∧ l !! ip = Some x ∧ (∀ m, refs m l = refs m (fs_inodes s)) ∧ free_slots l = free_slots (fs_inodes s).
Proof using Type.
  intros [Hr Hv Hc HT Htb Hip Href Hdev Hin Ha Hsp] E1 E2 E3 Hl Hs l. subst n. rw -Hdev in E2. split_and!.
  - eapply table_reload; try done.
  - apply list_lookup_insert_eq. by eapply lookup_lt_Some.
  - intros m. apply (refs_same m _ ip i x); done.
  - apply (refs_same 0 _ ip i x); done.
Qed.

Lemma stands_drop h s V L ip i n x :
  stands h s V L ip i n → i_ref x = i_ref i → i_dev x = 1 → i_inum x = n → sl_locked (i_lock x) = false →
  (i_valid x = true → synced (fs_sb s) V x) →
  let l := <[ip := set_i_ref (i_ref x - 1) x]> (fs_inodes s) in
  table_ok (fs_sb s) V l ∧ (∀ m, refs m l = refs m (fs_inodes s) - if decide (m = n) then 1 else 0).
Proof using Type.
  intros Hst E1 E2 E3 Hl Hs l. destruct (stands_load h s V L ip i n x Hst E1 E2 E3 Hl Hs) as (HT & Hx & Hrefs & _).
  destruct (table_put _ _ _ ip x HT Hx) as (HT2 & Hr2 & _); [rw E1; apply (st_ref _ _ _ _ _ _ _ Hst)|done|].
  rewrite -> list_insert_insert_eq in HT2. split; [done|]. intros m. specialize (Hr2 m). rewrite -> list_insert_insert_eq in Hr2.
  unfold l. by rewrite -> Hr2, Hrefs, E3.
Qed.

(** ** The walk *)

(** [namex] from inode [n], with the result [r]. *)
Record arrives (V : Z → list Z) (L : list Z) (s : fsst) (n : Z) (r : option Z) (o : option nat) (h' : hw) (s' : fsst) : Prop := {
  ar_result : match r with
    | Some m => ∃ ip' i', o = Some ip' ∧ stands h' s' V L ip' i' m
    | None => o = None ∧ ready p pr h' ∧ lview g pid (fs_log s') V ∅ L ∧ table_ok (fs_sb s') V (fs_inodes s')
    end;
  ar_sb : fs_sb s' = fs_sb s;
  ar_refs : ∀ x, refs x (fs_inodes s') = refs x (fs_inodes s) - (if decide (x = n) then 1 else 0) + (if decide (r = Some x) then 1 else 0)
}.

Lemma arrives_none h s V L ip i n x l' h' :
  stands h s V L ip i n → i_ref x = i_ref i → i_dev x = 1 → i_inum x = n → sl_locked (i_lock x) = false →
  (i_valid x = true → synced (fs_sb s) V x) → ready p pr h' → lview g pid l' V ∅ L →
  arrives V L s n None None h' (set_fs_log l' (put_inode ip (set_i_ref (i_ref x - 1) x) s)).
Proof using Type.
  intros Hst E1 E2 E3 Hl Hs Hr' Hv'. destruct (stands_drop h s V L ip i n x Hst E1 E2 E3 Hl Hs) as [HT Hrefs].
  split; [by split_and!|done|]. intros m. cbn [fs_inodes set_fs_log put_inode set_fs_inodes]. rewrite -> Hrefs, (decide_False (P := None = Some m)) by done. lia.
Qed.

(** The locked inode of a directory. *)
Lemma locked_dir h s V L ip i n i1 l1 :
  stands h s V L ip i n → lview g pid l1 V ∅ L → i_dev i1 = 1 → i_inum i1 = n → synced (fs_sb s) V i1 → i_type (dino (fs_sb s) V n) = T_DIR →
  loaded_file g pid (set_fs_log l1 (put_inode ip i1 s)) V L ip i1 ∧ directory V i1 ∧ entries V i1 = entries V (dino (fs_sb s) V n).
Proof using Type.
  intros [Hr Hv Hc HT Htb Hip Href Hdev Hin Ha Hsp] Hv1 E1 E2 Hs Hd. pose proof (synced_dino _ _ _ Hs) as Ed. rw E2 in Ed.
  destruct (to_file _ _ _ HT n Ha) as [Hf Hde]. pose proof (to_dir _ _ _ HT n Ha Hd) as [Hdt Hds]. rw Ed in Hf. rw Ed in Hde. rw Ed in Hdt. rw Ed in Hds.
  split_and!; [|by split|by rw Ed]. split; try done.
  - apply HT.
  - by eapply file_fields.
  - by eapply put_lookup.
  - cbn. rw E2. apply Ha.
  - cbn in Hdt. rw Hdt. done.
Qed.

(** The step to the next directory. *)
Lemma walk_step h s V L ip i n name k x i1 h1 l1 {A} (fail : K fsst A) (cont : nat → K fsst A) :
  stands h s V L ip i n → ready p pr h1 → lview g pid l1 V ∅ L → i_lock i1 = MkSl true pid → i_valid i1 = true →
  i_ref i1 = i_ref i → i_dev i1 = 1 → i_inum i1 = n → synced (fs_sb s) V i1 → i_type (dino (fs_sb s) V n) = T_DIR →
  list_find (entry_is name) (entries V (dino (fs_sb s) V n)) = Some (k, x) →
  ∃ ip' i' h' s',
    (r ← dirlookup iderw dev_read ip name;
     match r with None => fail | Some (next, _) => iunlockput iderw ip;; cont next end) (h1, set_fs_log l1 (put_inode ip i1 s))
    = cont ip' (h', s') ∧ stands h' s' V L ip' i' x.1 ∧ fs_sb s' = fs_sb s ∧
    ∀ m, refs m (fs_inodes s') = refs m (fs_inodes s) - (if decide (m = n) then 1 else 0) + (if decide (m = x.1) then 1 else 0).
Proof using HBD.
  intros Hst Hr1 Hv1 Hl1 Hva Er Ed Ei Hs Hd Hx. destruct (locked_dir h s V L ip i n i1 l1 Hst Hv1 Ed Ei Hs Hd) as (Hof & Hdir & Hent).
  pose proof Hst as [_ _ Hc HT Htb Hip Href Hdev Hin Ha Hsp]. set (s1 := set_fs_log l1 (put_inode ip i1 s)) in *.
  destruct (dirlookup_run iderw p pr g dev_read h1 s1 V L ip i1 name Hr1 Hof Hdir Hc) as (h2 & l2 & Hr2 & Hof2 & E2). rw Hent Hx in E2.
  set (u := set_i_lock (MkSl false 0) i1). set (t := <[ip := u]> (fs_inodes s)).
  destruct (stands_load h s V L ip i n u Hst Er Ed Ei eq_refl (λ _, Hs)) as (HTu & Hu & Hrefs & Hfree). fold t in HTu, Hu, Hrefs, Hfree.
  destruct (table_step _ V t ip u x.1 HTu Hu ltac:(cbn; lia) Ed) as (ip' & j & Es & HT3 & Hrefs3 & z & Hz & Hzr & Hzd & Hzi & Hzs).
  { rw Hfree. change (i_ref u) with (i_ref i1). by rw Er. }
  change (fs_inodes s1) with (<[ip := i1]> (fs_inodes s)) in E2. rewrite -> (iget_relock _ ip i1 u x.1 ip' j eq_refl eq_refl eq_refl Es) in E2.
  rw (bind_ok _ _ _ _ _ E2). set (j1 := if decide (ip' = ip) then i1 else j) in *.
  change (put_inode ip' (iget_inode 1 x.1 j1) (set_fs_log l2 s1)) with (set_fs_log l2 (put_inode ip' (iget_inode 1 x.1 j1) (put_inode ip i1 s))).
  set (s2 := set_fs_log l2 _). set (y := if decide (ip' = ip) then iget_inode 1 x.1 j else u) in *.
  assert (∃ w, fs_inodes s2 !! ip = Some w ∧ i_lock w = MkSl true pid ∧ i_nlink w = i_nlink i1 ∧ 1 ≤ i_ref w ∧ set_i_lock (MkSl false 0) w = y ∧
    <[ip := set_i_ref (i_ref y - 1) y]> (fs_inodes s2) = <[ip := set_i_ref (i_ref y - 1) y]> (<[ip' := iget_inode 1 x.1 j]> t)) as (w & Hw & Hwl & Hwn & Hwr & Hwy & Htab).
  { pose proof (iget_slot_lookup _ _ _ _ _ Es) as [Hj Hcase]. pose proof (lookup_lt_Some _ _ _ Hip) as Hlt.
    unfold s2, y, j1. cbn [fs_inodes set_fs_log put_inode set_fs_inodes]. destruct (decide (ip' = ip)) as [->|Hne].
    - assert (j = u) as -> by congruence. assert (is_inode 1 x.1 i1) as Hin1 by (destruct Hcase as [?|H0]; [done|change (i_ref i1 = 0) in H0; lia]).
      exists (set_i_ref (i_ref i1 + 1) i1). unfold iget_inode. rewrite -> !decide_True by done. unfold t. rw !list_insert_insert_eq.
      split_and!; [by rewrite -> list_lookup_insert_eq|done|done|cbn; lia|done|done].
    - exists i1. unfold t. split_and!; [rewrite -> list_lookup_insert_ne by done; by rewrite -> list_lookup_insert_eq|done|done|lia|done|].
      rewrite -> !(list_insert_insert_ne _ ip' ip) by done. by rw !list_insert_insert_eq. }
  assert (i_nlink i1 ≠ 0) as Hnl.
  { destruct Ha as (_ & _ & Hn). pose proof (synced_dino _ _ _ Hs) as E. rw Ei in E. by rw E in Hn. }
  destruct (iunlockput_run (settle h2) s2 ip w (ready_settle _ _ _ Hr2) Hw Hwl Hwr ltac:(by rw Hwn)) as (h3 & E3 & Hr3).
  rewrite -> Hwy in E3. assert (i_ref w = i_ref y) as Ewr by (by rw -Hwy). rw Ewr in E3. rw (bind_ok _ _ _ _ _ E3).
  exists ip', z, h3, (put_inode ip (set_i_ref (i_ref y - 1) y) s2). split_and!; [done| |done|].
  - split; try done; cbn [fs_inodes put_inode set_fs_inodes]; rw ?Htab; try done.
    + apply (of_view _ _ _ _ _ _ _ Hof2).
    + cbn. apply (to_entry _ _ _ HT n x Ha Hd); apply list_find_Some in Hx as (Hk & [Hx0 _] & _); [by eapply list_elem_of_lookup_2|done].
  - intros m. cbn [fs_inodes put_inode set_fs_inodes]. rewrite -> Htab, Hrefs3, Hrefs. change (i_inum u) with (i_inum i1). rw Ei. lia.
Qed.

(** A walk that goes on from another inode. *)
Lemma arrives_step V L s n m r o h' s1 s' :
  fs_sb s1 = fs_sb s →
  (∀ x, refs x (fs_inodes s1) = refs x (fs_inodes s) - (if decide (x = n) then 1 else 0) + (if decide (x = m) then 1 else 0)) →
  arrives V L s1 m r o h' s' → arrives V L s n r o h' s'.
Proof using Type.
  intros Hsb Hr [H1 H2 H3]. split; [done|by rw H2|]. intros x. rewrite -> H3, Hr. lia.
Qed.

(** The name that [nameiparent] returns. *)
Definition last_name (parent : bool) (path : list Z) (o : option nat) (name : list Z) : Prop :=
  parent = true → o ≠ None → cname DIRSIZ <$> last (names path) = Some (cname DIRSIZ name).

(** No name is left. *)
Lemma namex_end V L (parent : bool) path name h s ip i n :
  stands h s V L ip i n → names path = [] →
  ∃ h' s' o name', (if parent then iput iderw ip;; mret (None, name) else mret (Some ip, name) : K fsst (option nat * list Z)) (h, s) = Ok (o, name') (h', s') ∧
    arrives V L s n (walk (fs_sb s) V parent n (names path)) o h' s' ∧ last_name parent path o name'.
Proof using Type.
  intros Hst Hn. unfold last_name. rw Hn. cbn [walk]. pose proof Hst as [Hr Hv Hc HT Htb Hip Href Hdev Hin Ha Hsp]. destruct parent.
  - pose proof (tb_valid _ _ _ Htb ip i Hip ltac:(lia) Hdev) as Hs.
    destruct (iput_keep iderw p pr h s ip i Hr Hip (tb_lock _ _ _ Htb ip i Hip)) as (h1 & E1 & Hr1).
    { destruct (i_valid i); [|done]. pose proof (synced_dino _ _ _ (Hs eq_refl)) as E. rw Hin in E. destruct Ha as (_ & _ & Hnl). rw E in Hnl.
      change (i_nlink i ≠ 0) in Hnl. by rewrite -> (proj2 (Z.eqb_neq _ _) Hnl). }
    rw (bind_ok _ _ _ _ _ E1). eexists h1, _, None, name. split; [done|]. split; [|done].
    pose proof (arrives_none h s V L ip i n (set_i_lock (MkSl false 0) i) (fs_log s) h1 Hst eq_refl Hdev Hin eq_refl Hs Hr1 Hv) as Ha'.
    by destruct s.
  - exists h, s, (Some ip), name. split; [done|]. split; [|done]. split; [by exists ip, i|done|].
    intros x. apply refs_back.
Qed.

(** The locked inode is left again. *)
Lemma leave_locked h s V L ip i n i1 h1 l1 (name : list Z) :
  stands h s V L ip i n → ready p pr h1 → lview g pid l1 V ∅ L → i_lock i1 = MkSl true pid →
  i_ref i1 = i_ref i → i_dev i1 = 1 → i_inum i1 = n → synced (fs_sb s) V i1 →
  ∃ h' s', (iunlockput iderw ip;; mret (None, name) : K fsst (option nat * list Z)) (h1, set_fs_log l1 (put_inode ip i1 s)) = Ok (None, name) (h', s') ∧
    arrives V L s n None None h' s'.
Proof using Type.
  intros Hst Hr1 Hv1 Hl Er Ed Ei Hs. pose proof Hst as [_ _ _ _ _ Hip Href _ _ (_ & _ & Hnl) _].
  assert (i_nlink i1 ≠ 0) as Hn1 by (pose proof (synced_dino _ _ _ Hs) as E; rw Ei in E; by rw E in Hnl).
  destruct (iunlockput_run h1 (set_fs_log l1 (put_inode ip i1 s)) ip i1 Hr1 ltac:(by eapply put_lookup) Hl ltac:(lia) Hn1) as (h2 & E2 & Hr2).
  rw (bind_ok _ _ _ _ _ E2). eexists h2, _. split; [done|]. rw put_inode_log put_put.
  exact (arrives_none h s V L ip i n (set_i_lock (MkSl false 0) i1) l1 h2 Hst Er Ed Ei eq_refl (λ _, Hs) Hr2 Hv1).
Qed.

(** The locked directory is the result. *)
Lemma stay_locked h s V L ip i n i1 h1 l1 :
  stands h s V L ip i n → ready p pr h1 → lview g pid l1 V ∅ L → i_lock i1 = MkSl true pid →
  i_ref i1 = i_ref i → i_dev i1 = 1 → i_inum i1 = n → synced (fs_sb s) V i1 →
  ∃ h' s', iunlock (Some ip) (h1, set_fs_log l1 (put_inode ip i1 s)) = Ok tt (h', s') ∧ arrives V L s n (Some n) (Some ip) h' s'.
Proof using Type.
  intros Hst Hr1 Hv1 Hl Er Ed Ei Hs. pose proof Hst as [_ _ Hc HT _ Hip Href _ _ Ha Hsp].
  pose proof (iunlock_run p pr h1 (set_fs_log l1 (put_inode ip i1 s)) ip i1 Hr1 ltac:(by eapply put_lookup) ltac:(lia)) as E.
  rw Hl Z.eqb_refl in E. cbn [sl_locked andb sl_pid] in E. destruct E as (h2 & E2 & Hr2).
  destruct (stands_load h s V L ip i n (set_i_lock (MkSl false 0) i1) Hst Er Ed Ei eq_refl (λ _, Hs)) as (HT2 & Hx & Hrefs & Hfree).
  eexists h2, _. split; [exact E2|]. rw put_inode_log put_put. split; [|done|].
  - exists ip, (set_i_lock (MkSl false 0) i1). split; [done|]. split; try done; cbn [fs_inodes set_fs_log put_inode set_fs_inodes i_ref set_i_lock].
    + lia.
    + rw Hfree Er. done.
  - intros x. cbn [fs_inodes set_fs_log put_inode set_fs_inodes]. rw Hrefs. apply refs_back.
Qed.

Lemma namex_loop_run V L (parent : bool) fuel : ∀ path name h s ip i n,
  (length path ≤ fuel)%nat → stands h s V L ip i n →
  ∃ h' s' o name', namex_loop iderw dev_read fuel ip path parent name (h, s) = Ok (o, name') (h', s') ∧
    arrives V L s n (walk (fs_sb s) V parent n (names path)) o h' s' ∧ last_name parent path o name'.
Proof using HBD.
  induction fuel as [|fuel IH]; intros path name h s ip i n Hf Hst; cbn [namex_loop]; pose proof (skipelem_names path name) as Hsk;
    (destruct (skipelem path name) as [[rest nm]|]; [destruct Hsk as (e & En & Ec & Hb & Hlen)|by eapply namex_end]); [lia|].
  rw En. cbn [walk]. pose proof Hst as [Hr Hv Hc HT Htb Hip Href Hdev Hin Ha Hsp].
  destruct (ilock_stands h s V L ip i n Hst) as (h1 & l1 & E1 & Hr1 & Hv1 & F1 & F2 & F3 & F4 & F5 & Hs). set (i1 := locked_inode pr (fs_sb s) V i) in *.
  rw (bind_ok _ _ _ _ _ E1). set (s1 := set_fs_log l1 (put_inode ip i1 s)) in *.
  assert (fs_inodes s1 !! ip = Some i1) as Hi1 by (by eapply put_lookup). rw (bind_ok _ _ _ _ _ (inode_at_run h1 s1 ip i1 Hi1)).
  pose proof (synced_dino _ _ _ Hs) as Edi. rw F5 in Edi.
  assert (i_type i1 = i_type (dino (fs_sb s) V n)) as -> by (by rw Edi). unfold last_name. rw En.
  destruct (Z.eqb_spec (i_type (dino (fs_sb s) V n)) T_DIR) as [Hd|Hd]; cbn [negb].
  2:{ destruct (leave_locked h s V L ip i n i1 h1 l1 nm Hst Hr1 Hv1 F1 F3 F4 F5 Hs) as (h' & s' & E & Har). by exists h', s', None, nm. }
  rewrite -> (names_end rest Hb). destruct (parent && bool_decide (names rest = [])) eqn:Elast.
  { destruct (stay_locked h s V L ip i n i1 h1 l1 Hst Hr1 Hv1 F1 F3 F4 F5 Hs) as (h' & s' & E & Har). exists h', s', (Some ip), nm.
    rw (bind_ok _ _ _ _ _ E). split_and!; [done|done|]. apply andb_true_iff in Elast as [_ ->%bool_decide_eq_true]. intros _ _. by rw Ec. }
  assert (list_find (entry_is e) (entries V (dino (fs_sb s) V n)) = list_find (entry_is nm) (entries V (dino (fs_sb s) V n))) as ->.
  { apply list_find_ext. intros x. unfold entry_is. by rw Ec. }
  destruct (list_find (entry_is nm) (entries V (dino (fs_sb s) V n))) as [[k x]|] eqn:Ef.
  - destruct (walk_step h s V L ip i n nm k x i1 h1 l1 (iunlockput iderw ip;; mret (None, nm)) (λ next, namex_loop iderw dev_read fuel next rest parent nm)
      Hst Hr1 Hv1 F1 F2 F3 F4 F5 Hs Hd Ef) as (ip' & i' & h2 & s2 & E2 & Hst2 & Hsb2 & Hrefs2).
    destruct (IH rest nm h2 s2 ip' i' x.1 ltac:(lia) Hst2) as (h' & s' & o & name' & E & Har & Hln). rw Hsb2 in Har.
    exists h', s', o, name'. split_and!; [by etransitivity; [exact E2|]|by eapply arrives_step|].
    intros Hpar Ho. specialize (Hln Hpar Ho). rw Hpar in Elast. cbn [andb] in Elast. apply bool_decide_eq_false in Elast.
    destruct (names rest); [done|]. exact Hln.
  - destruct (locked_dir h s V L ip i n i1 l1 Hst Hv1 F4 F5 Hs Hd) as (Hof & Hdir & Hent).
    destruct (dirlookup_run iderw p pr g dev_read h1 s1 V L ip i1 nm Hr1 Hof Hdir Hc) as (h2 & l2 & Hr2 & Hof2 & E2). rw Hent Ef in E2.
    rw (bind_ok _ _ _ _ _ E2). destruct (leave_locked h s V L ip i n i1 h2 l2 nm Hst Hr2 (of_view _ _ _ _ _ _ _ Hof2) F1 F3 F4 F5 Hs) as (h' & s' & E & Har).
    by exists h', s', None, nm.
Qed.

(** ** The start of the walk *)

(** No inode is locked, two slots are free, and the process has a current directory. *)
Record paths_ready (h : hw) (s : fsst) (V : Z → list Z) (L : list Z) (cwd : nat) (ci : inode) : Prop := {
  pa_ready : ready p pr h;
  pa_view : lview g pid (fs_log s) V ∅ L;
  pa_room : cache_room L ∅ 1;
  pa_tree : tree_ok g (fs_sb s) V;
  pa_table : table_ok (fs_sb s) V (fs_inodes s);
  pa_free : 2 ≤ free_slots (fs_inodes s);
  pa_cwd : p_cwd pr = Some cwd;
  pa_slot : fs_inodes s !! cwd = Some ci;
  pa_dir : 1 ≤ i_ref ci ∧ i_dev ci = 1 ∧ alive (fs_sb s) V (i_inum ci)
}.

Definition start (path : list Z) (ci : inode) : Z := if byte0 path =? 47 then ROOTINO else i_inum ci.

Lemma start_run h s V L cwd ci path :
  paths_ready h s V L cwd ci →
  ∃ ip i h' s', (if byte0 path =? 47 then iget ROOTDEV ROOTINO
      else me ← myproc;
           pr ← proc_at me;
           match p_cwd pr with
           | Some cwd => idup cwd
           | None => fault "namex: no cwd"
           end) (h, s) = Ok ip (h', s') ∧ stands h' s' V L ip i (start path ci) ∧ fs_sb s' = fs_sb s ∧
    ∀ x, refs x (fs_inodes s') = refs x (fs_inodes s) + if decide (x = start path ci) then 1 else 0.
Proof using Type.
  intros [Hr Hv Hc HT Htb Hfr Hcwd Hip (Href & Hdev & Ha)]. unfold start. destruct (byte0 path =? 47).
  - destruct (table_get (fs_sb s) V (fs_inodes s) ROOTINO Htb ltac:(lia)) as (ip & j & Es & Hj & HT' & Hrefs & Hd & Hi & Hr1 & Hf).
    change ROOTDEV with 1. rewrite -> (iget_run p pr h s 1 ROOTINO Hr), Es. eexists ip, _, _, _. split; [done|]. split_and!; [|done|done].
    split; try done; [by apply ready_settle|by eapply put_lookup|apply HT|].
    cbn [fs_inodes put_inode set_fs_inodes]. rw Hf. lia.
  - pose proof (rd_runs _ _ _ Hr) as Hru. rw (bind_ok _ _ _ _ _ (myproc_ok h s (ready_wf _ _ _ Hr))) (ru_cur _ _ _ Hru).
    pose proof (ready_settle _ _ _ Hr) as Hr1. rw (bind_ok _ _ _ _ _ (proc_at_ok (settle h) s p pr (ru_proc _ _ _ (rd_runs _ _ _ Hr1)))) Hcwd.
    unfold idup. rw (bind_ok _ _ _ _ _ (ready_lock p pr _ _ s Hr1)) (bind_ok _ _ _ _ _ (modinode_run _ s cwd ci _ Hip)).
    rw (bind_ok _ _ _ _ _ (ready_unlock p pr _ _ _ Hr1)). eexists cwd, (set_i_ref (i_ref ci + 1) ci), _, _. split; [done|].
    pose proof (λ f, tally_insert f _ cwd ci (set_i_ref (i_ref ci + 1) ci) Hip) as Hins.
    assert (∀ x, refs x (<[cwd := set_i_ref (i_ref ci + 1) ci]> (fs_inodes s)) = refs x (fs_inodes s) + if decide (x = i_inum ci) then 1 else 0) as Hrefs.
    { intros x. unfold refs. rw Hins. cbn [i_dev i_inum i_ref set_i_ref]. rw Hdev. destruct (decide (x = i_inum ci)) as [->|Hne].
      - rewrite -> !decide_True by done. lia.
      - rewrite -> !decide_False by (intros [_ E]; by apply Hne). lia. }
    split_and!; [|done|done]. split; try done; cbn [fs_inodes put_inode set_fs_inodes].
    + by apply ready_settle.
    + eapply table_insert; try done; cbn; [lia|by eapply (tb_lock _ _ _ Htb)| |].
      * intros _ _ Hvd. exact (tb_valid _ _ _ Htb cwd ci Hip ltac:(lia) Hdev Hvd).
      * intros _ ip' i' Hne Hk Hi' Ed E. apply Hne. eapply (tb_once _ _ _ Htb ip' cwd i' ci); done || congruence || lia.
    + apply list_lookup_insert_eq. by eapply lookup_lt_Some.
    + cbn. lia.
    + unfold free_slots. rw Hins. cbn [i_ref set_i_ref]. unfold free_slots in Hfr. repeat case_decide; lia.
Qed.

(** ** Properties *)

(** C21: path names.  From the root for a path that begins with a slash and
    from the current directory otherwise, [namex] walks through the directories on
    the disk as the names of the path say.  It returns the slot of the inode that
    the path denotes, or with [parent] of the directory that holds its last name together
    with that name, with one reference more to this inode and to no other, and nothing
    when a name is not there or what it denotes is not a directory, with the references
    as they were.  It ends for every path, keeps the table in
    order with one slot for an inode, and needs two free slots. *)
Theorem namex_correct h s V L cwd ci path (parent : bool) name :
  paths_ready h s V L cwd ci →
  let r := walk (fs_sb s) V parent (start path ci) (names path) in
  ∃ h' s' o name', namex iderw dev_read path parent name (h, s) = Ok (o, name') (h', s') ∧
    (match r with
     | Some m => ∃ ip i, o = Some ip ∧ fs_inodes s' !! ip = Some i ∧ 1 ≤ i_ref i ∧ i_dev i = 1 ∧ i_inum i = m
     | None => o = None
     end) ∧
    ready p pr h' ∧ lview g pid (fs_log s') V ∅ L ∧ fs_sb s' = fs_sb s ∧ table_ok (fs_sb s') V (fs_inodes s') ∧
    (∀ x, refs x (fs_inodes s') = refs x (fs_inodes s) + if decide (r = Some x) then 1 else 0) ∧
    last_name parent path o name'.
Proof using HBD.
  intros Hpa r. destruct (start_run h s V L cwd ci path Hpa) as (ip & i & h1 & s1 & E1 & Hst & Hsb & Hrefs).
  unfold namex. rw (bind_ok _ _ _ _ _ E1).
  destruct (namex_loop_run V L parent (length path) path name h1 s1 ip i (start path ci) ltac:(lia) Hst) as (h' & s' & o & name' & E & [Hres Hsb' Hr'] & Hln).
  rw Hsb in Hres. rw Hsb in Hr'. fold r in Hres, Hr'. exists h', s', o, name'. split; [done|].
  assert (∀ x, refs x (fs_inodes s') = refs x (fs_inodes s) + if decide (r = Some x) then 1 else 0) as Hrx.
  { intros x. rewrite -> Hr', Hrefs. lia. }
  destruct r as [m|].
  - destruct Hres as (ip' & i' & -> & [? ? ? ? ? ? ? ? ? ? ?]). split_and!; try done; [by exists ip', i'|by rw Hsb'].
  - destruct Hres as (-> & ? & ? & ?). split_and!; try done. by rw Hsb'.
Qed.
End walk.

(** ** The property on the small file system *)

Definition ex_walker : proc := set_p_cwd (Some 0%nat) (set_p_state RUNNING (set_p_pid 7 zero_proc)).
Definition ex_walking : hw := set_h_procs (ex_walker :: replicate 63 zero_proc) boot_hw.
(** The root directory in the first slot, and two free slots. *)
Definition ex_tree (b : bst) : fsst := MkFs (ex_fslog b) ex_sb [set_i_lock (MkSl false 0) ex_root; set_i_ref 0 (ex_slot 0); set_i_ref 0 (ex_slot 0)].

Lemma fields_file g sb V i j : file_ok g sb V i → file_ok g sb V (with_fields i j).
Proof. intros [[H1 H2 H3 H4 H5 H6] Hb Hi Hn]. split; [by split|exact Hb|exact Hi|exact Hn]. Qed.

Lemma ex_walking_ready : ready 0 ex_walker ex_walking.
Proof.
  assert (runs ex_walking 0 ex_walker) as Hr by (split; [split; [apply boot_hw_wf|done..]|by intros c [= <-]|done..]).
  by split.
Qed.

Lemma ex_dino : dino ex_sb ex_V 1 = with_fields ex_root (MkInode 1 1 0 (MkSl false 0) true 0 0 0 0 0 []).
Proof. by vm_compute. Qed.

Lemma ex_alive n : alive ex_sb ex_V n ↔ n = 1.
Proof.
  split.
  - intros (Hn & Ht & _). cbn in Hn. assert (n ∈ seqZ 0 8) as Hin by (apply elem_of_seqZ; lia). vm_compute in Hin.
    repeat (apply elem_of_cons in Hin as [->|Hin]; [by (done || (exfalso; apply Ht; vm_compute))|]). by apply elem_of_nil in Hin.
  - intros ->. split; [cbn; lia|split; by vm_compute].
Qed.

Lemma ex_tree_ok : tree_ok ex_geo ex_sb ex_V.
Proof.
  destruct ex_open as (b & Hof). split.
  - apply ex_fs_ok.
  - intros n ->%ex_alive. rw ex_dino. split; [apply fields_file, ex_file_ok|exact (of_dense _ _ _ _ _ _ _ Hof)].
  - intros n ->%ex_alive _. rw ex_dino. by split.
  - intros n e ->%ex_alive _. rw ex_dino. change (entries ex_V (with_fields ex_root _)) with (entries ex_V ex_root). rw ex_entries ex_alive.
    intros [->|[->|[]%elem_of_nil]%elem_of_cons]%elem_of_cons _; done.
  - by apply ex_alive.
Qed.

Lemma ex_paths_ready : ∃ b, paths_ready 0 ex_walker ex_geo ex_walking (ex_tree b) ex_V [] 0 (set_i_lock (MkSl false 0) ex_root).
Proof.
  destruct ex_open as (b & Hof). exists b. split; try done.
  - apply ex_walking_ready.
  - apply (of_view _ _ _ _ _ _ _ Hof).
  - unfold cache_room. rw map_size_empty. cbn. change NBUF with 30%nat. lia.
  - apply ex_tree_ok.
  - split.
    + intros [|[|[|ip]]] i Hi; [by injection Hi as <-..|done].
    + intros [|[|[|ip]]] i Hi; [by injection Hi as <-..|done].
    + intros [|[|[|ip]]] i Hi; [|by injection Hi as <-..|done]. injection Hi as <-. intros _ _ _. exact (of_synced _ _ _ _ _ _ _ Hof).
    + intros [|[|[|ip]]] [|[|[|ip']]] i i' Hi Hi' Hr Hr'; try done; injection Hi as <-; injection Hi' as <-; done.
Qed.

(** The path [/./..] denotes the root directory, and [/a] nothing. *)
Lemma namex_correct_witness :
  ∃ b, (∃ h' s' ip name', namex memide_iderw (λ _, None) [47; 46; 47; 46; 46; 0] false [] (ex_walking, ex_tree b) = Ok (Some ip, name') (h', s') ∧
      refs 1 (fs_inodes s') = 2) ∧
    ∃ h' s' name', namex memide_iderw (λ _, None) [47; 97; 0] false [] (ex_walking, ex_tree b) = Ok (None, name') (h', s') ∧ refs 1 (fs_inodes s') = 1.
Proof.
  destruct ex_paths_ready as (b & Hpa). exists b. split.
  - destruct (namex_correct memide_iderw 0 ex_walker ex_geo (λ _, None) _ _ _ _ _ _ [47; 46; 47; 46; 46; 0] false [] Hpa)
      as (h' & s' & o & name' & E & Ho & _ & _ & _ & _ & Hr & _).
    assert (walk (fs_sb (ex_tree b)) ex_V false (start [47; 46; 47; 46; 46; 0] (set_i_lock (MkSl false 0) ex_root)) (names [47; 46; 47; 46; 46; 0]) = Some 1) as Ew by (by vm_compute).
    rewrite -> Ew in Ho, Hr. destruct Ho as (ip & i & -> & _). exists h', s', ip, name'. split; [exact E|]. by rewrite -> Hr.
  - destruct (namex_correct memide_iderw 0 ex_walker ex_geo (λ _, None) _ _ _ _ _ _ [47; 97; 0] false [] Hpa)
      as (h' & s' & o & name' & E & Ho & _ & _ & _ & _ & Hr & _).
    assert (walk (fs_sb (ex_tree b)) ex_V false (start [47; 97; 0] (set_i_lock (MkSl false 0) ex_root)) (names [47; 97; 0]) = None) as Ew by (by vm_compute).
    rewrite -> Ew in Ho, Hr. subst o. exists h', s', name'. split; [exact E|]. by rewrite -> Hr.
Defined.
