(* ===== verification/Proc.v ===== *)
(** * Processes: the other half of proc.c

    Creation, growth, exit and reaping of processes over the page tables, the
    open files and the file system. The kernel stack of a process holds its
    trap frame and its first context; the model keeps both by value in the
    process, and the page of the stack for its allocation only. *)

From S2P Require Import Prelude Machine Spinlock Console Mem CString Kalloc PrioLock Sched Vm Sleeplock Pipe Ring Bytes Bio Cache Log Recovery Txn Fs ConsoleIn File.

(** ** Operations *)

Section proc.
(** The code at [forkret], and the program initcode.S. *)
Context (forkret_addr : Z) (initcode : list Z).

(** The loop of [allocproc] over the slots [l]. *)
Fixpoint allocproc_scan {C} (l : list nat) : K C (option nat) :=
  match l with
  | [] => mret None
  | i :: l =>
      p ← proc_at (Some i);
      if bool_decide (p_state p = UNUSED) then mret (Some i) else allocproc_scan l
  end.

Definition allocproc : K memst (option nat) :=
  acquire ptable_lock;;
  r ← allocproc_scan (seq 0 NPROC);
  match r with
  | None => release ptable_lock;; mret None
  | Some p =>
      modproc p (set_p_state EMBRYO);;
      h ← geth;
      modproc p (set_p_pid (h_nextpid h));;
      modh (λ h, set_h_nextpid (s32 (h_nextpid h + 1)) h);;
      release ptable_lock;;
      kstack ← kalloc;
      modproc p (set_p_kstack kstack);;
      if kstack =? 0 then
        modproc p (set_p_state UNUSED);;
        mret None
      else
        modproc p (set_p_context (set_cx_eip forkret_addr zero_context));;
        mret (Some p)
  end.

Definition growproc (n : Z) : K memst Z :=
  me ← myproc;
  p ← proc_at me;
  let sz := p_sz p in
  let grown sz :=
    modproc (default 0%nat me) (set_p_sz sz);;
    switchuvm me;;
    mret 0 in
  if 0 <? n then
    sz ← allocuvm (p_pgdir p) sz (u32 (sz + n));
    if sz =? 0 then mret (-1) else grown sz
  else if n <? 0 then
    sz ← deallocuvm (p_pgdir p) sz (u32 (sz + n));
    if sz =? 0 then mret (-1) else grown sz
  else grown sz.

Context (iderw : nat → K bst unit).

(** [(SEG_UCODE << 3) | DPL_USER] and so on. *)
Definition user_tf : trapframe :=
  let ds := Z.lor (Z.shiftl SEG_UDATA 3) DPL_USER in
  set_tf_eip 0 (set_tf_esp PGSIZE (set_tf_eflags FL_IF (set_tf_ss ds (set_tf_es ds (set_tf_ds ds
    (set_tf_cs (Z.lor (Z.shiftl SEG_UCODE 3) DPL_USER) zero_tf)))))).

Definition userinit : K kst unit :=
  r ← inmem allocproc;
  modh (set_h_initproc r);;
  match r with
  | None => fault "userinit: null process"
  | Some p =>
      pgdir ← inmem setupkvm;
      modproc p (set_p_pgdir pgdir);;
      if pgdir =? 0 then panic "userinit: out of memory?" else
      inmem (inituvm pgdir initcode (Z.of_nat (length initcode)));;
      modproc p (set_p_sz PGSIZE);;
      modproc p (set_p_tf user_tf);;
      modproc p (λ x, set_p_name (safestrcpy (p_name x) (chars "initcode") 16) x);;
      cwd ← infs (namei iderw (dev_read iderw) (chars "/"));
      modproc p (set_p_cwd cwd);;
      acquire ptable_lock;;
      modproc p (set_p_state RUNNABLE);;
      release ptable_lock
  end.

(** [for(i = 0; i < NOFILE; i++) if(curproc->ofile[i]) np->ofile[i] = filedup(curproc->ofile[i]);] *)
Definition fork_files (cur np : nat) : K kst unit :=
  mfor (seq 0 NOFILE) (λ i,
    p ← proc_at (Some cur);
    match p_ofile p !! i with
    | Some (Some f) =>
        f ← filedup f;
        modproc np (λ x, set_p_ofile (<[i := Some f]> (p_ofile x)) x)
    | _ => mret tt
    end).

Definition fork : K kst Z :=
  me ← myproc;
  r ← inmem allocproc;
  match r, me with
  | None, _ => mret (-1)
  | _, None => fault "fork: null process"
  | Some np, Some cur =>
      p ← proc_at (Some cur);
      pgdir ← inmem (copyuvm (p_pgdir p) (p_sz p));
      modproc np (set_p_pgdir pgdir);;
      if pgdir =? 0 then
        n ← proc_at (Some np);
        inmem (kfree (p_kstack n));;
        modproc np (set_p_kstack 0);;
        modproc np (set_p_state UNUSED);;
        mret (-1)
      else
        p ← proc_at (Some cur);
        modproc np (λ x, set_p_tf (set_tf_eax 0 (p_tf p)) (set_p_parent (Some cur) (set_p_sz (p_sz p) x)));;
        fork_files cur np;;
        p ← proc_at (Some cur);
        cwd ← deref (p_cwd p);
        cwd ← infs (idup cwd);
        modproc np (set_p_cwd (Some cwd));;
        modproc np (λ x, set_p_name (safestrcpy (p_name x) (p_name p) 16) x);;
        n ← proc_at (Some np);
        let pid := p_pid n in
        acquire ptable_lock;;
        modproc np (set_p_state RUNNABLE);;
        release ptable_lock;;
        mret pid
  end.

(** The descriptors of [exit]. *)
Definition exit_files (cur : nat) : K kst unit :=
  mfor (seq 0 NOFILE) (λ fd,
    p ← proc_at (Some cur);
    match p_ofile p !! fd with
    | Some (Some f) =>
        fileclose iderw f;;
        modproc cur (λ x, set_p_ofile (<[fd := None]> (p_ofile x)) x)
    | _ => mret tt
    end).

(** The children of [exit]. *)
Definition exit_children {C} (cur : nat) : K C unit :=
  mfor (seq 0 NPROC) (λ i,
    p ← proc_at (Some i);
    if bool_decide (p_parent p = Some cur) then
      h ← geth;
      modproc i (set_p_parent (h_initproc h));;
      when (bool_decide (p_state p = ZOMBIE)) (wakeup1 (proc_chan (h_initproc h)))
    else mret tt).

(** [exit] after the files: the process becomes a zombie. *)
Definition exit_zombie {C} (cur : nat) : K C unit :=
  acquire ptable_lock;;
  p ← proc_at (Some cur);
  wakeup1 (proc_chan (p_parent p));;
  exit_children cur;;
  modproc cur (set_p_state ZOMBIE);;
  sched;;
  panic "zombie exit".

Definition exit : K kst unit :=
  me ← myproc;
  h ← geth;
  if bool_decide (me = h_initproc h) then panic "init exiting" else
  match me with
  | None => fault "exit: null process"
  | Some cur =>
      exit_files cur;;
      inlog begin_op;;
      p ← proc_at (Some cur);
      cwd ← deref (p_cwd p);
      infs (iput iderw cwd);;
      inlog (end_op iderw);;
      modproc cur (set_p_cwd None);;
      exit_zombie cur
  end.

(** The scan of [wait] over the slots [l]: the zombie found is freed. *)
Fixpoint wait_scan (l : list nat) (cur : nat) (havekids : bool) : K memst (option Z * bool) :=
  match l with
  | [] => mret (None, havekids)
  | i :: l =>
      p ← proc_at (Some i);
      if negb (bool_decide (p_parent p = Some cur)) then wait_scan l cur havekids else
      if bool_decide (p_state p = ZOMBIE) then
        kfree (p_kstack p);;
        modproc i (set_p_kstack 0);;
        freevm (p_pgdir p);;
        modproc i (λ x, set_p_state UNUSED (set_p_killed false (set_p_name (<[0%nat := 0]> (p_name x))
          (set_p_parent None (set_p_pid 0 x)))));;
        release ptable_lock;;
        mret (Some (p_pid p), true)
      else wait_scan l cur true
  end.

(** One round of the loop of [wait], with [ptable.lock] held. *)
Definition wait_loop (cur : nat) : K memst Z :=
  '(r, havekids) ← wait_scan (seq 0 NPROC) cur false;
  match r with
  | Some pid => mret pid
  | None =>
      p ← proc_at (Some cur);
      if negb havekids || p_killed p then
        release ptable_lock;;
        mret (-1)
      else
        sleep (proc_chan (Some cur)) (Some ptable_lock);;
        mret (-1)
  end.

Definition wait : K memst Z :=
  me ← myproc;
  acquire ptable_lock;;
  match me with
  | None => fault "wait: null process"
  | Some cur => wait_loop cur
  end.
Definition wait_resume (cur : nat) (intena : bool) : K memst Z :=
  sleep_resume cur ptable_lock intena;;
  wait_loop cur.

(** [first] is a static variable. *)
Definition forkret : K kst unit :=
  release ptable_lock;;
  s ← getc;
  when (k_first s)
    (modc (set_k_first false);;
     infs (iinit iderw ROOTDEV);;
     inlog (initlog iderw ROOTDEV)).
End proc.
