(* ===== verification/Lifecycle.v ===== *)
(** * The end of a process: [exit] and [wait] of proc.c

    What the last part of [exit] does to the process table, and how [wait]
    finds a zombie and gives its pages back. *)

From S2P Require Import Prelude Machine Spinlock Console Mem CString Kalloc PrioLock Sched Vm Uvm Sleeplock Pipe Ring Bytes Bio Cache Log Recovery Txn Fs ConsoleIn File Proc.

(** ** The process table *)

Definition child (cur : nat) (r : proc) : bool := bool_decide (p_parent r = Some cur).
Definition zchild (cur : nat) (r : proc) : bool := child cur r && bool_decide (p_state r = ZOMBIE).

(** A slot after [exit_children]: the children of [cur] belong to init, which is
    woken if one of them is a zombie. *)
Definition waked (init : option nat) (z : bool) (r : proc) : proc :=
  if z then woken (proc_chan init) r else r.
Definition adopted (cur : nat) (init : option nat) (z : bool) (r : proc) : proc :=
  let r := waked init z r in if child cur r then set_p_parent init r else r.

(** Slot [q] after the process in slot [cur], with [pr], has exited. *)
Definition exit_slot (cur : nat) (pr : proc) (h : hw) (q : nat) (r : proc) : proc :=
  let r := adopted cur (h_initproc h) (existsb (zchild cur) (h_procs h)) (woken (proc_chan (p_parent pr)) r) in
  if decide (q = cur) then set_p_state ZOMBIE r else r.

(** The slot that [wait] frees. *)
Definition reaped (r : proc) : proc :=
  set_p_state UNUSED (set_p_killed false (set_p_name (<[0%nat := 0]> (p_name r)) (set_p_parent None (set_p_pid 0 (set_p_kstack 0 r))))).

Lemma child_woken cur c r : child cur (woken c r) = child cur r.
Proof. unfold woken. by case_match. Qed.
Lemma zombie_woken c r : bool_decide (p_state (woken c r) = ZOMBIE) = bool_decide (p_state r = ZOMBIE).
Proof. unfold woken. destruct (bool_decide (p_state r = SLEEPING)) eqn:E; cbn; [|done]. apply bool_decide_eq_true in E. case_match; cbn; rw E; done. Qed.
Lemma zchild_woken cur c r : zchild cur (woken c r) = zchild cur r.
Proof. unfold zchild. by rw child_woken zombie_woken. Qed.
Lemma woken_twice c r : woken c (woken c r) = woken c r.
Proof.
  unfold woken at 2. destruct (bool_decide (p_state r = SLEEPING) && _) eqn:E; [|by unfold woken; rw E].
  unfold woken. rewrite -> E. cbn. done.
Qed.
Lemma woken_parent c v r : woken c (set_p_parent v r) = set_p_parent v (woken c r).
Proof. unfold woken. cbn. by case_match. Qed.

Lemma child_waked cur i z r : child cur (waked i z r) = child cur r.
Proof. destruct z; [apply child_woken|done]. Qed.
Lemma waked_true i z r : woken (proc_chan i) (waked i z r) = waked i true r.
Proof. destruct z; [apply woken_twice|done]. Qed.
Lemma adopted_true cur i z r : woken (proc_chan i) (adopted cur i z r) = adopted cur i true r.
Proof. unfold adopted. rw !child_waked. case_match; rw ?woken_parent waked_true //. Qed.

Lemma existsb_woken cur c l : existsb (zchild cur) (woken c <$> l) = existsb (zchild cur) l.
Proof. induction l as [|r l IH]; cbn; [done|]. by rw zchild_woken IH. Qed.

Lemma initproc_acq lk h : h_initproc (acq lk h) = h_initproc h.
Proof. unfold acq, push, upd_me. by destruct (me h). Qed.

Lemma parent_woken c r : p_parent (woken c r) = p_parent r.
Proof. unfold woken. by case_match. Qed.
Lemma parent_waked i z r : p_parent (waked i z r) = p_parent r.
Proof. destruct z; [apply parent_woken|done]. Qed.
Lemma state_adopted cur i z r : p_state (adopted cur i z r) = p_state (waked i z r).
Proof. unfold adopted. by case_match. Qed.

Lemma exit_slot_child p pr h q r : h_initproc h ≠ Some p → child p (exit_slot p pr h q r) = true → False.
Proof.
  intros Hi. unfold exit_slot. set (x := adopted _ _ _ _). assert (child p x = false) as Hx.
  { unfold x, adopted. rw child_waked. case_match eqn:E; [by apply bool_decide_eq_false_2|by rw child_waked]. }
  case_decide; [change (child p (set_p_state ZOMBIE x)) with (child p x)|]; by rw Hx.
Qed.

Lemma exit_slot_zombie p pr h q : p_parent pr = Some q → q ≠ p → zchild q (exit_slot p pr h p pr) = true.
Proof.
  intros Hq Hne. unfold exit_slot. rewrite -> decide_True by done. unfold zchild. apply andb_true_iff. split; [|done].
  unfold adopted. rw child_waked child_woken. unfold child at 2. rewrite -> (bool_decide_eq_false_2 (p_parent pr = Some p)) by congruence.
  unfold child. cbn. by rw parent_waked parent_woken bool_decide_eq_true.
Qed.

Lemma exit_slot_parent p pr h q r :
  q ≠ p → p_state r = SLEEPING → p_chan r = proc_chan (p_parent pr) → p_state (exit_slot p pr h q r) = RUNNABLE.
Proof.
  intros Hne Hs Hc. unfold exit_slot. rewrite -> decide_False, state_adopted by done.
  assert (woken (proc_chan (p_parent pr)) r = set_p_state RUNNABLE r) as ->.
  { unfold woken. by rewrite -> Hs, Hc, !bool_decide_eq_true_2 by done. }
  unfold waked, woken. by case_match.
Qed.

Section exit.
Context {C : Type}.
Implicit Types (h : hw) (x : C).

Lemma exit_children_loop cur x l2 : ∀ l1 h,
  let z := existsb (zchild cur) l1 in let i := h_initproc h in
  h_procs h = (adopted cur i z <$> l1) ++ (waked i z <$> l2) → (length l1 + length l2)%nat = NPROC →
  mfor (seq (length l1) (length l2)) (λ i,
    p ← proc_at (Some i);
    if bool_decide (p_parent p = Some cur) then
      h ← geth;
      modproc i (set_p_parent (h_initproc h));;
      when (bool_decide (p_state p = ZOMBIE)) (wakeup1 (proc_chan (h_initproc h)))
    else mret tt) (h, x)
  = Ok tt (set_h_procs (adopted cur i (existsb (zchild cur) (l1 ++ l2)) <$> l1 ++ l2) h, x).
Proof.
  induction l2 as [|r l2 IH]; intros l1 h z i Hp Hn; cbn [length seq mfor].
  { rw app_nil_r in Hp. rw app_nil_r. fold z. rw -Hp. by destruct h. }
  assert (h_procs h !! length l1 = Some (waked i z r)) as Hr.
  { rw Hp. rewrite -> lookup_app_r by (by rw length_fmap). by rw length_fmap Nat.sub_diag. }
  set (z' := existsb (zchild cur) (l1 ++ [r])).
  specialize (λ l, IH (l1 ++ [r]) (set_h_procs l h)). cbv zeta in IH. cbn [h_procs h_initproc set_h_procs] in IH. fold i z' in IH.
  rewrite -> last_length, <-app_assoc in IH. cbn [length Nat.add app] in IH, Hn.
  assert (z' = z || zchild cur r) as Hz by (unfold z'; rw existsb_app /= orb_false_r //).
  rw bind_assoc (bind_ok _ _ _ _ _ (proc_at_ok h x _ _ Hr)). fold (child cur (waked i z r)). rw child_waked.
  assert (∀ f, upd_proc (length l1) f h = set_h_procs ((adopted cur i z <$> l1) ++ f (waked i z r) :: (waked i z <$> l2)) h) as Hu.
  { intros f. unfold upd_proc. rw Hp. do 2 f_equal. rewrite -> alter_app_r_alt by (by rw length_fmap). by rw length_fmap Nat.sub_diag. }
  destruct (child cur r) eqn:Ec; cycle 1.
  - rw bind_run. cbn [mret M_ret]. assert (z' = z) as Ez by (unfold zchild in Hz; rw Ec in Hz; by rw Hz orb_false_r).
    specialize (IH (h_procs h)). replace (set_h_procs (h_procs h) h) with h in IH by (by destruct h). apply IH; [|lia].
    rw Hp Ez fmap_app -app_assoc. do 2 f_equal. cbn. unfold adopted. by rw child_waked Ec.
  - rw bind_assoc (bind_ok _ _ _ h (h, x)) // bind_assoc (bind_ok _ _ _ _ _ (modproc_run _ _ _ x)) Hu.
    assert (set_p_parent i (waked i z r) = adopted cur i z r) as Ea by (unfold adopted; by rw child_waked Ec).
    fold i. rw Ea. unfold zchild in Hz. rw Ec in Hz. cbn [andb] in Hz.
    assert (bool_decide (p_state (waked i z r) = ZOMBIE) = bool_decide (p_state r = ZOMBIE)) as -> by (destruct z; [apply zombie_woken|done]).
    destruct (bool_decide (p_state r = ZOMBIE)) eqn:Ezo; unfold when.
    + rw orb_true_r in Hz. rw (bind_ok _ _ _ _ _ (wakeup1_run (proc_chan i) _ x _)).
      { cbn. rw length_app length_fmap /= length_fmap. lia. }
      apply IH; [|lia]. rw Hz. cbn [h_procs set_h_procs]. rw !fmap_app -app_assoc. cbn [fmap list_fmap app].
      rw adopted_true -!list_fmap_compose. f_equal; [|f_equal]; apply list_fmap_ext; intros ? ? _; [apply adopted_true|apply waked_true].
    + rw orb_false_r in Hz. rw bind_run. cbn [mret M_ret]. apply IH; [|lia]. by rw Hz fmap_app -app_assoc.
Qed.

Lemma exit_children_run cur h x :
  length (h_procs h) = NPROC →
  exit_children cur (h, x) = Ok tt (set_h_procs (adopted cur (h_initproc h) (existsb (zchild cur) (h_procs h)) <$> h_procs h) h, x).
Proof.
  intros Hn. unfold exit_children. rw -Hn. apply (exit_children_loop cur x (h_procs h) [] h); [|done]. cbn. by rw list_fmap_id.
Qed.

Lemma exit_zombie_run cur pr h x :
  runs h cur pr →
  exit_zombie cur (h, x) = Stop Switch (acq ptable_lock (set_h_procs (imap (exit_slot cur pr h) (h_procs h)) h), x).
Proof.
  intros Hr. pose proof Hr as [[Hw Hf Hl] Hn Hc Hp]. unfold exit_zombie.
  rw (bind_ok _ _ _ _ _ (acquire_ok h x _ Hw Hf)) (bind_ok _ _ _ _ _ (proc_at_ok _ x cur pr (runs_acq_proc _ _ _ _ Hr))).
  rw (bind_ok _ _ _ _ _ (wakeup1_run _ _ x _)); [by rw procs_acq|].
  rw (bind_ok _ _ _ _ _ (exit_children_run cur _ x _)); [cbn [h_procs wake_all set_h_procs]; by rw length_fmap procs_acq|].
  rw (bind_ok _ _ _ _ _ (modproc_run _ _ _ x)). set (h1 := upd_proc _ _ _).
  assert (h1 = acq ptable_lock (set_h_procs (imap (exit_slot cur pr h) (h_procs h)) h)) as ->.
  { unfold h1, wake_all, upd_proc. cbn [h_procs set_h_procs h_initproc]. rw existsb_woken procs_acq acq_set_procs initproc_acq.
    unfold set_h_procs at 1 2. cbn. unfold set_h_procs. f_equal. apply list_eq. intros q. rw list_lookup_imap.
    destruct (decide (q = cur)) as [->|Hq].
    - rw list_lookup_alter_eq !list_lookup_fmap. destruct (h_procs h !! cur); [|done]. cbn. unfold exit_slot. by rewrite -> decide_True by done.
    - rw list_lookup_alter_ne // !list_lookup_fmap. destruct (h_procs h !! q); [|done]. cbn. unfold exit_slot. by rewrite -> decide_False by done. }
  apply bind_stop. apply (sched_run _ cur (exit_slot cur pr h cur pr)).
  - split; [split|..]; try done; cbn; [by rw length_imap|]. by rw list_lookup_imap Hp.
  - unfold exit_slot. by rewrite -> decide_True by done.
Qed.
End exit.

(** ** Reaping *)

(** The pages of a process: its address space and its kernel stack, none of
    them free. *)
Record proc_pages (s : memst) (l : list Z) (r : proc) (T : gmap Z Z) : Prop := {
  pp_space : space_ok s l (p_pgdir r) T;
  pp_stack : page_ok s (p_kstack r);
  pp_used : p_kstack r ∉ l;
  pp_own : ¬ space_pages s (p_pgdir r) T (p_kstack r)
}.

Definition owned (s : memst) (r : proc) (T : gmap Z Z) (p : Z) : Prop := p = p_kstack r ∨ space_pages s (p_pgdir r) T p.

(** A free page outside an address space leaves it as it is. *)
Lemma space_freed s l d T f :
  space_ok s l d T → page_ok s f → f ∉ l → ¬ space_pages s d T f →
  space_ok (freed f s) (f :: l) d T ∧ ∀ p, space_pages (freed f s) d T p ↔ space_pages s d T p.
Proof.
  intros [HP Hpg Hinj] Hf Hfl Hno. unfold space_pages in Hno.
  destruct (pt_ok_freed s l d T f HP Hf Hfl ltac:(naive_solver) ltac:(naive_solver)) as [HP' Hpte].
  assert (∀ v, ppage (m_mem (freed f s)) T v = ppage (m_mem s) T v) as Hpp by (intros v; by apply ppage_pte).
  split; [split; [done|..]|].
  - intros v g Hv. rw Hpp. intros Hg. destruct (Hpg v g Hv Hg) as (? & ? & ? & ?). split_and!; try done.
    apply not_elem_of_cons. split; [|done]. intros ->. apply Hno. right. right. by exists v.
  - intros v w g Hv Hw. rw !Hpp. by apply Hinj.
  - intros p. unfold space_pages. by setoid_rewrite Hpp.
Qed.

Section wait.
Implicit Types (h : hw) (s : memst).

Definition slot_is (P : proc → bool) h (i : nat) : Prop := (P <$> h_procs h !! i) = Some true.
#[global] Instance slot_is_dec P h i : Decision (slot_is P h i).
Proof. unfold slot_is. apply _. Defined.

Lemma reap_run h s l i r T (cont : K memst (option Z * bool)) :
  wf_hw h → h_locks h !! ptable_lock = None → h_locks h !! kmem_lock = None → h_procs h !! i = Some r → proc_pages s l r T →
  ∃ s' l', (kfree (p_kstack r);;
    modproc i (set_p_kstack 0);;
    freevm (p_pgdir r);;
    modproc i (λ x, set_p_state UNUSED (set_p_killed false (set_p_name (<[0%nat := 0]> (p_name x))
      (set_p_parent None (set_p_pid 0 x)))));;
    release ptable_lock;; cont) (acq ptable_lock h, s) = cont (settle (upd_proc i reaped h), s') ∧
    kmem_inv s' l' ∧ (∀ p, p ∈ l' ↔ p ∈ l ∨ owned s r T p) ∧ only_pages (owned s r T) (m_mem s) (m_mem s') ∧ same_kernel s s'.
Proof.
  intros Hw Hf Hk Hi [HS Hst Hu Ho].
  assert (∀ h, wf_hw h → h_locks h !! kmem_lock = None → kmem_ready (acq ptable_lock h)) as Hr.
  { intros h' Hw' Hk'. split; [by apply wf_acq|]. unfold acq. cbn. by rw lookup_insert_ne. }
  pose proof (ki_end _ _ (pt_inv _ _ _ _ (sp_pt _ _ _ _ HS))) as He.
  assert (∀ b h, wf_hw h → cycle b (acq ptable_lock h) = acq ptable_lock h) as Hcy by (intros [] h' Hw'; [by apply settle_acq|done]).
  rw (bind_ok _ _ _ _ _ (kfree_run (acq ptable_lock h) s (p_kstack r) (Hr h Hw Hk) He Hst)). rewrite -> Hcy by done.
  rw (bind_ok _ _ _ _ _ (modproc_run i _ _ _)) upd_proc_acq.
  destruct (space_freed s l (p_pgdir r) T (p_kstack r) HS Hst Hu Ho) as [HS1 Hpg]. set (h1 := upd_proc i (set_p_kstack 0) h).
  destruct (freevm_run (p_pgdir r) T (acq ptable_lock h1) (freed (p_kstack r) s) (p_kstack r :: l) HS1 (Hr h1 Hw Hk)) as (h2 & s2 & l2 & E & [HI Hh Hke Hfr Hop]).
  assert (h2 = acq ptable_lock h1) as -> by (destruct Hh as [->| ->]; [done|by apply Hcy]).
  rw (bind_ok _ _ _ _ _ E) (bind_ok _ _ _ _ _ (modproc_run i _ _ _)) upd_proc_acq. unfold h1. rw upd_proc_upd.
  exists s2, l2. split_and!; [|done|..].
  - by rw (bind_ok _ _ _ _ _ (release_ok (upd_proc i _ h) s2 ptable_lock Hw Hf)).
  - intros p. rw Hfr elem_of_cons Hpg. unfold owned. tauto.
  - intros a b Ha Hna Hb. rewrite -> (Hop a b Ha); [|by rw Hpg; intros ?; apply Hna; right|done].
    apply (only_pages_freed s (p_kstack r) (proj1 Hst) a b Ha); [|done]. intros ->. apply Hna. by left.
  - exact Hke.
Qed.

Lemma wait_scan_run h s cur : ∀ ls b,
  wf_hw h → h_locks h !! ptable_lock = None → h_locks h !! kmem_lock = None → Forall (λ i, i < length (h_procs h))%nat ls →
  match list_find (slot_is (zchild cur) h) ls with
  | Some (_, i) => ∀ r l T, h_procs h !! i = Some r → proc_pages s l r T →
      ∃ s' l', wait_scan ls cur b (acq ptable_lock h, s) = Ok (Some (p_pid r), true) (settle (upd_proc i reaped h), s') ∧
        kmem_inv s' l' ∧ (∀ p, p ∈ l' ↔ p ∈ l ∨ owned s r T p) ∧ only_pages (owned s r T) (m_mem s) (m_mem s') ∧ same_kernel s s'
  | None => wait_scan ls cur b (acq ptable_lock h, s)
      = Ok (None, b || existsb (λ i, bool_decide (slot_is (child cur) h i)) ls) (acq ptable_lock h, s)
  end.
Proof.
  induction ls as [|i ls IH]; intros b Hw Hf Hk Hls; cbn [list_find wait_scan existsb].
  { by rw orb_false_r. }
  apply Forall_cons in Hls as [Hi Hls]. apply lookup_lt_is_Some in Hi as [r Hi].
  specialize (λ b, IH b Hw Hf Hk Hls).
  assert (slot_is (child cur) h i ↔ child cur r = true) as Hc by (unfold slot_is; rw Hi /=; split; [by intros [= ?]|by intros ->]).
  assert (slot_is (zchild cur) h i ↔ zchild cur r = true) as Hz by (unfold slot_is; rw Hi /=; split; [by intros [= ?]|by intros ->]).
  rw (bind_ok _ _ _ _ _ (proc_at_ok (acq ptable_lock h) s i r _)); [by rw procs_acq|]. fold (child cur r).
  destruct (child cur r) eqn:Ec; cbn [negb].
  - rewrite -> (bool_decide_eq_true_2 _ (proj2 Hc eq_refl)). unfold zchild in Hz. rw Ec in Hz. cbn [andb] in Hz.
    case_bool_decide as Es.
    + rewrite -> decide_True by (by apply Hz). intros r' l T. rw Hi. intros [= <-] HP.
      by apply (reap_run h s l i r T (mret (Some (p_pid r), true))).
    + rewrite -> decide_False by (by rw Hz). specialize (IH true).
      destruct (list_find _ ls) as [[j k]|]; cbn; [done|]. by rw IH orb_true_r.
  - rewrite -> decide_False by (rw Hz; unfold zchild; by rw Ec). rewrite -> (bool_decide_eq_false_2 (slot_is (child cur) h i)) by (by rw Hc).
    specialize (IH b). by destruct (list_find _ ls) as [[j k]|].
Qed.

Lemma slots_all h : length (h_procs h) = NPROC → Forall (λ i, i < length (h_procs h))%nat (seq 0 NPROC).
Proof. intros Hl. rw Hl. by eapply round_slots. Qed.

Lemma slots_exist P h : length (h_procs h) = NPROC → existsb (λ i, bool_decide (slot_is P h i)) (seq 0 NPROC) = existsb P (h_procs h).
Proof.
  intros Hl. apply eq_bool_prop_intro. rw !Is_true_true !existsb_exists. split.
  - intros (i & _ & Hi%bool_decide_eq_true). unfold slot_is in Hi. destruct (h_procs h !! i) as [r|] eqn:E; [|done].
    exists r. split; [|by injection Hi]. by eapply list_elem_of_In, list_elem_of_lookup_2.
  - intros (r & [i Hi]%list_elem_of_In%list_elem_of_lookup & Hr). exists i. split.
    + apply list_elem_of_In, elem_of_seq. rw -Hl. apply lookup_lt_Some in Hi. lia.
    + apply bool_decide_eq_true_2. unfold slot_is. by rw Hi /= Hr.
Qed.
(** What [wait] finds: the first zombie among the children in the table, or none. *)
Definition waits (h : hw) (s : memst) (p : nat) (pr : proc) (o : outcome (hw * memst) Z) : Prop :=
  match list_find (slot_is (zchild p) h) (seq 0 NPROC) with
  | Some (_, i) => ∀ r l T, h_procs h !! i = Some r → proc_pages s l r T →
      ∃ s' l', o = Ok (p_pid r) (settle (upd_proc i reaped h), s') ∧
        kmem_inv s' l' ∧ (∀ p, p ∈ l' ↔ p ∈ l ∨ owned s r T p) ∧ only_pages (owned s r T) (m_mem s) (m_mem s') ∧ same_kernel s s'
  | None => o = if existsb (child p) (h_procs h) && negb (p_killed pr)
      then Stop Switch (acq ptable_lock (upd_proc p (asleep (proc_chan (Some p))) h), s) else Ok (-1) (settle h, s)
  end.

Lemma wait_loop_run h s p pr :
  runs h p pr → h_locks h !! kmem_lock = None → waits h s p pr (wait_loop p (acq ptable_lock h, s)).
Proof.
  intros Hr Hk. pose proof Hr as [[Hw Hf Hl] Hn Hc Hp]. unfold waits, wait_loop.
  pose proof (wait_scan_run h s p (seq 0 NPROC) false Hw Hf Hk (slots_all h Hl)) as Hs.
  destruct (list_find _ _) as [[j i]|].
  - intros r l T Hi HP. destruct (Hs r l T Hi HP) as (s' & l' & E & H). exists s', l'. split; [|done]. by rw (bind_ok _ _ _ _ _ E).
  - rw (bind_ok _ _ _ _ _ Hs) (bind_ok _ _ _ _ _ (proc_at_ok _ s p pr (runs_acq_proc _ _ _ _ Hr))). cbn [orb]. rewrite -> slots_exist by done.
    destruct (existsb (child p) (h_procs h)), (p_killed pr); cbn [negb orb andb];
      try (by rw (bind_ok _ _ _ _ _ (release_ok h s ptable_lock Hw Hf))).
    apply bind_stop. by eapply sleep_ptable_run.
Qed.
End wait.

(** ** Properties *)

(** C14: the end of a process.  The last part of [exit] makes the process a
    zombie, makes its parent RUNNABLE if it waits, gives every child of the process to
    init, which is woken if one of them is a zombie, changes nothing else in
    the table, and switches away for good; the parent finds the zombie.  [wait], called or resumed after its sleep, frees
    the slot of the first zombie among the children and returns its pid, with every
    page of its address space and its kernel stack, and no other page, back in
    the free list; without a zombie it sleeps if there are children and
    the process is not killed, and returns -1 otherwise. *)
Theorem exit_wait_correct (h : hw) (p : nat) (pr : proc) (s : memst) :
  runs h p pr → h_locks h !! kmem_lock = None → p_parent pr ≠ Some p → h_initproc h ≠ Some p →
  (∃ h', exit_zombie p (h, s) = Stop Switch (acq ptable_lock h', s) ∧
    h' = set_h_procs (imap (exit_slot p pr h) (h_procs h)) h ∧
    (∀ q, ¬ slot_is (child p) h' q) ∧
    (∀ q, p_parent pr = Some q → slot_is (zchild q) h' p) ∧
    (∀ q r, p_parent pr = Some q → h_procs h !! q = Some r → p_state r = SLEEPING → p_chan r = proc_chan (Some q) →
       p_state <$> h_procs h' !! q = Some RUNNABLE)) ∧
  waits h s p pr (wait (h, s)) ∧
  waits (upd_proc p (set_p_chan None) h) s p (set_p_chan None pr) (wait_resume p (h_if h) (acq ptable_lock h, s)).
Proof.
  intros Hr Hk Hself Hinit. pose proof Hr as [[Hw Hf Hl] Hn Hc Hp]. split_and!.
  - eexists. split; [by apply exit_zombie_run|]. split_and!; [done|..]; unfold slot_is; cbn [h_procs set_h_procs].
    + intros q. rw list_lookup_imap. destruct (h_procs h !! q) as [r|]; [|done]. cbn. intros [= E]. by apply (exit_slot_child p pr h q r).
    + intros q Hq. rw list_lookup_imap Hp /=. f_equal. apply exit_slot_zombie; [done|congruence].
    + intros q r Hq Hqr Hs Hch. rw list_lookup_imap Hqr /=. f_equal. apply exit_slot_parent; try done. { congruence. } by rw Hq.
  - unfold wait. rw (bind_ok _ _ _ _ _ (myproc_ok h s Hw)) Hc.
    rw (bind_ok _ _ _ _ _ (acquire_ok (settle h) s _ _ _)); [by apply wf_settle|by rw locks_settle|].
    rewrite -> acq_settle by done. by apply wait_loop_run.
  - unfold wait_resume, sleep_resume. rw bind_assoc (bind_ok _ _ _ _ _ (sched_resume_run h p pr s Hr)).
    rw bind_assoc (bind_ok _ _ _ _ _ (modproc_run p _ _ s)) upd_proc_acq. rewrite -> bool_decide_eq_false_2 by naive_solver.
    rw bind_run. cbn [when mret M_ret]. apply wait_loop_run; [by apply runs_upd|done].
Qed.

(** ** The property on a concrete machine *)

(** Process 7 runs, its child 8 is a zombie, and its parent, init, waits. *)
Definition ex_zombie : proc :=
  set_p_parent (Some 0%nat) (set_p_kstack 0x80700000 (set_p_pgdir ex_pgdir (set_p_state ZOMBIE (set_p_pid 8 zero_proc)))).
Definition ex_caller : proc := set_p_parent (Some 2%nat) (set_p_state RUNNING (set_p_pid 7 zero_proc)).
Definition ex_life : hw :=
  set_h_initproc (Some 2%nat) (set_h_procs
    (ex_caller :: ex_zombie :: asleep (proc_chan (Some 2%nat)) (set_p_pid 1 zero_proc) :: replicate 61 zero_proc) boot_hw).

Lemma ex_life_runs : runs ex_life 0 ex_caller.
Proof. split; [split; [apply boot_hw_wf|done..]| |done..]. by intros c [= <-]. Qed.

Lemma ex_zombie_pages : proc_pages ex_space [0x80400000; 0x80401000] ex_zombie {[0 := ex_tab]}.
Proof.
  split; [apply ex_space_ok|by split|by apply (bool_decide_unpack _); vm_compute|].
  intros [E|[[i E]|(v & _ & E)]]; [done|..].
  - by apply lookup_singleton_Some in E as [_ E].
  - rw ex_space_frame in E. by destruct (decide (v = 0)).
Qed.

Lemma exit_wait_correct_witness :
  (∃ h', exit_zombie 0 (ex_life, ex_space) = Stop Switch (acq ptable_lock h', ex_space) ∧
    slot_is (zchild 2) h' 0 ∧ p_state <$> h_procs h' !! 2%nat = Some RUNNABLE) ∧
  ∃ s' l', wait (ex_life, ex_space) = Ok 8 (settle (upd_proc 1 reaped ex_life), s') ∧ kmem_inv s' l' ∧ (0x80700000 ∈ l') ∧ 0x80600000 ∈ l'.
Proof.
  destruct (exit_wait_correct ex_life 0 ex_caller ex_space ex_life_runs eq_refl ltac:(done) ltac:(done))
    as ((h' & E & _ & _ & Hz & Hp) & Hw & _).
  split.
  - exists h'. split_and!; [exact E|by apply Hz|by apply (Hp 2%nat (asleep (proc_chan (Some 2%nat)) (set_p_pid 1 zero_proc)))].
  - destruct (Hw ex_zombie _ _ eq_refl ex_zombie_pages) as (s' & l' & E' & HI & Hl & _). exists s', l'. split_and!; [exact E'|exact HI|..].
    + apply Hl. right. by left.
    + apply Hl. right. right. right. right. exists 0. split; [split; [reflexivity || discriminate|reflexivity]|exact (ex_space_frame 0)].
Defined.
