(* ===== verification/Fork.v ===== *)
(** * [fork] of proc.c

    The new process: its slot and pid, its copy of the address space, the
    descriptors and the directory it shares with its parent. *)

From S2P Require Import Prelude Machine Spinlock Console Mem CString Kalloc PrioLock Sched Vm Uvm Sleeplock Pipe Ring Bytes Bio Cache Log Recovery Txn Fs ConsoleIn File Proc Lifecycle.

(** ** The machine between two lock sections *)

(** The CPU is in order and a lock section leaves it as it is. *)
Record calm (g : hw) : Prop := {
  ca_wf : wf_hw g;
  ca_settled : settle g = g
}.

Lemma calm_settle h : wf_hw h → calm (settle h).
Proof. intros Hw. split; [by apply wf_settle|apply settle_settle]. Qed.

Lemma calm_upd i f g : calm g → calm (upd_proc i f g).
Proof. intros [Hw Hs]. split; [done|]. by rw upd_proc_settle Hs. Qed.

Lemma settle_set_nextpid v g : settle (set_h_nextpid v g) = set_h_nextpid v (settle g).
Proof. unfold settle, upd_me. change (me (set_h_nextpid v g)) with (me g). by destruct (me g). Qed.
Lemma acq_set_nextpid lk v g : set_h_nextpid v (acq lk g) = acq lk (set_h_nextpid v g).
Proof. unfold acq, push, upd_me. change (me (set_h_nextpid v g)) with (me g). by destruct (me g). Qed.

Lemma calm_nextpid v g : calm g → calm (set_h_nextpid v g).
Proof. intros [Hw Hs]. split; [done|]. by rw settle_set_nextpid Hs. Qed.

Lemma calm_cycle b g : calm g → cycle b g = g.
Proof. intros [_ Hs]. by destruct b. Qed.

Lemma calm_release {C} lk g (x : C) : calm g → h_locks g !! lk = None → release lk (acq lk g, x) = Ok tt (g, x).
Proof. intros [Hw Hs] Hl. rewrite -> release_ok by done. by rw Hs. Qed.

Lemma upd_proc_set_nextpid i f v g : upd_proc i f (set_h_nextpid v g) = set_h_nextpid v (upd_proc i f g).
Proof. done. Qed.

Lemma nextpid_acq lk g : h_nextpid (acq lk g) = h_nextpid g.
Proof. unfold acq, push, upd_me. by destruct (me g). Qed.

Lemma geth_run {C} g (x : C) : geth (g, x) = Ok g (g, x).
Proof. done. Qed.
Lemma modh_run {C} f g (x : C) : modh f (g, x) = Ok tt (f g, x).
Proof. done. Qed.

(** ** A slot for the process *)

Definition unused (r : proc) : bool := bool_decide (p_state r = UNUSED).

Lemma allocproc_scan_run {C} g (x : C) : ∀ ls,
  Forall (λ i, i < length (h_procs g))%nat ls →
  allocproc_scan ls (g, x) = Ok (snd <$> list_find (slot_is unused g) ls) (g, x).
Proof.
  induction ls as [|i ls IH]; intros Hls; [done|]. apply Forall_cons in Hls as [Hi Hls]. apply lookup_lt_is_Some in Hi as [r Hr].
  cbn [allocproc_scan list_find]. rw (bind_ok _ _ _ _ _ (proc_at_ok g x i r Hr)).
  assert (slot_is unused g i ↔ p_state r = UNUSED) as Hu.
  { unfold slot_is, unused. rw Hr /=. split; [by intros [= ?%bool_decide_eq_true]|]. intros ?. by rewrite -> bool_decide_eq_true_2. }
  case_bool_decide as E; [by rewrite -> decide_True by (by apply Hu)|]. rewrite -> decide_False by (by rw Hu). rw IH //.
  by destruct (list_find _ ls) as [[]|].
Qed.

(** ** The descriptors *)

(** How many of the descriptors [fs] are the file [f]. *)
Definition descriptors (f : nat) (fs : list (option nat)) : nat := length (filter (λ o, o = Some f) fs).

(** The table of files after every descriptor of [fs] was duplicated. *)
Definition dup_files (fs : list (option nat)) (files : list file) : list file :=
  imap (λ f x, set_f_ref (f_ref x + Z.of_nat (descriptors f fs)) x) files.

(** The descriptors of the child: those of the parent over its own. *)
Definition inherit (fs old : list (option nat)) : list (option nat) :=
  zip_with (λ a b, match a with Some f => Some f | None => b end) fs old.

Lemma dup_files_nil files : dup_files [] files = files.
Proof.
  unfold dup_files. apply list_eq. intros f. rw list_lookup_imap. destruct (files !! f) as [x|]; [|done]. cbn. f_equal.
  unfold descriptors. cbn. rw Z.add_0_r. by destruct x.
Qed.

Lemma dup_files_none fs files : dup_files (fs ++ [None]) files = dup_files fs files.
Proof.
  unfold dup_files. apply imap_ext. intros f x _. unfold descriptors. by rw filter_app /= app_nil_r.
Qed.

Lemma dup_files_some fs files f :
  alter (λ x, set_f_ref (f_ref x + 1) x) f (dup_files fs files) = dup_files (fs ++ [Some f]) files.
Proof.
  unfold dup_files. apply list_eq. intros k. destruct (decide (k = f)) as [->|Hk].
  - rw list_lookup_alter_eq !list_lookup_imap. destruct (files !! f) as [x|]; [|done]. cbn [fmap option_fmap option_map].
    change (set_f_ref ?a (set_f_ref _ x)) with (set_f_ref a x). cbn [f_ref set_f_ref]. do 2 f_equal.
    unfold descriptors. rw filter_app length_app filter_cons_True //=. lia.
  - rw list_lookup_alter_ne // !list_lookup_imap. destruct (files !! k) as [x|]; [|done]. cbn. do 2 f_equal.
    unfold descriptors. rw filter_app filter_cons_False /=; [congruence|]. by rw app_nil_r.
Qed.

Lemma filedup_run g k f x :
  calm g → h_locks g !! ftable_lock = None → k_files k !! f = Some x → 1 ≤ f_ref x →
  filedup f (g, k) = Ok f (g, set_k_files (alter (λ x, set_f_ref (f_ref x + 1) x) f (k_files k)) k).
Proof.
  intros Hc Hl Hf Hr. unfold filedup. rw (bind_ok _ _ _ _ _ (acquire_ok g k _ (ca_wf _ Hc) Hl)).
  rw (bind_ok _ _ _ x (acq ftable_lock g, k)); [unfold file_at; by rw bind_run /= Hf|].
  rewrite -> (proj2 (Z.ltb_ge _ _)) by done. rw (bind_ok _ _ _ tt (acq ftable_lock g, set_k_files (alter (λ x, set_f_ref (f_ref x + 1) x) f (k_files k)) k)) //.
  by rw (bind_ok _ _ _ _ _ (calm_release ftable_lock g _ Hc Hl)).
Qed.

(** The parent's descriptors name files in use. *)
Definition files_open (fs : list (option nat)) (files : list file) : Prop :=
  ∀ i f, fs !! i = Some (Some f) → ∃ x, files !! f = Some x ∧ 1 ≤ f_ref x.

Lemma upd_proc_id i f g r : h_procs g !! i = Some r → f r = r → upd_proc i f g = g.
Proof. intros Hr Hf. unfold upd_proc. rewrite -> (alter_id_at _ _ _ r) by done. by destruct g. Qed.

Lemma fork_files_run g k cur np pr r :
  calm g → h_locks g !! ftable_lock = None → h_procs g !! cur = Some pr → h_procs g !! np = Some r → cur ≠ np →
  length (p_ofile pr) = NOFILE → length (p_ofile r) = NOFILE → files_open (p_ofile pr) (k_files k) →
  fork_files cur np (g, k) = Ok tt (upd_proc np (set_p_ofile (inherit (p_ofile pr) (p_ofile r))) g, set_k_files (dup_files (p_ofile pr) (k_files k)) k).
Proof.
  intros Hc Hl Hp Hr Hne Hn1 Hn2 Ho. set (ofs := inherit (p_ofile pr) (p_ofile r)).
  assert (length ofs = NOFILE) as Hno by (unfold ofs, inherit; rw length_zip_with; lia).
  destruct (mfor_rule (λ (l1 : list nat) (st : hw * kst), let n := length l1 in
      st = (upd_proc np (set_p_ofile (take n ofs ++ drop n (p_ofile r))) g, set_k_files (dup_files (take n (p_ofile pr)) (k_files k)) k))
    (λ i, p ← proc_at (Some cur);
      match p_ofile p !! i with
      | Some (Some f) => f ← filedup f; modproc np (λ x, set_p_ofile (<[i := Some f]> (p_ofile x)) x)
      | _ => mret tt
      end) (seq 0 NOFILE) [] (g, k)) as (st & E & Hst).
  - cbn. rw dup_files_nil. f_equal; [|by destruct k]. symmetry. by apply upd_proc_id with r; [done|destruct r].
  - intros l1 i l2 st El ->.
    assert (i = length l1 ∧ (i < NOFILE)%nat) as [-> Hi].
    { assert (seq 0 NOFILE !! length l1 = Some i) as Hi by (change (seq 0 NOFILE) with ([] ++ seq 0 NOFILE); by rw El list_lookup_middle). apply lookup_seq in Hi. lia. }
    destruct (lookup_lt_is_Some_2 (p_ofile pr) (length l1) ltac:(lia)) as [a Ha].
    destruct (lookup_lt_is_Some_2 (p_ofile r) (length l1) ltac:(lia)) as [b Hb].
    assert (ofs !! length l1 = Some (match a with Some f => Some f | None => b end)) as Hab by (unfold ofs, inherit; by rw lookup_zip_with Ha /= Hb).
    rw (bind_ok _ _ _ _ _ (proc_at_ok _ _ cur pr _)); [cbn; by rw list_lookup_alter_ne|]. rw Ha length_app Nat.add_1_r. cbv zeta.
    rewrite -> (take_S_r _ _ _ Hab), (take_S_r _ _ _ Ha), (drop_S _ _ _ Hb), <-app_assoc. cbn [app].
    destruct a as [f|]; [|eexists; split; [done|]; by rw dup_files_none].
    destruct (Ho _ _ Ha) as (x & Hx & Hx1).
    rw (bind_ok _ _ _ _ _ (filedup_run _ _ f (set_f_ref (f_ref x + Z.of_nat (descriptors f (take (length l1) (p_ofile pr)))) x) _ _ _ _)).
    + by apply calm_upd.
    + done.
    + cbn. unfold dup_files. by rw list_lookup_imap Hx.
    + cbn. lia.
    + eexists. split; [|done]. rw modproc_run upd_proc_upd. cbn [k_files set_k_files]. rw dup_files_some.
      assert (<[length l1:=Some f]> (take (length l1) ofs ++ b :: drop (S (length l1)) (p_ofile r))
        = take (length l1) ofs ++ Some f :: drop (S (length l1)) (p_ofile r)) as <-; [|done].
      rewrite -> insert_app_r_alt by (rw length_take; lia). by rewrite -> length_take, Nat.min_l, Nat.sub_diag by lia.
  - unfold fork_files. rw E. cbv zeta in Hst. rw app_nil_l length_seq in Hst. rw Hst.
    by rewrite -> !take_ge, drop_ge, app_nil_r by lia.
Qed.

Lemma unused_settle g : list_find (slot_is unused (settle g)) (seq 0 NPROC) = list_find (slot_is unused g) (seq 0 NPROC).
Proof. apply list_find_ext. intros i. unfold slot_is. by rw procs_settle. Qed.

Section fork.
Context (forkret_addr : Z).

(** The slot that [allocproc] returns, with the page of its stack. *)
Definition embryo (pid kstack : Z) (r : proc) : proc :=
  set_p_context (set_cx_eip forkret_addr zero_context) (set_p_kstack kstack (set_p_pid pid (set_p_state EMBRYO r))).
(** The slot after it found no page. *)
Definition no_stack (pid : Z) (r : proc) : proc :=
  set_p_state UNUSED (set_p_kstack 0 (set_p_pid pid (set_p_state EMBRYO r))).

Definition next_pid (g : hw) : hw := set_h_nextpid (s32 (h_nextpid g + 1)) g.

Lemma allocproc_run g m l :
  calm g → h_locks g !! ptable_lock = None → h_locks g !! kmem_lock = None → length (h_procs g) = NPROC → kmem_inv m l →
  allocproc forkret_addr (g, m) =
    match snd <$> list_find (slot_is unused g) (seq 0 NPROC) with
    | None => Ok None (g, m)
    | Some np =>
        match l with
        | [] => Ok None (upd_proc np (no_stack (h_nextpid g)) (next_pid g), m)
        | a :: _ => Ok (Some np) (upd_proc np (embryo (h_nextpid g) a) (next_pid g), taken l m)
        end
    end.
Proof using Type.
  intros Hc Hf Hk Hl HI. unfold allocproc. rw (bind_ok _ _ _ _ _ (acquire_ok g m _ (ca_wf _ Hc) Hf)).
  rw (bind_ok _ _ _ _ _ (allocproc_scan_run (acq ptable_lock g) m (seq 0 NPROC) _)).
  { rw procs_acq. by apply slots_all. }
  assert (list_find (slot_is unused (acq ptable_lock g)) (seq 0 NPROC) = list_find (slot_is unused g) (seq 0 NPROC)) as ->.
  { apply list_find_ext. intros i. unfold slot_is. by rw procs_acq. }
  destruct (snd <$> _) as [np|]; cycle 1.
  { by rw (bind_ok _ _ _ _ _ (calm_release ptable_lock g m Hc Hf)). }
  rw (bind_ok _ _ _ _ _ (modproc_run np _ _ m)) upd_proc_acq (bind_ok _ _ _ _ _ (geth_run _ m)).
  rw (bind_ok _ _ _ _ _ (modproc_run np _ _ m)) upd_proc_acq upd_proc_upd nextpid_acq (bind_ok _ _ _ _ _ (modh_run _ _ m)).
  rw nextpid_acq acq_set_nextpid. change (h_nextpid (upd_proc np _ g)) with (h_nextpid g). fold (next_pid g).
  set (f := set_p_pid (h_nextpid g) ∘ set_p_state EMBRYO).
  change (set_h_nextpid _ (upd_proc np f g)) with (upd_proc np f (next_pid g)).
  assert (calm (upd_proc np f (next_pid g))) as Hc' by (by apply calm_upd, calm_nextpid).
  rw (bind_ok _ _ _ _ _ (calm_release ptable_lock _ m Hc' Hf)).
  rw (bind_ok _ _ _ _ _ (kalloc_run _ m l (conj (ca_wf _ Hc') Hk) HI)). rewrite -> calm_cycle by done.
  rw (bind_ok _ _ _ _ _ (modproc_run np _ _ _)) upd_proc_upd. destruct l as [|a l]; cbn [hd].
  - by rw Z.eqb_refl (bind_ok _ _ _ _ _ (modproc_run np _ _ _)) upd_proc_upd.
  - pose proof (kalloc_page _ m l a (conj (ca_wf _ Hc') Hk) HI) as (_ & _ & _ & _ & Ha). rewrite -> (proj2 (Z.eqb_neq _ _) Ha).
    by rw (bind_ok _ _ _ _ _ (modproc_run np _ _ _)) upd_proc_upd.
Qed.
(** The child of the process in slot [cur], with [pr], in the slot [r]. *)
Definition inherited (cur : nat) (pr r : proc) : proc :=
  set_p_state RUNNABLE (set_p_name (safestrcpy (p_name r) (p_name pr) 16) (set_p_cwd (p_cwd pr)
    (set_p_ofile (inherit (p_ofile pr) (p_ofile r)) (set_p_tf (set_tf_eax 0 (p_tf pr)) (set_p_parent (Some cur) (set_p_sz (p_sz pr) r)))))).
Definition forked (cur : nat) (pr : proc) (pid kstack d : Z) (r : proc) : proc :=
  inherited cur pr (set_p_pgdir d (embryo pid kstack r)).
Definition fork_failed (pid kstack : Z) (r : proc) : proc :=
  set_p_state UNUSED (set_p_kstack 0 (set_p_pgdir 0 (embryo pid kstack r))).

(** One more reference to the inode in slot [ip]. *)
Definition ref_inode (ip : nat) (s : fsst) : fsst := set_fs_inodes (alter (λ i, set_i_ref (i_ref i + 1) i) ip (fs_inodes s)) s.

Lemma idup_run g s ip :
  calm g → h_locks g !! icache_lock = None → idup ip (g, s) = Ok ip (g, ref_inode ip s).
Proof using Type.
  intros Hc Hl. unfold idup. rw (bind_ok _ _ _ _ _ (acquire_ok g s _ (ca_wf _ Hc) Hl)).
  rw (bind_ok _ _ _ tt (acq icache_lock g, ref_inode ip s)) //. by rw (bind_ok _ _ _ _ _ (calm_release icache_lock g _ Hc Hl)).
Qed.

Lemma deref_run ip st : deref (Some ip) st = Ok ip st.
Proof using Type. done. Qed.

Lemma zoom_kmem {A} (m : K memst A) h k a h' m' : m (h, k_mem k) = Ok a (h', m') → inmem m (h, k) = Ok a (h', set_k_mem m' k).
Proof using Type. intros E. unfold inmem, zoom. cbn. by rw E. Qed.
Lemma zoom_kfs {A} (m : K fsst A) h k a h' s' : m (h, k_fs k) = Ok a (h', s') → infs m (h, k) = Ok a (h', set_k_fs s' k).
Proof using Type. intros E. unfold infs, zoom. cbn. by rw E. Qed.

(** [fork] after the copy of the address space. *)
Lemma fork_tail g k cur np pr r ip :
  calm g → h_locks g !! ptable_lock = None → h_locks g !! ftable_lock = None → h_locks g !! icache_lock = None →
  h_procs g !! cur = Some pr → h_procs g !! np = Some r → cur ≠ np → length (p_ofile pr) = NOFILE → length (p_ofile r) = NOFILE →
  files_open (p_ofile pr) (k_files k) → p_cwd pr = Some ip →
  (p ← proc_at (Some cur);
   modproc np (λ x, set_p_tf (set_tf_eax 0 (p_tf p)) (set_p_parent (Some cur) (set_p_sz (p_sz p) x)));;
   fork_files cur np;;
   p ← proc_at (Some cur);
   cwd ← deref (p_cwd p);
   cwd ← infs (idup cwd);
   modproc np (set_p_cwd (Some cwd));;
   modproc np (λ x, set_p_name (safestrcpy (p_name x) (p_name p) 16) x);;
   n ← proc_at (Some np);
   let pid := p_pid n in
   acquire ptable_lock;;
   modproc np (set_p_state RUNNABLE);;
   release ptable_lock;;
   mret pid) (g, k)
  = Ok (p_pid r) (upd_proc np (inherited cur pr) g, set_k_fs (ref_inode ip (k_fs k)) (set_k_files (dup_files (p_ofile pr) (k_files k)) k)).
Proof using Type.
  intros Hc Hpl Hfl Hil Hp Hr Hne Hn1 Hn2 Ho Hcwd. rw (bind_ok _ _ _ _ _ (proc_at_ok g k cur pr Hp)) (bind_ok _ _ _ _ _ (modproc_run np _ _ _)).
  set (f1 := λ x, set_p_tf _ _).
  assert (∀ f, h_procs (upd_proc np f g) !! cur = Some pr) as Hcur by (intros f; cbn; by rw list_lookup_alter_ne).
  assert (∀ f, h_procs (upd_proc np f g) !! np = Some (f r)) as Hnp by (intros f; cbn; by rw list_lookup_alter_eq Hr).
  rw (bind_ok _ _ _ _ _ (fork_files_run (upd_proc np f1 g) k cur np pr (f1 r) (calm_upd _ _ _ Hc) Hfl (Hcur f1) (Hnp f1) Hne Hn1 Hn2 Ho)) upd_proc_upd.
  rw (bind_ok _ _ _ _ _ (proc_at_ok _ _ cur pr (Hcur _))) Hcwd (bind_ok _ _ _ _ _ (deref_run ip _)).
  rw (bind_ok _ _ _ _ _ (zoom_kfs _ _ _ _ _ _ (idup_run _ _ ip (calm_upd _ _ _ Hc) Hil))).
  rw (bind_ok _ _ _ _ _ (modproc_run np _ _ _)) upd_proc_upd (bind_ok _ _ _ _ _ (modproc_run np _ _ _)) upd_proc_upd.
  rw (bind_ok _ _ _ _ _ (proc_at_ok _ _ np _ (Hnp _))). cbv zeta.
  rw (bind_ok _ _ _ _ _ (acquire_ok (upd_proc np _ g) _ _ (ca_wf _ (calm_upd _ _ _ Hc)) Hpl)).
  rw (bind_ok _ _ _ _ _ (modproc_run np _ _ _)) upd_proc_acq upd_proc_upd.
  rw (bind_ok _ _ _ _ _ (calm_release ptable_lock (upd_proc np _ g) _ (calm_upd _ _ _ Hc) Hpl)).
  unfold mret, M_ret. f_equal. f_equal. eapply upd_proc_ext; [exact Hr|]. unfold inherited. by rw Hcwd.
Qed.
(** A page taken from the free list leaves an address space as it is. *)
Lemma space_taken m a l d T : space_ok m (a :: l) d T → space_ok (taken (a :: l) m) l d T.
Proof using Type.
  intros [[HI [Hd Hdl] Ht Hinj Hp] Hpg Hi]. split; [split|..]; try done.
  - by apply taken_inv.
  - split; [done|]. by intros ?; apply Hdl; right.
  - intros i t Hit. destruct (Ht i t Hit) as (? & ? & Hn & ?). split_and!; try done; [lia..|]. by intros ?; apply Hn; right.
  - intros v f Hv Hf. destruct (Hpg v f Hv Hf) as (? & Hn & ? & ?). split_and!; try done. by intros ?; apply Hn; right.
Qed.

(** The machine and the process that forks. *)
Record forks (h : hw) (k : kst) (p : nat) (pr : proc) (ip : nat) (l : list Z) (T : gmap Z Z) : Prop := {
  fk_runs : runs h p pr;
  fk_state : p_state pr ≠ UNUSED;
  fk_kmem : h_locks h !! kmem_lock = None;
  fk_ftable : h_locks h !! ftable_lock = None;
  fk_icache : h_locks h !! icache_lock = None;
  fk_space : space_ok (k_mem k) l (p_pgdir pr) T;
  fk_data : KERNLINK < m_data (k_mem k) < KERNBASE + PHYSTOP ∧ m_data (k_mem k) mod PGSIZE = 0;
  fk_sz : 0 ≤ p_sz pr ≤ KERNBASE;
  fk_pages : ∀ v, 0 ≤ v < (p_sz pr + PGSIZE - 1) / PGSIZE → is_Some (ppage (m_mem (k_mem k)) T v);
  fk_slots : Forall (λ r, length (p_ofile r) = NOFILE) (h_procs h);
  fk_files : files_open (p_ofile pr) (k_files k);
  fk_cwd : p_cwd pr = Some ip
}.

(** The memory after a copy that failed: the stack is free again. *)
Lemma stack_back m0 m l0 l a d T :
  kmem_inv m0 (a :: l0) → space_ok m l d T → same_kernel m0 m → (∀ q, q ∈ l ↔ q ∈ l0) → (∀ q, space_pages m d T q → q ≠ a) →
  space_ok (freed a m) (a :: l) d T ∧ same_kernel m0 (freed a m) ∧ page_ok m a ∧
  ∀ b, 0 ≤ b < KERNBASE → uread (m_mem (freed a m)) T b = uread (m_mem m) T b.
Proof using Type.
  intros HI HS Hk Hl Hno. pose proof (ki_pages _ _ HI) as [Ha _]%Forall_cons. pose proof (ki_nodup _ _ HI) as [Hal _]%NoDup_cons.
  assert (page_ok m a) as Ha' by (by eapply page_ok_same).
  destruct (space_freed m l d T a HS Ha') as [HS' _]; [by rw Hl|by intros ?%Hno|].
  split_and!; [done|exact Hk|done|].
  apply (uread_kept (λ q, q = a) m l d T (freed a m) HS (only_pages_freed m a (proj1 Ha')) Hno).
  apply (pt_ok_freed m l d T a (sp_pt _ _ _ _ HS) Ha'); [by rw Hl|..].
  - intros ->. by apply (Hno d); [left|].
  - intros i Hi. by apply (Hno a); [right; left; exists i|].
Qed.
(** [fork] from the copy of the address space, with the stack of the child in page [a]. *)
Lemma fork_copy g k p pr ip m0 a l T np r1 :
  calm g → h_locks g !! ptable_lock = None → h_locks g !! kmem_lock = None → h_locks g !! ftable_lock = None → h_locks g !! icache_lock = None →
  h_procs g !! p = Some pr → h_procs g !! np = Some r1 → p ≠ np → length (p_ofile pr) = NOFILE → length (p_ofile r1) = NOFILE →
  files_open (p_ofile pr) (k_files k) → p_cwd pr = Some ip →
  space_ok m0 (a :: l) (p_pgdir pr) T → k_mem k = taken (a :: l) m0 → p_kstack r1 = a →
  KERNLINK < m_data m0 < KERNBASE + PHYSTOP → m_data m0 mod PGSIZE = 0 → 0 ≤ p_sz pr ≤ KERNBASE →
  (∀ v, 0 ≤ v < (p_sz pr + PGSIZE - 1) / PGSIZE → is_Some (ppage (m_mem m0) T v)) →
  ∃ d m' l', (pgdir ← inmem (copyuvm (p_pgdir pr) (p_sz pr));
      modproc np (set_p_pgdir pgdir);;
      if pgdir =? 0 then
        n ← proc_at (Some np);
        inmem (kfree (p_kstack n));;
        modproc np (set_p_kstack 0);;
        modproc np (set_p_state UNUSED);;
        mret (-1)
      else
        p' ← proc_at (Some p);
        modproc np (λ x, set_p_tf (set_tf_eax 0 (p_tf p')) (set_p_parent (Some p) (set_p_sz (p_sz p') x)));;
        fork_files p np;;
        p' ← proc_at (Some p);
        cwd ← deref (p_cwd p');
        cwd ← infs (idup cwd);
        modproc np (set_p_cwd (Some cwd));;
        modproc np (λ x, set_p_name (safestrcpy (p_name x) (p_name p') 16) x);;
        n ← proc_at (Some np);
        let pid := p_pid n in
        acquire ptable_lock;;
        modproc np (set_p_state RUNNABLE);;
        release ptable_lock;;
        mret pid) (g, k)
    = (if decide (d = 0)
       then Ok (-1) (upd_proc np (λ x, set_p_state UNUSED (set_p_kstack 0 (set_p_pgdir 0 x))) g, set_k_mem m' k)
       else Ok (p_pid r1) (upd_proc np (λ x, inherited p pr (set_p_pgdir d x)) g,
         set_k_fs (ref_inode ip (k_fs k)) (set_k_files (dup_files (p_ofile pr) (k_files k)) (set_k_mem m' k)))) ∧
    same_kernel m0 m' ∧ space_ok m' l' (p_pgdir pr) T ∧ (∀ b, 0 ≤ b < KERNBASE → uread (m_mem m') T b = uread (m_mem m0) T b) ∧
    (1025 + (p_sz pr + PGSIZE - 1) / PGSIZE < Z.of_nat (length l) → d ≠ 0) ∧
    if decide (d = 0) then ∀ q, q ∈ l' ↔ q ∈ a :: l
    else ∃ D, space_ok m' l' d D ∧ apart m' (p_pgdir pr) T d D ∧ (∀ q, q ∈ l' ∨ space_pages m' d D q ↔ q ∈ l) ∧
      (∀ b, 0 ≤ b < (p_sz pr + PGSIZE - 1) / PGSIZE * PGSIZE → uread (m_mem m') D b = uread (m_mem m0) T b) ∧
      (∀ v, (p_sz pr + PGSIZE - 1) / PGSIZE ≤ v < UTOP → ppage (m_mem m') D v = None).
Proof using Type.
  intros Hc Hpl Hkl Hfl Hil Hp Hr Hne Hn1 Hn2 Ho Hcwd HS0 Hk Hks Hd Hdm Hsz Hpre.
  pose proof (space_taken _ _ _ _ _ HS0) as HS. rw -Hk in HS.
  destruct (copyuvm_run (p_pgdir pr) (p_sz pr) g (k_mem k) l T HS (conj (ca_wf _ Hc) Hkl)) as (d & h' & s' & l' & E & Hh & Hsk & HS' & Hpg & Hu & Hd0 & Hres);
    [rw ?Hk; done..|].
  assert (h' = g) as -> by (destruct Hh as [->| ->]; [done|by apply calm_cycle]). rw (bind_ok _ _ _ _ _ (zoom_kmem _ _ _ _ _ _ E)).
  rw (bind_ok _ _ _ _ _ (modproc_run np _ _ _)). rw Hk in Hsk. rw Hk in Hu. rw Hk in Hres.
  assert (∀ f, h_procs (upd_proc np f g) !! np = Some (f r1)) as Hnp by (intros f; cbn; by rw list_lookup_alter_eq Hr).
  assert (∀ f, h_procs (upd_proc np f g) !! p = Some pr) as Hcur by (intros f; cbn; by rw list_lookup_alter_ne).
  destruct (decide (d = 0)) as [->|Hdn].
  - destruct (stack_back m0 s' l l' a (p_pgdir pr) T (pt_inv _ _ _ _ (sp_pt _ _ _ _ HS0)) HS' Hsk Hres) as (HS2 & Hk2 & Ha & Hu2).
    { intros q Hq%Hpg ->. rw Hk in Hq. destruct (space_owned m0 (a :: l) (p_pgdir pr) T a HS0 Hq) as [_ Hn]. apply Hn. by left. }
    exists 0, (freed a s'), (a :: l'). rewrite -> decide_True by done. split_and!; try done.
    + rw Z.eqb_refl (bind_ok _ _ _ _ _ (proc_at_ok _ _ np _ (Hnp _))). cbn [p_kstack set_p_pgdir]. rw Hks.
      rw (bind_ok _ _ _ _ _ (zoom_kmem (kfree a) (upd_proc np (set_p_pgdir 0) g) (set_k_mem s' k) _ _ _ (kfree_run (upd_proc np (set_p_pgdir 0) g) s' a (conj (ca_wf _ (calm_upd _ _ _ Hc)) Hkl) _ Ha))).
      { apply (ki_end _ _ (pt_inv _ _ _ _ (sp_pt _ _ _ _ HS'))). }
      rewrite -> calm_cycle by (by apply calm_upd).
      by rw (bind_ok _ _ _ _ _ (modproc_run np _ _ _)) upd_proc_upd (bind_ok _ _ _ _ _ (modproc_run np _ _ _)) upd_proc_upd.
    + intros b Hb. by rewrite -> Hu2, Hu.
    + intros q. by rw !elem_of_cons Hres.
  - exists d, s', l'. rewrite -> !(decide_False (P := d = 0)) by done. split_and!; try done. rewrite -> (proj2 (Z.eqb_neq _ _) Hdn).
    etransitivity; [apply (fork_tail (upd_proc np (set_p_pgdir d) g) (set_k_mem s' k) p np pr (set_p_pgdir d r1) ip); try done; by apply calm_upd|].
    by rw upd_proc_upd.
Qed.

(** What [fork] did: the new process, or nothing but a pid. *)
Record fork_done (h : hw) (k : kst) (p : nat) (pr : proc) (ip np : nat) (l : list Z) (T : gmap Z Z) (h' : hw) (k' : kst) (l' : list Z) : Prop := {
  fd_child : ∃ a d D,
    h' = upd_proc np (forked p pr (h_nextpid h) a d) (next_pid (settle h)) ∧
    k' = set_k_fs (ref_inode ip (k_fs k)) (set_k_files (dup_files (p_ofile pr) (k_files k)) (set_k_mem (k_mem k') k)) ∧
    space_ok (k_mem k') l' d D ∧ apart (k_mem k') (p_pgdir pr) T d D ∧
    (∀ q, q ∈ l' ∨ q = a ∨ space_pages (k_mem k') d D q ↔ q ∈ l) ∧
    (∀ b, 0 ≤ b < (p_sz pr + PGSIZE - 1) / PGSIZE * PGSIZE → uread (m_mem (k_mem k')) D b = uread (m_mem (k_mem k)) T b) ∧
    (∀ v, (p_sz pr + PGSIZE - 1) / PGSIZE ≤ v < UTOP → ppage (m_mem (k_mem k')) D v = None)
}.

Record fork_refused (h : hw) (k : kst) (np : nat) (r : proc) (l : list Z) (h' : hw) (k' : kst) (l' : list Z) : Prop := {
  fr_slot : ∃ f, h' = upd_proc np f (next_pid (settle h)) ∧ p_state (f r) = UNUSED;
  fr_mem : k' = set_k_mem (k_mem k') k;
  fr_pages : ∀ q, q ∈ l' ↔ q ∈ l
}.

Lemma fork_run h k p pr ip l T np r :
  forks h k p pr ip l T → snd <$> list_find (slot_is unused h) (seq 0 NPROC) = Some np → h_procs h !! np = Some r →
  ∃ (b : bool) h' k' l', fork forkret_addr (h, k) = Ok (if b then h_nextpid h else -1) (h', k') ∧
    same_kernel (k_mem k) (k_mem k') ∧ space_ok (k_mem k') l' (p_pgdir pr) T ∧
    (∀ b, 0 ≤ b < KERNBASE → uread (m_mem (k_mem k')) T b = uread (m_mem (k_mem k)) T b) ∧
    (1026 + (p_sz pr + PGSIZE - 1) / PGSIZE < Z.of_nat (length l) → b = true) ∧
    if b then fork_done h k p pr ip np l T h' k' l' else fork_refused h k np r l h' k' l'.
Proof using Type.
  intros [Hr Hst Hkl Hfl Hil HS [Hd Hdm] Hsz Hpre Hof Ho Hcwd] Hnp Hrnp. pose proof Hr as [[Hw Hf Hl] Hn Hc Hp].
  unfold fork. rw (bind_ok _ _ _ _ _ (myproc_ok h k Hw)) Hc. set (g := settle h).
  assert (calm g) as Hcg by (by apply calm_settle). pose proof (pt_inv _ _ _ _ (sp_pt _ _ _ _ HS)) as HI.
  assert (h_procs g = h_procs h) as Hpg by apply procs_settle. assert (h_locks g = h_locks h) as Hlg by apply locks_settle.
  assert (h_nextpid g = h_nextpid h) as Hng by (unfold g, settle, upd_me; by destruct (me h)).
  pose proof (allocproc_run g (k_mem k) l Hcg ltac:(by rw Hlg) ltac:(by rw Hlg) ltac:(by rw Hpg) HI) as Ea.
  unfold g in Ea at 2. rw unused_settle Hnp Hng in Ea. assert (p ≠ np) as Hne.
  { intros ->. apply fmap_Some in Hnp as ([j i] & (_ & Hu & _)%list_find_Some & [= ->]). unfold slot_is, unused in Hu. rw Hp in Hu.
    injection Hu as ?%bool_decide_eq_true. done. }
  destruct l as [|a l].
  - rw (bind_ok _ _ _ _ _ (zoom_kmem _ _ _ _ _ _ Ea)). eexists false, _, _, []. split; [done|]. split_and!; try done.
    + intros Hlt. cbn in Hlt. unfold PGSIZE in Hlt. exfalso. dlia.
    + split; [|by destruct k|done]. eexists. split; done.
  - rw (bind_ok _ _ _ _ _ (zoom_kmem _ _ _ _ _ _ Ea)). set (g1 := upd_proc np _ _).
    assert (h_procs g1 !! p = Some pr) as Hp1 by (unfold g1; cbn; by rw list_lookup_alter_ne // Hpg).
    assert (h_procs g1 !! np = Some (embryo (h_nextpid h) a r)) as Hr1 by (unfold g1; cbn; by rw list_lookup_alter_eq Hpg Hrnp).
    rw (bind_ok _ _ _ _ _ (proc_at_ok g1 _ p pr Hp1)). rewrite -> Forall_lookup in Hof.
    destruct (fork_copy g1 (set_k_mem (taken (a :: l) (k_mem k)) k) p pr ip (k_mem k) a l T np (embryo (h_nextpid h) a r))
      as (d & m' & l' & E & Hk' & HS' & Hu & Hd0 & Hres); try done; try (unfold g1; cbn; by rw Hlg).
    + by apply calm_upd, calm_nextpid.
    + by eapply Hof.
    + exact (Hof np r Hrnp).
    + destruct (decide (d = 0)) as [->|Hdn].
      * eexists false, _, _, l'. split; [exact E|]. split_and!; try done. { cbn [length]. intros ?. exfalso. apply Hd0; [lia|done]. }
        split; [|done|done]. eexists. split; [unfold g1; by rw upd_proc_upd|done].
      * eexists true, _, _, l'. split; [exact E|]. split_and!; try done. split. destruct Hres as (D & HSd & Hap & Hfree & Hcp & Hno).
        exists a, d, D. split_and!; try done; [unfold g1; by rw upd_proc_upd|]. intros q. rw elem_of_cons -Hfree. tauto.
Qed.
(** No slot is free. *)
Lemma fork_full h k p pr ip l T :
  forks h k p pr ip l T → snd <$> list_find (slot_is unused h) (seq 0 NPROC) = None → fork forkret_addr (h, k) = Ok (-1) (settle h, k).
Proof using Type.
  intros [Hr _ Hkl _ _ HS _ _ _ _ _ _] Hnp. pose proof Hr as [[Hw Hf Hl] Hn Hc Hp].
  unfold fork. rw (bind_ok _ _ _ _ _ (myproc_ok h k Hw)) Hc.
  pose proof (allocproc_run (settle h) (k_mem k) l (calm_settle h Hw) ltac:(by rw locks_settle) ltac:(by rw locks_settle) ltac:(by rw procs_settle)
    (pt_inv _ _ _ _ (sp_pt _ _ _ _ HS))) as Ea. rw unused_settle Hnp in Ea.
  rw (bind_ok _ _ _ _ _ (zoom_kmem _ _ _ _ _ _ Ea)). by destruct k.
Qed.
End fork.

(** ** Properties *)

(** C13: [fork].  Without a free slot it returns -1 and changes nothing.
    Otherwise it either makes the first free slot a RUNNABLE child of the
    process with the next pid, which it returns: with a copy of the address space that
    reads the same bytes up to its size and shares no page with the parent, the trap
    frame of the parent with 0 as result, its name, its directory, which has
    one reference more, and its descriptors, whose files have one reference
    more for each; and exactly the pages of the child are no longer free.  Or
    memory ran out, it returns -1, the slot is free again and so is every page that
    was free.  This happens only with at most 1026 free pages more than the pages
    of the process.  The parent's address space is as it was. *)
Theorem fork_correct (forkret_addr : Z) (h : hw) (k : kst) (p : nat) (pr : proc) (ip : nat) (l : list Z) (T : gmap Z Z) :
  forks h k p pr ip l T →
  match snd <$> list_find (slot_is unused h) (seq 0 NPROC) with
  | None => fork forkret_addr (h, k) = Ok (-1) (settle h, k)
  | Some np => ∀ r, h_procs h !! np = Some r →
      ∃ (b : bool) h' k' l', fork forkret_addr (h, k) = Ok (if b then h_nextpid h else -1) (h', k') ∧
        same_kernel (k_mem k) (k_mem k') ∧ space_ok (k_mem k') l' (p_pgdir pr) T ∧
        (∀ b, 0 ≤ b < KERNBASE → uread (m_mem (k_mem k')) T b = uread (m_mem (k_mem k)) T b) ∧
        (1026 + (p_sz pr + PGSIZE - 1) / PGSIZE < Z.of_nat (length l) → b = true) ∧
        if b then fork_done forkret_addr h k p pr ip np l T h' k' l' else fork_refused h k np r l h' k' l'
  end.
Proof.
  intros Hf. destruct (snd <$> _) as [np|] eqn:E; [intros r Hr; by eapply fork_run|by eapply fork_full].
Qed.

(** ** The property on a concrete machine *)

(** Process 7 with one page, one open file and the root directory. *)
Definition ex_forking : proc :=
  set_p_ofile (Some 0%nat :: replicate 15 None) (set_p_cwd (Some 0%nat) (set_p_sz 16 (set_p_pgdir ex_pgdir (set_p_state RUNNING (set_p_pid 7 zero_proc))))).
Definition ex_forker : hw := set_h_nextpid 8 (set_h_procs (ex_forking :: replicate 63 zero_proc) boot_hw).
Definition ex_kernel : kst :=
  MkK (MkFs (MkLog (MkBst [] 0 0 [] 0 None false []) 2 30 0 false 1 0 []) (MkSb 1000 941 200 30 2 32 58)
      [MkInode 1 1 1 (MkSl false 0) true 1 0 0 1 32 (18 :: replicate 12 0)])
    ex_space [set_f_ref 1 (set_f_type FD_INODE zero_file)] ∅ false 0 [].

Lemma ex_forks : forks ex_forker ex_kernel 0 ex_forking 0 [0x80400000; 0x80401000] {[0 := ex_tab]}.
Proof.
  split; try done.
  - split; [split; [apply boot_hw_wf|done..]| |done..]. by intros c [= <-].
  - apply ex_space_ok.
  - intros v Hv. assert (v = 0) as -> by (change ((p_sz ex_forking + PGSIZE - 1) / PGSIZE) with 1 in Hv; lia).
    change (k_mem ex_kernel) with ex_space. rw ex_space_frame. by eexists.
  - apply (bool_decide_unpack _). by vm_compute.
  - intros [|i] f Hf; [injection Hf as <-; by eexists|]. by do 16 (destruct i as [|i]; [done|]).
Qed.

Lemma fork_correct_witness :
  ∃ (b : bool) h' k' l', fork 0 (ex_forker, ex_kernel) = Ok (if b then 8 else -1) (h', k') ∧
    space_ok (k_mem k') l' ex_pgdir {[0 := ex_tab]} ∧
    if b then fork_done 0 ex_forker ex_kernel 0 ex_forking 0 1 [0x80400000; 0x80401000] {[0 := ex_tab]} h' k' l'
    else fork_refused ex_forker ex_kernel 1 zero_proc [0x80400000; 0x80401000] h' k' l'.
Proof.
  destruct (fork_correct 0 _ _ _ _ _ _ _ ex_forks zero_proc eq_refl) as (b & h' & k' & l' & E & _ & HS & _ & _ & H).
  exists b, h', k', l'. split; [exact E|]. split; [exact HS|exact H].
Defined.
