(* ===== verification/Exec.v ===== *)
(** * Loading programs: exec.c, and [loaduvm] of vm.c *)

From S2P Require Import Prelude Machine Spinlock Console Mem CString Kalloc PrioLock Sched Vm Sleeplock Pipe Ring Bytes Bio Cache Log Recovery Txn Fs ConsoleIn File.

(** ** elf.h: the fields that [exec] reads *)

Definition ELF_MAGIC : Z := 0x464C457F.
Definition SIZEOF_ELFHDR : Z := 52.
Definition elf_magic (d : list Z) : Z := get32 d 0.
Definition elf_entry (d : list Z) : Z := get32 d 24.
Definition elf_phoff (d : list Z) : Z := get32 d 28.
Definition elf_phnum (d : list Z) : Z := get16 d 44.

Definition ELF_PROG_LOAD : Z := 1.
Definition SIZEOF_PROGHDR : Z := 32.
Definition ph_type (d : list Z) : Z := get32 d 0.
Definition ph_off (d : list Z) : Z := get32 d 4.
Definition ph_vaddr (d : list Z) : Z := get32 d 8.
Definition ph_filesz (d : list Z) : Z := get32 d 16.
Definition ph_memsz (d : list Z) : Z := get32 d 20.

Section exec.
Context (iderw : nat → K bst unit).

(** The loop of [loaduvm] from [i]. *)
Fixpoint loaduvm_loop (fuel : nat) (pgdir addr : Z) (ip : nat) (offset sz i : Z) : K kst Z :=
  if negb (i <? sz) then mret 0 else
  match fuel with
  | O => fault "loaduvm: loop"
  | S fuel =>
      pte ← inmem (walkpgdir pgdir (u32 (addr + i)) false);
      if pte =? 0 then panic "loaduvm: address should exist" else
      e ← inmem (load pte);
      let pa := PTE_ADDR e in
      let n := if sz - i <? PGSIZE then sz - i else PGSIZE in
      '(r, bs) ← infs (readi iderw (dev_read iderw) ip (u32 (offset + i)) n);
      inmem (kwrite (P2V pa) bs);;
      if negb (r =? n) then mret (-1) else
      loaduvm_loop fuel pgdir addr ip offset sz (u32 (i + PGSIZE))
  end.

Definition loaduvm (pgdir addr : Z) (ip : nat) (offset sz : Z) : K kst Z :=
  if negb (addr mod PGSIZE =? 0) then panic "loaduvm: addr must be page aligned" else
  loaduvm_loop (Z.to_nat (sz / PGSIZE + 1)) pgdir addr ip offset sz 0.

(** The loop over the program headers, [n] to go; [None] is [goto bad]. *)
Fixpoint exec_load (n : nat) (ip : nat) (pgdir off sz : Z) : K kst (option Z) :=
  match n with
  | O => mret (Some sz)
  | S n =>
      '(r, ph) ← infs (readi iderw (dev_read iderw) ip (u32 off) SIZEOF_PROGHDR);
      if negb (r =? SIZEOF_PROGHDR) then mret None else
      if negb (ph_type ph =? ELF_PROG_LOAD) then exec_load n ip pgdir (off + SIZEOF_PROGHDR) sz else
      if ph_memsz ph <? ph_filesz ph then mret None else
      if u32 (ph_vaddr ph + ph_memsz ph) <? ph_vaddr ph then mret None else
      sz ← inmem (allocuvm pgdir sz (u32 (ph_vaddr ph + ph_memsz ph)));
      if sz =? 0 then mret None else
      if negb (ph_vaddr ph mod PGSIZE =? 0) then mret None else
      r ← loaduvm pgdir (ph_vaddr ph) ip (ph_off ph) (ph_filesz ph);
      if r <? 0 then mret None else
      exec_load n ip pgdir (off + SIZEOF_PROGHDR) sz
  end.

(** The argument strings: the stack pointer and the addresses of the strings. *)
Fixpoint exec_args (argc : Z) (argv : list (list Z)) (pgdir sp : Z) : K kst (option (Z * list Z)) :=
  match argv with
  | [] => mret (Some (sp, []))
  | s :: argv =>
      if Z.of_nat MAXARG <=? argc then mret None else
      let sp := Z.land (u32 (sp - (Z.of_nat (length s) + 1))) (Z.lnot 3) in
      r ← inmem (copyout pgdir sp (s ++ [0]));
      if r <? 0 then mret None else
      rest ← exec_args (argc + 1) argv pgdir sp;
      mret ((λ '(sp', l), (sp', sp :: l)) <$> rest)
  end.

(** The path after its last slash. *)
Fixpoint last_elem (last s : list Z) : list Z :=
  match s with
  | [] => last
  | c :: s => last_elem (if c =? 47 then s else last) s
  end.

(** The label [bad]. *)
Definition exec_bad (pgdir : Z) (ip : option nat) : K kst Z :=
  when (negb (pgdir =? 0)) (inmem (freevm pgdir));;
  match ip with
  | Some ip =>
      infs (iunlockput iderw ip);;
      inlog (end_op iderw)
  | None => mret tt
  end;;
  mret (-1).

(** From the stack of the new image on. *)
Definition exec_stack (path : list Z) (argv : list (list Z)) (entry pgdir sz : Z) : K kst Z :=
  let sz := PGROUNDUP sz in
  sz ← inmem (allocuvm pgdir sz (u32 (sz + 2 * PGSIZE)));
  if sz =? 0 then exec_bad pgdir None else
  inmem (clearpteu pgdir (u32 (sz - 2 * PGSIZE)));;
  r ← exec_args 0 argv pgdir sz;
  match r with
  | None => exec_bad pgdir None
  | Some (sp, addrs) =>
      let argc := Z.of_nat (length argv) in
      let ustack := [0xffffffff; argc; u32 (sp - (argc + 1) * 4)] ++ addrs ++ [0] in
      let sp := u32 (sp - (3 + argc + 1) * 4) in
      r ← inmem (copyout pgdir sp (flat_map (le_bytes 4) ustack));
      if r <? 0 then exec_bad pgdir None else
      me ← myproc;
      p ← proc_at me;
      let cur := default 0%nat me in
      modproc cur (λ x, set_p_name (safestrcpy (p_name x) (last_elem path path) 16) x);;
      let oldpgdir := p_pgdir p in
      modproc cur (set_p_pgdir pgdir);;
      modproc cur (set_p_sz sz);;
      modproc cur (λ x, set_p_tf (set_tf_esp sp (set_tf_eip entry (p_tf x))) x);;
      inmem (switchuvm me);;
      inmem (freevm oldpgdir);;
      mret 0
  end.

Definition exec (path : list Z) (argv : list (list Z)) : K kst Z :=
  inlog begin_op;;
  r ← infs (namei iderw (dev_read iderw) path);
  match r with
  | None =>
      inlog (end_op iderw);;
      cprintf (chars "exec: fail" ++ [10]) [];;
      mret (-1)
  | Some ip =>
      infs (ilock iderw (Some ip));;
      '(r, elf) ← infs (readi iderw (dev_read iderw) ip 0 SIZEOF_ELFHDR);
      if negb (r =? SIZEOF_ELFHDR) then exec_bad 0 (Some ip) else
      if negb (elf_magic elf =? ELF_MAGIC) then exec_bad 0 (Some ip) else
      pgdir ← inmem setupkvm;
      if pgdir =? 0 then exec_bad 0 (Some ip) else
      r ← exec_load (Z.to_nat (elf_phnum elf)) ip pgdir (elf_phoff elf) 0;
      match r with
      | None => exec_bad pgdir (Some ip)
      | Some sz =>
          infs (iunlockput iderw ip);;
          inlog (end_op iderw);;
          exec_stack path argv (elf_entry elf) pgdir sz
      end
  end.
End exec.
