(* ===== verification/Sysfile.v ===== *)
(** * File system calls: sysfile.c *)

From S2P Require Import Prelude Machine Spinlock Console Mem CString Kalloc PrioLock Sched Vm Sleeplock Pipe Ring Bytes Bio Cache Log Recovery Txn Fs Args ConsoleIn File Exec.

Declare Scope sys_scope.
Delimit Scope sys_scope with sys.

(** [checked m e k]: the test [if(m < 0) e; else k]. *)
Definition checked {C A B} (m : K C (option A)) (e : K C B) (k : A → K C B) : K C B :=
  r ← m;
  match r with
  | Some a => k a
  | None => e
  end.
Notation "x ←? m 'else' e ; k" := (checked m e (λ x, k))
  (at level 20, m at level 100, e at level 100, k at level 200, only parsing) : sys_scope.
Notation "' x ←? m 'else' e ; k" := (checked m e (λ x, k))
  (at level 20, x pattern, m at level 100, e at level 100, k at level 200, only parsing) : sys_scope.
Open Scope sys_scope.

(** ** File descriptors *)

(** The descriptor and the file. *)
Definition argfd (n : Z) : K kst (option (nat * nat)) :=
  fd ←? inmem (argint n) else mret None;
  if (fd <? 0) || (Z.of_nat NOFILE <=? fd) then mret None else
  me ← myproc;
  p ← proc_at me;
  match p_ofile p !! Z.to_nat fd with
  | Some (Some f) => mret (Some (Z.to_nat fd, f))
  | _ => mret None
  end.

(** The first free descriptor of [curproc->ofile]. *)
Fixpoint free_fd (l : list (option nat)) (fd : nat) : option nat :=
  match l with
  | [] => None
  | None :: _ => Some fd
  | Some _ :: l => free_fd l (S fd)
  end.

Definition set_ofile {C} (fd : nat) (f : option nat) : K C unit :=
  me ← myproc;
  modproc (default 0%nat me) (λ p, set_p_ofile (<[fd := f]> (p_ofile p)) p).

Definition fdalloc (f : nat) : K kst (option nat) :=
  me ← myproc;
  p ← proc_at me;
  match free_fd (take NOFILE (p_ofile p)) 0 with
  | Some fd => set_ofile fd (Some f);; mret (Some fd)
  | None => mret None
  end.

Definition sys_dup : K kst Z :=
  '(_, f) ←? argfd 0 else mret (-1);
  fd ←? fdalloc f else mret (-1);
  filedup f;;
  mret (Z.of_nat fd).

Section sysfile.
Context (iderw : nat → K bst unit).

Abbreviation readi := (readi iderw (dev_read iderw)).
Abbreviation writei := (writei iderw (dev_write iderw)).
Abbreviation dirlookup := (dirlookup iderw (dev_read iderw)).
Abbreviation dirlink := (dirlink iderw (dev_read iderw) (dev_write iderw)).
Abbreviation namei := (namei iderw (dev_read iderw)).
Abbreviation nameiparent := (nameiparent iderw (dev_read iderw)).
Abbreviation begin_op := (inlog begin_op).
Abbreviation end_op := (inlog (end_op iderw)).

(** The bytes that [fileread] returns are stored at [p]. *)
Definition sys_read : K kst Z :=
  '(_, f) ←? argfd 0 else mret (-1);
  n ←? inmem (argint 2) else mret (-1);
  p ←? inmem (argptr 1 n) else mret (-1);
  '(r, bs) ← fileread iderw f n;
  inmem (uwrite p bs);;
  mret r.

Definition sys_write : K kst Z :=
  '(_, f) ←? argfd 0 else mret (-1);
  n ←? inmem (argint 2) else mret (-1);
  p ←? inmem (argptr 1 n) else mret (-1);
  bs ← inmem (ubytes (Z.to_nat n) p);
  filewrite iderw f bs.

Definition sys_close : K kst Z :=
  '(fd, f) ←? argfd 0 else mret (-1);
  set_ofile fd None;;
  fileclose iderw f;;
  mret 0.

(** [struct stat] is laid out with two bytes of padding after [type] and
    [nlink]. *)
Definition SIZEOF_STAT : Z := 20.
Definition put_stat (p : Z) (st : stat) : K memst unit :=
  uwrite p (le_bytes 2 (st_type st));;
  uwrite (u32 (p + 4)) (le_bytes 4 (st_dev st));;
  uwrite (u32 (p + 8)) (le_bytes 4 (st_ino st));;
  uwrite (u32 (p + 12)) (le_bytes 2 (st_nlink st));;
  uwrite (u32 (p + 16)) (le_bytes 4 (st_size st)).

Definition sys_fstat : K kst Z :=
  '(_, f) ←? argfd 0 else mret (-1);
  p ←? inmem (argptr 1 SIZEOF_STAT) else mret (-1);
  st ←? filestat iderw f else mret (-1);
  inmem (put_stat p st);;
  mret 0.

(** ** Links *)

(** [ip->nlink += d] *)
Definition add_nlink (ip : nat) (d : Z) : K fsst unit :=
  modinode ip (λ i, set_i_nlink (s16 (i_nlink i + d)) i).

(** The label [bad] of [sys_link]. *)
Definition link_bad (ip : nat) : K kst Z :=
  infs (ilock iderw (Some ip));;
  infs (add_nlink ip (-1));;
  infs (iupdate iderw ip);;
  infs (iunlockput iderw ip);;
  end_op;;
  mret (-1).

Definition sys_link : K kst Z :=
  old ←? inmem (argstr 0) else mret (-1);
  new ←? inmem (argstr 1) else mret (-1);
  begin_op;;
  ip ←? infs (namei old) else (end_op;; mret (-1));
  infs (ilock iderw (Some ip));;
  i ← infs (inode_at ip);
  if i_type i =? T_DIR then
    infs (iunlockput iderw ip);;
    end_op;;
    mret (-1)
  else
  infs (add_nlink ip 1);;
  infs (iupdate iderw ip);;
  infs (iunlock (Some ip));;
  '(dp, name) ← infs (nameiparent new (replicate DIRSIZ 0));
  match dp with
  | None => link_bad ip
  | Some dp =>
      infs (ilock iderw (Some dp));;
      d ← infs (inode_at dp);
      i ← infs (inode_at ip);
      ok ← (if negb (i_dev d =? i_dev i) then mret false
            else r ← infs (dirlink dp name (i_inum i)); mret (negb (r <? 0)));
      if negb ok then
        infs (iunlockput iderw dp);;
        link_bad ip
      else
        infs (iunlockput iderw dp);;
        infs (iput iderw ip);;
        end_op;;
        mret 0
  end.

(** The loop of [isdirempty] from [off]. *)
Fixpoint isdirempty_loop (fuel : nat) (dp : nat) (off : Z) : K fsst bool :=
  i ← inode_at dp;
  if negb (off <? i_size i) then mret true else
  match fuel with
  | O => fault "isdirempty: loop"
  | S fuel =>
      '(r, de) ← readi dp off SIZEOF_DIRENT;
      if negb (r =? SIZEOF_DIRENT) then panic "isdirempty: readi" else
      if negb (de_inum de =? 0) then mret false else
      isdirempty_loop fuel dp (off + SIZEOF_DIRENT)
  end.
Definition isdirempty (dp : nat) : K fsst bool :=
  i ← inode_at dp;
  isdirempty_loop (Z.to_nat (i_size i / SIZEOF_DIRENT + 1)) dp (2 * SIZEOF_DIRENT).

(** The label [bad] of [sys_unlink]. *)
Definition unlink_bad (dp : nat) : K kst Z :=
  infs (iunlockput iderw dp);;
  end_op;;
  mret (-1).

Definition sys_unlink : K kst Z :=
  path ←? inmem (argstr 0) else mret (-1);
  begin_op;;
  '(dp, name) ← infs (nameiparent path (replicate DIRSIZ 0));
  match dp with
  | None => end_op;; mret (-1)
  | Some dp =>
      infs (ilock iderw (Some dp));;
      if (namecmp name (chars ".") =? 0) || (namecmp name (chars "..") =? 0) then unlink_bad dp else
      '(ip, off) ←? infs (dirlookup dp name) else unlink_bad dp;
      infs (ilock iderw (Some ip));;
      i ← infs (inode_at ip);
      if i_nlink i <? 1 then panic "unlink: nlink < 1" else
      empty ← (if i_type i =? T_DIR then infs (isdirempty ip) else mret true);
      if negb empty then
        infs (iunlockput iderw ip);;
        unlink_bad dp
      else
      r ← infs (writei dp (replicate (Z.to_nat SIZEOF_DIRENT) 0) off);
      if negb (r =? SIZEOF_DIRENT) then panic "unlink: writei" else
      i ← infs (inode_at ip);
      when (i_type i =? T_DIR)
        (infs (add_nlink dp (-1));;
         infs (iupdate iderw dp));;
      infs (iunlockput iderw dp);;
      infs (add_nlink ip (-1));;
      infs (iupdate iderw ip);;
      infs (iunlockput iderw ip);;
      end_op;;
      mret 0
  end.

(** ** Creating files *)

Definition create (path : list Z) (type major minor : Z) : K fsst (option nat) :=
  '(dp, name) ← nameiparent path (replicate DIRSIZ 0);
  match dp with
  | None => mret None
  | Some dp =>
      ilock iderw (Some dp);;
      r ← dirlookup dp name;
      match r with
      | Some (ip, _) =>
          iunlockput iderw dp;;
          ilock iderw (Some ip);;
          i ← inode_at ip;
          if (type =? T_FILE) && (i_type i =? T_FILE) then mret (Some ip) else
          iunlockput iderw ip;;
          mret None
      | None =>
          d ← inode_at dp;
          ip ← ialloc iderw (i_dev d) type;
          ilock iderw (Some ip);;
          modinode ip (λ i, set_i_nlink 1 (set_i_minor (s16 minor) (set_i_major (s16 major) i)));;
          iupdate iderw ip;;
          i ← inode_at ip;
          when (type =? T_DIR)
            (add_nlink dp 1;;
             iupdate iderw dp;;
             r ← dirlink ip (chars ".") (i_inum i);
             if r <? 0 then panic "create dots" else
             r ← dirlink ip (chars "..") (i_inum d);
             if r <? 0 then panic "create dots" else mret tt);;
          r ← dirlink dp name (i_inum i);
          if r <? 0 then panic "create: dirlink" else
          iunlockput iderw dp;;
          mret (Some ip)
      end
  end.

(** The inode of [sys_open], locked. *)
Definition open_inode (path : list Z) (omode : Z) : K fsst (option nat) :=
  if negb (Z.land omode O_CREATE =? 0) then create path T_FILE 0 0 else
  r ← namei path;
  match r with
  | None => mret None
  | Some ip =>
      ilock iderw (Some ip);;
      i ← inode_at ip;
      if (i_type i =? T_DIR) && negb (omode =? O_RDONLY) then
        iunlockput iderw ip;;
        mret None
      else mret (Some ip)
  end.

(** [(f = filealloc()) == 0 || (fd = fdalloc(f)) < 0], with [f] closed when no
    descriptor is free. *)
Definition open_file : K kst (option (nat * nat)) :=
  f ←? filealloc else mret None;
  fd ←? fdalloc f else (fileclose iderw f;; mret None);
  mret (Some (f, fd)).

Definition sys_open : K kst Z :=
  path ←? inmem (argstr 0) else mret (-1);
  omode ←? inmem (argint 1) else mret (-1);
  begin_op;;
  ip ←? infs (open_inode path omode) else (end_op;; mret (-1));
  '(f, fd) ←? open_file else
    (infs (iunlockput iderw ip);;
     end_op;;
     mret (-1));
  infs (iunlock (Some ip));;
  end_op;;
  modfile f (λ x,
    set_f_writable (negb (Z.land omode O_WRONLY =? 0) || negb (Z.land omode O_RDWR =? 0))
      (set_f_readable (Z.land omode O_WRONLY =? 0) (set_f_off 0 (set_f_ip (Some ip) (set_f_type FD_INODE x)))));;
  mret (Z.of_nat fd).

Definition sys_mkdir : K kst Z :=
  begin_op;;
  path ←? inmem (argstr 0) else (end_op;; mret (-1));
  ip ←? infs (create path T_DIR 0 0) else (end_op;; mret (-1));
  infs (iunlockput iderw ip);;
  end_op;;
  mret 0.

Definition sys_mknod : K kst Z :=
  begin_op;;
  path ←? inmem (argstr 0) else (end_op;; mret (-1));
  major ←? inmem (argint 1) else (end_op;; mret (-1));
  minor ←? inmem (argint 2) else (end_op;; mret (-1));
  ip ←? infs (create path T_DEV (s16 major) (s16 minor)) else (end_op;; mret (-1));
  infs (iunlockput iderw ip);;
  end_op;;
  mret 0.

Definition sys_chdir : K kst Z :=
  me ← myproc;
  begin_op;;
  path ←? inmem (argstr 0) else (end_op;; mret (-1));
  ip ←? infs (namei path) else (end_op;; mret (-1));
  infs (ilock iderw (Some ip));;
  i ← infs (inode_at ip);
  if negb (i_type i =? T_DIR) then
    infs (iunlockput iderw ip);;
    end_op;;
    mret (-1)
  else
  infs (iunlock (Some ip));;
  p ← proc_at me;
  cwd ← deref (p_cwd p);
  infs (iput iderw cwd);;
  end_op;;
  modproc (default 0%nat me) (set_p_cwd (Some ip));;
  mret 0.

(** ** Programs and pipes *)

(** The loop of [sys_exec] with room for [n] pointers. *)
Fixpoint exec_argv (n : nat) (uargv i : Z) : K memst (option (list (list Z))) :=
  match n with
  | O => mret None
  | S n =>
      uarg ←? fetchint (u32 (uargv + 4 * i)) else mret None;
      if uarg =? 0 then mret (Some []) else
      s ←? fetchstr (u32 uarg) else mret None;
      l ←? exec_argv n uargv (i + 1) else mret None;
      mret (Some (s :: l))
  end.

Definition sys_exec : K kst Z :=
  path ←? inmem (argstr 0) else mret (-1);
  uargv ←? inmem (argint 1) else mret (-1);
  argv ←? inmem (exec_argv MAXARG (u32 uargv) 0) else mret (-1);
  exec iderw path argv.

Definition pipe_undo (rf wf : nat) : K kst Z :=
  fileclose iderw rf;;
  fileclose iderw wf;;
  mret (-1).

Definition sys_pipe : K kst Z :=
  fd ←? inmem (argptr 0 8) else mret (-1);
  '(rf, wf) ←? pipealloc iderw else mret (-1);
  fd0 ←? fdalloc rf else pipe_undo rf wf;
  fd1 ←? fdalloc wf else (set_ofile fd0 None;; pipe_undo rf wf);
  inmem (uwrite fd (le_bytes 4 (Z.of_nat fd0)));;
  inmem (uwrite (u32 (fd + 4)) (le_bytes 4 (Z.of_nat fd1)));;
  mret 0.
End sysfile.
