(* ===== verification/Syscall.v ===== *)
(** * System calls and traps: sysproc.c, sysutils.c, syscall.c and trap.c *)

From S2P Require Import Prelude Machine Spinlock Console Mem CString Kalloc PrioLock Sched Vm Sleeplock Pipe Ring Bytes Bio Cache Log Recovery Txn Fs Args ConsoleIn File Proc Exec Sysfile.

Open Scope sys_scope.

(** ** sysproc.c *)

Definition tickslock : objaddr := ("tickslock"%string, 0).
Definition ticks_chan : option objaddr := Some ("ticks"%string, 0).

Definition sys_kill : K memst Z :=
  pid ←? argint 0 else mret (-1);
  kill pid.

Definition sys_getpid : K memst Z :=
  me ← myproc;
  p ← proc_at me;
  mret (p_pid p).

Definition sys_sbrk : K memst Z :=
  n ←? argint 0 else mret (-1);
  me ← myproc;
  p ← proc_at me;
  let addr := p_sz p in
  r ← growproc n;
  if r <? 0 then mret (-1) else mret addr.

(** The loop of [sys_sleep]; the comparison is of unsigned numbers. *)
Definition sys_sleep_loop (ticks0 n : Z) : K memst Z :=
  h ← geth;
  if u32 (h_ticks h - ticks0) <? u32 n then
    me ← myproc;
    p ← proc_at me;
    if p_killed p then
      release tickslock;;
      mret (-1)
    else
      sleep ticks_chan (Some tickslock);;
      mret (-1)
  else
    release tickslock;;
    mret 0.

Definition sys_sleep : K memst Z :=
  n ←? argint 0 else mret (-1);
  acquire tickslock;;
  h ← geth;
  sys_sleep_loop (h_ticks h) n.
Definition sys_sleep_resume (p : nat) (intena : bool) (ticks0 n : Z) : K memst Z :=
  sleep_resume p tickslock intena;;
  sys_sleep_loop ticks0 n.

Definition sys_uptime {C} : K C Z :=
  acquire tickslock;;
  h ← geth;
  release tickslock;;
  mret (s32 (h_ticks h)).

Definition sys_print_num_syscalls {C} : K C unit :=
  h ← geth;
  cprintf (chars "total uumber of systemcalls: %d" ++ [10]) [AInt (h_shared_syscall_num h)];;
  mfor (seq 0 (h_ncpu h)) (λ i,
    c ← cpu_at i;
    when (c_started c)
      (cprintf (chars "cpu %d got: %d numbers of syscalss" ++ [10]) [AInt (c_apicid c); AInt (c_num_sys_calls c)])).

(** ** sysutils.c *)

Definition PAGE_COUNT : nat := 10.
Definition main_mem_lock : objaddr := ("main_mem"%string, 0).

Definition initmem : K kst unit :=
  initlock main_mem_lock;;
  mfor (seq 0 PAGE_COUNT) (λ i, modc (λ s, set_k_shared (alter (set_sp_ref_count 0) i (k_shared s)) s)).

Definition utylinit : K kst unit :=
  zoom k_plL p_initlock;;
  initmem.

(** The loop of [sys_find_digital_root]; [n] has at most ten digits. *)
Fixpoint digital_root_loop (fuel : nat) (n res : Z) : Z :=
  match fuel with
  | O => res
  | S fuel =>
      if 0 <? n then
        let res := res + Z.rem n 10 in
        digital_root_loop fuel (Z.quot n 10) (if 9 <? res then res - 9 else res)
      else res
  end.
Definition sys_find_digital_root {C} : K C Z :=
  me ← myproc;
  p ← proc_at me;
  mret (digital_root_loop 10 (s32 (tf_ebx (p_tf p))) 0).

(** [do_temp] only adds numbers to a variable nothing reads. *)
Definition sys_aq : K kst Z :=
  let say msg :=
    me ← myproc;
    p ← proc_at me;
    cprintf (chars msg ++ [10]) [AInt (p_pid p)] in
  say "proccess entered queue : %d";;
  zoom k_plL prior_acquire;;
  say "proccess entered critical : %d";;
  say "proccess exit : %d";;
  zoom k_plL p_release;;
  mret 0.

(** [main_mem.pages[id]]: the index is not checked. *)
Definition shpage_at (id : Z) : K kst shpage :=
  s ← getc;
  if id <? 0 then fault "main_mem.pages: index" else
  match k_shared s !! Z.to_nat id with
  | Some p => mret p
  | None => fault "main_mem.pages: index"
  end.
Definition modshpage (id : Z) (f : shpage → shpage) : K kst unit :=
  modc (λ s, set_k_shared (alter f (Z.to_nat id) (k_shared s)) s).

(** The text of the initializer of [va] is incomplete in the source; [va] is an
    argument. [memset] of a null page writes the memory of the process. *)
Definition sys_open_sharedmem (va : Z) : K kst Z :=
  acquire main_mem_lock;;
  id ←? inmem (argint 0) else mret (-1);
  res ←? inmem (argptr 1 4) else mret (-1);
  me ← myproc;
  p ← proc_at me;
  let pgdir := p_pgdir p in
  pg ← shpage_at id;
  (if sp_ref_count pg =? 0 then
     mem ← inmem kalloc;
     inmem (uwrite res (le_bytes 4 mem));;
     inmem (if mem =? 0 then uwrite 0 (replicate (Z.to_nat PGSIZE) 0) else kmemset mem 0 PGSIZE);;
     inmem (mappages pgdir va PGSIZE (u32 (V2P mem)) (Z.lor PTE_W PTE_U));;
     modshpage id (λ g, set_sp_ref_count (sp_ref_count g + 1) g);;
     modshpage id (set_sp_frame mem)
   else
     inmem (mappages pgdir va PGSIZE (u32 (V2P (sp_frame pg))) (Z.lor PTE_W PTE_U));;
     modshpage id (λ g, set_sp_ref_count (sp_ref_count g + 1) g);;
     inmem (uwrite res (le_bytes 4 (sp_frame pg))));;
  release main_mem_lock;;
  mret 0.

Definition sys_close_sharedmem : K kst Z :=
  id ←? inmem (argint 0) else mret (-1);
  pg ← shpage_at id;
  modshpage id (λ g, set_sp_ref_count (sp_ref_count g - 1) g);;
  pg ← shpage_at id;
  when (sp_ref_count pg =? 0) (inmem (kfree (sp_frame pg)));;
  mret 0.

(** ** syscall.c: the dispatcher *)

Definition shared_int : objaddr := ("shared_int"%string, 0).

Section syscall.
Context (forkret_addr : Z) (iderw : nat → K bst unit).
(** The register that the [void] function [sys_print_num_syscalls] leaves as its
    result, and the initializer of [va] in [sys_open_sharedmem]. *)
Context (print_result : Z) (va : Z).

(** The table [syscalls], with the numbers of syscall.h. *)
Definition syscalls (num : Z) : option (K kst Z) :=
  (list_to_map [
    (1, fork forkret_addr);
    (2, exit iderw;; mret 0);
    (3, inmem wait);
    (4, sys_pipe iderw);
    (5, sys_read iderw);
    (6, inmem sys_kill);
    (7, sys_exec iderw);
    (8, sys_fstat iderw);
    (9, sys_chdir iderw);
    (10, sys_dup);
    (11, inmem sys_getpid);
    (12, inmem sys_sbrk);
    (13, inmem sys_sleep);
    (14, sys_uptime);
    (15, sys_open iderw);
    (16, sys_write iderw);
    (17, sys_mknod iderw);
    (18, sys_unlink iderw);
    (19, sys_link iderw);
    (20, sys_mkdir iderw);
    (21, sys_close iderw);
    (30, sys_aq);
    (32, sys_print_num_syscalls;; mret print_result);
    (33, sys_open_sharedmem va);
    (34, sys_close_sharedmem)] : gmap Z (K kst Z)) !! num.

Definition syscall : K kst unit :=
  me ← myproc;
  p ← proc_at me;
  let cur := default 0%nat me in
  let num := s32 (tf_eax (p_tf p)) in
  let ret v := modproc cur (λ x, set_p_tf (set_tf_eax (u32 v) (p_tf x)) x) in
  match syscalls num with
  | Some f =>
      r ← f;
      ret r;;
      acquire shared_int;;
      i ← mycpu;
      modcpu i (λ c, set_c_num_sys_calls (s32 (c_num_sys_calls c + 1)) c);;
      modh (λ h, set_h_shared_syscall_num (u32 (h_shared_syscall_num h + 1)) h);;
      release shared_int
  | None =>
      cprintf (chars "%d %s: unknown sys call %d" ++ [10])
        [AInt (p_pid p); AStr (Some (cstr (p_name p))); AInt num];;
      ret (-1)
  end.

(** ** trap.c *)

Definition T_SYSCALL : Z := 64.
Definition T_IRQ0 : Z := 32.
Definition IRQ_TIMER : Z := 0.
Definition IRQ_KBD : Z := 1.
Definition IRQ_COM1 : Z := 4.
Definition IRQ_IDE : Z := 14.
Definition IRQ_SPURIOUS : Z := 31.

(** [if(myproc()->killed) exit();] *)
Definition exit_if_killed : K kst unit :=
  me ← myproc;
  p ← proc_at me;
  when (p_killed p) (exit iderw).

(** [if(myproc() && myproc()->killed && (tf->cs&3) == DPL_USER) exit();] *)
Definition exit_if_user_killed (tf : trapframe) : K kst unit :=
  me ← myproc;
  match me with
  | None => mret tt
  | Some _ =>
      p ← proc_at me;
      when (p_killed p && (Z.land (tf_cs tf) 3 =? DPL_USER)) (exit iderw)
  end.

(** The interrupt handler of the disk; the keys and the bytes of the serial line
    that are waiting; the register [cr2]. An end-of-interrupt to the local
    APIC ([lapiceoi]) changes nothing the kernel sees. *)
Context (ideintr : K kst unit) (keys serial : list Z) (cr2 : Z).

Definition trap_timer : K kst unit :=
  i ← mycpu;
  when (Z.of_nat i =? 0)
    (acquire tickslock;;
     modh (λ h, set_h_ticks (u32 (h_ticks h + 1)) h);;
     wakeup ticks_chan;;
     release tickslock).

(** The case [default]. *)
Definition trap_default (tf : trapframe) : K kst unit :=
  me ← myproc;
  if bool_decide (me = None) || (Z.land (tf_cs tf) 3 =? 0) then
    i ← mycpu;
    cprintf (chars "unexpected trap %d from cpu %d eip %x (cr2=0x%x)" ++ [10])
      [AInt (tf_trapno tf); AInt (Z.of_nat i); AInt (tf_eip tf); AInt cr2];;
    panic "trap"
  else
    p ← proc_at me;
    i ← mycpu;
    cprintf (chars "pid %d %s: trap %d err %d on cpu %d eip 0x%x addr 0x%x--kill proc" ++ [10])
      [AInt (p_pid p); AStr (Some (cstr (p_name p))); AInt (tf_trapno tf); AInt (tf_err tf);
       AInt (Z.of_nat i); AInt (tf_eip tf); AInt cr2];;
    modproc (default 0%nat me) (set_p_killed true).

(** The [switch]. *)
Definition trap_dispatch (tf : trapframe) : K kst unit :=
  let no := tf_trapno tf in
  if no =? T_IRQ0 + IRQ_TIMER then trap_timer
  else if no =? T_IRQ0 + IRQ_IDE then ideintr
  else if no =? T_IRQ0 + IRQ_IDE + 1 then mret tt
  else if no =? T_IRQ0 + IRQ_KBD then inmem (consoleintr keys)
  else if no =? T_IRQ0 + IRQ_COM1 then inmem (consoleintr serial)
  else if (no =? T_IRQ0 + 7) || (no =? T_IRQ0 + IRQ_SPURIOUS) then
    i ← mycpu;
    cprintf (chars "cpu%d: spurious interrupt at %x:%x" ++ [10])
      [AInt (Z.of_nat i); AInt (tf_cs tf); AInt (tf_eip tf)]
  else trap_default tf.

Definition trap (tf : trapframe) : K kst unit :=
  if tf_trapno tf =? T_SYSCALL then
    exit_if_killed;;
    me ← myproc;
    modproc (default 0%nat me) (set_p_tf tf);;
    syscall;;
    exit_if_killed
  else
    trap_dispatch tf;;
    exit_if_user_killed tf;;
    me ← myproc;
    match me with
    | None => mret tt
    | Some _ =>
        p ← proc_at me;
        when (bool_decide (p_state p = RUNNING) && (tf_trapno tf =? T_IRQ0 + IRQ_TIMER)) yield
    end;;
    exit_if_user_killed tf.
End syscall.
