(* ===== verification/Grep.v ===== *)
(** * grep.c: the matcher and the line loop

    Patterns and texts are C strings, as the lists of their characters before the
    NUL. [re_match] says what a pattern means; the matcher decides it, and
    [grep] prints the matching lines of a file. *)

From S2P Require Import Prelude CString.

(** ** The matcher *)

Definition STAR : Z := 42.
Definition DOT : Z := 46.
Definition DOLLAR : Z := 36.
Definition CARET : Z := 94.
Definition NL : Z := 10.

(** [matchstar], over what [matchhere] says of the rest [re] of the pattern. *)
Fixpoint matchstar (here : list Z → bool) (c : Z) (text : list Z) : bool :=
  if here text then true else
  match text with
  | [] => false
  | t :: text => if (t =? c) || (c =? DOT) then matchstar here c text else false
  end.

Fixpoint matchhere (re text : list Z) : bool :=
  match re with
  | [] => true
  | c :: re1 =>
      let plain :=
        if (c =? DOLLAR) && (byte0 re1 =? 0) then bool_decide (text = []) else
        match text with
        | [] => false
        | t :: text => ((c =? DOT) || (c =? t)) && matchhere re1 text
        end in
      match re1 with
      | s :: re2 => if s =? STAR then matchstar (matchhere re2) c text else plain
      | [] => plain
      end
  end.

(** The loop of [match] over the suffixes of the text. *)
Fixpoint match_from (re text : list Z) : bool :=
  if matchhere re text then true else
  match text with
  | [] => false
  | _ :: text => match_from re text
  end.

Definition match_ (re text : list Z) : bool :=
  match re with
  | c :: re1 => if c =? CARET then matchhere re1 text else match_from re text
  | [] => match_from re text
  end.

(** ** The line loop *)

Definition BUFSIZE : Z := 1024.

(** The loop over the newlines in the buffer: the lines written, and what is
    left after the last newline; [found] says whether there was one. *)
Fixpoint grep_lines (fuel : nat) (pattern p : list Z) (found : bool) : list Z * list Z * bool :=
  match fuel with
  | O => ([], p, found)
  | S fuel =>
      match strchr p NL with
      | None => ([], p, found)
      | Some q =>
          let line := take (length p - length q) p in
          let '(out, rest, found) := grep_lines fuel pattern (drop 1 q) true in
          ((if match_ pattern line then line ++ [NL] else []) ++ out, rest, found)
      end
  end.

(** One round: the [m] bytes [carry] of the buffer with the bytes read after
    them; the bytes written and the bytes kept. *)
Definition grep_round (pattern carry chunk : list Z) : list Z * list Z :=
  let buf := carry ++ chunk in
  let '(out, rest, found) := grep_lines (length buf) pattern buf false in
  (out, if found then rest else []).

(** [read] on a file returns as many bytes as are there, and as fit. *)
Fixpoint grep_loop (fuel : nat) (pattern carry file : list Z) : list Z :=
  match fuel with
  | O => []
  | S fuel =>
      let n := Z.to_nat (BUFSIZE - Z.of_nat (length carry) - 1) in
      match take n file with
      | [] => []
      | chunk =>
          let '(out, carry) := grep_round pattern carry chunk in
          out ++ grep_loop fuel pattern carry (drop n file)
      end
  end.
Definition grep (pattern file : list Z) : list Z := grep_loop (S (length file)) pattern [] file.

(** The same on a descriptor whose reads return the given pieces. *)
Fixpoint grep_chunks (pattern carry : list Z) (reads : list (list Z)) : list Z :=
  match reads with
  | [] => []
  | chunk :: reads =>
      let '(out, carry) := grep_round pattern carry chunk in
      out ++ grep_chunks pattern carry reads
  end.

(** ** What patterns mean *)

(** The character [c] of a pattern matches the character [t] of a text. *)
Definition char_ok (c t : Z) : Prop := c = DOT ∨ c = t.

(** [re_here re text]: the pattern matches a prefix of the text. *)
Inductive re_here : list Z → list Z → Prop :=
| rh_empty text : re_here [] text
| rh_star c re u text :
    Forall (λ t, char_ok c t) u → re_here re text → re_here (c :: STAR :: re) (u ++ text)
| rh_end : re_here [DOLLAR] []
| rh_char c re t text :
    head re ≠ Some STAR → ¬ (c = DOLLAR ∧ re = []) → char_ok c t → re_here re text →
    re_here (c :: re) (t :: text).

(** A pattern that starts with ^ matches at the start, another one anywhere. *)
Definition re_match (re text : list Z) : Prop :=
  match re with
  | c :: re1 => if decide (c = CARET) then re_here re1 text else ∃ u v, text = u ++ v ∧ re_here re v
  | [] => True
  end.

(** The complete lines of a text, without their newlines. *)
Fixpoint lines_from (line text : list Z) : list (list Z) :=
  match text with
  | [] => []
  | c :: text => if c =? NL then line :: lines_from [] text else lines_from (line ++ [c]) text
  end.
Definition lines (text : list Z) : list (list Z) := lines_from [] text.
Definition print_matching (pattern : list Z) (ls : list (list Z)) : list Z :=
  flat_map (λ l, if match_ pattern l then l ++ [NL] else []) ls.

(** ** The matcher decides the meaning *)

Lemma matchstar_spec here c text :
  matchstar here c text = true ↔
  ∃ u v, text = u ++ v ∧ Forall (λ t, char_ok c t) u ∧ here v = true.
Proof.
  induction text as [|t text IH]; cbn.
  - destruct (here []) eqn:E; split; try done.
    + intros _. by exists [], [].
    + intros (u & v & Huv & _ & Hv). symmetry in Huv. apply app_nil in Huv as [-> ->]. congruence.
  - destruct (here (t :: text)) eqn:E.
    { split; [|done]. intros _. by exists [], (t :: text). }
    destruct ((t =? c) || (c =? DOT)) eqn:Ec.
    + rw IH. split.
      * intros (u & v & -> & Hu & Hv). exists (t :: u), v. split_and!; [done| |done]. constructor; [|done].
        unfold char_ok. apply orb_true_iff in Ec as [?%Z.eqb_eq|?%Z.eqb_eq]; auto.
      * intros ([|t' u] & v & Huv & Hu & Hv); cbn in Huv; [by subst; congruence|]. simplify_eq.
        apply Forall_cons in Hu as [_ Hu]. by exists u, v.
    + split; [done|]. intros ([|t' u] & v & Huv & Hu & Hv); cbn in Huv; [by subst; congruence|]. simplify_eq.
      apply Forall_cons in Hu as [[-> | ->] _]; by rw Z.eqb_refl ?orb_true_r in Ec.
Qed.

Lemma matchhere_spec n : ∀ re text,
  (length re ≤ n)%nat → Forall (λ c, c ≠ 0) re → matchhere re text = true ↔ re_here re text.
Proof.
  induction n as [|n IH]; intros [|c re1] text Hn H0; cbn in Hn; try lia; try (split; [constructor|done]).
  apply Forall_cons in H0 as [_ H0]. 
  assert (head re1 ≠ Some STAR →
    (if (c =? DOLLAR) && (byte0 re1 =? 0) then bool_decide (text = []) else
     match text with [] => false | t :: text => ((c =? DOT) || (c =? t)) && matchhere re1 text end) = true
    ↔ re_here (c :: re1) text) as Hplain.
  { intros Hh. assert ((byte0 re1 =? 0) = true ↔ re1 = []) as H1.
    { rw Z.eqb_eq. destruct re1 as [|x re1]; [done|]. cbn. apply Forall_cons in H0 as [? _]. done. }
    destruct ((c =? DOLLAR) && (byte0 re1 =? 0)) eqn:E.
    - apply andb_true_iff in E as [->%Z.eqb_eq ->%H1]. rw bool_decide_eq_true. split; [intros ->; constructor|].
      inversion 1; [done|]. by subst; naive_solver.
    - destruct text as [|t text].
      + split; [done|]. intros Hr. inversion Hr; subst; [done|]. by rewrite -> (proj2 H1 eq_refl) in E.
      + rw andb_true_iff orb_true_iff !Z.eqb_eq IH //; [lia|]. split.
        * intros [Hc Hr]. constructor; try done. intros [-> Hre%H1]. by rw Hre in E.
        * intros Hr. inversion Hr; subst; naive_solver. }
  destruct re1 as [|s re2]; [by apply Hplain|]. cbn [matchhere]. case_bool.
  - subst s. rw matchstar_spec. apply Forall_cons in H0 as [_ H0]. cbn in Hn. split.
    + intros (u & v & -> & Hu & Hv). constructor; [done|]. apply IH; [lia|done..].
    + intros Hr. inversion Hr as [|? ? u v Hu Hv|x1 x2|x3 x4 x5 x6 Hh x7 x8 x9]; subst; [|done].
      exists u, v. split_and!; try done. apply IH; [lia|done..].
  - apply Hplain. cbn. congruence.
Qed.

Lemma match_from_spec re text :
  Forall (λ c, c ≠ 0) re → match_from re text = true ↔ ∃ u v, text = u ++ v ∧ re_here re v.
Proof.
  intros H0. induction text as [|t text IH]; cbn; destruct (matchhere re _) eqn:E.
  - split; [|done]. intros _. exists [], []. split; [done|]. by eapply matchhere_spec.
  - split; [done|]. intros (u & v & Huv & Hv). symmetry in Huv. apply app_nil in Huv as [-> ->].
    eapply matchhere_spec in Hv; [congruence|done..].
  - split; [|done]. intros _. exists [], (t :: text). split; [done|]. by eapply matchhere_spec.
  - rw IH. split; [intros (u & v & -> & Hv); by exists (t :: u), v|].
    intros ([|t' u] & v & Huv & Hv); cbn in Huv; simplify_eq.
    + eapply matchhere_spec in Hv; [congruence|done..].
    + by exists u, v.
Qed.

(** ** Lines *)

Lemma strchr_split p c :
  Forall (λ x, x ≠ 0) p →
  match strchr p c with
  | None => c ∉ p
  | Some q => ∃ l r, p = l ++ c :: r ∧ (c ∉ l) ∧ q = c :: r
  end.
Proof.
  induction 1 as [|x p Hx Hp IH]; cbn; [set_solver|]. rewrite -> (proj2 (Z.eqb_neq x 0)) by done.
  case_bool; [subst; exists [], p; set_solver|]. destruct (strchr p c) as [q|]; [|set_solver].
  destruct IH as (l & r & -> & Hl & ->). exists (x :: l), r. set_solver.
Qed.

Lemma lines_from_none l : ∀ acc, NL ∉ l → lines_from acc l = [].
Proof.
  induction l as [|c l IH]; intros acc Hl; cbn; [done|]. rewrite -> (proj2 (Z.eqb_neq c NL)) by set_solver.
  apply IH. set_solver.
Qed.

Lemma lines_from_app l r : ∀ acc, NL ∉ l → lines_from acc (l ++ NL :: r) = (acc ++ l) :: lines r.
Proof.
  induction l as [|c l IH]; intros acc Hl; cbn -[NL]; [by rw Z.eqb_refl app_nil_r|].
  rewrite -> (proj2 (Z.eqb_neq c NL)) by set_solver. rw IH; [set_solver|]. by rw -app_assoc.
Qed.

Lemma grep_lines_spec pattern fuel : ∀ p found,
  Forall (λ x, x ≠ 0) p → (length p ≤ fuel)%nat →
  ∃ rest, grep_lines fuel pattern p found =
      (print_matching pattern (lines p), rest, found || bool_decide (NL ∈ p)) ∧
    (NL ∉ rest) ∧ rest `suffix_of` p ∧ (NL ∈ p → (length rest < length p)%nat) ∧
    ∀ file, lines (p ++ file) = lines p ++ lines (rest ++ file).
Proof.
  induction fuel as [|fuel IH]; intros p found H0 Hf.
  - destruct p; [|cbn in Hf; lia]. exists []. cbn. rw orb_false_r. split_and!; try done; set_solver.
  - cbn [grep_lines]. pose proof (strchr_split p NL H0) as Hs. destruct (strchr p NL) as [q|].
    + destruct Hs as (l & r & -> & Hl & ->). apply Forall_app in H0 as [_ [_ H0]%Forall_cons].
      rw length_app /= in Hf. change (drop 1 (NL :: r)) with r. destruct (IH r true H0) as (rest & -> & Hrest & Hsuf & _ & Hlines); [lia|].
      exists rest. split_and!; try done.
      * rewrite -> (bool_decide_eq_true_2 (NL ∈ l ++ NL :: r)) by (rw elem_of_app elem_of_cons; auto). rw orb_true_r. unfold lines at 2. rw lines_from_app //.
        rw length_app /=. replace (length l + S (length r) - S (length r))%nat with (length l) by lia.
        by rw take_app_length.
      * apply suffix_app_r. by apply suffix_cons_r.
      * intros _. rw length_app /=. apply suffix_length in Hsuf. lia.
      * intros file. unfold lines. rw -app_assoc. cbn -[NL]. rw !lines_from_app //. cbn. f_equal. apply Hlines.
    + exists p. unfold lines. rw (lines_from_none p) //. rewrite -> bool_decide_eq_false_2 by done.
      rw orb_false_r. by split_and!.
Qed.

(** The lines fit the buffer, with their newlines. *)
Definition short_lines (text : list Z) : Prop :=
  Forall (λ l, Z.of_nat (length l) + 1 < BUFSIZE) (lines text).

Lemma elem_of_first (x : Z) (l : list Z) : x ∈ l → ∃ a b, l = a ++ x :: b ∧ (x ∉ a).
Proof.
  induction l as [|y l IH]; [set_solver|]. intros Hin. destruct (decide (x = y)) as [->|Hne].
  - exists [], l. set_solver.
  - destruct IH as (a & b & -> & Ha); [set_solver|]. exists (y :: a), b. set_solver.
Qed.

Lemma long_line l file :
  NL ∉ l → (Z.to_nat BUFSIZE - 1 ≤ length l)%nat → short_lines (l ++ file) → NL ∉ file.
Proof.
  intros Hl Hlen Hs Hin. apply elem_of_first in Hin as (a & b & -> & Ha).
  unfold short_lines, lines in Hs. rw app_assoc lines_from_app in Hs; [set_solver|].
  apply Forall_cons in Hs as [Hs _]. cbn [app] in Hs. rw length_app in Hs. unfold BUFSIZE in *. lia.
Qed.

Lemma grep_loop_spec pattern fuel : ∀ carry file,
  Forall (λ x, x ≠ 0) (carry ++ file) → (NL ∉ carry) → Z.of_nat (length carry) + 1 < BUFSIZE →
  short_lines (carry ++ file) → (length file < fuel)%nat →
  grep_loop fuel pattern carry file = print_matching pattern (lines (carry ++ file)).
Proof.
  induction fuel as [|fuel IH]; intros carry file H0 Hc Hlen Hs Hf; [lia|]. cbn [grep_loop].
  set (n := Z.to_nat (BUFSIZE - Z.of_nat (length carry) - 1)). assert (0 < n)%nat as Hn by (unfold n; lia).
  destruct (take n file) as [|x chunk] eqn:Et.
  { destruct file as [|y file]; [|apply (f_equal length) in Et; rw length_take in Et; cbn in Et; lia]. rw app_nil_r. unfold lines. by rw lines_from_none. }
  rw -Et. unfold grep_round. set (buf := carry ++ take n file).
  assert (carry ++ file = buf ++ drop n file) as Eb by (unfold buf; by rw -app_assoc take_drop).
  assert (length (drop n file) < fuel)%nat as Hd.
  { rw length_drop. apply (f_equal length) in Et. rw length_take in Et. cbn in Et. lia. }
  rw Eb in H0 Hs. rw Eb. apply Forall_app in H0 as [Hb0 Hf0].
  destruct (grep_lines_spec pattern (length buf) buf false Hb0 (le_n _)) as (rest & -> & Hr & Hsuf & Hrl & Hlines).
  cbn [orb]. case_bool_decide as Hin.
  - rw IH //; try done.
    + apply Forall_app. split; [|done]. destruct Hsuf as [k Ek]. rw Ek in Hb0.
      by apply Forall_app in Hb0 as [_ Hb0].
    + apply Hrl in Hin. unfold buf in Hin. rw length_app length_take in Hin. unfold n in Hin. lia.
    + unfold short_lines in *. rw Hlines in Hs. by apply Forall_app in Hs as [_ Hs].
    + rw Hlines. unfold print_matching. by rw flat_map_app.
  - assert (lines buf = []) as E1 by (unfold lines; by rw lines_from_none).
    rw E1. cbn [print_matching flat_map app].
    assert (NL ∉ drop n file) as Hnf.
    { destruct (decide (length file ≤ n)%nat); [rewrite -> drop_ge by lia; set_solver|].
      eapply (long_line buf); [done| |done]. unfold buf. rw length_app length_take. unfold n in *. lia. }
    rw IH //; cbn; try done; [set_solver|unfold short_lines, lines; by rw lines_from_none|].
    unfold lines. rw !lines_from_none //. set_solver.
Qed.

(** ** Properties *)

(** C39: [match] decides the meaning of a pattern: it returns for every pattern
    and every text, and returns 1 exactly when the pattern matches the text
    somewhere (at the start for a pattern with ^), where a character matches
    itself, a dot any character, [c*] any number of [c] and a final $ the end. *)
Theorem grep_matcher_correct (re text : list Z) :
  Forall (λ c, c ≠ 0) re → match_ re text = true ↔ re_match re text.
Proof.
  intros H0. unfold match_, re_match. destruct re as [|c re].
  - by destruct text.
  - case_bool.
    + subst. rewrite -> decide_True by done. apply Forall_cons in H0 as [_ H0]. by eapply matchhere_spec.
    + rewrite -> decide_False by done. by apply match_from_spec.
Qed.

(** [grep] on a file prints exactly the complete lines that match, in
    order, when every line fits the buffer of 1024 bytes; but on a descriptor
    that returns a line in two pieces, such as a pipe, it can lose the first
    piece and with it the match. *)
Theorem grep_prints_matching_lines (pattern file : list Z) :
  Forall (λ c, c ≠ 0) file → short_lines file →
  grep pattern file = print_matching pattern (lines file) ∧
  (let a := 97 in let b := 98 in
   grep [a] [a; b; NL] = [a; b; NL] ∧ grep_chunks [a] [] [[a]; [b; NL]] = []).
Proof. intros H0 Hs. split; [|done]. apply grep_loop_spec; try done; [set_solver|lia]. Qed.

(** ** On concrete data *)

Lemma grep_matcher_correct_witness : re_match (0x61 :: STAR :: [0x62; DOLLAR]) [0x63; 0x61; 0x61; 0x62].
Proof. apply grep_matcher_correct; [by repeat constructor|reflexivity]. Defined.

Lemma grep_prints_matching_lines_witness :
  grep [0x62] [0x61; NL; 0x62; NL; 0x62] = print_matching [0x62] [[0x61]; [0x62]].
Proof.
  apply (grep_prints_matching_lines [0x62] [0x61; NL; 0x62; NL; 0x62]); by repeat constructor.
Defined.
