(* ===== verification/Wc.v ===== *)
(** * printf.c and wc.c: formatted output of user programs, counting words

    What a program writes to a descriptor is the list of its bytes. *)

From S2P Require Import Prelude Machine Spinlock Console CString.

(** ** printf.c *)

(** [digits[d]], with capital letters. *)
Definition udigit (d : Z) : Z := if d <? 10 then 48 + d else 65 + (d - 10).
Fixpoint udigits_loop (fuel : nat) (x base : Z) : list Z :=
  match fuel with
  | O => []
  | S fuel => udigit (x mod base) :: (if x / base =? 0 then [] else udigits_loop fuel (x / base) base)
  end.
Definition uprintint (xx base : Z) (sgn : bool) : list Z :=
  let neg := sgn && (xx <? 0) in
  rev (udigits_loop 32 (u32 (if neg then - xx else xx)) base ++ (if neg then [45] else [])).

(** The loop of [printf]; [state] says whether the last character was a %. The
    result [None] is an argument of the wrong kind. *)
Fixpoint uprintf_loop (fmt : list Z) (state : bool) (args : list carg) : option (list Z) :=
  match fmt with
  | [] => Some []
  | c :: fmt =>
      if negb state then
        if c =? 37 then uprintf_loop fmt true args else (c ::.) <$> uprintf_loop fmt false args
      else if c =? 100 then
        match args with
        | AInt v :: args => (uprintint (s32 v) 10 true ++.) <$> uprintf_loop fmt false args
        | _ => None
        end
      else if (c =? 120) || (c =? 112) then
        match args with
        | AInt v :: args => (uprintint (s32 v) 16 false ++.) <$> uprintf_loop fmt false args
        | _ => None
        end
      else if c =? 115 then
        match args with
        | AStr s :: args => (default (chars "(null)") s ++.) <$> uprintf_loop fmt false args
        | _ => None
        end
      else if c =? 99 then
        match args with
        | AInt v :: args => (u8 v ::.) <$> uprintf_loop fmt false args
        | _ => None
        end
      else if c =? 37 then (c ::.) <$> uprintf_loop fmt false args
      else ([37; c] ++.) <$> uprintf_loop fmt false args
  end.
Definition uprintf (fmt : list Z) (args : list carg) : option (list Z) := uprintf_loop fmt false args.

(** ** wc.c *)

(** [l], [w], [c] and [inword]. *)
Record wcst : Type := MkWc { wc_l : Z; wc_w : Z; wc_c : Z; wc_inword : bool }.

(** [strchr(" \r\t\n\v", c)] *)
Definition wc_space (c : Z) : bool :=
  match strchr [32; 13; 9; 10; 11] c with Some _ => true | None => false end.

(** The body of the loop over the bytes. *)
Definition wc_byte (s : wcst) (b : Z) : wcst :=
  let l := if b =? 10 then s32 (wc_l s + 1) else wc_l s in
  let c := s32 (wc_c s + 1) in
  if wc_space b then MkWc l (wc_w s) c false
  else if negb (wc_inword s) then MkWc l (s32 (wc_w s + 1)) c true
  else MkWc l (wc_w s) c (wc_inword s).

(** [reads]: the bytes of the reads that return some; [last]: the result of the
    last one. *)
Definition wc (reads : list (list Z)) (last : Z) (name : list Z) : option (list Z) :=
  let s := foldl (foldl wc_byte) (MkWc 0 0 0 false) reads in
  if last <? 0 then uprintf (chars "wc: read error" ++ [10]) []
  else uprintf (chars "%d %d %d %s" ++ [10]) [AInt (wc_l s); AInt (wc_w s); AInt (wc_c s); AStr (Some name)].

(** ** What the counts are *)

(** The words of a text: its maximal runs of bytes that are not spaces. *)
Fixpoint words_from (word text : list Z) : list (list Z) :=
  match text with
  | [] => if bool_decide (word = []) then [] else [word]
  | c :: text =>
      if wc_space c then (if bool_decide (word = []) then [] else [word]) ++ words_from [] text
      else words_from (word ++ [c]) text
  end.
Definition words (text : list Z) : list (list Z) := words_from [] text.
Definition newlines (text : list Z) : nat := length (filter (λ c, c = 10) text).

(** ** Lemmas *)

Definition inword (word : list Z) : bool := negb (bool_decide (word = [])).

(** The loop from inside the word [word], before the counters overflow. *)
Lemma wc_fold text : ∀ l w c word,
  0 ≤ l ≤ c → 0 ≤ w ≤ c → c + Z.of_nat (length text) < 2 ^ 31 →
  ∃ b, foldl wc_byte (MkWc l w c (inword word)) text =
    MkWc (l + Z.of_nat (newlines text))
         (w + Z.of_nat (length (words_from word text)) - (if inword word then 1 else 0))
         (c + Z.of_nat (length text)) b.
Proof.
  induction text as [|x text IH]; intros l w c word Hl Hw Hc; cbn [foldl length words_from].
  - exists (inword word). unfold newlines, inword. cbn. case_bool_decide; cbn; f_equal; lia.
  - cbn [length] in Hc. set (l' := if x =? 10 then l + 1 else l).
    assert (l + Z.of_nat (newlines (x :: text)) = l' + Z.of_nat (newlines text)) as ->.
    { unfold newlines, l'. rw filter_cons. case_bool; case_decide; try lia; cbn [length]; lia. }
    assert (wc_byte (MkWc l w c (inword word)) x =
      if wc_space x then MkWc l' w (c + 1) (inword []) else
      MkWc l' (w + if inword word then 0 else 1) (c + 1) (inword (word ++ [x]))) as ->.
    { unfold wc_byte. cbn [wc_l wc_w wc_c wc_inword]. rewrite -> !(wraps_small 32) by lia. fold l'.
      assert (inword (word ++ [x]) = true) as -> by (by destruct word).
      destruct (wc_space x); [done|]. destruct (inword word); cbn [negb]; [by rw Z.add_0_r|]. done. }
    assert (l ≤ l' ≤ l + 1) by (unfold l'; case_bool; lia).
    destruct (wc_space x).
    + destruct (IH l' w (c + 1) []) as (b & ->); [lia..|]. exists b. f_equal; [|lia].
      change (inword []) with false. unfold inword. case_bool_decide; cbn [negb app length]; lia.
    + destruct (IH l' (w + if inword word then 0 else 1) (c + 1) (word ++ [x])) as (b & ->);
        [lia|destruct (inword word); lia|lia|]. exists b. f_equal; [|lia].
      assert (inword (word ++ [x]) = true) as -> by (by destruct word). destruct (inword word); lia.
Qed.

Lemma words_length text : ∀ w,
  (length (words_from w text) ≤ length text + if inword w then 1 else 0)%nat.
Proof.
  induction text as [|c text IH]; intros w; cbn [words_from length].
  - unfold inword. case_bool_decide; cbn; lia.
  - destruct (wc_space c).
    + specialize (IH []). change (if inword [] then 1 else 0)%nat with 0%nat in IH. rw length_app.
      unfold inword. case_bool_decide; cbn [length negb]; lia.
    + specialize (IH (w ++ [c])). destruct (inword (w ++ [c])), (inword w); lia.
Qed.

Lemma foldl_join {A B} (f : A → B → A) ls : ∀ a, foldl (foldl f) a ls = foldl f a (mjoin ls).
Proof. induction ls as [|l ls IH]; intros a; cbn; [done|]. by rw IH foldl_app. Qed.

Lemma uprintf_counts a b c s :
  uprintf (chars "%d %d %d %s" ++ [10]) [AInt a; AInt b; AInt c; AStr (Some s)] =
  Some (uprintint (s32 a) 10 true ++ [32] ++ uprintint (s32 b) 10 true ++ [32] ++
        uprintint (s32 c) 10 true ++ [32] ++ s ++ [10]).
Proof. reflexivity. Qed.

Lemma wc_prints (reads : list (list Z)) (last : Z) (name : list Z) :
  let text := mjoin reads in
  Z.of_nat (length text) < 2 ^ 31 → 0 ≤ last →
  wc reads last name =
    Some (uprintint (Z.of_nat (newlines text)) 10 true ++ [32] ++
          uprintint (Z.of_nat (length (words text))) 10 true ++ [32] ++
          uprintint (Z.of_nat (length text)) 10 true ++ [32] ++ name ++ [10]).
Proof.
  intros text Ht Hlast. unfold wc. rewrite -> (proj2 (Z.ltb_ge _ _) Hlast).
  destruct (wc_fold text 0 0 0 []) as (b & E); [lia..|]. rw foldl_join. fold text.
  change (inword []) with false in E. rw E. cbn [wc_l wc_w wc_c]. fold (words text).
  assert (newlines text ≤ length text)%nat as H1 by apply length_filter.
  assert (Z.of_nat (length (words text)) ≤ Z.of_nat (length text)) as H2.
  { pose proof (words_length text []) as H. change (if inword [] then 1 else 0)%nat with 0%nat in H. unfold words. lia. }
  rw uprintf_counts !Z.add_0_l Z.sub_0_r. by rewrite -> !(wraps_small 32) by lia.
Qed.

(** ** Properties *)

(** [wc] counts correctly however the reads cut the text into pieces: for a
    text of less than 2^31 bytes it prints the number of newlines, of words
    and of bytes, and the name. *)
Theorem wc_counts (reads : list (list Z)) (last : Z) (name : list Z) :
  let text := mjoin reads in
  Z.of_nat (length text) < 2 ^ 31 → 0 ≤ last →
  wc reads last name =
    Some (uprintint (Z.of_nat (newlines text)) 10 true ++ [32] ++
          uprintint (Z.of_nat (length (words text))) 10 true ++ [32] ++
          uprintint (Z.of_nat (length text)) 10 true ++ [32] ++ name ++ [10]).
Proof. apply wc_prints. Qed.

Lemma wc_counts_witness :
  wc [[97; 98]; [99; 32]; [100; 10]] 0 [120] = Some [49; 32; 50; 32; 54; 32; 120; 10].
Proof. exact (wc_counts [[97; 98]; [99; 32]; [100; 10]] 0 [120] ltac:(cbn; lia) ltac:(lia)). Defined.
