(* ===== verification/User.v ===== *)
(** * User programs: system calls, printf and gets

    A program is a tree of system calls: a call with, for every result, the
    rest of the program. What the calls do is a separate interpretation of
    the tree. Loops that depend on input are given a number of rounds. *)

From S2P Require Import Prelude Machine Spinlock Console CString Wc.

(** [struct stat] *)
Record stat_ : Type := MkStat { st_type : Z; st_dev : Z; st_ino : Z; st_nlink : Z; st_size : Z }.

(** user.h *)
Inductive syscall_ : Type :=
| CFork
| CWait
| CPipe
| CRead (fd n : Z)
| CWrite (fd : Z) (bytes : list Z)
| CClose (fd : Z)
| CKill (pid : Z)
| CExec (path : list Z) (argv : list (list Z))
| COpen (path : list Z) (mode : Z)
| CMknod (path : list Z) (major minor : Z)
| CUnlink (path : list Z)
| CFstat (fd : Z)
| CLink (old new : list Z)
| CMkdir (path : list Z)
| CChdir (path : list Z)
| CDup (fd : Z)
| CSleep (n : Z)
| CPrintNumSyscalls
| CAq.

(** The result, with what the call stores through its pointers: the two
    descriptors of [pipe], the bytes of [read], the [stat] of [fstat]. *)
Definition result (c : syscall_) : Type :=
  match c with
  | CPipe => Z * (Z * Z)
  | CRead _ _ => Z * list Z
  | CFstat _ => Z * stat_
  | _ => Z
  end.

(** [Exit]: the call of [exit], which does not return. [Wild]: an access that C
    does not allow, or a loop that was given too few rounds. *)
Inductive prog (A : Type) : Type :=
| Ret (a : A)
| Call (c : syscall_) (k : result c → prog A)
| Exit
| Wild (msg : string).
Arguments Ret {A} a.
Arguments Call {A} c k.
Arguments Exit {A}.
Arguments Wild {A} msg.

Fixpoint prog_bind {A B} (f : A → prog B) (p : prog A) : prog B :=
  match p with
  | Ret a => f a
  | Call c k => Call c (λ r, prog_bind f (k r))
  | Exit => Exit
  | Wild msg => Wild msg
  end.

#[export] Instance prog_ret : MRet prog := @Ret.
#[export] Instance prog_bind' : MBind prog := @prog_bind.

Definition sys (c : syscall_) : prog (result c) := Call c Ret.

(** [for(x in l) f(x);] *)
Fixpoint pfor {A} (l : list A) (f : A → prog unit) : prog unit :=
  match l with
  | [] => mret tt
  | x :: l => f x;; pfor l f
  end.

(** ** printf.c *)

(** [putc]: one [write] for each character. *)
Definition putc (fd c : Z) : prog unit := sys (CWrite fd [c]);; mret tt.

Definition printf (fd : Z) (fmt : list Z) (args : list carg) : prog unit :=
  match uprintf fmt args with
  | Some out => pfor out (putc fd)
  | None => Wild "printf"
  end.

(** ** ulib.c *)

(** The loop of [gets]: [n] is [max - 1 - i], [acc] the characters read. *)
Fixpoint ugets_loop (n : nat) (acc : list Z) : prog (list Z) :=
  match n with
  | O => mret acc
  | S n =>
      r ← sys (CRead 0 1);
      let '(cc, bytes) := r in
      if cc <? 1 then mret acc else
      let c := hd 0 bytes in
      if (c =? 10) || (c =? 13) then mret (acc ++ [c]) else ugets_loop n (acc ++ [c])
  end.
Definition ugets (max : Z) : prog (list Z) := ugets_loop (Z.to_nat (max - 1)) [].

Definition ustat (n : list Z) : prog (Z * stat_) :=
  fd ← sys (COpen n O_RDONLY);
  if fd <? 0 then mret (-1, MkStat 0 0 0 0 0) else
  r ← sys (CFstat fd);
  sys (CClose fd);;
  mret r.

(** ** Running a program

    [os c s] is the result of the call [c] in the state [s] of the system and
    the state after it. *)

Inductive ending (A : Type) : Type :=
| Returned (a : A)
| Exited
| Crashed (msg : string).
Arguments Returned {A} a.
Arguments Exited {A}.
Arguments Crashed {A} msg.

Section run.
Context {S : Type} (os : ∀ c : syscall_, S → result c * S).

Fixpoint run {A} (p : prog A) (s : S) : ending A * S :=
  match p with
  | Ret a => (Returned a, s)
  | Call c k => let '(r, s) := os c s in run (k r) s
  | Exit => (Exited, s)
  | Wild msg => (Crashed msg, s)
  end.

Lemma run_bind {A B} (p : prog A) (f : A → prog B) s :
  run (p ≫= f) s = match run p s with (Returned a, s') => run (f a) s' | (Exited, s') => (Exited, s') | (Crashed m, s') => (Crashed m, s') end.
Proof.
  revert s. induction p as [a|c k IH| |msg]; intros s; cbn; try done. destruct (os c s) as [r s']. apply IH.
Qed.

Lemma run_sys {B} (c : syscall_) (f : result c → prog B) s : run (sys c ≫= f) s = run (f (os c s).1) (os c s).2.
Proof. cbn. by destruct (os c s). Qed.

(** A loop with an invariant of the elements done. *)
Lemma run_pfor {A} (I : list A → S → Prop) (f : A → prog unit) (l : list A) : ∀ l0 s, I l0 s →
  (∀ l1 x l2 s, l0 ++ l = l1 ++ x :: l2 → I l1 s → ∃ s', run (f x) s = (Returned tt, s') ∧ I (l1 ++ [x]) s') →
  ∃ s', run (pfor l f) s = (Returned tt, s') ∧ I (l0 ++ l) s'.
Proof.
  induction l as [|x l IH]; intros l0 s HI Hstep; cbn [pfor].
  - exists s. by rw app_nil_r.
  - destruct (Hstep l0 x l s eq_refl HI) as (s1 & E & HI1). rw run_bind E. destruct (IH (l0 ++ [x]) s1 HI1) as (s' & E' & HI').
    + intros l1 y l2 s2. rw -app_assoc. apply Hstep.
    + exists s'. by rw -app_assoc in HI'.
Qed.
End run.
