(* ===== verification/ShParse.v ===== *)
(** * sh.c: the parser of the shell

    A command line is read by a recursive descent parser over the bytes of
    the buffer. The parser builds its tree out of nodes from [malloc]; words are
    pairs of pointers into the buffer, and [nulterminate] writes a NUL behind
    every word when the line has been parsed. *)

From S2P Require Import Prelude Machine Spinlock Console CString.

(** ** Data *)

Definition MAXARGS : nat := 10.

(** [struct cmd*]: [None] is the null pointer, [Some i] the node [i] of the heap. *)
Abbreviation cmdp := (option nat).

(** [execcmd], [redircmd], [pipecmd], [listcmd] and [backcmd]. The entries of
    [argv] and [eargv] are positions in the buffer; [None] is the null pointer. *)
Inductive cnode : Type :=
| NExec (argv : list (option (nat * nat)))
| NRedir (cmd : cmdp) (file efile : nat) (mode fd : Z)
| NPipe (left right : cmdp)
| NList (left right : cmdp)
| NBack (cmd : cmdp).

(** The position [*ps] and the nodes that [malloc] returned so far. *)
Record pst : Type := MkPst { ps : nat; heap : list cnode }.
Definition set_ps (v : nat) (s : pst) : pst := MkPst v (heap s).
Definition set_heap (v : list cnode) (s : pst) : pst := MkPst (ps s) v.

(** ** Tokens *)

Definition whitespace : list Z := [32; 9; 13; 10; 11].
Definition symbols : list Z := chars "<|>&;()".

(** [strchr(str, c) != 0] *)
Definition in_chars (str : list Z) (c : Z) : bool := bool_decide (is_Some (strchr str c)).

Definition WORD : Z := 97.
Definition APPEND : Z := 43.
Definition PIPE_ : Z := 124.
Definition LPAR : Z := 40.
Definition RPAR : Z := 41.
Definition SEMI : Z := 59.
Definition AMP : Z := 38.
Definition LESS : Z := 60.
Definition GREATER : Z := 62.

Section parser.
Context (buf : list Z) (room : nat).

(** [*s]: the byte at a position, the NUL at the end of the string. *)
Definition char_at (s : nat) : Z := default 0 (buf !! s).

(** [while(s < es && f( *s)) s++;] The loop runs at most [es - s] times. *)
Fixpoint span_loop (n : nat) (f : Z → bool) (s es : nat) : nat :=
  match n with
  | O => s
  | S n => if (s <? es)%nat && f (char_at s) then span_loop n f (S s) es else s
  end.
Definition span (f : Z → bool) (s es : nat) : nat := span_loop (es - s) f s es.

Definition is_space (c : Z) : bool := in_chars whitespace c.
Definition is_word (c : Z) : bool := negb (in_chars whitespace c) && negb (in_chars symbols c).

(** The code of the token, [*q], [*eq] and the new [*ps]. *)
Definition gettoken (s es : nat) : Z * nat * nat * nat :=
  let s := span is_space s es in
  let q := s in
  let c := char_at s in
  let '(ret, s) :=
    if c =? 0 then (c, s)
    else if (c =? PIPE_) || (c =? LPAR) || (c =? RPAR) || (c =? SEMI) || (c =? AMP) || (c =? LESS) then (c, S s)
    else if c =? GREATER then if char_at (S s) =? GREATER then (APPEND, S (S s)) else (c, S s)
    else (WORD, span is_word s es) in
  let eq := s in
  (ret, q, eq, span is_space s es).

(** The result and the new [*ps]. *)
Definition peek (s es : nat) (toks : list Z) : bool * nat :=
  let s := span is_space s es in
  (negb (char_at s =? 0) && in_chars toks (char_at s), s).

(** ** Constructors

    [malloc] can return [room] nodes; the constructors write through its result
    without a test. *)

Definition new_node (n : cnode) : M pst cmdp :=
  H ← gets heap;
  if (room <=? length H)%nat then fault "memset: null pointer" else
  modify (set_heap (H ++ [n]));;
  mret (Some (length H)).

Definition execcmd : M pst cmdp := new_node (NExec (replicate MAXARGS None)).
Definition redircmd (subcmd : cmdp) (file efile : nat) (mode fd : Z) : M pst cmdp :=
  new_node (NRedir subcmd file efile mode fd).
Definition pipecmd (left right : cmdp) : M pst cmdp := new_node (NPipe left right).
Definition listcmd (left right : cmdp) : M pst cmdp := new_node (NList left right).
Definition backcmd (subcmd : cmdp) : M pst cmdp := new_node (NBack subcmd).

(** [cmd->argv[argc] = q; cmd->eargv[argc] = eq;] *)
Definition set_arg (cmd : cmdp) (argc : nat) (a : option (nat * nat)) : M pst unit :=
  H ← gets heap;
  match cmd with
  | Some e =>
      match H !! e with
      | Some (NExec argv) =>
          if (argc <? length argv)%nat then modify (set_heap (<[e := NExec (<[argc := a]> argv)]> H))
          else fault "argv"
      | _ => fault "execcmd"
      end
  | None => fault "execcmd"
  end.

(** ** Parsing

    [es] is the end of the string. [panic] prints its message and exits. *)

Abbreviation es := (length buf).

Definition gettok : M pst (Z * nat * nat) :=
  s ← gets ps;
  let '(ret, q, eq, s) := gettoken s es in
  modify (set_ps s);;
  mret (ret, q, eq).

Definition peektok (toks : list Z) : M pst bool :=
  s ← gets ps;
  let '(b, s) := peek s es toks in
  modify (set_ps s);;
  mret b.

(** The loop of [parseredirs]. *)
Fixpoint parseredirs (fuel : nat) (cmd : cmdp) : M pst cmdp :=
  b ← peektok (chars "<>");
  if negb b then mret cmd else
  match fuel with
  | O => fault "parseredirs: loop"
  | S fuel =>
      t ← gettok;
      let '(tok, _, _) := t in
      t ← gettok;
      let '(tok2, q, eq) := t in
      if negb (tok2 =? WORD) then panic "missing file for redirection" else
      cmd ← (if tok =? LESS then redircmd cmd q eq O_RDONLY 0
             else if tok =? GREATER then redircmd cmd q eq (Z.lor O_WRONLY O_CREATE) 1
             else if tok =? APPEND then redircmd cmd q eq (Z.lor O_WRONLY O_CREATE) 1
             else mret cmd);
      parseredirs fuel cmd
  end.

(** The loop of [parseexec] over the arguments; [cmd] is the node of the
    arguments and [ret] the command with its redirections. *)
Fixpoint parseexec_args (fuel : nat) (cmd : cmdp) (argc : nat) (ret : cmdp) : M pst (nat * cmdp) :=
  b ← peektok (chars "|)&;");
  if b : bool then mret (argc, ret) else
  match fuel with
  | O => fault "parseexec: loop"
  | S fuel =>
      t ← gettok;
      let '(tok, q, eq) := t in
      if tok =? 0 then mret (argc, ret) else
      if negb (tok =? WORD) then panic "syntax" else
      set_arg cmd argc (Some (q, eq));;
      let argc := S argc in
      if (MAXARGS <=? argc)%nat then panic "too many args" else
      ret ← parseredirs (S es) ret;
      parseexec_args fuel cmd argc ret
  end.

(** The loop of [parseline] over the [&]. *)
Fixpoint parseback (fuel : nat) (cmd : cmdp) : M pst cmdp :=
  b ← peektok (chars "&");
  if negb b then mret cmd else
  match fuel with
  | O => fault "parseline: loop"
  | S fuel =>
      gettok;;
      cmd ← backcmd cmd;
      parseback fuel cmd
  end.

(** [fuel] bounds the depth of the calls. *)
Fixpoint parseline (fuel : nat) : M pst cmdp :=
  match fuel with
  | O => fault "parse: depth"
  | S fuel =>
      cmd ← parsepipe fuel;
      cmd ← parseback (S es) cmd;
      b ← peektok (chars ";");
      if negb b then mret cmd else
      gettok;;
      right ← parseline fuel;
      listcmd cmd right
  end
with parsepipe (fuel : nat) : M pst cmdp :=
  match fuel with
  | O => fault "parse: depth"
  | S fuel =>
      cmd ← parseexec fuel;
      b ← peektok (chars "|");
      if negb b then mret cmd else
      gettok;;
      right ← parsepipe fuel;
      pipecmd cmd right
  end
with parseblock (fuel : nat) : M pst cmdp :=
  match fuel with
  | O => fault "parse: depth"
  | S fuel =>
      b ← peektok (chars "(");
      if negb b then panic "parseblock" else
      gettok;;
      cmd ← parseline fuel;
      b ← peektok (chars ")");
      if negb b then panic "syntax - missing )" else
      gettok;;
      parseredirs (S es) cmd
  end
with parseexec (fuel : nat) : M pst cmdp :=
  match fuel with
  | O => fault "parse: depth"
  | S fuel =>
      b ← peektok (chars "(");
      if b : bool then parseblock fuel else
      cmd ← execcmd;
      ret ← parseredirs (S es) cmd;
      r ← parseexec_args (S es) cmd 0 ret;
      let '(argc, ret) := r in
      set_arg cmd argc None;;
      mret ret
  end.
End parser.

(** [*p = 0] for a position of the buffer; the position [length buf] is the NUL
    that is there already. *)
Definition put_nul (p : nat) (buf : list Z) : list Z := <[p := 0]> buf.

(** [for(i=0; ecmd->argv[i]; i++) *ecmd->eargv[i] = 0;] *)
Fixpoint nul_args (argv : list (option (nat * nat))) (buf : list Z) : option (list Z) :=
  match argv with
  | [] => None
  | None :: _ => Some buf
  | Some (_, eq) :: argv => nul_args argv (put_nul eq buf)
  end.

(** [None]: an access outside the nodes and arrays; [fuel] bounds the depth. *)
Fixpoint nulterminate (fuel : nat) (H : list cnode) (cmd : cmdp) (buf : list Z) : option (list Z) :=
  match cmd with
  | None => Some buf
  | Some i =>
      match fuel with
      | O => None
      | S fuel =>
          match H !! i with
          | None => None
          | Some (NExec argv) => nul_args argv buf
          | Some (NRedir c _ efile _ _) => put_nul efile <$> nulterminate fuel H c buf
          | Some (NPipe l r) | Some (NList l r) => nulterminate fuel H l buf ≫= nulterminate fuel H r
          | Some (NBack c) => nulterminate fuel H c buf
          end
      end
  end.

(** What [parsecmd] ends with: the command with the nodes and the buffer of the
    words; or a message and [exit()], the rest of the line printed before; or
    an access that C does not allow. *)
Inductive parsed : Type :=
| Parsed (cmd : cmdp) (H : list cnode) (buf : list Z)
| SyntaxError (leftovers : option (list Z)) (msg : string)
| Crash (msg : string).

Definition parsecmd (room : nat) (buf : list Z) : parsed :=
  match (cmd ← parseline buf room (4 * length buf + 4); peektok buf [];; mret cmd) (MkPst 0 []) with
  | Ok cmd s =>
      if negb (ps s =? length buf)%nat then SyntaxError (Some (drop (ps s) buf)) "syntax" else
      match nulterminate (S (length (heap s))) (heap s) cmd buf with
      | Some buf => Parsed cmd (heap s) buf
      | None => Crash "nulterminate"
      end
  | Stop (Panic msg) _ => SyntaxError None msg
  | Stop (Fault msg) _ => Crash msg
  | Stop _ _ => Crash "parsecmd"
  end.
