(* ===== verification/ShGrammar.v ===== *)
(** * sh.c: the language of the shell's parser

    The grammar of command lines over tokens, and the proof that the parser of
    [ShParse] accepts exactly this language and builds the tree of the
    derivation. The proof goes through a parser over token lists, with trees
    instead of nodes, which the C parser simulates. *)

From S2P Require Import Prelude Machine Spinlock Console CString ShParse.

(** ** Tokens *)

Inductive token : Type :=
| TWord (w : list Z)
| TSym (c : Z)
| TApp.

Inductive lexes : list Z → list token → Prop :=
| lex_nil : lexes [] []
| lex_space c l ts : is_space c = true → lexes l ts → lexes (c :: l) ts
| lex_sym c l ts : c ∈ [PIPE_; LPAR; RPAR; SEMI; AMP; LESS] → lexes l ts → lexes (c :: l) (TSym c :: ts)
| lex_greater l ts : hd 0 l ≠ GREATER → lexes l ts → lexes (GREATER :: l) (TSym GREATER :: ts)
| lex_append l ts : lexes l ts → lexes (GREATER :: GREATER :: l) (TApp :: ts)
| lex_word w l ts : w ≠ [] → Forall (λ c, is_word c = true) w → (l = [] ∨ is_word (hd 0 l) = false) →
    lexes l ts → lexes (w ++ l) (TWord w :: ts).

(** ** The grammar *)

Inductive cmd : Type :=
| EXEC (argv : list (list Z))
| REDIR (c : cmd) (file : list Z) (mode fd : Z)
| PIPE (left right : cmd)
| LIST (left right : cmd)
| BACK (c : cmd).

(** The file, the mode and the descriptor of a redirection. *)
Abbreviation redir := (list Z * Z * Z)%type.

Definition wrap (rs : list redir) (c : cmd) : cmd := foldl (λ c '(w, m, fd), REDIR c w m fd) c rs.

Inductive redirs : list token → list redir → Prop :=
| redirs_nil : redirs [] []
| redirs_in w ts rs : redirs ts rs → redirs (TSym LESS :: TWord w :: ts) ((w, O_RDONLY, 0) :: rs)
| redirs_out w ts rs : redirs ts rs → redirs (TSym GREATER :: TWord w :: ts) ((w, Z.lor O_WRONLY O_CREATE, 1) :: rs)
| redirs_app w ts rs : redirs ts rs → redirs (TApp :: TWord w :: ts) ((w, Z.lor O_WRONLY O_CREATE, 1) :: rs).

(** Words, each with redirections behind it. *)
Inductive args : list token → list (list Z) → list redir → Prop :=
| args_nil : args [] [] []
| args_word w ts1 rs1 ts2 ws rs2 : redirs ts1 rs1 → args ts2 ws rs2 → args (TWord w :: ts1 ++ ts2) (w :: ws) (rs1 ++ rs2).

Inductive line : list token → cmd → Prop :=
| line_pipe ts n c : pipe ts c → line (ts ++ replicate n (TSym AMP)) (Nat.iter n BACK c)
| line_list ts1 n c1 ts2 c2 : pipe ts1 c1 → line ts2 c2 →
    line (ts1 ++ replicate n (TSym AMP) ++ TSym SEMI :: ts2) (LIST (Nat.iter n BACK c1) c2)
with pipe : list token → cmd → Prop :=
| pipe_simple ts c : simple ts c → pipe ts c
| pipe_pipe ts1 c1 ts2 c2 : simple ts1 c1 → pipe ts2 c2 → pipe (ts1 ++ TSym PIPE_ :: ts2) (PIPE c1 c2)
with simple : list token → cmd → Prop :=
| simple_exec ts1 rs1 ts2 ws rs2 : redirs ts1 rs1 → args ts2 ws rs2 → (length ws < MAXARGS)%nat →
    simple (ts1 ++ ts2) (wrap (rs1 ++ rs2) (EXEC ws))
| simple_block ts1 c ts2 rs : line ts1 c → redirs ts2 rs → simple (TSym LPAR :: ts1 ++ TSym RPAR :: ts2) (wrap rs c).

(** ** The parser over tokens *)

(** The first character of the first token is one of [toks]. *)
Definition hd_in (toks : list Z) (ts : list token) : bool :=
  match ts with
  | [] => false
  | TWord w :: _ => in_chars toks (hd 0 w)
  | TSym c :: _ => in_chars toks c
  | TApp :: _ => in_chars toks GREATER
  end.

Definition tget : M (list token) (option token) := λ ts, Ok (head ts) (tail ts).
Definition tpeek (toks : list Z) : M (list token) bool := gets (hd_in toks).

Definition tredir (t : option token) (w : list Z) : list redir :=
  match t with
  | Some (TSym c) => if c =? LESS then [(w, O_RDONLY, 0)] else if c =? GREATER then [(w, Z.lor O_WRONLY O_CREATE, 1)] else []
  | Some TApp => [(w, Z.lor O_WRONLY O_CREATE, 1)]
  | _ => []
  end.

Section tparser.
Context (N : nat).

Fixpoint tredirs (fuel : nat) (rs : list redir) : M (list token) (list redir) :=
  b ← tpeek (chars "<>");
  if negb b then mret rs else
  match fuel with
  | O => fault "parseredirs: loop"
  | S fuel =>
      t ← tget;
      t2 ← tget;
      match t2 with
      | Some (TWord w) => tredirs fuel (rs ++ tredir t w)
      | _ => panic "missing file for redirection"
      end
  end.

Fixpoint targs (fuel : nat) (ws : list (list Z)) (rs : list redir) : M (list token) (list (list Z) * list redir) :=
  b ← tpeek (chars "|)&;");
  if b : bool then mret (ws, rs) else
  match fuel with
  | O => fault "parseexec: loop"
  | S fuel =>
      t ← tget;
      match t with
      | None => mret (ws, rs)
      | Some (TWord w) =>
          if (MAXARGS <=? S (length ws))%nat then panic "too many args" else
          rs ← tredirs N rs;
          targs fuel (ws ++ [w]) rs
      | _ => panic "syntax"
      end
  end.

Fixpoint tback (fuel : nat) (c : cmd) : M (list token) cmd :=
  b ← tpeek (chars "&");
  if negb b then mret c else
  match fuel with
  | O => fault "parseline: loop"
  | S fuel => tget;; tback fuel (BACK c)
  end.

Fixpoint tline (fuel : nat) : M (list token) cmd :=
  match fuel with
  | O => fault "parse: depth"
  | S fuel =>
      c ← tpipe fuel;
      c ← tback N c;
      b ← tpeek (chars ";");
      if negb b then mret c else
      tget;;
      c2 ← tline fuel;
      mret (LIST c c2)
  end
with tpipe (fuel : nat) : M (list token) cmd :=
  match fuel with
  | O => fault "parse: depth"
  | S fuel =>
      c ← texec fuel;
      b ← tpeek (chars "|");
      if negb b then mret c else
      tget;;
      c2 ← tpipe fuel;
      mret (PIPE c c2)
  end
with tblock (fuel : nat) : M (list token) cmd :=
  match fuel with
  | O => fault "parse: depth"
  | S fuel =>
      b ← tpeek (chars "(");
      if negb b then panic "parseblock" else
      tget;;
      c ← tline fuel;
      b ← tpeek (chars ")");
      if negb b then panic "syntax - missing )" else
      tget;;
      rs ← tredirs N [];
      mret (wrap rs c)
  end
with texec (fuel : nat) : M (list token) cmd :=
  match fuel with
  | O => fault "parse: depth"
  | S fuel =>
      b ← tpeek (chars "(");
      if b : bool then tblock fuel else
      rs ← tredirs N [];
      r ← targs N [] rs;
      mret (wrap r.2 (EXEC r.1))
  end.
End tparser.

(** ** Scanning the buffer *)

Lemma in_chars_spec str c : Forall (λ x, x ≠ 0) str → in_chars str c = bool_decide (c ∈ str).
Proof.
  intros Hs. unfold in_chars. apply bool_decide_ext. induction Hs as [|x str Hx _ IH]; cbn [strchr].
  - split; [by intros [? ?]|by intros ?%elem_of_nil].
  - rewrite -> (proj2 (Z.eqb_neq x 0) Hx), elem_of_cons. case_bool; [split; [by left|by eexists]|]. rw IH. naive_solver.
Qed.

Lemma is_space_spec c : is_space c = bool_decide (c ∈ whitespace).
Proof. apply in_chars_spec. repeat constructor; done. Qed.

Lemma is_word_spec c : is_word c = bool_decide ((c ∉ whitespace) ∧ c ∉ symbols).
Proof.
  unfold is_word. rewrite -> !in_chars_spec by (repeat constructor; done). repeat case_bool_decide; cbn; tauto.
Qed.

(** A word does not begin with a character of [toks]. *)
Lemma word_not_in toks c : Forall (λ x, x ∈ symbols ∧ x ≠ 0) toks → is_word c = true → in_chars toks c = false.
Proof.
  intros Ht Hc. rewrite -> in_chars_spec by (eapply Forall_impl; [done|]; naive_solver). apply bool_decide_eq_false_2. intros Hin.
  rewrite -> is_word_spec in Hc. apply bool_decide_eq_true in Hc as [_ Hc]. rewrite -> Forall_forall in Ht. naive_solver.
Qed.

(** The number of characters that satisfy [f] at the front. *)
Fixpoint run_len (f : Z → bool) (l : list Z) : nat :=
  match l with
  | [] => O
  | c :: l => if f c then S (run_len f l) else O
  end.

Lemma run_len_app f w l : Forall (λ c, f c = true) w → (l = [] ∨ f (hd 0 l) = false) → run_len f (w ++ l) = length w.
Proof.
  intros Hw Hl. induction Hw as [|c w Hc _ IH]; cbn; [|by rw Hc IH]. destruct l as [|c l]; [done|]. destruct Hl as [?|E]; [done|].
  cbn in E. cbn. by rw E.
Qed.

Section scan.
Context (buf : list Z).

Lemma char_at_drop s : char_at buf s = hd 0 (drop s buf).
Proof. unfold char_at. rewrite <- (Nat.add_0_r s) at 1. rewrite <- lookup_drop. by destruct (drop s buf). Qed.

Lemma span_run f s : (s ≤ length buf)%nat → span buf f s (length buf) = (s + run_len f (drop s buf))%nat.
Proof.
  unfold span. remember (length buf - s)%nat as n eqn:En. revert s En. induction n as [|n IH]; intros s En Hs; cbn [span_loop].
  - rewrite -> drop_ge by lia. cbn. lia.
  - rewrite -> (proj2 (Nat.ltb_lt s (length buf))) by lia. cbn [andb]. rewrite -> char_at_drop.
    destruct (drop s buf) as [|c l] eqn:E; [apply (f_equal length) in E; rewrite -> length_drop in E; cbn in E; lia|].
    cbn [hd run_len]. destruct (f c); [|lia]. rewrite -> IH by lia.
    replace (drop (S s) buf) with l; [lia|]. rewrite <- (drop_drop _ 1), E || rewrite <- Nat.add_1_r, <- drop_drop, E. done.
Qed.

Lemma span_drop f s : (s ≤ length buf)%nat → drop (span buf f s (length buf)) buf = drop (run_len f (drop s buf)) (drop s buf).
Proof. intros Hs. by rewrite -> span_run, drop_drop by done. Qed.

Lemma run_len_le f l : (run_len f l ≤ length l)%nat.
Proof. induction l as [|c l IH]; cbn; [done|]. destruct (f c); lia. Qed.

Lemma span_le f s : (s ≤ length buf)%nat → (s ≤ span buf f s (length buf) ≤ length buf)%nat.
Proof. intros Hs. rewrite -> span_run by done. pose proof (run_len_le f (drop s buf)). rewrite -> length_drop in *. lia. Qed.
End scan.

(** Leading white space carries no tokens. *)
Lemma lexes_skip l ts : lexes l ts → lexes (drop (run_len is_space l) l) ts.
Proof.
  intros HL. induction HL as [|c l ts Hc HL IH|c l ts Hc HL _|l ts Hh HL _|l ts HL _|w l ts Hw Hf Hl HL _]; cbn [run_len].
  - constructor.
  - by rw Hc.
  - rewrite -> is_space_spec, bool_decide_eq_false_2; [by constructor|]. set_solver.
  - by constructor.
  - by constructor.
  - destruct w as [|c w]; [done|]. cbn [app run_len]. pose proof (Forall_inv Hf) as Hc. cbn in Hc. unfold is_word in Hc.
    unfold is_space. destruct (in_chars whitespace c); [done|]. by apply (lex_word (c :: w)).
Qed.

Lemma skipped_head l : run_len is_space (drop (run_len is_space l) l) = O.
Proof. induction l as [|c l IH]; cbn [run_len]; [done|]. destruct (is_space c) eqn:E; cbn [drop]; [done|]. cbn. by rw E. Qed.

(** The code that [gettoken] returns. *)
Definition code (t : token) : Z :=
  match t with TWord _ => WORD | TSym c => c | TApp => APPEND end.

(** The positions [q] and [eq] delimit the word [w] of the buffer. *)
Record word_at (buf : list Z) (q eq : nat) (w : list Z) : Prop := {
  wa_eq : eq = (q + length w)%nat;
  wa_text : take (length w) (drop q buf) = w;
  wa_word : Forall (λ c, is_word c = true) w;
  wa_end : drop eq buf = [] ∨ is_word (hd 0 (drop eq buf)) = false
}.

(** The tests of [gettoken] on the first character of a word. *)
Lemma word_tests c : is_word c = true →
  (c =? PIPE_) || (c =? LPAR) || (c =? RPAR) || (c =? SEMI) || (c =? AMP) || (c =? LESS) = false ∧ (c =? GREATER) = false.
Proof.
  rewrite -> is_word_spec. intros [_ Hc]%bool_decide_eq_true. unfold symbols in Hc. cbn in Hc.
  split; [repeat apply orb_false_intro|]; apply Z.eqb_neq; intros ->; apply Hc; set_solver.
Qed.

Section tokens.
Context (buf : list Z) (Hnul : Forall (λ c, c ≠ 0) buf).

Lemma nonul s c l : drop s buf = c :: l → c ≠ 0.
Proof using Hnul.
  intros E. apply (Forall_drop _ s) in Hnul. rewrite -> E in Hnul. by apply Forall_inv in Hnul.
Qed.

Lemma span_end s : (s ≤ length buf)%nat → lexes (drop s buf) [] → span buf is_space s (length buf) = length buf ∧ drop (length buf) buf = [].
Proof using Type.
  intros Hs HL%lexes_skip. rewrite <- (span_drop buf) in HL by done. pose proof (span_le buf is_space s Hs) as Hle.
  set (s1 := span buf is_space s (length buf)) in *. pose proof (skipped_head (drop s buf)) as Hsk. rewrite <- span_drop in Hsk by done. fold s1 in Hsk.
  assert (drop s1 buf = []) as E.
  { inversion HL as [E|c l ts Hc ? E| | | |]; [done|]. rewrite <- E in Hsk. cbn in Hsk. by rewrite -> Hc in Hsk. }
  assert (s1 = length buf) as E1 by (apply (f_equal length) in E; rewrite -> length_drop in E; cbn in E; lia). split; [done|]. by rewrite <- E1.
Qed.

Lemma gettoken_end s : (s ≤ length buf)%nat → lexes (drop s buf) [] →
  gettoken buf s (length buf) = (0, length buf, length buf, length buf).
Proof using Type.
  intros Hs HL. destruct (span_end s Hs HL) as [Es E]. unfold gettoken. rewrite -> Es, char_at_drop, E. cbn [hd Z.eqb].
  by rewrite -> span_run, E, Nat.add_0_r by lia.
Qed.

(** The rest behind a token. *)
Lemma gettoken_rest s1 l ts : (s1 ≤ length buf)%nat → drop s1 buf = l → lexes l ts →
  let s2 := span buf is_space s1 (length buf) in (s1 ≤ s2 ≤ length buf)%nat ∧ lexes (drop s2 buf) ts.
Proof using Type. intros Hs <- HL s2. split; [by apply span_le|]. unfold s2. rewrite -> span_drop by done. by apply lexes_skip. Qed.

Lemma drop_S {A} (l : list A) n x l' : drop n l = x :: l' → (n < length l)%nat ∧ drop (S n) l = l'.
Proof using Type.
  intros E. split.
  - apply (f_equal length) in E. rewrite -> length_drop in E. cbn in E. lia.
  - replace (S n) with (n + 1)%nat by lia. by rewrite <- drop_drop, E.
Qed.

Lemma gettoken_token s t ts : (s ≤ length buf)%nat → lexes (drop s buf) (t :: ts) →
  ∃ q eq s', gettoken buf s (length buf) = (code t, q, eq, s') ∧ (s < s' ≤ length buf)%nat ∧ lexes (drop s' buf) ts ∧
    match t with TWord w => word_at buf q eq w | _ => True end.
Proof using Hnul.
  intros Hs HL%lexes_skip. unfold gettoken. rewrite <- (span_drop buf) in HL by done. pose proof (span_le buf is_space s Hs) as Hle.
  set (s1 := span buf is_space s (length buf)) in *. pose proof (skipped_head (drop s buf)) as Hsk. rewrite <- span_drop in Hsk by done. fold s1 in Hsk.
  remember (drop s1 buf) as l1 eqn:El. symmetry in El. rewrite -> char_at_drop, El.
  inversion HL as [|c l ts' Hc HL' E|c l ts' Hc HL' E|l ts' Hh HL' E|l ts' HL' E|w l ts' Hw Hf Hl HL' E]; subst l1 || subst; try subst ts'.
  - rewrite <- E in Hsk. cbn in Hsk. by rewrite -> Hc in Hsk.
  - destruct (drop_S buf s1 c l (eq_sym E)) as [Hlt Ed]. destruct (gettoken_rest (S s1) l ts ltac:(lia) Ed HL') as [Hs2 HL2].
    exists s1, (S s1), (span buf is_space (S s1) (length buf)). split; [|split; [lia|done]].
    repeat (apply elem_of_cons in Hc as [->|Hc]); [done..|by apply elem_of_nil in Hc].
  - destruct (drop_S buf s1 _ l (eq_sym E)) as [Hlt Ed]. destruct (gettoken_rest (S s1) l ts ltac:(lia) Ed HL') as [Hs2 HL2].
    exists s1, (S s1), (span buf is_space (S s1) (length buf)). split; [|split; [lia|done]].
    rewrite -> (char_at_drop buf (S s1)), Ed, (proj2 (Z.eqb_neq _ _) Hh). done.
  - destruct (drop_S buf s1 _ _ (eq_sym E)) as [_ Ed]. destruct (drop_S buf (S s1) _ l Ed) as [Hlt Ed2].
    destruct (gettoken_rest (S (S s1)) l ts ltac:(lia) Ed2 HL') as [Hs2 HL2].
    exists s1, (S (S s1)), (span buf is_space (S (S s1)) (length buf)). split; [|split; [lia|done]].
    by rewrite -> (char_at_drop buf (S s1)), Ed.
  - destruct w as [|c w]; [done|]. pose proof (Forall_inv Hf) as Hc. cbn in Hc. destruct (word_tests c Hc) as [E1 E2].
    assert (span buf is_word s1 (length buf) = s1 + length (c :: w))%nat as Esp by (rewrite -> span_run, <- E, run_len_app by (done || lia); done).
    assert (drop (s1 + length (c :: w)) buf = l) as Ed by (rewrite <- drop_drop, <- E; apply drop_app_length).
    assert (s1 + length (c :: w) ≤ length buf)%nat as Hle2 by (rewrite <- Esp; apply span_le; lia).
    destruct (gettoken_rest _ l ts Hle2 Ed HL') as [Hs2 HL2]. cbn [hd app]. rewrite -> E1, E2, (proj2 (Z.eqb_neq _ _)), Esp by (eapply (nonul s1); by rewrite <- E).
    eexists _, _, _. split; [done|]. split; [cbn [length] in *; lia|]. split; [done|]. split; [done| |done|by rewrite -> Ed].
    by rewrite <- E, take_app_length.
Qed.

Lemma peek_run s ts toks : (s ≤ length buf)%nat → lexes (drop s buf) ts →
  ∃ s', peek buf s (length buf) toks = (hd_in toks ts, s') ∧ (s ≤ s' ≤ length buf)%nat ∧ lexes (drop s' buf) ts.
Proof using Hnul.
  intros Hs HL%lexes_skip. unfold peek. rewrite <- (span_drop buf) in HL by done. pose proof (span_le buf is_space s Hs) as Hle.
  set (s1 := span buf is_space s (length buf)) in *. pose proof (skipped_head (drop s buf)) as Hsk. rewrite <- span_drop in Hsk by done. fold s1 in Hsk.
  exists s1. split; [|by split]. f_equal. rewrite -> char_at_drop. assert (∀ c l, c :: l = drop s1 buf → negb (c =? 0) = true) as Hz.
  { intros c l E. rewrite -> (proj2 (Z.eqb_neq _ _)); [done|]. by eapply (nonul s1). }
  inversion HL as [E|c l ts' Hc HL' E|c l ts' Hc HL' E|l ts' Hh HL' E|l ts' HL' E|w l ts' Hw Hf Hl HL' E]; cbn [hd hd_in]; try done.
  - rewrite <- E in Hsk. cbn in Hsk. by rewrite -> Hc in Hsk.
  - by rewrite -> (Hz c l).
  - destruct w as [|c w]; [done|]. cbn [app hd] in *. by rewrite -> (Hz c (w ++ l)).
Qed.
End tokens.

Lemma lexes_length l ts : lexes l ts → (length ts ≤ length l)%nat.
Proof.
  induction 1 as [| | | | |w l ts Hw]; cbn [length]; try lia. rewrite -> length_app. destruct w; [done|]. cbn [length]. lia.
Qed.

(** Every line without a NUL is a list of tokens. *)
Lemma lexes_total l : Forall (λ c, c ≠ 0) l → ∃ ts, lexes l ts.
Proof.
  remember (length l) as n eqn:En. revert l En. induction (lt_wf n) as [n _ IH]. intros [|c l] -> Hl; [exists []; constructor|].
  apply Forall_cons in Hl as [Hc Hl]. destruct (IH (length l) ltac:(cbn; lia) l eq_refl Hl) as (ts & HL).
  destruct (is_space c) eqn:Es; [exists ts; by constructor|]. destruct (is_word c) eqn:Ew.
  - set (k := run_len is_word (c :: l)). destruct (IH (length (drop k (c :: l)))) with (l := drop k (c :: l)) as (ts' & HL'); [|done|by apply Forall_drop, Forall_cons|].
    { rewrite -> length_drop. unfold k. cbn [run_len length]. rewrite -> Ew. lia. }
    exists (TWord (take k (c :: l)) :: ts'). rewrite <- (take_drop k (c :: l)) at 1. constructor; [| | |done].
    + unfold k. cbn [run_len]. by rewrite -> Ew.
    + unfold k. generalize (c :: l) as x. induction x as [|y x IHx]; cbn [run_len]; [done|]. destruct (is_word y) eqn:E; cbn [take]; [|done]. by constructor.
    + unfold k. generalize (c :: l) as x. induction x as [|y x IHx]; cbn [run_len]; [by left|]. destruct (is_word y) eqn:E; cbn [drop]; [done|by right].
  - assert (c ∈ symbols) as Hsym.
    { unfold is_word in Ew. unfold is_space in Es. rewrite -> Es in Ew. cbn in Ew. apply negb_false_iff in Ew.
      rewrite -> in_chars_spec in Ew by (repeat constructor; done). by apply bool_decide_eq_true in Ew. }
    destruct (decide (c = GREATER)) as [->|Hg].
    + destruct (decide (hd 0 l = GREATER)) as [E|E]; [|exists (TSym GREATER :: ts); by constructor].
      destruct l as [|c l]; [done|]. cbn in E. subst c. apply Forall_cons in Hl as [_ Hl].
      destruct (IH (length l) ltac:(cbn; lia) l eq_refl Hl) as (ts' & HL'). exists (TApp :: ts'). by constructor.
    + exists (TSym c :: ts). constructor; [|done]. unfold symbols in Hsym. cbn in Hsym. unfold PIPE_, LPAR, RPAR, SEMI, AMP, LESS, GREATER in *. set_solver.
Qed.

(** The first token. *)
Lemma lexes_word l w ts : lexes l (TWord w :: ts) → is_word (hd 0 w) = true.
Proof.
  intros HL. remember (TWord w :: ts) as ts0 eqn:E. induction HL as [|c l ts1 Hc HL IH| | | |w1 l ts1 Hw Hf Hl HL _]; try done; [by apply IH|].
  injection E as -> ->. destruct w as [|c w]; [done|]. by apply Forall_inv in Hf.
Qed.

Lemma sym_chars toks : forallb (λ x, bool_decide (x ∈ symbols ∧ x ≠ 0)) toks = true → Forall (λ x, x ∈ symbols ∧ x ≠ 0) toks.
Proof. intros H. apply Forall_forall. intros x Hx. rewrite -> forallb_forall in H. apply (bool_decide_eq_true_1 (x ∈ symbols ∧ x ≠ 0)), H. by apply list_elem_of_In. Qed.

Lemma redir_head l ts : lexes l ts → hd_in (chars "<>") ts = true →
  ∃ t ts', ts = t :: ts' ∧ (t = TSym LESS ∨ t = TSym GREATER ∨ t = TApp).
Proof.
  intros HL Hh. destruct ts as [|[w|c|] ts]; [done|..].
  - cbn [hd_in] in Hh. rewrite -> (word_not_in (chars "<>") (hd 0 w)) in Hh; [done|by apply sym_chars|by eapply lexes_word].
  - cbn [hd_in] in Hh. rewrite -> in_chars_spec in Hh by (repeat constructor; done). apply bool_decide_eq_true in Hh.
    exists (TSym c), ts. split; [done|]. cbn in Hh. unfold LESS, GREATER. set_solver.
  - exists TApp, ts. tauto.
Qed.

Lemma sym_code l c ts : lexes l (TSym c :: ts) → (c =? WORD) = false ∧ (c =? 0) = false.
Proof.
  intros HL. remember (TSym c :: ts) as ts0 eqn:E. induction HL; try done; [by apply IHHL| |]; simplify_eq; [|done].
  unfold PIPE_, LPAR, RPAR, SEMI, AMP, LESS, WORD in *. split; apply Z.eqb_neq; set_solver by lia.
Qed.

Lemma sym_head l ts c : lexes l ts → c ∈ symbols → c ≠ GREATER → hd_in [c] ts = true → ∃ ts', ts = TSym c :: ts'.
Proof.
  intros HL Hc Hg Hh. assert (c ≠ 0) as Hc0 by (intros ->; unfold symbols in Hc; cbn in Hc; set_solver).
  assert (∀ x, in_chars [c] x = true → x = c) as Hin.
  { intros x. rewrite -> in_chars_spec by (by repeat constructor). intros Hx%bool_decide_eq_true. set_solver. }
  destruct ts as [|[w|x|] ts]; [done|..]; cbn [hd_in] in Hh.
  - rewrite -> (word_not_in [c] (hd 0 w)) in Hh; [done|constructor; [done|constructor]|by eapply lexes_word].
  - apply Hin in Hh as ->. by exists ts.
  - apply Hin in Hh. done.
Qed.

(** ** The parser follows the parser over tokens *)

Section simulation.
Context (buf : list Z) (Hnul : Forall (λ c, c ≠ 0) buf) (room : nat).

(** The tokens from the position on. *)
Record view (st : pst) (ts : list token) : Prop := {
  v_pos : (ps st ≤ length buf)%nat;
  v_lex : lexes (drop (ps st) buf) ts
}.

(** An array of arguments. *)
Definition args_at (argv : list (option (nat * nat))) (ws : list (list Z)) : Prop :=
  ∃ pos, argv = (Some <$> pos) ++ replicate (MAXARGS - length pos) None ∧ (length pos < MAXARGS)%nat ∧
    Forall2 (λ p w, word_at buf p.1 p.2 w) pos ws.

(** Nodes are made after the nodes they point to. *)
Definition below (c : cmdp) (n : nat) : Prop := match c with Some i => (i < n)%nat | None => True end.

(** The tree at a node. *)
Inductive denotes (H : list cnode) : cmdp → cmd → Prop :=
| den_exec e argv ws : H !! e = Some (NExec argv) → args_at argv ws → denotes H (Some e) (EXEC ws)
| den_redir p c t q eq w m fd : H !! p = Some (NRedir c q eq m fd) → below c p → denotes H c t → word_at buf q eq w →
    denotes H (Some p) (REDIR t w m fd)
| den_pipe p l r tl tr : H !! p = Some (NPipe l r) → below l p → below r p → denotes H l tl → denotes H r tr → denotes H (Some p) (PIPE tl tr)
| den_list p l r tl tr : H !! p = Some (NList l r) → below l p → below r p → denotes H l tl → denotes H r tr → denotes H (Some p) (LIST tl tr)
| den_back p c t : H !! p = Some (NBack c) → below c p → denotes H c t → denotes H (Some p) (BACK t).

(** The redirections between [ret] and the command [base] below them. *)
Inductive wrapped (H : list cnode) (base : cmdp) : cmdp → list redir → Prop :=
| wr_nil : wrapped H base base []
| wr_redir p c rs q eq w m fd : H !! p = Some (NRedir c q eq m fd) → below c p → wrapped H base c rs → word_at buf q eq w →
    wrapped H base (Some p) (rs ++ [(w, m, fd)]).

(** Progress: the tokens left, and the nodes. *)
Record grew (k : nat) (st : pst) (ts : list token) (st' : pst) (ts' : list token) : Prop := {
  gw_heap : heap st `prefix_of` heap st';
  gw_size : (length (heap st') + 2 * length ts' ≤ length (heap st) + 2 * length ts + k)%nat;
  gw_less : (length ts' ≤ length ts)%nat
}.

Definition roomy (st : pst) (ts : list token) (k : nat) : Prop := (length (heap st) + 2 * length ts + k ≤ room)%nat.

Lemma peektok_run toks st ts : view st ts →
  ∃ st', peektok buf toks st = Ok (hd_in toks ts) st' ∧ view st' ts ∧ heap st' = heap st.
Proof using Hnul.
  intros [Hp HL]. destruct (peek_run buf Hnul (ps st) ts toks Hp HL) as (s' & E & Hs & HL').
  exists (set_ps s' st). unfold peektok. rw (bind_ok _ _ _ (ps st) st) //. rewrite -> E. split; [done|]. split; [|done]. split; [|done]. cbn. lia.
Qed.

Lemma gettok_run st t ts : view st (t :: ts) →
  ∃ q eq st', gettok buf st = Ok (code t, q, eq) st' ∧ view st' ts ∧ heap st' = heap st ∧
    match t with TWord w => word_at buf q eq w | _ => True end.
Proof using Hnul.
  intros [Hp HL]. destruct (gettoken_token buf Hnul (ps st) t ts Hp HL) as (q & eq & s' & E & Hs & HL' & Hw).
  exists q, eq, (set_ps s' st). unfold gettok. rw (bind_ok _ _ _ (ps st) st) //. rewrite -> E. split_and!; try done. split; [|done]. cbn. lia.
Qed.

Lemma gettok_end st : view st [] → ∃ q eq st', gettok buf st = Ok (0, q, eq) st' ∧ view st' [] ∧ heap st' = heap st.
Proof using Hnul.
  intros [Hp HL]. exists (length buf), (length buf), (set_ps (length buf) st). unfold gettok. rw (bind_ok _ _ _ (ps st) st) //.
  rewrite -> (gettoken_end buf (ps st) Hp HL). split_and!; try done. split; [done|]. cbn. rewrite -> drop_ge by done. constructor.
Qed.

Lemma new_node_run n st : (length (heap st) < room)%nat →
  new_node room n st = Ok (Some (length (heap st))) (set_heap (heap st ++ [n]) st).
Proof using Type.
  intros Hr. unfold new_node. rw (bind_ok _ _ _ (heap st) st) //. by rewrite -> (proj2 (Nat.leb_gt _ _) Hr).
Qed.

Lemma denotes_mono H H' p t : H `prefix_of` H' → denotes H p t → denotes H' p t.
Proof using Type.
  intros Hpre. induction 1; [eapply den_exec|eapply den_redir|eapply den_pipe|eapply den_list|eapply den_back]; eauto using prefix_lookup_Some.
Qed.

Lemma wrapped_mono H H' base p rs : H `prefix_of` H' → wrapped H base p rs → wrapped H' base p rs.
Proof using Type. intros Hpre. induction 1; [constructor|econstructor]; eauto using prefix_lookup_Some. Qed.

Lemma denotes_below H p t : denotes H p t → below p (length H).
Proof using Type. by destruct 1; eapply lookup_lt_Some. Qed.

Lemma wrapped_below H base p rs : below base (length H) → wrapped H base p rs → below p (length H).
Proof using Type. intros Hb. destruct 1; [done|]. by eapply lookup_lt_Some. Qed.

Lemma below_le c n n' : below c n → (n ≤ n')%nat → below c n'.
Proof using Type. destruct c; cbn; lia. Qed.

Lemma denotes_wrapped H base p rs t : wrapped H base p rs → denotes H base t → denotes H p (wrap rs t).
Proof using Type.
  intros HW HD. induction HW as [|p c rs q eq w m fd Hp Hb HW IH Hw]; [done|]. unfold wrap in *. rewrite -> foldl_app. cbn. by eapply den_redir.
Qed.

(** The redirections of a command. *)
Lemma parseredirs_sim fuel : ∀ st ts base ret rs, view st ts → below base (length (heap st)) → wrapped (heap st) base ret rs → roomy st ts 0 →
  match tredirs fuel rs ts with
  | Ok rs' ts' => ∃ p st', parseredirs buf room fuel ret st = Ok p st' ∧ view st' ts' ∧ grew 0 st ts st' ts' ∧ wrapped (heap st') base p rs'
  | Stop w _ => ∃ st', parseredirs buf room fuel ret st = Stop w st'
  end.
Proof using Hnul.
  induction fuel as [|fuel IH]; intros st ts base ret rs Hv Hb HW Hr; cbn [tredirs parseredirs];
    destruct (peektok_run (chars "<>") st ts Hv) as (st1 & E1 & Hv1 & Hh1); rw (bind_ok _ _ _ _ _ E1) (bind_ok _ _ _ (hd_in (chars "<>") ts) ts) //;
    destruct (hd_in (chars "<>") ts) eqn:Ehd; cbn [negb].
  1: by eexists.
  1,3: exists ret, st1; rewrite -> Hh1; split_and!; try done; split; rewrite -> ?Hh1; done || lia.
  destruct (redir_head _ ts (v_lex _ _ Hv) Ehd) as (t & ts1 & -> & Ht). rw (bind_ok _ _ _ (Some t) ts1) //.
  destruct (gettok_run st1 t ts1 Hv1) as (q1 & eq1 & st2 & E2 & Hv2 & Hh2 & _). rw (bind_ok _ _ _ _ _ E2).
  destruct ts1 as [|t2 ts2].
  { rw (bind_ok _ _ _ None []) //. destruct (gettok_end st2 Hv2) as (q & eq & st3 & E3 & _). rw (bind_ok _ _ _ _ _ E3). by eexists. }
  rw (bind_ok _ _ _ (Some t2) ts2) //. destruct (gettok_run st2 t2 ts2 Hv2) as (q & eq & st3 & E3 & Hv3 & Hh3 & Hw). rw (bind_ok _ _ _ _ _ E3).
  destruct t2 as [w|c|]; [|cbn [code]; by destruct (sym_code _ _ _ (v_lex _ _ Hv2)) as [-> _]; eexists|by eexists].
  cbn [code]. rewrite -> Z.eqb_refl. cbn [negb].
  assert (∃ m fd, tredir (Some t) w = [(w, m, fd)] ∧
    (if code t =? LESS then redircmd room ret q eq O_RDONLY 0 else if code t =? GREATER then redircmd room ret q eq (Z.lor O_WRONLY O_CREATE) 1
     else if code t =? APPEND then redircmd room ret q eq (Z.lor O_WRONLY O_CREATE) 1 else mret ret) = redircmd room ret q eq m fd)
    as (m & fd & -> & ->) by (destruct Ht as [->|[->| ->]]; by eexists _, _).
  assert (heap st3 = heap st) as Hh by congruence. unfold roomy in Hr. cbn [length] in Hr.
  rw (bind_ok _ _ _ _ _ (new_node_run (NRedir ret q eq m fd) st3 ltac:(rewrite -> Hh; lia))). rewrite -> Hh.
  set (st4 := set_heap (heap st ++ [NRedir ret q eq m fd]) st3). assert (heap st `prefix_of` heap st4) as Hpre by (by eexists).
  specialize (IH st4 ts2 base (Some (length (heap st))) (rs ++ [(w, m, fd)])).
  destruct (tredirs fuel (rs ++ [(w, m, fd)]) ts2) as [rs' ts'|]; destruct IH as (p & IH).
  - by destruct Hv3.
  - unfold st4. cbn. rewrite -> length_app. eapply below_le; [done|lia].
  - eapply wr_redir; [cbn; by rewrite -> lookup_app_r, Nat.sub_diag by done|by eapply wrapped_below|by eapply wrapped_mono|done].
  - unfold roomy, st4. cbn. rewrite -> length_app. cbn. lia.
  - destruct IH as (st' & E & Hv' & [Hp' Hs' Hl'] & HW'). exists p, st'. split_and!; try done. split.
    + by etransitivity.
    + unfold st4 in Hs'. cbn [heap set_heap] in Hs'. rewrite -> length_app in Hs'. cbn [length] in *. lia.
    + cbn [length]. lia.
  - by destruct Hv3.
  - unfold st4. cbn. rewrite -> length_app. eapply below_le; [done|lia].
  - eapply wr_redir; [cbn; by rewrite -> lookup_app_r, Nat.sub_diag by done|by eapply wrapped_below|by eapply wrapped_mono|done].
  - unfold roomy, st4. cbn. rewrite -> length_app. cbn. lia.
  - by exists p.
Qed.

(** The arguments grow in place, below the redirections. *)
Lemma wrapped_set H e x y base ret rs : H !! e = Some (NExec x) → wrapped H base ret rs → wrapped (<[e := NExec y]> H) base ret rs.
Proof using Type.
  intros He. induction 1 as [|p c rs q eq w m fd Hp Hb HW IH Hw]; [constructor|]. econstructor; [|done..].
  rewrite -> list_lookup_insert_ne; [done|]. intros ->. congruence.
Qed.

Lemma args_at_length argv ws : args_at argv ws → length argv = MAXARGS ∧ (length ws < MAXARGS)%nat.
Proof using Type.
  intros (pos & -> & Hl & HF). apply Forall2_length in HF. rewrite -> length_app, length_fmap, length_replicate. unfold MAXARGS in *. lia.
Qed.

Lemma args_at_snoc argv ws q eq w : args_at argv ws → (S (length ws) < MAXARGS)%nat → word_at buf q eq w →
  args_at (<[length ws := Some (q, eq)]> argv) (ws ++ [w]).
Proof using Type.
  intros (pos & -> & Hl & HF) Hlt Hw. pose proof (Forall2_length _ _ _ HF) as El. exists (pos ++ [(q, eq)]). split_and!.
  - rewrite -> insert_app_r_alt by (rewrite -> length_fmap; lia). rewrite -> length_fmap, El, Nat.sub_diag, fmap_app, <- app_assoc. f_equal.
    rewrite -> length_app. cbn [length]. destruct (MAXARGS - length ws)%nat as [|k] eqn:Ek; [lia|]. cbn. f_equal. f_equal. unfold MAXARGS in *. lia.
  - rewrite -> length_app. cbn [length]. lia.
  - apply Forall2_app; [done|]. constructor; [done|constructor].
Qed.

Lemma args_at_end argv ws : args_at argv ws → <[length ws := None]> argv = argv.
Proof using Type.
  intros (pos & -> & Hl & HF). pose proof (Forall2_length _ _ _ HF) as El. apply list_insert_id.
  rewrite -> lookup_app_r by (rewrite -> length_fmap; lia). rewrite -> length_fmap, El, Nat.sub_diag. apply lookup_replicate. split; [done|]. lia.
Qed.

Lemma set_arg_run e argc a st argv : heap st !! e = Some (NExec argv) → (argc < length argv)%nat →
  set_arg (Some e) argc a st = Ok tt (set_heap (<[e := NExec (<[argc := a]> argv)]> (heap st)) st).
Proof using Type.
  intros He Hl. unfold set_arg. rw (bind_ok _ _ _ (heap st) st) //. by rewrite -> He, (proj2 (Nat.ltb_lt _ _) Hl).
Qed.

Lemma parseexec_args_sim fuel : ∀ st ts e ret ws rs argv,
  view st ts → heap st !! e = Some (NExec argv) → args_at argv ws → wrapped (heap st) (Some e) ret rs → roomy st ts 0 →
  match targs (S (length buf)) fuel ws rs ts with
  | Ok (ws', rs') ts' => ∃ ret' st' argv', parseexec_args buf room fuel (Some e) (length ws) ret st = Ok (length ws', ret') st' ∧ view st' ts' ∧
      take e (heap st') = take e (heap st) ∧ (length (heap st') + 2 * length ts' ≤ length (heap st) + 2 * length ts)%nat ∧ (length ts' ≤ length ts)%nat ∧
      heap st' !! e = Some (NExec argv') ∧ args_at argv' ws' ∧ wrapped (heap st') (Some e) ret' rs'
  | Stop w _ => ∃ st', parseexec_args buf room fuel (Some e) (length ws) ret st = Stop w st'
  end.
Proof using Hnul.
  induction fuel as [|fuel IH]; intros st ts e ret ws rs argv Hv He Ha HW Hr; cbn [targs parseexec_args];
    destruct (peektok_run (chars "|)&;") st ts Hv) as (st1 & E1 & Hv1 & Hh1); rw (bind_ok _ _ _ _ _ E1) (bind_ok _ _ _ (hd_in (chars "|)&;") ts) ts) //;
    destruct (hd_in (chars "|)&;") ts) eqn:Ehd.
  1,3: exists ret, st1, argv; rewrite -> Hh1; by split_and!.
  1: by eexists.
  destruct ts as [|t ts1].
  { rw (bind_ok _ _ _ None []) //. destruct (gettok_end st1 Hv1) as (q & eq & st2 & E2 & Hv2 & Hh2). rw (bind_ok _ _ _ _ _ E2). cbn [Z.eqb].
    exists ret, st2, argv. rewrite -> Hh2, Hh1. by split_and!. }
  rw (bind_ok _ _ _ (Some t) ts1) //. destruct (gettok_run st1 t ts1 Hv1) as (q & eq & st2 & E2 & Hv2 & Hh2 & Hw). rw (bind_ok _ _ _ _ _ E2).
  destruct t as [w|c|]; [|cbn [code]; destruct (sym_code _ _ _ (v_lex _ _ Hv)) as [-> ->]; by eexists|by eexists].
  cbn [code]. rewrite -> Z.eqb_refl. change (WORD =? 0) with false. cbn [negb]. assert (heap st2 = heap st) as Hh by congruence.
  destruct (args_at_length _ _ Ha) as [Hal Hwl]. rewrite <- Hh in He.
  rw (bind_ok _ _ _ _ _ (set_arg_run e (length ws) (Some (q, eq)) st2 argv He ltac:(lia))).
  destruct (Nat.leb_spec MAXARGS (S (length ws))) as [Hge|Hlt]; [by eexists|].
  set (argv1 := <[length ws := Some (q, eq)]> argv). set (st3 := set_heap (<[e := NExec argv1]> (heap st2)) st2).
  assert (e < length (heap st2))%nat as Hel by (by eapply lookup_lt_Some).
  assert (length (heap st3) = length (heap st) ∧ take e (heap st3) = take e (heap st)) as [Hl3 Ht3].
  { unfold st3. cbn [heap set_heap]. rewrite -> length_insert, take_insert_ge, Hh by lia. done. }
  assert (view st3 ts1) as Hv3 by (by destruct Hv2). unfold roomy in Hr. cbn [length] in Hr.
  assert (heap st3 !! e = Some (NExec argv1)) as He3 by (unfold st3; cbn; by apply list_lookup_insert_eq).
  assert (wrapped (heap st3) (Some e) ret rs) as HW3 by (unfold st3; cbn; rewrite <- Hh in HW; by eapply wrapped_set).
  pose proof (parseredirs_sim (S (length buf)) st3 ts1 (Some e) ret rs Hv3 ltac:(unfold below; rewrite -> Hl3, <- Hh; lia) HW3 ltac:(unfold roomy; lia)) as Hred.
  rewrite -> bind_run. destruct (tredirs (S (length buf)) rs ts1) as [rs1 ts2|w' s'].
  2:{ destruct Hred as (st' & E). exists st'. by rw (bind_stop _ _ _ _ _ E). }
  destruct Hred as (p & st4 & E4 & Hv4 & [Hp4 Hs4 Hl4] & HW4). rw (bind_ok _ _ _ _ _ E4).
  pose proof (args_at_snoc argv ws q eq w Ha ltac:(lia) Hw) as Ha4. fold argv1 in Ha4.
  assert (heap st4 !! e = Some (NExec argv1)) as He4 by (by eapply prefix_lookup_Some).
  specialize (IH st4 ts2 e p (ws ++ [w]) rs1 argv1 Hv4 He4 Ha4 HW4 ltac:(unfold roomy; lia)).
  replace (S (length ws)) with (length (ws ++ [w])) by (rewrite -> length_app; cbn; lia).
  destruct (targs (S (length buf)) fuel (ws ++ [w]) rs1 ts2) as [[ws' rs'] ts'|]; [|done].
  destruct IH as (ret' & st' & argv' & E & Hv' & Ht' & Hs' & Hl' & He' & Ha' & HW'). exists ret', st', argv'. split_and!; try done.
  - rewrite -> Ht', <- Ht3. destruct Hp4 as [x ->]. apply take_app_le. rewrite -> Hl3, <- Hh. lia.
  - cbn [length]. lia.
  - cbn [length]. lia.
Qed.

(** A parser of commands against one over tokens. *)
Definition sim (m : M pst cmdp) (n : M (list token) cmd) : Prop :=
  ∀ st ts, view st ts → roomy st ts 1 →
    match n ts with
    | Ok t ts' => ∃ p st', m st = Ok p st' ∧ view st' ts' ∧ grew 1 st ts st' ts' ∧ denotes (heap st') p t
    | Stop w _ => ∃ st', m st = Stop w st'
    end.

(** A node on top of trees. *)
Lemma node_denotes n st t : (length (heap st) < room)%nat →
  (∀ H, heap st ++ [n] `prefix_of` H → H !! length (heap st) = Some n → denotes H (Some (length (heap st))) t) →
  ∃ st', new_node room n st = Ok (Some (length (heap st))) st' ∧ ps st' = ps st ∧ heap st' = heap st ++ [n] ∧
    denotes (heap st') (Some (length (heap st))) t.
Proof using Type.
  intros Hl HD. eexists. split; [by apply new_node_run|]. split_and!; [done..|]. cbn. apply HD; [done|]. by rewrite -> lookup_app_r, Nat.sub_diag by done.
Qed.

Lemma parseback_sim fuel : ∀ st ts c t, view st ts → denotes (heap st) c t → roomy st ts 0 →
  match tback fuel t ts with
  | Ok t' ts' => ∃ p st', parseback buf room fuel c st = Ok p st' ∧ view st' ts' ∧ grew 0 st ts st' ts' ∧ denotes (heap st') p t'
  | Stop w _ => ∃ st', parseback buf room fuel c st = Stop w st'
  end.
Proof using Hnul.
  induction fuel as [|fuel IH]; intros st ts c t Hv HD Hr; cbn [tback parseback];
    destruct (peektok_run (chars "&") st ts Hv) as (st1 & E1 & Hv1 & Hh1); rw (bind_ok _ _ _ _ _ E1) (bind_ok _ _ _ (hd_in (chars "&") ts) ts) //;
    destruct (hd_in (chars "&") ts) eqn:Ehd; cbn [negb].
  1: by eexists.
  1,3: exists c, st1; rewrite -> Hh1; split_and!; try done; split; rewrite -> ?Hh1; done || lia.
  destruct (sym_head _ ts AMP (v_lex _ _ Hv) ltac:(unfold symbols; cbn; set_solver) ltac:(done) Ehd) as (ts1 & ->).
  rw (bind_ok _ _ _ (Some (TSym AMP)) ts1) //. destruct (gettok_run st1 _ ts1 Hv1) as (q1 & eq1 & st2 & E2 & Hv2 & Hh2 & _). rw (bind_ok _ _ _ _ _ E2).
  assert (heap st2 = heap st) as Hh by congruence. unfold roomy in Hr. cbn [length] in Hr.
  destruct (node_denotes (NBack c) st2 (BACK t)) as (st3 & E3 & Hp3 & Hh3 & HD3); [rewrite -> Hh; lia| |].
  { intros H Hpre HH. eapply den_back; [done|rewrite -> Hh; by eapply denotes_below|]. rewrite -> Hh in Hpre. eapply denotes_mono; [|done]. etransitivity; [by eexists|done]. }
  rw (bind_ok _ _ _ _ _ E3). rewrite -> Hh in Hh3. assert (length (heap st3) = S (length (heap st))) as Hl3 by (rewrite -> Hh3, length_app; cbn; lia).
  specialize (IH st3 ts1 _ (BACK t) ltac:(destruct Hv2; split; by rewrite -> Hp3) HD3 ltac:(unfold roomy; lia)).
  destruct (tback fuel (BACK t) ts1) as [t' ts'|]; [|done]. destruct IH as (p & st' & E & Hv' & [Hg1 Hg2 Hg3] & HD').
  exists p, st'. split_and!; try done. split; [|cbn [length]; lia..]. etransitivity; [|done]. rewrite -> Hh3. by eexists.
Qed.

Lemma grew_trans k st ts st1 ts1 st' ts' : grew k st ts st1 ts1 → grew 0 st1 ts1 st' ts' → grew k st ts st' ts'.
Proof using Type. intros [? ? ?] [? ? ?]. split; [by etransitivity|lia..]. Qed.

(** A command that an operator and a second command may follow. *)
Lemma binary_sim (sym : Z) (N : cmdp → cmdp → cnode) (F : cmd → cmd → cmd) m n st ts p t :
  sym ∈ symbols → sym ≠ GREATER →
  (∀ H q l r tl tr, H !! q = Some (N l r) → below l q → below r q → denotes H l tl → denotes H r tr → denotes H (Some q) (F tl tr)) →
  sim m n → view st ts → denotes (heap st) p t → roomy st ts 0 →
  match (b ← tpeek [sym]; if negb b then mret t else tget;; t2 ← n; mret (F t t2)) ts with
  | Ok t' ts' => ∃ p' st',
      (b ← peektok buf [sym]; if negb b then mret p else gettok buf;; r ← m; new_node room (N p r)) st = Ok p' st' ∧
      view st' ts' ∧ grew 0 st ts st' ts' ∧ denotes (heap st') p' t'
  | Stop w _ => ∃ st', (b ← peektok buf [sym]; if negb b then mret p else gettok buf;; r ← m; new_node room (N p r)) st = Stop w st'
  end.
Proof using Hnul.
  intros Hsym Hg HN Sm Hv HD Hr. destruct (peektok_run [sym] st ts Hv) as (st3 & E3 & Hv3 & Hh3).
  rw (bind_ok _ _ _ _ _ E3) (bind_ok _ _ _ (hd_in [sym] ts) ts) //. destruct (hd_in [sym] ts) eqn:Ehd; cbn [negb].
  2:{ exists p, st3. rewrite -> Hh3. split_and!; try done. split; rewrite -> ?Hh3; [done|lia..]. }
  destruct (sym_head _ ts sym (v_lex _ _ Hv) Hsym Hg Ehd) as (ts4 & ->).
  rw (bind_ok _ _ _ (Some (TSym sym)) ts4) //. destruct (gettok_run st3 _ ts4 Hv3) as (q1 & eq1 & st4 & E4 & Hv4 & Hh4 & _). rw (bind_ok _ _ _ _ _ E4).
  assert (heap st4 = heap st) as Hh by congruence. unfold roomy in Hr. cbn [length] in *.
  specialize (Sm st4 ts4 Hv4 ltac:(unfold roomy; rewrite -> Hh; lia)). rewrite -> bind_run. destruct (n ts4) as [t5 ts5|].
  2:{ destruct Sm as (st' & E). exists st'. by rw (bind_stop _ _ _ _ _ E). }
  destruct Sm as (p5 & st5 & E5 & Hv5 & [Hp5 Hs5 Hl5] & HD5). rw (bind_ok _ _ _ _ _ E5). rewrite -> Hh in *.
  destruct (node_denotes (N p p5) st5 (F t t5)) as (st6 & E6 & Hp6 & Hh6 & HD6); [lia| |].
  { intros H Hpre HH. assert (heap st5 `prefix_of` H) by (etransitivity; [by eexists|done]).
    eapply HN; [done|eapply below_le; [by eapply denotes_below|]; by apply prefix_length|by eapply denotes_below|eapply denotes_mono; [|done]; by etransitivity|by eapply denotes_mono]. }
  exists (Some (length (heap st5))), st6. split_and!; [done|destruct Hv5; split; by rewrite -> Hp6| |done].
  split; rewrite -> ?Hh6, ?length_app; cbn [length]; [|lia..]. etransitivity; [done|]. by eexists.
Qed.

Lemma parseline_sim f :
  sim (parsepipe buf room f) (tpipe (S (length buf)) f) → sim (parseline buf room f) (tline (S (length buf)) f) →
  sim (parseline buf room (S f)) (tline (S (length buf)) (S f)).
Proof using Hnul.
  intros Sp Sl st ts Hv Hr. cbn [parseline tline]. specialize (Sp st ts Hv Hr). rewrite -> bind_run. destruct (tpipe (S (length buf)) f ts) as [t1 ts1|].
  2:{ destruct Sp as (st' & E). exists st'. by rw (bind_stop _ _ _ _ _ E). }
  destruct Sp as (p1 & st1 & E1 & Hv1 & Hg1 & HD1). rw (bind_ok _ _ _ _ _ E1). unfold roomy in *. pose proof Hg1 as [_ Hs1 _].
  pose proof (parseback_sim (S (length buf)) st1 ts1 p1 t1 Hv1 HD1 ltac:(unfold roomy; lia)) as Sb. rewrite -> bind_run.
  destruct (tback (S (length buf)) t1 ts1) as [t2 ts2|]; [|destruct Sb as (st' & E); exists st'; by rw (bind_stop _ _ _ _ _ E)].
  destruct Sb as (p2 & st2 & E2 & Hv2 & Hg2 & HD2). rw (bind_ok _ _ _ _ _ E2). pose proof Hg2 as [_ Hs2 _].
  pose proof (binary_sim SEMI NList LIST _ _ st2 ts2 p2 t2 ltac:(unfold symbols; cbn; set_solver) ltac:(done) den_list Sl Hv2 HD2 ltac:(unfold roomy; lia)) as HB.
  change (chars ";") with [SEMI]. destruct ((b ← tpeek [SEMI]; _) ts2) as [t' ts'|]; [|done].
  destruct HB as (p' & st' & E & Hv' & Hg' & HD'). exists p', st'. split_and!; try done. by eapply grew_trans, grew_trans.
Qed.

Lemma parsepipe_sim f :
  sim (parseexec buf room f) (texec (S (length buf)) f) → sim (parsepipe buf room f) (tpipe (S (length buf)) f) →
  sim (parsepipe buf room (S f)) (tpipe (S (length buf)) (S f)).
Proof using Hnul.
  intros Se Sp st ts Hv Hr. cbn [parsepipe tpipe]. specialize (Se st ts Hv Hr). rewrite -> bind_run. destruct (texec (S (length buf)) f ts) as [t1 ts1|].
  2:{ destruct Se as (st' & E). exists st'. by rw (bind_stop _ _ _ _ _ E). }
  destruct Se as (p1 & st1 & E1 & Hv1 & Hg1 & HD1). rw (bind_ok _ _ _ _ _ E1). unfold roomy in *. pose proof Hg1 as [_ Hs1 _].
  pose proof (binary_sim PIPE_ NPipe PIPE _ _ st1 ts1 p1 t1 ltac:(unfold symbols; cbn; set_solver) ltac:(done) den_pipe Sp Hv1 HD1 ltac:(unfold roomy; lia)) as HB.
  change (chars "|") with [PIPE_]. destruct ((b ← tpeek [PIPE_]; _) ts1) as [t' ts'|]; [|done].
  destruct HB as (p' & st' & E & Hv' & Hg' & HD'). exists p', st'. split_and!; try done. by eapply grew_trans.
Qed.

Lemma parseblock_sim f :
  sim (parseline buf room f) (tline (S (length buf)) f) → sim (parseblock buf room (S f)) (tblock (S (length buf)) (S f)).
Proof using Hnul.
  intros Sl st ts Hv Hr. cbn [parseblock tblock]. destruct (peektok_run (chars "(") st ts Hv) as (st1 & E1 & Hv1 & Hh1).
  rw (bind_ok _ _ _ _ _ E1) (bind_ok _ _ _ (hd_in (chars "(") ts) ts) //. destruct (hd_in (chars "(") ts) eqn:Ehd; cbn [negb]; [|by eexists].
  destruct (sym_head _ ts LPAR (v_lex _ _ Hv) ltac:(unfold symbols; cbn; set_solver) ltac:(done) Ehd) as (ts2 & ->).
  rw (bind_ok _ _ _ (Some (TSym LPAR)) ts2) //. destruct (gettok_run st1 _ ts2 Hv1) as (q1 & eq1 & st2 & E2 & Hv2 & Hh2 & _). rw (bind_ok _ _ _ _ _ E2).
  unfold roomy in *. cbn [length] in Hr. specialize (Sl st2 ts2 Hv2 ltac:(unfold roomy; rewrite -> Hh2, Hh1; lia)). rewrite -> bind_run.
  destruct (tline (S (length buf)) f ts2) as [t3 ts3|]; [|destruct Sl as (st' & E); exists st'; by rw (bind_stop _ _ _ _ _ E)].
  destruct Sl as (p3 & st3 & E3 & Hv3 & [Hp3 Hs3 Hl3] & HD3). rw (bind_ok _ _ _ _ _ E3). rewrite -> Hh2, Hh1 in *.
  destruct (peektok_run (chars ")") st3 ts3 Hv3) as (st4 & E4 & Hv4 & Hh4).
  rw (bind_ok _ _ _ _ _ E4) (bind_ok _ _ _ (hd_in (chars ")") ts3) ts3) //. destruct (hd_in (chars ")") ts3) eqn:Ehd3; cbn [negb]; [|by eexists].
  destruct (sym_head _ ts3 RPAR (v_lex _ _ Hv3) ltac:(unfold symbols; cbn; set_solver) ltac:(done) Ehd3) as (ts5 & ->).
  rw (bind_ok _ _ _ (Some (TSym RPAR)) ts5) //. destruct (gettok_run st4 _ ts5 Hv4) as (q5 & eq5 & st5 & E5 & Hv5 & Hh5 & _). rw (bind_ok _ _ _ _ _ E5).
  assert (heap st5 = heap st3) as Hh by congruence. cbn [length] in *.
  pose proof (parseredirs_sim (S (length buf)) st5 ts5 p3 p3 [] Hv5 ltac:(rewrite -> Hh; by eapply denotes_below) (wr_nil _ _) ltac:(unfold roomy; rewrite -> Hh; lia)) as Sr. rewrite -> bind_run.
  destruct (tredirs (S (length buf)) [] ts5) as [rs ts6|]; [|done]. destruct Sr as (p6 & st6 & E6 & Hv6 & [Hp6 Hs6 Hl6] & HW6). rewrite -> Hh in *.
  exists p6, st6. split_and!; try done; [split; [by etransitivity|cbn [length]; lia..]|]. eapply denotes_wrapped; [done|]. by eapply denotes_mono.
Qed.

Lemma parseexec_sim f :
  sim (parseblock buf room f) (tblock (S (length buf)) f) → sim (parseexec buf room (S f)) (texec (S (length buf)) (S f)).
Proof using Hnul.
  intros Sb st ts Hv Hr. cbn [parseexec texec]. destruct (peektok_run (chars "(") st ts Hv) as (st1 & E1 & Hv1 & Hh1).
  rw (bind_ok _ _ _ _ _ E1) (bind_ok _ _ _ (hd_in (chars "(") ts) ts) //. unfold roomy in *. destruct (hd_in (chars "(") ts).
  { specialize (Sb st1 ts Hv1 ltac:(unfold roomy; by rewrite -> Hh1)). destruct (tblock (S (length buf)) f ts) as [t' ts'|]; [|done].
    destruct Sb as (p' & st' & E & Hv' & [Hg1 Hg2 Hg3] & HD'). rewrite -> Hh1 in *. exists p', st'. by split_and!. }
  set (e := length (heap st)). set (H2 := heap st ++ [NExec (replicate MAXARGS None)]).
  rw (bind_ok _ _ _ _ _ (new_node_run (NExec (replicate MAXARGS None)) st1 ltac:(rewrite -> Hh1; lia))). rewrite -> Hh1. fold e H2.
  set (st2 := set_heap H2 st1). assert (length H2 = S e) as Hl2 by (unfold H2, e; rewrite -> length_app; cbn; lia).
  pose proof (parseredirs_sim (S (length buf)) st2 ts (Some e) (Some e) [] ltac:(by destruct Hv1) ltac:(cbn; lia) (wr_nil _ _) ltac:(unfold roomy; cbn; lia)) as Sr. rewrite -> bind_run.
  destruct (tredirs (S (length buf)) [] ts) as [rs ts3|]; [|destruct Sr as (st' & E); exists st'; by rw (bind_stop _ _ _ _ _ E)].
  destruct Sr as (p3 & st3 & E3 & Hv3 & [Hp3 Hs3 Hl3] & HW3). rw (bind_ok _ _ _ _ _ E3). change (heap st2) with H2 in *.
  assert (heap st3 !! e = Some (NExec (replicate MAXARGS None))) as He3.
  { eapply prefix_lookup_Some; [|done]. unfold H2, e. by rewrite -> lookup_app_r, Nat.sub_diag by done. }
  assert (args_at (replicate MAXARGS None) []) as Ha3 by (exists []; split_and!; [done|cbn; unfold MAXARGS; lia|constructor]).
  pose proof (parseexec_args_sim (S (length buf)) st3 ts3 e p3 [] rs _ Hv3 He3 Ha3 HW3 ltac:(unfold roomy; lia)) as Sa. rewrite -> bind_run.
  change (length (A := list Z) []) with O in Sa.
  destruct (targs (S (length buf)) (S (length buf)) [] rs ts3) as [[ws rs'] ts4|]; [|destruct Sa as (st' & E); exists st'; by rw (bind_stop _ _ _ _ _ E)].
  destruct Sa as (p4 & st4 & argv4 & E4 & Hv4 & Ht4 & Hs4 & Hl4 & He4 & Ha4 & HW4). rw (bind_ok _ _ _ _ _ E4).
  destruct (args_at_length _ _ Ha4) as [Hal Hwl]. rw (bind_ok _ _ _ _ _ (set_arg_run e (length ws) None st4 argv4 He4 ltac:(lia))).
  rewrite -> (args_at_end _ _ Ha4), list_insert_id by done. exists p4, (set_heap (heap st4) st4). split_and!; [done|by destruct Hv4| |].
  - split; cbn [heap set_heap]; [|lia..]. exists (drop e (heap st4)). rewrite <- (take_drop e (heap st4)) at 1. f_equal. rewrite -> Ht4.
    destruct Hp3 as [x ->]. unfold H2, e. by rewrite <- app_assoc, take_app_length.
  - cbn [heap set_heap fst snd]. eapply denotes_wrapped; [done|]. by eapply den_exec.
Qed.

Lemma parse_sim f :
  sim (parseline buf room f) (tline (S (length buf)) f) ∧ sim (parsepipe buf room f) (tpipe (S (length buf)) f) ∧
  sim (parseblock buf room f) (tblock (S (length buf)) f) ∧ sim (parseexec buf room f) (texec (S (length buf)) f).
Proof using Hnul.
  induction f as [|f (IH1 & IH2 & IH3 & IH4)]; [split_and!; intros st ts _ _; by eexists|].
  split_and!; [by apply parseline_sim|by apply parsepipe_sim|by apply parseblock_sim|by apply parseexec_sim].
Qed.
End simulation.
