(* ===== verification/ShCorrect.v ===== *)
(** * sh.c: the parser accepts exactly the language of the grammar

    Soundness, completeness and termination of the parser over tokens, what
    [nulterminate] leaves in the buffer, and the theorem on [parsecmd]. *)

From S2P Require Import Prelude Machine Spinlock Console CString ShParse ShGrammar.

(** ** Heads of token lists *)

Definition tok_ok (t : token) : Prop := match t with TWord w => is_word (hd 0 w) = true | _ => True end.

Lemma lexes_ok l ts : lexes l ts → Forall tok_ok ts.
Proof.
  induction 1 as [| | | | |w l ts Hw Hf]; try done; constructor; try done. destruct w as [|c w]; [done|]. by apply Forall_inv in Hf.
Qed.

Lemma lexes_nil_inv ts : lexes [] ts → ts = [].
Proof.
  intros HL. remember [] as l eqn:E. destruct HL as [| | | | |w l ts Hw _ _ _]; try done. by apply app_eq_nil in E as [-> _].
Qed.

(** The tests of the parser on the first token. *)
Lemma word_head toks w ts : forallb (λ x, bool_decide (x ∈ symbols ∧ x ≠ 0)) toks = true → tok_ok (TWord w) → hd_in toks (TWord w :: ts) = false.
Proof. intros Ht Hw. cbn. apply word_not_in; [by apply sym_chars|done]. Qed.

Lemma sym_in toks c ts : forallb (λ x, negb (x =? 0)) toks = true → hd_in toks (TSym c :: ts) = true → c ∈ toks.
Proof.
  intros Hz. cbn. rewrite -> in_chars_spec; [by intros ?%bool_decide_eq_true|]. apply Forall_forall. intros x Hx%list_elem_of_In.
  rewrite -> forallb_forall in Hz. specialize (Hz x Hx). by destruct (Z.eqb_spec x 0).
Qed.

Lemma hd_sym c ts : Forall tok_ok ts → bool_decide (c ∈ symbols ∧ c ≠ 0 ∧ c ≠ GREATER) = true → hd_in [c] ts = true →
  ∃ ts', ts = TSym c :: ts'.
Proof.
  intros Hok (Hc & Hc0 & Hg)%bool_decide_eq_true Eh. destruct ts as [|[w|x|] ts]; [done|..].
  - rewrite -> word_head in Eh; [done| |by apply Forall_inv in Hok]. cbn. by rewrite -> bool_decide_eq_true_2.
  - apply sym_in in Eh; [|cbn; by destruct (Z.eqb_spec c 0)]. apply list_elem_of_singleton in Eh as ->. by exists ts.
  - cbn [hd_in] in Eh. rewrite -> in_chars_spec in Eh by (constructor; [done|constructor]). apply bool_decide_eq_true, list_elem_of_singleton in Eh. done.
Qed.

(** ** Soundness *)

Section sound.
Context (N : nat).

Lemma tredirs_sound fuel : ∀ rs ts rs' rest, Forall tok_ok ts → tredirs fuel rs ts = Ok rs' rest →
  ∃ ts1 rs1, ts = ts1 ++ rest ∧ rs' = rs ++ rs1 ∧ redirs ts1 rs1 ∧ hd_in (chars "<>") rest = false.
Proof.
  induction fuel as [|fuel IH]; intros rs ts rs' rest Hok; cbn [tredirs]; rw (bind_ok _ _ _ (hd_in (chars "<>") ts) ts) //;
    destruct (hd_in (chars "<>") ts) eqn:Eh; cbn [negb]; try done.
  1,3: intros [= <- <-]; exists [], []; rewrite -> app_nil_r; split_and!; [done..|constructor|done].
  destruct ts as [|t ts]; [done|]. rw (bind_ok _ _ _ (Some t) ts) //. apply Forall_cons in Hok as [Ht Hok].
  destruct ts as [|t2 ts2]; [done|]. rw (bind_ok _ _ _ (Some t2) ts2) //. destruct t2 as [w| |]; [|done..]. apply Forall_cons in Hok as [Hw Hok].
  intros E. destruct (IH _ _ _ _ Hok E) as (ts1 & rs1 & -> & -> & Hrs & Hr).
  assert (∃ m fd, tredir (Some t) w = [(w, m, fd)] ∧ redirs (t :: TWord w :: ts1) ((w, m, fd) :: rs1)) as (m & fd & Em & Hred).
  { destruct t as [w0|c|]; [by rewrite -> word_head in Eh| |eexists _, _; split; [done|by constructor]].
    apply sym_in in Eh; [|done]. cbn in Eh. apply elem_of_cons in Eh as [->|Eh]; [eexists _, _; split; [done|by constructor]|].
    apply elem_of_cons in Eh as [->|Eh]; [eexists _, _; split; [done|by constructor]|by apply elem_of_nil in Eh]. }
  exists (t :: TWord w :: ts1), ((w, m, fd) :: rs1). rewrite -> Em, <- app_assoc. by split_and!.
Qed.

Lemma targs_sound fuel : ∀ ws rs ts ws' rs' rest, Forall tok_ok ts → (length ws < MAXARGS)%nat → targs N fuel ws rs ts = Ok (ws', rs') rest →
  ∃ ts1 ws1 rs1, ts = ts1 ++ rest ∧ ws' = ws ++ ws1 ∧ rs' = rs ++ rs1 ∧ args ts1 ws1 rs1 ∧ (length ws' < MAXARGS)%nat.
Proof.
  induction fuel as [|fuel IH]; intros ws rs ts ws' rs' rest Hok Hlen; cbn [targs]; rw (bind_ok _ _ _ (hd_in (chars "|)&;") ts) ts) //;
    destruct (hd_in (chars "|)&;") ts) eqn:Eh; try done.
  1,2: intros [= <- <- <-]; exists [], [], []; rewrite -> !app_nil_r; split_and!; [done..|constructor|done].
  destruct ts as [|t ts]; [rw (bind_ok _ _ _ None []) //|rw (bind_ok _ _ _ (Some t) ts) //].
  { intros [= <- <- <-]; exists [], [], []; rewrite -> !app_nil_r; split_and!; [done..|constructor|done]. }
  destruct t as [w| |]; [|done..]. apply Forall_cons in Hok as [Hw Hok]. destruct (Nat.leb_spec MAXARGS (S (length ws))) as [|Hlt]; [done|].
  intros (rs2 & ts2 & E1 & E2)%bind_ok_inv. destruct (tredirs_sound _ _ _ _ _ Hok E1) as (ts1 & rs1 & -> & -> & Hr & _).
  apply Forall_app in Hok as [_ Hok]. destruct (IH (ws ++ [w]) _ _ _ _ _ Hok ltac:(rewrite -> length_app; cbn; lia) E2) as (ts3 & ws3 & rs3 & -> & -> & -> & Ha & Hl).
  exists (TWord w :: ts1 ++ ts3), (w :: ws3), (rs1 ++ rs3). rewrite <- !app_assoc. cbn. rewrite <- app_assoc. split_and!; try done; [by constructor|]. by rewrite <- app_assoc in Hl.
Qed.

Lemma tback_sound fuel : ∀ c ts c' rest, Forall tok_ok ts → tback fuel c ts = Ok c' rest →
  ∃ n, ts = replicate n (TSym AMP) ++ rest ∧ c' = Nat.iter n BACK c ∧ hd_in (chars "&") rest = false.
Proof.
  induction fuel as [|fuel IH]; intros c ts c' rest Hok; cbn [tback]; rw (bind_ok _ _ _ (hd_in (chars "&") ts) ts) //;
    destruct (hd_in (chars "&") ts) eqn:Eh; cbn [negb]; try done.
  1,3: intros [= <- <-]; by exists O.
  destruct (hd_sym AMP ts Hok ltac:(done) Eh) as (ts1 & ->). rw (bind_ok _ _ _ (Some (TSym AMP)) ts1) //. apply Forall_cons in Hok as [_ Hok].
  intros E. destruct (IH _ _ _ _ Hok E) as (n & -> & -> & Hr). exists (S n). split_and!; try done. by rewrite -> Nat.iter_succ_r.
Qed.

(** What the parsers return is derived by the grammar from the tokens they took. *)
Definition sound (n : M (list token) cmd) (G : list token → cmd → Prop) : Prop :=
  ∀ ts t rest, Forall tok_ok ts → n ts = Ok t rest → ∃ ts1, ts = ts1 ++ rest ∧ G ts1 t.

Lemma parse_sound f :
  sound (tline N f) line ∧ sound (tpipe N f) pipe ∧ sound (tblock N f) simple ∧ sound (texec N f) simple.
Proof.
  induction f as [|f (IHl & IHp & IHb & IHe)]; [split_and!; intros ts t rest _ E; done|]. split_and!; intros ts t rest Hok; cbn [tline tpipe tblock texec].
  - intros (c1 & ts1 & E1 & (c2 & ts2 & E2 & E3)%bind_ok_inv)%bind_ok_inv. destruct (IHp _ _ _ Hok E1) as (tp & -> & Hp). apply Forall_app in Hok as [_ Hok].
    destruct (tback_sound _ _ _ _ _ Hok E2) as (n & -> & -> & _). apply Forall_app in Hok as [_ Hok].
    revert E3. rw (bind_ok _ _ _ (hd_in (chars ";") ts2) ts2) //. destruct (hd_in (chars ";") ts2) eqn:Eh; cbn [negb].
    + destruct (hd_sym SEMI ts2 Hok ltac:(done) Eh) as (ts3 & ->). rw (bind_ok _ _ _ (Some (TSym SEMI)) ts3) //. apply Forall_cons in Hok as [_ Hok].
      intros (c3 & ts4 & E4 & [= <- <-])%bind_ok_inv. destruct (IHl _ _ _ Hok E4) as (ts5 & -> & Hl).
      exists (tp ++ replicate n (TSym AMP) ++ TSym SEMI :: ts5). split; [by rewrite <- !app_assoc|]. by constructor.
    + intros [= <- <-]. exists (tp ++ replicate n (TSym AMP)). split; [by rewrite <- app_assoc|]. by constructor.
  - intros (c1 & ts1 & E1 & E3)%bind_ok_inv. destruct (IHe _ _ _ Hok E1) as (te & -> & He). apply Forall_app in Hok as [_ Hok].
    revert E3. rw (bind_ok _ _ _ (hd_in (chars "|") ts1) ts1) //. destruct (hd_in (chars "|") ts1) eqn:Eh; cbn [negb].
    + destruct (hd_sym PIPE_ ts1 Hok ltac:(done) Eh) as (ts3 & ->). rw (bind_ok _ _ _ (Some (TSym PIPE_)) ts3) //. apply Forall_cons in Hok as [_ Hok].
      intros (c3 & ts4 & E4 & [= <- <-])%bind_ok_inv. destruct (IHp _ _ _ Hok E4) as (ts5 & -> & Hl).
      exists (te ++ TSym PIPE_ :: ts5). split; [by rewrite <- app_assoc|]. by constructor.
    + intros [= <- <-]. exists te. split; [done|]. by constructor.
  - rw (bind_ok _ _ _ (hd_in (chars "(") ts) ts) //. destruct (hd_in (chars "(") ts) eqn:Eh; cbn [negb]; [|done].
    destruct (hd_sym LPAR ts Hok ltac:(done) Eh) as (ts1 & ->). rw (bind_ok _ _ _ (Some (TSym LPAR)) ts1) //. apply Forall_cons in Hok as [_ Hok].
    intros (c2 & ts2 & E2 & E3)%bind_ok_inv. destruct (IHl _ _ _ Hok E2) as (tl & -> & Hl). apply Forall_app in Hok as [_ Hok].
    revert E3. rw (bind_ok _ _ _ (hd_in (chars ")") ts2) ts2) //. destruct (hd_in (chars ")") ts2) eqn:Eh2; cbn [negb]; [|done].
    destruct (hd_sym RPAR ts2 Hok ltac:(done) Eh2) as (ts3 & ->). rw (bind_ok _ _ _ (Some (TSym RPAR)) ts3) //. apply Forall_cons in Hok as [_ Hok].
    intros (rs & ts4 & E4 & [= <- <-])%bind_ok_inv. destruct (tredirs_sound _ _ _ _ _ Hok E4) as (ts5 & rs5 & -> & -> & Hr & _).
    exists (TSym LPAR :: tl ++ TSym RPAR :: ts5). split; [by rw /= -app_assoc|]. by constructor.
  - rw (bind_ok _ _ _ (hd_in (chars "(") ts) ts) //. destruct (hd_in (chars "(") ts); [by apply IHb|].
    intros (rs & ts1 & E1 & ([ws rs2] & ts2 & E2 & [= <- <-])%bind_ok_inv)%bind_ok_inv. destruct (tredirs_sound _ _ _ _ _ Hok E1) as (tr & rs1 & -> & -> & Hr & _).
    apply Forall_app in Hok as [_ Hok]. destruct (targs_sound _ [] _ _ _ _ _ Hok ltac:(unfold MAXARGS; cbn; lia) E2) as (ta & ws1 & rs3 & -> & -> & -> & Ha & Hl).
    exists (tr ++ ta). split; [by rewrite <- app_assoc|]. by constructor.
Qed.
End sound.

(** ** Completeness *)

Scheme line_mind := Induction for line Sort Prop
with pipe_mind := Induction for pipe Sort Prop
with simple_mind := Induction for simple Sort Prop.
Combined Scheme grammar_ind from line_mind, pipe_mind, simple_mind.

(** What can follow a simple command. *)
Definition stops (rest : list token) : Prop := rest = [] ∨ hd_in (chars "|)&;") rest = true.

Lemma stops_sym rest : Forall tok_ok rest → stops rest → rest = [] ∨ ∃ c r, rest = TSym c :: r ∧ c ∈ [PIPE_; RPAR; AMP; SEMI].
Proof.
  intros Hok [->|Eh]; [by left|right]. destruct rest as [|[w|c|] r]; [done|..].
  - rewrite -> word_head in Eh; [done..|]. by apply Forall_inv in Hok.
  - apply sym_in in Eh; [|done]. by exists c, r.
  - done.
Qed.

Lemma stops_tests rest : Forall tok_ok rest → stops rest → hd_in (chars "<>") rest = false ∧ hd_in (chars "(") rest = false.
Proof.
  intros Hok [->|(c & r & -> & Hc)]%stops_sym; [done| |done]. repeat (apply elem_of_cons in Hc as [->|Hc]; [done|]). by apply elem_of_nil in Hc.
Qed.

Section complete.
Context (N : nat).

Lemma tredirs_complete ts rs : redirs ts rs → ∀ fuel rs0 rest, hd_in (chars "<>") rest = false → (length ts ≤ fuel)%nat →
  tredirs fuel rs0 (ts ++ rest) = Ok (rs0 ++ rs) rest.
Proof.
  induction 1 as [|w ts rs _ IH|w ts rs _ IH|w ts rs _ IH]; intros fuel rs0 rest Hr Hf.
  { rewrite -> app_nil_r. destruct fuel; cbn [tredirs app]; rw (bind_ok _ _ _ (hd_in (chars "<>") rest) rest) // Hr; done. }
  all: destruct fuel as [|fuel]; cbn [length] in Hf; [lia|].
  1: transitivity (tredirs fuel (rs0 ++ [(w, O_RDONLY, 0)]) (ts ++ rest)); [done|].
  2,3: transitivity (tredirs fuel (rs0 ++ [(w, Z.lor O_WRONLY O_CREATE, 1)]) (ts ++ rest)); [done|].
  all: rewrite -> IH by (done || lia); by rewrite <- app_assoc.
Qed.

Lemma args_head ts ws rs rest : args ts ws rs → Forall tok_ok (ts ++ rest) → stops rest →
  hd_in (chars "<>") (ts ++ rest) = false ∧ hd_in (chars "(") (ts ++ rest) = false.
Proof.
  intros HA Hok Hst. destruct HA as [|w ts1 rs1 ts2 ws rs2 _ _]; [by apply stops_tests|]. cbn [app] in *. apply Forall_cons in Hok as [Hw _].
  split; by apply word_head.
Qed.

Lemma targs_complete ts ws rs : args ts ws rs → ∀ fuel ws0 rs0 rest,
  stops rest → Forall tok_ok (ts ++ rest) → (length ws0 + length ws < MAXARGS)%nat → (length ts < fuel)%nat → (length ts ≤ N)%nat →
  targs N fuel ws0 rs0 (ts ++ rest) = Ok (ws0 ++ ws, rs0 ++ rs) rest.
Proof.
  induction 1 as [|w ts1 rs1 ts2 ws rs2 Hr HA IH]; intros fuel ws0 rs0 rest Hst Hok Hws Hf HN; (destruct fuel as [|fuel]; cbn [length] in Hf; [lia|]); cbn [targs app].
  - rewrite -> !app_nil_r. rw (bind_ok _ _ _ (hd_in (chars "|)&;") rest) rest) //. destruct Hst as [->|Eh]; [done|by rewrite -> Eh].
  - cbn [app] in Hok. apply Forall_cons in Hok as [Hw Hok]. rw (bind_ok _ _ _ (hd_in (chars "|)&;") (TWord w :: (ts1 ++ ts2) ++ rest)) (TWord w :: (ts1 ++ ts2) ++ rest)) //.
    rewrite -> word_head by done. rw (bind_ok _ _ _ (Some (TWord w)) ((ts1 ++ ts2) ++ rest)) //. cbn [length] in *. rewrite -> length_app in *.
    rewrite -> (proj2 (Nat.leb_gt MAXARGS (S (length ws0)))) by lia. rewrite <- app_assoc in *. apply Forall_app in Hok as [_ Hok].
    destruct (args_head _ _ _ _ HA Hok Hst) as [Eh _].
    rw (bind_ok _ _ _ _ _ (tredirs_complete ts1 rs1 Hr N rs0 (ts2 ++ rest) Eh ltac:(lia))).
    rewrite -> IH; [|done|done|rewrite -> length_app; cbn [length]; lia|lia|lia]. by rewrite <- !app_assoc.
Qed.

Lemma tback_complete n : ∀ fuel c rest, hd_in (chars "&") rest = false → (n ≤ fuel)%nat →
  tback fuel c (replicate n (TSym AMP) ++ rest) = Ok (Nat.iter n BACK c) rest.
Proof.
  induction n as [|n IH]; intros fuel c rest Hr Hf.
  - destruct fuel; cbn [tback replicate app]; rw (bind_ok _ _ _ (hd_in (chars "&") rest) rest) // Hr; done.
  - destruct fuel as [|fuel]; [lia|]. transitivity (tback fuel (BACK c) (replicate n (TSym AMP) ++ rest)); [done|].
    rewrite -> IH by (done || lia). by rewrite -> Nat.iter_succ_r.
Qed.

Abbreviation line_end := (λ rest, rest = [] ∨ ∃ r, rest = TSym RPAR :: r).

Lemma line_end_tests rest : line_end rest →
  hd_in (chars "&") rest = false ∧ hd_in (chars ";") rest = false ∧ stops rest ∧ hd_in (chars "|") rest = false.
Proof. intros [->|[r ->]]; split_and!; try done; [by left|by right]. Qed.

(** What can follow a pipeline. *)
Lemma amps_follow n rest : stops rest ∧ hd_in (chars "|") rest = false →
  stops (replicate n (TSym AMP) ++ rest) ∧ hd_in (chars "|") (replicate n (TSym AMP) ++ rest) = false.
Proof. intros ?. destruct n; [done|]. split; [by right|done]. Qed.

Definition complete (n : nat → M (list token) cmd) (k : nat) (follow : list token → Prop) (ts : list token) (t : cmd) : Prop :=
  ∀ f rest, Forall tok_ok (ts ++ rest) → follow rest → (4 * length (ts ++ rest) + k ≤ f)%nat → (length (ts ++ rest) < N)%nat →
    n f (ts ++ rest) = Ok t rest.

Lemma parse_complete :
  (∀ ts t, line ts t → complete (tline N) 4 line_end ts t) ∧
  (∀ ts t, pipe ts t → complete (tpipe N) 3 (λ rest, stops rest ∧ hd_in (chars "|") rest = false) ts t) ∧
  (∀ ts t, simple ts t → complete (texec N) 2 stops ts t).
Proof.
  apply grammar_ind.
  - intros ts n c Hp IH f rest Hok Hend Hf HN. destruct (line_end_tests rest Hend) as (H1 & H2 & H3). rewrite <- app_assoc in *.
    destruct f as [|f]; [lia|]. cbn [tline].
    rewrite -> (bind_ok _ _ _ _ _ (IH f (replicate n (TSym AMP) ++ rest) Hok (amps_follow n rest H3) ltac:(lia) HN)).
    rewrite -> (bind_ok _ _ _ _ _ (tback_complete n N c rest H1 ltac:(rewrite -> !length_app, length_replicate in HN; lia))).
    rw (bind_ok _ _ _ (hd_in (chars ";") rest) rest) //. by rewrite -> H2.
  - intros ts1 n c1 ts2 c2 Hp IHp Hl IHl f rest Hok Hend Hf HN. rewrite <- !app_assoc, <- app_comm_cons in *.
    destruct f as [|f]; [lia|]. cbn [tline].
    rewrite -> (bind_ok _ _ _ _ _ (IHp f (replicate n (TSym AMP) ++ TSym SEMI :: ts2 ++ rest) Hok
      (amps_follow n (TSym SEMI :: ts2 ++ rest) (conj (or_intror eq_refl) eq_refl)) ltac:(lia) HN)).
    rewrite -> !length_app in Hf, HN. cbn [length] in Hf, HN. rewrite -> length_app, length_replicate in Hf, HN.
    rewrite -> (bind_ok _ _ _ _ _ (tback_complete n N c1 (TSym SEMI :: ts2 ++ rest) eq_refl ltac:(lia))).
    rw (bind_ok _ _ _ true (TSym SEMI :: ts2 ++ rest)) //. cbn [negb]. rw (bind_ok _ _ _ (Some (TSym SEMI)) (ts2 ++ rest)) //.
    apply Forall_app in Hok as [_ Hok]. apply Forall_app in Hok as [_ Hok]. apply Forall_cons in Hok as [_ Hok].
    rewrite -> (bind_ok _ _ _ _ _ (IHl f rest Hok Hend ltac:(rewrite -> length_app; lia) ltac:(rewrite -> length_app; lia))). done.
  - intros ts c Hs IH f rest Hok [Hst Hp] Hf HN. destruct f as [|f]; [lia|]. cbn [tpipe].
    rewrite -> (bind_ok _ _ _ _ _ (IH f rest Hok Hst ltac:(lia) HN)). rw (bind_ok _ _ _ (hd_in (chars "|") rest) rest) //. by rewrite -> Hp.
  - intros ts1 c1 ts2 c2 Hs IHs Hp IHp f rest Hok Hst Hf HN. rewrite <- app_assoc, <- app_comm_cons in *. destruct f as [|f]; [lia|]. cbn [tpipe].
    rewrite -> (bind_ok _ _ _ _ _ (IHs f (TSym PIPE_ :: ts2 ++ rest) Hok (or_intror eq_refl) ltac:(lia) HN)).
    rw (bind_ok _ _ _ true (TSym PIPE_ :: ts2 ++ rest)) //. cbn [negb]. rw (bind_ok _ _ _ (Some (TSym PIPE_)) (ts2 ++ rest)) //.
    rewrite -> length_app in Hf, HN. cbn [length] in Hf, HN. apply Forall_app in Hok as [_ Hok]. apply Forall_cons in Hok as [_ Hok].
    rewrite -> (bind_ok _ _ _ _ _ (IHp f rest Hok Hst ltac:(lia) ltac:(lia))). done.
  - intros ts1 rs1 ts2 ws rs2 Hr Ha Hws f rest Hok Hst Hf HN. rewrite <- app_assoc in *. destruct f as [|f]; [lia|]. cbn [texec].
    pose proof (proj2 (proj1 (Forall_app _ _ _) Hok)) as Hok2. destruct (args_head _ _ _ rest Ha Hok2 Hst) as [H1 H2].
    assert (hd_in (chars "(") (ts1 ++ ts2 ++ rest) = false) as E by (by destruct Hr).
    rw (bind_ok _ _ _ (hd_in (chars "(") (ts1 ++ ts2 ++ rest)) (ts1 ++ ts2 ++ rest)) //. rewrite -> E. rewrite -> !length_app in HN.
    rewrite -> (bind_ok _ _ _ _ _ (tredirs_complete ts1 rs1 Hr N [] (ts2 ++ rest) H1 ltac:(lia))).
    rewrite -> (bind_ok _ _ _ _ _ (targs_complete ts2 ws rs2 Ha N [] _ rest Hst Hok2 ltac:(done) ltac:(lia) ltac:(lia))). done.
  - intros ts1 c ts2 rs Hl IHl Hr f rest Hok Hst Hf HN. cbn [app] in *. rewrite <- app_assoc, <- app_comm_cons in *. cbn [length] in *.
    destruct f as [|[|f]]; [lia..|]. cbn [texec tblock]. set (ts := TSym LPAR :: ts1 ++ TSym RPAR :: ts2 ++ rest).
    rw (bind_ok _ _ _ true ts) //. rw (bind_ok _ _ _ true ts) //. cbn [negb]. rw (bind_ok _ _ _ (Some (TSym LPAR)) (ts1 ++ TSym RPAR :: ts2 ++ rest)) //.
    apply Forall_cons in Hok as [_ Hok].
    rewrite -> (bind_ok _ _ _ _ _ (IHl f (TSym RPAR :: ts2 ++ rest) Hok ltac:(right; by eexists) ltac:(lia) ltac:(lia))).
    rw (bind_ok _ _ _ true (TSym RPAR :: ts2 ++ rest)) //. cbn [negb]. rw (bind_ok _ _ _ (Some (TSym RPAR)) (ts2 ++ rest)) //.
    apply Forall_app in Hok as [_ Hok]. apply Forall_cons in Hok as [_ Hok]. apply Forall_app in Hok as [_ Hok].
    rewrite -> length_app in HN. cbn [length] in HN. rewrite -> length_app in HN.
    rewrite -> (bind_ok _ _ _ _ _ (tredirs_complete ts2 rs Hr N [] rest (proj1 (stops_tests rest Hok Hst)) ltac:(lia))). done.
Qed.
End complete.

(** ** Termination *)

(** The parser returns or reports an error, and never gives tokens back. *)
Definition ends {A} (r : outcome (list token) A) (k : nat) : Prop :=
  match r with
  | Ok _ rest => (length rest ≤ k)%nat
  | Stop (Panic _) _ => True
  | _ => False
  end.

Lemma ends_bind {A B} (m : M (list token) A) (f : A → M (list token) B) ts k :
  ends (m ts) k → (∀ a ts', (length ts' ≤ k)%nat → ends (f a ts') k) → ends ((m ≫= f) ts) k.
Proof. intros Hm Hf. rewrite -> bind_run. destruct (m ts) as [a ts'|[]]; cbn in *; try done. by apply Hf. Qed.

Lemma ends_le {A} (r : outcome (list token) A) k k' : ends r k → (k ≤ k')%nat → ends r k'.
Proof. destruct r as [? ?|[]]; cbn; try done. lia. Qed.

Lemma tget_bind {B} (f : option token → M (list token) B) ts toks : hd_in toks ts = true →
  ∃ t ts', ts = t :: ts' ∧ (tget ≫= f) ts = f (Some t) ts'.
Proof. destruct ts as [|t ts']; [done|]. intros _. by exists t, ts'. Qed.

Section total.
Context (N : nat).

Lemma tredirs_total fuel : ∀ rs ts, (length ts ≤ fuel)%nat → ends (tredirs fuel rs ts) (length ts).
Proof.
  induction fuel as [|fuel IH]; intros rs ts Hf; cbn [tredirs]; rw (bind_ok _ _ _ (hd_in (chars "<>") ts) ts) //;
    destruct (hd_in (chars "<>") ts) eqn:Eh; cbn [negb]; try (by cbn).
  - destruct ts; [done|cbn in Hf; lia].
  - destruct (tget_bind (λ t, t2 ← tget; match t2 with Some (TWord w) => tredirs fuel (rs ++ tredir t w) | _ => panic "missing file for redirection" end) ts _ Eh)
      as (t & ts1 & -> & ->). destruct ts1 as [|[w|c|] ts2]; try done.
    change (ends (tredirs fuel (rs ++ tredir (Some t) w) ts2) (S (S (length ts2)))). cbn [length] in Hf.
    apply (ends_le _ (length ts2)); [apply IH|]; lia.
Qed.

Lemma targs_total fuel : ∀ ws rs ts, (length ts < fuel)%nat → (length ts ≤ N)%nat → ends (targs N fuel ws rs ts) (length ts).
Proof.
  induction fuel as [|fuel IH]; intros ws rs ts Hf HN; [lia|]. cbn [targs]; rw (bind_ok _ _ _ (hd_in (chars "|)&;") ts) ts) //.
  destruct (hd_in (chars "|)&;") ts) eqn:Eh; [apply Nat.le_refl|]. destruct ts as [|t ts]; [apply Nat.le_refl|]. rw (bind_ok _ _ _ (Some t) ts) //.
  destruct t as [w| |]; [|done..]. destruct (MAXARGS <=? S (length ws))%nat; [done|]. cbn [length] in *.
  eapply ends_le; [|apply Nat.le_succ_diag_r]. apply ends_bind; [by apply tredirs_total; lia|]. intros rs' ts' Hl. eapply ends_le; [apply IH|]; lia.
Qed.

Lemma tback_total fuel : ∀ c ts, (length ts ≤ fuel)%nat → ends (tback fuel c ts) (length ts).
Proof.
  induction fuel as [|fuel IH]; intros c ts Hf; cbn [tback]; rw (bind_ok _ _ _ (hd_in (chars "&") ts) ts) //;
    destruct (hd_in (chars "&") ts) eqn:Eh; cbn [negb]; try (by cbn).
  - destruct ts; [done|cbn in Hf; lia].
  - destruct (tget_bind (λ _, tback fuel (BACK c)) ts _ Eh) as (t & ts1 & -> & ->). cbn [length] in *. eapply ends_le; [apply IH|]; lia.
Qed.

(** An optional operator and what follows it. *)
Lemma binary_total (sym : list Z) (F : cmd → cmd) (n : M (list token) cmd) t ts k : (length ts ≤ k)%nat →
  (∀ ts', (length ts' < k)%nat → ends (n ts') (length ts')) →
  ends ((b ← tpeek sym; if negb b then mret t else tget;; t2 ← n; mret (F t2)) ts) k.
Proof.
  intros Hk Hn. rw (bind_ok _ _ _ (hd_in sym ts) ts) //. destruct (hd_in sym ts) eqn:Eh; cbn [negb]; [|by cbn].
  destruct (tget_bind (λ _, t2 ← n; mret (F t2)) ts _ Eh) as (t0 & ts1 & -> & ->). cbn [length] in Hk.
  eapply ends_le; [apply ends_bind; [apply Hn; lia|]|lia]. done.
Qed.

Lemma parse_total f : ∀ ts, (length ts < N)%nat →
  ((4 * length ts + 4 ≤ f)%nat → ends (tline N f ts) (length ts)) ∧ ((4 * length ts + 3 ≤ f)%nat → ends (tpipe N f ts) (length ts)) ∧
  ((4 * length ts + 1 ≤ f)%nat → ends (tblock N f ts) (length ts)) ∧ ((4 * length ts + 2 ≤ f)%nat → ends (texec N f ts) (length ts)).
Proof.
  induction f as [|f IH]; intros ts HN; [split_and!; lia|]. split_and!; intros Hf; cbn [tline tpipe tblock texec].
  - apply ends_bind; [apply IH; lia|]. intros c ts1 H1. apply ends_bind; [eapply ends_le; [apply tback_total; lia|lia]|]. intros c2 ts2 H2.
    apply (binary_total _ (λ c', LIST c2 c')); [done|]. intros ts' Hl. apply IH; lia.
  - apply ends_bind; [apply IH; lia|]. intros c ts1 H1. apply (binary_total _ (λ c', PIPE c c')); [done|]. intros ts' Hl. apply IH; lia.
  - rw (bind_ok _ _ _ (hd_in (chars "(") ts) ts) //. destruct (hd_in (chars "(") ts) eqn:Eh; cbn [negb]; [|done].
    destruct (tget_bind (λ _, c ← tline N f; b ← tpeek (chars ")"); if negb b then panic "syntax - missing )" else tget;; rs ← tredirs N []; mret (wrap rs c)) ts _ Eh)
      as (t & ts1 & -> & ->). cbn [length] in *. eapply ends_le; [|apply Nat.le_succ_diag_r]. apply ends_bind; [apply IH; lia|]. intros c ts2 H2.
    rw (bind_ok _ _ _ (hd_in (chars ")") ts2) ts2) //. destruct (hd_in (chars ")") ts2) eqn:Eh2; cbn [negb]; [|done].
    destruct (tget_bind (λ _, rs ← tredirs N []; mret (wrap rs c)) ts2 _ Eh2) as (t2 & ts3 & -> & ->). cbn [length] in *.
    apply ends_bind; [eapply ends_le; [apply tredirs_total; lia|lia]|]. by intros rs ts4 H4.
  - rw (bind_ok _ _ _ (hd_in (chars "(") ts) ts) //. destruct (hd_in (chars "(") ts); [apply IH; lia|].
    apply ends_bind; [apply tredirs_total; lia|]. intros rs ts1 H1. apply ends_bind; [eapply ends_le; [apply targs_total; lia|lia]|]. by intros r ts2 H2.
Qed.
End total.

(** ** The words after [nulterminate] *)

(** The command that the nodes and the strings of the buffer stand for. *)
Fixpoint arg_strings (argv : list (option (nat * nat))) (b : list Z) : option (list (list Z)) :=
  match argv with
  | [] => None
  | None :: _ => Some []
  | Some (q, _) :: argv => (cstr (drop q b) ::.) <$> arg_strings argv b
  end.

Fixpoint tree_of (fuel : nat) (H : list cnode) (b : list Z) (p : cmdp) : option cmd :=
  match p, fuel with
  | Some i, S fuel =>
      match H !! i with
      | Some (NExec argv) => EXEC <$> arg_strings argv b
      | Some (NRedir c q _ m fd) => (λ t, REDIR t (cstr (drop q b)) m fd) <$> tree_of fuel H b c
      | Some (NPipe l r) => tl ← tree_of fuel H b l; PIPE tl <$> tree_of fuel H b r
      | Some (NList l r) => tl ← tree_of fuel H b l; LIST tl <$> tree_of fuel H b r
      | Some (NBack c) => BACK <$> tree_of fuel H b c
      | None => None
      end
  | _, _ => None
  end.

(** The buffer with NULs in the place of some characters that are in no word. *)
Record nulled (buf b : list Z) : Prop := {
  nu_length : length b = length buf;
  nu_chars : ∀ i, b !! i = buf !! i ∨ (b !! i = Some 0 ∧ ∃ c, buf !! i = Some c ∧ is_word c = false)
}.
Definition nul_le (b b' : list Z) : Prop := ∀ i, b !! i = Some 0 → b' !! i = Some 0.

Section nul.
Context (buf : list Z) (Hnul : Forall (λ c, c ≠ 0) buf).

(** A position that ends a string. *)
Definition closed (b : list Z) (eq : nat) : Prop := (length b ≤ eq)%nat ∨ b !! eq = Some 0.

Lemma closed_le b b' eq : length b = length b' → nul_le b b' → closed b eq → closed b' eq.
Proof using Type. intros Hl Hle [?|?]; [left; lia|right; by apply Hle]. Qed.

Lemma put_nul_run q eq w b : word_at buf q eq w → nulled buf b →
  nulled buf (put_nul eq b) ∧ nul_le b (put_nul eq b) ∧ closed (put_nul eq b) eq.
Proof using Type.
  intros [-> _ _ He] [Hl Hc]. unfold put_nul. set (e := (q + length w)%nat) in *. destruct (decide (e < length b)%nat) as [Hlt|Hge].
  - split_and!.
    + split; [by rewrite -> length_insert|]. intros i. destruct (decide (i = e)) as [->|Hne]; [right|by rewrite -> list_lookup_insert_ne by done].
      rewrite -> list_lookup_insert_eq by done. split; [done|]. destruct He as [E|He].
      * apply (f_equal length) in E. rewrite -> length_drop in E. cbn in E. lia.
      * assert (is_Some (buf !! e)) as [c Ec] by (apply lookup_lt_is_Some_2; lia). exists c. split; [done|].
        rewrite <- char_at_drop in He. unfold char_at in He. by rewrite -> Ec in He.
    + intros i Hi. destruct (decide (i = e)) as [->|Hne]; [by apply list_lookup_insert_eq|by rewrite -> list_lookup_insert_ne].
    + right. by apply list_lookup_insert_eq.
  - rewrite -> list_insert_ge by lia. split_and!; [done|by intros i|left; lia].
Qed.

(** A closed word is a C string. *)
Lemma cstr_word q eq w b : word_at buf q eq w → nulled buf b → closed b eq → cstr (drop q b) = w.
Proof using Hnul.
  intros [-> Ht Hf He] [Hl Hc] Hcl. assert (take (length w) (drop q b) = w) as Ew.
  { rewrite <- Ht at 2. apply list_eq. intros i. destruct (decide (i < length w)%nat) as [Hi|Hi]; [|by rewrite -> !lookup_take_ge by lia].
    rewrite -> !lookup_take_lt, !lookup_drop by done. destruct (Hc (q + i)%nat) as [E|(_ & c & E & Hw)]; [done|exfalso].
    assert (w !! i = Some c) as Hwi by (rewrite <- Ht at 1; by rewrite -> lookup_take_lt, lookup_drop).
    rewrite -> Forall_lookup in Hf. specialize (Hf i c Hwi). cbn in Hf. congruence. }
  assert (Forall (λ c, c ≠ 0) w) as Hz.
  { rewrite <- Ht. by apply Forall_take, Forall_drop. }
  rewrite <- (take_drop (length w) (drop q b)), Ew, drop_drop. destruct Hcl as [Hlen|Hat].
  - rewrite -> drop_ge by done. by rewrite -> app_nil_r, cstr_id.
  - destruct (drop (q + length w) b) as [|c l] eqn:E; [by rewrite -> app_nil_r, cstr_id|].
    assert (c = 0) as ->; [|by apply cstr_app_nul].
    rewrite <- (Nat.add_0_r (q + length w)), <- lookup_drop, E in Hat. by injection Hat.
Qed.

Lemma nul_args_run pos ws k : Forall2 (λ p w, word_at buf p.1 p.2 w) pos ws → ∀ b, nulled buf b →
  ∃ b', nul_args ((Some <$> pos) ++ replicate (S k) None) b = Some b' ∧ nulled buf b' ∧ nul_le b b' ∧
    ∀ b2, nulled buf b2 → nul_le b' b2 → arg_strings ((Some <$> pos) ++ replicate (S k) None) b2 = Some ws.
Proof using Hnul.
  induction 1 as [|[q eq] w pos ws Hw _ IH]; intros b Hb; [exists b; split_and!; [done|done|by intros i|done]|]. cbn in Hw.
  destruct (put_nul_run q eq w b Hw Hb) as (Hb1 & Hle1 & Hc1). destruct (IH _ Hb1) as (b' & E & Hb' & Hle' & Hs). exists b'. split_and!; try done.
  - intros i Hi. by apply Hle', Hle1.
  - intros b2 Hb2 Hle2. cbn [fmap list_fmap app arg_strings]. rewrite -> (Hs b2 Hb2 Hle2). cbn. f_equal. f_equal. eapply cstr_word; [done|done|].
    eapply closed_le; [| |exact Hc1]; [by rewrite -> (nu_length _ _ Hb1), (nu_length _ _ Hb2)|]. intros i Hi. by apply Hle2, Hle'.
Qed.

Lemma nulterminate_run H p t : denotes buf H p t → ∀ fuel b, below p fuel → nulled buf b →
  ∃ b', nulterminate fuel H p b = Some b' ∧ nulled buf b' ∧ nul_le b b' ∧
    ∀ b2 fuel2, nulled buf b2 → nul_le b' b2 → below p fuel2 → tree_of fuel2 H b2 p = Some t.
Proof using Hnul.
  assert (∀ (b1 b2 b3 : list Z), nul_le b1 b2 → nul_le b2 b3 → nul_le b1 b3) as Htr by (intros b1 b2 b3 H1 H2 i Hi; by apply H2, H1).
  induction 1 as [e argv ws He (pos & -> & Hlen & HF)|p c t q eq w m fd Hp Hbl HD IH Hw|p l r tl tr Hp Hbl Hbr HD1 IH1 HD2 IH2|p l r tl tr Hp Hbl Hbr HD1 IH1 HD2 IH2|p c t Hp Hbl HD IH];
    intros fuel b Hfu Hb; (destruct fuel as [|fuel]; cbn in Hfu; [lia|]); cbn [nulterminate].
  - rewrite -> He. destruct (MAXARGS - length pos)%nat as [|k] eqn:Ek; [lia|]. destruct (nul_args_run pos ws k HF b Hb) as (b' & E & Hb' & Hle & Hs).
    exists b'. split_and!; try done. intros b2 [|fuel2] Hb2 Hle2 Hf2; cbn in Hf2; [lia|]. cbn [tree_of]. by rewrite -> He, (Hs b2 Hb2 Hle2).
  - rewrite -> Hp. destruct (IH fuel b ltac:(eapply below_le; [done|lia]) Hb) as (b1 & E & Hb1 & Hle1 & Hs). rewrite -> E.
    destruct (put_nul_run q eq w b1 Hw Hb1) as (Hb2 & Hle2 & Hc2). exists (put_nul eq b1). split_and!; [done|done|by eapply Htr|].
    intros b3 [|fuel2] Hb3 Hle3 Hf2; cbn in Hf2; [lia|]. cbn [tree_of]. rewrite -> Hp, (Hs b3 fuel2 Hb3 (Htr _ _ _ Hle2 Hle3)) by (eapply below_le; [done|lia]).
    cbn. f_equal. f_equal. eapply cstr_word; [done..|]. eapply closed_le; [|done|exact Hc2]. by rewrite -> (nu_length _ _ Hb2), (nu_length _ _ Hb3).
  - rewrite -> Hp. destruct (IH1 fuel b ltac:(eapply below_le; [done|lia]) Hb) as (b1 & E1 & Hb1 & Hle1 & Hs1). rewrite -> E1.
    destruct (IH2 fuel b1 ltac:(eapply below_le; [done|lia]) Hb1) as (b2 & E2 & Hb2 & Hle2 & Hs2). exists b2. split_and!; [done|done|by eapply Htr|].
    intros b3 [|fuel2] Hb3 Hle3 Hf2; cbn in Hf2; [lia|]. cbn [tree_of].
    rewrite -> Hp, (Hs1 b3 fuel2 Hb3 (Htr _ _ _ Hle2 Hle3)), (Hs2 b3 fuel2 Hb3 Hle3) by (eapply below_le; [done|lia]). done.
  - rewrite -> Hp. destruct (IH1 fuel b ltac:(eapply below_le; [done|lia]) Hb) as (b1 & E1 & Hb1 & Hle1 & Hs1). rewrite -> E1.
    destruct (IH2 fuel b1 ltac:(eapply below_le; [done|lia]) Hb1) as (b2 & E2 & Hb2 & Hle2 & Hs2). exists b2. split_and!; [done|done|by eapply Htr|].
    intros b3 [|fuel2] Hb3 Hle3 Hf2; cbn in Hf2; [lia|]. cbn [tree_of].
    rewrite -> Hp, (Hs1 b3 fuel2 Hb3 (Htr _ _ _ Hle2 Hle3)), (Hs2 b3 fuel2 Hb3 Hle3) by (eapply below_le; [done|lia]). done.
  - rewrite -> Hp. destruct (IH fuel b ltac:(eapply below_le; [done|lia]) Hb) as (b1 & E & Hb1 & Hle1 & Hs). exists b1. split_and!; try done.
    intros b3 [|fuel2] Hb3 Hle3 Hf2; cbn in Hf2; [lia|]. cbn [tree_of]. rewrite -> Hp, (Hs b3 fuel2 Hb3 Hle3) by (eapply below_le; [done|lia]). done.
Qed.
End nul.

(** The language is decidable. *)
Lemma line_decidable ts : Forall tok_ok ts → (∃ t, line ts t) ∨ ∀ t, ¬ line ts t.
Proof.
  intros Hok. destruct (tline (S (length ts)) (4 * length ts + 4) ts) as [t [|r rest]|w s'] eqn:E.
  - left. exists t. destruct (proj1 (parse_sound (S (length ts)) (4 * length ts + 4)) ts t [] Hok E) as (ts1 & -> & Hl). by rewrite -> app_nil_r.
  - right. intros t' Ht. pose proof (proj1 (parse_complete (S (length ts))) ts t' Ht (4 * length ts + 4)%nat []) as Hc. rewrite -> app_nil_r in Hc.
    rewrite -> Hc in E; [done|done|by left|lia|lia].
  - right. intros t' Ht. pose proof (proj1 (parse_complete (S (length ts))) ts t' Ht (4 * length ts + 4)%nat []) as Hc. rewrite -> app_nil_r in Hc.
    rewrite -> Hc in E; [done|done|by left|lia|lia].
Qed.

(** ** [parsecmd] *)

Lemma parsecmd_run (room : nat) (buf : list Z) (ts : list token) :
  Forall (λ c, c ≠ 0) buf → (2 * length buf + 1 ≤ room)%nat → lexes buf ts →
  (∀ t, line ts t → ∃ p H b, parsecmd room buf = Parsed p H b ∧ tree_of (S (length H)) H b p = Some t) ∧
  ((∀ t, ¬ line ts t) → ∃ leftovers msg, parsecmd room buf = SyntaxError leftovers msg).
Proof.
  intros Hnul Hroom HL. pose proof (lexes_length _ _ HL) as Hlen.
  pose proof (lexes_ok _ _ HL) as Hok. unfold parsecmd. set (f := (4 * length buf + 4)%nat).
  assert (view buf (MkPst 0 []) ts) as Hv by (split; [cbn; lia|done]).
  pose proof (proj1 (parse_sim buf Hnul room f) (MkPst 0 []) ts Hv ltac:(unfold roomy; cbn; lia)) as Hsim. split.
  - intros t Ht. pose proof (proj1 (parse_complete (S (length buf))) ts t Ht f []) as Hc. rewrite -> app_nil_r in Hc.
    rewrite -> Hc in Hsim by (done || (by left) || unfold f; lia). destruct Hsim as (p & st & E & [Hp HLs] & _ & HD). rw (bind_ok _ _ _ _ _ E).
    destruct (span_end buf (ps st) Hp HLs) as [Es Ed]. 
    assert (peektok buf [] st = Ok false (set_ps (length buf) st)) as Ep.
    { unfold peektok. rw (bind_ok _ _ _ (ps st) st) //. unfold peek. rewrite -> Es. by destruct (negb (char_at buf (length buf) =? 0)). }
    rw (bind_ok _ _ _ _ _ Ep). cbn [mret M_ret ps set_ps heap]. rewrite -> Nat.eqb_refl. cbn [negb]. pose proof (denotes_below buf _ _ _ HD) as Hb.
    destruct (nulterminate_run buf Hnul _ _ _ HD (S (length (heap st))) buf) as (b & En & Hnb & _ & Htree); [eapply below_le; [done|lia]|split; [done|by left]|].
    rewrite -> En. exists p, (heap st), b. split; [done|]. apply Htree; [done|by intros i|]. eapply below_le; [done|lia].
  - intros Hno. pose proof (proj1 (parse_total (S (length buf)) f ts ltac:(lia)) ltac:(unfold f; lia)) as Htot.
    destruct (tline (S (length buf)) f ts) as [t rest|w s'] eqn:Et.
    + destruct Hsim as (p & st & E & Hvs & _ & _). rw (bind_ok _ _ _ _ _ E). destruct (peektok_run buf Hnul [] st rest Hvs) as (st2 & E2 & [Hp2 HL2] & _).
      rw (bind_ok _ _ _ _ _ E2). cbn [mret M_ret]. destruct (Nat.eqb_spec (ps st2) (length buf)) as [Eps|Hne]; [exfalso|by eexists _, _].
      rewrite -> Eps, drop_ge in HL2 by done. apply lexes_nil_inv in HL2 as ->.
      destruct (proj1 (parse_sound (S (length buf)) f) ts t [] Hok Et) as (ts1 & -> & Hl). rewrite -> app_nil_r in *. by apply (Hno t).
    + destruct Hsim as (st & E). rw (bind_stop _ _ _ _ _ E). destruct w; try done. by eexists _, _.
Qed.

(** ** Properties *)

(** C26: the parser of the shell. For every line the parser ends, with one of
    two results. If the tokens of the line are derived by the grammar of
    commands, [parsecmd] returns nodes that, with the buffer as [nulterminate]
    leaves it, are the tree of the derivation: every argument and file name is
    the C string of its word. If they are not, it prints a syntax error
    and exits. No access leaves the nodes or the array of arguments; the
    memory for the nodes is at most two for each character and one. (The
    buffer is read as a C string: the position behind its last character is its NUL.) *)
Theorem parsecmd_correct (room : nat) (buf : list Z) :
  Forall (λ c, c ≠ 0) buf → (2 * length buf + 1 ≤ room)%nat →
  ∃ ts, lexes buf ts ∧
    (∀ t, line ts t → ∃ p H b, parsecmd room buf = Parsed p H b ∧ tree_of (S (length H)) H b p = Some t) ∧
    ((∀ t, ¬ line ts t) → ∃ leftovers msg, parsecmd room buf = SyntaxError leftovers msg).
Proof.
  intros Hnul Hroom. destruct (lexes_total buf Hnul) as (ts & HL). exists ts. split; [done|]. by apply parsecmd_run.
Qed.

Lemma parsecmd_correct_witness :
  let buf := chars "cat <in | (ls a;wc)>out &" in
  (∃ ts, lexes buf ts ∧ ∀ t, line ts t → ∃ p H b, parsecmd 60 buf = Parsed p H b ∧ tree_of (S (length H)) H b p = Some t) ∧
  match parsecmd 60 buf with
  | Parsed p H b => tree_of (S (length H)) H b p
  | _ => None
  end = Some (BACK (PIPE (REDIR (EXEC [chars "cat"]) (chars "in") O_RDONLY 0)
      (REDIR (LIST (EXEC [chars "ls"; chars "a"]) (EXEC [chars "wc"])) (chars "out") 0x201 1))).
Proof.
  intros buf. split; [|by vm_compute].
  destruct (parsecmd_correct 60 buf) as (ts & HL & Hc & _); [repeat (constructor; [done|]); constructor|cbn; lia|]. by exists ts.
Defined.
