(* ===== verification/ShRun.v ===== *)
(** * sh.c: running commands

    [runcmd], [getcmd] and [main] as programs of system calls, and what they
    do: which programs the shell starts for a command line, with which
    descriptors. *)

From S2P Require Import Prelude Machine Spinlock Console CString ShParse ShGrammar ShCorrect Wc User.

(** ** The code *)

Definition sh_panic (s : list Z) : prog unit :=
  printf 2 (chars "%s" ++ [10]) [AStr (Some s)];;
  Exit.

Definition fork1 : prog Z :=
  pid ← sys CFork;
  (if pid =? -1 then sh_panic (chars "fork") else mret tt);;
  mret pid.

(** [H] and [b]: the nodes and the buffer. [fuel] bounds the depth of the tree. *)
Fixpoint runcmd (fuel : nat) (H : list cnode) (b : list Z) (cmd : cmdp) : prog unit :=
  match cmd with
  | None => Exit
  | Some i =>
      match fuel with
      | O => Wild "runcmd: depth"
      | S fuel =>
          match H !! i with
          | None => Wild "runcmd: cmd"
          | Some (NExec argv) =>
              match argv with
              | [] => Wild "runcmd: argv"
              | None :: _ => Exit
              | Some (q, _) :: _ =>
                  match arg_strings argv b with
                  | None => Wild "runcmd: argv"
                  | Some ws =>
                      sys (CExec (cstr (drop q b)) ws);;
                      printf 2 (chars "exec %s failed" ++ [10]) [AStr (Some (cstr (drop q b)))];;
                      Exit
                  end
              end
          | Some (NRedir c file _ mode fd) =>
              sys (CClose fd);;
              r ← sys (COpen (cstr (drop file b)) mode);
              if r <? 0 then
                printf 2 (chars "open %s failed" ++ [10]) [AStr (Some (cstr (drop file b)))];;
                Exit
              else
              runcmd fuel H b c;;
              Exit
          | Some (NList l r) =>
              pid ← fork1;
              (if pid =? 0 then runcmd fuel H b l else mret tt);;
              sys CWait;;
              runcmd fuel H b r;;
              Exit
          | Some (NPipe l r) =>
              res ← sys CPipe;
              let '(v, (p0, p1)) := res in
              (if v <? 0 then sh_panic (chars "pipe") else mret tt);;
              pid ← fork1;
              (if pid =? 0 then
                 sys (CClose 1);;
                 sys (CDup p1);;
                 sys (CClose p0);;
                 sys (CClose p1);;
                 runcmd fuel H b l
               else mret tt);;
              pid ← fork1;
              (if pid =? 0 then
                 sys (CClose 0);;
                 sys (CDup p0);;
                 sys (CClose p0);;
                 sys (CClose p1);;
                 runcmd fuel H b r
               else mret tt);;
              sys (CClose p0);;
              sys (CClose p1);;
              sys CWait;;
              sys CWait;;
              Exit
          | Some (NBack c) =>
              pid ← fork1;
              (if pid =? 0 then runcmd fuel H b c else mret tt);;
              Exit
          end
      end
  end.

(** [runcmd(parsecmd(buf))]; [room]: the nodes that [malloc] has. *)
Definition run_line (room : nat) (buf : list Z) : prog unit :=
  match parsecmd room buf with
  | Parsed cmd H b => runcmd (S (length H)) H b cmd
  | SyntaxError leftovers msg =>
      match leftovers with
      | Some s => printf 2 (chars "leftovers: %s" ++ [10]) [AStr (Some s)]
      | None => mret tt
      end;;
      sh_panic (chars msg)
  | ShParse.Crash msg => Wild msg
  end.

(** The buffer of 100 bytes, as a string; [None]: -1. *)
Definition getcmd (nbuf : Z) : prog (option (list Z)) :=
  printf 2 (chars "$ ") [];;
  buf ← ugets nbuf;
  if hd 0 buf =? 0 then mret None else mret (Some (cstr buf)).

Definition is_cd (buf : list Z) : bool :=
  (nth 0 buf 0 =? 99) && (nth 1 buf 0 =? 100) && (nth 2 buf 0 =? 32).

(** [while((fd = open("console", O_RDWR)) >= 0) if(fd >= 3){ close(fd); break; }] *)
Fixpoint open_console (n : nat) : prog unit :=
  match n with
  | O => Wild "sh: console"
  | S n =>
      fd ← sys (COpen (chars "console") O_RDWR);
      if fd <? 0 then mret tt else
      if 3 <=? fd then sys (CClose fd);; mret tt else open_console n
  end.

(** The loop of [main] over the commands, [n] of them at most. *)
Fixpoint sh_loop (room n : nat) : prog unit :=
  match n with
  | O => Wild "sh: loop"
  | S n =>
      c ← getcmd 100;
      match c with
      | None => mret tt
      | Some buf =>
          if is_cd buf then
            let path := drop 3 (take (length buf - 1) buf) in
            r ← sys (CChdir path);
            (if r <? 0 then printf 2 (chars "cannot cd %s" ++ [10]) [AStr (Some path)] else mret tt);;
            sh_loop room n
          else
            pid ← fork1;
            (if pid =? 0 then run_line room buf else mret tt);;
            sys CWait;;
            sh_loop room n
      end
  end.

Definition sh_main (room n : nat) : prog unit :=
  open_console 4;;
  sh_loop room n;;
  Exit.

(** ** What the system calls do

    A descriptor stands for something that was open before, for a file that
    was opened, or for an end of a pipe. The log has the programs that were
    started, with their descriptors, and what was written. A child runs before
    its parent goes on. *)

Inductive chan : Type :=
| Inherited (n : nat)
| FileC (path : list Z) (mode : Z)
| PipeR (n : nat)
| PipeW (n : nat).

Abbreviation fdtab := (gmap Z chan).

Inductive event : Type :=
| Started (argv : list (list Z)) (fds : fdtab)
| Wrote (ch : option chan) (bytes : list Z)
| ChangedDir (path : list Z)
| Broken (msg : string).

(** The log, the number of pipes made, and the input of the terminal. *)
Record world : Type := MkWorld { w_log : list event; w_pipes : nat; w_input : list Z }.
Definition log (e : event) (w : world) : world := MkWorld (w_log w ++ [e]) (w_pipes w) (w_input w).

(** The lowest free descriptor. *)
Definition lowest {A} (fds : gmap Z A) : Z := default (-1) (head (filter (λ fd, fds !! fd = None) (seqZ 0 16))).

Section machine.
(** The programs that exist, the files that can be opened and the directories. *)
Context (programs : list Z → bool) (can_open : list Z → Z → bool) (dirs : list Z → bool).

(** The calls that only concern the process. *)
Definition sh_os (c : syscall_) (fds : fdtab) (w : world) : result c * fdtab * world :=
  match c return result c * fdtab * world with
  | CPipe =>
      let p0 := lowest fds in
      let fds := <[p0 := PipeR (w_pipes w)]> fds in
      let p1 := lowest fds in
      ((0, (p0, p1)), <[p1 := PipeW (w_pipes w)]> fds, MkWorld (w_log w) (S (w_pipes w)) (w_input w))
  | CRead fd n =>
      match w_input w with
      | [] => ((0, []), fds, w)
      | x :: l => ((1, [x]), fds, MkWorld (w_log w) (w_pipes w) l)
      end
  | CWrite fd bytes => (Z.of_nat (length bytes), fds, log (Wrote (fds !! fd) bytes) w)
  | CClose fd => (0, delete fd fds, w)
  | COpen path mode => if can_open path mode then (lowest fds, <[lowest fds := FileC path mode]> fds, w) else (-1, fds, w)
  | CDup fd =>
      match fds !! fd with
      | Some ch => (lowest fds, <[lowest fds := ch]> fds, w)
      | None => (-1, fds, w)
      end
  | CChdir path => if dirs path then (0, fds, log (ChangedDir path) w) else (-1, fds, w)
  | CFstat _ => ((-1, MkStat 0 0 0 0 0), fds, w)
  | CWait => (1, fds, w)
  | _ => (-1, fds, w)
  end.

(** [K]: what the process does with the result. *)
Fixpoint interp {A} (p : prog A) (K : A → fdtab → world → world) (fds : fdtab) (w : world) : world :=
  match p with
  | Ret a => K a fds w
  | Exit => w
  | Wild msg => log (Broken msg) w
  | Call c k =>
      match c return (result c → prog A) → world with
      | CFork => λ k, interp (k 1) K fds (interp (k 0) K fds w)
      | CExec path argv => λ k, if programs path then log (Started argv fds) w else interp (k (-1)) K fds w
      | c => λ k, let '(r, fds, w) := sh_os c fds w in interp (k r) K fds w
      end k
  end.

Lemma exec_bind {A B} (p : prog A) (f : A → prog B) K : ∀ fds w,
  interp (p ≫= f) K fds w = interp p (λ a, interp (f a) K) fds w.
Proof.
  induction p as [a|c k IH| |msg]; intros fds w; try done. destruct c; cbn; try apply IH.
  - by rw !IH.
  - destruct (w_input w); apply IH.
  - destruct (programs path); [done|apply IH].
  - destruct (can_open path mode); apply IH.
  - destruct (dirs path); apply IH.
  - destruct (fds !! fd); apply IH.
Qed.

(** ** What a command means *)

Definition std (i o e : chan) : fdtab := {[0 := i; 1 := o; 2 := e]}.

(** [printf] writes its characters one by one. *)
Definition message (ch : chan) (text : list Z) (w : world) : world := foldl (λ w c, log (Wrote (Some ch) [c]) w) w text.

(** The programs that a command starts, and their standard descriptors. *)
Fixpoint plan (c : cmd) (i o e : chan) (w : world) : world :=
  match c with
  | EXEC [] => w
  | EXEC (a :: args) =>
      if programs a then log (Started (a :: args) (std i o e)) w
      else message e (chars "exec " ++ a ++ chars " failed" ++ [10]) w
  | REDIR c f m fd =>
      if can_open f m then
        if fd =? 0 then plan c (FileC f m) o e w else plan c i (FileC f m) e w
      else message e (chars "open " ++ f ++ chars " failed" ++ [10]) w
  | LIST l r => plan r i o e (plan l i o e w)
  | PIPE l r =>
      let n := w_pipes w in
      plan r (PipeR n) o e (plan l i (PipeW n) e (MkWorld (w_log w) (S n) (w_input w)))
  | BACK c => plan c i o e w
  end.

(** Redirections concern the input and the output. *)
Fixpoint redirs_std (c : cmd) : Prop :=
  match c with
  | EXEC _ => True
  | REDIR c _ _ fd => (fd = 0 ∨ fd = 1) ∧ redirs_std c
  | PIPE l r | LIST l r => redirs_std l ∧ redirs_std r
  | BACK c => redirs_std c
  end.

(** ** Lemmas *)

Lemma exec_printf {A} (K : A → fdtab → world → world) (f : unit → prog A) fd fmt args out ch fds w :
  uprintf fmt args = Some out → fds !! fd = Some ch → interp (printf fd fmt args ≫= f) K fds w = interp (f tt) K fds (message ch out w).
Proof.
  intros E Hfd. unfold printf. rewrite -> E. rewrite -> exec_bind. clear E. revert w. induction out as [|c out IH]; intros w; [done|].
  cbn [pfor]. rewrite -> exec_bind. cbn. rewrite -> Hfd. apply IH.
Qed.

(** The descriptors on both sides of a pipe and in the shell. *)
Lemma pipe_fds i o e n : lowest (std i o e) = 3 ∧ lowest (<[3 := PipeR n]> (std i o e)) = 4.
Proof. by vm_compute. Qed.

Lemma left_fds i o e n :
  let fds := delete 1 (<[4 := PipeW n]> (<[3 := PipeR n]> (std i o e))) in
  fds !! 4 = Some (PipeW n) ∧ lowest fds = 1 ∧ delete 4 (delete 3 (<[1 := PipeW n]> fds)) = std i (PipeW n) e.
Proof. by vm_compute. Qed.

Lemma right_fds i o e n :
  let fds := delete 0 (<[4 := PipeW n]> (<[3 := PipeR n]> (std i o e))) in
  fds !! 3 = Some (PipeR n) ∧ lowest fds = 0 ∧ delete 4 (delete 3 (<[0 := PipeR n]> fds)) = std (PipeR n) o e.
Proof. by vm_compute. Qed.

Lemma redir_fds i o e ch :
  (lowest (delete 0 (std i o e)) = 0 ∧ <[0 := ch]> (delete 0 (std i o e)) = std ch o e) ∧
  (lowest (delete 1 (std i o e)) = 1 ∧ <[1 := ch]> (delete 1 (std i o e)) = std i ch e).
Proof. by vm_compute. Qed.

Lemma exec_sys {A} c (f : result c → prog A) K fds w :
  match c with CFork | CExec _ _ => False | _ => True end →
  interp (sys c ≫= f) K fds w = let '(r, fds', w') := sh_os c fds w in interp (f r) K fds' w'.
Proof. destruct c; done. Qed.

Lemma exec_fork1 {A} (f : Z → prog A) K fds w : interp (fork1 ≫= f) K fds w = interp (f 1) K fds (interp (f 0) K fds w).
Proof. reflexivity. Qed.

(** [runcmd] does not return, and starts what the plan says. *)
Lemma runcmd_plan fuel : ∀ H b p c i o e w K, tree_of fuel H b p = Some c → redirs_std c →
  interp (runcmd fuel H b p) K (std i o e) w = plan c i o e w.
Proof.
  induction fuel as [|fuel IH]; intros H b p c i o e w K; [by destruct p|]. destruct p as [p|]; [|done]. cbn [tree_of runcmd].
  destruct (H !! p) as [[argv|cm q eq m fd|l r|l r|cm]|]; [..|done].
  - destruct (arg_strings argv b) as [ws|] eqn:Ea; [|done]. intros [= <-] _. destruct argv as [|[[q eq]|] argv]; [done| |by injection Ea as <-].
    cbn in Ea. destruct (arg_strings argv b) as [ws'|]; [|done]. injection Ea as <-. set (a := cstr (drop q b)). cbn.
    destruct (programs a); [done|]. by rewrite -> (exec_printf K _ _ _ _ (chars "exec " ++ a ++ chars " failed" ++ [10]) e).
  - destruct (tree_of fuel H b cm) as [t|] eqn:Et; [|done]. intros [= <-] [Hfd Ht]. set (f := cstr (drop q b)). destruct (redir_fds i o e (FileC f m)) as [[E0 F0] [E1 F1]].
    cbn [plan]. rewrite -> exec_sys by done. cbn [sh_os]. rewrite -> (exec_sys (COpen f m)) by done. cbn [sh_os].
    destruct (can_open f m).
    + destruct Hfd as [-> | ->]; [rewrite -> E0, F0|rewrite -> E1, F1]; cbn [Z.ltb Z.compare Z.eqb]; rewrite -> exec_bind; by apply IH.
    + cbn [Z.ltb Z.compare]. destruct Hfd as [-> | ->]; by rewrite -> (exec_printf K _ _ _ _ (chars "open " ++ f ++ chars " failed" ++ [10]) e).
  - destruct (tree_of fuel H b l) as [tl|] eqn:El; [|done]. destruct (tree_of fuel H b r) as [tr|] eqn:Er; [|done]. intros [= <-] [Hl Hr]. cbn [plan].
    set (n := w_pipes w). destruct (pipe_fds i o e n) as [P3 P4]. destruct (left_fds i o e n) as (L1 & L2 & L3). destruct (right_fds i o e n) as (R1 & R2 & R3).
    rewrite -> (exec_sys CPipe) by done. cbn [sh_os]. fold n. rewrite -> P3, P4. set (fds := <[4 := PipeW n]> (<[3 := PipeR n]> (std i o e))) in *.
    set (w1 := MkWorld (w_log w) (S n) (w_input w)). cbn [Z.ltb Z.compare].
    assert (∀ K' (g : unit → prog unit) w', interp ((sys (CClose 1);; sys (CDup 4);; sys (CClose 3);; sys (CClose 4);; runcmd fuel H b l) ≫= g) K' fds w' =
      plan tl i (PipeW n) e w') as Hleft.
    { intros K' g w'. rewrite -> exec_bind. do 2 (rewrite -> exec_sys by done; cbn [sh_os]). rewrite -> L1, L2. do 2 (rewrite -> exec_sys by done; cbn [sh_os]). rewrite -> L3. by apply IH. }
    assert (∀ K' (g : unit → prog unit) w', interp ((sys (CClose 0);; sys (CDup 3);; sys (CClose 3);; sys (CClose 4);; runcmd fuel H b r) ≫= g) K' fds w' =
      plan tr (PipeR n) o e w') as Hright.
    { intros K' g w'. rewrite -> exec_bind. do 2 (rewrite -> exec_sys by done; cbn [sh_os]). rewrite -> R1, R2. do 2 (rewrite -> exec_sys by done; cbn [sh_os]). rewrite -> R3. by apply IH. }
    transitivity (interp ((fork1 ≫= λ pid, (if pid =? 0 then sys (CClose 1);; sys (CDup 4);; sys (CClose 3);; sys (CClose 4);; runcmd fuel H b l else mret tt);;
      pid ← fork1; (if pid =? 0 then sys (CClose 0);; sys (CDup 3);; sys (CClose 3);; sys (CClose 4);; runcmd fuel H b r else mret tt);;
      sys (CClose 3);; sys (CClose 4);; sys CWait;; sys CWait;; Exit)) K fds w1); [done|].
    rewrite -> exec_fork1. cbn [Z.eqb]. rewrite -> Hleft. rewrite -> exec_bind. cbn [interp mret prog_ret]. rewrite -> exec_fork1. cbn [Z.eqb]. by rewrite -> Hright.
  - destruct (tree_of fuel H b l) as [tl|] eqn:El; [|done]. destruct (tree_of fuel H b r) as [tr|] eqn:Er; [|done]. intros [= <-] [Hl Hr]. cbn [plan].
    rewrite -> exec_fork1. cbn [Z.eqb]. rewrite -> (exec_bind (runcmd fuel H b l)), (IH H b l tl i o e) by done. rewrite -> exec_bind. cbn [interp mret prog_ret].
    rewrite -> exec_sys by done. cbn [sh_os]. rewrite -> exec_bind. by apply IH.
  - destruct (tree_of fuel H b cm) as [t|] eqn:Et; [|done]. intros [= <-] Ht. cbn [plan]. rewrite -> exec_fork1. cbn [Z.eqb].
    rewrite -> (exec_bind (runcmd fuel H b cm)), (IH H b cm t i o e) by done. done.
Qed.

(** Commands of the grammar redirect descriptors 0 and 1. *)
Abbreviation std_redir := (λ r : redir, r.2 = 0 ∨ r.2 = 1).

Lemma redirs_fds ts rs : redirs ts rs → Forall std_redir rs.
Proof. induction 1; constructor; try done; [by left|by right|by right]. Qed.

Lemma args_fds ts ws rs : args ts ws rs → Forall std_redir rs.
Proof. induction 1 as [|w ts1 rs1 ts2 ws rs2 Hr _ IH]; [constructor|]. apply Forall_app. split; [by eapply redirs_fds|done]. Qed.

Lemma wrap_std rs c : Forall std_redir rs → redirs_std c → redirs_std (wrap rs c).
Proof.
  intros Hr. revert c. induction Hr as [|[[w m] fd] rs Hfd _ IH]; intros c Hc; [done|]. by apply (IH (REDIR c w m fd)).
Qed.

Lemma line_std ts c : line ts c → redirs_std c.
Proof.
  revert ts c. assert (∀ n c, redirs_std c → redirs_std (Nat.iter n BACK c)) as Hit by (intros n c; induction n; done).
  apply (line_mind (λ _ c _, redirs_std c) (λ _ c _, redirs_std c) (λ _ c _, redirs_std c)); try done.
  - intros ts n c _ Hc. by apply Hit.
  - intros ts1 n c1 ts2 c2 _ H1 _ H2. split; [by apply Hit|done].
  - intros ts1 rs1 ts2 ws rs2 Hr Ha _. apply wrap_std; [|done]. apply Forall_app. split; [by eapply redirs_fds|by eapply args_fds].
  - intros ts1 c ts2 rs _ Hc Hr. apply wrap_std; [by eapply redirs_fds|done].
Qed.

(** ** A session *)

Section session.
Context (room : nat) (i o e : chan).

(** What a line does. *)
Inductive line_effect (l : list Z) (w : world) : world → Prop :=
| eff_cd path : l = chars "cd " ++ path ++ [10] →
    line_effect l w (if dirs path then log (ChangedDir path) w else message e (chars "cannot cd " ++ path ++ [10]) w)
| eff_run ts c : is_cd l = false → lexes l ts → line ts c → line_effect l w (plan c i o e w)
| eff_error ts leftovers msg : is_cd l = false → lexes l ts → (∀ c, ¬ line ts c) →
    line_effect l w (message e (chars msg ++ [10])
      (match leftovers with Some s => message e (chars "leftovers: " ++ s ++ [10]) w | None => w end)).

(** A prompt, a line, its effect, and so on up to the end of the input. *)
Inductive session : list (list Z) → world → world → Prop :=
| session_end w : session [] w (message e (chars "$ ") w)
| session_line l ls w w1 w2 :
    line_effect l (let w0 := message e (chars "$ ") w in MkWorld (w_log w0) (w_pipes w0) (drop (length l) (w_input w0))) w1 →
    session ls w1 w2 → session (l :: ls) w w2.

(** A line that fits the buffer. *)
Definition full_line (l : list Z) : Prop :=
  ∃ body, l = body ++ [10] ∧ Forall (λ c, c ≠ 0 ∧ c ≠ 10 ∧ c ≠ 13) body ∧ (length l ≤ 99)%nat.

Lemma message_input ch text w : w_input (message ch text w) = w_input w.
Proof. revert w. induction text as [|c text IH]; intros w; [done|]. change (message ch (c :: text) w) with (message ch text (log (Wrote (Some ch) [c]) w)). by rewrite -> IH. Qed.

Lemma plan_input c : ∀ i o e w, w_input (plan c i o e w) = w_input w.
Proof.
  induction c as [[|a args]|c IH f m fd|l IHl r IHr|l IHl r IHr|c IH]; intros i' o' e' w; cbn [plan]; try done.
  - destruct (programs a); [done|]. apply message_input.
  - destruct (can_open f m); [|apply message_input]. destruct (fd =? 0); apply IH.
  - by rewrite -> IHr, IHl.
  - by rewrite -> IHr, IHl.
Qed.

Lemma effect_input l w w' : line_effect l w w' → w_input w' = w_input w.
Proof.
  destruct 1 as [path|ts c|ts left msg]; [destruct (dirs path); [done|apply message_input]|apply plan_input|].
  rewrite -> message_input. destruct left; [apply message_input|done].
Qed.

(** [gets] reads a line. *)
Lemma exec_ugets {A} (f : list Z → prog A) K fds body rest : ∀ n acc w,
  w_input w = body ++ 10 :: rest → Forall (λ c, c ≠ 0 ∧ c ≠ 10 ∧ c ≠ 13) body → (length body < n)%nat →
  interp (ugets_loop n acc ≫= f) K fds w = interp (f (acc ++ body ++ [10])) K fds (MkWorld (w_log w) (w_pipes w) rest).
Proof.
  induction body as [|c body IH]; intros n acc w Hin Hb Hn; (destruct n as [|n]; cbn in Hn; [lia|]); rewrite -> exec_bind; cbn [ugets_loop];
    rewrite -> (exec_sys (CRead 0 1)) by done; cbn [sh_os]; rewrite -> Hin; cbn [app hd Z.ltb Z.compare Pos.compare Pos.compare_cont].
  - done.
  - apply Forall_cons in Hb as [(_ & H1 & H2) Hb]. rewrite -> (proj2 (Z.eqb_neq _ _) H1), (proj2 (Z.eqb_neq _ _) H2). cbn [orb]. rewrite <- exec_bind.
    rewrite -> (IH n (acc ++ [c]) (MkWorld (w_log w) (w_pipes w) (body ++ 10 :: rest))) by (done || lia). by rewrite <- app_assoc.
Qed.

Lemma exec_ugets_end {A} (f : list Z → prog A) K fds n acc w :
  w_input w = [] → interp (ugets_loop n acc ≫= f) K fds w = interp (f acc) K fds w.
Proof. intros Hin. destruct n as [|n]; [done|]. rewrite -> exec_bind. cbn [ugets_loop]. rewrite -> (exec_sys (CRead 0 1)) by done. cbn [sh_os]. by rewrite -> Hin. Qed.

Lemma full_line_nonul l : full_line l → Forall (λ c, c ≠ 0) l.
Proof. intros (body & -> & Hb & _). apply Forall_app. split; [|by repeat constructor]. eapply Forall_impl; [exact Hb|]. by intros c (? & _). Qed.

Lemma run_line_effect l w K : full_line l → is_cd l = false → (199 ≤ room)%nat →
  ∃ w', line_effect l w w' ∧ interp (run_line room l) K (std i o e) w = w'.
Proof.
  intros Hl Hcd Hroom. pose proof (full_line_nonul l Hl) as Hn. destruct Hl as (body & El & Hb & Hlen). destruct (lexes_total l Hn) as (ts & HL).
  destruct (parsecmd_run room l ts Hn ltac:(lia) HL) as [Hyes Hno]. unfold run_line. destruct (line_decidable ts (lexes_ok _ _ HL)) as [[t Ht]|Hnot].
  - destruct (Hyes t Ht) as (p & H & b & E & Htree). rewrite -> E. exists (plan t i o e w). split; [by eapply eff_run|].
    apply runcmd_plan; [done|]. by eapply line_std.
  - destruct (Hno Hnot) as (left & msg & E). rewrite -> E. eexists. split; [by eapply (eff_error _ _ ts left msg)|].
    destruct left as [s|]; unfold sh_panic.
    + rewrite -> (exec_printf K _ 2 _ _ (chars "leftovers: " ++ s ++ [10]) e) by done. by rewrite -> (exec_printf K _ 2 _ _ (chars msg ++ [10]) e).
    + rewrite -> exec_bind. cbn [interp mret prog_ret]. by rewrite -> (exec_printf K _ 2 _ _ (chars msg ++ [10]) e).
Qed.

Lemma is_cd_line l : full_line l → is_cd l = true → ∃ path, l = chars "cd " ++ path ++ [10].
Proof.
  intros (body & -> & Hb & _). unfold is_cd. destruct body as [|c0 [|c1 [|c2 body]]]; cbn; try done.
  - intros [[_ ?]%andb_true_iff ?]%andb_true_iff. done.
  - intros [_ ?]%andb_true_iff. done.
  - intros [[->%Z.eqb_eq ->%Z.eqb_eq]%andb_true_iff ->%Z.eqb_eq]%andb_true_iff. by exists body.
Qed.

Lemma sh_loop_session ls : ∀ n w K, Forall full_line ls → w_input w = mjoin ls → (length ls < n)%nat → (199 ≤ room)%nat →
  ∃ w', session ls w w' ∧ interp (sh_loop room n) K (std i o e) w = K tt (std i o e) w'.
Proof.
  induction ls as [|l ls IH]; intros n w K Hls Hin Hn Hroom; (destruct n as [|n]; cbn in Hn; [lia|]); cbn [sh_loop].
  - exists (message e (chars "$ ") w). split; [constructor|]. unfold getcmd. rewrite -> exec_bind.
    rewrite -> (exec_printf _ _ 2 _ _ (chars "$ ") e) by done. unfold ugets. rewrite -> exec_ugets_end by (by rewrite -> message_input). done.
  - apply Forall_cons in Hls as [Hl Hls]. pose proof (full_line_nonul l Hl) as Hnz. pose proof Hl as (body & El & Hb & Hlen).
    set (w0 := message e (chars "$ ") w). set (w1 := MkWorld (w_log w0) (w_pipes w0) (drop (length l) (w_input w0))).
    assert (w_input w0 = body ++ 10 :: mjoin ls) as Hin0 by (unfold w0; rewrite -> message_input, Hin, El; cbn; by rewrite <- app_assoc).
    assert (w_input w1 = mjoin ls) as Hin1.
    { change (w_input w1) with (drop (length l) (w_input w0)). rewrite -> Hin0, El. change (10 :: mjoin ls) with ([10] ++ mjoin ls). by rewrite -> app_assoc, drop_app_length. }
    assert (∀ f : option (list Z) → prog unit, interp (getcmd 100 ≫= f) K (std i o e) w = interp (f (Some l)) K (std i o e) w1) as Hget.
    { intros f. unfold getcmd. rewrite -> exec_bind. rewrite -> (exec_printf _ _ 2 _ _ (chars "$ ") e) by done. fold w0. unfold ugets.
      rewrite -> (exec_ugets _ _ _ body (mjoin ls)) by (done || rewrite -> El, length_app in Hlen; cbn in *; lia). cbn [app]. rewrite <- El.
      rewrite -> (cstr_id l Hnz), (proj2 (Z.eqb_neq (hd 0 l) 0)). { by rewrite <- Hin1. } rewrite -> El in Hnz |- *. destruct body; [done|]. by apply Forall_inv in Hnz. }
    rewrite -> Hget. destruct (is_cd l) eqn:Ecd.
    + destruct (is_cd_line l Hl Ecd) as (path & Ep). assert (drop 3 (take (length l - 1) l) = path) as Epath.
      { rewrite -> Ep, app_assoc, length_app. change (length [10]) with 1%nat.
        rewrite -> Nat.add_sub. by rewrite -> take_app_length. }
      rewrite -> Epath, (exec_sys (CChdir path)) by done. pose proof (eff_cd l w1 path Ep) as He. cbn [sh_os]. destruct (dirs path).
      * cbn [Z.ltb Z.compare]. rewrite -> exec_bind. cbn [interp mret prog_ret].
        destruct (IH n (log (ChangedDir path) w1) K Hls Hin1 ltac:(lia) Hroom) as (w' & Hs & E). exists w'. split; [by econstructor|done].
      * cbn [Z.ltb Z.compare]. rewrite -> (exec_printf _ _ 2 _ _ (chars "cannot cd " ++ path ++ [10]) e) by done.
        destruct (IH n (message e (chars "cannot cd " ++ path ++ [10]) w1) K Hls) as (w' & Hs & E); [by rewrite -> message_input|lia|done|].
        exists w'. split; [by econstructor|done].
    + rewrite -> exec_fork1. cbn [Z.eqb]. rewrite -> (exec_bind (run_line room l)).
      destruct (run_line_effect l w1 (λ a, interp (sys CWait;; sh_loop room n) K) Hl Ecd Hroom) as (w2 & He & Er).
      replace (interp (run_line room l) _ (std i o e) w1) with w2 by done. rewrite -> exec_bind. cbn [interp mret prog_ret]. rewrite -> exec_sys by done. cbn [sh_os].
      destruct (IH n w2 K Hls) as (w' & Hs & E); [by rewrite -> (effect_input _ _ _ He)|lia|done|]. exists w'. split; [by econstructor|done].
Qed.

Lemma sh_main_session ls n w : Forall full_line ls → w_input w = mjoin ls → (length ls < n)%nat → (199 ≤ room)%nat →
  session ls w (interp (sh_main room n) (λ _ _ w, w) (std i o e) w).
Proof.
  intros Hls Hin Hn Hroom. unfold sh_main. rewrite -> exec_bind. cbn [open_console]. rewrite -> (exec_sys (COpen (chars "console") O_RDWR)) by done. cbn [sh_os].
  assert (∀ w', w' = w → session ls w (interp (sh_loop room n;; (Exit : prog unit)) (λ _ _ w, w) (std i o e) w')) as Hmain.
  { intros w' ->. rewrite -> exec_bind. destruct (sh_loop_session ls n w (λ a, interp (Exit : prog unit) (λ _ _ w, w)) Hls Hin Hn Hroom) as (w2 & Hs & E).
    by rewrite -> E. }
  destruct (can_open (chars "console") O_RDWR); [|by apply Hmain]. rewrite -> (proj1 (pipe_fds i o e 0)). cbn [Z.ltb Z.leb Z.compare Pos.compare Pos.compare_cont].
  rewrite -> exec_sys by done. cbn [sh_os interp mret prog_ret]. rewrite -> delete_insert_id by (by vm_compute). by apply Hmain.
Qed.
End session.
End machine.

(** ** Properties *)

(** C27: what the shell does. Reading lines that fit its buffer, with a child of
    each [fork] run before the parent goes on, the shell prompts, and then for each line
    changes the directory, or starts exactly the programs of the command that the
    grammar derives from it, each with its arguments and with the three descriptors
    that the pipes and redirections around it give it and no other (no end
    of a pipe is left open in a program), or prints a syntax error when the
    grammar derives nothing; a program or file that does not exist gives its
    message. At the end of the input it exits. *)
Theorem shell_session (programs : list Z → bool) (can_open : list Z → Z → bool) (dirs : list Z → bool)
    (room n : nat) (i o e : chan) (ls : list (list Z)) (w : world) :
  Forall full_line ls → w_input w = mjoin ls → (length ls < n)%nat → (199 ≤ room)%nat →
  session programs can_open dirs i o e ls w
    (interp programs can_open dirs (sh_main room n) (λ _ _ w, w) (std i o e) w).
Proof. apply sh_main_session. Qed.

Lemma shell_session_witness :
  let w := MkWorld [] 0 (chars "a <f|b" ++ [10]) in
  let w' := interp (λ _, true) (λ _ _, true) (λ _, true) (sh_main 199 2) (λ _ _ w, w) (std (Inherited 0) (Inherited 1) (Inherited 2)) w in
  session (λ _, true) (λ _ _, true) (λ _, true) (Inherited 0) (Inherited 1) (Inherited 2) [chars "a <f|b" ++ [10]] w w' ∧
  filter (λ x, match x with Started _ _ => true | _ => false end = true) (w_log w') =
    [Started [chars "a"] (std (FileC (chars "f") O_RDONLY) (PipeW 0) (Inherited 2));
     Started [chars "b"] (std (PipeR 0) (Inherited 1) (Inherited 2))].
Proof.
  split; [|by vm_compute]. apply shell_session; [|done|cbn; lia|lia]. constructor; [|constructor].
  exists (chars "a <f|b"). split; [done|]. split; [repeat (constructor; [by split|]); constructor|cbn; lia].
Defined.
