(* ===== verification/Programs.v ===== *)
(** * The small user programs

    cat, echo, kill, ln, mkdir, rm, ls, init, zombie, forktest, stressfs, ncs,
    prior_lock and the [main] of wc and grep, as programs of system calls. A loop that
    reads to the end of its input gets a number of rounds [n]. *)

From S2P Require Import Prelude Machine Spinlock Console CString Fs Wc Grep User ShParse ShGrammar ShCorrect ShRun.

(** [printf(fd, "...\n")] *)
Definition say (fd : Z) (s : list Z) (args : list carg) : prog unit := printf fd (s ++ [10]) args.

(** ** cat.c *)

Fixpoint cat (n : nat) (fd : Z) : prog unit :=
  match n with
  | O => Wild "cat: loop"
  | S n =>
      r ← sys (CRead fd 512);
      let '(k, bytes) := r in
      if 0 <? k then
        w ← sys (CWrite 1 (take (Z.to_nat k) bytes));
        if negb (w =? k) then say 1 (chars "cat: write error") [];; Exit else
        cat n fd
      else if k <? 0 then say 1 (chars "cat: read error") [];; Exit else mret tt
  end.

(** The loop over the files that [cat], [wc] and [grep] share. *)
Definition each_file (name : list Z) (files : list (list Z)) (body : Z → list Z → prog unit) : prog unit :=
  pfor files (λ f,
    fd ← sys (COpen f 0);
    if fd <? 0 then say 1 (name ++ chars ": cannot open %s") [AStr (Some f)];; Exit else
    body fd f;;
    sys (CClose fd);;
    mret tt).

Definition cat_main (n : nat) (argv : list (list Z)) : prog unit :=
  if Z.of_nat (length argv) <=? 1 then cat n 0;; Exit else
  each_file (chars "cat") (drop 1 argv) (λ fd _, cat n fd);;
  Exit.

(** ** wc.c and grep.c *)

(** [while((n = read(fd, buf, sizeof(buf))) > 0)]: the bytes of the reads and
    the last result. *)
Fixpoint read_all (n : nat) (fd size : Z) (acc : list (list Z)) : prog (list (list Z) * Z) :=
  match n with
  | O => Wild "wc: loop"
  | S n =>
      r ← sys (CRead fd size);
      let '(k, bytes) := r in
      if 0 <? k then read_all n fd size (acc ++ [take (Z.to_nat k) bytes]) else mret (acc, k)
  end.

Definition wc_run (n : nat) (fd : Z) (name : list Z) : prog unit :=
  r ← read_all n fd 512 [];
  let '(reads, last) := r in
  match wc reads last name with
  | Some out => pfor out (putc 1);; (if last <? 0 then Exit else mret tt)
  | None => Wild "wc: printf"
  end.

Definition wc_main (n : nat) (argv : list (list Z)) : prog unit :=
  if Z.of_nat (length argv) <=? 1 then wc_run n 0 [];; Exit else
  each_file (chars "wc") (drop 1 argv) (wc_run n);;
  Exit.

(** The loop over the newlines of [grep]: one [write] for each line that
    matches. *)
Fixpoint grep_write (fuel : nat) (pattern p : list Z) (found : bool) : prog (list Z * bool) :=
  match fuel with
  | O => mret (p, found)
  | S fuel =>
      match strchr p NL with
      | None => mret (p, found)
      | Some q =>
          let line := take (length p - length q) p in
          (if match_ pattern line then sys (CWrite 1 (line ++ [NL]));; mret tt else mret tt);;
          grep_write fuel pattern (drop 1 q) true
      end
  end.

(** [carry]: the first [m] bytes of the buffer. *)
Fixpoint grep_run (n : nat) (pattern carry : list Z) (fd : Z) : prog unit :=
  match n with
  | O => Wild "grep: loop"
  | S n =>
      r ← sys (CRead fd (BUFSIZE - Z.of_nat (length carry) - 1));
      let '(k, bytes) := r in
      if 0 <? k then
        let buf := carry ++ take (Z.to_nat k) bytes in
        r ← grep_write (length buf) pattern buf false;
        let '(rest, found) := r in
        grep_run n pattern (if (found : bool) then rest else []) fd
      else mret tt
  end.

Definition grep_main (n : nat) (argv : list (list Z)) : prog unit :=
  if Z.of_nat (length argv) <=? 1 then say 2 (chars "usage: grep pattern [file ...]") [];; Exit else
  let pattern := nth 1 argv [] in
  if Z.of_nat (length argv) <=? 2 then grep_run n pattern [] 0;; Exit else
  each_file (chars "grep") (drop 2 argv) (λ fd _, grep_run n pattern [] fd);;
  Exit.

(** ** echo.c *)

Fixpoint echo_args (args : list (list Z)) : prog unit :=
  match args with
  | [] => mret tt
  | a :: args =>
      printf 1 (chars "%s%s") [AStr (Some a); AStr (Some (if bool_decide (args = []) then [10] else [32]))];;
      echo_args args
  end.
Definition echo_main (argv : list (list Z)) : prog unit := echo_args (drop 1 argv);; Exit.

(** ** kill.c, ln.c, mkdir.c, rm.c *)

Definition kill_main (argv : list (list Z)) : prog unit :=
  if Z.of_nat (length argv) <? 2 then say 2 (chars "usage: kill pid...") [];; Exit else
  pfor (drop 1 argv) (λ a, sys (CKill (atoi a));; mret tt);;
  Exit.

Definition ln_main (argv : list (list Z)) : prog unit :=
  if negb (Z.of_nat (length argv) =? 3) then say 2 (chars "Usage: ln old new") [];; Exit else
  let a := nth 1 argv [] in let b := nth 2 argv [] in
  r ← sys (CLink a b);
  (if r <? 0 then say 2 (chars "link %s %s: failed") [AStr (Some a); AStr (Some b)] else mret tt);;
  Exit.

(** The loop of [mkdir] and [rm]: one call for each argument, up to the first
    that fails. *)
Fixpoint until_failure (call : list Z → prog Z) (fmt : list Z) (args : list (list Z)) : prog unit :=
  match args with
  | [] => mret tt
  | a :: args =>
      r ← call a;
      if r <? 0 then say 2 fmt [AStr (Some a)] else until_failure call fmt args
  end.

Definition mkdir_main (argv : list (list Z)) : prog unit :=
  if Z.of_nat (length argv) <? 2 then say 2 (chars "Usage: mkdir files...") [];; Exit else
  until_failure (λ a, sys (CMkdir a)) (chars "mkdir: %s failed to create") (drop 1 argv);;
  Exit.

Definition rm_main (argv : list (list Z)) : prog unit :=
  if Z.of_nat (length argv) <? 2 then say 2 (chars "Usage: rm files...") [];; Exit else
  until_failure (λ a, sys (CUnlink a)) (chars "rm: %s failed to delete") (drop 1 argv);;
  Exit.

(** ** ls.c *)

(** The name behind the last slash: [for(p=path+strlen(path); p >= path && *p != '/'; p--); p++;] *)
Fixpoint last_name (path name : list Z) : list Z :=
  match path with
  | [] => name
  | c :: path => if c =? 47 then last_name path path else last_name path name
  end.

Definition fmtname (path : list Z) : list Z :=
  let p := last_name path path in
  if (DIRSIZ <=? length p)%nat then p else p ++ replicate (DIRSIZ - length p) 32.

Definition ls_line (path : list Z) (st : stat_) : prog unit :=
  say 1 (chars "%s %d %d %d") [AStr (Some (fmtname path)); AInt (st_type st); AInt (st_ino st); AInt (st_size st)].

(** The loop over the directory: an entry is its inode number in two bytes and a
    name. *)
Fixpoint ls_entries (n : nat) (fd : Z) (path : list Z) : prog unit :=
  match n with
  | O => Wild "ls: loop"
  | S n =>
      r ← sys (CRead fd 16);
      let '(k, de) := r in
      if negb (k =? 16) then mret tt else
      if nth 0 de 0 + 256 * nth 1 de 0 =? 0 then ls_entries n fd path else
      let buf := path ++ [47] ++ cstr (take DIRSIZ (drop 2 de)) in
      r ← ustat buf;
      let '(v, st) := r in
      if v <? 0 then say 1 (chars "ls: cannot stat %s") [AStr (Some buf)];; ls_entries n fd path else
      ls_line buf st;;
      ls_entries n fd path
  end.

Definition ls (n : nat) (path : list Z) : prog unit :=
  fd ← sys (COpen path 0);
  if fd <? 0 then say 2 (chars "ls: cannot open %s") [AStr (Some path)] else
  r ← sys (CFstat fd);
  let '(v, st) := r in
  if v <? 0 then say 2 (chars "ls: cannot stat %s") [AStr (Some path)];; sys (CClose fd);; mret tt else
  (if st_type st =? T_FILE then ls_line path st
   else if st_type st =? T_DIR then
     if 512 <? Z.of_nat (length path) + 1 + 14 + 1 then say 1 (chars "ls: path too long") []
     else ls_entries n fd path
   else mret tt);;
  sys (CClose fd);;
  mret tt.

Definition ls_main (n : nat) (argv : list (list Z)) : prog unit :=
  if Z.of_nat (length argv) <? 2 then ls n (chars ".");; Exit else
  pfor (drop 1 argv) (ls n);;
  Exit.

(** ** init.c *)

(** [while((wpid=wait()) >= 0 && wpid != pid) printf(1, "zombie!\n");] *)
Fixpoint init_wait (n : nat) (pid : Z) : prog unit :=
  match n with
  | O => Wild "init: wait"
  | S n =>
      wpid ← sys CWait;
      if (0 <=? wpid) && negb (wpid =? pid) then say 1 (chars "zombie!") [];; init_wait n pid else mret tt
  end.

(** [rounds] of the loop that never ends. *)
Fixpoint init_loop (rounds n : nat) : prog unit :=
  match rounds with
  | O => mret tt
  | S rounds =>
      say 1 (chars "init: starting sh") [];;
      pid ← sys CFork;
      (if pid <? 0 then say 1 (chars "init: fork failed") [];; Exit else mret tt);;
      (if pid =? 0 then
         sys (CExec (chars "sh") [chars "sh"]);;
         say 1 (chars "init: exec sh failed") [];;
         Exit
       else mret tt);;
      init_wait n pid;;
      init_loop rounds n
  end.

Definition init_main (rounds n : nat) : prog unit :=
  fd ← sys (COpen (chars "console") O_RDWR);
  (if fd <? 0 then
     sys (CMknod (chars "console") 1 1);;
     sys (COpen (chars "console") O_RDWR);;
     mret tt
   else mret tt);;
  sys (CDup 0);;
  sys (CDup 0);;
  init_loop rounds n.

(** ** zombie.c, forktest.c, stressfs.c, ncs.c *)

Definition zombie_main : prog unit :=
  pid ← sys CFork;
  (if 0 <? pid then sys (CSleep 5);; mret tt else mret tt);;
  Exit.

(** forktest.c has its own [printf], one [write] of the string. *)
Definition fprint (fd : Z) (s : list Z) : prog unit := sys (CWrite fd s);; mret tt.

(** [for(n=0; n<N; n++)]: the value of [n] behind the loop; [k] is [N - n]. *)
Fixpoint fork_loop (k : nat) (n : Z) : prog Z :=
  match k with
  | O => mret n
  | S k =>
      pid ← sys CFork;
      if pid <? 0 then mret n else
      if pid =? 0 then Exit else
      fork_loop k (n + 1)
  end.

(** [for(; n > 0; n--) if(wait() < 0) ...] *)
Fixpoint reap_loop (n : nat) : prog unit :=
  match n with
  | O => mret tt
  | S n =>
      r ← sys CWait;
      if r <? 0 then fprint 1 (chars "wait stopped early" ++ [10]);; Exit else reap_loop n
  end.

Definition forktest : prog unit :=
  fprint 1 (chars "fork test" ++ [10]);;
  n ← fork_loop 1000 0;
  (if n =? 1000 then fprint 1 (chars "fork claimed to work N times!" ++ [10]);; Exit else mret tt);;
  reap_loop (Z.to_nat n);;
  r ← sys CWait;
  (if negb (r =? -1) then fprint 1 (chars "wait got too many" ++ [10]);; Exit else mret tt);;
  fprint 1 (chars "fork test OK" ++ [10]).
Definition forktest_main : prog unit := forktest;; Exit.

(** [for(i = 0; i < 4; i++) if(fork() > 0) break;] *)
Fixpoint stress_forks (k : nat) (i : Z) : prog Z :=
  match k with
  | O => mret i
  | S k =>
      pid ← sys CFork;
      if 0 <? pid then mret i else stress_forks k (i + 1)
  end.

Definition stressfs_main : prog unit :=
  say 1 (chars "stressfs starting") [];;
  let data := replicate 512 97 in
  i ← stress_forks 4 0;
  say 1 (chars "write %d") [AInt i];;
  let path := chars "stressfs" ++ [48 + i] in
  fd ← sys (COpen path (Z.lor O_CREATE O_RDWR));
  pfor (seq 0 20) (λ _, sys (CWrite fd data);; mret tt);;
  sys (CClose fd);;
  say 1 (chars "read") [];;
  fd ← sys (COpen path O_RDONLY);
  pfor (seq 0 20) (λ _, sys (CRead fd 512);; mret tt);;
  sys (CClose fd);;
  sys CWait;;
  Exit.

(** ncs.c: the child goes on with the loop. *)
Definition ncs_main : prog unit :=
  pfor (seqZ 0 5) (λ i,
    pid ← sys CFork;
    if pid =? 0 then pfor (seq 0 2) (λ _, sys (CSleep 1);; mret tt)
    else
      sys CWait;;
      (if i =? 4 then sys CPrintNumSyscalls;; mret tt else mret tt));;
  Exit.

(** ** prior_lock.c *)

Definition prior_lock_main (argv : list (list Z)) : prog unit :=
  if negb (Z.of_nat (length argv) =? 1) then say 2 (chars "not good args : %d!") [AInt (Z.of_nat (length argv))];; Exit else
  pid ← sys CFork;
  (if pid =? 0 then sys CAq;; mret tt
   else
     pid ← sys CFork;
     (if pid =? 0 then sys CAq;; mret tt
      else
        pid ← sys CFork;
        (if pid =? 0 then sys CAq;; mret tt else sys CWait;; mret tt);;
        sys CWait;;
        mret tt);;
     sys CWait;;
     mret tt);;
  Exit.

(** ** What the programs print

    A process with open files [u_open], each with the bytes that are left to
    read, and what it wrote on descriptors 1 and 2. A [read] returns as many
    bytes as are there and fit, as [readi] does; [files] are the regular files. *)

Record ust : Type := MkUst { u_open : gmap Z (list Z); u_out : list Z; u_err : list Z }.

Lemma lowest_free {A} (m : gmap Z A) fd : 0 ≤ fd < 16 → m !! fd = None → 0 ≤ lowest m ∧ m !! lowest m = None.
Proof.
  intros Hfd Hm. unfold lowest. set (l := filter (λ fd, m !! fd = None) (seqZ 0 16)).
  assert (fd ∈ l) as Hin by (apply list_elem_of_filter; split; [done|apply elem_of_seqZ; lia]).
  destruct l as [|x l'] eqn:El; [set_solver|]. assert (x ∈ l) as Hx by (rw El; set_solver).
  apply list_elem_of_filter in Hx as [Hx Hr]. apply elem_of_seqZ in Hr. cbn. split; [lia|done].
Qed.

(** The reads of a file: nothing left, or at least one byte. *)
Lemma take_cases (k : nat) (text : list Z) : (0 < k)%nat →
  (text = [] ∧ take k text = []) ∨ (0 < Z.of_nat (length (take k text)) ∧ (length (drop k text) < length text)%nat).
Proof. intros Hk. destruct text as [|x text]; [left; by rw take_nil|right]. rw length_take length_drop. cbn [length]. lia. Qed.

Lemma take_all (l : list Z) : take (Z.to_nat (Z.of_nat (length l))) l = l.
Proof. rw Nat2Z.id. by apply take_ge. Qed.

Section files.
Context (files : list Z → option (list Z)).

Definition file_os (c : syscall_) (s : ust) : result c * ust :=
  match c return result c * ust with
  | COpen path mode =>
      match files path with
      | Some text => (lowest (u_open s), MkUst (<[lowest (u_open s) := text]> (u_open s)) (u_out s) (u_err s))
      | None => (-1, s)
      end
  | CRead fd n =>
      match u_open s !! fd with
      | Some text =>
          let got := take (Z.to_nat n) text in
          ((Z.of_nat (length got), got), MkUst (<[fd := drop (Z.to_nat n) text]> (u_open s)) (u_out s) (u_err s))
      | None => ((-1, []), s)
      end
  | CWrite fd bytes =>
      (Z.of_nat (length bytes),
       if fd =? 1 then MkUst (u_open s) (u_out s ++ bytes) (u_err s)
       else if fd =? 2 then MkUst (u_open s) (u_out s) (u_err s ++ bytes) else s)
  | CClose fd => (0, MkUst (delete fd (u_open s)) (u_out s) (u_err s))
  | CPipe => ((-1, (-1, -1)), s)
  | CFstat _ => ((-1, MkStat 0 0 0 0 0), s)
  | _ => (-1, s)
  end.

Abbreviation runs p s r s' := (run file_os p s = (r, s')).

(** The bytes of [fd] are read to the end and [out] is printed. *)
Definition consumes (fd : Z) (out : list Z) (s : ust) : ust := MkUst (<[fd := []]> (u_open s)) (u_out s ++ out) (u_err s).

(** What a program prints that does [f] on each file up to the first that
    is not there. *)
Fixpoint each_out (name : list Z) (f : list Z → list Z → list Z) (args : list (list Z)) : list Z :=
  match args with
  | [] => []
  | a :: args =>
      match files a with
      | Some text => f a text ++ each_out name f args
      | None => name ++ chars ": cannot open " ++ a ++ [10]
      end
  end.

Lemma run_puts fd out s :
  run file_os (pfor out (putc fd)) s =
  (Returned tt, if fd =? 1 then MkUst (u_open s) (u_out s ++ out) (u_err s)
                else if fd =? 2 then MkUst (u_open s) (u_out s) (u_err s ++ out) else s).
Proof.
  revert s. induction out as [|c out IH]; intros [m o e]; cbn [pfor].
  - cbn. rw !app_nil_r. by repeat case_match.
  - rw run_bind. cbn [putc]. cbn. rw IH. repeat case_match; cbn; by rw -?app_assoc.
Qed.

Lemma run_read {B} (f : Z * list Z → prog B) fd n s text :
  u_open s !! fd = Some text →
  run file_os (sys (CRead fd n) ≫= f) s =
  run file_os (f (Z.of_nat (length (take (Z.to_nat n) text)), take (Z.to_nat n) text))
    (MkUst (<[fd := drop (Z.to_nat n) text]> (u_open s)) (u_out s) (u_err s)).
Proof. intros E. rw run_sys. cbn [file_os]. by rw E. Qed.

Lemma cat_run n : ∀ fd text s, (length text < n)%nat → u_open s !! fd = Some text →
  run file_os (cat n fd) s = (Returned tt, consumes fd text s).
Proof.
  induction n as [|n IH]; intros fd text s Hn Hfd; [lia|]. cbn [cat]. rewrite -> (run_read _ fd 512 s text Hfd).
  change (Z.to_nat 512) with 512%nat. destruct (take_cases 512 text ltac:(lia)) as [[-> ->]|[Hk Hd]].
  - cbn. unfold consumes. by rw app_nil_r.
  - rewrite -> (proj2 (Z.ltb_lt _ _) Hk). rw take_all run_sys. cbn [file_os fst snd Z.eqb Pos.eqb u_open u_out u_err].
    rw Z.eqb_refl. cbn [negb]. rewrite -> (IH fd (drop 512 text)) by (cbn; rw ?lookup_insert_eq; try done; lia).
    unfold consumes. cbn [u_open u_out u_err]. by rw insert_insert_eq -app_assoc take_drop.
Qed.

Lemma read_all_run n : ∀ fd text acc s, (length text < n)%nat → u_open s !! fd = Some text →
  ∃ reads, mjoin reads = text ∧
    run file_os (read_all n fd 512 acc) s = (Returned (acc ++ reads, 0), consumes fd [] s).
Proof.
  induction n as [|n IH]; intros fd text acc s Hn Hfd; [lia|]. cbn [read_all]. rewrite -> (run_read _ fd 512 s text Hfd).
  change (Z.to_nat 512) with 512%nat. destruct (take_cases 512 text ltac:(lia)) as [[-> ->]|[Hk Hd]].
  - exists []. split; [done|]. cbn. unfold consumes. by rw !app_nil_r.
  - rewrite -> (proj2 (Z.ltb_lt _ _) Hk). rw take_all.
    destruct (IH fd (drop 512 text) (acc ++ [take 512 text]) (MkUst (<[fd := drop 512 text]> (u_open s)) (u_out s) (u_err s)))
      as (reads & Hr & E); [lia|cbn; by rw lookup_insert_eq|].
    exists (take 512 text :: reads). split; [cbn; by rw Hr take_drop|]. rw E -app_assoc. unfold consumes. cbn [u_open u_out u_err app].
    by rw insert_insert_eq.
Qed.

(** The line that [wc] prints. *)
Definition wc_line (name text : list Z) : list Z :=
  uprintint (Z.of_nat (newlines text)) 10 true ++ [32] ++
  uprintint (Z.of_nat (length (words text))) 10 true ++ [32] ++
  uprintint (Z.of_nat (length text)) 10 true ++ [32] ++ name ++ [10].

Lemma wc_run_run n fd name text s : (length text < n)%nat → Z.of_nat (length text) < 2 ^ 31 → u_open s !! fd = Some text →
  run file_os (wc_run n fd name) s = (Returned tt, consumes fd (wc_line name text) s).
Proof.
  intros Hn Ht Hfd. unfold wc_run. rw run_bind. destruct (read_all_run n fd text [] s Hn Hfd) as (reads & Hr & ->).
  cbn [app]. rewrite -> (wc_prints reads 0 name) by (rw ?Hr; lia). rw Hr run_bind run_puts. cbn. unfold consumes. cbn. by rw app_nil_r.
Qed.

Lemma grep_write_run pattern fuel : ∀ p found s,
  run file_os (grep_write fuel pattern p found) s =
  (let '(out, rest, found) := grep_lines fuel pattern p found in
   (Returned (rest, found), MkUst (u_open s) (u_out s ++ out) (u_err s))).
Proof.
  induction fuel as [|fuel IH]; intros p found [m o e]; cbn [grep_write grep_lines]; [cbn; by rw app_nil_r|].
  destruct (strchr p NL) as [q|]; [|cbn; by rw app_nil_r].
  rw run_bind. destruct (match_ pattern _); cbn -[grep_lines grep_write take drop]; rw IH;
    destruct (grep_lines fuel pattern (drop 1 q) true) as [[out rest] found']; cbn; by rw -?app_assoc.
Qed.

Lemma grep_run_run pattern n : ∀ carry fd text s, (length text < n)%nat → Z.of_nat (length carry) + 1 < BUFSIZE →
  Forall (λ x, x ≠ 0) (carry ++ text) → u_open s !! fd = Some text →
  run file_os (grep_run n pattern carry fd) s = (Returned tt, consumes fd (grep_loop n pattern carry text) s).
Proof.
  induction n as [|n IH]; intros carry fd text s Hn Hc H0 Hfd; [lia|]. cbn [grep_run grep_loop].
  rewrite -> (run_read _ fd _ s text Hfd). set (k := Z.to_nat (BUFSIZE - Z.of_nat (length carry) - 1)).
  destruct (take_cases k text ltac:(lia)) as [[-> ->]|[Hk Hd]].
  - cbn. unfold consumes. by rw app_nil_r drop_nil.
  - rewrite -> (proj2 (Z.ltb_lt _ _) Hk). destruct (take k text) as [|x chunk] eqn:Et; [cbn in Hk; lia|]. rw -Et take_all run_bind grep_write_run.
    unfold grep_round. set (buf := carry ++ take k text).
    assert (Forall (λ x, x ≠ 0) buf ∧ Forall (λ x, x ≠ 0) (drop k text)) as [Hb Hr].
    { rw -(take_drop k text) app_assoc in H0. by apply Forall_app in H0. }
    destruct (grep_lines_spec pattern (length buf) buf false Hb (le_n _)) as (rest & -> & _ & Hsuf & Hlen & _).
    cbn [orb]. rewrite -> (IH _ fd (drop k text)); cbn [u_open]; [|lia| | |by rw lookup_insert_eq].
    + unfold consumes. cbn [u_open u_out u_err]. by rw insert_insert_eq -app_assoc.
    + case_bool_decide as Hin; [|cbn; unfold BUFSIZE; lia]. apply Hlen in Hin. unfold buf in Hin. rw length_app length_take in Hin. unfold k in Hin. lia.
    + apply Forall_app. split; [|done]. case_bool_decide; [|constructor]. destruct Hsuf as [l El]. rw El in Hb. by apply Forall_app in Hb as [_ Hb].
Qed.

(** The loop over the files, for a program that reads each file to its end. *)
Lemma each_file_run name f body args :
  (∀ a, uprintf ((name ++ chars ": cannot open %s") ++ [10]) [AStr (Some a)] = Some (name ++ chars ": cannot open " ++ a ++ [10])) →
  (∀ a text fd s, a ∈ args → files a = Some text → u_open s !! fd = Some text →
     run file_os (body fd a) s = (Returned tt, consumes fd (f a text) s)) →
  ∀ s free, 0 ≤ free < 16 → u_open s !! free = None →
  run file_os (each_file name args body;; (Exit : prog unit)) s =
    (Exited, MkUst (u_open s) (u_out s ++ each_out name f args) (u_err s)).
Proof.
  intros Hmsg. induction args as [|a args IH]; intros Hbody s free Hfree Hnone.
  - destruct s as [m o e]. cbn. by rw app_nil_r.
  - destruct (lowest_free (u_open s) free Hfree Hnone) as [Hpos Hlow].
    unfold each_file. cbn [pfor each_out]. rw run_bind run_bind. rewrite -> (run_sys file_os (COpen a 0)). cbn [file_os]. destruct (files a) as [text|] eqn:Ea.
    + cbn [fst snd]. rewrite -> (proj2 (Z.ltb_ge (lowest (u_open s)) 0) Hpos). rw run_bind.
      rewrite -> (Hbody a text) by (try set_solver; cbn; by rw lookup_insert_eq).
      rewrite -> (run_sys file_os (CClose _)). cbn [file_os fst snd consumes u_open u_out u_err run mret prog_ret].
      rw insert_insert_eq delete_insert_id //. fold (each_file name args body). pose proof (run_bind file_os (each_file name args body) (λ _, Exit : prog unit)) as Hb.
      rw -Hb (IH _ _ free) //; [intros; apply Hbody; [set_solver|done..]|]. cbn. by rw -app_assoc.
    + cbn [fst snd]. change (-1 <? 0) with true. cbn iota. unfold say, printf. rw Hmsg run_bind run_puts. destruct s. reflexivity.
Qed.
End files.

(** ** Properties *)

(** C40: [cat], [wc] and [grep] on a list of files do, file by file in the order
    of the arguments, what their names say, up to the first file that cannot be
    opened, which they report: [cat] prints the bytes and [wc] the numbers of
    lines, words and bytes with the name, for files below 2^31 bytes; [grep]
    prints the lines that match, of those that end in a newline, when every
    file is free of NUL bytes and no line has more than 1023 bytes with its
    newline. Every run ends in [exit], with the descriptors it opened closed.
    The system calls are those of [file_os], where a read returns all the bytes
    that are asked for and left, and a write succeeds. *)
Theorem filters_correct (files : list Z → option (list Z)) (n : nat) (prog pattern : list Z) (args : list (list Z)) (s : ust) (free : Z) :
  args ≠ [] → 0 ≤ free < 16 → u_open s !! free = None →
  (∀ a text, a ∈ args → files a = Some text → (length text < n)%nat ∧ Z.of_nat (length text) < 2 ^ 31) →
  let prints out := (Exited, MkUst (u_open s) (u_out s ++ out) (u_err s)) in
  run (file_os files) (cat_main n (prog :: args)) s = prints (each_out files (chars "cat") (λ _ text, text) args) ∧
  run (file_os files) (wc_main n (prog :: args)) s = prints (each_out files (chars "wc") wc_line args) ∧
  ((∀ a text, a ∈ args → files a = Some text → Forall (λ c, c ≠ 0) text ∧ short_lines text) →
   run (file_os files) (grep_main n (prog :: pattern :: args)) s =
     prints (each_out files (chars "grep") (λ _ text, print_matching pattern (lines text)) args)).
Proof.
  intros Hargs Hfree Hnone Hfiles prints. assert (0 < Z.of_nat (length args)) as Hlen by (destruct args; [done|cbn; lia]).
  unfold cat_main, wc_main, grep_main. cbn [length drop nth].
  rewrite -> !(proj2 (Z.leb_gt _ _)) by lia. split_and!.
  - apply each_file_run with (free := free); [done| |done..]. intros a text fd s' Ha Et Ho. destruct (Hfiles a text Ha Et). by apply cat_run.
  - apply each_file_run with (free := free); [done| |done..]. intros a text fd s' Ha Et Ho. destruct (Hfiles a text Ha Et). by apply wc_run_run.
  - intros Hlines. apply each_file_run with (free := free); [done| |done..]. intros a text fd s' Ha Et Ho.
    destruct (Hfiles a text Ha Et) as [Hn1 Hn2], (Hlines a text Ha Et) as [Hz Hs].
    rewrite -> (grep_run_run files pattern n [] fd text) by (try done; cbn; lia).
    rewrite -> (grep_loop_spec pattern n [] text) by (try done; cbn; first [apply not_elem_of_nil|lia]). done.
Qed.

(** A directory with one file [x], and the arguments x and y. *)
Definition ex_files (a : list Z) : option (list Z) := if bool_decide (a = [120]) then Some [97; 10; 98; 10] else None.
Definition ex_ust : ust := MkUst ({[0 := []; 1 := []; 2 := []]} : gmap Z (list Z)) [] [].

Lemma filters_correct_witness :
  u_out (run (file_os ex_files) (cat_main 5 [chars "cat"; [120]; [121]]) ex_ust).2 =
    [97; 10; 98; 10] ++ chars "cat: cannot open y" ++ [10] ∧
  u_out (run (file_os ex_files) (grep_main 5 [chars "grep"; [98]; [120]; [121]]) ex_ust).2 =
    [98; 10] ++ chars "grep: cannot open y" ++ [10].
Proof.
  assert (∀ a text, a ∈ [[120]; [121]] → ex_files a = Some text → text = [97; 10; 98; 10]) as Hx.
  { intros a text _. unfold ex_files. case_bool_decide; [by injection 1 as <-|done]. }
  destruct (filters_correct ex_files 5 (chars "cat") [98] [[120]; [121]] ex_ust 3) as (Hcat & _ & _);
    [done|lia|by vm_compute|intros a text Ha E; rw (Hx a text Ha E); cbn; lia|].
  destruct (filters_correct ex_files 5 (chars "grep") [98] [[120]; [121]] ex_ust 3) as (_ & _ & Hgrep);
    [done|lia|by vm_compute|intros a text Ha E; rw (Hx a text Ha E); cbn; lia|].
  split; [by rw Hcat|]. rewrite -> Hgrep; [by vm_compute|]. intros a text Ha E. rw (Hx a text Ha E).
  split; [by repeat constructor|]. unfold short_lines. vm_compute. by repeat constructor.
Defined.
