(* ===== verification/Umalloc.v ===== *)
(** * The user heap: umalloc.c

    The allocator of Kernighan and Ritchie: a circular list of free blocks in
    the order of their addresses, threaded through the headers in front of
    the blocks. The memory of the process is a map of 32-bit words up to its size
    [brk]; an access beyond it is a fault. Addresses are 32-bit integers, and a
    [Header] has 8 bytes, the word of [s.ptr] and the word of [s.size]. *)

From stdpp Require Import sorting.
From S2P Require Import Prelude Machine.

(** [words], [freep] and the size of the process. *)
Record heapst : Type := MkHeap { words : gmap Z Z; freep : Z; brk : Z }.
Definition set_words (v : gmap Z Z) (s : heapst) : heapst := MkHeap v (freep s) (brk s).
Definition set_freep (v : Z) (s : heapst) : heapst := MkHeap (words s) v (brk s).
Definition set_brk (v : Z) (s : heapst) : heapst := MkHeap (words s) (freep s) v.

Definition word (m : gmap Z Z) (a : Z) : Z := default 0 (m !! a).

Definition ldw (a : Z) : M heapst Z :=
  s ← get;
  if (a <=? 0) || (brk s <? a + 4) then fault "page fault" else mret (word (words s) a).
Definition stw (a v : Z) : M heapst unit :=
  s ← get;
  if (a <=? 0) || (brk s <? a + 4) then fault "page fault" else put (set_words (<[a := v]> (words s)) s).

Definition SIZEOF_HEADER : Z := 8.
(** [p->s.ptr] and [p->s.size] *)
Definition s_ptr (p : Z) : Z := p.
Definition s_size (p : Z) : Z := p + 4.
(** [p + n] for a [Header *p] *)
Definition hadd (p n : Z) : Z := u32 (p + SIZEOF_HEADER * n).

Section heap.
(** The address of [base], and whether the kernel has the memory to grow the
    process from one size to another. *)
Context (base : Z) (grow : Z → Z → bool).

(** The system call [sbrk]: [sys_sbrk], [growproc] and the tests of [allocuvm]
    and [deallocuvm]. The result -1 is 2^32 - 1 as a pointer. *)
Definition sbrk (n : Z) : M heapst Z :=
  old ← gets brk;
  let n := s32 n in
  let new := u32 (old + n) in
  if 0 <? n then
    if KERNBASE <=? new then mret (2 ^ 32 - 1)
    else if new <? old then mret old
    else if grow old new then modify (set_brk new);; mret old
    else mret (2 ^ 32 - 1)
  else if n <? 0 then
    if old <=? new then mret old
    else if new =? 0 then mret (2 ^ 32 - 1)
    else modify (set_brk new);; mret old
  else mret old.

(** The loop of [free]. *)
Fixpoint free_loop (fuel : nat) (bp p : Z) : M heapst Z :=
  match fuel with
  | O => fault "free: loop"
  | S fuel =>
      next ← ldw (s_ptr p);
      if (p <? bp) && (bp <? next) then mret p
      else if (next <=? p) && ((p <? bp) || (bp <? next)) then mret p
      else free_loop fuel bp next
  end.

(** The freed block and the next one, *)
Definition merge_next (bp p : Z) : M heapst unit :=
  next ← ldw (s_ptr p);
  n ← ldw (s_size bp);
  if hadd bp n =? next then
    m ← ldw (s_size next);
    stw (s_size bp) (u32 (n + m));;
    nn ← ldw (s_ptr next);
    stw (s_ptr bp) nn
  else stw (s_ptr bp) next.

(** and the block before it. *)
Definition merge_prev (bp p : Z) : M heapst unit :=
  k ← ldw (s_size p);
  if hadd p k =? bp then
    n ← ldw (s_size bp);
    stw (s_size p) (u32 (k + n));;
    nn ← ldw (s_ptr bp);
    stw (s_ptr p) nn
  else stw (s_ptr p) bp.

Definition free (fuel : nat) (ap : Z) : M heapst unit :=
  let bp := hadd ap (-1) in
  p ← gets freep;
  p ← free_loop fuel bp p;
  merge_next bp p;;
  merge_prev bp p;;
  modify (set_freep p).

Definition morecore (fuel : nat) (nu : Z) : M heapst Z :=
  let nu := if nu <? 4096 then 4096 else nu in
  p ← sbrk (u32 (nu * SIZEOF_HEADER));
  if p =? 2 ^ 32 - 1 then mret 0 else
  stw (s_size p) nu;;
  free fuel (hadd p 1);;
  gets freep.

(** The loop of [malloc]; [steps] is for the loop of [free]. *)
Fixpoint malloc_loop (steps fuel : nat) (nunits prevp p : Z) : M heapst Z :=
  match fuel with
  | O => fault "malloc: loop"
  | S fuel =>
      size ← ldw (s_size p);
      if nunits <=? size then
        p ← (if size =? nunits then
               next ← ldw (s_ptr p);
               stw (s_ptr prevp) next;;
               mret p
             else
               stw (s_size p) (u32 (size - nunits));;
               let p := hadd p (u32 (size - nunits)) in
               stw (s_size p) nunits;;
               mret p);
        modify (set_freep prevp);;
        mret (hadd p 1)
      else
        f ← gets freep;
        if p =? f then
          p ← morecore steps nunits;
          if p =? 0 then mret 0 else
          next ← ldw (s_ptr p);
          malloc_loop steps fuel nunits p next
        else
          next ← ldw (s_ptr p);
          malloc_loop steps fuel nunits p next
  end.

(** [(nbytes + sizeof(Header) - 1)/sizeof(Header) + 1] *)
Definition units (nbytes : Z) : Z := u32 (u32 (nbytes + SIZEOF_HEADER - 1) / SIZEOF_HEADER + 1).

Definition malloc (fuel : nat) (nbytes : Z) : M heapst Z :=
  let nunits := units nbytes in
  f ← gets freep;
  prevp ← (if f =? 0 then
             stw (s_ptr base) base;;
             modify (set_freep base);;
             stw (s_size base) 0;;
             mret base
           else mret f);
  next ← ldw (s_ptr prevp);
  malloc_loop fuel fuel nunits prevp next.
End heap.

(** ** Blocks and the free list

    A block is its address and its size in headers. [seg m L stop]: the words of
    [m] link the blocks [L] one after the other and the last to [stop]. *)

Abbreviation block := (Z * Z)%type.

Definition hd_addr (L : list block) (stop : Z) : Z := match L with [] => stop | b :: _ => b.1 end.

Fixpoint seg (m : gmap Z Z) (L : list block) (stop : Z) : Prop :=
  match L with
  | [] => True
  | b :: L => word m (s_ptr b.1) = hd_addr L stop ∧ word m (s_size b.1) = b.2 ∧ seg m L stop
  end.
Definition ring (m : gmap Z Z) (L : list block) : Prop := seg m L (hd_addr L 0).

(** The bytes of a block; [base] has the size 0 and the bytes of its header. *)
Definition extent (n : Z) : Z := SIZEOF_HEADER * Z.max n 1.
Definition apart (b c : block) : Prop := b.1 + extent b.2 ≤ c.1 ∨ c.1 + extent c.2 ≤ b.1.
(** [b] ends before [c] begins, and they do not touch. *)
Definition before (b c : block) : Prop := b.1 + extent b.2 ≤ c.1 ∧ b.1 + SIZEOF_HEADER * b.2 < c.1.
Definition covers (L : list block) (x : Z) : Prop := ∃ b, b ∈ L ∧ b.1 ≤ x < b.1 + SIZEOF_HEADER * b.2.

(** The heap with the free blocks [L] and the allocated blocks [A]. *)
Record heap_wf (base : Z) (s : heapst) (L : list block) (A : gmap Z Z) : Prop := {
  wf_base : ∃ L', L = (base, 0) :: L' ∧ Forall (λ b, 0 < b.2) L';
  wf_sorted : StronglySorted before L;
  wf_ring : ring (words s) L;
  wf_freep : freep s ∈ L.*1;
  wf_top : Forall (λ b, b.1 + extent b.2 ≤ brk s) L;
  wf_brk : 0 < base ∧ brk s < KERNBASE;
  wf_alloc : ∀ a n, A !! a = Some n →
    0 < n ∧ word (words s) (s_size a) = n ∧ base < a ∧ a + SIZEOF_HEADER * n ≤ brk s ∧ Forall (apart (a, n)) L;
  wf_apart : ∀ a n b m, A !! a = Some n → A !! b = Some m → a ≠ b → apart (a, n) (b, m) }.

Ltac hunf := unfold apart, before in *; unfold extent, s_ptr, s_size, SIZEOF_HEADER, KERNBASE in *; cbn [fst snd] in *.
Ltac hlia := hunf; lia.

Lemma ldw_run a s : 0 < a → a + 4 ≤ brk s → ldw a s = Ok (word (words s) a) s.
Proof. intros H1 H2. unfold ldw. rw bind_run. cbn. rewrite -> (proj2 (Z.leb_gt _ _)), (proj2 (Z.ltb_ge _ _)) by lia. done. Qed.
Lemma stw_run a v s : 0 < a → a + 4 ≤ brk s → stw a v s = Ok tt (set_words (<[a := v]> (words s)) s).
Proof. intros H1 H2. unfold stw. rw bind_run. cbn. rewrite -> (proj2 (Z.leb_gt _ _)), (proj2 (Z.ltb_ge _ _)) by lia. done. Qed.

Lemma word_eq m a v : word (<[a := v]> m) a = v.
Proof. unfold word. by rw lookup_insert_eq. Qed.
Lemma word_ne m a b v : a ≠ b → word (<[a := v]> m) b = word m b.
Proof. intros H. unfold word. by rw lookup_insert_ne. Qed.

Lemma hadd_small p n : 0 ≤ p + 8 * n < 2 ^ 32 → hadd p n = p + 8 * n.
Proof. intros H. unfold hadd, SIZEOF_HEADER. by apply wrapu_small. Qed.

Lemma seg_app m L1 L2 stop : seg m (L1 ++ L2) stop ↔ seg m L1 (hd_addr L2 stop) ∧ seg m L2 stop.
Proof.
  induction L1 as [|b L1 IH]; cbn; [tauto|]. rw IH. destruct L1; cbn; tauto.
Qed.

Lemma seg_frame m m' L stop :
  (∀ b, b ∈ L → word m' (s_ptr b.1) = word m (s_ptr b.1) ∧ word m' (s_size b.1) = word m (s_size b.1)) →
  seg m L stop → seg m' L stop.
Proof.
  induction L as [|b L IH]; cbn; [done|]. intros H (E1 & E2 & E3). destruct (H b) as [-> ->]; [set_solver|].
  split_and!; [done..|]. apply IH; [|done]. intros c Hc. apply H. set_solver.
Qed.

Lemma ring_rotate m L1 L2 : ring m (L1 ++ L2) → ring m (L2 ++ L1).
Proof.
  unfold ring. rw !seg_app. destruct L1 as [|b L1], L2 as [|c L2]; cbn; tauto.
Qed.

Lemma sorted_mid L1 b L2 : StronglySorted before (L1 ++ b :: L2) ↔
  StronglySorted before L1 ∧ StronglySorted before L2 ∧
  (∀ x, x ∈ L1 → before x b) ∧ (∀ y, y ∈ L2 → before b y) ∧ (∀ x y, x ∈ L1 → y ∈ L2 → before x y).
Proof.
  rw StronglySorted_app StronglySorted_cons Forall_forall. split.
  - intros (H1 & H2 & H3 & H4). split_and!; try done; intros; apply H1; set_solver.
  - intros (H1 & H2 & H3 & H4 & H5). split_and!; try done. intros x y Hx Hy. apply elem_of_cons in Hy as [->|Hy]; auto.
Qed.

(** The place of a block in the sorted list. *)
Lemma sorted_place L bp n : StronglySorted before L → Forall (apart (bp, n)) L → hd_addr L bp < bp →
  ∃ L1 p L2, L = L1 ++ p :: L2 ∧ p.1 + extent p.2 ≤ bp ∧ Forall (λ c, bp + extent n ≤ c.1) L2.
Proof.
  induction L as [|b L IH]; cbn [hd_addr]; [lia|]. intros Hs Ha Hlt. apply StronglySorted_cons in Hs as [Hb Hs]. apply Forall_cons in Ha as [Hab Ha].
  assert (b.1 + extent b.2 ≤ bp) as Hle by hlia. destruct L as [|c L].
  - exists [], b, []. by split_and!.
  - destruct (decide (c.1 < bp)) as [Hc|Hc].
    + destruct IH as (L1 & p & L2 & -> & H1 & H2); [done..|]. by exists (b :: L1), p, L2.
    + exists [], b, (c :: L). split_and!; [done..|]. apply StronglySorted_cons in Hs as [Hs _].
      apply Forall_cons in Ha as [Hac _]. rewrite -> Forall_forall in Hs. rw Forall_forall. assert (bp + extent n ≤ c.1) as Hcc by hlia.
      intros x Hx. apply elem_of_cons in Hx as [->|Hx]; [done|]. specialize (Hs x Hx). hlia.
Qed.

(** ** The search of [free] *)

Section search.
Context (base : Z) (s : heapst) (L1 : list block) (p : block) (L2 : list block) (bp : Z).
Hypothesis Hsorted : StronglySorted before (L1 ++ p :: L2).
Hypothesis Hbase : hd_addr (L1 ++ p :: L2) 0 = base.
Hypothesis Hpos : 0 < base.
Hypothesis Hseg : seg (words s) (L1 ++ p :: L2) base.
Hypothesis Htop : Forall (λ b, b.1 + extent b.2 ≤ brk s) (L1 ++ p :: L2).
Hypothesis Hlow : p.1 < bp.
Hypothesis Hhigh : Forall (λ c, bp < c.1) L2.

Lemma node_bounds b : b ∈ L1 ++ p :: L2 → base ≤ b.1 ∧ b.1 + 8 ≤ brk s.
Proof using All.
  intros Hb. pose proof (proj1 (Forall_forall _ _) Htop b Hb) as Ht. cbn beta in Ht. split; [|hlia].
  pose proof Hsorted as Ho. pose proof Hbase as Eb. destruct (L1 ++ p :: L2) as [|c L] eqn:E; [by destruct L1|]. cbn in Eb.
  apply elem_of_cons in Hb as [->|Hb]; [lia|]. apply StronglySorted_cons in Ho as [Hc _]. rewrite -> Forall_forall in Hc. specialize (Hc b Hb). hlia.
Qed.

Lemma free_loop_step fuel X b Y : L1 ++ p :: L2 = X ++ b :: Y →
  free_loop (S fuel) bp b.1 s =
  (let next := hd_addr Y base in
   if (b.1 <? bp) && (bp <? next) then Ok b.1 s
   else if (next <=? b.1) && ((b.1 <? bp) || (bp <? next)) then Ok b.1 s
   else free_loop fuel bp next s).
Proof using All.
  intros E. assert (b ∈ L1 ++ p :: L2) as Hb by (rw E; set_solver). destruct (node_bounds b Hb) as [H1 H2]. pose proof Hseg as Hl. rw E in Hl. apply seg_app in Hl as [_ (E1 & _ & _)].
  cbn [free_loop]. rewrite -> (bind_ok _ _ _ _ _ (ldw_run (s_ptr b.1) s ltac:(hlia) ltac:(hlia))). rw E1. cbv zeta. by repeat case_match.
Qed.

(** From a block up to [p], *)
Lemma free_loop_up Y : ∀ X fuel, L1 = X ++ Y → (length Y < fuel)%nat → free_loop fuel bp (hd_addr (Y ++ [p]) 0) s = Ok p.1 s.
Proof using All.
  induction Y as [|b Y IH]; intros X fuel EX Hf; (destruct fuel as [|fuel]; [cbn in Hf; lia|]); cbn [app hd_addr].
  - rewrite -> (free_loop_step fuel L1 p L2 eq_refl). cbv zeta. rewrite -> (proj2 (Z.ltb_lt _ _) Hlow). cbn [andb orb].
    assert (p ∈ L1 ++ p :: L2) as Hp by set_solver. destruct (node_bounds p Hp). destruct L2 as [|c L]; cbn [hd_addr].
    + by rewrite -> (proj2 (Z.ltb_ge bp base)), (proj2 (Z.leb_le base p.1)) by lia.
    + pose proof Hhigh as Hh. apply Forall_cons in Hh as [Hc _]. by rewrite -> (proj2 (Z.ltb_lt bp c.1)) by lia.
  - assert (L1 ++ p :: L2 = X ++ b :: (Y ++ p :: L2)) as E by (rw EX -app_assoc; done).
    rewrite -> (free_loop_step fuel X b (Y ++ p :: L2) E). cbv zeta.
    assert (hd_addr (Y ++ p :: L2) base = hd_addr (Y ++ [p]) 0) as -> by (by destruct Y).
    assert (b.1 < hd_addr (Y ++ [p]) 0 ≤ p.1) as Hn.
    { pose proof Hsorted as Ho. rw E in Ho. apply sorted_mid in Ho as (_ & Hs & _ & Hb & _). destruct Y as [|c Y]; cbn [app hd_addr].
      - specialize (Hb p ltac:(set_solver)). hlia.
      - pose proof (Hb c ltac:(set_solver)). apply StronglySorted_cons in Hs as [Hc _]. rewrite -> Forall_forall in Hc. specialize (Hc p ltac:(set_solver)). hlia. }
    rewrite -> (proj2 (Z.ltb_ge bp _)), (proj2 (Z.leb_gt _ b.1)) by lia. rw andb_false_r. cbn [andb].
    apply (IH (X ++ [b])); [by rw -app_assoc|cbn in Hf; lia].
Qed.

(** and from a block above [bp] over the end of the list. *)
Lemma free_loop_over Y : ∀ X fuel, L2 = X ++ Y → Y ≠ [] → (length Y + length L1 < fuel)%nat → free_loop fuel bp (hd_addr Y 0) s = Ok p.1 s.
Proof using All.
  induction Y as [|b Y IH]; intros X fuel EX Hne Hf; [done|]. destruct fuel as [|fuel]; [lia|]. cbn [hd_addr].
  assert (L1 ++ p :: L2 = (L1 ++ p :: X) ++ b :: Y) as E by (rw EX -app_assoc; done).
  rewrite -> (free_loop_step fuel _ b Y E). cbv zeta. assert (bp < b.1) as Hb by (apply (proj1 (Forall_forall _ _) Hhigh); rw EX; set_solver).
  rewrite -> (proj2 (Z.ltb_ge b.1 bp)) by lia. cbn [andb orb]. destruct Y as [|c Y].
  - cbn [hd_addr]. destruct (node_bounds p) as [Hp _]; [set_solver|]. rewrite -> (proj2 (Z.ltb_ge bp base)) by lia. rw andb_false_r.
    replace base with (hd_addr (L1 ++ [p]) 0) by (rw -Hbase; by destruct L1). apply (free_loop_up L1 []); [done|cbn in Hf; lia].
  - cbn [hd_addr]. assert (b.1 < c.1) as Hbc.
    { pose proof Hsorted as Ho. rw E in Ho. apply sorted_mid in Ho as (_ & _ & _ & Hs & _). specialize (Hs c ltac:(set_solver)). hlia. }
    rewrite -> (proj2 (Z.leb_gt c.1 b.1)) by lia. cbn [andb]. apply (IH (X ++ [b])); [by rw -app_assoc|done|cbn in *; lia].
Qed.

Lemma free_loop_run fuel q : q ∈ (L1 ++ p :: L2).*1 → (length L1 + length L2 + 1 < fuel)%nat → free_loop fuel bp q s = Ok p.1 s.
Proof using All.
  intros Hq Hf. apply list_elem_of_fmap in Hq as (b & -> & Hb). apply elem_of_app in Hb as [Hb|Hb].
  - apply list_elem_of_split in Hb as (X & Y & E). change b.1 with (hd_addr ((b :: Y) ++ [p]) 0). apply (free_loop_up (b :: Y) X); [done|].
    apply (f_equal length) in E. rw length_app in E. cbn in *. lia.
  - apply elem_of_cons in Hb as [->|Hb].
    + apply (free_loop_up [] L1); [by rw app_nil_r|cbn; lia].
    + apply list_elem_of_split in Hb as (X & Y & E). change b.1 with (hd_addr (b :: Y) 0). apply (free_loop_over (b :: Y) X); [done..|].
      apply (f_equal length) in E. rw length_app in E. cbn in *. lia.
Qed.
End search.

(** ** The two merges of [free] *)

Ltac hcbn := cbn [words set_words brk set_brk freep set_freep].
Ltac ldstep := erewrite bind_ok; [|apply ldw_run; hcbn; hlia]; hcbn.
Ltac ststep := erewrite bind_ok; [|apply stw_run; hcbn; hlia]; hcbn.
Ltac wne := repeat rewrite -> word_ne by hlia; rewrite -> ?word_eq.

Lemma covers_cons b L x : covers (b :: L) x ↔ (b.1 ≤ x < b.1 + SIZEOF_HEADER * b.2) ∨ covers L x.
Proof.
  unfold covers. split.
  - intros (c & Hc & Hx). apply elem_of_cons in Hc as [->|Hc]; [by left|right; by exists c].
  - intros [Hx|(c & Hc & Hx)]; [exists b|exists c]; set_solver.
Qed.

Lemma covers_app L1 L2 x : covers (L1 ++ L2) x ↔ covers L1 x ∨ covers L2 x.
Proof. induction L1 as [|b L1 IH]; cbn [app]; [|rw !covers_cons IH; tauto]. split; [by right|]. intros [(? & ? & _)|H]; [set_solver|done]. Qed.

Lemma merge_next_run base s bp n p L2 :
  0 < base < bp → 0 < n → bp + 8 * n ≤ brk s → brk s < KERNBASE → 0 < p → p + 8 ≤ bp →
  word (words s) (s_ptr p) = hd_addr L2 base → word (words s) (s_size bp) = n → seg (words s) L2 base →
  StronglySorted before L2 → Forall (λ c, bp + extent n ≤ c.1 ∧ 0 < c.2 ∧ c.1 + extent c.2 ≤ brk s) L2 →
  ∃ m n' R, merge_next bp p s = Ok tt (set_words m s) ∧ n ≤ n' ∧ bp + 8 * n' ≤ brk s ∧
    word m (s_ptr bp) = hd_addr R base ∧ word m (s_size bp) = n' ∧ seg m R base ∧ StronglySorted before ((bp, n') :: R) ∧
    (∃ X, L2 = X ++ R) ∧ (∀ x, covers ((bp, n') :: R) x ↔ covers ((bp, n) :: L2) x) ∧
    (∀ x, x ≠ s_ptr bp → x ≠ s_size bp → word m x = word (words s) x).
Proof.
  intros Hbase Hn Hbp Hbrk Hp Hpb Ep En Hseg Hs HL2. unfold merge_next.
  ldstep. ldstep.
  rw Ep En. rewrite -> hadd_small by hlia. destruct (decide (bp + 8 * n = hd_addr L2 base)) as [E|E].
  - rewrite -> (proj2 (Z.eqb_eq _ _) E). destruct L2 as [|c R]; [cbn in E; lia|]. cbn [hd_addr] in *.
    apply Forall_cons in HL2 as [(Hc1 & Hc2 & Hc3) HR]. destruct Hseg as (E1 & E2 & Hseg). apply StronglySorted_cons in Hs as [Hc Hs].
    ldstep. rw E2. rewrite -> (wrapu_small 32) by hlia.
    ststep. ldstep. rewrite -> stw_run by (hcbn; hlia). unfold set_words. hcbn. wne. rw E1.
    eexists _, (n + c.2), R. split_and!; [reflexivity|lia|hlia|by wne|by wne| | |by exists [c]| |].
    + eapply seg_frame; [|done]. intros b Hb. rewrite -> Forall_forall in Hc. specialize (Hc b Hb). split; wne; done.
    + apply StronglySorted_cons. split; [|done]. rewrite -> Forall_forall in Hc |- *. intros b Hb. specialize (Hc b Hb). hlia.
    + intros x. rw !covers_cons. hunf. assert (bp ≤ x < bp + 8 * (n + c.2) ↔ bp ≤ x < bp + 8 * n ∨ c.1 ≤ x < c.1 + 8 * c.2) as -> by lia. tauto.
    + intros x H1 H2. by rewrite -> !word_ne by congruence.
  - rewrite -> (proj2 (Z.eqb_neq _ _) E). rewrite -> stw_run by hlia.
    eexists _, n, L2. split_and!; [reflexivity|lia|lia|by wne|by wne| | |by exists []|done|].
    + eapply seg_frame; [|done]. intros b Hb. rewrite -> Forall_forall in HL2. specialize (HL2 b Hb) as (Hb1 & Hb2 & _). split; wne; done.
    + apply StronglySorted_cons. split; [|done]. destruct L2 as [|c R]; [done|]. apply Forall_cons in HL2 as [(Hc1 & Hc2 & _) _]. cbn in E.
      apply StronglySorted_cons in Hs as [Hc _]. constructor; [hlia|]. rewrite -> Forall_forall in Hc |- *. intros b Hb. specialize (Hc b Hb). hlia.
    + intros x H1 H2. by rewrite -> word_ne by congruence.
Qed.

Lemma merge_prev_run base s bp n p R :
  0 < base → base ≤ p.1 → p.1 + extent p.2 ≤ bp → (p.2 = 0 ∨ 0 < p.2) → 0 < n → bp + 8 * n ≤ brk s → brk s < KERNBASE →
  word (words s) (s_size p.1) = p.2 → word (words s) (s_ptr bp) = hd_addr R base → word (words s) (s_size bp) = n →
  seg (words s) R base → StronglySorted before ((bp, n) :: R) →
  ∃ m k T, merge_prev bp p.1 s = Ok tt (set_words m s) ∧
    seg m ((p.1, k) :: T) base ∧ StronglySorted before ((p.1, k) :: T) ∧ (p.2 = 0 ∧ k = 0 ∨ 0 < p.2 ∧ 0 < k) ∧
    (∃ X, T = X ++ R ∧ (X = [] ∨ X = [(bp, n)])) ∧ p.1 + extent k ≤ brk s ∧
    (∀ x, covers ((p.1, k) :: T) x ↔ covers (p :: (bp, n) :: R) x) ∧
    (∃ b, b ∈ (p.1, k) :: T ∧ n ≤ b.2) ∧
    (∀ x, x ≠ s_ptr p.1 → x ≠ s_size p.1 → word m x = word (words s) x).
Proof.
  intros Hbase Hbp Hpb Hp2 Hn Htop Hbrk Ek E1 E2 Hseg Hs. unfold merge_prev. ldstep. rw Ek. rewrite -> hadd_small by hlia.
  pose proof Hs as Hs'. apply StronglySorted_cons in Hs' as [HR HsR]. rewrite -> Forall_forall in HR.
  assert (∀ m, (∀ x, x ≠ s_ptr p.1 → x ≠ s_size p.1 → word m x = word (words s) x) → seg m R base) as Hframe.
  { intros m Hm. eapply seg_frame; [|done]. intros b Hb. specialize (HR b Hb). split; apply Hm; hlia. }
  destruct (decide (p.1 + 8 * p.2 = bp)) as [E|E].
  - rewrite -> (proj2 (Z.eqb_eq _ _) E). ldstep. rw E2. rewrite -> (wrapu_small 32) by hlia. ststep. ldstep.
    rewrite -> stw_run by (hcbn; hlia). unfold set_words. hcbn. wne. rw E1.
    eexists _, (p.2 + n), R. assert (∀ x, x ≠ s_ptr p.1 → x ≠ s_size p.1 → word (<[s_ptr p.1 := hd_addr R base]> (<[s_size p.1 := p.2 + n]> (words s))) x = word (words s) x) as Hm.
    { intros x H1 H2. by rewrite -> !word_ne by congruence. }
    split_and!; [reflexivity| | |right; hlia|exists []; by auto|hlia| | |done].
    + cbn [seg fst snd]. split_and!; [by wne|by wne|by apply Hframe].
    + apply StronglySorted_cons. split; [|done]. rw Forall_forall. intros b Hb. specialize (HR b Hb). hlia.
    + intros x. rw !covers_cons. hunf. assert (p.1 ≤ x < p.1 + 8 * (p.2 + n) ↔ p.1 ≤ x < p.1 + 8 * p.2 ∨ bp ≤ x < bp + 8 * n) as -> by lia. tauto.
    + exists (p.1, p.2 + n). split; [set_solver|hlia].
  - rewrite -> (proj2 (Z.eqb_neq _ _) E). rewrite -> stw_run by (hcbn; hlia).
    assert (∀ x, x ≠ s_ptr p.1 → x ≠ s_size p.1 → word (<[s_ptr p.1 := bp]> (words s)) x = word (words s) x) as Hm.
    { intros x H1 H2. by rewrite -> !word_ne by congruence. }
    eexists _, p.2, ((bp, n) :: R). split_and!; [reflexivity| | |lia|exists [(bp, n)]; by auto|hlia| | |done].
    + cbn [seg fst snd hd_addr]. split_and!; [by wne|by wne|by wne; rw E1|by wne|by apply Hframe].
    + apply StronglySorted_cons. split; [|done]. constructor; [hlia|]. rw Forall_forall. intros b Hb. specialize (HR b Hb). hlia.
    + intros x. by destruct p.
    + exists (bp, n). split; [set_solver|done].
Qed.

(** ** [free] *)

Lemma apart_covers base L a n : Forall (λ b, 0 < b.2) L → 0 < n →
  Forall (apart (a, n)) ((base, 0) :: L) ↔ apart (a, n) (base, 0) ∧ ∀ x, a ≤ x < a + 8 * n → ¬ covers L x.
Proof.
  intros HL Hn. rw Forall_cons !Forall_forall. rewrite -> Forall_forall in HL. split; (intros [H0 H]; split; [done|]).
  - intros x Hx (b & Hb & Hbx). specialize (H b Hb). specialize (HL b Hb). hlia.
  - intros b Hb. specialize (HL b Hb). cbn beta in HL. destruct (decide (apart (a, n) b)) as [?|Ha]; [done|]. exfalso. apply (H (Z.max a b.1)); [hlia|exists b; split; [done|hlia]].
Qed.

Lemma covers_base base L x : covers ((base, 0) :: L) x ↔ covers L x.
Proof. rw covers_cons. hunf. split; [intros [?|?]; [lia|done]|by right]. Qed.

(** The words of the other allocated blocks stay. *)
Definition keeps (A : gmap Z Z) (s s' : heapst) : Prop :=
  ∀ b m x, A !! b = Some m → b ≤ x → x + 4 ≤ b + SIZEOF_HEADER * m → word (words s') x = word (words s) x.

Lemma wf_seg base s L A : heap_wf base s L A → hd_addr L 0 = base ∧ seg (words s) L base.
Proof. intros H. destruct (wf_base _ _ _ _ H) as (L' & E & _). pose proof (wf_ring _ _ _ _ H) as Hr. unfold ring in Hr. rw E. rw E in Hr. done. Qed.

(** A heap with new free blocks, from what they cover. *)
Lemma heap_wf_alloc base s L A s' L0' A' :
  heap_wf base s L A → A' ⊆ A → brk s ≤ brk s' → keeps A' s s' → Forall (λ b, 0 < b.2) L0' →
  (∀ b m x, A' !! b = Some m → b ≤ x < b + 8 * m → covers L0' x → covers L x) →
  ∀ b m, A' !! b = Some m → 0 < m ∧ word (words s') (s_size b) = m ∧ base < b ∧ b + SIZEOF_HEADER * m ≤ brk s' ∧ Forall (apart (b, m)) ((base, 0) :: L0').
Proof.
  intros H Hsub Hbrk Hkeep HL0 Hcov b m Hb. pose proof (lookup_weaken _ _ _ _ Hb Hsub) as HbA. destruct (wf_alloc _ _ _ _ H b m HbA) as (Hm & Ew & Hbase & Htop & Hap).
  split_and!; [done| |done|lia|].
  - rewrite -> (Hkeep b m); [done|done|hlia|hlia].
  - destruct (wf_base _ _ _ _ H) as (L' & -> & HL'). apply apart_covers in Hap as [Hap0 Hap]; [|done..]. apply apart_covers; [done..|]. split; [done|].
    intros x Hx Hc. apply (Hap x Hx). rw -(covers_base base). by apply (Hcov b m).
Qed.

(** The free block in front of an allocated block and those behind it. *)
Lemma free_place base s L A a n :
  heap_wf base s L A → A !! a = Some n →
  ∃ L1 p L2, L = L1 ++ p :: L2 ∧ base ≤ p.1 ∧ p.1 + extent p.2 ≤ a ∧ (p = (base, 0) ∨ 0 < p.2) ∧
    Forall (λ c, a + extent n ≤ c.1 ∧ 0 < c.2 ∧ c.1 + extent c.2 ≤ brk s) L2 ∧
    (∀ fuel, (length L < fuel)%nat → free_loop fuel a (freep s) s = Ok p.1 s).
Proof.
  intros H Ha. destruct (wf_alloc _ _ _ _ H a n Ha) as (Hn & Ew & Hba & Htop & Hap). destruct (wf_brk _ _ _ _ H) as [Hb0 Hbrk].
  destruct (wf_seg _ _ _ _ H) as [Ehd Hseg]. destruct (wf_base _ _ _ _ H) as (L0 & EL & HL0). pose proof (wf_sorted _ _ _ _ H) as Hsort.
  destruct (sorted_place L a n Hsort Hap) as (L1 & p & L2 & E & Hp & HL2); [rw EL; cbn; lia|].
  pose proof (wf_top _ _ _ _ H) as Hall. pose proof (wf_freep _ _ _ _ H) as Hfp. rw E in Hsort Hseg Hall Hfp Ehd.
  assert (Forall (λ c, a < c.1) L2) as Hhigh by (eapply Forall_impl; [done|intros c Hc; cbn in Hc; hlia]).
  assert (∀ b, b ∈ L → b = (base, 0) ∨ 0 < b.2) as Hsize.
  { intros b Hb. rw EL in Hb. apply elem_of_cons in Hb as [->|Hb]; [by left|right]. rewrite -> Forall_forall in HL0. by apply HL0. }
  exists L1, p, L2. split_and!; [done| |done|apply Hsize; rw E; set_solver| |].
  - apply (node_bounds base s L1 p L2 a); try done; [hlia|set_solver].
  - rewrite -> Forall_forall in HL2, Hall |- *. intros c Hc. split_and!; [by apply HL2| |apply Hall; set_solver].
    destruct (Hsize c ltac:(rw E; set_solver)) as [->|?]; [|done]. specialize (HL2 _ Hc). hlia.
  - intros fuel Hf. apply (free_loop_run base s L1 p L2 a); try done; [hlia|]. apply (f_equal length) in E. rw length_app in E. cbn in E. lia.
Qed.

(** What [free] stores. *)
Lemma free_words base s L A a n fuel :
  heap_wf base s L A → A !! a = Some n → (length L < fuel)%nat →
  ∃ L1 p L2 m k T, L = L1 ++ p :: L2 ∧ free fuel (a + 8) s = Ok tt (set_freep p.1 (set_words m s)) ∧
    (p = (base, 0) ∧ k = 0 ∨ 0 < p.2 ∧ 0 < k) ∧ p.1 + extent p.2 ≤ a ∧ seg m ((p.1, k) :: T) base ∧ StronglySorted before ((p.1, k) :: T) ∧
    Forall (λ b, 0 < b.2 ∧ b.1 + extent b.2 ≤ brk s) T ∧ p.1 + extent k ≤ brk s ∧ (length T ≤ S (length L2))%nat ∧
    (∀ x, covers ((p.1, k) :: T) x ↔ covers (p :: (a, n) :: L2) x) ∧ (∃ b, b ∈ (p.1, k) :: T ∧ n ≤ b.2) ∧
    (∀ x, x ≠ s_ptr p.1 → x ≠ s_size p.1 → x ≠ s_ptr a → x ≠ s_size a → word m x = word (words s) x).
Proof.
  intros H Ha Hfuel. destruct (wf_alloc _ _ _ _ H a n Ha) as (Hn & Ew & Hba & Htop & _). destruct (wf_brk _ _ _ _ H) as [Hb0 Hbrk].
  destruct (free_place base s L A a n H Ha) as (L1 & p & L2 & E & Hpb & Hp & Hp0 & HL2 & Hloop).
  destruct (wf_seg _ _ _ _ H) as [_ Hseg]. pose proof (wf_sorted _ _ _ _ H) as Hsort. rw E in Hseg Hsort.
  apply seg_app in Hseg as [_ (Ep1 & Ep2 & HsegL2)]. apply sorted_mid in Hsort as (_ & HsL2 & _).
  unfold free. rewrite -> hadd_small by hlia. replace (a + 8 + 8 * -1) with a by lia. erewrite bind_ok; [|reflexivity].
  erewrite bind_ok; [|by apply Hloop].
  destruct (merge_next_run base s a n p.1 L2) as (m1 & n1 & R & E1 & Hn1 & Htop1 & W1 & W2 & SR & SortR & (X & EX) & Cov1 & Fr1); try done; try hlia.
  rewrite -> (bind_ok _ _ _ _ _ E1).
  destruct (merge_prev_run base (set_words m1 s) a n1 p R) as (m2 & k & T & E2 & ST & SortT & Hk & (Y & EY & HY) & Htop2 & Cov2 & (b & Hb & Hbn) & Fr2); try done; hcbn; try done.
  { destruct Hp0 as [->|?]; [by left|by right]. }
  { lia. }
  { rw Fr1; hlia. }
  rewrite -> (bind_ok _ _ _ _ _ E2). rw EX in HL2. apply Forall_app in HL2 as [_ HR].
  assert (Forall (λ b, 0 < b.2 ∧ b.1 + extent b.2 ≤ brk s) R) as HR' by (eapply Forall_impl; [exact HR|cbn; tauto]).
  exists L1, p, L2, m2, k, T. split_and!; try done.
  - destruct Hp0 as [->|?]; [left|right]; cbn in *; lia || (split; [done|lia]).
  - rw EY. apply Forall_app. split; [|done]. destruct HY as [->| ->]; repeat constructor; hlia.
  - rw EY EX !length_app. destruct HY as [->| ->]; cbn; lia.
  - intros x. rw Cov2. rewrite -> !(covers_cons p). by rw Cov1.
  - exists b. split; [done|lia].
  - intros x H1 H2 H3 H4. by rw Fr2 // Fr1.
Qed.

Lemma free_run base s L A a n fuel :
  heap_wf base s L A → A !! a = Some n → (length L < fuel)%nat →
  ∃ s' L', free fuel (a + 8) s = Ok tt s' ∧ heap_wf base s' L' (delete a A) ∧ brk s' = brk s ∧
    (∀ x, covers L' x ↔ covers L x ∨ a ≤ x < a + SIZEOF_HEADER * n) ∧ (∃ b, b ∈ L' ∧ n ≤ b.2) ∧
    (length L' ≤ S (length L))%nat ∧ keeps (delete a A) s s'.
Proof.
  intros H Ha Hfuel. destruct (free_words base s L A a n fuel H Ha Hfuel) as (L1 & p & L2 & m & k & T & E & Erun & Hk & Hpa & ST & SortT & HT & Htopk & Hlen & Cov & (b & Hb & Hbn) & Fr).
  destruct (wf_alloc _ _ _ _ H a n Ha) as (Hn & _ & Hba & Htop & _). destruct (wf_seg _ _ _ _ H) as [Ehd Hseg]. destruct (wf_base _ _ _ _ H) as (L0 & EL & HL0).
  pose proof (wf_sorted _ _ _ _ H) as Hsort. pose proof (wf_top _ _ _ _ H) as Hall. rw E in Hseg Hsort Hall Ehd.
  apply seg_app in Hseg as [HsegL1 _]. apply sorted_mid in Hsort as (HsL1 & _ & HL1p & _). apply Forall_app in Hall as [HtopL1 _].
  set (L' := L1 ++ (p.1, k) :: T). set (s' := set_freep p.1 (set_words m s)). apply StronglySorted_cons in SortT as [HpT SortT].
  assert (∃ L0', L' = (base, 0) :: L0' ∧ Forall (λ b, 0 < b.2) L0') as (L0' & EL' & HL0').
  { assert (Forall (λ b, 0 < b.2) T) as HT' by (eapply Forall_impl; [exact HT|cbn; tauto]). unfold L'. destruct L1 as [|c L1].
    - cbn in *. exists T. destruct Hk as [[-> ->]|Hk]; [done|]. rw EL in E. injection E as <- _. cbn in Hk. lia.
    - cbn [app] in *. rw EL in E. injection E as <- E. exists (L1 ++ (p.1, k) :: T). split; [done|]. rw E in HL0. apply Forall_app in HL0 as [HL1' Hp2].
      apply Forall_cons in Hp2 as [Hp2 _]. apply Forall_app. split; [done|]. constructor; [|done]. cbn. destruct Hk as [[-> ->]|Hk]; cbn in *; lia. }
  assert (∀ x, covers L' x ↔ covers L x ∨ a ≤ x < a + SIZEOF_HEADER * n) as HC.
  { intros x. unfold L'. rw E !covers_app Cov !covers_cons. cbn [fst snd]. tauto. }
  assert (keeps (delete a A) s s') as Hkeep.
  { intros c j x Hc Hx1 Hx2. apply lookup_delete_Some in Hc as [Hne Hc]. destruct (wf_alloc _ _ _ _ H c j Hc) as (_ & _ & _ & _ & Hap).
    rewrite -> Forall_forall in Hap. specialize (Hap p ltac:(rw E; set_solver)). pose proof (wf_apart _ _ _ _ H c j a n Hc Ha ltac:(done)). apply Fr; hlia. }
  exists s', L'. split_and!; [done| |done|done| | |done].
  - split; [by exists L0'| | |unfold L'; rw fmap_app; set_solver| |apply H| |].
    + apply sorted_mid. rewrite -> Forall_forall in HpT. split_and!; [done..| | |]; intros x; [intros Hx; specialize (HL1p x Hx); hlia|by apply HpT|].
      intros y Hx Hy. specialize (HL1p x Hx). specialize (HpT y Hy). hlia.
    + unfold ring. replace (hd_addr L' 0) with base by (rw EL'; done). apply seg_app. split; [|done]. eapply seg_frame; [|exact HsegL1].
      intros c Hc. specialize (HL1p c Hc). split; apply Fr; hlia.
    + apply Forall_app. split; [done|]. constructor; [done|]. eapply Forall_impl; [exact HT|cbn; tauto].
    + rw EL'. apply (heap_wf_alloc base s L A); [done|apply delete_subseteq|done|done|done|].
      intros c j x Hc Hx Hcov. rw -(covers_base base) -EL' in Hcov. apply HC in Hcov as [?|Hax]; [done|]. apply lookup_delete_Some in Hc as [Hne Hc].
      pose proof (wf_apart _ _ _ _ H c j a n Hc Ha ltac:(done)). destruct (wf_alloc _ _ _ _ H c j Hc). hlia.
    + intros c j d i Hc Hd. apply lookup_delete_Some in Hc as [_ Hc]. apply lookup_delete_Some in Hd as [_ Hd]. by apply (wf_apart _ _ _ _ H).
  - exists b. unfold L'. split; [set_solver|done].
  - unfold L'. rw E !length_app. cbn. lia.
Qed.

(** ** [malloc] *)

(** A block taken out of the bytes of the free list. *)
Lemma heap_wf_take base s L A s' L' r n :
  heap_wf base s L A → brk s' = brk s → freep s' ∈ L'.*1 → ring (words s') L' → StronglySorted before L' →
  (∃ L0, L' = (base, 0) :: L0 ∧ Forall (λ b, 0 < b.2) L0) → Forall (λ b, b.1 + extent b.2 ≤ brk s) L' →
  keeps A s s' → 0 < n → word (words s') (s_size r) = n → base < r → apart (r, n) (base, 0) → r + SIZEOF_HEADER * n ≤ brk s →
  (∀ x, covers L x ↔ covers L' x ∨ r ≤ x < r + SIZEOF_HEADER * n) → (∀ x, r ≤ x < r + SIZEOF_HEADER * n → ¬ covers L' x) →
  A !! r = None ∧ heap_wf base s' L' (<[r := n]> A).
Proof.
  intros H Hbrk Hfp Hring Hsort (L0' & -> & HL0') Htop Hkeep Hn Hw Hbr Hap Hr HC Hout. destruct (wf_base _ _ _ _ H) as (L0 & EL & HL0).
  assert (∀ c j x, A !! c = Some j → c ≤ x < c + 8 * j → ¬ covers L x) as HA.
  { intros c j x Hc Hx. destruct (wf_alloc _ _ _ _ H c j Hc) as (Hj & _ & _ & _ & Hall). rw EL in Hall. apply apart_covers in Hall as [_ Hall]; [|done..].
    rw EL covers_base. by apply Hall. }
  assert (∀ c j, A !! c = Some j → apart (c, j) (r, n)) as Hnew.
  { intros c j Hc. destruct (wf_alloc _ _ _ _ H c j Hc) as (Hj & _). destruct (decide (apart (c, j) (r, n))) as [?|Hno]; [done|]. exfalso.
    apply (HA c j (Z.max c r) Hc); [hlia|]. apply HC. right. hlia. }
  assert (A !! r = None) as Hfresh.
  { destruct (A !! r) as [j|] eqn:Ej; [|done]. specialize (Hnew r j Ej). destruct (wf_alloc _ _ _ _ H r j Ej). hlia. }
  split; [done|]. split; try done; [by exists L0'|by rw Hbrk|rw Hbrk; apply H| |].
  - intros c j Hc. destruct (decide (c = r)) as [->|Hne].
    + rw lookup_insert_eq in Hc. injection Hc as <-. split_and!; [done..|by rw Hbrk|]. apply apart_covers; [done..|]. split; [done|]. intros x Hx. rw -(covers_base base). by apply Hout.
    + rw lookup_insert_ne // in Hc. apply (heap_wf_alloc base s L A s' L0' A); [done..|by rw Hbrk|done|done| |done]. intros c' j' x Hc' Hx Hcov. apply HC. left. by rw covers_base.
  - intros c j d i Hc Hd Hne. destruct (decide (c = r)) as [->|Hcr], (decide (d = r)) as [->|Hdr]; [done|..];
      rewrite -> ?lookup_insert_eq in *; rewrite -> ?lookup_insert_ne in * by done.
    + injection Hc as <-. specialize (Hnew d i Hd). hlia.
    + injection Hd as <-. by apply Hnew.
    + by apply (wf_apart _ _ _ _ H).
Qed.

(** The result of a successful [malloc]: [r] is the header of the block. *)
Definition malloc_post (base : Z) (s : heapst) (L : list block) (A : gmap Z Z) (n r : Z) (s' : heapst) (L' : list block) : Prop :=
  A !! r = None ∧ heap_wf base s' L' (<[r := n]> A) ∧ keeps A s s' ∧ brk s ≤ brk s' ∧
  (∀ x, covers L' x ∨ r ≤ x < r + SIZEOF_HEADER * n ↔ covers L x ∨ brk s ≤ x < brk s').

Lemma sorted_disjoint X e Y x : StronglySorted before (X ++ e :: Y) →
  e.1 ≤ x < e.1 + SIZEOF_HEADER * e.2 → ¬ covers (X ++ Y) x.
Proof.
  intros Hs Hx (b & Hb & Hbx). apply sorted_mid in Hs as (_ & _ & H1 & H2 & _). apply elem_of_app in Hb as [Hb|Hb]; [specialize (H1 b Hb)|specialize (H2 b Hb)]; hlia.
Qed.

(** Facts on the blocks of a heap. *)
Lemma wf_block base s L A b : heap_wf base s L A → b ∈ L → base ≤ b.1 ∧ 0 ≤ b.2 ∧ b.1 + extent b.2 ≤ brk s.
Proof.
  intros H Hb. pose proof (wf_top _ _ _ _ H) as Ht. rewrite -> Forall_forall in Ht. specialize (Ht b Hb). cbn beta in Ht. destruct (wf_base _ _ _ _ H) as (L0 & E & HL0).
  pose proof (wf_sorted _ _ _ _ H) as Hs. rw E in Hb Hs. apply StronglySorted_cons in Hs as [Hs _]. rewrite -> Forall_forall in Hs, HL0.
  apply elem_of_cons in Hb as [->|Hb]; [cbn in *; lia|]. specialize (Hs b Hb). specialize (HL0 b Hb). hlia.
Qed.

(** The base form of a list with one block [e] of the tail replaced. *)
Lemma base_form base (X : list block) (q e : block) (Y Z' : list block) :
  (∃ L0, X ++ q :: e :: Y = (base, 0) :: L0 ∧ Forall (λ b, 0 < b.2) L0) → Forall (λ b, 0 < b.2) Z' →
  ∃ L0, X ++ q :: Z' ++ Y = (base, 0) :: L0 ∧ Forall (λ b, 0 < b.2) L0.
Proof.
  intros (L0 & E & HL0) HZ. destruct X as [|c X]; cbn [app] in *; injection E as -> <-.
  - exists (Z' ++ Y). split; [done|]. apply Forall_cons in HL0 as [_ HY]. by apply Forall_app.
  - exists (X ++ q :: Z' ++ Y). split; [done|]. apply Forall_app in HL0 as [HX Hq]. apply Forall_cons in Hq as [Hq HY]. apply Forall_cons in HY as [_ HY].
    apply Forall_app. split; [done|]. constructor; [done|]. by apply Forall_app.
Qed.

Section take.
Context (base : Z) (s : heapst) (A : gmap Z Z) (X : list block) (q e : block) (Y : list block) (n : Z).
Abbreviation L := (X ++ q :: e :: Y).
Hypothesis H : heap_wf base s L A.
Hypothesis Hn : 0 < n ≤ e.2.

Lemma take_facts : seg (words s) X q.1 ∧ word (words s) (s_ptr q.1) = e.1 ∧ word (words s) (s_size q.1) = q.2 ∧
  word (words s) (s_ptr e.1) = hd_addr Y base ∧ word (words s) (s_size e.1) = e.2 ∧ seg (words s) Y base ∧
  hd_addr (X ++ [q]) 0 = base ∧ base + 8 ≤ e.1.
Proof using All.
  destruct (wf_seg _ _ _ _ H) as [Eh Hs]. apply seg_app in Hs as [HX (E1 & E2 & E3 & E4 & HY)]. split_and!; try done; [rw -Eh; by destruct X|].
  destruct (wf_base _ _ _ _ H) as (L0 & E & HL0). pose proof (wf_sorted _ _ _ _ H) as Ho. rw E in Ho. apply StronglySorted_cons in Ho as [Ho _].
  assert (e ∈ L0) as He. { destruct X as [|c X']; cbn [app] in E; injection E as _ <-; set_solver. }
  rewrite -> Forall_forall in Ho. specialize (Ho e He). hlia.
Qed.

Lemma take_kept m : (∀ x, word m x = word (words s) x ∨ x = s_ptr q.1 ∨ e.1 ≤ x < e.1 + SIZEOF_HEADER * e.2) → keeps A s (set_freep q.1 (set_words m s)).
Proof using All.
  intros Hm c j x Hc Hx1 Hx2. destruct (wf_alloc _ _ _ _ H c j Hc) as (Hj & _ & _ & _ & Hap). rewrite -> Forall_forall in Hap.
  pose proof (Hap q ltac:(set_solver)). pose proof (Hap e ltac:(set_solver)). hcbn. destruct (Hm x) as [?|[?|?]]; [done|hlia|hlia].
Qed.

(** The block as a whole, *)
Lemma take_whole steps grow fuel : e.2 = n →
  ∃ s', malloc_loop grow steps (S fuel) n q.1 e.1 s = Ok (e.1 + 8) s' ∧ malloc_post base s L A n e.1 s' (X ++ q :: Y).
Proof using All.
  intros En. destruct take_facts as (HX & Eq1 & Eq2 & Ee1 & Ee2 & HY & Ehd & Hbe). destruct (wf_block _ _ _ _ q H ltac:(set_solver)) as (Hq1 & Hq2 & Hq3).
  destruct (wf_block _ _ _ _ e H ltac:(set_solver)) as (He1 & He2 & He3). destruct (wf_brk _ _ _ _ H) as [Hb0 Hbrk].
  cbn [malloc_loop]. ldstep. rw Ee2 En. rw Z.leb_refl Z.eqb_refl. rewrite -> bind_assoc. ldstep. rw bind_assoc. ststep. rw Ee1. erewrite bind_ok; [|reflexivity]. erewrite bind_ok; [|reflexivity].
  rewrite -> hadd_small by hlia. eexists. split; [reflexivity|]. set (m := <[s_ptr q.1 := hd_addr Y base]> (words s)). change (set_freep q.1 _) with (set_freep q.1 (set_words m s)).
  pose proof (wf_sorted _ _ _ _ H) as Hs. assert (StronglySorted before ((X ++ [q]) ++ e :: Y)) as Hs' by (by rw -app_assoc).
  assert (keeps A s (set_freep q.1 (set_words m s))) as Hkeep.
  { apply take_kept. intros x. destruct (decide (x = s_ptr q.1)); [by right; left|left]. by apply word_ne. }
  apply sorted_mid in Hs' as (Hs1 & Hs2 & Hs3 & Hs4 & Hs5). apply sorted_mid in Hs as (HsX & _ & HXq & HqY & _).
  destruct (heap_wf_take base s L A (set_freep q.1 (set_words m s)) (X ++ q :: Y) e.1 n) as [Hfr Hwf]; try done; try hlia.
  - rw fmap_app. set_solver.
  - unfold ring. replace (hd_addr (X ++ q :: Y) 0) with base by (rw -Ehd; by destruct X). hcbn. apply seg_app. split; [|cbn [seg]; unfold m].
    + eapply seg_frame; [|exact HX]. intros b Hb. specialize (HXq b Hb). unfold m. split; apply word_ne; hlia.
    + split_and!; [by wne|by rw word_ne; [hlia|]|]. eapply seg_frame; [|exact HY]. intros b Hb. specialize (HqY b ltac:(set_solver)). split; apply word_ne; hlia.
  - apply sorted_mid. split_and!; [done|done|done|intros y Hy; apply HqY; set_solver|]. intros x y Hx Hy. apply Hs5; set_solver.
  - apply (base_form base X q e Y []); [|done]. apply (wf_base _ _ _ _ H).
  - pose proof (wf_top _ _ _ _ H) as Ht. apply Forall_app in Ht as [HtX Ht]. apply Forall_cons in Ht as [Htq Ht]. apply Forall_cons in Ht as [_ HtY]. apply Forall_app. split; [done|by constructor].
  - hcbn. unfold m. specialize (HqY e ltac:(set_solver)). rewrite -> word_ne by hlia. by rw Ee2.
  - intros x. rw !covers_app !covers_cons En. tauto.
  - intros x Hx. replace (X ++ q :: Y) with ((X ++ [q]) ++ Y) by (by rw -app_assoc). apply (sorted_disjoint _ e); [by apply sorted_mid; split_and!|by rw En].
  - split_and!; [done..|]. intros x. hcbn. rw !covers_app !covers_cons En. split; [tauto|]. intros [?|?]; [tauto|hlia].
Qed.

(** or its end. *)
Lemma take_part steps grow fuel : n < e.2 →
  ∃ s', let k := e.2 - n in
    malloc_loop grow steps (S fuel) n q.1 e.1 s = Ok (e.1 + 8 * k + 8) s' ∧ malloc_post base s L A n (e.1 + 8 * k) s' (X ++ q :: (e.1, k) :: Y).
Proof using All.
  intros En. destruct take_facts as (HX & Eq1 & Eq2 & Ee1 & Ee2 & HY & Ehd & Hbe). destruct (wf_block _ _ _ _ e H ltac:(set_solver)) as (He1 & He2 & He3).
  destruct (wf_block _ _ _ _ q H ltac:(set_solver)) as (Hq1 & Hq2 & Hq3). destruct (wf_brk _ _ _ _ H) as [Hb0 Hbrk]. set (k := e.2 - n).
  assert (e.2 = k + n ∧ 0 < k) as [Ek Hk] by (unfold k; lia). clearbody k.
  cbn [malloc_loop]. ldstep. rw Ee2. rewrite -> (proj2 (Z.leb_le n e.2)), (proj2 (Z.eqb_neq e.2 n)) by lia. replace (e.2 - n) with k by lia. rewrite -> (wrapu_small 32 k) by hlia.
  rewrite -> hadd_small by hlia. rw bind_assoc. ststep. rw bind_assoc. ststep. erewrite bind_ok; [|reflexivity]. erewrite bind_ok; [|reflexivity].
  rewrite -> hadd_small by hlia. eexists. cbv zeta. split; [f_equal; lia|]. set (m := <[s_size (e.1 + 8 * k) := n]> (<[s_size e.1 := k]> (words s))).
  change (set_freep q.1 _) with (set_freep q.1 (set_words m s)).
  assert (∀ x, word m x = word (words s) x ∨ e.1 + 4 ≤ x < e.1 + 8 * e.2) as Hm.
  { intros x. destruct (decide (x = s_size e.1)); [right; hlia|]. destruct (decide (x = s_size (e.1 + 8 * k))); [right; hlia|left]. unfold m. by rewrite -> !word_ne by congruence. }
  assert (keeps A s (set_freep q.1 (set_words m s))) as Hkeep by (apply take_kept; intros x; destruct (Hm x); [by left|right; right; hlia]).
  pose proof (wf_sorted _ _ _ _ H) as Hs. assert (StronglySorted before ((X ++ [q]) ++ e :: Y)) as Hs' by (by rw -app_assoc).
  apply sorted_mid in Hs' as (Hs1 & Hs2 & Hs3 & Hs4 & Hs5).
  assert (∀ b, b ∈ X ++ [q] ∨ b ∈ Y → word m (s_ptr b.1) = word (words s) (s_ptr b.1) ∧ word m (s_size b.1) = word (words s) (s_size b.1)) as Hother.
  { intros b Hb. assert (before b e ∨ before e b) as Hbe' by (destruct Hb as [Hb|Hb]; [left; by apply Hs3|right; by apply Hs4]).
    split; [destruct (Hm (s_ptr b.1))|destruct (Hm (s_size b.1))]; try done; exfalso; hlia. }
  destruct (heap_wf_take base s L A (set_freep q.1 (set_words m s)) (X ++ q :: (e.1, k) :: Y) (e.1 + 8 * k) n) as [Hfr Hwf]; try done; try hlia.
  - rw fmap_app. set_solver.
  - unfold ring. replace (hd_addr (X ++ q :: (e.1, k) :: Y) 0) with base by (rw -Ehd; by destruct X). hcbn. apply seg_app. split; [|cbn [seg hd_addr fst snd]].
    + eapply seg_frame; [|exact HX]. intros b Hb. apply Hother. left. set_solver.
    + destruct (Hother q ltac:(left; set_solver)) as [-> ->]. split_and!; [done|done| |unfold m; rewrite -> word_ne by hlia; by rw word_eq|].
      * destruct (Hm (s_ptr e.1)) as [->|?]; [done|hlia].
      * eapply seg_frame; [|exact HY]. intros b Hb. apply Hother. by right.
  - replace (X ++ q :: (e.1, k) :: Y) with ((X ++ [q]) ++ (e.1, k) :: Y) by (by rw -app_assoc). apply sorted_mid.
    split_and!; [done|done|intros x Hx; specialize (Hs3 x Hx); hlia|intros y Hy; specialize (Hs4 y Hy); hlia|done].
  - apply (base_form base X q e Y [(e.1, k)]); [apply (wf_base _ _ _ _ H)|by constructor].
  - pose proof (wf_top _ _ _ _ H) as Ht. apply Forall_app in Ht as [HtX Ht]. apply Forall_cons in Ht as [Htq Ht]. apply Forall_cons in Ht as [_ HtY].
    apply Forall_app. split; [done|]. constructor; [done|]. constructor; [hlia|done].
  - hcbn. unfold m. by rw word_eq.
  - intros x. rw !covers_app !covers_cons Ek. hunf. assert (e.1 ≤ x < e.1 + 8 * (k + n) ↔ e.1 ≤ x < e.1 + 8 * k ∨ e.1 + 8 * k ≤ x < e.1 + 8 * k + 8 * n) as -> by lia. tauto.
  - intros x Hx. rw covers_app !covers_cons. intros Hc. apply (sorted_disjoint (X ++ [q]) e Y x); [by apply sorted_mid; split_and!|hlia|].
    rw !covers_app covers_cons. hunf. destruct Hc as [?|[?|[?|?]]]; [tauto|tauto|lia|tauto].
  - split_and!; [done..|]. intros x. hcbn. rw !covers_app !covers_cons Ek. hunf.
    assert (e.1 ≤ x < e.1 + 8 * (k + n) ↔ e.1 ≤ x < e.1 + 8 * k ∨ e.1 + 8 * k ≤ x < e.1 + 8 * k + 8 * n) as -> by lia. split; [tauto|]. intros [?|?]; [tauto|lia].
Qed.
End take.

Lemma malloc_take base s A X q e Y n steps grow fuel :
  heap_wf base s (X ++ q :: e :: Y) A → 0 < n ≤ e.2 →
  ∃ r s' L', malloc_loop grow steps (S fuel) n q.1 e.1 s = Ok (r + 8) s' ∧ malloc_post base s (X ++ q :: e :: Y) A n r s' L'.
Proof.
  intros H Hn. destruct (decide (e.2 = n)) as [E|E].
  - destruct (take_whole base s A X q e Y n H Hn steps grow fuel E) as (s' & E1 & E2). by eexists _, _, _.
  - destruct (take_part base s A X q e Y n H Hn steps grow fuel ltac:(lia)) as (s' & E1 & E2). by eexists _, _, _.
Qed.

(** The loop passes the blocks that are too small. *)
Lemma malloc_scan grow steps fuel n s stop : ∀ P1 prev C1 q P2,
  prev :: P1 = C1 ++ [q] → seg (words s) (P1 ++ P2) stop →
  Forall (λ c, c.2 < n ∧ c.1 ≠ freep s ∧ 0 < c.1 ∧ c.1 + 8 ≤ brk s) P1 →
  malloc_loop grow steps (length P1 + fuel) n prev.1 (hd_addr (P1 ++ P2) stop) s = malloc_loop grow steps fuel n q.1 (hd_addr P2 stop) s.
Proof.
  induction P1 as [|c P1 IH]; intros prev C1 q P2 E Hseg HP.
  - destruct C1 as [|d C1]; [by injection E as ->|]. injection E as _ E. by destruct C1.
  - apply Forall_cons in HP as [(H1 & H2 & H3 & H4) HP]. destruct C1 as [|d C1]; [done|]. injection E as <- E. destruct Hseg as (E1 & E2 & Hseg).
    cbn [app length Nat.add hd_addr malloc_loop]. ldstep. rw E2. rewrite -> (proj2 (Z.leb_gt n c.2)) by lia. erewrite bind_ok; [|reflexivity].
    rewrite -> (proj2 (Z.eqb_neq _ _) H2). ldstep. rw E1. by apply (IH c C1).
Qed.

Lemma first_fit (n : Z) (V : list block) :
  (∃ V1 e V2, V = V1 ++ e :: V2 ∧ Forall (λ c, c.2 < n) V1 ∧ n ≤ e.2) ∨ Forall (λ c, c.2 < n) V.
Proof.
  induction V as [|c V IH]; [by right|]. destruct (decide (n ≤ c.2)); [left; by exists [], c, V|].
  destruct IH as [(V1 & e & V2 & -> & H1 & H2)|H]; [left|right; constructor; [lia|done]]. exists (c :: V1), e, V2. split_and!; [done|constructor; [lia|done]|done].
Qed.

Lemma snoc_cases {A} (x : A) (l : list A) : ∃ C q, x :: l = C ++ [q].
Proof. induction l as [|y l (C & q & E)] using rev_ind; [by exists [], x|]. by exists (x :: l), y. Qed.

(** The block that fits and the one before it are neighbours in the list. *)
Lemma neighbours (base : Z) (L1 : list block) (b : block) (L2 P1 : list block) (e : block) (P2 C1 : list block) (q : block) (n : Z) :
  (∃ L0, L1 ++ b :: L2 = (base, 0) :: L0) → 0 < n ≤ e.2 → L2 ++ L1 ++ [b] = P1 ++ e :: P2 → b :: P1 = C1 ++ [q] →
  ∃ X Y, L1 ++ b :: L2 = X ++ q :: e :: Y.
Proof.
  intros (L0 & E0) Hn EP EC. apply app_eq_inv in EP as [(K & EK1 & EK2)|(K & EK1 & EK2)].
  - destruct K as [|k K].
    + (* [e] is the first of [L1 ++ [b]] *)
      exfalso. cbn in EK2. destruct L1 as [|c L1]; cbn [app] in *; [injection E0 as -> _; injection EK2 as -> _|injection E0 as -> _; injection EK2 as -> _]; cbn in Hn; lia.
    + injection EK2 as <- EK2. exists (L1 ++ C1), K. rw EK1. rw -app_assoc. f_equal. change (b :: P1 ++ e :: K) with ((b :: P1) ++ e :: K). rw EC -app_assoc. done.
  - destruct (snoc_cases b P1) as (C & q' & E'). destruct K as [|k K] using rev_ind.
    + exfalso. cbn in EK2. destruct L1 as [|c L1]; cbn [app] in *; injection EK2 as <- _; injection E0 as -> _; cbn in Hn; lia.
    + assert (q = k) as ->. { rw EK1 app_assoc app_comm_cons in EC. by apply app_inj_tail in EC as [_ ->]. }
      clear IHK. destruct P2 as [|z P2 _] using rev_ind.
      * rw -(app_nil_r L1) in EK2. assert (L1 = K ++ [k] ∧ b = e) as [-> ->] by (rw app_nil_r in EK2; change [e] with [e] in EK2; apply app_inj_tail in EK2; done).
        exists K, L2. by rw -app_assoc.
      * rw app_comm_cons app_assoc in EK2. apply app_inj_tail in EK2 as [-> _]. exists K, (P2 ++ b :: L2). by rw -!app_assoc.
Qed.

(** The cycle from [freep]. *)
Lemma wf_cycle base s L A : heap_wf base s L A →
  ∃ L1 b L2, L = L1 ++ b :: L2 ∧ freep s = b.1 ∧ seg (words s) (b :: L2 ++ L1) b.1 ∧
    Forall (λ c, c.1 ≠ freep s ∧ 0 < c.1 ∧ c.1 + 8 ≤ brk s) (L2 ++ L1).
Proof.
  intros H. pose proof (wf_freep _ _ _ _ H) as Hf. apply list_elem_of_fmap in Hf as (b & Eb & Hb). apply list_elem_of_split in Hb as (L1 & L2 & E).
  exists L1, b, L2. pose proof (wf_ring _ _ _ _ H) as Hr. pose proof (wf_sorted _ _ _ _ H) as Hs. rw E in Hr Hs. apply ring_rotate in Hr.
  split_and!; [done..|exact Hr|]. apply sorted_mid in Hs as (_ & _ & H1 & H2 & _). rw Forall_forall. intros c Hc.
  destruct (wf_block _ _ _ _ c H ltac:(rw E; set_solver)) as (Hc1 & Hc2 & Hc3). destruct (wf_brk _ _ _ _ H) as [Hb0 _].
  split_and!; [|lia|hlia]. rw Eb. apply elem_of_app in Hc as [Hc|Hc]; [specialize (H2 c Hc)|specialize (H1 c Hc)]; hlia.
Qed.

Lemma malloc_first {B} base s L A (f : Z → M heapst B) : heap_wf base s L A → ∃ next, word (words s) (s_ptr (freep s)) = next ∧ (ldw (s_ptr (freep s)) ≫= f) s = f next s.
Proof.
  intros H. pose proof (wf_freep _ _ _ _ H) as Hf. apply list_elem_of_fmap in Hf as (b & Eb & Hb). destruct (wf_block _ _ _ _ b H Hb) as (H1 & H2 & H3).
  destruct (wf_brk _ _ _ _ H) as [Hb0 _]. eexists. split; [reflexivity|]. rw Eb. by ldstep.
Qed.

Lemma malloc_fits base grow steps s L A n fuel :
  heap_wf base s L A → 0 < n → (∃ b, b ∈ L ∧ n ≤ b.2) → (length L < fuel)%nat →
  ∃ r s' L', (next ← ldw (s_ptr (freep s)); malloc_loop grow steps fuel n (freep s) next) s = Ok (r + 8) s' ∧ malloc_post base s L A n r s' L'.
Proof.
  intros H Hn (x & Hx & Hfit) Hf. destruct (malloc_first base s L A (λ next, malloc_loop grow steps fuel n (freep s) next) H) as (next & Enext & ->).
  destruct (wf_cycle base s L A H) as (L1 & b & L2 & E & Ef & (Eb1 & Eb2 & Hseg) & Hall). rw Ef Eb1 in Enext. subst next.
  destruct (first_fit n (L2 ++ L1 ++ [b])) as [(P1 & e & P2 & EP & HP1 & He)|Hnone].
  2: { rewrite -> Forall_forall in Hnone. specialize (Hnone x ltac:(rw E in Hx; set_solver)). cbn beta in Hnone. lia. }
  destruct (snoc_cases b P1) as (C1 & q & EC). destruct (wf_base _ _ _ _ H) as (L0 & EL & _).
  destruct (neighbours base L1 b L2 P1 e P2 C1 q n) as (X & Y & EXY); [exists L0; by rw -E|lia|done|done|].
  assert (length P1 < length L)%nat as Hlen. { apply (f_equal length) in EP. rw E. rw !length_app in EP. rw length_app. cbn in *. lia. }
  rw Ef. assert (∃ P2', L2 ++ L1 = P1 ++ P2' ∧ hd_addr P2' b.1 = e.1) as (P2' & EP' & Ee).
  { destruct P2 as [|z P2 _] using rev_ind.
    - rw app_assoc in EP. apply app_inj_tail in EP as [-> ->]. exists []. by rw app_nil_r.
    - rw app_assoc app_comm_cons app_assoc in EP. apply app_inj_tail in EP as [-> _]. by exists (e :: P2). }
  rw EP' in Hseg Hall. apply Forall_app in Hall as [Hall _]. rw EP'.
  replace fuel with (length P1 + S (fuel - length P1 - 1))%nat by lia. rewrite -> (malloc_scan grow steps _ n s b.1 P1 b C1 q P2' EC Hseg).
  - rw Ee E EXY. apply malloc_take; [by rw -EXY -E|lia].
  - rewrite -> Forall_forall in HP1, Hall |- *. intros c Hc. split; [by apply HP1|by apply Hall].
Qed.

Lemma malloc_none base grow steps s L A n fuel :
  heap_wf base s L A → Forall (λ b, b.2 < n) L →
  (next ← ldw (s_ptr (freep s)); malloc_loop grow steps (length L + fuel) n (freep s) next) s =
  (p ← morecore grow steps n; if p =? 0 then mret 0 else next ← ldw (s_ptr p); malloc_loop grow steps fuel n p next) s.
Proof.
  intros H Hsmall. destruct (malloc_first base s L A (λ next, malloc_loop grow steps (length L + fuel) n (freep s) next) H) as (next & Enext & ->).
  destruct (wf_cycle base s L A H) as (L1 & b & L2 & E & Ef & (Eb1 & Eb2 & Hseg) & Hall). rw Ef Eb1 in Enext. subst next.
  destruct (snoc_cases b (L2 ++ L1)) as (C1 & q & EC). rw Ef.
  assert (length L + fuel = length (L2 ++ L1) + S fuel)%nat as -> by (rw E !length_app; cbn; lia).
  assert (b ∈ L) as Hb by (rw E; set_solver). destruct (wf_block _ _ _ _ b H Hb) as (H1 & H2 & H3). destruct (wf_brk _ _ _ _ H) as [Hb0 _].
  pose proof (malloc_scan grow steps (S fuel) n s b.1 (L2 ++ L1) b C1 q [] EC) as Hscan. rw app_nil_r in Hscan. rw Hscan //.
  - rewrite -> Forall_forall in Hsmall, Hall |- *. intros c Hc. split; [apply Hsmall; rw E; set_solver|by apply Hall].
  - cbn [hd_addr malloc_loop]. ldstep. rw Eb2. rewrite -> Forall_forall in Hsmall. specialize (Hsmall b Hb). cbn beta in Hsmall. rewrite -> (proj2 (Z.leb_gt n b.2)) by lia.
    erewrite bind_ok; [|reflexivity]. by rw Ef Z.eqb_refl.
Qed.

(** ** [morecore] *)

Lemma heap_wf_grow base s L A nu : heap_wf base s L A → 0 < nu → brk s + 8 * nu < KERNBASE →
  let s' := set_words (<[s_size (brk s) := nu]> (words s)) (set_brk (brk s + 8 * nu) s) in
  A !! brk s = None ∧ heap_wf base s' L (<[brk s := nu]> A) ∧ keeps A s s'.
Proof.
  intros H Hnu Htop s'. destruct (wf_brk _ _ _ _ H) as [Hb0 Hbrk].
  assert (A !! brk s = None) as Hfresh. { destruct (A !! brk s) as [j|] eqn:Ej; [|done]. destruct (wf_alloc _ _ _ _ H _ _ Ej) as (? & _ & _ & ? & _). hlia. }
  assert (keeps A s s') as Hkeep. { intros c j x Hc Hx1 Hx2. destruct (wf_alloc _ _ _ _ H _ _ Hc) as (? & _ & _ & ? & _). unfold s'. hcbn. apply word_ne. hlia. }
  assert (∀ b, b ∈ L → base ≤ b.1 ∧ 0 ≤ b.2 ∧ b.1 + extent b.2 ≤ brk s) as Hblk by (intros b Hb; by apply (wf_block _ _ _ _ b H)).
  destruct (wf_base _ _ _ _ H) as (L0 & EL & HL0). split_and!; [done| |done]. split; try apply H.
  - unfold ring. eapply seg_frame; [|apply (wf_ring _ _ _ _ H)]. intros b Hb. specialize (Hblk b Hb). unfold s'. hcbn. split; apply word_ne; hlia.
  - rw Forall_forall. intros b Hb. specialize (Hblk b Hb). unfold s'. hcbn. hlia.
  - unfold s'. hcbn. hlia.
  - intros c j Hc. destruct (decide (c = brk s)) as [->|Hne].
    + rw lookup_insert_eq in Hc. injection Hc as <-. unfold s'. hcbn. specialize (Hblk (base, 0) ltac:(rw EL; set_solver)) as Hbase.
      split_and!; [done|by rw word_eq|hlia|hlia|]. rw Forall_forall. intros b Hb. specialize (Hblk b Hb). hlia.
    + rw lookup_insert_ne // in Hc. destruct (wf_alloc _ _ _ _ H c j Hc) as (H1 & H2 & H3 & H4 & H5). split_and!; [done| |done| |done].
      * rewrite -> (Hkeep c j); [done|done|hlia|hlia].
      * unfold s'. hcbn. hlia.
  - intros c j d i Hc Hd Hne. destruct (decide (c = brk s)) as [->|Hcr], (decide (d = brk s)) as [->|Hdr]; [done|..];
      rewrite -> ?lookup_insert_eq in *; rewrite -> ?lookup_insert_ne in * by done.
    + injection Hc as <-. destruct (wf_alloc _ _ _ _ H d i Hd) as (? & _ & _ & ? & _). hlia.
    + injection Hd as <-. destruct (wf_alloc _ _ _ _ H c j Hc) as (? & _ & _ & ? & _). hlia.
    + by apply (wf_apart _ _ _ _ H).
Qed.

(** The kernel does not give the memory for [n] units. *)
Definition refused (grow : Z → Z → bool) (s : heapst) (n : Z) : Prop :=
  let new := brk s + SIZEOF_HEADER * Z.max n 4096 in KERNBASE ≤ new ∨ grow (brk s) new = false.

Lemma morecore_run base grow steps s L A n :
  heap_wf base s L A → 0 < n → SIZEOF_HEADER * n < 2 ^ 31 → (length L < steps)%nat →
  (refused grow s n ∧ morecore grow steps n s = Ok 0 s) ∨
  (∃ s' L', morecore grow steps n s = Ok (freep s') s' ∧ heap_wf base s' L' A ∧ brk s ≤ brk s' ∧
    (∀ x, covers L' x ↔ covers L x ∨ brk s ≤ x < brk s') ∧ (∃ b, b ∈ L' ∧ n ≤ b.2) ∧ (length L' ≤ S (length L))%nat ∧ keeps A s s').
Proof.
  intros H Hn Hsmall Hf. destruct (wf_brk _ _ _ _ H) as [Hb0 Hbrk]. destruct (wf_base _ _ _ _ H) as (L0 & EL & _).
  destruct (wf_block _ _ _ _ (base, 0) H ltac:(rw EL; set_solver)) as (_ & _ & Hbb).
  unfold morecore, refused. set (nu := Z.max n 4096). assert ((if n <? 4096 then 4096 else n) = nu) as -> by (unfold nu; case_bool; lia).
  assert (n ≤ nu ∧ 0 < nu ∧ 8 * nu < 2 ^ 31) as (Hnu1 & Hnu2 & Hnu3) by (unfold nu; hlia). clearbody nu. unfold SIZEOF_HEADER.
  rewrite -> (wrapu_small 32) by lia. unfold sbrk. rw bind_assoc. erewrite bind_ok; [|reflexivity]. cbv zeta.
  rewrite -> (wraps_small 32), (wrapu_small 32) by hlia. rewrite -> (proj2 (Z.ltb_lt 0 (nu * 8))) by lia. replace (brk s + nu * 8) with (brk s + 8 * nu) by lia.
  destruct (decide (KERNBASE ≤ brk s + 8 * nu)) as [Hk|Hk]; [left; split; [by left|]; by rewrite -> (proj2 (Z.leb_le _ _) Hk)|].
  rewrite -> (proj2 (Z.leb_gt _ _)), (proj2 (Z.ltb_ge _ _)) by lia. destruct (grow (brk s) (brk s + 8 * nu)) eqn:Eg; [right|left; split; [by right|done]].
  rw bind_assoc. erewrite bind_ok; [|reflexivity]. erewrite bind_ok; [|reflexivity]. rewrite -> (proj2 (Z.eqb_neq _ _)) by hlia. ststep.
  destruct (heap_wf_grow base s L A nu H Hnu2 ltac:(lia)) as (Hfresh & Hwf & Hkeep). set (s1 := set_words _ _) in *.
  destruct (free_run base s1 L (<[brk s := nu]> A) (brk s) nu steps Hwf ltac:(by rw lookup_insert_eq) Hf) as (s2 & L2 & E2 & Hwf2 & Hb2 & HC2 & (b & Hb & Hbn) & Hlen & Hkeep2).
  rewrite -> delete_insert_id in Hwf2, Hkeep2 by done. rewrite -> hadd_small by hlia. replace (brk s + 8 * 1) with (brk s + 8) by lia.
  rewrite -> (bind_ok _ _ _ _ _ E2). exists s2, L2. split_and!; [done|done|rw Hb2; unfold s1; hcbn; lia| |exists b; split; [done|lia]|done|].
  - intros x. rw HC2 Hb2. unfold s1. hcbn. hunf. done.
  - intros c j x Hc Hx1 Hx2. rewrite -> (Hkeep2 c j) by done. by apply (Hkeep c j).
Qed.

(** ** [malloc] as a whole *)

Lemma units_small nbytes : 0 ≤ nbytes < 2 ^ 31 - 16 →
  0 < units nbytes ∧ SIZEOF_HEADER * units nbytes < 2 ^ 31 ∧ nbytes ≤ SIZEOF_HEADER * (units nbytes - 1).
Proof. intros H. unfold units, SIZEOF_HEADER. rewrite -> (wrapu_small 32 (nbytes + 8 - 1)) by lia. rewrite -> (wrapu_small 32) by dlia. dlia. Qed.

Lemma malloc_found base grow steps s L A n fuel :
  heap_wf base s L A → 0 < n → SIZEOF_HEADER * n < 2 ^ 31 → (length L < steps)%nat → (2 * length L + 1 < fuel)%nat →
  let run := (next ← ldw (s_ptr (freep s)); malloc_loop grow steps fuel n (freep s) next) s in
  (refused grow s n ∧ run = Ok 0 s) ∨ (∃ r s' L', run = Ok (r + 8) s' ∧ malloc_post base s L A n r s' L').
Proof.
  intros H Hn Hsmall Hsteps Hf run. destruct (first_fit n L) as [(P1 & e & P2 & EP & _ & He)|Hnone].
  - right. apply malloc_fits; [done..| |lia]. exists e. split; [rw EP; set_solver|done].
  - unfold run. replace fuel with (length L + (fuel - length L))%nat by lia. rewrite -> (malloc_none base grow steps s L A n) by done.
    destruct (morecore_run base grow steps s L A n H Hn Hsmall Hsteps) as [[Href E]|(s1 & L1 & E & Hwf & Hbrk & HC & Hfit & Hlen & Hkeep)].
    + left. split; [done|]. by rewrite -> (bind_ok _ _ _ _ _ E).
    + right. rewrite -> (bind_ok _ _ _ _ _ E). assert (freep s1 ≠ 0) as Hf0.
      { pose proof (wf_freep _ _ _ _ Hwf) as Hin. apply list_elem_of_fmap in Hin as (b & -> & Hb). destruct (wf_block _ _ _ _ b Hwf Hb). destruct (wf_brk _ _ _ _ Hwf). lia. }
      rewrite -> (proj2 (Z.eqb_neq _ _) Hf0). destruct (malloc_fits base grow steps s1 L1 A n (fuel - length L) Hwf Hn Hfit ltac:(lia)) as (r & s' & L' & E' & Hfr & Hwf' & Hkeep' & Hbrk' & HC').
      exists r, s', L'. split; [done|]. split_and!; [done|done| |lia|].
      * intros c j x Hc Hx1 Hx2. rewrite -> (Hkeep' c j) by done. by apply (Hkeep c j).
      * intros x. rw HC' HC. split; [intros [[?|?]|?]; [by left|right; lia|right; lia]|]. intros [?|?]; [by left; left|]. destruct (decide (x < brk s1)); [left; right; lia|right; lia].
Qed.

(** ** The program and its blocks *)

(** The program has written to the blocks it owns, behind their headers. *)
Definition scribbled (A : gmap Z Z) (s s' : heapst) : Prop :=
  freep s' = freep s ∧ brk s' = brk s ∧
  ∀ x, word (words s') x = word (words s) x ∨ ∃ a n, A !! a = Some n ∧ a + SIZEOF_HEADER ≤ x < a + SIZEOF_HEADER * n.

Lemma scribbled_wf base s s' L A : heap_wf base s L A → scribbled A s s' → heap_wf base s' L A.
Proof.
  intros H (Ef & Eb & Hw).
  assert (∀ c x, c ∈ L → c.1 ≤ x < c.1 + 8 → word (words s') x = word (words s) x) as HL.
  { intros c x Hc Hx. destruct (Hw x) as [?|(a & n & Ha & Hax)]; [done|]. destruct (wf_alloc _ _ _ _ H a n Ha) as (_ & _ & _ & _ & Hap).
    rewrite -> Forall_forall in Hap. specialize (Hap c Hc). hlia. }
  destruct H as [H1 H2 H3 H4 H5 H6 H7 H8]. split; [done|done| |by rw Ef|by rw Eb|by rw Eb| |done].
  - unfold ring. eapply seg_frame; [|exact H3]. intros b Hb. split; apply (HL b); [done|hlia|done|hlia].
  - intros a n Ha. destruct (H7 a n Ha) as (Hn & Ew & Hb & Ht & Hap). rw Eb. split_and!; try done.
    destruct (Hw (s_size a)) as [->|(c & j & Hc & Hx)]; [done|]. destruct (decide (a = c)) as [->|Hne]; [hlia|]. specialize (H8 a n c j Ha Hc Hne). hlia.
Qed.

(** A heap, or the memory before the first call. *)
Definition heap_ok (base : Z) (s : heapst) (L : list block) (A : gmap Z Z) : Prop :=
  heap_wf base s L A ∨ (freep s = 0 ∧ L = [] ∧ A = ∅ ∧ 0 < base ∧ base + SIZEOF_HEADER ≤ brk s < KERNBASE).

Lemma heap_start base s : 0 < base → base + SIZEOF_HEADER ≤ brk s < KERNBASE →
  heap_wf base (MkHeap (<[s_size base := 0]> (<[s_ptr base := base]> (words s))) base (brk s)) [(base, 0)] ∅.
Proof.
  intros Hb Ht. split; hcbn.
  - by exists [].
  - by repeat constructor.
  - unfold ring. cbn [seg hd_addr fst snd]. by split_and!; [wne|wne|].
  - set_solver.
  - constructor; [hlia|done].
  - hlia.
  - done.
  - done.
Qed.

(** The two results of a [malloc] of [n] units. *)
Definition malloc_result (base : Z) (grow : Z → Z → bool) (s : heapst) (L : list block) (A : gmap Z Z) (n : Z)
    (run : outcome heapst Z) : Prop :=
  (∃ s' L', refused grow s n ∧ run = Ok 0 s' ∧ heap_wf base s' L' A ∧ keeps A s s' ∧ brk s' = brk s ∧
     (∀ x, covers L' x ↔ covers L x)) ∨
  (∃ r s' L', run = Ok (r + 8) s' ∧ malloc_post base s L A n r s' L').

Lemma malloc_run base grow fuel nbytes s0 s L A :
  heap_ok base s0 L A → scribbled A s0 s → 0 < units nbytes → SIZEOF_HEADER * units nbytes < 2 ^ 31 →
  (2 * length L + 3 < fuel)%nat →
  malloc_result base grow s L A (units nbytes) (malloc base grow fuel nbytes s).
Proof.
  intros Hok Hscr Hn Hsmall Hf. set (n := units nbytes) in *. unfold malloc. fold n. erewrite bind_ok; [|reflexivity].
  destruct Hok as [Hwf|(Ef & -> & -> & Hb & Ht)].
  - apply (scribbled_wf _ _ s) in Hwf; [|done]. assert (freep s ≠ 0) as Hf0.
    { pose proof (wf_freep _ _ _ _ Hwf) as Hin. apply list_elem_of_fmap in Hin as (b & -> & Hb). destruct (wf_block _ _ _ _ b Hwf Hb). destruct (wf_brk _ _ _ _ Hwf). lia. }
    rewrite -> (proj2 (Z.eqb_neq _ _) Hf0). erewrite bind_ok; [|reflexivity].
    destruct (malloc_found base grow fuel s L A n fuel Hwf Hn Hsmall ltac:(lia) ltac:(lia)) as [[Hr E]|?]; [left|by right]. exists s, L. by split_and!.
  - destruct Hscr as (Ef' & Eb' & _). rewrite -> Ef', Ef. cbn [Z.eqb].
    assert (base + 8 ≤ brk s < KERNBASE) as Ht' by (rw Eb'; exact Ht). rw bind_assoc. ststep. rw bind_assoc. erewrite bind_ok; [|reflexivity]. rw bind_assoc. ststep. erewrite bind_ok; [|reflexivity].
    pose proof (heap_start base s Hb Ht') as Hwf. set (s1 := MkHeap _ _ _) in Hwf. change (set_words _ _) with s1.
    assert (∀ x, covers [(base, 0)] x ↔ covers [] x) as HC by (intros x; by rw covers_base).
    destruct (malloc_found base grow fuel s1 [(base, 0)] ∅ n fuel Hwf Hn Hsmall ltac:(cbn; cbn in Hf; lia) ltac:(cbn; cbn in Hf; lia)) as [[Hr E]|(r & s' & L' & E & H1 & H2 & H3 & H4 & H5)]; [left|right].
    + exists s1, [(base, 0)]. by split_and!.
    + exists r, s', L'. split; [done|]. split_and!; [done|done|done|done|]. intros x. by rw H5 HC.
Qed.

Lemma units_wrap nbytes : 2 ^ 32 - SIZEOF_HEADER < nbytes < 2 ^ 32 → units nbytes = 1.
Proof.
  intros H. unfold units, SIZEOF_HEADER in *.
  assert (u32 (nbytes + 8 - 1) = nbytes + 8 - 1 - 2 ^ 32) as -> by (unfold u32, wrapu; dlia).
  rewrite -> Z.div_small by lia. done.
Qed.

(** C28: [malloc]. In a heap whose allocated blocks the program may have filled
    with anything behind their headers, [malloc] returns for every request below
    2^31 - 16 bytes, with one of two results. A block that has at
    least the requested bytes behind its header, taken out of the free
    blocks or out of memory that the process did not have before, so that it
    overlaps no free and no other allocated block, with every word of the
    other allocated blocks as it was and no byte of the heap lost. Or 0, with the heap as it
    was, only when the kernel refuses to grow the process. For a request
    [big] of more than 2^32 - 8 bytes the number of units wraps around, and
    [malloc] returns 0 under the same condition or a block of one unit: its header, without any
    byte behind it. *)
Theorem malloc_correct (base : Z) (grow : Z → Z → bool) (fuel : nat) (nbytes : Z) (s0 s : heapst) (L : list block) (A : gmap Z Z) :
  heap_ok base s0 L A → scribbled A s0 s → 0 ≤ nbytes < 2 ^ 31 - 16 → (2 * length L + 3 < fuel)%nat →
  let n := units nbytes in
  nbytes ≤ SIZEOF_HEADER * (n - 1) ∧
  ((∃ s' L', refused grow s n ∧ malloc base grow fuel nbytes s = Ok 0 s' ∧ heap_wf base s' L' A ∧ keeps A s s' ∧ brk s' = brk s ∧ (∀ x, covers L' x ↔ covers L x)) ∨
   (∃ r s' L', malloc base grow fuel nbytes s = Ok (r + 8) s' ∧ malloc_post base s L A n r s' L')) ∧
  (∀ big, 2 ^ 32 - SIZEOF_HEADER < big < 2 ^ 32 →
    (∃ s' L', refused grow s 1 ∧ malloc base grow fuel big s = Ok 0 s' ∧ heap_wf base s' L' A ∧ keeps A s s' ∧ brk s' = brk s ∧ (∀ x, covers L' x ↔ covers L x)) ∨
    (∃ r s' L', malloc base grow fuel big s = Ok (r + 8) s' ∧ malloc_post base s L A 1 r s' L')) ∧
  units (2 ^ 32 - 1) = 1.
Proof.
  intros Hok Hscr Hnb Hf n. destruct (units_small nbytes Hnb) as (Hn & Hsmall & Hle).
  split_and!; [done|by eapply (malloc_run base grow fuel nbytes)| |done].
  intros big Hbig. pose proof (units_wrap big Hbig) as Eu. rewrite <- Eu.
  by apply (malloc_run base grow fuel big s0); rw ?Eu.
Qed.

(** C29: [free]. For a block that [malloc] returned, in a heap whose allocated blocks the
    program may have filled with anything behind their headers, [free] ends and
    makes exactly the bytes of the block free again: the list of free
    blocks stays sorted, circular and without neighbours that touch, the other
    blocks stay allocated and their words as they were. *)
Theorem free_correct (base : Z) (fuel : nat) (s0 s : heapst) (L : list block) (A : gmap Z Z) (r n : Z) :
  heap_wf base s0 L A → scribbled A s0 s → A !! r = Some n → (length L < fuel)%nat →
  ∃ s' L', free fuel (r + 8) s = Ok tt s' ∧ heap_wf base s' L' (delete r A) ∧ keeps (delete r A) s s' ∧ brk s' = brk s ∧
    ∀ x, covers L' x ↔ covers L x ∨ r ≤ x < r + SIZEOF_HEADER * n.
Proof.
  intros H Hscr Hr Hf. apply (scribbled_wf _ _ s) in H; [|done].
  destruct (free_run base s L A r n fuel H Hr Hf) as (s' & L' & E & Hwf & Hbrk & HC & _ & _ & Hk). by exists s', L'.
Qed.

(** ** On concrete data *)

Lemma malloc_correct_witness :
  let s := MkHeap ∅ 0 8192 in
  ∃ r s' L', malloc 4096 (λ _ _, true) 10 100 s = Ok (r + 8) s' ∧ malloc_post 4096 s [] ∅ 14 r s' L' ∧ r = 8192 + 8 * (4096 - 14).
Proof.
  intros s. destruct (malloc_correct 4096 (λ _ _, true) 10 100 s s [] ∅) as (_ & [(s' & L' & [Hr|Hr] & _)|(r & s' & L' & E & Hpost)] & _ & _).
  - right. by split_and!.
  - split_and!; [done..|]. intros x. by left.
  - lia.
  - cbn. lia.
  - by vm_compute in Hr.
  - done.
  - exists r, s', L'. split_and!; [done|done|].
    assert (match malloc 4096 (λ _ _, true) 10 100 s with Ok v _ => v | _ => 0 end = 8192 + 8 * (4096 - 14) + 8) as Ev by (by vm_compute). rewrite -> E in Ev. lia.
Defined.

Lemma free_correct_witness :
  let s := MkHeap (<[8196 := 10]> (<[4100 := 0]> (<[4096 := 4096]> ∅))) 4096 8272 in
  ∃ s' L', free 5 8200 s = Ok tt s' ∧ heap_wf 4096 s' L' ∅ ∧ (∀ x, 8192 ≤ x < 8272 → covers L' x).
Proof.
  intros s. assert (heap_wf 4096 (MkHeap (<[4100 := 0]> (<[4096 := 4096]> ∅)) 4096 8192) [(4096, 0)] ∅) as H0.
  { apply (heap_start 4096 (MkHeap ∅ 0 8192)); hcbn; hlia. }
  destruct (heap_wf_grow 4096 _ _ _ 10 H0) as (_ & Hwf & _); [lia|hcbn; hlia|].
  destruct (free_correct 4096 5 s s [(4096, 0)] (<[8192 := 10]> ∅) 8192 10) as (s' & L' & E & H1 & _ & _ & HC).
  - exact Hwf.
  - split_and!; [done..|]. intros x. by left.
  - by rw lookup_insert_eq.
  - cbn. lia.
  - exists s', L'. split_and!; [done|by rw delete_insert_id in H1|]. intros x Hx. apply HC. right. hlia.
Defined.
