(* ===== verification/Mp.v ===== *)
(** * Multiprocessor configuration: mp.c

    The search for the tables of the firmware in memory and the list of
    processors in them. The memory is a function from virtual addresses to
    bytes. *)

From S2P Require Import Prelude Machine Bytes.

(** ** mp.h *)

Definition MPPROC : Z := 0x00.
Definition MPBUS : Z := 0x01.
Definition MPIOAPIC : Z := 0x02.
Definition MPIOINTR : Z := 0x03.
Definition MPLINTR : Z := 0x04.

(** The sizes of [struct mp], [struct mpconf], [struct mpproc] and [struct mpioapic]. *)
Definition SIZEOF_MP : Z := 16.
Definition SIZEOF_MPCONF : Z := 44.
Definition SIZEOF_MPPROC : Z := 20.
Definition SIZEOF_MPIOAPIC : Z := 8.

Section search.
Context (mem : Z → Z).

Definition mbytes (a n : Z) : list Z := mem <$> seqZ a n.
Definition mword16 (a : Z) : Z := le_value (mbytes a 2).
Definition mword32 (a : Z) : Z := le_value (mbytes a 4).

(** The fields that the code reads. *)
Definition mp_physaddr (mp : Z) : Z := mword32 (mp + 4).
Definition mp_imcrp (mp : Z) : Z := mem (mp + 12).
Definition conf_length (conf : Z) : Z := mword16 (conf + 4).
Definition conf_version (conf : Z) : Z := mem (conf + 6).
Definition conf_lapicaddr (conf : Z) : Z := mword32 (conf + 36).
Definition proc_apicid (p : Z) : Z := mem (p + 1).
Definition ioapic_apicno (p : Z) : Z := mem (p + 1).

(** [sum]: an [int] returned as a [uchar]. *)
Definition sum (addr len : Z) : Z := u8 (foldl (λ s x, s32 (s + x)) 0 (mbytes addr len)).

(** The loop of [mpsearch1]. *)
Fixpoint mpsearch1_loop (fuel : nat) (p e : Z) : option Z :=
  match fuel with
  | O => None
  | S fuel =>
      if p <? e then
        if bool_decide (mbytes p 4 = [95; 77; 80; 95]) && (sum p SIZEOF_MP =? 0) then Some p
        else mpsearch1_loop fuel (p + SIZEOF_MP) e
      else None
  end.
Definition mpsearch1 (a len : Z) : option Z :=
  let addr := P2V a in
  mpsearch1_loop (Z.to_nat (len / SIZEOF_MP + 1)) addr (addr + len).

Definition mpsearch : option Z :=
  let bda := P2V 0x400 in
  let p := Z.shiftl (Z.lor (Z.shiftl (mem (bda + 0x0F)) 8) (mem (bda + 0x0E))) 4 in
  match (if negb (p =? 0) then mpsearch1 p 1024
         else mpsearch1 (u32 (Z.lor (Z.shiftl (mem (bda + 0x14)) 8) (mem (bda + 0x13)) * 1024 - 1024)) 1024) with
  | Some mp => Some mp
  | None => mpsearch1 0xF0000 0x10000
  end.

(** The two tables. *)
Definition mpconfig : option (Z * Z) :=
  match mpsearch with
  | None => None
  | Some mp =>
      if mp_physaddr mp =? 0 then None else
      let conf := P2V (mp_physaddr mp) in
      if negb (bool_decide (mbytes conf 4 = [80; 67; 77; 80])) then None else
      if negb (conf_version conf =? 1) && negb (conf_version conf =? 4) then None else
      if negb (sum conf (conf_length conf) =? 0) then None else
      Some (mp, conf)
  end.

(** [cpus[i].apicid] for [i < ncpu], [ioapicid] and [ismp]. *)
Record mpst : Type := MkMp { mp_apicids : list Z; mp_ioapicid : Z; mp_ismp : bool }.

(** The loop of [mpinit]; the [default] case leaves the [switch] but not the
    loop, and does not move [p]. The result [None] is a loop that did not
    end within its fuel. *)
Fixpoint mpinit_loop (fuel : nat) (p e : Z) (s : mpst) : option mpst :=
  match fuel with
  | O => None
  | S fuel =>
      if negb (p <? e) then Some s else
      let t := mem p in
      if t =? MPPROC then
        let s := if (length (mp_apicids s) <? NCPU)%nat then MkMp (mp_apicids s ++ [proc_apicid p]) (mp_ioapicid s) (mp_ismp s) else s in
        mpinit_loop fuel (p + SIZEOF_MPPROC) e s
      else if t =? MPIOAPIC then
        mpinit_loop fuel (p + SIZEOF_MPIOAPIC) e (MkMp (mp_apicids s) (ioapic_apicno p) (mp_ismp s))
      else if (t =? MPBUS) || (t =? MPIOINTR) || (t =? MPLINTR) then mpinit_loop fuel (p + 8) e s
      else mpinit_loop fuel p e (MkMp (mp_apicids s) (mp_ioapicid s) false)
  end.

(** How [mpinit] ends: with the address of the local APIC, the processors and whether
    the interrupt mode register is switched; in a panic; or not at all. *)
Inductive mp_result : Type :=
| MpFound (lapic : Z) (s : mpst) (imcr : bool)
| MpPanic (msg : string)
| MpLoops.

Definition mpinit (fuel : nat) (ioapicid : Z) : mp_result :=
  match mpconfig with
  | None => MpPanic "Expect to run on an SMP"
  | Some (mp, conf) =>
      match mpinit_loop fuel (conf + SIZEOF_MPCONF) (conf + conf_length conf) (MkMp [] ioapicid true) with
      | None => MpLoops
      | Some s =>
          if negb (mp_ismp s) then MpPanic "Didn't find a suitable machine"
          else MpFound (conf_lapicaddr conf) s (negb (mp_imcrp mp =? 0))
      end
  end.
End search.

(** ** The table of the configuration *)

(** An entry: a processor, an I/O APIC, or one of the others that the code knows. *)
Inductive entry : Type :=
| EProc (apicid : Z)
| EIoapic (apicno : Z)
| EOther (type : Z).

Definition entry_size (x : entry) : Z := match x with EProc _ => SIZEOF_MPPROC | _ => 8 end.

(** The entry is at address [p]. *)
Definition entry_at (mem : Z → Z) (p : Z) (x : entry) : Prop :=
  match x with
  | EProc id => mem p = MPPROC ∧ mem (p + 1) = id
  | EIoapic no => mem p = MPIOAPIC ∧ mem (p + 1) = no
  | EOther t => mem p = t ∧ (t = MPBUS ∨ t = MPIOINTR ∨ t = MPLINTR)
  end.

(** The entries are between [p] and [e]. *)
Fixpoint entries_at (mem : Z → Z) (p e : Z) (l : list entry) : Prop :=
  match l with
  | [] => p = e
  | x :: l => entry_at mem p x ∧ entries_at mem (p + entry_size x) e l
  end.

Definition procs (l : list entry) : list Z := omap (λ x, match x with EProc id => Some id | _ => None end) l.
Definition ioapics (l : list entry) : list Z := omap (λ x, match x with EIoapic no => Some no | _ => None end) l.

(** ** Lemmas *)

Lemma entry_size_pos x : 0 < entry_size x.
Proof. by destruct x. Qed.

Lemma entries_le mem l : ∀ p e, entries_at mem p e l → p ≤ e ∧ (l ≠ [] → p < e).
Proof.
  induction l as [|x l IH]; intros p e; cbn [entries_at]; [intros ->; split; [lia|done]|].
  intros [_ H]. pose proof (entry_size_pos x). destruct (IH _ _ H). lia.
Qed.

Lemma mpinit_loop_run mem l : ∀ fuel p e s, entries_at mem p e l → (length l < fuel)%nat → (length (mp_apicids s) ≤ NCPU)%nat →
  mpinit_loop mem fuel p e s =
  Some (MkMp (take NCPU (mp_apicids s ++ procs l)) (default (mp_ioapicid s) (last (ioapics l))) (mp_ismp s)).
Proof.
  induction l as [|x l IH]; intros fuel p e s Hl Hf Hn; (destruct fuel as [|fuel]; [lia|]); cbn [mpinit_loop].
  - cbn in Hl. subst. rw Z.ltb_irrefl. cbn. rw app_nil_r. rewrite -> take_ge by done. by destruct s.
  - destruct (entries_le mem (x :: l) p e Hl) as [_ Hlt]. rewrite -> (proj2 (Z.ltb_lt p e)) by (by apply Hlt). cbn [negb entries_at] in *. destruct Hl as [Hx Hl].
    destruct x as [id|no|t]; cbn [entry_at entry_size] in *.
    + destruct Hx as [-> Hid]. unfold proc_apicid. rw Hid. cbn [Z.eqb MPPROC]. destruct (length (mp_apicids s) <? NCPU)%nat eqn:E.
      * apply Nat.ltb_lt in E. rewrite -> (IH fuel _ e) by (try done; cbn [mp_apicids]; rw ?length_app; cbn in *; lia). cbn [mp_apicids mp_ioapicid mp_ismp procs omap list_omap ioapics]. by rw -app_assoc.
      * apply Nat.ltb_ge in E. rewrite -> (IH fuel _ e) by (try done; cbn in Hf; lia). rewrite -> !take_app_le by lia. done.
    + destruct Hx as [-> Hno]. change (MPIOAPIC =? MPPROC) with false. rw Z.eqb_refl. unfold ioapic_apicno. rw Hno. rewrite -> (IH fuel _ e) by (try done; cbn in *; lia).
      cbn [mp_apicids mp_ioapicid mp_ismp procs omap list_omap ioapics]. change (omap _ l) with (ioapics l) at 2. f_equal. f_equal.
      change (list_omap _ _ _ l) with (ioapics l). destruct (ioapics l) as [|y k] using rev_ind; [done|]. by rw last_snoc app_comm_cons last_snoc.
    + destruct Hx as [-> Ht]. assert ((t =? MPPROC) = false ∧ (t =? MPIOAPIC) = false ∧ (t =? MPBUS) || (t =? MPIOINTR) || (t =? MPLINTR) = true) as (-> & -> & ->) by (by destruct Ht as [->|[->| ->]]).
      by rewrite -> (IH fuel _ e) by (try done; cbn in *; lia).
Qed.

Lemma mpinit_unknown mem q e s fuel : q < e → ¬ (0 ≤ mem q ≤ 4) → mpinit_loop mem fuel q e s = None.
Proof.
  intros Hq Ht. revert s. induction fuel as [|fuel IH]; intros s; cbn [mpinit_loop]; [done|]. rewrite -> (proj2 (Z.ltb_lt q e) Hq). cbn [negb].
  unfold MPPROC, MPIOAPIC, MPBUS, MPIOINTR, MPLINTR. rewrite -> !(proj2 (Z.eqb_neq (mem q) _)) by lia. apply IH.
Qed.

(** The loop reaches an entry that it does not know, or runs out of fuel before. *)
Lemma mpinit_stuck mem l : ∀ fuel p q e s, entries_at mem p q l → q < e → ¬ (0 ≤ mem q ≤ 4) → mpinit_loop mem fuel p e s = None.
Proof.
  induction l as [|x l IH]; intros fuel p q e s Hl Hq Ht; cbn [entries_at] in Hl.
  - subst. by apply mpinit_unknown.
  - destruct fuel as [|fuel]; [done|]. cbn [mpinit_loop]. destruct Hl as [Hx Hl]. destruct (entries_le mem l _ _ Hl) as [Hle _]. pose proof (entry_size_pos x).
    rewrite -> (proj2 (Z.ltb_lt p e)) by lia. cbn [negb]. destruct x as [id|no|t]; cbn [entry_at entry_size] in *; destruct Hx as [-> Hx].
    + rw Z.eqb_refl. by eapply IH.
    + change (MPIOAPIC =? MPPROC) with false. rw Z.eqb_refl. by eapply IH.
    + assert ((t =? MPPROC) = false ∧ (t =? MPIOAPIC) = false ∧ (t =? MPBUS) || (t =? MPIOINTR) || (t =? MPLINTR) = true) as (-> & -> & ->) by (by destruct Hx as [->|[->| ->]]).
      by eapply IH.
Qed.

(** The floating pointer structure at [p]. *)
Definition is_mp (mem : Z → Z) (p : Z) : bool := bool_decide (mbytes mem p 4 = [95; 77; 80; 95]) && (sum mem p SIZEOF_MP =? 0).

(** The first of the [n] structures from [p] that is one. *)
Definition first_mp (mem : Z → Z) (p n : Z) (r : option Z) : Prop :=
  match r with
  | Some q => ∃ i, 0 ≤ i < n ∧ q = p + SIZEOF_MP * i ∧ is_mp mem q = true ∧ ∀ j, 0 ≤ j < i → is_mp mem (p + SIZEOF_MP * j) = false
  | None => ∀ j, 0 ≤ j < n → is_mp mem (p + SIZEOF_MP * j) = false
  end.

Lemma mpsearch1_loop_first mem n : ∀ fuel p, (n < fuel)%nat →
  first_mp mem p (Z.of_nat n) (mpsearch1_loop mem fuel p (p + SIZEOF_MP * Z.of_nat n)).
Proof.
  induction n as [|n IH]; intros fuel p Hf; (destruct fuel as [|fuel]; [lia|]); cbn [mpsearch1_loop].
  - rw Z.mul_0_r Z.add_0_r Z.ltb_irrefl. cbn. lia.
  - rewrite -> (proj2 (Z.ltb_lt _ _)) by (unfold SIZEOF_MP; lia). fold (is_mp mem p). destruct (is_mp mem p) eqn:E.
    + exists 0. split_and!; [lia|lia|lia|done|lia].
    + replace (p + SIZEOF_MP * Z.of_nat (S n)) with ((p + SIZEOF_MP) + SIZEOF_MP * Z.of_nat n) by lia. specialize (IH fuel (p + SIZEOF_MP) ltac:(lia)).
      assert (∀ j, 0 < j → p + SIZEOF_MP * j = p + SIZEOF_MP + SIZEOF_MP * (j - 1)) as Ej by (intros; lia).
      destruct (mpsearch1_loop mem fuel _ _) as [q|]; cbn [first_mp] in *.
      * destruct IH as (i & Hi & -> & Hq & Hj). exists (i + 1). split_and!; [lia|lia|lia|done|]. intros j Hj'.
        destruct (decide (j = 0)) as [->|]; [by rw Z.mul_0_r Z.add_0_r|]. rewrite -> Ej by lia. apply Hj. lia.
      * intros j Hj. destruct (decide (j = 0)) as [->|]; [by rw Z.mul_0_r Z.add_0_r|]. rewrite -> Ej by lia. apply IH. lia.
Qed.

(** ** Properties *)

(** C32: the search for the processors. [mpsearch1] returns the first structure on
    a boundary of 16 bytes with the right signature and checksum. When the
    configuration table has been found and holds entries of known types,
    [mpinit] ends with the first [NCPU] processors in the order of the
    table and the last I/O APIC; but an entry of another type makes it loop forever,
    since the [default] case leaves the [switch] without moving on, instead of
    the panic behind the loop. *)
Theorem mpinit_correct (mem : Z → Z) (mp conf ioapicid : Z) (l : list entry) :
  mpconfig mem = Some (mp, conf) →
  let e := conf + conf_length mem conf in
  (∀ a n, 0 ≤ n → first_mp mem (P2V a) n (mpsearch1 mem a (SIZEOF_MP * n))) ∧
  (entries_at mem (conf + SIZEOF_MPCONF) e l → ∀ fuel, (length l < fuel)%nat →
     mpinit mem fuel ioapicid =
       MpFound (conf_lapicaddr mem conf) (MkMp (take NCPU (procs l)) (default ioapicid (last (ioapics l))) true) (negb (mp_imcrp mem mp =? 0))) ∧
  (∀ q, entries_at mem (conf + SIZEOF_MPCONF) q l → q < e → ¬ (0 ≤ mem q ≤ 4) → ∀ fuel, mpinit mem fuel ioapicid = MpLoops).
Proof.
  intros Hc e. split_and!.
  - intros a n Hn. unfold mpsearch1. replace n with (Z.of_nat (Z.to_nat n)) by lia. apply mpsearch1_loop_first. unfold SIZEOF_MP. rw Z.mul_comm Z.div_mul //. lia.
  - intros Hl fuel Hf. unfold mpinit. rw Hc. rewrite -> (mpinit_loop_run mem l) by (try done; cbn; lia). done.
  - intros q Hl Hq Ht fuel. unfold mpinit. rw Hc. by rewrite -> (mpinit_stuck mem l fuel _ q).
Qed.

(** ** On concrete data *)

(** A machine with the pointer at 0xF0000, a table at 0x1000 with one processor, and
    at its end an entry of type [t]. *)
Definition ex_image (t : Z) : list (Z * list Z) :=
  let conf := [80; 67; 77; 80] ++ le_bytes 2 72 ++ [1; 0] ++ replicate 28 0 ++ le_bytes 4 0xFEE00000 ++ replicate 4 0 ++
              ([0; 5] ++ replicate 18 0) ++ (t :: replicate 7 0) in
  [(P2V 0xF0000, [95; 77; 80; 95] ++ le_bytes 4 0x1000 ++ [1; 4; u8 (- foldr Z.add 0 ([95; 77; 80; 95] ++ le_bytes 4 0x1000 ++ [1; 4])); 0; 0; 0; 0; 0]);
   (P2V 0x1000, <[7%nat := u8 (- foldr Z.add 0 conf)]> conf)].
Definition ex_mem (t a : Z) : Z :=
  default 0 (head (omap (λ '(b, l), if (b <=? a) && (a <? b + Z.of_nat (length l)) then l !! Z.to_nat (a - b) else None) (ex_image t))).

Lemma mpinit_correct_witness :
  mpinit (ex_mem MPBUS) 3 0 = MpFound 0xFEE00000 (MkMp [5] 0 true) false ∧ (∀ fuel, mpinit (ex_mem 9) fuel 0 = MpLoops).
Proof.
  assert (∀ t, t = MPBUS ∨ t = 9 → mpconfig (ex_mem t) = Some (P2V 0xF0000, P2V 0x1000)) as Hc by (by intros t [->| ->]; vm_compute).
  split.
  - destruct (mpinit_correct (ex_mem MPBUS) _ _ 0 [EProc 5; EOther MPBUS] (Hc _ (or_introl eq_refl))) as (_ & H & _).
    rewrite -> H; [by vm_compute|vm_compute; by repeat split; left|cbn; lia].
  - destruct (mpinit_correct (ex_mem 9) _ _ 0 [EProc 5] (Hc _ (or_intror eq_refl))) as (_ & _ & H).
    apply (H (P2V 0x1000 + SIZEOF_MPCONF + SIZEOF_MPPROC)); [by vm_compute|by vm_compute|vm_compute; by intros [_ ?]].
Defined.
