(* ===== verification/Boot.v ===== *)
(** * The boot loader: bootmain.c

    Loads the kernel from the disk into memory with programmed I/O, through the
    controller of the disk driver. The memory is a function from physical
    addresses to bytes. *)

From S2P Require Import Prelude Machine Spinlock Mem Kalloc Sched Sleeplock Ring Bytes Bio Ide Exec Mp.

Definition SECTSIZE : Z := 512.
Definition SIZEOF_PROGHDR : Z := 32.
Definition ph_paddr (d : list Z) : Z := get32 d 12.

(** The bytes [l] stored at [a]. *)
Definition mstore (a : Z) (l : list Z) (mem : Z → Z) : Z → Z :=
  λ x, if (a <=? x) && (x <? a + Z.of_nat (length l)) then nth (Z.to_nat (x - a)) l 0 else mem x.

(** ** The loader *)

Section loader.
Context {D : Type} (io : ports D) (polls : nat).
Abbreviation B A := (M ((Z → Z) * D) A).

Definition boot_out (p v : Z) : B unit := modify (λ s, (s.1, outb io p (u8 v) s.2)).

Fixpoint waitdisk_loop (n : nat) : B unit :=
  match n with
  | O => fault "waitdisk: not ready"
  | S n =>
      s ← get;
      let '(r, d) := inb io 0x1F7 s.2 in
      put (s.1, d);;
      if negb (Z.land r 0xC0 =? 0x40) then waitdisk_loop n else mret tt
  end.
Definition waitdisk : B unit := waitdisk_loop polls.

Definition readsect (dst offset : Z) : B unit :=
  waitdisk;;
  boot_out 0x1F2 1;;
  boot_out 0x1F3 offset;;
  boot_out 0x1F4 (Z.shiftr offset 8);;
  boot_out 0x1F5 (Z.shiftr offset 16);;
  boot_out 0x1F6 (Z.lor (Z.shiftr offset 24) 0xE0);;
  boot_out 0x1F7 0x20;;
  waitdisk;;
  s ← get;
  let '(data, d) := insl io 0x1F0 (SECTSIZE / 4) s.2 in
  put (mstore dst data s.1, d).

Fixpoint readseg_loop (fuel : nat) (pa epa offset : Z) : B unit :=
  match fuel with
  | O => fault "readseg: loop"
  | S fuel =>
      if pa <? epa then
        readsect pa offset;;
        readseg_loop fuel (u32 (pa + SECTSIZE)) epa (u32 (offset + 1))
      else mret tt
  end.

Definition readseg (pa count offset : Z) : B unit :=
  let epa := u32 (pa + count) in
  let pa := u32 (pa - offset mod SECTSIZE) in
  let offset := u32 (offset / SECTSIZE + 1) in
  readseg_loop (Z.to_nat (count / SECTSIZE + 3)) pa epa offset.

(** The loop over the program headers, [n] of them from [ph]. *)
Fixpoint boot_segments (n : nat) (ph : Z) : B unit :=
  match n with
  | O => mret tt
  | S n =>
      s ← get;
      let h := mbytes s.1 ph SIZEOF_PROGHDR in
      let pa := ph_paddr h in
      readseg pa (ph_filesz h) (ph_off h);;
      s ← get;
      let h := mbytes s.1 ph SIZEOF_PROGHDR in
      (if ph_filesz h <? ph_memsz h then
         modify (λ s, (mstore (u32 (pa + ph_filesz h)) (replicate (Z.to_nat (ph_memsz h - ph_filesz h)) 0) s.1, s.2))
       else mret tt);;
      boot_segments n (u32 (ph + SIZEOF_PROGHDR))
  end.

(** The address that [bootmain] calls; [None] when it returns. *)
Definition bootmain : B (option Z) :=
  let elf := 0x10000 in
  readseg elf 4096 0;;
  s ← get;
  let h := mbytes s.1 elf 52 in
  if negb (elf_magic h =? ELF_MAGIC) then mret None else
  boot_segments (Z.to_nat (elf_phnum h)) (u32 (elf + elf_phoff h));;
  s ← get;
  mret (Some (elf_entry (mbytes s.1 elf 52))).
End loader.

(** ** Lemmas *)

Section spec.
Context {D : Type} (io : ports D) (c : controller D) (polls : nat) `{!IdeController io c}.
Hypothesis Hpolls : ∀ d, (dv_busy c d < polls)%nat.
(** No command fails. *)
Hypothesis Hgood : ∀ d, dv_error c d = false.
(** Every sector has its bytes. *)
Hypothesis Hsector : ∀ d n, Z.of_nat (length (dv_sector c d 0 n)) = SECTSIZE.

Lemma waitdisk_run m d :
  ∃ d', waitdisk io polls (m, d) = Ok tt (m, d') ∧ dv_sector c d' = dv_sector c d ∧ dv_regs c d' = dv_regs c d ∧ dv_cmd c d' = dv_cmd c d.
Proof using IdeController0 Hpolls.
  unfold waitdisk. specialize (Hpolls d). revert d Hpolls. generalize polls as n. intros n. induction n as [|n IH]; intros d Hn; [lia|]. cbn [waitdisk_loop].
  erewrite bind_ok; [|reflexivity]. cbn [fst snd]. pose proof (ide_status d) as Hst. destruct (inb io 0x1f7 d) as [r d1]. destruct Hst as (H1 & H2 & H3 & _ & H5 & _ & H7).
  erewrite bind_ok; [|reflexivity]. change (Z.lor IDE_BSY IDE_DRDY) with 0xC0 in H5. change IDE_DRDY with 0x40 in H5. destruct (dv_busy c d) as [|k] eqn:Ek.
  - rewrite -> (proj2 (Z.eqb_eq _ _) (proj2 H5 eq_refl)). by exists d1.
  - rewrite -> (proj2 (Z.eqb_neq _ _)) by (intros E; apply H5 in E; lia). cbn [negb].
    destruct (IH d1) as (d' & E & E1 & E2 & E3); [rw H7; cbn; lia|]. exists d'. split_and!; [done|by rw E1|by rw E2|by rw E3].
Qed.

(** The registers that [readsect] writes name the sector. *)
Lemma task_sector_boot n (regs : Z → Z) : 0 ≤ n < 2 ^ 28 →
  regs 0x1f3 = u8 n → regs 0x1f4 = u8 (Z.shiftr n 8) → regs 0x1f5 = u8 (Z.shiftr n 16) → regs 0x1f6 = u8 (Z.lor (Z.shiftr n 24) 0xE0) →
  task_drive regs = 0 ∧ task_sector regs = n.
Proof.
  intros Hn E3 E4 E5 E6. unfold task_drive, task_sector. rw E3 E4 E5 E6. rewrite -> !Z.shiftr_div_pow2 by lia.
  assert (0 ≤ n / 2 ^ 24 < 16) as Hk by dlia. set (k := n / 2 ^ 24) in *.
  assert (∀ k, 0 ≤ k < 16 → Z.land (u8 (Z.lor k 0xE0) / 2 ^ 4) 1 = 0 ∧ Z.land (u8 (Z.lor k 0xE0)) 0x0f = k) as Hall.
  { intros j Hj. assert (j ∈ seqZ 0 16) as Hin by (apply elem_of_seqZ; lia). clear -Hin. vm_compute in Hin. repeat (apply elem_of_cons in Hin as [->|Hin]; [done|]). by apply not_elem_of_nil in Hin. }
  destruct (Hall k Hk) as [-> ->]. split; [done|]. unfold k, wrapu. dlia.
Qed.

Lemma readsect_run m d dst n :
  0 ≤ n < 2 ^ 28 → dv_cmd c d = NoCmd →
  ∃ d', readsect io polls dst n (m, d) = Ok tt (mstore dst (dv_sector c d 0 n) m, d') ∧ dv_cmd c d' = NoCmd ∧ dv_sector c d' = dv_sector c d.
Proof using All.
  intros Hn Hcmd. unfold readsect. destruct (waitdisk_run m d) as (d0 & E0 & S0 & _ & C0). rewrite -> (bind_ok _ _ _ _ _ E0). unfold boot_out. do 6 (erewrite bind_ok; [|reflexivity]). cbn [fst snd].
  set (d1 := outb io 0x1F2 _ d0). set (d2 := outb io 0x1F3 _ d1). set (d3 := outb io 0x1F4 _ d2). set (d4 := outb io 0x1F5 _ d3). set (d5 := outb io 0x1F6 _ d4).
  destruct (ide_register d0 0x1F2 (u8 1)) as (S1 & C1 & R1); [lia|]. destruct (ide_register d1 0x1F3 (u8 n)) as (S2 & C2 & R2); [lia|].
  destruct (ide_register d2 0x1F4 (u8 (Z.shiftr n 8))) as (S3 & C3 & R3); [lia|]. destruct (ide_register d3 0x1F5 (u8 (Z.shiftr n 16))) as (S4 & C4 & R4); [lia|].
  destruct (ide_register d4 0x1F6 (u8 (Z.lor (Z.shiftr n 24) 0xE0))) as (S5 & C5 & R5); [lia|].
  assert (dv_cmd c d5 = NoCmd ∧ dv_sector c d5 = dv_sector c d) as [Cd Sd] by (unfold d5, d4, d3, d2, d1 in *; split; congruence).
  assert (dv_regs c d5 0x1f2 = 1) as G by (unfold d5; rw R5; unfold d4; rw R4; unfold d3; rw R3; unfold d2; rw R2; unfold d1; by rw R1).
  destruct (task_sector_boot n (dv_regs c d5) Hn) as [Td Ts].
  { unfold d5; rw R5; unfold d4; rw R4; unfold d3; rw R3; unfold d2; by rw R2. }
  { unfold d5; rw R5; unfold d4; rw R4; unfold d3; by rw R3. }
  { unfold d5; rw R5; unfold d4; by rw R4. }
  { unfold d5; by rw R5. }
  change (u8 0x20) with IDE_CMD_READ. destruct (ide_read d5 Cd G) as (S6 & C6). rw Td Ts in C6. set (d6 := outb io 0x1F7 _ d5) in *.
  destruct (waitdisk_run m d6) as (d7 & E7 & S7 & _ & C7). rewrite -> (bind_ok _ _ _ _ _ E7). erewrite bind_ok; [|reflexivity]. cbn [fst snd].
  pose proof (ide_data_in d7 0 n) as Hin. change (SECTOR_SIZE / 4) with (SECTSIZE / 4) in Hin. destruct (insl io 0x1f0 (SECTSIZE / 4) d7) as [data d8].
  destruct Hin as (-> & S8 & C8); [congruence|done|]. exists d8. replace (dv_sector c d7) with (dv_sector c d) by congruence. split_and!; [done|done|congruence].
Qed.

(** Byte [o] of the kernel image, which begins at sector 1. *)
Definition image (S : Z → Z → list Z) (o : Z) : Z := nth (Z.to_nat (o mod SECTSIZE)) (S 0 (o / SECTSIZE + 1)) 0.

Lemma mstore_sector S dst n m x : (∀ n, Z.of_nat (length (S 0 n)) = SECTSIZE) →
  mstore dst (S 0 (n + 1)) m x = if decide (dst ≤ x < dst + SECTSIZE) then image S (SECTSIZE * n + (x - dst)) else m x.
Proof.
  intros Hlen. unfold mstore, image. rw Hlen. unfold SECTSIZE in *. destruct (decide (dst ≤ x < dst + 512)) as [Hx|Hx].
  - rewrite -> (proj2 (Z.leb_le _ _)), (proj2 (Z.ltb_lt _ _)) by lia. cbn [andb]. replace ((512 * n + (x - dst)) mod 512) with (x - dst) by dlia. by replace ((512 * n + (x - dst)) / 512) with n by dlia.
  - destruct (decide (dst ≤ x)); [rewrite -> (proj2 (Z.ltb_ge x _)) by lia; by rw andb_false_r|by rewrite -> (proj2 (Z.leb_gt dst x)) by lia].
Qed.

Lemma readseg_loop_run k : ∀ fuel m d pa epa n,
  (k < fuel)%nat → epa - pa ≤ SECTSIZE * Z.of_nat k → (k ≠ 0%nat → SECTSIZE * (Z.of_nat k - 1) < epa - pa) →
  0 ≤ pa → epa + SECTSIZE ≤ 2 ^ 32 → 0 ≤ n → n + 1 + Z.of_nat k < 2 ^ 28 → dv_cmd c d = NoCmd →
  ∃ m' d', readseg_loop io polls fuel pa epa (n + 1) (m, d) = Ok tt (m', d') ∧ dv_cmd c d' = NoCmd ∧ dv_sector c d' = dv_sector c d ∧
    ∀ x, m' x = if decide (pa ≤ x < pa + SECTSIZE * Z.of_nat k) then image (dv_sector c d) (SECTSIZE * n + (x - pa)) else m x.
Proof using All.
  induction k as [|k IH]; intros fuel m d pa epa n Hf Hk1 Hk2 Hpa Hepa Hn Hn2 Hcmd; (destruct fuel as [|fuel]; [lia|]); cbn [readseg_loop]; unfold SECTSIZE in *.
  - rewrite -> (proj2 (Z.ltb_ge pa epa)) by lia. exists m, d. split_and!; [done..|]. intros x. by rewrite -> decide_False by lia.
  - rewrite -> (proj2 (Z.ltb_lt pa epa)) by lia. destruct (readsect_run m d pa (n + 1)) as (d1 & E1 & C1 & S1); [lia|done|].
    rewrite -> (bind_ok _ _ _ _ _ E1). rewrite -> !(wrapu_small 32) by lia.
    destruct (IH fuel (mstore pa (dv_sector c d 0 (n + 1)) m) d1 (pa + 512) epa (n + 1)) as (m' & d' & E & C & Hsec & Hm); try lia; [done|].
    exists m', d'. split_and!; [done|done|by rw Hsec|]. intros x. rw Hm S1. rewrite -> (mstore_sector (dv_sector c d) pa n m x) by (intros; apply Hsector). unfold SECTSIZE.
    destruct (decide (pa + 512 ≤ x < pa + 512 + 512 * Z.of_nat k)) as [H1|H1], (decide (pa ≤ x < pa + 512 * Z.of_nat (S k))) as [H2|H2], (decide (pa ≤ x < pa + 512)) as [H3|H3]; try lia; try done.
    f_equal. lia.
Qed.

(** The sectors of a segment. *)
Definition seg_start (pa offset : Z) : Z := pa - offset mod SECTSIZE.

Lemma readseg_run m d pa count offset :
  0 ≤ seg_start pa offset → 0 ≤ count → pa + count + SECTSIZE ≤ 2 ^ 32 → 0 ≤ offset < 2 ^ 32 → dv_cmd c d = NoCmd →
  ∃ m' d', readseg io polls pa count offset (m, d) = Ok tt (m', d') ∧ dv_cmd c d' = NoCmd ∧ dv_sector c d' = dv_sector c d ∧
    (∀ k, 0 ≤ k < count → m' (pa + k) = image (dv_sector c d) (offset + k)) ∧
    (∀ x, x < seg_start pa offset ∨ pa + count + SECTSIZE ≤ x → m' x = m x).
Proof using All.
  intros Hstart Hcount Htop Hoff Hcmd. unfold seg_start in *. unfold SECTSIZE in *. unfold readseg, SECTSIZE. rewrite -> !(wrapu_small 32) by dlia.
  set (r := offset mod 512) in *. assert (0 ≤ r < 512) as Hr by (unfold r; dlia). assert (offset = 512 * (offset / 512) + r) as Eo by (unfold r; dlia).
  set (k := Z.to_nat ((count + r + 511) / 512)).
  destruct (readseg_loop_run k (Z.to_nat (count / 512 + 3)) m d (pa - r) (pa + count) (offset / 512)) as (m' & d' & E & C & Hsec & Hm); unfold SECTSIZE in *; try (unfold k; dlia); [done|].
  exists m', d'. split_and!; [done..| |].
  - intros j Hj. rewrite -> Hm, decide_True by (unfold k; dlia). f_equal. lia.
  - intros x Hx. rewrite -> Hm, decide_False by (unfold k; dlia). done.
Qed.

(** ** The program headers *)

Record segment : Type := MkSeg { sg_paddr : Z; sg_filesz : Z; sg_memsz : Z; sg_off : Z }.
Definition segment_of (h : list Z) : segment := MkSeg (ph_paddr h) (ph_filesz h) (ph_memsz h) (ph_off h).
Definition seg_top (g : segment) : Z := sg_paddr g + Z.max (sg_filesz g) (sg_memsz g).

(** The segments lie one behind the other above [lo], with the sectors they begin
    in, and below the end of the address space. *)
Fixpoint increasing (lo : Z) (gs : list segment) : Prop :=
  match gs with
  | [] => True
  | g :: gs =>
      lo ≤ seg_start (sg_paddr g) (sg_off g) ∧ 0 ≤ sg_filesz g ∧ 0 ≤ sg_memsz g ∧ 0 ≤ sg_off g < 2 ^ 32 ∧
      seg_top g + SECTSIZE ≤ 2 ^ 32 ∧ increasing (seg_top g) gs
  end.

(** The segment is in memory: its bytes of the image [I] and zeros behind them. *)
Definition loaded (I : Z → Z) (m : Z → Z) (g : segment) : Prop :=
  (∀ k, 0 ≤ k < sg_filesz g → m (sg_paddr g + k) = I (sg_off g + k)) ∧
  (∀ k, sg_filesz g ≤ k < sg_memsz g → m (sg_paddr g + k) = 0).

Fixpoint headers_at (m : Z → Z) (ph : Z) (gs : list segment) : Prop :=
  match gs with
  | [] => True
  | g :: gs => segment_of (mbytes m ph SIZEOF_PROGHDR) = g ∧ headers_at m (ph + SIZEOF_PROGHDR) gs
  end.

Lemma mbytes_ext m m' a n : (∀ x, a ≤ x < a + n → m' x = m x) → mbytes m' a n = mbytes m a n.
Proof using Type. intros H. apply list_fmap_ext. intros i x Hx. apply lookup_seqZ in Hx as [-> Hi]. apply H. lia. Qed.

Lemma headers_ext m m' gs : ∀ ph, (∀ x, ph ≤ x < ph + SIZEOF_PROGHDR * Z.of_nat (length gs) → m' x = m x) → headers_at m ph gs → headers_at m' ph gs.
Proof using Type.
  induction gs as [|g gs IH]; intros ph H; cbn [headers_at]; [done|]. unfold SIZEOF_PROGHDR in *. cbn [length] in H. intros [<- Hg]. split.
  - f_equal. apply mbytes_ext. intros x Hx. apply H. lia.
  - apply IH; [|done]. intros x Hx. apply H. lia.
Qed.

Lemma mstore_zeros a n m x : 0 ≤ n → mstore a (replicate (Z.to_nat n) 0) m x = if decide (a ≤ x < a + n) then 0 else m x.
Proof using Type.
  intros Hn. unfold mstore. rw length_replicate. rewrite -> Z2Nat.id by lia. destruct (decide (a ≤ x < a + n)) as [Hx|Hx].
  - rewrite -> (proj2 (Z.leb_le _ _)), (proj2 (Z.ltb_lt _ _)) by lia. cbn [andb]. rw nth_lookup. rewrite -> lookup_replicate_2 by lia. done.
  - destruct (decide (a ≤ x)); [rewrite -> (proj2 (Z.ltb_ge x _)) by lia; by rw andb_false_r|by rewrite -> (proj2 (Z.leb_gt a x)) by lia].
Qed.

Lemma boot_segments_run gs : ∀ lo m d ph,
  headers_at m ph gs → 0 ≤ ph → ph + SIZEOF_PROGHDR * Z.of_nat (length gs) ≤ lo → lo < 2 ^ 32 → increasing lo gs → dv_cmd c d = NoCmd →
  ∃ m' d', boot_segments io polls (length gs) ph (m, d) = Ok tt (m', d') ∧ dv_sector c d' = dv_sector c d ∧
    Forall (loaded (image (dv_sector c d)) m') gs ∧ ∀ x, x < lo → m' x = m x.
Proof using All.
  induction gs as [|g gs IH]; intros lo m d ph Hh Hph Hlo Hlo2 Hinc Hcmd; cbn [boot_segments length].
  - exists m, d. by split_and!.
  - cbn [headers_at increasing length] in *. destruct Hh as [Eg Hh]. destruct Hinc as (Hs & Hf & Hms & Ho & Ht & Hinc). unfold SIZEOF_PROGHDR in *.
    assert (seg_start (sg_paddr g) (sg_off g) ≤ sg_paddr g) as Hsp by (unfold seg_start; unfold SECTSIZE; dlia). unfold seg_top in *.
    erewrite bind_ok; [|reflexivity]. cbn [fst snd]. cbv zeta. assert (∀ m1, (∀ x, x < lo → m1 x = m x) → segment_of (mbytes m1 ph 32) = g) as Hhead.
    { intros m1 Hm1. rewrite -> (mbytes_ext m m1 ph 32); [done|]. intros x Hx. apply Hm1. lia. }
    assert (∀ m1, (∀ x, x < lo → m1 x = m x) → let h := mbytes m1 ph 32 in ph_paddr h = sg_paddr g ∧ ph_filesz h = sg_filesz g ∧ ph_memsz h = sg_memsz g ∧ ph_off h = sg_off g) as Hf4.
    { intros m1 Hm1 h. by rw -(Hhead m1 Hm1). }
    destruct (Hf4 m ltac:(done)) as (-> & -> & _ & ->).
    destruct (readseg_run m d (sg_paddr g) (sg_filesz g) (sg_off g)) as (m1 & d1 & E1 & C1 & S1 & Hm1 & Hk1); [lia|lia|lia|lia|done|].
    rewrite -> (bind_ok _ _ _ _ _ E1). erewrite bind_ok; [|reflexivity]. cbn [fst snd]. cbv zeta.
    destruct (Hf4 m1) as (_ & -> & -> & _); [intros x Hx; apply Hk1; lia|]. rewrite -> (wrapu_small 32 (sg_paddr g + sg_filesz g)) by (unfold SECTSIZE in *; lia).
    assert (∃ m2, (if sg_filesz g <? sg_memsz g then modify (λ s, (mstore (sg_paddr g + sg_filesz g) (replicate (Z.to_nat (sg_memsz g - sg_filesz g)) 0) s.1, s.2)) else mret tt) (m1, d1) = Ok tt (m2, d1) ∧
      loaded (image (dv_sector c d)) m2 g ∧ ∀ x, x < lo → m2 x = m x) as (m2 & E2 & Hload & Hm2).
    { case_bool.
      - eexists. split; [reflexivity|]. cbn [fst snd]. split; [split|].
        + intros k Hk. rewrite -> mstore_zeros, decide_False by lia. by apply Hm1.
        + intros k Hk. rewrite -> mstore_zeros, decide_True by lia. done.
        + intros x Hx. rewrite -> mstore_zeros, decide_False by lia. apply Hk1. lia.
      - exists m1. split; [done|]. split; [split; [done|lia]|]. intros x Hx. apply Hk1. lia. }
    rewrite -> (bind_ok _ _ _ _ _ E2), (wrapu_small 32 (ph + 32)) by lia.
    destruct (IH (sg_paddr g + sg_filesz g `max` sg_memsz g) m2 d1 (ph + 32)) as (m' & d' & E & Hsec & Hall & Hlow); [|lia|lia|unfold SECTSIZE in *; lia|done|done|].
    { eapply headers_ext; [|done]. intros x Hx. apply Hm2. unfold SIZEOF_PROGHDR in *. lia. }
    exists m', d'. split_and!; [done|by rw Hsec| |].
    + constructor; [|by rw S1 in Hall]. destruct Hload as [H1 H2]. split; intros k Hk; rewrite -> Hlow by lia; [by apply H1|by apply H2].
    + intros x Hx. rewrite -> Hlow by lia. by apply Hm2.
Qed.

(** The kernel on the disk: its header and its segments. *)
Definition kernel_header (I : Z → Z) : list Z := mbytes I 0 52.
Definition kernel_segments (I : Z → Z) : list segment :=
  (λ i, segment_of (mbytes I (elf_phoff (kernel_header I) + SIZEOF_PROGHDR * i) SIZEOF_PROGHDR)) <$> seqZ 0 (elf_phnum (kernel_header I)).

Lemma mbytes_shift (m I : Z → Z) a b n : (∀ k, 0 ≤ k < n → m (a + k) = I (b + k)) → mbytes m a n = mbytes I b n.
Proof using Type.
  intros H. unfold mbytes. apply list_eq. intros i. rewrite -> (list_lookup_fmap m), (list_lookup_fmap I). destruct (decide (Z.of_nat i < n)) as [Hi|Hi].
  - rewrite -> !lookup_seqZ_lt by done. cbn. f_equal. apply H. lia.
  - by rewrite -> !lookup_seqZ_ge by lia.
Qed.

Lemma headers_loaded (m I : Z → Z) a b n : (∀ k, 0 ≤ k < SIZEOF_PROGHDR * Z.of_nat n → m (a + k) = I (b + k)) →
  headers_at m a ((λ i, segment_of (mbytes I (b + SIZEOF_PROGHDR * i) SIZEOF_PROGHDR)) <$> seqZ 0 (Z.of_nat n)).
Proof using Type.
  revert a b. induction n as [|n IH]; intros a b H; [done|]. unfold SIZEOF_PROGHDR in *. rewrite -> seqZ_cons by lia. cbn [fmap list_fmap headers_at]. split.
  - f_equal. rw Z.mul_0_r Z.add_0_r. apply mbytes_shift. intros k Hk. unfold SIZEOF_PROGHDR in Hk. apply H. lia.
  - replace (Z.pred (Z.of_nat (S n))) with (Z.of_nat n) by lia. specialize (IH (a + 32) (b + 32)).
    replace ((λ i, segment_of (mbytes I (b + 32 * i) 32)) <$> seqZ (Z.succ 0) (Z.of_nat n)) with ((λ i, segment_of (mbytes I (b + 32 + 32 * i) 32)) <$> seqZ 0 (Z.of_nat n)).
    + apply IH. intros k Hk. rewrite <- !Z.add_assoc. apply H. lia.
    + rw -(fmap_add_seqZ 1 0) -list_fmap_compose. apply list_fmap_ext. intros i x _. cbn. do 2 f_equal. lia.
Qed.
End spec.

(** ** Properties *)


(** ** A drive that is only read *)

Section rom.
Context (sector : Z → list Z).

Record rom : Type := MkRom { rom_regs : Z → Z; rom_cmd : ide_cmd }.
Definition rom_out (p v : Z) (d : rom) : rom :=
  if p =? 0x1f7 then
    MkRom (rom_regs d) (if v =? IDE_CMD_READ then ReadCmd (task_drive (rom_regs d)) (task_sector (rom_regs d))
                        else WriteWait (task_drive (rom_regs d)) (task_sector (rom_regs d)))
  else if p =? 0x3f6 then d
  else MkRom (λ q, if q =? p then v else rom_regs d q) (rom_cmd d).
Definition rom_ports : ports rom := MkPorts (λ _ d, (0x40, d)) rom_out
  (λ _ _ d, match rom_cmd d with ReadCmd _ n => (sector n, MkRom (rom_regs d) NoCmd) | _ => ([], d) end)
  (λ _ data d, match rom_cmd d with WriteWait drive n => MkRom (rom_regs d) (WriteCmd drive n data) | _ => d end).
Definition rom_controller : controller rom := MkController (λ _ _ n, sector n) rom_regs rom_cmd (λ _, 0%nat) (λ _, false).

#[export] Instance rom_laws : IdeController rom_ports rom_controller.
Proof.
  split; intros d; cbn; try done.
  - intros p v Hp. unfold rom_out. rewrite -> (proj2 (Z.eqb_neq p 0x1f7)), (proj2 (Z.eqb_neq p 0x3f6)) by lia. done.
  - intros drive n data E _. by rw E.
  - intros drive n E _. by rw E.
Qed.
End rom.

(** ** On concrete data *)

(** A kernel with one segment of four bytes and four zeros at 1 MB. *)
Definition ex_kernel (n : Z) : list Z :=
  let page := le_bytes 4 ELF_MAGIC ++ replicate 20 0 ++ le_bytes 4 0x10000C ++ le_bytes 4 52 ++ replicate 12 0 ++ le_bytes 2 1 ++ replicate 6 0 ++
              (replicate 4 0 ++ le_bytes 4 4096 ++ replicate 4 0 ++ le_bytes 4 0x100000 ++ le_bytes 4 4 ++ le_bytes 4 8 ++ replicate 8 0) in
  if n =? 1 then page ++ replicate (512 - length page) 0 else if n =? 9 then [1; 2; 3; 4] ++ replicate 508 9 else replicate 512 7.

