(* ===== verification/Apic.v ===== *)
(** * Interrupt controllers and the clock: lapic.c, ioapic.c and picirq.c

    The registers of the devices are reached through parameters: [rd] and [wr]
    are the memory-mapped registers, [inb] and [outb] the ports. *)

From S2P Require Import Prelude Machine Bytes Syscall.

Definition IRQ_ERROR : Z := 19.
Definition CMOS_PORT : Z := 0x70.
Definition CMOS_RETURN : Z := 0x71.

(** ** lapic.c: the local interrupt controller *)

Module Lapic.
Definition ID : Z := 0x0020 / 4.
Definition VER : Z := 0x0030 / 4.
Definition TPR : Z := 0x0080 / 4.
Definition EOI : Z := 0x00B0 / 4.
Definition SVR : Z := 0x00F0 / 4.
Definition ENABLE : Z := 0x00000100.
Definition ESR : Z := 0x0280 / 4.
Definition ICRLO : Z := 0x0300 / 4.
Definition INIT : Z := 0x00000500.
Definition STARTUP : Z := 0x00000600.
Definition DELIVS : Z := 0x00001000.
Definition ASSERT : Z := 0x00004000.
Definition LEVEL : Z := 0x00008000.
Definition BCAST : Z := 0x00080000.
Definition ICRHI : Z := 0x0310 / 4.
Definition TIMER : Z := 0x0320 / 4.
Definition X1 : Z := 0x0000000B.
Definition PERIODIC : Z := 0x00020000.
Definition PCINT : Z := 0x0340 / 4.
Definition LINT0 : Z := 0x0350 / 4.
Definition LINT1 : Z := 0x0360 / 4.
Definition ERROR : Z := 0x0370 / 4.
Definition MASKED : Z := 0x00010000.
Definition TICR : Z := 0x0380 / 4.
Definition TDCR : Z := 0x03E0 / 4.

Section lapic.
Context {D : Type} (rd : Z → D → Z * D) (wr : Z → Z → D → D) (outb : Z → Z → D → D).
(** [lapic] is not 0; [store16]: a store of 16 bits in memory. *)
Context (present : bool) (store16 : Z → Z → D → D).

Definition lapicr (index : Z) : M D Z := λ d, let '(v, d) := rd index d in Ok v d.

(** The write, and the read that waits for it. *)
Definition lapicw (index value : Z) : M D unit :=
  modify (wr index (u32 value));;
  lapicr ID;;
  mret tt.

Fixpoint wait_delivered (n : nat) : M D unit :=
  match n with
  | O => fault "lapicinit: not delivered"
  | S n =>
      v ← lapicr ICRLO;
      if negb (Z.land v DELIVS =? 0) then wait_delivered n else mret tt
  end.

Definition lapicinit (polls : nat) : M D unit :=
  if negb present then mret tt else
  lapicw SVR (Z.lor ENABLE (T_IRQ0 + IRQ_SPURIOUS));;
  lapicw TDCR X1;;
  lapicw TIMER (Z.lor PERIODIC (T_IRQ0 + IRQ_TIMER));;
  lapicw TICR 10000000;;
  lapicw LINT0 MASKED;;
  lapicw LINT1 MASKED;;
  v ← lapicr VER;
  (if 4 <=? Z.land (Z.shiftr v 16) 0xFF then lapicw PCINT MASKED else mret tt);;
  lapicw ERROR (T_IRQ0 + IRQ_ERROR);;
  lapicw ESR 0;;
  lapicw ESR 0;;
  lapicw EOI 0;;
  lapicw ICRHI 0;;
  lapicw ICRLO (Z.lor (Z.lor BCAST INIT) LEVEL);;
  wait_delivered polls;;
  lapicw TPR 0.

Definition lapicid : M D Z :=
  if negb present then mret 0 else
  v ← lapicr ID;
  mret (Z.shiftr v 24).

Definition lapiceoi : M D unit := if present then lapicw EOI 0 else mret tt.

(** The startup interrupt that the loop sends twice. *)
Definition send_startup (apicid addr : Z) : M D unit :=
  lapicw ICRHI (s32 (Z.shiftl apicid 24));;
  lapicw ICRLO (Z.lor STARTUP (Z.shiftr addr 12)).

Definition lapicstartap (apicid addr : Z) : M D unit :=
  modify (outb CMOS_PORT 0xF);;
  modify (outb (CMOS_PORT + 1) 0x0A);;
  let wrv := P2V (Z.lor (Z.shiftl 0x40 4) 0x67) in
  modify (store16 wrv 0);;
  modify (store16 (wrv + 2) (u16 (Z.shiftr addr 4)));;
  lapicw ICRHI (s32 (Z.shiftl apicid 24));;
  lapicw ICRLO (Z.lor (Z.lor INIT LEVEL) ASSERT);;
  lapicw ICRLO (Z.lor INIT LEVEL);;
  send_startup apicid addr;;
  send_startup apicid addr.
End lapic.
End Lapic.

(** ** lapic.c: the clock *)

Definition CMOS_STATA : Z := 0x0a.
Definition CMOS_STATB : Z := 0x0b.
Definition CMOS_UIP : Z := 0x80.
Definition SECS : Z := 0x00.
Definition MINS : Z := 0x02.
Definition HOURS : Z := 0x04.
Definition DAY : Z := 0x07.
Definition MONTH : Z := 0x08.
Definition YEAR : Z := 0x09.

(** [struct rtcdate] *)
Record rtcdate : Type := MkDate { second : Z; minute : Z; hour : Z; day : Z; month : Z; year : Z }.
#[export] Instance rtcdate_eq_dec : EqDecision rtcdate.
Proof. solve_decision. Defined.

Section clock.
Context {D : Type} (inb : Z → D → Z * D) (outb : Z → Z → D → D).

Definition cmos_in (port : Z) : M D Z := λ d, let '(v, d) := inb port d in Ok v d.
Definition cmos_read (reg : Z) : M D Z := modify (outb CMOS_PORT reg);; cmos_in CMOS_RETURN.

Definition fill_rtcdate : M D rtcdate :=
  s ← cmos_read SECS;
  m ← cmos_read MINS;
  h ← cmos_read HOURS;
  d ← cmos_read DAY;
  mo ← cmos_read MONTH;
  y ← cmos_read YEAR;
  mret (MkDate s m h d mo y).

(** The loop that reads the clock until it did not change meanwhile. *)
Fixpoint read_clock (n : nat) : M D rtcdate :=
  match n with
  | O => fault "cmostime: loop"
  | S n =>
      t1 ← fill_rtcdate;
      a ← cmos_read CMOS_STATA;
      if negb (Z.land a CMOS_UIP =? 0) then read_clock n else
      t2 ← fill_rtcdate;
      if bool_decide (t1 = t2) then mret t1 else read_clock n
  end.

(** [CONV] *)
Definition conv (x : Z) : Z := u32 (Z.shiftr x 4 * 10 + Z.land x 0xf).

(** The decimal conversion, field by field. *)
Definition convert (t : rtcdate) : rtcdate :=
  MkDate (conv (second t)) (conv (minute t)) (conv (hour t)) (conv (day t)) (conv (month t)) (conv (year t)).
Definition add_century (t : rtcdate) : rtcdate :=
  MkDate (second t) (minute t) (hour t) (day t) (month t) (u32 (year t + 2000)).

Definition cmostime (n : nat) : M D rtcdate :=
  sb ← cmos_read CMOS_STATB;
  let bcd := Z.land sb 4 =? 0 in
  t ← read_clock n;
  mret (add_century (if bcd then convert t else t)).
End clock.

(** ** ioapic.c and picirq.c *)

Module Ioapic.
Definition REG_ID : Z := 0x00.
Definition REG_VER : Z := 0x01.
Definition REG_TABLE : Z := 0x10.
Definition INT_DISABLED : Z := 0x00010000.

(** The device: [ioapic->reg] and the registers behind [ioapic->data]. *)
Record ioapic : Type := MkIoapic { io_reg : Z; io_data : Z → Z }.

Definition ioapicread (reg : Z) (d : ioapic) : Z * ioapic :=
  let d := MkIoapic reg (io_data d) in
  (io_data d (io_reg d), d).
Definition ioapicwrite (reg data : Z) (d : ioapic) : ioapic :=
  let d := MkIoapic reg (io_data d) in
  MkIoapic (io_reg d) (λ r, if r =? io_reg d then u32 data else io_data d r).

(** The loop over the interrupts: [n] of them from [i]. *)
Fixpoint disable_all (n : nat) (i : Z) (d : ioapic) : ioapic :=
  match n with
  | O => d
  | S n =>
      disable_all n (i + 1)
        (ioapicwrite (REG_TABLE + 2 * i + 1) 0 (ioapicwrite (REG_TABLE + 2 * i) (Z.lor INT_DISABLED (T_IRQ0 + i)) d))
  end.

(** The device, and whether the message about the id is printed. *)
Definition ioapicinit (ioapicid : Z) (d : ioapic) : ioapic * bool :=
  let '(v, d) := ioapicread REG_VER d in
  let maxintr := Z.land (Z.shiftr v 16) 0xFF in
  let '(w, d) := ioapicread REG_ID d in
  let id := Z.shiftr w 24 in
  (disable_all (Z.to_nat (maxintr + 1)) 0 d, negb (id =? ioapicid)).

Definition ioapicenable (irq cpunum : Z) (d : ioapic) : ioapic :=
  ioapicwrite (REG_TABLE + 2 * irq + 1) (Z.shiftl cpunum 24) (ioapicwrite (REG_TABLE + 2 * irq) (T_IRQ0 + irq) d).
End Ioapic.

Definition IO_PIC1 : Z := 0x20.
Definition IO_PIC2 : Z := 0xA0.
Definition picinit {D : Type} (outb : Z → Z → D → D) (d : D) : D := outb (IO_PIC2 + 1) 0xFF (outb (IO_PIC1 + 1) 0xFF d).

(** ** The clock is read consistently *)

(** A clock behind the two ports: the selected register and the number of
    reads so far; [at_read n reg] is what the read number [n] gives. *)
Section a_clock.
Context (at_read : nat → Z → Z).
Definition clock_out (port v : Z) (d : Z * nat) : Z * nat := if port =? CMOS_PORT then (v, d.2) else d.
Definition clock_in (port : Z) (d : Z * nat) : Z * (Z * nat) :=
  if port =? CMOS_RETURN then (at_read d.2 d.1, (d.1, S d.2)) else (0, d).

(** What [fill_rtcdate] reads when it starts after [n] reads. *)
Definition date_at (n : nat) : rtcdate :=
  MkDate (at_read n SECS) (at_read (n + 1) MINS) (at_read (n + 2) HOURS)
         (at_read (n + 3) DAY) (at_read (n + 4) MONTH) (at_read (n + 5) YEAR).

Lemma cmos_read_at reg r n : cmos_read clock_in clock_out reg (r, n) = Ok (at_read n reg) (reg, S n).
Proof. done. Qed.
Lemma fill_at r n : fill_rtcdate clock_in clock_out (r, n) = Ok (date_at n) (YEAR, (n + 6)%nat).
Proof.
  unfold fill_rtcdate, date_at. do 6 (erewrite bind_ok; [|apply cmos_read_at]).
  by rw !(Nat.add_comm n).
Qed.

Definition updating (n : nat) : bool := negb (Z.land (at_read n CMOS_STATA) CMOS_UIP =? 0).
(** The two readings that [read_clock] compares agree. *)
Definition consistent (n : nat) : Prop := updating (n + 6) = false ∧ date_at n = date_at (n + 7).
(** The clock stands still from the read [N] on. *)
Definition settled (N : nat) : Prop :=
  ∀ n, (N ≤ n)%nat → updating n = false ∧ ∀ reg, at_read n reg = at_read N reg.

Lemma date_settled N n : settled N → (N ≤ n)%nat → date_at n = date_at N.
Proof. intros H Hn. unfold date_at. f_equal; rw (proj2 (H _ _)) ?(proj2 (H (N + _)%nat _)); try done; lia. Qed.

Lemma read_clock_settled N : settled N → ∀ fuel r n, (N - n < fuel)%nat →
  ∃ n' d', (n ≤ n')%nat ∧ consistent n' ∧ read_clock clock_in clock_out fuel (r, n) = Ok (date_at n') d'.
Proof.
  intros HN fuel. induction fuel as [|fuel IH]; intros r n Hf; [lia|]. cbn [read_clock].
  erewrite bind_ok; [|apply fill_at]. erewrite bind_ok; [|apply cmos_read_at].
  change (negb _) with (updating (n + 6)). destruct (updating (n + 6)) eqn:Hu.
  - destruct (decide (N ≤ n + 6)%nat) as [Hle|Hle]; [by rw (proj1 (HN _ Hle)) in Hu|].
    destruct (IH CMOS_STATA (S (n + 6)) ltac:(lia)) as (n' & d' & ? & ? & ?). exists n', d'. split_and!; [lia|done..].
  - erewrite bind_ok; [|apply fill_at]. replace (S (n + 6)) with (n + 7)%nat by lia.
    case_bool_decide as He; [by exists n, (YEAR, (n + 7 + 6)%nat)|].
    destruct (decide (N ≤ n)%nat) as [Hle|Hle].
    + by rw !(date_settled N) in He; try lia.
    + destruct (IH YEAR (n + 7 + 6)%nat ltac:(lia)) as (n' & d' & ? & ? & ?). exists n', d'. split_and!; [lia|done..].
Qed.
End a_clock.

(** A number of two decimal digits as the clock stores it. *)
Definition bcd (v : Z) : Z := v / 10 * 16 + v mod 10.
Lemma conv_bcd v : 0 ≤ v < 100 → conv (bcd v) = v.
Proof.
  intros Hv. unfold conv, bcd. assert (0 ≤ v / 10 < 10 ∧ 0 ≤ v mod 10 < 10) as [? ?] by (split; Z.to_euclidean_division_equations; lia).
  rw Z.shiftr_div_pow2 //. change 0xf with (Z.ones 4). rw Z.land_ones //. change (2 ^ 4) with 16.
  rw wrapu_small; Z.to_euclidean_division_equations; lia.
Qed.

(** The registers of a clock that shows [t], with the years of the century. *)
Definition shows (binary : bool) (t : rtcdate) (reg : Z) : Z :=
  let enc v := if binary then v else bcd v in
  if reg =? SECS then enc (second t) else if reg =? MINS then enc (minute t) else
  if reg =? HOURS then enc (hour t) else if reg =? DAY then enc (day t) else
  if reg =? MONTH then enc (month t) else if reg =? YEAR then enc (year t) else
  if reg =? CMOS_STATB then (if binary then 6 else 2) else 0.
Definition two_digits (t : rtcdate) : Prop :=
  Forall (λ v, 0 ≤ v < 100) [second t; minute t; hour t; day t; month t; year t].

(** The clock is read consistently: with a clock that settles after [N]
    reads, [cmostime] returns, and what it returns is the conversion of a date
    that two complete readings, with no update in progress between them, both
    gave.  With a clock that shows the date [t] of two-digit fields, in binary
    or in decimal digits, it returns [t] with the year in the 21st century. *)
Theorem cmostime_correct at_read N fuel r : settled at_read N → (N < fuel)%nat →
  (∃ n d', consistent at_read n ∧
    cmostime (clock_in at_read) clock_out fuel (r, 0%nat) =
      Ok (add_century (if Z.land (at_read 0%nat CMOS_STATB) 4 =? 0 then convert (date_at at_read n) else date_at at_read n)) d') ∧
  (∀ binary t, two_digits t → (∀ n reg, at_read n reg = shows binary t reg) →
    ∃ d', cmostime (clock_in at_read) clock_out fuel (r, 0%nat) =
      Ok (MkDate (second t) (minute t) (hour t) (day t) (month t) (year t + 2000)) d').
Proof.
  intros HN Hf. destruct (read_clock_settled at_read N HN fuel CMOS_STATB 1 ltac:(lia)) as (n & d' & _ & Hc & E).
  assert (cmostime (clock_in at_read) clock_out fuel (r, 0%nat) =
    Ok (add_century (if Z.land (at_read 0%nat CMOS_STATB) 4 =? 0 then convert (date_at at_read n) else date_at at_read n)) d') as Et.
  { unfold cmostime. erewrite bind_ok; [|apply cmos_read_at]. by erewrite bind_ok; [|apply E]. }
  split; [by exists n, d'|].
  intros binary t Ht Hs. exists d'. rw Et. unfold date_at. rw !Hs. clear -Ht.
  assert (0 ≤ year t < 100) by (unfold two_digits in Ht; by decompose_Forall_hyps).
  destruct binary; unfold shows; cbn -[wrapu bcd conv]; [change (Z.land 6 4) with 4|change (Z.land 2 4) with 0];
    unfold convert, add_century; cbn -[wrapu bcd conv].
  - rw wrapu_small; [lia|done].
  - unfold two_digits in Ht. decompose_Forall_hyps. rw !conv_bcd //. rw wrapu_small; [lia|done].
Qed.
Lemma cmostime_correct_witness :
  settled (λ _, shows false (MkDate 59 30 23 31 12 22)) 0 ∧
  ∃ d', cmostime (clock_in (λ _, shows false (MkDate 59 30 23 31 12 22))) clock_out 1 (0, 0%nat) =
    Ok (MkDate 59 30 23 31 12 2022) d'.
Proof.
  assert (settled (λ _, shows false (MkDate 59 30 23 31 12 22)) 0) as Hs by (intros n _; by vm_compute).
  split; [done|]. destruct (cmostime_correct (λ _, shows false (MkDate 59 30 23 31 12 22)) 0 1 0 Hs ltac:(lia)) as [_ H].
  apply (H false (MkDate 59 30 23 31 12 22)); [|done]. repeat constructor; cbn; lia.
Defined.

(** ** The interrupts of the I/O controller *)

Module IoapicTheory.
Import Ioapic.

(** The entry of an interrupt in the redirection table. *)
Definition route (d : ioapic) (i : Z) : Z * Z := (io_data d (REG_TABLE + 2 * i), io_data d (REG_TABLE + 2 * i + 1)).

Lemma ioapicwrite_data reg v d r : io_data (ioapicwrite reg v d) r = if r =? reg then u32 v else io_data d r.
Proof. done. Qed.

(** Every interrupt is masked by [ioapicinit] and goes to no processor; what is
    behind the table stays. *)
Lemma disable_all_route n i d j : 0 ≤ i →
  (i ≤ j < i + Z.of_nat n → route (disable_all n i d) j = (u32 (Z.lor INT_DISABLED (T_IRQ0 + j)), 0)) ∧
  (j < i ∨ i + Z.of_nat n ≤ j → route (disable_all n i d) j = route d j).
Proof.
  revert i d. induction n as [|n IH]; intros i d Hi; cbn [disable_all]; [split; [lia|done]|].
  destruct (IH (i + 1) (ioapicwrite (REG_TABLE + 2 * i + 1) 0 (ioapicwrite (REG_TABLE + 2 * i) (Z.lor INT_DISABLED (T_IRQ0 + i)) d)) ltac:(lia)) as [H1 H2].
  split; intros Hj; destruct (decide (j = i)) as [->|Hne].
  - rw H2; [lia|]. unfold route. rw !ioapicwrite_data !Z.eqb_refl.
    by rewrite -> (proj2 (Z.eqb_neq (REG_TABLE + 2 * i) (REG_TABLE + 2 * i + 1))) by lia.
  - apply H1. lia.
  - lia.
  - rw H2; [lia|]. unfold route. rw !ioapicwrite_data. by repeat (rewrite -> (proj2 (Z.eqb_neq _ _)) by lia).
Qed.

Theorem ioapicinit_masks ioapicid d j :
  0 ≤ j ≤ Z.land (Z.shiftr (io_data d REG_VER) 16) 0xFF →
  route (ioapicinit ioapicid d).1 j = (Z.lor INT_DISABLED (T_IRQ0 + j), 0).
Proof.
  intros Hj. assert (Z.land (Z.shiftr (io_data d REG_VER) 16) 0xFF < 256) as Hm.
  { change 0xFF with (Z.ones 8). rw Z.land_ones //. apply Z.mod_pos_bound. lia. }
  unfold ioapicinit. cbn [ioapicread io_data io_reg fst].
  rewrite -> (proj1 (disable_all_route _ 0 _ _ (Z.le_refl 0))) by lia. f_equal.
  apply wrapu_small. split.
  - apply Z.lor_nonneg. unfold INT_DISABLED, T_IRQ0. lia.
  - apply Z.lt_le_trans with (2 ^ 17); [|lia]. apply Z.log2_lt_pow2; [|].
    + apply Z.le_neq. split; [apply Z.lor_nonneg; unfold INT_DISABLED, T_IRQ0; lia|].
      intros H. symmetry in H. apply Z.lor_eq_0_iff in H as [H _]. done.
    + rw Z.log2_lor; [done|unfold T_IRQ0; lia|]. apply Z.max_lub_lt; [done|].
      apply Z.log2_lt_pow2; unfold T_IRQ0; lia.
Qed.

(** [ioapicenable] routes one interrupt and no other. *)
Theorem ioapicenable_routes irq cpunum d j : 0 ≤ irq < 240 → 0 ≤ cpunum < 256 →
  route (ioapicenable irq cpunum d) irq = (T_IRQ0 + irq, cpunum * 2 ^ 24) ∧
  (j ≠ irq → route (ioapicenable irq cpunum d) j = route d j).
Proof.
  intros Hi Hc. unfold ioapicenable, route. rw !ioapicwrite_data. split.
  - rw !Z.eqb_refl. rewrite -> (proj2 (Z.eqb_neq (REG_TABLE + 2 * irq) (REG_TABLE + 2 * irq + 1))) by lia.
    rw Z.shiftl_mul_pow2 //. unfold T_IRQ0. rw !wrapu_small //; lia.
  - intros Hj. by repeat (rewrite -> (proj2 (Z.eqb_neq _ _)) by lia).
Qed.
End IoapicTheory.
