(* ===== verification/Mkfs.v ===== *)
(** * The initial file system: mkfs.c

    The program that the build runs to make the disk image.  The files of the
    host are parameters: [create] says whether the image file can be created,
    [host] gives the pieces that the successive calls of [read] return for a
    file, or [None] when it cannot be opened.  The image file is the list of
    its blocks; writing to it succeeds, reading behind its end does not.  A
    failed [assert] and [exit(1)] are panics.  The host is little-endian. *)

From S2P Require Import Prelude Machine Spinlock Console Mem CString Kalloc Sched Sleeplock Ring Bytes Bio Cache Log Recovery Txn Fs FsView Balloc Inode Content.

Definition NINODES : Z := 200.
Definition nbitmap : Z := FSSIZE / (BSIZE * 8) + 1.
Definition ninodeblocks : Z := NINODES / IPB + 1.
Definition nlog : Z := LOGSIZE.
Definition nmeta : Z := 2 + nlog + ninodeblocks + nbitmap.
Definition nblocks : Z := FSSIZE - nmeta.

(** The image file and the counters [freeinode] and [freeblock]. *)
Record mkst : Type := MkMkst { img : list (list Z); freeinode : Z; freeblock : Z }.
Definition set_img (v : list (list Z)) (s : mkst) : mkst := MkMkst v (freeinode s) (freeblock s).
Definition set_freeinode (v : Z) (s : mkst) : mkst := MkMkst (img s) v (freeblock s).
Definition set_freeblock (v : Z) (s : mkst) : mkst := MkMkst (img s) (freeinode s) v.

Definition cassert (b : bool) (msg : string) : M mkst unit := if b then mret tt else panic msg.

(** The bytes of [x] in Intel order, read back as a number of the host. *)
Definition xshort (x : Z) : Z := le_value [u8 x; u8 (Z.shiftr x 8)].
Definition xint (x : Z) : Z := le_value [u8 x; u8 (Z.shiftr x 8); u8 (Z.shiftr x 16); u8 (Z.shiftr x 24)].

(** The superblock. *)
Definition mkfs_sb : superblock :=
  MkSb (xint FSSIZE) (xint nblocks) (xint NINODES) (xint nlog) (xint 2) (xint (2 + nlog)) (xint (2 + nlog + ninodeblocks)).
Definition sb_bytes (sb : superblock) : list Z :=
  flat_map (le_bytes 4) [sb_size sb; sb_nblocks sb; sb_ninodes sb; sb_nlog sb; sb_logstart sb; sb_inodestart sb; sb_bmapstart sb].

(** ** The image file *)

(** Writing the block at position [k] of the file, filling a gap with zeros. *)
Definition write_block (l : list (list Z)) (k : nat) (buf : list Z) : list (list Z) :=
  if decide (k < length l)%nat then <[k := buf]> l else l ++ replicate (k - length l) zeros ++ [buf].

Definition wsect (sec : Z) (buf : list Z) : M mkst unit :=
  modify (λ s, set_img (write_block (img s) (Z.to_nat (u32 (sec * BSIZE) / BSIZE)) buf) s).

Definition rsect (sec : Z) : M mkst (list Z) :=
  s ← get;
  match img s !! Z.to_nat (u32 (sec * BSIZE) / BSIZE) with
  | Some buf => mret buf
  | None => panic "read"
  end.

(** ** Inodes *)

(** A zeroed [struct dinode], as the inode whose fields it holds. *)
Definition din0 (inum : Z) : inode := MkInode 1 inum 0 (MkSl false 0) true 0 0 0 0 0 (replicate (Z.to_nat (NDIRECT + 1)) 0).

Definition winode (inum : Z) (ip : inode) : M mkst unit :=
  let bn := IBLOCK inum mkfs_sb in
  buf ← rsect bn;
  wsect bn (write_dinode buf (dinode_off inum) ip).

Definition rinode (inum : Z) : M mkst inode :=
  let bn := IBLOCK inum mkfs_sb in
  buf ← rsect bn;
  mret (read_dinode buf (dinode_off inum) (din0 inum)).

Definition mkfs_ialloc (type : Z) : M mkst Z :=
  s ← get;
  let inum := freeinode s in
  modify (set_freeinode (u32 (inum + 1)));;
  winode inum (set_i_size (xint 0) (set_i_nlink (xshort 1) (set_i_type (xshort type) (din0 inum))));;
  mret inum.

(** ** The bitmap *)

Fixpoint mark_used (n : nat) (i : Z) (buf : list Z) : list Z :=
  match n with
  | O => buf
  | S n => mark_used n (i + 1) (set_bit buf i)
  end.

Definition mkfs_balloc (used : Z) : M mkst unit :=
  cassert (used <? BSIZE * 8) "used < BSIZE*8";;
  wsect (sb_bmapstart mkfs_sb) (mark_used (Z.to_nat used) 0 zeros).

(** ** Appending to a file *)

(** [freeblock++] *)
Definition next_block : M mkst Z :=
  s ← get;
  modify (set_freeblock (u32 (freeblock s + 1)));;
  mret (freeblock s).

Definition din_addr (din : inode) (k : Z) : Z := nth (Z.to_nat k) (i_addrs din) 0.

(** [din.addrs[k]], allocated when it is 0. *)
Definition alloc_addr (din : inode) (k : Z) : M mkst inode :=
  if xint (din_addr din k) =? 0 then
    b ← next_block;
    mret (set_i_addrs (<[Z.to_nat k := xint b]> (i_addrs din)) din)
  else mret din.

(** Entry [k] of the indirect block [ind], allocated when it is 0. *)
Definition indirect_addr (ind k : Z) : M mkst Z :=
  indirect ← rsect ind;
  if get32 indirect (4 * k) =? 0 then
    b ← next_block;
    let indirect := put32 indirect (4 * k) (xint b) in
    wsect ind indirect;;
    mret (xint (get32 indirect (4 * k)))
  else mret (xint (get32 indirect (4 * k))).

(** The disk block of block [fbn] of the file. *)
Definition iappend_block (din : inode) (fbn : Z) : M mkst (Z * inode) :=
  if fbn <? NDIRECT then
    din ← alloc_addr din fbn;
    mret (xint (din_addr din fbn), din)
  else
    din ← alloc_addr din NDIRECT;
    x ← indirect_addr (xint (din_addr din NDIRECT)) (fbn - NDIRECT);
    mret (x, din).

Fixpoint iappend_loop (fuel : nat) (din : inode) (off : Z) (p : list Z) : M mkst (inode * Z) :=
  let n := Z.of_nat (length p) in
  if n <=? 0 then mret (din, off) else
  match fuel with
  | O => fault "iappend: loop"
  | S fuel =>
      let fbn := off / BSIZE in
      cassert (fbn <? MAXFILE) "fbn < MAXFILE";;
      '(x, din) ← iappend_block din fbn;
      let n1 := Z.min n (u32 ((fbn + 1) * BSIZE - off)) in
      buf ← rsect x;
      wsect x (splice buf (off - fbn * BSIZE) (take (Z.to_nat n1) p));;
      iappend_loop fuel din (u32 (off + n1)) (drop (Z.to_nat n1) p)
  end.

Definition iappend (inum : Z) (xp : list Z) : M mkst unit :=
  din ← rinode inum;
  '(din, off) ← iappend_loop (length xp) din (xint (i_size din)) xp;
  winode inum (set_i_size (xint off) din).

(** ** [main] *)

Section main.
Context (create : list Z → bool) (host : list Z → option (list (list Z))).

(** The loop that reads the file. *)
Fixpoint copy_file (inum : Z) (pieces : list (list Z)) : M mkst unit :=
  match pieces with
  | [] => mret tt
  | buf :: pieces => iappend inum buf;; copy_file inum pieces
  end.

(** [argv[i]] without the leading underscore. *)
Definition skip_underscore (name : list Z) : list Z := if byte0 name =? 95 then tl name else name.

Definition add_file (rootino : Z) (arg : list Z) : M mkst unit :=
  cassert (negb (bool_decide (47 ∈ arg))) "index(argv[i], '/') == 0";;
  match host arg with
  | None => panic "open"
  | Some pieces =>
      let name := skip_underscore arg in
      inum ← mkfs_ialloc T_FILE;
      iappend rootino (dirent_bytes (xshort inum) (strncpy (replicate DIRSIZ 0) name DIRSIZ));;
      copy_file inum pieces
  end.

(** Behind the loop over the files: the size of the root directory and the
    bitmap. *)
Definition finish (rootino : Z) : M mkst unit :=
  din ← rinode rootino;
  let off := xint (i_size din) in
  let off := u32 ((off / BSIZE + 1) * BSIZE) in
  winode rootino (set_i_size (xint off) din);;
  s ← get;
  mkfs_balloc (freeblock s).

Definition mkfs_main (argv : list (list Z)) : M mkst unit :=
  match argv with
  | _ :: image :: files =>
      cassert (BSIZE mod SIZEOF_DINODE =? 0) "(BSIZE % sizeof(struct dinode)) == 0";;
      cassert (BSIZE mod SIZEOF_DIRENT =? 0) "(BSIZE % sizeof(struct dirent)) == 0";;
      if negb (create image) then panic "open" else
      modify (set_freeblock nmeta);;
      mfor (seqZ 0 FSSIZE) (λ i, wsect i zeros);;
      wsect 1 (splice zeros 0 (sb_bytes mkfs_sb));;
      rootino ← mkfs_ialloc T_DIR;
      cassert (rootino =? ROOTINO) "rootino == ROOTINO";;
      iappend rootino (dirent_bytes (xshort rootino) (strncpy (replicate DIRSIZ 0) [46] DIRSIZ));;
      iappend rootino (dirent_bytes (xshort rootino) (strncpy (replicate DIRSIZ 0) [46; 46] DIRSIZ));;
      mfor files (add_file rootino);;
      finish rootino
  | _ => panic "Usage: mkfs fs.img files..."
  end.
End main.

Definition mkfs_start : mkst := MkMkst [] 1 0.
