(* ===== verification/MkfsCorrect.v ===== *)
(** * The image that mkfs.c makes is a file system

    While mkfs.c runs, the bitmap exists only as the counter [freeblock]; the
    image with the bitmap of the counter in place is a logical disk in the sense
    of FsView.v, on which every allocation is that of [balloc].  So the lemmas
    of Content.v about the files of the kernel apply to the files of the image. *)

From S2P Require Import Prelude Machine Spinlock Console Mem CString Kalloc Sched Sleeplock Ring Bytes Bio Cache Log Recovery Txn Fs FsView Balloc Inode Content Mkfs.

(** ** The disk of the image *)

Definition mkfs_geo : geometry := MkGeo 2 30 FSSIZE 1.
Abbreviation sb := mkfs_sb.
Abbreviation geo := mkfs_geo.

Lemma mkfs_sb_eq : mkfs_sb = MkSb 1000 941 200 30 2 32 58.
Proof. done. Qed.

(** The image shows the logical disk [V], with the bitmap of [freeblock]. *)
Record shows_disk (st : mkst) (V : Z → list Z) : Prop := {
  sd_len : length (img st) = Z.to_nat FSSIZE;
  sd_fb : nmeta ≤ freeblock st ≤ FSSIZE;
  sd_img : ∀ b, 0 ≤ b < FSSIZE → b ≠ sb_bmapstart sb → img st !! Z.to_nat b = Some (V b);
  sd_bits : V (sb_bmapstart sb) = mark_used (Z.to_nat (freeblock st)) 0 zeros;
  sd_free : ∀ b, freeblock st ≤ b < FSSIZE → V b = zeros;
  sd_blk : ∀ b, 0 ≤ b < FSSIZE → length (V b) = Z.to_nat BSIZE ∧ bytes (V b)
}.

(** ** The bitmap *)

Lemma zeros_ok : length zeros = Z.to_nat BSIZE ∧ bytes zeros.
Proof. split; [apply length_replicate|]. apply Forall_replicate. unfold is_byte. lia. Qed.

Lemma mark_used_ok n : ∀ i d, length d = Z.to_nat BSIZE ∧ bytes d → length (mark_used n i d) = Z.to_nat BSIZE ∧ bytes (mark_used n i d).
Proof. induction n as [|n IH]; intros i d [Hl Hb]; [done|]. apply IH. by apply set_bit_ok. Qed.

Lemma mark_used_snoc n : ∀ i d, mark_used (S n) i d = set_bit (mark_used n i d) (i + Z.of_nat n).
Proof.
  induction n as [|n IH]; intros i d; [by rw Z.add_0_r|].
  change (mark_used (S (S n)) i d) with (mark_used (S n) (i + 1) (set_bit d i)). rw IH.
  change (mark_used (S n) i d) with (mark_used n (i + 1) (set_bit d i)). f_equal. lia.
Qed.

Lemma bit_of_zeros k : bit_of zeros k = false.
Proof.
  unfold bit_of. replace (nth (Z.to_nat (k / 8)) zeros 0) with 0; [apply Z.testbit_0_l|].
  unfold zeros. generalize (Z.to_nat (k / 8)) (Z.to_nat BSIZE). intros j m. revert j.
  induction m as [|m IH]; intros [|j]; done || apply IH.
Qed.

Lemma bit_of_mark_used n k : Z.of_nat n ≤ BPB → 0 ≤ k → bit_of (mark_used n 0 zeros) k = (k <? Z.of_nat n).
Proof.
  induction n as [|n IH]; intros Hn Hk.
  - cbn [mark_used]. rw bit_of_zeros. symmetry. apply Z.ltb_ge. lia.
  - rw mark_used_snoc Z.add_0_l bit_of_set; [|done|].
    + rw (proj1 (mark_used_ok n 0 zeros zeros_ok)). unfold BPB, BSIZE in *. lia.
    + rewrite -> IH by lia. destruct (Z.eqb_spec k (Z.of_nat n)), (Z.ltb_spec k (Z.of_nat n)), (Z.ltb_spec k (Z.of_nat (S n))); done || lia.
Qed.

Lemma BBLOCK_sb c : 0 ≤ c < FSSIZE → BBLOCK c sb = 58.
Proof.
  intros Hc. unfold BBLOCK. rewrite -> Z.div_small by (unfold BPB, BSIZE, FSSIZE in *; lia). done.
Qed.
Lemma IBLOCK_sb n : 0 ≤ n < NINODES → IBLOCK n sb = n / 8 + 32.
Proof.
  intros Hn. unfold IBLOCK. change IPB with 8. change (sb_inodestart sb) with 32. unfold NINODES in *. apply wrapu_small. dlia.
Qed.
Lemma IBLOCK_range n : 0 ≤ n < NINODES → 32 ≤ IBLOCK n sb < 58.
Proof. intros Hn. rw IBLOCK_sb //. unfold NINODES in *. dlia. Qed.

Section disk.
Context (st : mkst) (V : Z → list Z) (HV : shows_disk st V).

Lemma used_fb b : 0 ≤ b < FSSIZE → used sb V b = (b <? freeblock st).
Proof using HV.
  intros Hb. pose proof (sd_fb _ _ HV) as Hf. change nmeta with 59 in Hf. unfold FSSIZE in *. unfold used. rewrite -> BBLOCK_sb by done.
  pose proof (sd_bits _ _ HV) as E. change (sb_bmapstart sb) with 58 in E. rw E.
  rewrite -> Z.mod_small by (unfold BPB, BSIZE; lia).
  rewrite -> bit_of_mark_used by (unfold BPB, BSIZE; lia). by rewrite -> Z2Nat.id by lia.
Qed.

Lemma mkfs_fs_ok : fs_ok geo sb V.
Proof using HV.
  pose proof (sd_fb _ _ HV) as Hf. change nmeta with 59 in Hf. change FSSIZE with 1000 in Hf.
  assert (∀ b, 0 ≤ b < 1000 → used sb V b = false → 59 ≤ b) as Hfree.
  { intros b Hb. rewrite -> used_fb by done. intros ?%Z.ltb_ge. lia. }
  split.
  - split; [split; [done|rw mkfs_sb_eq; cbn; lia]|rw mkfs_sb_eq; cbn; lia|]. intros b Hb. rewrite -> BBLOCK_sb by done. unfold home. cbn. unfold FSSIZE. lia.
  - split; [rw mkfs_sb_eq; cbn; lia|]. intros n Hn. pose proof (IBLOCK_range n Hn). unfold home. cbn. unfold FSSIZE. lia.
  - intros b Hb Hu. pose proof (Hfree b Hb Hu). change (sb_size sb) with 1000 in *. split; [unfold home; cbn; unfold FSSIZE; lia|].
    intros c Hc. rewrite -> BBLOCK_sb by done. lia.
  - intros b Hb Hu. pose proof (Hfree b Hb Hu). split; [lia|]. intros n Hn. pose proof (IBLOCK_range n Hn). lia.
  - intros n c Hn Hc. pose proof (IBLOCK_range n Hn). rewrite -> (BBLOCK_sb c) by done. lia.
Qed.

Lemma mkfs_blocks_ok : blocks_ok geo V.
Proof using HV. intros b [Hb _]. by apply (sd_blk _ _ HV). Qed.

Lemma sect_pos x : 0 ≤ x < FSSIZE → u32 (x * BSIZE) / BSIZE = x.
Proof using Type. unfold BSIZE, FSSIZE. intros Hx. rewrite -> wrapu_small by lia. apply Z.div_mul. lia. Qed.

Lemma rsect_run x : 0 ≤ x < FSSIZE → x ≠ 58 → rsect x st = Ok (V x) st.
Proof using HV.
  intros Hx Hn. unfold rsect. erewrite bind_ok; [|done]. rw sect_pos //. by rewrite -> (sd_img _ _ HV x Hx Hn).
Qed.

Lemma wsect_run x d : 0 ≤ x < freeblock st → x ≠ 58 → length d = Z.to_nat BSIZE → bytes d →
  wsect x d st = Ok tt (set_img (<[Z.to_nat x := d]> (img st)) st) ∧
  shows_disk (set_img (<[Z.to_nat x := d]> (img st)) st) (vset V x d).
Proof using HV.
  intros Hx Hn Hl Hb. pose proof (sd_fb _ _ HV) as Hf. change nmeta with 59 in Hf. pose proof (sd_len _ _ HV) as Hlen. unfold FSSIZE in *. split.
  - unfold wsect, modify. rewrite -> sect_pos by (unfold FSSIZE; lia). unfold write_block. rewrite -> decide_True by lia. done.
  - destruct HV as [H1 H2 H3 H4 H5 H6]. split.
    + cbn. by rw length_insert.
    + done.
    + intros b Hb' Hb58. cbn [img set_img]. destruct (decide (b = x)) as [->|Hne].
      * rw vset_eq list_lookup_insert_eq //. lia.
      * rw vset_ne // list_lookup_insert_ne; [lia|]. by apply H3.
    + rewrite -> vset_ne; [done|]. change (sb_bmapstart sb) with 58. lia.
    + intros b Hb'. cbn in Hb'. rewrite -> vset_ne by lia. by apply H5.
    + intros b Hb'. destruct (decide (b = x)) as [->|Hne]; [by rw vset_eq|]. rw vset_ne //. by apply H6.
Qed.

(** [freeblock++] is the allocation of a block. *)
Lemma next_block_run : freeblock st < FSSIZE →
  next_block st = Ok (freeblock st) (set_freeblock (freeblock st + 1) st) ∧
  shows_disk (set_freeblock (freeblock st + 1) st) (allocated sb V (freeblock st)).
Proof using HV.
  intros Hlt. pose proof (sd_fb _ _ HV) as Hf. change nmeta with 59 in Hf. unfold FSSIZE in *. split.
  - unfold next_block. erewrite bind_ok; [|done]. rewrite -> wrapu_small by lia. done.
  - destruct HV as [H1 H2 H3 H4 H5 H6]. change (sb_bmapstart sb) with 58 in *. change nmeta with 59 in *.
    assert (∀ b, 0 ≤ b < 1000 → b ≠ 58 → allocated sb V (freeblock st) b = V b) as Hsame.
    { intros b Hb Hn. unfold allocated, mark. destruct (decide (b = freeblock st)) as [->|Hne].
      - rw vset_eq. symmetry. apply H5. unfold FSSIZE. lia.
      - rw vset_ne // vset_ne //. by rewrite -> BBLOCK_sb by (unfold FSSIZE; lia). }
    assert (allocated sb V (freeblock st) 58 = mark_used (Z.to_nat (freeblock st + 1)) 0 zeros) as H58.
    { unfold allocated, mark. rewrite -> vset_ne by lia. rewrite -> BBLOCK_sb by (unfold FSSIZE; lia). rw vset_eq H4.
      rewrite -> Z.mod_small by (unfold BPB, BSIZE; lia). replace (Z.to_nat (freeblock st + 1)) with (S (Z.to_nat (freeblock st))) by lia.
      rw mark_used_snoc. f_equal. lia. }
    split; try done.
    + change nmeta with 59. cbn [freeblock set_freeblock]. unfold FSSIZE. lia.
    + intros b Hb Hn. cbn [img set_freeblock]. change (sb_bmapstart sb) with 58 in *. rewrite -> Hsame by done. by apply H3.
    + intros b Hb. cbn in Hb. unfold FSSIZE in *. rewrite -> Hsame by lia. apply H5. lia.
    + intros b Hb. destruct (decide (b = 58)) as [->|Hn].
      * rw H58. apply mark_used_ok, zeros_ok.
      * rewrite -> Hsame by done. by apply H6.
Qed.
End disk.

(** ** The blocks of a file that only grows *)

(** The blocks that a file of [n] bytes takes, with its indirect block. *)
Definition nblk (n : Z) : Z := (n + BSIZE - 1) / BSIZE + (if NDIRECT * BSIZE <? n then 1 else 0).

(** The first [n] bytes of the file have their blocks, and nothing else. *)
Definition compact (V : Z → list Z) (i : inode) (n : Z) : Prop :=
  (∀ bn, 0 ≤ bn < MAXFILE → faddr V i bn ≠ 0 ↔ bn * BSIZE < n) ∧ (iind i ≠ 0 ↔ NDIRECT * BSIZE < n).

(** Inside one block nothing changes. *)
Lemma compact_same V i n n' : 0 ≤ n → 0 ≤ n' → (n + BSIZE - 1) / BSIZE = (n' + BSIZE - 1) / BSIZE → compact V i n → compact V i n' ∧ nblk n' = nblk n.
Proof.
  unfold BSIZE. intros Hn Hn' E [H1 H2]. assert (∀ b, b * 512 < n ↔ b * 512 < n') as Hs by (intros; dlia).
  split; [split|].
  - intros bn Hbn. unfold BSIZE in *. rewrite <- Hs. by apply H1.
  - unfold BSIZE, NDIRECT in *. rewrite <- Hs. done.
  - unfold nblk, BSIZE, NDIRECT. rw -E. f_equal. pose proof (Hs 12). destruct (Z.ltb_spec (12 * 512) n), (Z.ltb_spec (12 * 512) n'); lia.
Qed.

Lemma xint_id x : 0 ≤ x < 2 ^ 32 → xint x = x.
Proof.
  intros Hx. unfold xint. rw !Z.shiftr_div_pow2 //. cbn [le_value]. unfold wrapu. dlia.
Qed.
Lemma xshort_id x : 0 ≤ x < 2 ^ 16 → xshort x = x.
Proof. intros Hx. unfold xshort. rw !Z.shiftr_div_pow2 //. cbn [le_value]. unfold wrapu. dlia. Qed.

Section block.
Context (st : mkst) (V : Z → list Z) (i : inode) (HV : shows_disk st V) (Hfi : file_ok geo sb V i).

(** An entry of the inode that is already there, and a new one. *)
Lemma alloc_addr_old k : 0 ≤ k ≤ NDIRECT → iaddr i k ≠ 0 → alloc_addr i k st = Ok i st.
Proof using Hfi.
  intros Hk Hn. unfold alloc_addr. change (din_addr i k) with (iaddr i k). rewrite -> xint_id by (by eapply iaddr_range).
  by rewrite -> (proj2 (Z.eqb_neq _ _) Hn).
Qed.

Lemma indirect_addr_old bn : NDIRECT ≤ bn < MAXFILE → iind i ≠ 0 → faddr V i bn ≠ 0 →
  indirect_addr (iind i) (bn - NDIRECT) st = Ok (faddr V i bn) st.
Proof using HV Hfi.
  intros Hbn Hi. pose proof (fk_block _ _ _ _ Hfi _ (owns_ind V i Hi)) as Hd. pose proof (db_range _ _ _ _ Hd) as Hr.
  unfold faddr. rewrite -> (proj2 (Z.ltb_ge bn NDIRECT)) by lia. rewrite -> (proj2 (Z.eqb_neq (iind i) 0) Hi). intros Hn.
  unfold indirect_addr. rewrite -> (bind_ok _ _ _ _ _ (rsect_run st V HV (iind i) ltac:(change (sb_size sb) with FSSIZE in Hr; lia)
    ltac:(rewrite <- (BBLOCK_sb 0) by done; apply not_eq_sym, (db_bitmap _ _ _ _ Hd); done))).
  rewrite -> (proj2 (Z.eqb_neq _ _) Hn). rewrite -> xint_id; [done|]. apply get32_range. by apply mkfs_blocks_ok with st, (db_home _ _ _ _ Hd).
Qed.

Lemma indirect_addr_new bn : NDIRECT ≤ bn < MAXFILE → iind i ≠ 0 → faddr V i bn = 0 → freeblock st < FSSIZE →
  ∃ st' V', indirect_addr (iind i) (bn - NDIRECT) st = Ok (freeblock st) st' ∧ shows_disk st' V' ∧
    freeblock st' = freeblock st + 1 ∧ freeinode st' = freeinode st ∧
    evolves geo sb V i V' i ∧ (∀ b, 0 ≤ b < MAXFILE → fblock V' i b = fblock V i b) ∧
    (∀ b, 0 ≤ b < MAXFILE → faddr V' i b = if decide (b = bn) then freeblock st else faddr V i b).
Proof using HV Hfi.
  intros Hbn Hi H0 Hf. pose proof (fk_block _ _ _ _ Hfi _ (owns_ind V i Hi)) as Hd. pose proof (db_range _ _ _ _ Hd) as Hr.
  change (sb_size sb) with FSSIZE in Hr. assert (iind i ≠ 58) as H58.
  { rewrite <- (BBLOCK_sb 0) by done. by apply not_eq_sym, (db_bitmap _ _ _ _ Hd). }
  pose proof (db_used _ _ _ _ Hd) as Hu. rewrite -> (used_fb st V HV) in Hu by lia. apply Z.ltb_lt in Hu.
  destruct (next_block_run st V HV Hf) as [E1 HV1]. pose proof (sd_fb _ _ HV) as Hb. change nmeta with 59 in Hb.
  destruct (mkfs_blocks_ok st V HV _ (db_home _ _ _ _ Hd)) as [Hil Hib].
  assert (used sb V (freeblock st) = false) as Huf by (rewrite -> (used_fb st V HV) by lia; apply Z.ltb_ge; lia).
  destruct (evolves_indirect geo sb V i (mkfs_fs_ok st V HV) Hfi (mkfs_blocks_ok st V HV) bn (freeblock st)) as (Hev & Hfb & Hfa);
    [change (sb_size sb) with FSSIZE; lia|done|lia|done|done|].
  set (d := put32 (V (iind i)) (4 * (bn - NDIRECT)) (freeblock st)) in *.
  assert (length d = Z.to_nat BSIZE ∧ bytes d) as [Hdl Hdb].
  { split; [|by apply bytes_put32]. unfold d. change MAXFILE with 140 in *. unfold NDIRECT in *. rw length_put32; [lia|rw Hil; unfold BSIZE; lia|done]. }
  destruct (wsect_run _ _ HV1 (iind i) d) as [E2 HV2]; [cbn; lia|done|done|done|].
  eexists _, _. split_and!; [|exact HV2|done|done|exact Hev|exact Hfb|].
  - unfold indirect_addr. rewrite -> (bind_ok _ _ _ _ _ (rsect_run st V HV (iind i) ltac:(lia) H58)).
    assert (get32 (V (iind i)) (4 * (bn - NDIRECT)) = 0) as Hg.
    { revert H0. unfold faddr. rewrite -> (proj2 (Z.ltb_ge bn NDIRECT)) by lia. by rewrite -> (proj2 (Z.eqb_neq (iind i) 0) Hi). }
    rw Hg. change (0 =? 0) with true. cbv iota. rw (bind_ok _ _ _ _ _ E1). unfold FSSIZE in *. rewrite -> (xint_id (freeblock st)) by lia. fold d. rw (bind_ok _ _ _ _ _ E2).
    unfold d. change MAXFILE with 140 in *. unfold NDIRECT in *. rewrite -> get32_put32_eq by (rw ?Hil; unfold BSIZE; lia).
    rewrite -> wrapu_small, xint_id by lia. done.
  - intros b Hb'. case_decide as Eb; [by subst|]. unfold faddr. destruct (Z.ltb_spec b NDIRECT) as [|Hge]; [done|].
    rewrite -> (proj2 (Z.eqb_neq (iind i) 0) Hi). rw vset_eq. unfold d. change MAXFILE with 140 in *. unfold NDIRECT in *.
    apply get32_put32_ne; rw ?Hil; unfold BSIZE; lia.
Qed.

Lemma alloc_addr_new k : 0 ≤ k ≤ NDIRECT → iaddr i k = 0 → freeblock st < FSSIZE →
  let i' := set_i_addrs (<[Z.to_nat k := freeblock st]> (i_addrs i)) i in
  alloc_addr i k st = Ok i' (set_freeblock (freeblock st + 1) st).
Proof using HV.
  intros Hk H0 Hf i'. unfold alloc_addr. change (din_addr i k) with (iaddr i k). rw H0.
  destruct (next_block_run st V HV Hf) as [E _]. pose proof (sd_fb _ _ HV) as Hb. change nmeta with 59 in Hb. unfold FSSIZE in *.
  change (xint 0 =? 0) with true. cbv iota. rw (bind_ok _ _ _ _ _ E). rewrite -> xint_id by lia. done.
Qed.
End block.

(** What [iappend_block] establishes for the block of byte [off]. *)
Definition block_post (st : mkst) (V : Z → list Z) (i : inode) (off : Z) (st' : mkst) (V' : Z → list Z) (i' : inode) : Prop :=
  shows_disk st' V' ∧ evolves geo sb V i V' i' ∧ (∀ b, 0 ≤ b < MAXFILE → fblock V' i' b = fblock V i b) ∧
  i_size i' = i_size i ∧ freeinode st' = freeinode st ∧ freeblock st' + nblk off = freeblock st + nblk (off + 1) ∧
  compact V' i' (off + 1).

(** A new entry in an indirect block that is there. *)
Lemma append_entry st V i k : shows_disk st V → file_ok geo sb V i → NDIRECT ≤ k < MAXFILE → iind i ≠ 0 →
  (∀ b, 0 ≤ b < MAXFILE → faddr V i b ≠ 0 ↔ b < k) → freeblock st < FSSIZE →
  ∃ st' V', (∀ din, din_addr din NDIRECT = iind i →
      (x ← indirect_addr (xint (din_addr din NDIRECT)) (k - NDIRECT); mret (x, din)) st = Ok (faddr V' i k, din) st') ∧
    shows_disk st' V' ∧ evolves geo sb V i V' i ∧ (∀ b, 0 ≤ b < MAXFILE → fblock V' i b = fblock V i b) ∧
    freeinode st' = freeinode st ∧ freeblock st' = freeblock st + 1 ∧
    (∀ b, 0 ≤ b < MAXFILE → faddr V' i b ≠ 0 ↔ b < k + 1).
Proof.
  intros HV Hfi Hk Hi Hc Hf. pose proof (sd_fb _ _ HV) as Hb. change nmeta with 59 in Hb.
  assert (faddr V i k = 0) as H0.
  { destruct (Z.eq_dec (faddr V i k) 0) as [|Hne]; [done|]. apply Hc in Hne; [lia|]. unfold NDIRECT in *. lia. }
  destruct (indirect_addr_new st V i HV Hfi k Hk Hi H0 Hf) as (st' & V' & E & HV' & Hfb' & Hfn & Hev & Hfbl & Hfa).
  assert (0 ≤ k < MAXFILE) as Hk0 by (unfold NDIRECT in *; lia).
  exists st', V'. split_and!; try done.
  - intros din ->. rewrite -> xint_id by (by eapply iaddr_range). rw (bind_ok _ _ _ _ _ E). by rewrite -> Hfa, decide_True by done.
  - intros b Hb'. rewrite -> Hfa by done. case_decide as Eb; [lia|]. rewrite -> Hc by done. lia.
Qed.

Section append_block.
Context (st : mkst) (V : Z → list Z) (i : inode) (HV : shows_disk st V) (Hfi : file_ok geo sb V i).
Context (off : Z) (Hc : compact V i off) (Ho : 0 ≤ off < MAXFILE * BSIZE) (Hroom : freeblock st + (nblk (off + 1) - nblk off) ≤ FSSIZE).
Abbreviation bn := (off / BSIZE).

Lemma append_inside : off mod BSIZE ≠ 0 → iappend_block i bn st = Ok (faddr V i bn, i) st ∧ block_post st V i off st V i.
Proof using HV Hfi Hc Ho.
  intros Hm. change MAXFILE with 140 in *. unfold BSIZE in *. assert (0 ≤ off / 512 < 140 ∧ off / 512 * 512 < off) as [Hbn Hlt] by dlia.
  pose proof (proj2 (proj1 Hc _ Hbn) Hlt) as Ha. split.
  - unfold iappend_block. destruct (Z.ltb_spec (off / 512) NDIRECT) as [Hd|Hd].
    + assert (faddr V i (off / 512) = iaddr i (off / 512)) as Ef by (unfold faddr; by rewrite -> (proj2 (Z.ltb_lt _ _) Hd)).
      rw Ef in Ha. rewrite -> Ef. unfold NDIRECT in *. rw (bind_ok _ _ _ _ _ (alloc_addr_old st V i Hfi (off / 512) ltac:(unfold NDIRECT; lia) Ha)).
      change (din_addr i (off / 512)) with (iaddr i (off / 512)). rewrite -> xint_id by (by eapply iaddr_range). done.
    + assert (iind i ≠ 0) as Hi by (apply (proj2 Hc); unfold NDIRECT, BSIZE in *; dlia).
      rw (bind_ok _ _ _ _ _ (alloc_addr_old st V i Hfi NDIRECT ltac:(done) Hi)). change (din_addr i NDIRECT) with (iind i).
      rewrite -> xint_id by (by eapply iaddr_range). by rw (bind_ok _ _ _ _ _ (indirect_addr_old st V i HV Hfi (off / 512) ltac:(change MAXFILE with 140; lia) Hi Ha)).
  - destruct (compact_same V i off (off + 1)) as [Hc' Hn]; [lia..|unfold BSIZE; dlia|done|].
    unfold block_post. split_and!; try done; [|lia]. apply evolves_refl; [by eapply mkfs_fs_ok|done].
Qed.

Lemma append_direct : off mod BSIZE = 0 → bn < NDIRECT →
  ∃ st' V' i', iappend_block i bn st = Ok (faddr V' i' bn, i') st' ∧ block_post st V i off st' V' i'.
Proof using All.
  intros Hm Hd. pose proof (sd_fb _ _ HV) as Hb. change nmeta with 59 in Hb. set (k := bn) in *.
  assert (off = k * 512 ∧ 0 ≤ k) as [Hoff Hk] by (unfold k, BSIZE in *; dlia).
  assert (nblk (off + 1) = nblk off + 1) as Hn.
  { unfold nblk, NDIRECT, BSIZE in *. rewrite -> !(proj2 (Z.ltb_ge _ _)) by lia. dlia. }
  assert (iaddr i k = 0) as H0.
  { destruct (Z.eq_dec (iaddr i k) 0) as [|Hne]; [done|]. assert (k * BSIZE < off); [|unfold BSIZE in *; lia]. apply (proj1 Hc); [change MAXFILE with 140; unfold NDIRECT in *; lia|].
    unfold faddr. by rewrite -> (proj2 (Z.ltb_lt _ _) Hd). }
  assert (iind i = 0) as Hi0.
  { destruct (Z.eq_dec (iind i) 0) as [|Hne]; [done|]. apply (proj2 Hc) in Hne. unfold NDIRECT, BSIZE in *. lia. }
  assert (freeblock st < FSSIZE) as Hf by lia. destruct (next_block_run st V HV Hf) as [_ HV1].
  assert (used sb V (freeblock st) = false) as Huf by (rewrite -> (used_fb st V HV) by lia; apply Z.ltb_ge; lia).
  destruct (evolves_addr geo sb V i (mkfs_fs_ok st V HV) Hfi (mkfs_blocks_ok st V HV) k (freeblock st)) as (Hev & Hfb & Hia & Hin);
    [change (sb_size sb) with FSSIZE; lia|done|lia|done|]. rewrite -> decide_False in Hin by lia.
  set (i' := set_i_addrs (<[Z.to_nat k := freeblock st]> (i_addrs i)) i) in *.
  assert (∀ b, 0 ≤ b < MAXFILE → faddr (allocated sb V (freeblock st)) i' b = if decide (b = k) then freeblock st else if b <? NDIRECT then faddr V i b else 0) as Hfa.
  { intros b Hb'. unfold faddr. destruct (Z.ltb_spec b NDIRECT) as [Hlt|Hge].
    - unfold i'. rw iaddr_insert; [lia|lia| |done]. pose proof (io_addrs _ (fk_inode _ _ _ _ Hfi)) as [-> _]. unfold NDIRECT in *. lia.
    - rewrite -> Hin, Hi0, decide_False by lia. done. }
  exists (set_freeblock (freeblock st + 1) st), (allocated sb V (freeblock st)), i'. split.
  - unfold iappend_block. rewrite -> (proj2 (Z.ltb_lt k NDIRECT) Hd). rw (bind_ok _ _ _ _ _ (alloc_addr_new st V i HV k ltac:(lia) H0 Hf)).
    change MAXFILE with 140 in *. rewrite -> Hfa, decide_True by (unfold NDIRECT in *; lia || done). fold i'. change (din_addr i' k) with (iaddr i' k). rw Hia.
    rewrite -> xint_id by (unfold FSSIZE in *; lia). done.
  - unfold block_post. split_and!; try done; [cbn; lia|]. split.
    + intros b Hb'. rewrite -> Hfa by done. unfold BSIZE. case_decide as E; [lia|].
      destruct (Z.ltb_spec b NDIRECT) as [Hlt|Hge]; [rewrite -> (proj1 Hc) by done|]; unfold NDIRECT, BSIZE in *; lia.
    + rewrite -> Hin, Hi0. unfold NDIRECT, BSIZE in *. lia.
Qed.
Lemma append_indirect : off mod BSIZE = 0 → NDIRECT ≤ bn →
  ∃ st' V' i', iappend_block i bn st = Ok (faddr V' i' bn, i') st' ∧ block_post st V i off st' V' i'.
Proof using All.
  intros Hm Hd. pose proof (sd_fb _ _ HV) as Hb. change nmeta with 59 in Hb. set (k := bn) in *.
  assert (off = k * 512 ∧ 0 ≤ k < MAXFILE) as [Hoff Hk] by (change MAXFILE with 140 in *; unfold k, BSIZE in *; dlia).
  assert (∀ b, 0 ≤ b < MAXFILE → faddr V i b ≠ 0 ↔ b < k) as Hck.
  { intros b Hb'. rewrite -> (proj1 Hc) by done. unfold BSIZE. lia. }
  assert (nblk (off + 1) = nblk off + (if k =? NDIRECT then 2 else 1)) as Hn.
  { unfold nblk, NDIRECT, BSIZE in *. rewrite -> (proj2 (Z.ltb_lt _ (off + 1))) by lia.
    destruct (Z.eqb_spec k 12), (Z.ltb_spec (12 * 512) off); try lia; dlia. }
  assert (∀ V' i', (∀ b, 0 ≤ b < MAXFILE → faddr V' i' b ≠ 0 ↔ b < k + 1) → iind i' ≠ 0 → compact V' i' (off + 1)) as Hcomp.
  { intros V' i' H1 H2. split; [intros b Hb'; rewrite -> H1 by done|]; unfold NDIRECT, BSIZE in *; [lia|]. split; [lia|done]. }
  unfold iappend_block. rewrite -> (proj2 (Z.ltb_ge k NDIRECT)) by lia.
  destruct (Z.eqb_spec k NDIRECT) as [Ek|Ek].
  - assert (iind i = 0) as Hi0.
    { destruct (Z.eq_dec (iind i) 0) as [|Hne]; [done|]. apply (proj2 Hc) in Hne. unfold NDIRECT, BSIZE in *. lia. }
    assert (freeblock st < FSSIZE) as Hf by lia. destruct (next_block_run st V HV Hf) as [_ HV1].
    assert (used sb V (freeblock st) = false) as Huf by (rewrite -> (used_fb st V HV) by lia; apply Z.ltb_ge; lia).
    destruct (evolves_addr geo sb V i (mkfs_fs_ok st V HV) Hfi (mkfs_blocks_ok st V HV) NDIRECT (freeblock st)) as (Hev & Hfb & Hia & Hin);
      [change (sb_size sb) with FSSIZE; lia|done|done|done|]. rewrite -> decide_True in Hin by done.
    set (i1 := set_i_addrs (<[Z.to_nat NDIRECT := freeblock st]> (i_addrs i)) i) in *.
    destruct (append_entry _ _ i1 k HV1 (ev_file _ _ _ _ _ _ Hev)) as (st' & V' & E & HV' & Hev' & Hfb' & Hfn & Hfbk & Hc');
      [lia|rw Hia; lia|intros b Hb'; rewrite -> Hin by done; by apply Hck|cbn; lia|].
    exists st', V', i1. split; [|unfold block_post; split_and!; try done].
    + rw (bind_ok _ _ _ _ _ (alloc_addr_new st V i HV NDIRECT ltac:(done) Hi0 Hf)). by apply E.
    + by eapply evolves_trans.
    + intros b Hb'. rewrite -> Hfb', Hfb by done. done.
    + cbn in Hfbk. lia.
    + apply Hcomp; [done|]. rw Hia. lia.
  - assert (iind i ≠ 0) as Hi by (apply (proj2 Hc); unfold NDIRECT, BSIZE in *; lia).
    destruct (append_entry st V i k HV Hfi ltac:(lia) Hi Hck ltac:(lia)) as (st' & V' & E & HV' & Hev' & Hfb' & Hfn & Hfbk & Hc').
    exists st', V', i. split; [|unfold block_post; split_and!; try done].
    + rw (bind_ok _ _ _ _ _ (alloc_addr_old st V i Hfi NDIRECT ltac:(done) Hi)). by apply E.
    + lia.
    + by apply Hcomp.
Qed.

Lemma iappend_block_run :
  ∃ st' V' i', iappend_block i bn st = Ok (faddr V' i' bn, i') st' ∧ block_post st V i off st' V' i'.
Proof using All.
  destruct (Z.eq_dec (off mod BSIZE) 0) as [Hm|Hm]; [|exists st, V, i; by apply append_inside].
  destruct (Z.lt_ge_cases bn NDIRECT); [by apply append_direct|by apply append_indirect].
Qed.
End append_block.

(** ** [iappend] *)

Lemma nblk_mono a b : 0 ≤ a ≤ b → nblk a ≤ nblk b.
Proof.
  intros H. unfold nblk, BSIZE, NDIRECT. assert ((a + 512 - 1) / 512 ≤ (b + 512 - 1) / 512) by (apply Z.div_le_mono; lia).
  destruct (Z.ltb_spec (12 * 512) a), (Z.ltb_spec (12 * 512) b); lia.
Qed.

Definition append_post (st : mkst) (V : Z → list Z) (i : inode) (off : Z) (p : list Z) (st' : mkst) (V' : Z → list Z) (i' : inode) : Prop :=
  let n := Z.of_nat (length p) in
  shows_disk st' V' ∧ evolves geo sb V i V' i' ∧ fwritten V i off p V' i' ∧
  i_size i' = i_size i ∧ freeinode st' = freeinode st ∧ freeblock st' + nblk off = freeblock st + nblk (off + n) ∧
  compact V' i' (off + n).

(** One piece of the data, in one block. *)
Lemma append_piece st V i off p (n := Z.of_nat (length p)) (m := Z.min n (BSIZE - off mod BSIZE)) :
  shows_disk st V → file_ok geo sb V i → compact V i off → 0 ≤ off → 0 < n → off + n ≤ MAXFILE * BSIZE → bytes p →
  freeblock st + (nblk (off + n) - nblk off) ≤ FSSIZE →
  ∃ st' V' i', (∀ A (k : Z * inode → M mkst A),
      ('(x, din) ← iappend_block i (off / BSIZE);
       buf ← rsect x;
       wsect x (splice buf (off - off / BSIZE * BSIZE) (take (Z.to_nat m) p));;
       k (x, din)) st = k (faddr V' i' (off / BSIZE), i') st') ∧
    shows_disk st' V' ∧ evolves geo sb V i V' i' ∧ i_size i' = i_size i ∧ freeinode st' = freeinode st ∧
    freeblock st' + nblk off = freeblock st + nblk (off + m) ∧ compact V' i' (off + m) ∧
    (∀ V3 i3, fwritten V' i' (off + m) (drop (Z.to_nat m) p) V3 i3 → fwritten V i off p V3 i3).
Proof.
  intros HV Hfi Hc Ho Hn Hmax Hby Hroom. pose proof (chunk_pos off n Hn Ho) as Hm. fold m in Hm.
  pose proof (block_range off n Hn Ho Hmax) as Hbn. set (bn := off / BSIZE) in *.
  assert (0 ≤ off < MAXFILE * BSIZE) as Hor by lia.
  destruct (iappend_block_run st V i HV Hfi off Hc Hor) as (st1 & V1 & i1 & E1 & HV1 & Hev1 & Hfb1 & Hsz1 & Hfn1 & Hfk1 & Hc1);
    [pose proof (nblk_mono (off + 1) (off + n)); lia|]. fold bn in E1.
  pose proof (ev_file _ _ _ _ _ _ Hev1) as Hfi1.
  assert (faddr V1 i1 bn ≠ 0) as Ha by (apply (proj1 Hc1); [done|]; unfold bn, BSIZE; dlia).
  pose proof (fk_block _ _ _ _ Hfi1 _ (owns_addr V1 i1 bn Hbn Ha)) as Hd. pose proof (db_range _ _ _ _ Hd) as Hr. change (sb_size sb) with FSSIZE in Hr.
  pose proof (db_used _ _ _ _ Hd) as Hu. rewrite -> (used_fb st1 V1 HV1) in Hu by lia. apply Z.ltb_lt in Hu.
  assert (faddr V1 i1 bn ≠ 58) as H58 by (rewrite <- (BBLOCK_sb 0) by done; by apply not_eq_sym, (db_bitmap _ _ _ _ Hd)).
  destruct (sd_blk _ _ HV1 (faddr V1 i1 bn) ltac:(lia)) as [Hbl Hbb].
  assert (off - bn * BSIZE = off mod BSIZE) as Eo by (unfold bn, BSIZE; dlia).
  assert (length (take (Z.to_nat m) p) = Z.to_nat m) as Hlt by (rw length_take; lia).
  set (d := splice (V1 (faddr V1 i1 bn)) (off mod BSIZE) (take (Z.to_nat m) p)).
  assert (0 ≤ off mod BSIZE) as Hod by (unfold BSIZE; dlia).
  destruct (wsect_run st1 V1 HV1 (faddr V1 i1 bn) d) as [E2 HV2]; [lia|done| |apply bytes_splice; [done|by apply Forall_take]|].
  { unfold d. rw length_splice; [lia|rw Hlt Hbl; unfold BSIZE in *; lia|done]. }
  destruct (evolves_write geo sb V1 i1 (mkfs_fs_ok _ _ HV1) Hfi1 bn d Hbn Ha) as (Hev2 & Hfb2 & Hfa2).
  assert (V1 (faddr V1 i1 bn) = fblock V1 i1 bn) as Ev by (unfold fblock; by rewrite -> (proj2 (Z.eqb_neq _ _) Ha)).
  assert (compact (vset V1 (faddr V1 i1 bn) d) i1 (off + 1)) as Hc2.
  { split; [|apply Hc1]. intros b Hb. rewrite -> Hfa2 by done. by apply Hc1. }
  destruct (compact_same (vset V1 (faddr V1 i1 bn) d) i1 (off + 1) (off + m)) as [Hc3 Hnb]; [lia..|unfold m, BSIZE in *; dlia|exact Hc2|].
  eexists _, _, i1. split_and!; [|exact HV2|by eapply evolves_trans|done|done|cbn; lia|done|].
  - intros A k. rw (bind_ok _ _ _ _ _ E1). rewrite -> (bind_ok _ _ _ _ _ (rsect_run st1 V1 HV1 (faddr V1 i1 bn) ltac:(lia) H58)).
    rw Eo. fold d. rw (bind_ok _ _ _ _ _ E2). by rewrite -> Hfa2.
  - intros V3 i3 H3. eapply (fwritten_step geo sb V i off p V1); try done; [by eapply mkfs_blocks_ok|].
    intros b Hb. rewrite -> Hfb2 by done. unfold d. by rw Ev.
Qed.

Lemma iappend_loop_run fuel : ∀ st V i off p (n := Z.of_nat (length p)),
  shows_disk st V → file_ok geo sb V i → compact V i off → 0 ≤ off → off + n ≤ MAXFILE * BSIZE → bytes p →
  freeblock st + (nblk (off + n) - nblk off) ≤ FSSIZE → (length p ≤ fuel)%nat →
  ∃ st' V' i', iappend_loop fuel i off p st = Ok (i', off + n) st' ∧ append_post st V i off p st' V' i'.
Proof.
  induction fuel as [|fuel IH]; intros st V i off p n HV Hfi Hc Ho Hmax Hby Hroom Hfuel; cbn [iappend_loop]; fold n;
    destruct (Z.leb_spec n 0) as [Hn|Hn]; try lia.
  1,2: exists st, V, i; unfold append_post; fold n; replace n with 0 by lia; rw !Z.add_0_r; split_and!; try done;
    [apply evolves_refl; [by eapply mkfs_fs_ok|done]|intros o Ho'; rewrite -> decide_False by lia; done].
  pose proof (chunk_pos off n Hn Ho) as Hm. pose proof (block_range off n Hn Ho Hmax) as Hbn.
  unfold cassert. rewrite -> (proj2 (Z.ltb_lt _ _) (proj2 Hbn)).
  change MAXFILE with 140 in Hmax. rewrite -> (wrapu_small 32 ((off / BSIZE + 1) * BSIZE - off)) by (unfold BSIZE in *; dlia).
  replace ((off / BSIZE + 1) * BSIZE - off) with (BSIZE - off mod BSIZE) by (unfold BSIZE; dlia).
  set (m := Z.min n (BSIZE - off mod BSIZE)) in *.
  destruct (append_piece st V i off p HV Hfi Hc Ho Hn Hmax Hby Hroom) as (st1 & V1 & i1 & E1 & HV1 & Hev1 & Hsz1 & Hfn1 & Hfk1 & Hc1 & Hfw).
  fold n m in E1, Hfk1, Hc1, Hfw. assert (Z.of_nat (length (drop (Z.to_nat m) p)) = n - m) as Hld by (rw length_drop; lia).
  destruct (IH st1 V1 i1 (off + m) (drop (Z.to_nat m) p)) as (st3 & V3 & i3 & E3 & Hp3); rw ?Hld; try done; try lia.
  - apply Hev1.
  - change MAXFILE with 140. lia.
  - by apply Forall_drop.
  - replace (off + m + (n - m)) with (off + n) by lia. lia.
  - exists st3, V3, i3. unfold append_post in *. rewrite -> Hld in *. replace (off + m + (n - m)) with (off + n) in * by lia.
    destruct Hp3 as (HV3 & Hev3 & Hfw3 & Hsz3 & Hfn3 & Hfk3 & Hc3). split.
    + erewrite bind_ok; [|done]. etransitivity; [apply (E1 _ (λ xd, iappend_loop fuel xd.2 (u32 (off + m)) (drop (Z.to_nat m) p)))|].
      cbn [snd]. rewrite -> wrapu_small by (unfold BSIZE in *; lia). done.
    + fold n. split_and!; [done|by eapply evolves_trans|by apply Hfw|congruence|congruence|lia|done].
Qed.

(** ** The inodes of the image *)

Abbreviation I V n := (disk_inode sb V n (din0 n)).

Lemma rinode_run st V n : shows_disk st V → 0 ≤ n < NINODES → rinode n st = Ok (I V n) st.
Proof.
  intros HV Hn. pose proof (IBLOCK_range n Hn) as Hb. unfold rinode.
  rewrite -> (bind_ok _ _ _ _ _ (rsect_run st V HV (IBLOCK n sb) ltac:(unfold FSSIZE; lia) ltac:(lia))). done.
Qed.

Lemma winode_run st V n i : shows_disk st V → 0 ≤ n < NINODES → i_inum i = n → inode_ok i →
  ∃ st', winode n i st = Ok tt st' ∧ shows_disk st' (updated sb V i) ∧ freeinode st' = freeinode st ∧ freeblock st' = freeblock st.
Proof.
  intros HV Hn <- Hi. pose proof (IBLOCK_range _ Hn) as Hb. pose proof (sd_fb _ _ HV) as Hf. change nmeta with 59 in Hf.
  destruct (sd_blk _ _ HV (IBLOCK (i_inum i) sb) ltac:(unfold FSSIZE; lia)) as [Hl Hby]. pose proof (dinode_off_range (i_inum i)) as Ho.
  unfold winode. rewrite -> (bind_ok _ _ _ _ _ (rsect_run st V HV (IBLOCK (i_inum i) sb) ltac:(unfold FSSIZE; lia) ltac:(lia))).
  rewrite -> write_dinode_splice by (done || rw ?Hl; unfold BSIZE in *; lia).
  eexists. split_and!; [apply (wsect_run st V HV)|apply (wsect_run st V HV)|done|done]; try lia.
  1,3: rw length_splice; [lia|rw length_dinode // Hl; unfold BSIZE in *; lia|done].
  1,2: apply bytes_splice; [done|apply bytes_dinode].
Qed.

(** Inode [n] is a file of type [ty] with the contents [data]. *)
Record stored (V : Z → list Z) (n ty : Z) (data : list Z) : Prop := {
  sf_fields : ∃ addrs, I V n = MkInode 1 n 0 (MkSl false 0) true ty 0 0 1 (Z.of_nat (length data)) addrs;
  sf_ok : file_ok geo sb V (I V n);
  sf_compact : compact V (I V n) (Z.of_nat (length data));
  sf_above : ∀ a, owns V (I V n) a → nmeta ≤ a;
  sf_bytes : ∀ o, 0 ≤ o < MAXFILE * BSIZE → fbyte V (I V n) o = nth (Z.to_nat o) data 0
}.

Lemma owns_ext V V' i a : (∀ a, owns V i a → V' a = V a) → owns V' i a → owns V i a.
Proof.
  intros E [Ha Hx]. destruct (file_ext V i V' E) as [Hfa _]. split; [done|].
  destruct Hx as [->|(bn & Hbn & <-)]; [by left|right]. exists bn. by rewrite -> Hfa.
Qed.

(** A file depends on its inode and its own blocks. *)
Lemma stored_ext V V' n ty data : stored V n ty data → I V' n = I V n → (∀ a, owns V (I V n) a → V' a = V a) →
  (∀ x, 0 ≤ x < sb_size sb → used sb V x = true → used sb V' x = true) → stored V' n ty data.
Proof.
  intros [H1 H2 H3 H4 H5] Ei E Hu. destruct (file_ext V (I V n) V' E) as [Hfa Hfb]. split; rw ?Ei.
  - done.
  - by eapply file_ok_ext.
  - split; [|apply H3]. intros bn Hbn. rewrite -> Hfa by done. by apply H3.
  - intros a Ha. apply H4. by eapply owns_ext.
  - intros o Ho. unfold fbyte. rewrite -> Hfb by (eapply (block_range o 1); lia). by apply H5.
Qed.

Lemma home_inode V i n : file_ok geo sb V i → 0 ≤ n < NINODES → ¬ owns V i (IBLOCK n sb).
Proof. intros Hi Hn Ho. by eapply (db_inode _ _ _ _ (fk_block _ _ _ _ Hi _ Ho)). Qed.

(** A block of the metadata does not change when a file grows. *)
Lemma evolves_meta st V i V1 i1 x : shows_disk st V → evolves geo sb V i V1 i1 → (∀ a, owns V i a → nmeta ≤ a) →
  0 ≤ x < nmeta → x ≠ 58 → V1 x = V x.
Proof.
  intros HV Hev Ha Hx Hn. pose proof (sd_fb _ _ HV) as Hf. apply (ev_frame _ _ _ _ _ _ Hev).
  - intros c Hc. rewrite -> BBLOCK_sb by done. done.
  - intros Ho. specialize (Ha _ Ho). lia.
  - intros Hx'. rewrite -> (used_fb st V HV) by done. apply Z.ltb_lt. lia.
Qed.

(** When one file grows, another one stays. *)
Lemma stored_evolves st V i V1 i1 n ty data : shows_disk st V → evolves geo sb V i V1 i1 → (∀ a, owns V i a → nmeta ≤ a) →
  0 ≤ n < NINODES → stored V n ty data → (∀ a, owns V i a → ¬ owns V (I V n) a) →
  I V1 n = I V n ∧ stored V1 n ty data ∧ (∀ a, owns V1 (I V n) a → owns V (I V n) a) ∧ (∀ a, owns V1 i1 a → ¬ owns V1 (I V n) a).
Proof.
  intros HV Hev Hab Hn Hs Hd. pose proof (IBLOCK_range n Hn) as Hb.
  assert (I V1 n = I V n) as Ei by (unfold disk_inode; by rewrite -> (evolves_meta st V i V1 i1) by (done || change nmeta with 59; lia)).
  assert (∀ a, owns V (I V n) a → V1 a = V a) as E.
  { intros a Ha. pose proof (fk_block _ _ _ _ (sf_ok _ _ _ _ Hs) a Ha) as Hdb. apply (ev_frame _ _ _ _ _ _ Hev); [apply Hdb|intros Ho; by eapply Hd|intros _; apply Hdb]. }
  destruct (evolves_others _ _ _ _ _ _ _ Hev (sf_ok _ _ _ _ Hs) Hd) as (_ & _ & Hd').
  split_and!; [done|eapply stored_ext; try done; apply Hev|intros a; by eapply owns_ext|done].
Qed.

(** Nor does writing another inode change it. *)
Lemma stored_updated st V i n ty data : shows_disk st V → inode_ok i → 0 ≤ i_inum i < NINODES → 0 ≤ n < NINODES → n ≠ i_inum i →
  stored V n ty data → I (updated sb V i) n = I V n ∧ stored (updated sb V i) n ty data ∧ (∀ a, owns (updated sb V i) (I V n) a → owns V (I V n) a).
Proof.
  intros HV Hi Hin Hn Hne Hs. pose proof (mkfs_fs_ok _ _ HV) as Hfs. pose proof (IBLOCK_range _ Hin) as Hb.
  destruct (sd_blk _ _ HV (IBLOCK (i_inum i) sb) ltac:(unfold FSSIZE; lia)) as [Hl _].
  assert (I (updated sb V i) n = I V n) as Ei by (by eapply disk_inode_updated_ne; [apply Hfs|..]).
  destruct (updated_other geo sb V (I V n) Hfs (sf_ok _ _ _ _ Hs) i Hin) as [Hu E].
  split_and!; [done| |intros a; by eapply owns_ext]. eapply stored_ext; try done. intros x Hx. by rewrite -> Hu.
Qed.

(** ** The image while it is built *)

(** The blocks of all files. *)
Definition total (fl : list (Z * list Z)) : Z := foldr (λ f s, nblk (Z.of_nat (length f.2)) + s) 0 fl.

(** Inode [k + 1] is the file [k] of the list; no two files share a block, and the blocks
    in use are those of the files. *)
Record tree (st : mkst) (V : Z → list Z) (fl : list (Z * list Z)) : Prop := {
  tr_disk : shows_disk st V;
  tr_count : freeinode st = Z.of_nat (length fl) + 1 ∧ Z.of_nat (length fl) < NINODES;
  tr_files : ∀ k ty data, fl !! k = Some (ty, data) → stored V (Z.of_nat k + 1) ty data;
  tr_apart : ∀ n n' a, 1 ≤ n ≤ Z.of_nat (length fl) → 1 ≤ n' ≤ Z.of_nat (length fl) → n ≠ n' → owns V (I V n) a → ¬ owns V (I V n') a;
  tr_unused : ∀ n, Z.of_nat (length fl) < n < NINODES → I V n = din0 n;
  tr_space : freeblock st = nmeta + total fl;
  tr_low : V 1 = splice zeros 0 (sb_bytes sb) ∧ ∀ b, 0 ≤ b < 32 → b ≠ 1 → V b = zeros
}.

Lemma total_app l1 l2 : total (l1 ++ l2) = total l1 + total l2.
Proof. induction l1 as [|x l1 IH]; [done|]. cbn [app total foldr]. fold (total (l1 ++ l2)) (total l1). lia. Qed.
Lemma total_insert fl k x y : fl !! k = Some x →
  total (<[k := y]> fl) + nblk (Z.of_nat (length x.2)) = total fl + nblk (Z.of_nat (length y.2)).
Proof.
  revert k. induction fl as [|z fl IH]; intros [|k] Hk; try done.
  - injection Hk as ->. change (<[0%nat := y]> (x :: fl)) with (y :: fl). cbn [total foldr]. lia.
  - change (<[S k := y]> (z :: fl)) with (z :: <[k := y]> fl). cbn [total foldr]. fold (total (<[k := y]> fl)) (total fl).
    specialize (IH k Hk). lia.
Qed.
Lemma nblk_pos n : 0 ≤ n → 0 ≤ nblk n.
Proof. intros Hn. unfold nblk, BSIZE, NDIRECT. destruct (12 * 512 <? n); dlia. Qed.

(** The file in inode [n]. *)
Lemma tree_file st V fl n : tree st V fl → 1 ≤ n ≤ Z.of_nat (length fl) → ∃ ty data, fl !! Z.to_nat (n - 1) = Some (ty, data) ∧ stored V n ty data.
Proof.
  intros Ht Hn. destruct (lookup_lt_is_Some_2 fl (Z.to_nat (n - 1))) as [[ty data] E]; [lia|]. exists ty, data. split; [done|].
  replace n with (Z.of_nat (Z.to_nat (n - 1)) + 1) by lia. by eapply tr_files.
Qed.

(** The blocks outside the inodes and the data do not change when an inode is written. *)
Lemma updated_low V i : 0 ≤ i_inum i < NINODES → ∀ b, 0 ≤ b < 32 → updated sb V i b = V b.
Proof. intros Hi b Hb. pose proof (IBLOCK_range _ Hi). apply vset_ne. lia. Qed.

Definition new_inode (n ty : Z) : inode := MkInode 1 n 0 (MkSl false 0) true ty 0 0 1 0 (replicate 13 0).

Lemma new_inode_empty V n ty a : ¬ owns V (new_inode n ty) a.
Proof.
  assert (∀ k, iaddr (new_inode n ty) k = 0) as H0.
  { intros k. unfold iaddr. cbn [i_addrs new_inode]. generalize (Z.to_nat k). intros j. do 13 (destruct j as [|j]; [done|]). by destruct j. }
  intros [Ha [->|(bn & _ & E)]]; [by rw H0 in Ha|]. apply Ha. rw -E. unfold faddr. rw !H0. by destruct (bn <? NDIRECT).
Qed.

Lemma new_inode_stored V n ty : 0 ≤ n < NINODES → - 2 ^ 15 ≤ ty < 2 ^ 15 → I V n = new_inode n ty → stored V n ty [].
Proof.
  intros Hn Hty E. assert (∀ bn, 0 ≤ bn < MAXFILE → faddr V (new_inode n ty) bn = 0) as Hf.
  { intros bn Hbn. destruct (Z.eq_dec (faddr V (new_inode n ty) bn) 0) as [|Hne]; [done|]. destruct (new_inode_empty V n ty _ (owns_addr V _ bn Hbn Hne)). }
  split; rw ?E.
  - by eexists.
  - split.
    + split; cbn; try lia. split; [done|]. by repeat constructor.
    + intros a Ha. by apply new_inode_empty in Ha.
    + intros b b' Hb Hb' _ Hn0. by rewrite -> Hf in Hn0.
    + intros b Hb Hn0. by rewrite -> Hf in Hn0.
  - split; [intros bn Hbn; rewrite -> Hf by done; cbn; unfold BSIZE; lia|]. split; [by intros []|]. cbn. unfold NDIRECT, BSIZE. lia.
  - intros a Ha. by apply new_inode_empty in Ha.
  - intros o Ho. unfold fbyte, fblock. rewrite -> Hf by (eapply (block_range o 1); lia). change (0 =? 0) with true. cbv iota.
    destruct (Z.to_nat o); cbn [nth]; rw nth_lookup; destruct (zeros !! _) as [x|] eqn:Ex; try done; by apply lookup_replicate in Ex as [-> _].
Qed.

Lemma ialloc_run st V fl ty : tree st V fl → Z.of_nat (length fl) + 1 < NINODES → 0 ≤ ty < 2 ^ 15 →
  ∃ st' V', mkfs_ialloc ty st = Ok (Z.of_nat (length fl) + 1) st' ∧ tree st' V' (fl ++ [(ty, [])]).
Proof.
  intros Ht Hlt Hty. destruct (tr_count _ _ _ Ht) as [Hc Hn]. set (n := Z.of_nat (length fl) + 1) in *.
  unfold mkfs_ialloc. erewrite bind_ok; [|done]. rw Hc. rewrite -> wrapu_small by (unfold NINODES in *; lia). erewrite bind_ok; [|done].
  change (xint 0) with 0. change (xshort 1) with 1. rewrite -> xshort_id by lia. change (set_i_size _ _) with (new_inode n ty).
  set (st0 := set_freeinode (n + 1) st). assert (shows_disk st0 V) as HV by (by destruct (tr_disk _ _ _ Ht)).
  assert (inode_ok (new_inode n ty)) as Hok.
  { split; cbn; try lia. split; [done|]. by repeat constructor. }
  destruct (winode_run st0 V n (new_inode n ty) HV) as (st' & E & HV' & Hfi & Hfb); [lia|done|done|].
  set (V' := updated sb V (new_inode n ty)) in *. rw (bind_ok _ _ _ _ _ E). exists st', V'. split; [done|].
  destruct (sd_blk _ _ HV (IBLOCK n sb) ltac:(pose proof (IBLOCK_range n ltac:(lia)); unfold FSSIZE; lia)) as [Hl _].
  assert (I V' n = new_inode n ty) as En by (by apply (disk_inode_updated sb V (new_inode n ty) (din0 n))).
  assert (∀ m, 1 ≤ m ≤ Z.of_nat (length fl) → I V' m = I V m ∧ (∀ a, owns V' (I V m) a → owns V (I V m) a) ∧ ∀ ty' data, stored V m ty' data → stored V' m ty' data) as Hold.
  { intros m Hm. destruct (tree_file _ _ _ _ Ht Hm) as (ty' & data & _ & Hs).
    destruct (stored_updated st0 V (new_inode n ty) m ty' data HV Hok) as (H1 & _ & H3); [cbn; lia|lia|cbn; lia|done|].
    split_and!; [done..|]. intros t d Hs'. by apply (stored_updated st0 V (new_inode n ty) m t d HV Hok ltac:(cbn; lia) ltac:(lia) ltac:(cbn; lia) Hs'). }
  split.
  - done.
  - rw length_app. cbn [length]. rw Hfi. cbn. unfold n in *. lia.
  - intros k ty' data Hk. apply lookup_app_Some in Hk as [Hk|[Hge Hk]].
    + apply Hold; [apply lookup_lt_Some in Hk; lia|]. by eapply tr_files.
    + apply list_lookup_singleton_Some in Hk as [Hk0 [= <- <-]]. replace (Z.of_nat k + 1) with n by lia. by apply new_inode_stored; [lia..|].
  - rw length_app. cbn [length]. intros m m' a Hm Hm' Hne Ha Ha'. destruct (decide (m = n)) as [->|Hmn].
    { rw En in Ha. by apply new_inode_empty in Ha. } destruct (decide (m' = n)) as [->|Hmn'].
    { rw En in Ha'. by apply new_inode_empty in Ha'. }
    destruct (Hold m ltac:(lia)) as (E1 & Ho1 & _). destruct (Hold m' ltac:(lia)) as (E2 & Ho2 & _). rw E1 in Ha. rw E2 in Ha'.
    by eapply (tr_apart _ _ _ Ht m m'); [lia..|apply Ho1|apply Ho2].
  - rw length_app. cbn [length]. intros m Hm. etransitivity; [|apply (tr_unused _ _ _ Ht m); lia].
    eapply (disk_inode_updated_ne geo); [apply (mkfs_fs_ok _ _ HV)|done|done|change (sb_ninodes sb) with NINODES; lia|change (sb_ninodes sb) with NINODES; cbn [i_inum new_inode]; lia|cbn [i_inum new_inode]; lia].
  - rw Hfb total_app. change (total [(ty, [])]) with 0. change (freeblock st0) with (freeblock st). rewrite -> (tr_space _ _ _ Ht). lia.
  - destruct (tr_low _ _ _ Ht) as [H1 H2]. unfold V'. split; [by rewrite -> updated_low by (cbn [i_inum new_inode]; lia)|].
    intros b Hb Hb1. rewrite -> updated_low by (done || cbn [i_inum new_inode]; lia). by apply H2.
Qed.

Lemma file_ok_size V i s : file_ok geo sb V i → 0 ≤ s < 2 ^ 32 → file_ok geo sb V (set_i_size s i).
Proof. intros [[H1 H2 H3 H4 _ H6] Hb Hj Hi] Hs. split; [split|exact Hb|exact Hj|exact Hi]; done. Qed.

Lemma inode_with_fields i n ty nl s addrs : i = MkInode 1 n 0 (MkSl false 0) true ty 0 0 nl s addrs → with_fields i (din0 n) = i.
Proof. by intros ->. Qed.

(** The file that has grown, with its inode written. *)
Section grown.
Context (st : mkst) (V : Z → list Z) (n ty : Z) (data p : list Z) (st1 : mkst) (V1 : Z → list Z) (i1 : inode).
Context (HV : shows_disk st V) (Hn : 0 ≤ n < NINODES) (Hs : stored V n ty data).
Context (Hp : append_post st V (I V n) (Z.of_nat (length data)) p st1 V1 i1).
Context (Hmax : Z.of_nat (length data) + Z.of_nat (length p) ≤ MAXFILE * BSIZE).
Abbreviation i2 := (set_i_size (Z.of_nat (length data) + Z.of_nat (length p)) i1).
Abbreviation V2 := (updated sb V1 i2).

Lemma grown_inode : file_ok geo sb V1 i2 ∧ I V2 n = i2 ∧
  ∃ addrs, i2 = MkInode 1 n 0 (MkSl false 0) true ty 0 0 1 (Z.of_nat (length (data ++ p))) addrs.
Proof using Hn Hs Hp Hmax.
  destruct Hp as (HV1 & Hev & _ & _). destruct (sf_fields _ _ _ _ Hs) as [addrs Ei].
  change MAXFILE with 140 in Hmax. unfold BSIZE in Hmax.
  assert (file_ok geo sb V1 i2) as Hok by (apply file_ok_size; [apply Hev|lia]).
  assert (i2 = MkInode 1 n 0 (MkSl false 0) true ty 0 0 1 (Z.of_nat (length (data ++ p))) (i_addrs i1)) as E2.
  { pose proof (ev_meta _ _ _ _ _ _ Hev) as Hm. rw Ei in Hm. rewrite -> Hm. rw length_app Nat2Z.inj_add. done. }
  split_and!; [done| |by eexists].
  rewrite <- (inode_with_fields _ _ _ _ _ _ E2) at 2. replace n with (i_inum i2) at 1 by (by rw E2).
  apply disk_inode_updated; [apply Hok|]. apply (sd_blk _ _ HV1). replace (i_inum i2) with n by (by rw E2).
  pose proof (IBLOCK_range n Hn). unfold FSSIZE. lia.
Qed.

Lemma grown_num : i_inum i2 = n.
Proof using Hn Hs Hp Hmax. destruct grown_inode as (_ & _ & addrs & ->). done. Qed.

Lemma grown_owns a : owns V2 i2 a → owns V1 i1 a.
Proof using Hn Hs Hp Hmax.
  destruct grown_inode as (Hok & _ & _). destruct Hp as (HV1 & _). intros Ha. change (owns V1 i2 a). eapply owns_ext; [|exact Ha].
  intros b Hb. apply (updated_other geo sb V1 i2 (mkfs_fs_ok _ _ HV1) Hok); [|done]. rw grown_num. done.
Qed.

Lemma grown_stored : stored V2 n ty (data ++ p).
Proof using HV Hn Hs Hp Hmax.
  destruct grown_inode as (Hok & Ei & Hf). pose proof Hp as (HV1 & Hev & Hfw & _ & _ & _ & Hc). pose proof (mkfs_fs_ok _ _ HV1) as Hfs1.
  destruct (updated_other geo sb V1 i2 Hfs1 Hok i2) as [Hu Ho]; [by rw grown_num|].
  destruct (file_ext V1 i2 V2 Ho) as [Hfa Hfb]. split; rw ?Ei; rw ?length_app ?Nat2Z.inj_add.
  - destruct Hf as [addrs Hf]. rw length_app Nat2Z.inj_add in Hf. by exists addrs.
  - eapply file_ok_ext; [exact Hok|exact Ho|]. intros x Hx. by rewrite -> Hu.
  - split; [|apply Hc]. intros bn Hbn. rewrite -> Hfa by done. by apply Hc.
  - intros a Ha%grown_owns. apply (ev_owns _ _ _ _ _ _ Hev) in Ha as [Ha|[Hr Hua]]; [by apply (sf_above _ _ _ _ Hs)|].
    rewrite -> (used_fb st V HV) in Hua by done. apply Z.ltb_ge in Hua. pose proof (sd_fb _ _ HV). lia.
  - intros o Ho'. unfold fbyte at 1. rewrite -> Hfb by (eapply (block_range o 1); lia).
    change (fbyte V1 i1 o = nth (Z.to_nat o) (data ++ p) 0). rewrite -> Hfw by done. case_decide as E.
    + rw app_nth2; [lia|]. f_equal. lia.
    + rewrite -> (sf_bytes _ _ _ _ Hs) by done. destruct (decide (o < Z.of_nat (length data))) as [Hlt|Hge].
      * rw app_nth1 //. lia.
      * rw !nth_overflow // ?length_app; lia.
Qed.

(** The other files. *)
Lemma grown_other m ty' data' : 0 ≤ m < NINODES → m ≠ n → stored V m ty' data' → (∀ a, owns V (I V n) a → ¬ owns V (I V m) a) →
  I V2 m = I V m ∧ stored V2 m ty' data' ∧ (∀ a, owns V2 (I V m) a → owns V (I V m) a) ∧ (∀ a, owns V2 i2 a → ¬ owns V2 (I V m) a).
Proof using HV Hn Hs Hp Hmax.
  intros Hm Hne Hsm Hd. pose proof Hp as (HV1 & Hev & _). destruct grown_inode as (Hok & _ & _).
  destruct (stored_evolves st V _ V1 i1 m ty' data' HV Hev (sf_above _ _ _ _ Hs) Hm Hsm Hd) as (E1 & Hs1 & Ho1 & Hd1).
  destruct (stored_updated st1 V1 i2 m ty' data' HV1 (fk_inode _ _ _ _ Hok)) as (E2 & Hs2 & Ho2); try done; try (by rw grown_num).
  rw E1 in E2, Ho2. split_and!; [done|done|auto|]. intros a Ha%grown_owns Ha'. by eapply Hd1, Ho2.
Qed.
End grown.

(** The image after the file [k] has grown. *)
Section tree_step.
Context (st : mkst) (V : Z → list Z) (fl : list (Z * list Z)) (k : nat) (ty : Z) (data p : list Z) (st1 : mkst) (V1 : Z → list Z) (i1 : inode).
Abbreviation n := (Z.of_nat k + 1).
Abbreviation i2 := (set_i_size (Z.of_nat (length data) + Z.of_nat (length p)) i1).
Abbreviation V2 := (updated sb V1 i2).
Context (Ht : tree st V fl) (Hk : fl !! k = Some (ty, data)).

Lemma step_file : 0 ≤ n < NINODES ∧ stored V n ty data.
Proof using Ht Hk.
  pose proof (lookup_lt_Some _ _ _ Hk). destruct (tr_count _ _ _ Ht). split; [lia|]. by eapply tr_files.
Qed.

Context (Hmax : Z.of_nat (length data) + Z.of_nat (length p) ≤ MAXFILE * BSIZE).
Context (Hp : append_post st V (I V n) (Z.of_nat (length data)) p st1 V1 i1).

Lemma step_others m : 1 ≤ m ≤ Z.of_nat (length fl) → m ≠ n → I V2 m = I V m ∧ (∀ a, owns V2 (I V m) a → owns V (I V m) a) ∧
  (∀ a, owns V2 (I V2 n) a → ¬ owns V2 (I V m) a) ∧ ∀ ty' d, stored V m ty' d → stored V2 m ty' d.
Proof using All.
  intros Hm Hne. destruct step_file as [Hn Hs]. pose proof (lookup_lt_Some _ _ _ Hk) as Hkl. destruct (tr_count _ _ _ Ht) as [_ Hlt].
  pose proof (grown_inode st V n ty data p st1 V1 i1 Hn Hs Hp Hmax) as (_ & -> & _).
  assert (∀ a, owns V (I V n) a → ¬ owns V (I V m) a) as Hap by (intros a; apply (tr_apart _ _ _ Ht); lia).
  pose proof (λ t d Hsm, grown_other st V n ty data p st1 V1 i1 (tr_disk _ _ _ Ht) Hn Hs Hp Hmax m t d ltac:(lia) Hne Hsm Hap) as Hg.
  destruct (tree_file _ _ _ _ Ht Hm) as (ty' & d' & _ & Hsm). destruct (Hg ty' d' Hsm) as (H1 & _ & H3 & H4).
  split_and!; [done..|]. intros t d Hs'. by apply Hg.
Qed.

(** The metadata and the free inodes. *)
Lemma step_meta b : 0 ≤ b < nmeta → b ≠ 58 → b ≠ IBLOCK n sb → V2 b = V b.
Proof using All.
  intros Hb H58 Hi. destruct step_file as [Hn Hs]. pose proof (grown_num st V n ty data p st1 V1 i1 Hn Hs Hp Hmax) as Hnum.
  destruct Hp as (_ & Hev & _). unfold updated. rw Hnum. rw vset_ne //.
  by eapply (evolves_meta st V _ V1 i1 b (tr_disk _ _ _ Ht)); [|apply (sf_above _ _ _ _ Hs)|..].
Qed.

Lemma step_unused m : Z.of_nat (length fl) < m < NINODES → I V2 m = din0 m.
Proof using All.
  intros Hm. destruct step_file as [Hn Hs]. pose proof (lookup_lt_Some _ _ _ Hk) as Hkl.
  pose proof (grown_num st V n ty data p st1 V1 i1 Hn Hs Hp Hmax) as Hnum.
  pose proof (grown_inode st V n ty data p st1 V1 i1 Hn Hs Hp Hmax) as (Hok & _ & _).
  pose proof Hp as (HV1 & Hev & _). pose proof (IBLOCK_range n Hn). pose proof (IBLOCK_range m ltac:(lia)).
  rewrite -> (disk_inode_updated_ne geo sb (fo_ib _ _ _ (mkfs_fs_ok _ _ HV1)) V1 i2 m (din0 m) (fk_inode _ _ _ _ Hok));
    [|rw Hnum; apply (sd_blk _ _ HV1); unfold FSSIZE; lia|change (sb_ninodes sb) with NINODES; lia|by rw Hnum|rw Hnum; lia].
  rewrite <- (tr_unused _ _ _ Ht m Hm) at 2. unfold disk_inode.
  by rewrite -> (evolves_meta st V _ V1 i1 _ (tr_disk _ _ _ Ht) Hev (sf_above _ _ _ _ Hs)) by (change nmeta with 59; lia).
Qed.

Lemma step_tree st2 : shows_disk st2 V2 → freeinode st2 = freeinode st1 → freeblock st2 = freeblock st1 →
  tree st2 V2 (<[k := (ty, data ++ p)]> fl).
Proof using All.
  intros HV2 Hfn2 Hfb2. destruct step_file as [Hn Hs]. pose proof (lookup_lt_Some _ _ _ Hk) as Hkl.
  pose proof Hp as (_ & _ & _ & _ & Hfn1 & Hfb1 & _). split; rw ?length_insert.
  - done.
  - rw Hfn2 Hfn1. by apply Ht.
  - intros j ty' d Hj. destruct (decide (j = k)) as [->|Hne].
    + rewrite -> list_lookup_insert_eq in Hj by done. injection Hj as <- <-. apply (grown_stored st V n ty data p st1); try done. by apply Ht.
    + rewrite -> list_lookup_insert_ne in Hj by done. apply step_others; [apply lookup_lt_Some in Hj; lia|lia|]. by eapply tr_files.
  - intros m m' a Hm Hm' Hne Ha Ha'. destruct (decide (m = n)) as [->|Hmn]; [|destruct (decide (m' = n)) as [->|Hmn']].
    + destruct (step_others m' Hm' ltac:(lia)) as (E & _ & Hd & _). rw E in Ha'. by eapply Hd.
    + destruct (step_others m Hm Hmn) as (E & _ & Hd & _). rw E in Ha. by eapply Hd.
    + destruct (step_others m Hm Hmn) as (E & Ho & _). destruct (step_others m' Hm' Hmn') as (E' & Ho' & _). rw E in Ha. rw E' in Ha'.
      by eapply (tr_apart _ _ _ Ht m m'); [done..|apply Ho|apply Ho'].
  - apply step_unused.
  - pose proof (total_insert fl k _ (ty, data ++ p) Hk) as Htot. cbn [snd] in Htot. rw length_app Nat2Z.inj_add in Htot.
    rw Hfb2. rewrite -> (tr_space _ _ _ Ht) in Hfb1. lia.
  - destruct (tr_low _ _ _ Ht) as [H1 H2]. pose proof (IBLOCK_range n Hn).
    split; [|intros b Hb Hb1]; rewrite -> step_meta by (change nmeta with 59; lia); [done|by apply H2].
Qed.
End tree_step.

Lemma iappend_run st V fl k ty data p : tree st V fl → fl !! k = Some (ty, data) → bytes p →
  Z.of_nat (length data) + Z.of_nat (length p) ≤ MAXFILE * BSIZE →
  nmeta + total (<[k := (ty, data ++ p)]> fl) ≤ FSSIZE →
  ∃ st' V', iappend (Z.of_nat k + 1) p st = Ok tt st' ∧ tree st' V' (<[k := (ty, data ++ p)]> fl).
Proof.
  intros Ht Hk Hby Hmax Hroom. pose proof (tr_disk _ _ _ Ht) as HV. destruct (step_file st V fl k ty data Ht Hk) as [Hn Hs].
  set (n := Z.of_nat k + 1) in *. destruct (sf_fields _ _ _ _ Hs) as [addrs Ei]. set (off := Z.of_nat (length data)) in *.
  pose proof (total_insert fl k _ (ty, data ++ p) Hk) as Htot. cbn [snd] in Htot. rw length_app Nat2Z.inj_add in Htot. fold off in Htot.
  destruct (iappend_loop_run (length p) st V (I V n) off p HV (sf_ok _ _ _ _ Hs) (sf_compact _ _ _ _ Hs)) as (st1 & V1 & i1 & E1 & Hp);
    [lia|done|done|rewrite -> (tr_space _ _ _ Ht); lia|done|].
  pose proof (grown_inode st V n ty data p st1 V1 i1 Hn Hs Hp Hmax) as (Hok & _ & _).
  pose proof (grown_num st V n ty data p st1 V1 i1 Hn Hs Hp Hmax) as Hnum.
  pose proof Hp as (HV1 & _). fold off in Hok, Hnum.
  destruct (winode_run st1 V1 n (set_i_size (off + Z.of_nat (length p)) i1) HV1 Hn Hnum (fk_inode _ _ _ _ Hok)) as (st2 & E2 & HV2 & Hfn2 & Hfb2).
  eexists st2, _. split; [|by eapply (step_tree st V fl k ty data p st1 V1 i1)].
  unfold iappend. rw (bind_ok _ _ _ _ _ (rinode_run st V n HV Hn)). change MAXFILE with 140 in Hmax. unfold BSIZE in Hmax.
  replace (xint (i_size (I V n))) with off by (rw Ei; cbn [i_size]; rw xint_id; [lia|done]).
  rw (bind_ok _ _ _ _ _ E1). rewrite -> xint_id by lia. done.
Qed.

(** ** The empty image *)

Lemma wsect_zeros n : ∀ a st, img st = replicate (Z.to_nat a) zeros → 0 ≤ a → a + Z.of_nat n ≤ FSSIZE →
  mfor (seqZ a (Z.of_nat n)) (λ i, wsect i zeros) st = Ok tt (set_img (replicate (Z.to_nat a + n) zeros) st).
Proof.
  induction n as [|n IH]; intros a st Hi Ha Hn.
  - cbn. rw Nat.add_0_r -Hi. by destruct st.
  - rewrite -> seqZ_head by lia. cbn [mfor]. erewrite bind_ok; [|done]. rewrite -> sect_pos by lia.
    replace (Z.of_nat (S n) - 1) with (Z.of_nat n) by lia. rewrite -> (IH (a + 1)); [|cbn [img set_img]|lia|lia].
    + by replace (Z.to_nat (a + 1) + n)%nat with (Z.to_nat a + S n)%nat by lia.
    + rw Hi. unfold write_block. rewrite -> decide_False by (rw length_replicate; lia). rw length_replicate Nat.sub_diag. cbn [replicate app].
      replace (Z.to_nat (a + 1)) with (Z.to_nat a + 1)%nat by lia. by rw replicate_add.
Qed.

Lemma get16_zeros off : get16 zeros off = 0.
Proof. unfold get16, slice, zeros. rw drop_replicate take_replicate. apply le_value_zeros. Qed.
Lemma read_dinode_zeros off n : read_dinode zeros off (din0 n) = din0 n.
Proof.
  unfold read_dinode. rw get32_zeros !get16_zeros. change (Z.to_nat (NDIRECT + 1)) with 13%nat. cbn [get_words]. by rw !get32_zeros.
Qed.

Definition sb_block : list Z := splice zeros 0 (sb_bytes sb).
Lemma sb_block_ok : length sb_block = Z.to_nat BSIZE ∧ bytes sb_block ∧ sb_of_bytes sb_block = sb.
Proof.
  split_and!; [done| |by vm_compute]. apply bytes_splice; [apply zeros_ok|]. apply (bool_decide_unpack (Forall (λ x, 0 ≤ x ∧ x < 256) (sb_bytes sb))). by vm_compute.
Qed.

Definition blank_disk (b : Z) : list Z :=
  if b =? 1 then sb_block else if b =? 58 then mark_used (Z.to_nat nmeta) 0 zeros else zeros.

Lemma blank_tree (st : mkst) : img st = <[1%nat := sb_block]> (replicate (Z.to_nat FSSIZE) zeros) → freeinode st = 1 → freeblock st = nmeta →
  tree st blank_disk [].
Proof.
  intros Hi Hfn Hfb. split; try done.
  - split.
    + by rw Hi length_insert length_replicate.
    + rw Hfb. by vm_compute.
    + intros b Hb H58. change (sb_bmapstart sb) with 58 in H58. rw Hi. unfold blank_disk. rewrite -> (proj2 (Z.eqb_neq b 58) H58).
      destruct (Z.eqb_spec b 1) as [->|H1]; [done|]. rewrite -> list_lookup_insert_ne by lia.
      apply lookup_replicate. split; [done|lia].
    + rw Hfb. done.
    + intros b Hb. rw Hfb in Hb. change nmeta with 59 in Hb. unfold blank_disk. by rewrite -> !(proj2 (Z.eqb_neq b _)) by lia.
    + intros b Hb. unfold blank_disk. destruct (b =? 1); [split; apply sb_block_ok|]. destruct (b =? 58); [|apply zeros_ok].
      apply mark_used_ok, zeros_ok.
  - intros n n' a Hn. cbn in Hn. lia.
  - intros n Hn. cbn [length] in Hn. pose proof (IBLOCK_range n ltac:(lia)). unfold disk_inode, blank_disk.
    rewrite -> !(proj2 (Z.eqb_neq (IBLOCK n sb) _)) by lia. apply read_dinode_zeros.
  - split; [done|]. intros b Hb H1. unfold blank_disk. by rewrite -> !(proj2 (Z.eqb_neq b _)) by lia.
Qed.

(** ** Adding the files *)

Lemma copy_file_run pieces : ∀ st V fl k ty data (whole := data ++ concat pieces), tree st V fl → fl !! k = Some (ty, data) → Forall bytes pieces →
  Z.of_nat (length whole) ≤ MAXFILE * BSIZE → nmeta + total (<[k := (ty, whole)]> fl) ≤ FSSIZE →
  ∃ st' V', copy_file (Z.of_nat k + 1) pieces st = Ok tt st' ∧ tree st' V' (<[k := (ty, whole)]> fl).
Proof.
  induction pieces as [|buf pieces IH]; intros st V fl k ty data whole Ht Hk Hby Hmax Hroom; cbn [copy_file].
  - exists st, V. split; [done|]. unfold whole. cbn [concat]. rw app_nil_r list_insert_id //.
  - apply Forall_cons in Hby as [Hb Hby]. pose proof (lookup_lt_Some _ _ _ Hk) as Hkl. unfold whole in *. cbn [concat] in *.
    rw !length_app !Nat2Z.inj_add in Hmax. pose proof (total_insert fl k _ (ty, data ++ buf ++ concat pieces) Hk) as H1.
    pose proof (total_insert fl k _ (ty, data ++ buf) Hk) as H2. cbn [snd] in H1, H2. rw !length_app !Nat2Z.inj_add in H1. rw length_app Nat2Z.inj_add in H2.
    pose proof (nblk_mono (Z.of_nat (length data) + Z.of_nat (length buf)) (Z.of_nat (length data) + (Z.of_nat (length buf) + Z.of_nat (length (concat pieces)))) ltac:(lia)).
    destruct (iappend_run st V fl k ty data buf Ht Hk Hb) as (st1 & V1 & E1 & Ht1); [lia..|]. rw (bind_ok _ _ _ _ _ E1).
    destruct (IH st1 V1 (<[k := (ty, data ++ buf)]> fl) k ty (data ++ buf) Ht1) as (st2 & V2 & E2 & Ht2).
    + by apply list_lookup_insert_eq.
    + done.
    + rw -app_assoc !length_app. lia.
    + rw list_insert_insert_eq -app_assoc. done.
    + rw list_insert_insert_eq -app_assoc in Ht2. by exists st2, V2.
Qed.

(** The directory entry of the file [arg] with inode [inum]. *)
Definition file_entry (inum : Z) (arg : list Z) : list Z := dirent_bytes inum (strncpy (replicate DIRSIZ 0) (skip_underscore arg) DIRSIZ).
Fixpoint file_entries (inum : Z) (args : list (list Z)) : list Z :=
  match args with
  | [] => []
  | arg :: args => file_entry inum arg ++ file_entries (inum + 1) args
  end.

Lemma dirent_ok inum name : bytes name →
  length (dirent_bytes inum (strncpy (replicate DIRSIZ 0) name DIRSIZ)) = 16%nat ∧ bytes (dirent_bytes inum (strncpy (replicate DIRSIZ 0) name DIRSIZ)).
Proof.
  intros Hb. unfold dirent_bytes, strncpy. rewrite -> drop_ge by (by rw length_replicate). rw app_nil_r. split.
  - by rw length_app length_le_bytes length_strncpy_bytes.
  - apply Forall_app_2; [apply bytes_le|by apply bytes_strncpy].
Qed.

Lemma file_entry_ok inum arg : bytes arg → length (file_entry inum arg) = 16%nat ∧ bytes (file_entry inum arg).
Proof. intros Hb. apply dirent_ok. unfold skip_underscore. destruct (byte0 arg =? 95); [|done]. destruct Hb; [constructor|done]. Qed.

Lemma file_entries_ok args : ∀ inum, Forall bytes args → length (file_entries inum args) = (16 * length args)%nat ∧ bytes (file_entries inum args).
Proof.
  induction args as [|arg args IH]; intros inum Hb; cbn [file_entries]; [split; [done|constructor]|].
  apply Forall_cons in Hb as [Hb Hbs]. destruct (file_entry_ok inum arg Hb), (IH (inum + 1) Hbs). split.
  - rw length_app. cbn [length]. lia.
  - by apply Forall_app_2.
Qed.

Section files.
Context (host : list Z → option (list (list Z))).

(** The file can be opened, its name has no slash, and it fits a file. *)
Definition arg_ok (arg : list Z) (pieces : list (list Z)) : Prop :=
  (47 ∉ arg) ∧ bytes arg ∧ host arg = Some pieces ∧ Forall bytes pieces ∧ Z.of_nat (length (concat pieces)) ≤ MAXFILE * BSIZE.

Abbreviation as_file := (λ pieces : list (list Z), (T_FILE, concat pieces)).

Lemma total_cons x l : total (x :: l) = nblk (Z.of_nat (length x.2)) + total l.
Proof using Type. done. Qed.
Lemma total_pos l : 0 ≤ total l.
Proof using Type. induction l as [|x l IH]; [done|]. rw total_cons. pose proof (nblk_pos (Z.of_nat (length x.2)) ltac:(lia)). lia. Qed.

Lemma add_file_run st V root l arg pieces : arg_ok arg pieces → tree st V ((T_DIR, root) :: l) →
  Z.of_nat (length root) + 16 ≤ MAXFILE * BSIZE → Z.of_nat (length l) + 2 < NINODES →
  nmeta + nblk (Z.of_nat (length root) + 16) + total l + nblk (Z.of_nat (length (concat pieces))) ≤ FSSIZE →
  ∃ st' V', add_file host 1 arg st = Ok tt st' ∧
    tree st' V' ((T_DIR, root ++ file_entry (Z.of_nat (length l) + 2) arg) :: l ++ [as_file pieces]).
Proof using Type.
  intros (Hsl & Hba & Hh & Hbp & Hmax) Ht Hroot Hcount Hroom. unfold add_file, cassert.
  rewrite -> bool_decide_eq_false_2 by done. erewrite bind_ok; [|done]. rw Hh.
  destruct (ialloc_run st V _ T_FILE Ht) as (st1 & V1 & E1 & Ht1); [cbn [length]; lia|done|].
  replace (Z.of_nat (length ((T_DIR, root) :: l)) + 1) with (Z.of_nat (length l) + 2) in E1 by (cbn [length]; lia).
  rw (bind_ok _ _ _ _ _ E1). set (inum := Z.of_nat (length l) + 2) in *. rewrite -> xshort_id by (unfold NINODES in *; lia). fold (file_entry inum arg).
  destruct (file_entry_ok inum arg Hba) as [Hel Heb]. change (((T_DIR, root) :: l) ++ [(T_FILE, [])]) with ((T_DIR, root) :: l ++ [(T_FILE, [])]) in Ht1.
  pose proof (nblk_pos (Z.of_nat (length (concat pieces))) ltac:(lia)) as Hnp.
  destruct (iappend_run st1 V1 _ 0 T_DIR root (file_entry inum arg) Ht1 eq_refl Heb) as (st2 & V2 & E2 & Ht2).
  { rw Hel. lia. }
  { change (<[0%nat := ?x]> (?y :: ?l')) with (x :: l'). rw total_cons total_app. cbn [snd]. rw length_app Hel. change (total [(T_FILE, [])]) with 0.
    replace (Z.of_nat (length root + 16)) with (Z.of_nat (length root) + 16) by lia. lia. }
  change (<[0%nat := ?x]> (?y :: ?l')) with (x :: l') in Ht2. change (Z.of_nat 0 + 1) with 1 in E2. rw (bind_ok _ _ _ _ _ E2).
  set (r := (T_DIR, root ++ file_entry inum arg)) in *.
  assert ((r :: l ++ [(T_FILE, [])]) !! S (length l) = Some (T_FILE, [])) as Hk by (by apply (list_lookup_middle l [])).
  assert (<[S (length l) := as_file pieces]> (r :: l ++ [(T_FILE, [])]) = r :: l ++ [as_file pieces]) as Hins.
  { change (r :: <[length l := as_file pieces]> (l ++ [(T_FILE, [])]) = r :: l ++ [as_file pieces]). f_equal.
    rewrite <- (Nat.add_0_r (length l)) at 1. by rewrite -> insert_app_r. }
  destruct (copy_file_run pieces st2 V2 _ (S (length l)) T_FILE [] Ht2 Hk Hbp) as (st3 & V3 & E3 & Ht3); cbn [app] in *.
  { done. }
  { rw Hins total_cons total_app. rw (total_cons (T_FILE, _)). change (total []) with 0. unfold r. cbn [snd]. rw length_app Hel.
    replace (Z.of_nat (length root + 16)) with (Z.of_nat (length root) + 16) by lia. lia. }
  rw Hins in Ht3. exists st3, V3. split; [|done]. replace inum with (Z.of_nat (S (length l)) + 1) by (unfold inum; lia). done.
Qed.

Lemma add_files_run files : ∀ pieces st V root l, Forall2 arg_ok files pieces → tree st V ((T_DIR, root) :: l) →
  Z.of_nat (length root) = 16 * (Z.of_nat (length l) + 2) → Z.of_nat (length l + length files) + 1 < NINODES →
  nmeta + nblk (Z.of_nat (length root + 16 * length files)) + total l + total (as_file <$> pieces) ≤ FSSIZE →
  ∃ st' V', mfor files (add_file host 1) st = Ok tt st' ∧
    tree st' V' ((T_DIR, root ++ file_entries (Z.of_nat (length l) + 2) files) :: l ++ (as_file <$> pieces)).
Proof using Type.
  induction files as [|arg files IH]; intros pieces st V root l Hok Ht Hroot Hcount Hroom; cbn [mfor file_entries].
  { apply Forall2_nil_inv_l in Hok as ->. cbn [fmap list_fmap]. rw !app_nil_r. by exists st, V. }
  apply Forall2_cons_inv_l in Hok as (ps & pieces' & Ha & Hok & ->). rw fmap_cons in Hroom. rw total_cons in Hroom. cbn [length snd] in Hroom, Hcount.
  destruct (file_entry_ok (Z.of_nat (length l) + 2) arg (proj1 (proj2 Ha))) as [Hel _].
  pose proof (nblk_mono (Z.of_nat (length root) + 16) (Z.of_nat (length root + 16 * S (length files))) ltac:(lia)) as Hmono.
  pose proof (total_pos (as_file <$> pieces')) as Hpos.
  destruct (add_file_run st V root l arg ps Ha Ht) as (st1 & V1 & E1 & Ht1);
    [change MAXFILE with 140; unfold BSIZE, NINODES in *; lia|lia|lia|]. rw (bind_ok _ _ _ _ _ E1).
  set (e := file_entry (Z.of_nat (length l) + 2) arg) in *. clearbody e.
  destruct (IH pieces' st1 V1 _ _ Hok Ht1) as (st2 & V2 & E2 & Ht2); rw ?length_app ?Hel; cbn [length].
  - lia.
  - lia.
  - rw total_app total_cons. cbn [snd]. change (total []) with 0.
    replace (length root + 16 + 16 * length files)%nat with (length root + 16 * S (length files))%nat by lia. lia.
  - exists st2, V2. split; [done|]. rw fmap_cons. rw -!app_assoc length_app in Ht2. cbn [length app] in Ht2.
    replace (Z.of_nat (length l + 1) + 2) with (Z.of_nat (length l) + 2 + 1) in Ht2 by lia. done.
Qed.
End files.

(** ** Properties *)

(** The image: the superblock, an empty log, the bitmap, the root directory [dir] and
    the files [files], which share no block. *)
Record mkfs_image (st : mkst) (V : Z → list Z) (dir : list Z) (files : list (list Z)) : Prop := {
  im_img : length (img st) = Z.to_nat FSSIZE ∧ ∀ b, 0 ≤ b < FSSIZE → img st !! Z.to_nat b = Some (V b);
  im_sb : sb_of_bytes (V 1) = sb;
  im_log : ∀ b, sb_logstart sb ≤ b < sb_logstart sb + sb_nlog sb → V b = zeros;
  im_fs : fs_ok geo sb V ∧ blocks_ok geo V;
  im_used : ∀ b, 0 ≤ b < FSSIZE →
    used sb V b = (b <? nmeta + nblk (Z.of_nat (length dir)) + total (pair T_FILE <$> files));
  im_root : ∃ addrs, I V ROOTINO = MkInode 1 ROOTINO 0 (MkSl false 0) true T_DIR 0 0 1 ((Z.of_nat (length dir) / BSIZE + 1) * BSIZE) addrs;
  im_dir : file_ok geo sb V (I V ROOTINO) ∧ ∀ o, 0 ≤ o < MAXFILE * BSIZE → fbyte V (I V ROOTINO) o = nth (Z.to_nat o) dir 0;
  im_hole : (∃ bn, 0 ≤ bn ∧ bn * BSIZE < i_size (I V ROOTINO) ∧ faddr V (I V ROOTINO) bn = 0) ↔ Z.of_nat (length dir) mod BSIZE = 0;
  im_files : ∀ k data, files !! k = Some data → stored V (Z.of_nat k + 2) T_FILE data;
  im_apart : ∀ n n' a, 1 ≤ n ≤ Z.of_nat (length files) + 1 → 1 ≤ n' ≤ Z.of_nat (length files) + 1 → n ≠ n' →
    owns V (I V n) a → ¬ owns V (I V n') a;
  im_free : ∀ n, Z.of_nat (length files) + 1 < n < NINODES → i_type (I V n) = 0
}.

Section finish.
Context (st : mkst) (V : Z → list Z) (dir : list Z) (files : list (list Z)).
Context (Ht : tree st V ((T_DIR, dir) :: (pair T_FILE <$> files))) (Hdir : Z.of_nat (length dir) < MAXFILE * BSIZE).
Abbreviation size := ((Z.of_nat (length dir) / BSIZE + 1) * BSIZE).
Abbreviation root := (set_i_size size (I V ROOTINO)).
Abbreviation V' := (updated sb V root).

Lemma root_stored : stored V ROOTINO T_DIR dir.
Proof using Ht. by apply (tr_files _ _ _ Ht 0%nat). Qed.

Lemma root_size : 0 ≤ size < 2 ^ 32.
Proof using Hdir. change MAXFILE with 140 in Hdir. unfold BSIZE in *. dlia. Qed.

Lemma root_inode : file_ok geo sb V root ∧ I V' ROOTINO = root ∧
  ∃ addrs, root = MkInode 1 ROOTINO 0 (MkSl false 0) true T_DIR 0 0 1 size addrs.
Proof using Ht Hdir.
  pose proof root_stored as Hs. destruct (sf_fields _ _ _ _ Hs) as [addrs Ei].
  assert (file_ok geo sb V root) as Hok by (apply file_ok_size; [apply Hs|apply root_size]).
  assert (root = MkInode 1 ROOTINO 0 (MkSl false 0) true T_DIR 0 0 1 size addrs) as E by (by rewrite -> Ei).
  split_and!; [done| |by eexists]. rewrite <- (inode_with_fields _ _ _ _ _ _ E) at 2.
  replace ROOTINO with (i_inum root) at 1 by (by rw E). apply disk_inode_updated; [apply Hok|].
  apply (sd_blk _ _ (tr_disk _ _ _ Ht)). by rw E.
Qed.

Lemma root_ext : (∀ x, 0 ≤ x < sb_size sb → used sb V' x = used sb V x) ∧ (∀ a, owns V root a → V' a = V a) ∧ (∀ b, b ≠ 32 → V' b = V b).
Proof using Ht Hdir.
  destruct root_inode as (Hok & _ & addrs & E). destruct (updated_other geo sb V root (mkfs_fs_ok _ _ (tr_disk _ _ _ Ht)) Hok root) as [Hu Ho]; [by rw E|].
  split_and!; [done..|]. intros b Hb. apply vset_ne. by rw E.
Qed.

Lemma root_others m : 1 < m ≤ Z.of_nat (length files) + 1 → I V' m = I V m ∧ (∀ a, owns V' (I V m) a → owns V (I V m) a) ∧
  ∀ ty data, stored V m ty data → stored V' m ty data.
Proof using Ht Hdir.
  intros Hm. destruct root_inode as (Hok & _ & addrs & E). destruct (tr_count _ _ _ Ht) as [_ Hc]. cbn [length] in Hc. rw length_fmap in Hc.
  assert (i_inum root = 1) as Hr by (by rw E).
  pose proof (λ ty data, stored_updated st V root m ty data (tr_disk _ _ _ Ht) (fk_inode _ _ _ _ Hok) ltac:(by rw Hr) ltac:(lia) ltac:(rw Hr; lia)) as H.
  destruct (tree_file _ _ _ m Ht) as (ty & data & _ & Hs); [cbn [length]; rw length_fmap; lia|]. destruct (H ty data Hs) as (H1 & _ & H3).
  split_and!; [done..|]. intros t d Hs'. by apply H.
Qed.

Lemma root_hole : (∃ bn, 0 ≤ bn ∧ bn * BSIZE < size ∧ faddr V' root bn = 0) ↔ Z.of_nat (length dir) mod BSIZE = 0.
Proof using Ht Hdir.
  destruct root_ext as (_ & Ho & _). destruct (file_ext V root V' Ho) as [Hfa _]. change MAXFILE with 140 in *.
  pose proof (sf_compact _ _ _ _ root_stored) as [Hc _]. change MAXFILE with 140 in Hc. unfold BSIZE in *. split.
  - intros (bn & Hb0 & Hb & H0). assert (0 ≤ bn < 140) as Hr by dlia. rewrite -> Hfa in H0 by done.
    assert (faddr V (I V ROOTINO) bn = 0) as H1 by exact H0. specialize (Hc bn Hr). rewrite -> H1 in Hc. dlia.
  - intros Hm. exists (Z.of_nat (length dir) / 512). assert (0 ≤ Z.of_nat (length dir) / 512 < 140) as Hr by dlia. split_and!; [lia|lia|].
    rewrite -> Hfa by done. change (faddr V (I V ROOTINO) (Z.of_nat (length dir) / 512) = 0).
    destruct (Z.eq_dec (faddr V (I V ROOTINO) (Z.of_nat (length dir) / 512)) 0) as [|Hne]; [done|]. apply (Hc _ Hr) in Hne. dlia.
Qed.

Lemma finish_run : ∃ st' V', finish ROOTINO st = Ok tt st' ∧ mkfs_image st' V' dir files.
Proof using Ht Hdir.
  pose proof (tr_disk _ _ _ Ht) as HV. pose proof root_size as Hsz. pose proof root_stored as Hs. destruct root_inode as (Hok & Ei & addrs & E).
  destruct root_ext as (Hu & Ho & Hother). destruct (sf_fields _ _ _ _ Hs) as [addrs0 E0].
  assert (Z.of_nat (length dir) < 2 ^ 32) as Hd by (change MAXFILE with 140 in Hdir; unfold BSIZE in Hdir; lia).
  destruct (winode_run st V ROOTINO root HV ltac:(done) ltac:(by rw E) (fk_inode _ _ _ _ Hok)) as (st1 & E1 & HV1 & Hfn & Hfb).
  pose proof (sd_fb _ _ HV) as Hb. change nmeta with 59 in Hb. pose proof (sd_len _ _ HV1) as Hl. unfold FSSIZE in Hb, Hl.
  set (st2 := set_img (<[58%nat := mark_used (Z.to_nat (freeblock st1)) 0 zeros]> (img st1)) st1). exists st2, V'. split.
  { unfold finish. rw (bind_ok _ _ _ _ _ (rinode_run st V ROOTINO HV ltac:(done))). cbv zeta.
    replace (i_size (I V ROOTINO)) with (Z.of_nat (length dir)) by (by rewrite -> E0).
    rewrite -> (xint_id (Z.of_nat (length dir))) by lia. rewrite -> (wrapu_small 32 size) by done. rewrite -> xint_id by done. rw (bind_ok _ _ _ _ _ E1).
    erewrite bind_ok; [|done]. unfold mkfs_balloc, cassert. rewrite -> (proj2 (Z.ltb_lt _ _)) by (rw Hfb; unfold BSIZE; lia).
    erewrite bind_ok; [|done]. unfold wsect, modify, write_block. change (Z.to_nat (u32 (sb_bmapstart sb * BSIZE) / BSIZE)) with 58%nat.
    rewrite -> decide_True by (rw Hl; lia). done. }
  assert (∀ b, 0 ≤ b < FSSIZE → used sb V' b = (b <? freeblock st1)) as Hused by (by apply used_fb).
  split.
  - split; [cbn; by rw length_insert|]. intros b Hb'. cbn [img st2 set_img]. destruct (decide (b = 58)) as [->|Hne].
    + rewrite -> list_lookup_insert_eq by (rw Hl; lia). by rewrite <- (sd_bits _ _ HV1).
    + rewrite -> list_lookup_insert_ne by lia. by apply (sd_img _ _ HV1).
  - rewrite -> Hother, (proj1 (tr_low _ _ _ Ht)) by lia. apply sb_block_ok.
  - change (sb_logstart sb) with 2. change (sb_nlog sb) with 30. intros b Hb'. rewrite -> Hother by lia. apply (proj2 (tr_low _ _ _ Ht)); lia.
  - split; [by eapply mkfs_fs_ok|by eapply mkfs_blocks_ok].
  - intros b Hb'. rewrite -> Hused, Hfb, (tr_space _ _ _ Ht) by done. rw total_cons. cbn [snd]. f_equal. lia.
  - rw Ei. by exists addrs.
  - rw Ei. split; [eapply file_ok_ext; [exact Hok|exact Ho|intros x Hx; by rewrite -> Hu]|]. intros o Ho'. unfold fbyte at 1.
    rewrite -> (proj2 (file_ext V root V' Ho)) by (eapply (block_range o 1); lia). by apply (sf_bytes _ _ _ _ Hs).
  - rw Ei. change (i_size root) with size. apply root_hole.
  - intros k data Hk. apply root_others; [apply lookup_lt_Some in Hk; lia|]. replace (Z.of_nat k + 2) with (Z.of_nat (S k) + 1) by lia.
    apply (tr_files _ _ _ Ht). cbn [lookup list_lookup]. by rw list_lookup_fmap Hk.
  - assert (∀ m, 1 ≤ m ≤ Z.of_nat (length files) + 1 → ∀ a, owns V' (I V' m) a → owns V (I V m) a) as Hown.
    { intros m Hm a. destruct (decide (m = 1)) as [->|Hm1]; [|destruct (root_others m ltac:(lia)) as (-> & Ho1 & _); apply Ho1].
      change 1 with ROOTINO. rw Ei. intros Ha. change (owns V root a). by eapply owns_ext. }
    intros n n' a Hn Hn' Hne Ha Ha'. apply Hown in Ha, Ha'; [|done..]. revert Ha'. eapply (tr_apart _ _ _ Ht n n'); [..|done|done]; cbn [length]; rw length_fmap; lia.
  - intros n Hn. pose proof (IBLOCK_range n ltac:(lia)).
    assert (I V' n = I V n) as ->.
    { apply (disk_inode_updated_ne geo); [apply (mkfs_fs_ok _ _ HV)|apply Hok|apply (sd_blk _ _ HV); by rw E|change (sb_ninodes sb) with NINODES; lia|by rw E|rw E; cbn [i_inum]; unfold ROOTINO; lia]. }
    rewrite -> (tr_unused _ _ _ Ht n) by (cbn [length]; rw length_fmap; lia). done.
Qed.
End finish.

(** The contents of the root directory. *)
Definition root_dir (files : list (list Z)) : list Z :=
  dirent_bytes ROOTINO (strncpy (replicate DIRSIZ 0) [46] DIRSIZ) ++
  dirent_bytes ROOTINO (strncpy (replicate DIRSIZ 0) [46; 46] DIRSIZ) ++ file_entries 2 files.

(** [main] up to the loop over the files. *)
Lemma root_run (st : mkst) : tree st blank_disk [] → ∀ d1 d2 : Z → list Z,
  length (d1 ROOTINO) = 16%nat → length (d2 ROOTINO) = 16%nat → bytes (d1 ROOTINO) → bytes (d2 ROOTINO) →
  ∃ st' V', (∀ A (k : Z → M mkst A), (rootino ← mkfs_ialloc T_DIR; cassert (rootino =? ROOTINO) "rootino == ROOTINO";;
      iappend rootino (d1 rootino);; iappend rootino (d2 rootino);; k rootino) st = k ROOTINO st') ∧ tree st' V' [(T_DIR, d1 ROOTINO ++ d2 ROOTINO)].
Proof.
  intros Ht d1 d2 Hl1 Hl2 Hb1 Hb2. destruct (ialloc_run st blank_disk [] T_DIR Ht) as (st1 & V1 & E1 & Ht1); [done..|]. cbn [app length] in Ht1, E1.
  destruct (iappend_run st1 V1 [(T_DIR, [])] 0 T_DIR [] (d1 ROOTINO) Ht1 eq_refl Hb1) as (st2 & V2 & E2 & Ht2).
  { rw Hl1. by vm_compute. }
  { change (<[0%nat := ?x]> [?y]) with [x]. rw total_cons. cbn [snd app]. rw Hl1. by vm_compute. }
  change (<[0%nat := ?x]> [?y]) with [x] in Ht2. cbn [app] in Ht2.
  destruct (iappend_run st2 V2 [(T_DIR, d1 ROOTINO)] 0 T_DIR (d1 ROOTINO) (d2 ROOTINO) Ht2 eq_refl Hb2) as (st3 & V3 & E3 & Ht3).
  { rw Hl1 Hl2. by vm_compute. }
  { change (<[0%nat := ?x]> [?y]) with [x]. rw total_cons. cbn [snd]. rw length_app Hl1 Hl2. by vm_compute. }
  exists st3, V3. split; [|done]. intros A k. rw (bind_ok _ _ _ _ _ E1). erewrite bind_ok; [|done]. change (Z.of_nat 0 + 1) with 1 in *.
  rw (bind_ok _ _ _ _ _ E2). by rw (bind_ok _ _ _ _ _ E3).
Qed.

(** C22: mkfs.c.  For files that can be opened, whose names have no slash, that
    fit the size of a file, the number of inodes and the number of blocks,
    mkfs ends, and the image it leaves is a file system: the superblock in
    block 1, an empty log, a bitmap that marks exactly the metadata and the
    blocks of the files, the root directory with its own two entries and one
    for each file in the order of the arguments (the leading underscore
    dropped), inode [k + 2] with the bytes of the file [k], no block in two
    files, and the other inodes free.  The size of the root directory is
    rounded up so that it has a block without storage exactly when the entries
    fill their blocks. *)
Theorem mkfs_correct (create : list Z → bool) (host : list Z → option (list (list Z))) (prog image : list Z)
    (files : list (list Z)) (pieces : list (list (list Z))) :
  create image = true → Forall2 (arg_ok host) files pieces → Z.of_nat (length files) + 1 < NINODES →
  nmeta + nblk (16 * (Z.of_nat (length files) + 2)) + total ((λ ps, (T_FILE, concat ps)) <$> pieces) ≤ FSSIZE →
  ∃ st V, mkfs_main create host (prog :: image :: files) mkfs_start = Ok tt st ∧
    mkfs_image st V (root_dir files) (@concat Z <$> pieces).
Proof.
  intros Hcr Hok Hn Hroom. set (st0 := set_img (<[1%nat := sb_block]> (replicate (Z.to_nat FSSIZE) zeros)) (set_freeblock nmeta mkfs_start)).
  pose proof (blank_tree st0 eq_refl eq_refl eq_refl) as Ht0.
  destruct (dirent_ok ROOTINO [46]) as [Hl1 Hb1]; [by repeat constructor|]. destruct (dirent_ok ROOTINO [46; 46]) as [Hl2 Hb2]; [by repeat constructor|].
  destruct (root_run st0 Ht0 (λ r, dirent_bytes (xshort r) (strncpy (replicate DIRSIZ 0) [46] DIRSIZ)) (λ r, dirent_bytes (xshort r) (strncpy (replicate DIRSIZ 0) [46; 46] DIRSIZ))
    Hl1 Hl2 Hb1 Hb2) as (st1 & V1 & E1 & Ht1). change (xshort ROOTINO) with ROOTINO in Ht1.
  set (d1 := dirent_bytes ROOTINO (strncpy (replicate DIRSIZ 0) [46] DIRSIZ)) in *. set (d2 := dirent_bytes ROOTINO (strncpy (replicate DIRSIZ 0) [46; 46] DIRSIZ)) in *.
  assert (length (d1 ++ d2) = 32%nat) as Hl by (rw length_app Hl1 Hl2; done).
  destruct (add_files_run host files pieces st1 V1 (d1 ++ d2) [] Hok Ht1) as (st2 & V2 & E2 & Ht2); rw ?Hl; [done|done| |].
  { change (total []) with 0. replace (Z.of_nat (32 + 16 * length files)) with (16 * (Z.of_nat (length files) + 2)) by lia. lia. }
  change ((d1 ++ d2) ++ file_entries (Z.of_nat 0 + 2) files) with ((d1 ++ d2) ++ file_entries 2 files) in Ht2. rw -app_assoc in Ht2.
  change (d1 ++ d2 ++ file_entries 2 files) with (root_dir files) in Ht2. cbn [app] in Ht2.
  assert ((λ ps, (T_FILE, concat ps)) <$> pieces = pair T_FILE <$> (@concat Z <$> pieces)) as Ef by (by rw -list_fmap_compose). rw Ef in Ht2.
  assert (length (root_dir files) = (32 + 16 * length files)%nat) as Hld.
  { assert (Forall bytes files) as Hbf by (clear -Hok; induction Hok as [|? ? ? ? Ha _ IH]; constructor; [apply Ha|done]).
    change (root_dir files) with (d1 ++ d2 ++ file_entries 2 files). rw app_assoc length_app (proj1 (file_entries_ok files 2 Hbf)). by rewrite -> Hl. }
  destruct (finish_run st2 V2 (root_dir files) (@concat Z <$> pieces) Ht2) as (st3 & V3 & E3 & Him).
  { rw Hld. change MAXFILE with 140. unfold BSIZE, NINODES in *. lia. }
  exists st3, V3. split; [|done]. unfold mkfs_main. do 2 (erewrite bind_ok; [|done]). rw Hcr. cbn [negb]. erewrite bind_ok; [|done].
  rewrite -> (bind_ok _ _ _ _ _ (wsect_zeros 1000 0 (set_freeblock nmeta mkfs_start) eq_refl ltac:(done) ltac:(done))).
  erewrite bind_ok; [|done]. change (set_img _ _) with st0.
  etransitivity; [apply (E1 _ (λ rootino, mfor files (add_file host rootino);; finish rootino))|]. change ROOTINO with 1. by rw (bind_ok _ _ _ _ _ E2).
Qed.

Lemma mkfs_correct_witness :
  ∃ st V, mkfs_main (λ _, true) (λ _, Some [[104; 105]; [10]]) [chars "mkfs"; chars "fs.img"; chars "_hi"] mkfs_start = Ok tt st ∧
    mkfs_image st V (root_dir [chars "_hi"]) [[104; 105; 10]].
Proof.
  apply (mkfs_correct (λ _, true) (λ _, Some [[104; 105]; [10]]) (chars "mkfs") (chars "fs.img") [chars "_hi"] [[[104; 105]; [10]]]).
  - done.
  - constructor; [|constructor]. split_and!; [|by repeat constructor|done|by repeat constructor|by vm_compute].
    apply (bool_decide_unpack (47 ∉ chars "_hi")). by vm_compute.
  - done.
  - by vm_compute.
Defined.
